(* ===== verification/_CoqProject ===== *)
-Q . S2P
Prelude.v
StatusCode.v
LibuvCompat.v
Logging.v
VariableLengthSize.v
MessageFraming.v
MessageServer.v
Utf8Codecvt.v
Inet.v
Endpoint.v
Path.v
Quoted.v
PathText.v
PathReverse.v
Backlog.v
BacklogMove.v
EventLoop.v
LoopServices.v
LoopFinish.v
Lifetime.v
Timer.v
UdpServer.v
UdpClient.v
TcpStream.v
TcpServer.v
TcpCallbacks.v
TcpMessages.v
TcpClient.v
File.v
PathNames.v
DirTree.v
MakeDirs.v
Dir.v
SslContext.v
Configuration.v
OpenSsl.v
TlsClient.v
TlsServer.v
DtlsClient.v
DtlsServer.v
Dns.v
