(* ===== verification/Prelude.v ===== *)
(** * tarm-io: a verification library

    tarm-io ([source/io]) is an asynchronous networking and file library in C++ on top of libuv: an
    event loop, timers, deferred object removal, sockets over UDP, TCP, TLS and DTLS, a
    message framing over byte streams, files, directories and their paths, and the small codecs they need.  This
    development models the parts that carry the library's own logic and proves what they promise.

    ** How the parts work together

    Every object lives on an [EventLoop].  User callbacks are run by the loop: scheduled from its
    own thread, posted from others, from timers, signals or thread-pool work.  Objects are
    [Removable]: they delete themselves from a loop iteration after their removal was scheduled;
    [RefCounted] does so when its last reference goes.  [Timer] is used by [BacklogWithTimeout],
    which finds items that have been silent for too long; [UdpServer] keeps its peers in one, by
    the [PeerId] of their [Endpoint].  [Endpoint] stores addresses in network byte order ([ByteSwap])
    and reads them from text ([Convert]).  Message-oriented clients frame messages with a
    [VariableLengthSize]; [GenericMessageOrientedServer] keeps one such framing per connection of its transport.  Every fallible call returns an [Error] over a [StatusCode]
    translated from libuv's codes.  [fs::Path] converts its text through a facet such as [Utf8CodecvtFacet], and is written
    to and read from streams in quotation marks.

    [TcpServer] and [TcpClient] share the sending and reading of their streams.  [TlsServer] and
    [TlsClient] sit on them, [DtlsServer] and [DtlsClient] on the UDP classes; the four have one base,
    [OpenSslClientImplBase], which passes bytes between its transport and OpenSSL, and a context
    with the range of protocol versions.  [File] and [Dir] share their way of opening.

    ** Files

    - [Prelude]: machine words as [Z] with their wrap-around, little-endian byte lists, the
      [outcome] of a C++ call with the faults the models detect, [memcpy], text; hint database [words].
    - [StatusCode] ([StatusCode.cpp], [Error.cpp]): the enumeration, the translation of libuv codes
      over the class [UvErrno], [Error], its texts and its equivalence.
    - [LibuvCompat] ([detail/LibuvCompatibility.cpp], POSIX): closing with a reset and socket options, over a table of sockets.
    - [Logging] ([Logger.cpp], [Logger.h], [detail/LogMacros.h], [detail/ConstexprString.h]): what a log line has in it.
    - [VariableLengthSize] ([core/VariableLengthSize.cpp]): the bit-packed encoder and decoder,
      refined against lists of septets.
    - [MessageFraming] ([net/GenericMessageOriented*.h]): sending and receiving of framed
      messages, refined against an automaton that reads one byte at a time.
    - [MessageServer] ([net/GenericMessageOrientedServer.h], [GenericMessageOrientedConnectedClient.h],
      [GenericMessageOrientedClient.h]): the wrappers of connections on a heap, and the client over several connections.
    - [Utf8Codecvt] ([fs/path_impl/Utf8CodecvtFacet.cpp]): [do_in], [do_out], [do_length].
    - [Inet] ([ByteSwap.cpp], [Convert.cpp]): byte order over the class [Host], IPv4 text.
    - [Endpoint] ([net/Endpoint.cpp], [net/detail/PeerId.cpp]): addresses in their [sockaddr]
      storage over the class [Inet6] of libuv's IPv6 text conversions, and peer identifiers.
    - [Path] ([fs/Path.cpp], [Path.h], POSIX): decomposition, iteration, comparison, modification,
      normalisation, refined against the list of path elements.
    - [Quoted] ([fs/path_impl/QuotedManip.h]): quoted text on streams with their state bits, flags and width.
    - [PathText] ([fs/Path.h], [fs/path_impl/PathTraits.cpp], [PathTraits.h], [HashRange.cpp]): paths made from and extended by sources of
      either character type through any facet, wide text, streams, locale and hash.
    - [PathReverse] ([fs/Path.h]): the reverse iterator, over [decrement] of [Path].
    - [Backlog] ([BacklogWithTimeout.h]): buckets re-examined by timers of halving periods, with an
      expiry callback that may call back into the object.
    - [BacklogMove] ([BacklogWithTimeout.h]): move operations, destruction and the back pointers of timers, over all objects.
    - [EventLoop] ([EventLoop.cpp]): scheduled, posted and per-cycle callbacks, the exit-blocking
      timer, [run]; module [Posting] interleaves posting threads with the loop thread, which runs the modelled functions.
    - [LoopServices] ([EventLoop.cpp]): signal handlers, refined against a table of subscriptions,
      and thread-pool work as steps of the loop, the pool and the cancelling code.
    - [LoopFinish] ([EventLoop.cpp]): construction and [finish], over libuv's table of handles.
    - [Lifetime] ([Removable.cpp], [RefCounted.cpp]): deferred deletion and reference counting.
    - [Timer] ([Timer.cpp]): sequences of timeouts, repetition, restart from the callback.
    - [UdpServer] ([net/UdpServer.cpp], [UdpPeer.cpp], [detail/UdpImplBase.h]): peer bookkeeping on
      top of [Backlog], as transitions with an invariant over all runs.
    - [UdpClient] ([net/UdpClient.cpp], [detail/UdpClientImplBase.h], [detail/UdpImplBase.h]):
      destination, receive filter, sending on top of [Lifetime], buffer sizes.
    - [TcpStream] ([net/detail/TcpClientImplBase.h]): sending with its requests, the read buffer that is
      shared with user code.
    - [TcpServer] ([net/TcpServer.cpp], [TcpConnectedClient.cpp]): the server and its connections.
    - [TcpCallbacks]: the order of the callbacks of each connection of a [TcpServer], over all runs.
    - [TcpMessages]: [GenericMessageOrientedServer<TcpServer>], the composition of [TcpServer] and [MessageServer].
    - [TcpClient] ([net/TcpClient.cpp]): connecting, shutting down and closing over a heap of handles and requests.
    - [File] ([fs/File.cpp], [fs/detail/FsCommon.h]): opening, reading with a pool of shared buffers, closing, removal.
    - [PathNames], [DirTree], [MakeDirs] ([fs/Dir.cpp], [fs/Functions.cpp]): [remove_dir], [make_dir], [make_all_dirs] and
      [make_temp_dir] over a file system of names.
    - [Dir] ([fs/Dir.cpp], [Continuation.h]): the class with its listings, closing and removal.
    - [SslContext] ([net/detail/OpenSslContext.h], [net/ProtocolVersion.cpp]): ranges of protocol versions as options.
    - [Configuration] ([global/Configuration.cpp]): the searches for socket buffer sizes, the variables they initialise, the settings.
    - [OpenSsl] ([net/detail/OpenSslClientImplBase.h]): handshake, reading, sending and shutdown, over the classes [Ssl] of OpenSSL
      and [Transport]; the virtual functions are the class [Derived], which the four clients instantiate.
    - [TlsClient], [TlsServer] ([net/TlsClient.cpp], [TlsServer.cpp], [TlsConnectedClient.cpp]), [DtlsClient], [DtlsServer]
      ([net/DtlsClient.cpp], [DtlsServer.cpp], [DtlsConnectedClient.cpp]): the clients and servers over it.
    - [Dns] ([net/Dns.cpp]): resolving host names.

    State is passed explicitly; a record has the members of the C++ class under their names, with
    ghost members that record callbacks where a theorem speaks of them.  User callbacks are
    parameters: what they do to the object is data of the model, so that re-entrancy is covered.
    libuv is modelled where the code depends on how it behaves (idle handles, timers, the thread
    pool's queue, [inet_pton4]); its return codes, the clock and the host's byte order are
    arguments or classes.  OpenSSL is a class with the laws that the theorems need (reading delivers what
    was decrypted, a secure channel delivers what was written); a small cipher shows that they can hold.
    The TLS and DTLS classes see their TCP or UDP object through the calls they make of it.

    ** What the theorems show

    - Round trips: framed messages survive any fragmentation, and so does the data sent over TLS; sizes, UTF-8 text, byte order, IPv4 text
      and endpoints decode to what was encoded; paths survive streams and wide text.
    - Composition: over every run of a TCP server the callbacks of a connection come in order, which is what a message server on top of it needs;
      the messages that peers send are reported to its user once, in order and unchanged.
    - Refinement: the packed size decoder, the framing loop, path iteration and signal handling
      implement their abstract specifications; appending any source to a path is [operator/=] of the path made from it, and reverse
      iteration is forward iteration reversed.
    - Invariants over all runs: callbacks run once and in order and are never forgotten, also under
      posting from several threads; the timers of a backlog find it wherever it was moved to; wrappers exist as long as their connections; the servers' tables of peers, connections and their TLS or DTLS clients agree;
      every send is answered once; connect, close and handshake callbacks are called once, and the theorems count the failures of libuv or OpenSSL
      after which the code calls one again; memory that user
      code holds is not written to; deletion happens once.
    - Termination and completeness: a closed server reports its end, a connect is answered, a file and a
      directory are delivered entry by entry, trees are removed and made, the searches for sizes end.
    - Behaviour on every branch of timers, backlog, work cancellation, packets and error paths, and
      the bounds on machine integers.
    - Where the code goes wrong the fault is proved as such: the buffer overrun after a malformed
      size, items lost by re-entrant removal, iterators and references used after a callback erased
      them, double deletion, a running callback destroyed, DTLS clients used after their peer timed out,
      directories that can not be opened again or recurse without end, a null wrapper followed when a connection ends twice,
      paths that are equal with different hashes, text cut where a conversion fails.
    - Theorems about runs name the use they assume in their step relation, and their comments say it: what user code calls and when.
      Where the code does not defend against other uses, an example shows what happens then; failures of libuv that the code
      does not survive are counted or shown in the same way.

    ** Fuel

    Loops that are not structural take fuel and return [FuelExhausted] without it.  Each has a
    theorem with a bound that is enough: the receive loop runs at most twice per byte, a backlog
    timer once per item of its bucket, a cycle of the loop once per idle handle, path iteration once
    per character, reading a quotation once per character left in the stream, the size encoder at most ten times.  Reading from OpenSSL takes one unit per byte of
    decrypted data and its theorems say that all larger amounts give the same; removal of a tree takes
    two units per entry.  In [Dir] the fuel is the depth of the stack, and running out of it is the recursion
    that is proved to have no end.  [EventLoop.run] may rightly never return;
    its theorem speaks of the state when it does.

    ** Not modelled

    Destructors beyond what removal needs; the TLS and DTLS classes are not composed with [TcpServer] and [UdpServer] into one
    state, they see the calls; what the facet of the environment's locale does, which is a parameter; the Windows branches and their code pages; the
    public classes that only forward to their [Impl]; set-up of OpenSSL, user data cells, guards and macros, which have no state of their own. *)

From stdpp Require Export base tactics option list list_numbers numbers strings gmap sets.
From Stdlib Require Export ZArith Lia.

Global Set Default Goal Selector "!".
Global Open Scope Z_scope.

(** ** Fixed-width unsigned integers

    A C++ unsigned integer of [w] bits is a [Z] in [[0, 2^w)]; every operation of
    the source that can leave the range is followed by [wrap w]. *)

Definition wrap (w z : Z) : Z := z mod 2 ^ w.

Definition fits (w z : Z) : Prop := 0 <= z < 2 ^ w.

Declare Scope word_scope.
Delimit Scope word_scope with word.

Notation "x .& y" := (Z.land x y) (at level 32, left associativity) : word_scope.
Notation "x .| y" := (Z.lor x y) (at level 33, left associativity) : word_scope.
Notation "x >>> n" := (Z.shiftr x n) (at level 31, left associativity) : word_scope.
Notation "x <<<[ w ] n" := (wrap w (Z.shiftl x n))
  (at level 31, left associativity, format "x  <<<[ w ]  n") : word_scope.
(** [~x] of a [w]-bit operand. *)
Notation "'cpl[' w ] x" := (Z.lxor x (2 ^ w - 1))
  (at level 29, right associativity, format "'cpl[' w ]  x") : word_scope.

#[global] Instance fits_dec w z : Decision (fits w z).
Proof. unfold fits. apply _. Defined.

Lemma wrap_fits w z : 0 <= w -> fits w (wrap w z).
Proof. intros. unfold fits, wrap. apply Z.mod_pos_bound. lia. Qed.

Lemma wrap_small w z : fits w z -> wrap w z = z.
Proof. intros. unfold wrap. by apply Z.mod_small. Qed.

Lemma wrap_wrap w z : wrap w (wrap w z) = wrap w z.
Proof. unfold wrap. apply Zmod_mod. Qed.

Lemma fits_nonneg w z : fits w z -> 0 <= z.
Proof. unfold fits; lia. Qed.

Lemma fits_weaken w w' z : 0 <= w <= w' -> fits w z -> fits w' z.
Proof.
  unfold fits; intros Hw Hz. split; [lia|].
  eapply Z.lt_le_trans; [apply Hz|]. apply Z.pow_le_mono_r; lia.
Qed.

Create HintDb words.
#[export] Hint Resolve wrap_fits fits_nonneg : words.
Create Rewrite HintDb words.
#[export] Hint Rewrite wrap_wrap : words.

(** ** Bit-level facts the codecs share *)

Lemma testbit_high w z n : fits w z -> 0 <= w <= n -> Z.testbit z n = false.
Proof.
  intros Hz Hn. rewrite <- (Z.mod_small z (2 ^ w)) by exact Hz.
  apply Z.mod_pow2_bits_high. lia.
Qed.

(** Disjoint bit fields: [or] is addition. *)
Lemma lor_add_fields w hi lo :
  0 <= w -> fits w lo -> Z.lor (hi * 2 ^ w) lo = hi * 2 ^ w + lo.
Proof.
  intros Hw Hlo. rewrite <- Z.shiftl_mul_pow2 by lia.
  symmetry. rewrite Z.add_nocarry_lxor, Z.lxor_lor; [done| |].
  all: apply Z.bits_inj'; intros n Hn; rewrite Z.land_spec, Z.bits_0.
  all: destruct (decide (n < w)); [rewrite Z.shiftl_spec_low by lia; done|].
  all: rewrite (testbit_high w lo n) by (done || lia); apply andb_false_r.
Qed.

Lemma lor_add_fields_r w hi lo :
  0 <= w -> fits w lo -> Z.lor lo (hi * 2 ^ w) = hi * 2 ^ w + lo.
Proof. intros. rewrite Z.lor_comm. by apply lor_add_fields. Qed.

(** Masking with [2^n - 1] keeps the low [n] bits. *)
Lemma land_low_mask n z : 0 <= n -> Z.land z (2 ^ n - 1) = z mod 2 ^ n.
Proof. intros. rewrite Z.sub_1_r, <- Z.ones_equiv. by apply Z.land_ones. Qed.

(** Masking with a single bit tests it. *)
Lemma land_bit_eqb n z : 0 <= n -> (Z.land z (2 ^ n) =? 0) = negb (Z.testbit z n).
Proof.
  intros Hn. apply eq_true_iff_eq. rewrite Z.eqb_eq, negb_true_iff. split.
  - intros H. apply (f_equal (fun x => Z.testbit x n)) in H.
    rewrite Z.land_spec, Z.pow2_bits_true, andb_true_r, Z.bits_0 in H by done. done.
  - intros H. apply Z.bits_inj'. intros i Hi.
    rewrite Z.land_spec, Z.bits_0, Z.pow2_bits_eqb by lia.
    destruct (n =? i) eqn:E; [|by rewrite andb_false_r].
    apply Z.eqb_eq in E as <-. by rewrite H.
Qed.

Lemma testbit_div n z : 0 <= n -> Z.testbit z n = ((z / 2 ^ n) mod 2 =? 1).
Proof.
  intros.
  destruct (Z.testbit z n) eqn:E.
  - apply Z.testbit_true in E; [|lia]. by rewrite E.
  - apply Z.testbit_false in E; [|lia]. by rewrite E.
Qed.

(** ** Bytes and little-endian words *)

Definition byte_ok (b : Z) : Prop := fits 8 b.

(** The value of a byte list, first byte least significant. *)
Fixpoint le_val (bs : list Z) : Z :=
  match bs with
  | [] => 0
  | b :: rest => b + 256 * le_val rest
  end.

(** The [n] low bytes of [z] in memory order on a little-endian host. *)
Fixpoint le_split (n : nat) (z : Z) : list Z :=
  match n with
  | O => []
  | S n => z mod 256 :: le_split n (z / 256)
  end.

Lemma pow256 k : 2 ^ (8 * Z.of_nat (S k)) = 256 * 2 ^ (8 * Z.of_nat k).
Proof.
  replace (8 * Z.of_nat (S k)) with (8 + 8 * Z.of_nat k) by lia.
  by rewrite Z.pow_add_r by lia.
Qed.

Lemma le_val_app xs ys : le_val (xs ++ ys) = le_val xs + 2 ^ (8 * Z.of_nat (length xs)) * le_val ys.
Proof.
  induction xs as [|x xs IH]; simpl length; [simpl; lia|].
  rewrite pow256. simpl. rewrite IH. lia.
Qed.

Lemma le_val_bound bs : Forall byte_ok bs -> fits (8 * Z.of_nat (length bs)) (le_val bs).
Proof.
  induction 1 as [|b bs Hb _ IH]; simpl length; [unfold fits; simpl; lia|].
  unfold fits in *. rewrite pow256. unfold byte_ok, fits in Hb. simpl. lia.
Qed.

Lemma length_le_split n z : length (le_split n z) = n.
Proof. revert z; induction n; simpl; intros; [done|by f_equal]. Qed.

Lemma le_split_bytes n z : Forall byte_ok (le_split n z).
Proof.
  revert z; induction n; simpl; constructor; [|done].
  unfold byte_ok, fits. apply Z.mod_pos_bound. lia.
Qed.

Lemma le_split_le_val bs : Forall byte_ok bs -> le_split (length bs) (le_val bs) = bs.
Proof.
  induction 1 as [|b bs Hb _ IH]; simpl; [done|]. unfold byte_ok, fits in Hb.
  rewrite (Z.mul_comm 256), Z.mod_add, Z.mod_small by lia.
  rewrite Z.div_add, (Z.div_small b) by lia. by rewrite Z.add_0_l, IH.
Qed.

Lemma le_val_le_split n z : le_val (le_split n z) = z mod 2 ^ (8 * Z.of_nat n).
Proof.
  revert z; induction n as [|n IH]; intros z; [simpl; by rewrite Z.mod_1_r|].
  rewrite pow256. simpl. rewrite IH, Z.rem_mul_r by lia. lia.
Qed.

(** A shorter value padded to [n] bytes is its own bytes followed by zeros. *)
Lemma take_le_split n m z : (n <= m)%nat -> take n (le_split m z) = le_split n z.
Proof.
  revert m z; induction n as [|n IH]; intros [|m] z H; simpl; [done|done|lia|].
  f_equal. apply IH. lia.
Qed.

(** ** Words as concatenations of bit fields *)

Lemma testbit_field w hi lo n :
  0 <= w -> fits w lo -> 0 <= n ->
  Z.testbit (hi * 2 ^ w + lo) n =
    if n <? w then Z.testbit lo n else Z.testbit hi (n - w).
Proof.
  intros Hw Hlo Hn. destruct (n <? w) eqn:E.
  - apply Z.ltb_lt in E. rewrite <- (Z.mod_pow2_bits_low _ w) by lia.
    rewrite Z.add_comm, Z.mod_add by lia.
    by rewrite Z.mod_small by exact Hlo.
  - apply Z.ltb_ge in E. replace n with (n - w + w) at 1 by lia.
    rewrite <- Z.div_pow2_bits, Z.div_add_l, (Z.div_small lo) by (exact Hlo || lia).
    f_equal. lia.
Qed.

Lemma land_fields w h1 l1 h2 l2 :
  0 <= w -> fits w l1 -> fits w l2 -> fits w (Z.land l1 l2) ->
  Z.land (h1 * 2 ^ w + l1) (h2 * 2 ^ w + l2) = Z.land h1 h2 * 2 ^ w + Z.land l1 l2.
Proof.
  intros. apply Z.bits_inj'. intros n Hn.
  rewrite Z.land_spec, !testbit_field, !Z.land_spec by done. by case_match.
Qed.

Lemma land_fits w a b : 0 <= w -> fits w a -> 0 <= b -> fits w (Z.land a b).
Proof.
  intros Hw Ha Hb. unfold fits in *. split; [apply Z.land_nonneg; lia|].
  eapply Z.le_lt_trans; [|apply Ha]. apply Z.ldiff_le; [lia|].
  apply Z.bits_inj'. intros n Hn. rewrite Z.ldiff_spec, Z.land_spec, Z.bits_0.
  by destruct (Z.testbit a n), (Z.testbit b n).
Qed.

(** Bitwise [and] of two little-endian words goes byte by byte. *)
Lemma land_le_val xs ys :
  Forall byte_ok xs -> Forall byte_ok ys -> length xs = length ys ->
  Z.land (le_val xs) (le_val ys) = le_val (zip_with Z.land xs ys).
Proof.
  intros Hx. revert ys. induction Hx as [|x xs Hx _ IH]; intros ys Hy Hl.
  { by destruct ys. }
  destruct Hy as [|y ys Hy Hys]; [done|]. simpl. injection Hl as Hl.
  rewrite <- IH by done.
  replace (x + 256 * le_val xs) with (le_val xs * 2 ^ 8 + x) by lia.
  replace (y + 256 * le_val ys) with (le_val ys * 2 ^ 8 + y) by lia.
  rewrite land_fields; [lia|lia|done|done|].
  apply land_fits; [lia|done|apply Hy].
Qed.

Lemma le_val_zeros n : le_val (replicate n 0) = 0.
Proof. induction n; simpl; lia. Qed.

Lemma le_val_pad bs n : le_val (bs ++ replicate n 0) = le_val bs.
Proof. rewrite le_val_app, le_val_zeros. lia. Qed.

(** ** Outcomes

    What a C++ call can do besides returning: undefined behaviour the model detects
    (an access outside an allocation, a null dereference, a use after free, an object used through
    a pointer of an unrelated class, a handle that was never initialised), a failed
    [assert], a [std::out_of_range] exception, the call of an empty [std::function] (which throws
    [std::bad_function_call]), or, in the model only, a loop that ran out of fuel. *)

Inductive fault :=
| OutOfBounds | NullDeref | UseAfterFree | BadCast | Uninitialised | AssertFailed | OutOfRange | EmptyFunction | FuelExhausted.

Inductive outcome (A : Type) :=
| Ret (a : A)
| Fault (f : fault).
Arguments Ret {A} a.
Arguments Fault {A} f.

#[global] Instance fault_eq_dec : EqDecision fault.
Proof. solve_decision. Defined.
#[global] Instance outcome_eq_dec `{EqDecision A} : EqDecision (outcome A).
Proof. solve_decision. Defined.

Definition obind {A B} (m : outcome A) (k : A -> outcome B) : outcome B :=
  match m with Ret a => k a | Fault f => Fault f end.

Declare Scope outcome_scope.
Delimit Scope outcome_scope with outcome.
Notation "'let*' x ':=' m 'in' k" := (obind m (fun x => k))
  (at level 10, x pattern, m at level 100, k at level 200) : outcome_scope.
Notation "'check' b 'else' f 'in' k" := (if b then k else Fault f)
  (at level 10, b at level 100, f at level 100, k at level 200) : outcome_scope.

Lemma obind_ret {A B} (a : A) (k : A -> outcome B) : obind (Ret a) k = k a.
Proof. reflexivity. Qed.

Lemma obind_assoc {A B C} (m : outcome A) (k : A -> outcome B) (h : B -> outcome C) :
  obind (obind m k) h = obind m (fun a => obind (k a) h).
Proof. by destruct m. Qed.

Lemma obind_ret_inv {A B} (m : outcome A) (k : A -> outcome B) b :
  obind m k = Ret b -> exists a, m = Ret a /\ k a = Ret b.
Proof. destruct m as [a|]; [|done]. intros H. by exists a. Qed.

(** [returns m Q]: the call returns, and its result satisfies [Q]. *)
Definition returns {A} (m : outcome A) (Q : A -> Prop) : Prop :=
  match m with Ret a => Q a | Fault _ => False end.

Lemma returns_ret {A} (a : A) (Q : A -> Prop) : Q a -> returns (Ret a) Q.
Proof. done. Qed.

Lemma returns_inv {A} (m : outcome A) (Q : A -> Prop) : returns m Q -> exists a, m = Ret a /\ Q a.
Proof. destruct m as [a|]; [|done]. intros H. by exists a. Qed.

Lemma returns_mono {A} (m : outcome A) (Q R : A -> Prop) : returns m Q -> (forall a, Q a -> R a) -> returns m R.
Proof. destruct m as [a|]; [|done]. cbn. auto. Qed.

Lemma returns_bind {A B} (m : outcome A) (k : A -> outcome B) (Q : A -> Prop) (R : B -> Prop) :
  returns m Q -> (forall a, Q a -> returns (k a) R) -> returns (obind m k) R.
Proof. destruct m as [a|]; [|done]. cbn. auto. Qed.

(** ** Updating one member of a record

    [s <| m_x := v |>] is [s] with the member [m_x] replaced by [v], and [s <| m_x ::= f |>] with [f]
    applied to it.  A record type declares its members once, with [settable!]; the setter of a member
    is derived from that list by instance search. *)

Class Settable (R : Type) := eta_record : R -> R.
Class Setter {R E : Type} (get : R -> E) := { set_field : (E -> E) -> R -> R }.
Arguments set_field {R E} get {_} _ _.

Ltac derive_setter R get :=
  let e := constr:(@eta_record R _) in
  lazymatch e with
  | @eta_record _ ?inst =>
      let f := eval red in inst in
      refine (Build_Setter _ _ get (fun update_ record_ => ltac:(
        let b := eval cbv beta in (f record_) in
        match b with context C [get record_] => let b' := context C [update_ (get record_)] in exact b' end)))
  end.
#[export] Hint Extern 1 (@Setter ?R ?E ?get) => derive_setter R get : typeclass_instances.

Declare Scope record_scope.
Notation "s <| f := v |>" := (set_field f (fun _ => v) s)
  (at level 1, f at level 200, left associativity, format "s <| f  :=  v |>") : record_scope.
Notation "s <| f ::= u |>" := (set_field f u s)
  (at level 1, f at level 200, left associativity, format "s <| f  ::=  u |>") : record_scope.
Notation "'settable!' c < a ; .. ; z >" := (fun r => .. (c (a r)) .. (z r))
  (at level 0, c at level 0, a, z at level 9, only parsing) : record_scope.

(** ** Arrays

    [std::memcpy(dst + off, src, n)] into an allocation of [length dst] bytes. *)
Definition memcpy (dst : list Z) (off : Z) (src : list Z) : outcome (list Z) :=
  if (0 <=? off) && (off + Z.of_nat (length src) <=? Z.of_nat (length dst))
  then Ret (take (Z.to_nat off) dst ++ src ++ drop (Z.to_nat off + length src) dst)
  else Fault OutOfBounds.

Lemma memcpy_ret dst off src :
  0 <= off -> off + Z.of_nat (length src) <= Z.of_nat (length dst) ->
  exists dst', memcpy dst off src = Ret dst' /\ length dst' = length dst /\
    take (Z.to_nat off + length src) dst' = take (Z.to_nat off) dst ++ src.
Proof.
  intros Ho Hl. unfold memcpy.
  rewrite (proj2 (Z.leb_le 0 off)), (proj2 (Z.leb_le (off + _) _)) by lia. simpl.
  eexists. split; [done|]. split.
  - rewrite !length_app, length_take, length_drop. lia.
  - rewrite app_assoc, take_app_length'; [done|]. rewrite length_app, length_take. lia.
Qed.

Lemma memcpy_fault dst off src :
  0 <= off -> Z.of_nat (length dst) < off + Z.of_nat (length src) ->
  memcpy dst off src = Fault OutOfBounds.
Proof.
  intros Ho Hl. unfold memcpy. by rewrite (proj2 (Z.leb_gt (off + _) _)), andb_false_r by lia.
Qed.

(** ** Text

    A C++ [std::string] of [char] is the list of its [unsigned char] values. *)
Definition chars (s : string) : list Z :=
  map (fun c => Z.of_N (Ascii.N_of_ascii c)) (String.list_ascii_of_string s).

(** The C string seen through [c_str()]: the characters before the first NUL. *)
Fixpoint c_str (s : list Z) : list Z :=
  match s with
  | [] => []
  | c :: s => if c =? 0 then [] else c :: c_str s
  end.

Lemma c_str_id s : 0 ∉ s -> c_str s = s.
Proof.
  induction s as [|c s IH]; simpl; [done|]. intros H. apply not_elem_of_cons in H as [H1 H2].
  rewrite (proj2 (Z.eqb_neq c 0)) by done. by rewrite IH.
Qed.

(** ** Requests under way

    An asynchronous request is numbered and may have a callback; the numbers of those whose callback
    is still to be called. *)
Definition under_way (l : list (nat * bool)) : list nat := (List.filter snd l).*1.

Lemma under_way_app l k : under_way (l ++ k) = under_way l ++ under_way k.
Proof. unfold under_way. by rewrite List.filter_app, fmap_app. Qed.

Lemma under_way_delete l i n (cb : bool) : l !! i = Some (n, cb) ->
  under_way l ≡ₚ (if cb then [n] else []) ++ under_way (delete i l).
Proof.
  revert i. induction l as [|[m c] l IH]; intros i Hi; [done|]. destruct i as [|i]; cbn in Hi.
  - injection Hi as -> ->. cbn. by destruct cb.
  - cbn. unfold under_way in *. cbn. destruct c; cbn; rewrite (IH i Hi); [|done]. destruct cb; cbn; [constructor|done].
Qed.

Lemma account_middle (a b c : list nat) n : a ++ (b ++ [n]) ++ c ≡ₚ n :: a ++ b ++ c.
Proof. rewrite <- app_assoc. cbn. rewrite <- Permutation_middle. by rewrite <- Permutation_middle. Qed.

Lemma account_end (a b c : list nat) n : a ++ b ++ c ++ [n] ≡ₚ n :: a ++ b ++ c.
Proof. rewrite !app_assoc. by rewrite <- Permutation_cons_append. Qed.
