(* ===== verification/StatusCode.v ===== *)
(** * StatusCode and Error

    [source/io/StatusCode.h], [StatusCode.cpp], [Error.h], [Error.cpp]: the closed
    enumeration of status codes, the translation of libuv codes into it, and the
    [Error] value every fallible operation of the library returns.

    The numeric values of the [UV_*] macros depend on the platform's errno.h; they are
    the class [UvErrno], whose laws are what the C preprocessor and compiler already
    enforce (libuv codes are negative and the labels of a [switch] are distinct).
    [UvFallback] is the instance libuv itself defines for platforms without errno
    values. *)

From S2P Require Import Prelude.
Local Open Scope string_scope.
Local Open Scope Z_scope.

(** ** The enumeration ([IO_LIST_OF_STATUS_CODES]) *)

Inductive StatusCode :=
  | OK | UNDEFINED | FILE_NOT_OPEN | DIR_NOT_OPEN | TRANSPORT_INIT_FAILURE
  | TLS_CERTIFICATE_FILE_NOT_EXIST | TLS_PRIVATE_KEY_FILE_NOT_EXIST
  | TLS_CERTIFICATE_INVALID | TLS_PRIVATE_KEY_INVALID
  | TLS_PRIVATE_KEY_AND_CERTIFICATE_NOT_MATCH | NOT_CONNECTED
  | OPERATION_ALREADY_IN_PROGRESS | PEER_NOT_FOUND | OPENSSL_ERROR | ARGUMENT_LIST_TOO_LONG
  | PERMISSION_DENIED | ADDRESS_ALREADY_IN_USE | ADDRESS_NOT_AVAILABLE
  | ADDRESS_FAMILY_NOT_SUPPORTED | RESOURCE_TEMPORARILY_UNAVAILABLE | TEMPORARY_FAILURE
  | BAD_AI_FLAGS_VALUE | INVALID_VALUE_FOR_HINTS | REQUEST_CANCELED | PERMANENT_FAILURE
  | AI_FAMILY_NOT_SUPPORTED | OUT_OF_MEMORY | NO_ADDRESS_AVAILABLE
  | UNKNOWN_NODE_OR_SERVICE | ARGUMENT_BUFFER_OVERFLOW | RESOLVED_PROTOCOL_IS_UNKNOWN
  | SERVICE_NOT_AVAILABLE_FOR_SOCKET_TYPE | SOCKET_TYPE_NOT_SUPPORTED
  | CONNECTION_ALREADY_IN_PROGRESS | BAD_FILE_DESCRIPTOR | RESOURCE_BUSY_OR_LOCKED
  | OPERATION_CANCELED | INVALID_UNICODE_CHARACTER | SOFTWARE_CAUSED_CONNECTION_ABORT
  | CONNECTION_REFUSED | CONNECTION_RESET_BY_PEER | DESTINATION_ADDRESS_REQUIRED
  | FILE_OR_DIR_ALREADY_EXISTS | BAD_ADDRESS_IN_SYSTEM_CALL_ARGUMENT | FILE_TOO_LARGE
  | HOST_IS_UNREACHABLE | INTERRUPTED_SYSTEM_CALL | INVALID_ARGUMENT | IO_ERROR
  | SOCKET_IS_ALREADY_CONNECTED | ILLEGAL_OPERATION_ON_A_DIRECTORY
  | TOO_MANY_SYMBOLIC_LINKS_ENCOUNTERED | TOO_MANY_OPEN_FILES | MESSAGE_TOO_LONG
  | NAME_TOO_LONG | NETWORK_IS_DOWN | NETWORK_IS_UNREACHABLE | FILE_TABLE_OVERFLOW
  | NO_BUFFER_SPACE_AVAILABLE | NO_SUCH_DEVICE | NO_SUCH_FILE_OR_DIRECTORY
  | NOT_ENOUGH_MEMORY | MACHINE_IS_NOT_ON_THE_NETWORK | PROTOCOL_NOT_AVAILABLE
  | NO_SPACE_LEFT_ON_DEVICE | FUNCTION_NOT_IMPLEMENTED | SOCKET_IS_NOT_CONNECTED
  | NOT_A_DIRECTORY | DIRECTORY_NOT_EMPTY | SOCKET_OPERATION_ON_NON_SOCKET
  | OPERATION_NOT_SUPPORTED_ON_SOCKET | OPERATION_NOT_PERMITTED
  | OPERATION_ON_CLOSED_SOCKET | PROTOCOL_ERROR | PROTOCOL_NOT_SUPPORTED
  | PROTOCOL_WRONG_TYPE_FOR_SOCKET | RESULT_TOO_LARGE | READ_ONLY_FILE_SYSTEM
  | CANNOT_SEND_AFTER_TRANSPORT_ENDPOINT_SHUTDOWN | INVALID_SEEK | NO_SUCH_PROCESS
  | CONNECTION_TIMED_OUT | TEXT_FILE_IS_BUSY | CROSS_DEVICE_LINK_NOT_PERMITTED
  | UNKNOWN_ERROR | END_OF_FILE | NO_SUCH_DEVICE_OR_ADDRESS | TOO_MANY_LINKS | HOST_IS_DOWN
  | REMOTE_IO_ERROR | INAPPROPRIATE_IOCTL_FOR_DEVICE | INAPPROPRIATE_FILE_TYPE_OR_FORMAT.

(** Every enumerator, in declaration order: its position is its [uint32_t] value. *)
Definition all_status_codes : list StatusCode :=
  [ OK; UNDEFINED; FILE_NOT_OPEN; DIR_NOT_OPEN; TRANSPORT_INIT_FAILURE
  ; TLS_CERTIFICATE_FILE_NOT_EXIST; TLS_PRIVATE_KEY_FILE_NOT_EXIST; TLS_CERTIFICATE_INVALID
  ; TLS_PRIVATE_KEY_INVALID; TLS_PRIVATE_KEY_AND_CERTIFICATE_NOT_MATCH; NOT_CONNECTED
  ; OPERATION_ALREADY_IN_PROGRESS; PEER_NOT_FOUND; OPENSSL_ERROR; ARGUMENT_LIST_TOO_LONG
  ; PERMISSION_DENIED; ADDRESS_ALREADY_IN_USE; ADDRESS_NOT_AVAILABLE
  ; ADDRESS_FAMILY_NOT_SUPPORTED; RESOURCE_TEMPORARILY_UNAVAILABLE; TEMPORARY_FAILURE
  ; BAD_AI_FLAGS_VALUE; INVALID_VALUE_FOR_HINTS; REQUEST_CANCELED; PERMANENT_FAILURE
  ; AI_FAMILY_NOT_SUPPORTED; OUT_OF_MEMORY; NO_ADDRESS_AVAILABLE; UNKNOWN_NODE_OR_SERVICE
  ; ARGUMENT_BUFFER_OVERFLOW; RESOLVED_PROTOCOL_IS_UNKNOWN
  ; SERVICE_NOT_AVAILABLE_FOR_SOCKET_TYPE; SOCKET_TYPE_NOT_SUPPORTED
  ; CONNECTION_ALREADY_IN_PROGRESS; BAD_FILE_DESCRIPTOR; RESOURCE_BUSY_OR_LOCKED
  ; OPERATION_CANCELED; INVALID_UNICODE_CHARACTER; SOFTWARE_CAUSED_CONNECTION_ABORT
  ; CONNECTION_REFUSED; CONNECTION_RESET_BY_PEER; DESTINATION_ADDRESS_REQUIRED
  ; FILE_OR_DIR_ALREADY_EXISTS; BAD_ADDRESS_IN_SYSTEM_CALL_ARGUMENT; FILE_TOO_LARGE
  ; HOST_IS_UNREACHABLE; INTERRUPTED_SYSTEM_CALL; INVALID_ARGUMENT; IO_ERROR
  ; SOCKET_IS_ALREADY_CONNECTED; ILLEGAL_OPERATION_ON_A_DIRECTORY
  ; TOO_MANY_SYMBOLIC_LINKS_ENCOUNTERED; TOO_MANY_OPEN_FILES; MESSAGE_TOO_LONG
  ; NAME_TOO_LONG; NETWORK_IS_DOWN; NETWORK_IS_UNREACHABLE; FILE_TABLE_OVERFLOW
  ; NO_BUFFER_SPACE_AVAILABLE; NO_SUCH_DEVICE; NO_SUCH_FILE_OR_DIRECTORY; NOT_ENOUGH_MEMORY
  ; MACHINE_IS_NOT_ON_THE_NETWORK; PROTOCOL_NOT_AVAILABLE; NO_SPACE_LEFT_ON_DEVICE
  ; FUNCTION_NOT_IMPLEMENTED; SOCKET_IS_NOT_CONNECTED; NOT_A_DIRECTORY; DIRECTORY_NOT_EMPTY
  ; SOCKET_OPERATION_ON_NON_SOCKET; OPERATION_NOT_SUPPORTED_ON_SOCKET
  ; OPERATION_NOT_PERMITTED; OPERATION_ON_CLOSED_SOCKET; PROTOCOL_ERROR
  ; PROTOCOL_NOT_SUPPORTED; PROTOCOL_WRONG_TYPE_FOR_SOCKET; RESULT_TOO_LARGE
  ; READ_ONLY_FILE_SYSTEM; CANNOT_SEND_AFTER_TRANSPORT_ENDPOINT_SHUTDOWN; INVALID_SEEK
  ; NO_SUCH_PROCESS; CONNECTION_TIMED_OUT; TEXT_FILE_IS_BUSY
  ; CROSS_DEVICE_LINK_NOT_PERMITTED; UNKNOWN_ERROR; END_OF_FILE; NO_SUCH_DEVICE_OR_ADDRESS
  ; TOO_MANY_LINKS; HOST_IS_DOWN; REMOTE_IO_ERROR; INAPPROPRIATE_IOCTL_FOR_DEVICE
  ; INAPPROPRIATE_FILE_TYPE_OR_FORMAT ].

(** The underlying [uint32_t] value. *)
Definition status_value (c : StatusCode) : Z :=
  match c with
  | OK => 0
  | UNDEFINED => 1
  | FILE_NOT_OPEN => 2
  | DIR_NOT_OPEN => 3
  | TRANSPORT_INIT_FAILURE => 4
  | TLS_CERTIFICATE_FILE_NOT_EXIST => 5
  | TLS_PRIVATE_KEY_FILE_NOT_EXIST => 6
  | TLS_CERTIFICATE_INVALID => 7
  | TLS_PRIVATE_KEY_INVALID => 8
  | TLS_PRIVATE_KEY_AND_CERTIFICATE_NOT_MATCH => 9
  | NOT_CONNECTED => 10
  | OPERATION_ALREADY_IN_PROGRESS => 11
  | PEER_NOT_FOUND => 12
  | OPENSSL_ERROR => 13
  | ARGUMENT_LIST_TOO_LONG => 14
  | PERMISSION_DENIED => 15
  | ADDRESS_ALREADY_IN_USE => 16
  | ADDRESS_NOT_AVAILABLE => 17
  | ADDRESS_FAMILY_NOT_SUPPORTED => 18
  | RESOURCE_TEMPORARILY_UNAVAILABLE => 19
  | TEMPORARY_FAILURE => 20
  | BAD_AI_FLAGS_VALUE => 21
  | INVALID_VALUE_FOR_HINTS => 22
  | REQUEST_CANCELED => 23
  | PERMANENT_FAILURE => 24
  | AI_FAMILY_NOT_SUPPORTED => 25
  | OUT_OF_MEMORY => 26
  | NO_ADDRESS_AVAILABLE => 27
  | UNKNOWN_NODE_OR_SERVICE => 28
  | ARGUMENT_BUFFER_OVERFLOW => 29
  | RESOLVED_PROTOCOL_IS_UNKNOWN => 30
  | SERVICE_NOT_AVAILABLE_FOR_SOCKET_TYPE => 31
  | SOCKET_TYPE_NOT_SUPPORTED => 32
  | CONNECTION_ALREADY_IN_PROGRESS => 33
  | BAD_FILE_DESCRIPTOR => 34
  | RESOURCE_BUSY_OR_LOCKED => 35
  | OPERATION_CANCELED => 36
  | INVALID_UNICODE_CHARACTER => 37
  | SOFTWARE_CAUSED_CONNECTION_ABORT => 38
  | CONNECTION_REFUSED => 39
  | CONNECTION_RESET_BY_PEER => 40
  | DESTINATION_ADDRESS_REQUIRED => 41
  | FILE_OR_DIR_ALREADY_EXISTS => 42
  | BAD_ADDRESS_IN_SYSTEM_CALL_ARGUMENT => 43
  | FILE_TOO_LARGE => 44
  | HOST_IS_UNREACHABLE => 45
  | INTERRUPTED_SYSTEM_CALL => 46
  | INVALID_ARGUMENT => 47
  | IO_ERROR => 48
  | SOCKET_IS_ALREADY_CONNECTED => 49
  | ILLEGAL_OPERATION_ON_A_DIRECTORY => 50
  | TOO_MANY_SYMBOLIC_LINKS_ENCOUNTERED => 51
  | TOO_MANY_OPEN_FILES => 52
  | MESSAGE_TOO_LONG => 53
  | NAME_TOO_LONG => 54
  | NETWORK_IS_DOWN => 55
  | NETWORK_IS_UNREACHABLE => 56
  | FILE_TABLE_OVERFLOW => 57
  | NO_BUFFER_SPACE_AVAILABLE => 58
  | NO_SUCH_DEVICE => 59
  | NO_SUCH_FILE_OR_DIRECTORY => 60
  | NOT_ENOUGH_MEMORY => 61
  | MACHINE_IS_NOT_ON_THE_NETWORK => 62
  | PROTOCOL_NOT_AVAILABLE => 63
  | NO_SPACE_LEFT_ON_DEVICE => 64
  | FUNCTION_NOT_IMPLEMENTED => 65
  | SOCKET_IS_NOT_CONNECTED => 66
  | NOT_A_DIRECTORY => 67
  | DIRECTORY_NOT_EMPTY => 68
  | SOCKET_OPERATION_ON_NON_SOCKET => 69
  | OPERATION_NOT_SUPPORTED_ON_SOCKET => 70
  | OPERATION_NOT_PERMITTED => 71
  | OPERATION_ON_CLOSED_SOCKET => 72
  | PROTOCOL_ERROR => 73
  | PROTOCOL_NOT_SUPPORTED => 74
  | PROTOCOL_WRONG_TYPE_FOR_SOCKET => 75
  | RESULT_TOO_LARGE => 76
  | READ_ONLY_FILE_SYSTEM => 77
  | CANNOT_SEND_AFTER_TRANSPORT_ENDPOINT_SHUTDOWN => 78
  | INVALID_SEEK => 79
  | NO_SUCH_PROCESS => 80
  | CONNECTION_TIMED_OUT => 81
  | TEXT_FILE_IS_BUSY => 82
  | CROSS_DEVICE_LINK_NOT_PERMITTED => 83
  | UNKNOWN_ERROR => 84
  | END_OF_FILE => 85
  | NO_SUCH_DEVICE_OR_ADDRESS => 86
  | TOO_MANY_LINKS => 87
  | HOST_IS_DOWN => 88
  | REMOTE_IO_ERROR => 89
  | INAPPROPRIATE_IOCTL_FOR_DEVICE => 90
  | INAPPROPRIATE_FILE_TYPE_OR_FORMAT => 91
  end.

Lemma status_value_lookup c : all_status_codes !! Z.to_nat (status_value c) = Some c.
Proof. by destruct c. Qed.

#[global] Instance status_value_inj : Inj (=) (=) status_value.
Proof.
  intros a b E. pose proof (status_value_lookup a) as Ha.
  rewrite E, status_value_lookup in Ha. congruence.
Qed.

#[global] Instance StatusCode_eq_dec : EqDecision StatusCode.
Proof.
  refine (fun a b => cast_if (decide (status_value a = status_value b))).
  - by apply (inj status_value).
  - congruence.
Defined.

(** [operator<<(std::ostream&, StatusCode)]: the enumerator's own spelling. *)
Definition status_name (c : StatusCode) : string :=
  match c with
  | OK => "OK"
  | UNDEFINED => "UNDEFINED"
  | FILE_NOT_OPEN => "FILE_NOT_OPEN"
  | DIR_NOT_OPEN => "DIR_NOT_OPEN"
  | TRANSPORT_INIT_FAILURE => "TRANSPORT_INIT_FAILURE"
  | TLS_CERTIFICATE_FILE_NOT_EXIST => "TLS_CERTIFICATE_FILE_NOT_EXIST"
  | TLS_PRIVATE_KEY_FILE_NOT_EXIST => "TLS_PRIVATE_KEY_FILE_NOT_EXIST"
  | TLS_CERTIFICATE_INVALID => "TLS_CERTIFICATE_INVALID"
  | TLS_PRIVATE_KEY_INVALID => "TLS_PRIVATE_KEY_INVALID"
  | TLS_PRIVATE_KEY_AND_CERTIFICATE_NOT_MATCH => "TLS_PRIVATE_KEY_AND_CERTIFICATE_NOT_MATCH"
  | NOT_CONNECTED => "NOT_CONNECTED"
  | OPERATION_ALREADY_IN_PROGRESS => "OPERATION_ALREADY_IN_PROGRESS"
  | PEER_NOT_FOUND => "PEER_NOT_FOUND"
  | OPENSSL_ERROR => "OPENSSL_ERROR"
  | ARGUMENT_LIST_TOO_LONG => "ARGUMENT_LIST_TOO_LONG"
  | PERMISSION_DENIED => "PERMISSION_DENIED"
  | ADDRESS_ALREADY_IN_USE => "ADDRESS_ALREADY_IN_USE"
  | ADDRESS_NOT_AVAILABLE => "ADDRESS_NOT_AVAILABLE"
  | ADDRESS_FAMILY_NOT_SUPPORTED => "ADDRESS_FAMILY_NOT_SUPPORTED"
  | RESOURCE_TEMPORARILY_UNAVAILABLE => "RESOURCE_TEMPORARILY_UNAVAILABLE"
  | TEMPORARY_FAILURE => "TEMPORARY_FAILURE"
  | BAD_AI_FLAGS_VALUE => "BAD_AI_FLAGS_VALUE"
  | INVALID_VALUE_FOR_HINTS => "INVALID_VALUE_FOR_HINTS"
  | REQUEST_CANCELED => "REQUEST_CANCELED"
  | PERMANENT_FAILURE => "PERMANENT_FAILURE"
  | AI_FAMILY_NOT_SUPPORTED => "AI_FAMILY_NOT_SUPPORTED"
  | OUT_OF_MEMORY => "OUT_OF_MEMORY"
  | NO_ADDRESS_AVAILABLE => "NO_ADDRESS_AVAILABLE"
  | UNKNOWN_NODE_OR_SERVICE => "UNKNOWN_NODE_OR_SERVICE"
  | ARGUMENT_BUFFER_OVERFLOW => "ARGUMENT_BUFFER_OVERFLOW"
  | RESOLVED_PROTOCOL_IS_UNKNOWN => "RESOLVED_PROTOCOL_IS_UNKNOWN"
  | SERVICE_NOT_AVAILABLE_FOR_SOCKET_TYPE => "SERVICE_NOT_AVAILABLE_FOR_SOCKET_TYPE"
  | SOCKET_TYPE_NOT_SUPPORTED => "SOCKET_TYPE_NOT_SUPPORTED"
  | CONNECTION_ALREADY_IN_PROGRESS => "CONNECTION_ALREADY_IN_PROGRESS"
  | BAD_FILE_DESCRIPTOR => "BAD_FILE_DESCRIPTOR"
  | RESOURCE_BUSY_OR_LOCKED => "RESOURCE_BUSY_OR_LOCKED"
  | OPERATION_CANCELED => "OPERATION_CANCELED"
  | INVALID_UNICODE_CHARACTER => "INVALID_UNICODE_CHARACTER"
  | SOFTWARE_CAUSED_CONNECTION_ABORT => "SOFTWARE_CAUSED_CONNECTION_ABORT"
  | CONNECTION_REFUSED => "CONNECTION_REFUSED"
  | CONNECTION_RESET_BY_PEER => "CONNECTION_RESET_BY_PEER"
  | DESTINATION_ADDRESS_REQUIRED => "DESTINATION_ADDRESS_REQUIRED"
  | FILE_OR_DIR_ALREADY_EXISTS => "FILE_OR_DIR_ALREADY_EXISTS"
  | BAD_ADDRESS_IN_SYSTEM_CALL_ARGUMENT => "BAD_ADDRESS_IN_SYSTEM_CALL_ARGUMENT"
  | FILE_TOO_LARGE => "FILE_TOO_LARGE"
  | HOST_IS_UNREACHABLE => "HOST_IS_UNREACHABLE"
  | INTERRUPTED_SYSTEM_CALL => "INTERRUPTED_SYSTEM_CALL"
  | INVALID_ARGUMENT => "INVALID_ARGUMENT"
  | IO_ERROR => "IO_ERROR"
  | SOCKET_IS_ALREADY_CONNECTED => "SOCKET_IS_ALREADY_CONNECTED"
  | ILLEGAL_OPERATION_ON_A_DIRECTORY => "ILLEGAL_OPERATION_ON_A_DIRECTORY"
  | TOO_MANY_SYMBOLIC_LINKS_ENCOUNTERED => "TOO_MANY_SYMBOLIC_LINKS_ENCOUNTERED"
  | TOO_MANY_OPEN_FILES => "TOO_MANY_OPEN_FILES"
  | MESSAGE_TOO_LONG => "MESSAGE_TOO_LONG"
  | NAME_TOO_LONG => "NAME_TOO_LONG"
  | NETWORK_IS_DOWN => "NETWORK_IS_DOWN"
  | NETWORK_IS_UNREACHABLE => "NETWORK_IS_UNREACHABLE"
  | FILE_TABLE_OVERFLOW => "FILE_TABLE_OVERFLOW"
  | NO_BUFFER_SPACE_AVAILABLE => "NO_BUFFER_SPACE_AVAILABLE"
  | NO_SUCH_DEVICE => "NO_SUCH_DEVICE"
  | NO_SUCH_FILE_OR_DIRECTORY => "NO_SUCH_FILE_OR_DIRECTORY"
  | NOT_ENOUGH_MEMORY => "NOT_ENOUGH_MEMORY"
  | MACHINE_IS_NOT_ON_THE_NETWORK => "MACHINE_IS_NOT_ON_THE_NETWORK"
  | PROTOCOL_NOT_AVAILABLE => "PROTOCOL_NOT_AVAILABLE"
  | NO_SPACE_LEFT_ON_DEVICE => "NO_SPACE_LEFT_ON_DEVICE"
  | FUNCTION_NOT_IMPLEMENTED => "FUNCTION_NOT_IMPLEMENTED"
  | SOCKET_IS_NOT_CONNECTED => "SOCKET_IS_NOT_CONNECTED"
  | NOT_A_DIRECTORY => "NOT_A_DIRECTORY"
  | DIRECTORY_NOT_EMPTY => "DIRECTORY_NOT_EMPTY"
  | SOCKET_OPERATION_ON_NON_SOCKET => "SOCKET_OPERATION_ON_NON_SOCKET"
  | OPERATION_NOT_SUPPORTED_ON_SOCKET => "OPERATION_NOT_SUPPORTED_ON_SOCKET"
  | OPERATION_NOT_PERMITTED => "OPERATION_NOT_PERMITTED"
  | OPERATION_ON_CLOSED_SOCKET => "OPERATION_ON_CLOSED_SOCKET"
  | PROTOCOL_ERROR => "PROTOCOL_ERROR"
  | PROTOCOL_NOT_SUPPORTED => "PROTOCOL_NOT_SUPPORTED"
  | PROTOCOL_WRONG_TYPE_FOR_SOCKET => "PROTOCOL_WRONG_TYPE_FOR_SOCKET"
  | RESULT_TOO_LARGE => "RESULT_TOO_LARGE"
  | READ_ONLY_FILE_SYSTEM => "READ_ONLY_FILE_SYSTEM"
  | CANNOT_SEND_AFTER_TRANSPORT_ENDPOINT_SHUTDOWN => "CANNOT_SEND_AFTER_TRANSPORT_ENDPOINT_SHUTDOWN"
  | INVALID_SEEK => "INVALID_SEEK"
  | NO_SUCH_PROCESS => "NO_SUCH_PROCESS"
  | CONNECTION_TIMED_OUT => "CONNECTION_TIMED_OUT"
  | TEXT_FILE_IS_BUSY => "TEXT_FILE_IS_BUSY"
  | CROSS_DEVICE_LINK_NOT_PERMITTED => "CROSS_DEVICE_LINK_NOT_PERMITTED"
  | UNKNOWN_ERROR => "UNKNOWN_ERROR"
  | END_OF_FILE => "END_OF_FILE"
  | NO_SUCH_DEVICE_OR_ADDRESS => "NO_SUCH_DEVICE_OR_ADDRESS"
  | TOO_MANY_LINKS => "TOO_MANY_LINKS"
  | HOST_IS_DOWN => "HOST_IS_DOWN"
  | REMOTE_IO_ERROR => "REMOTE_IO_ERROR"
  | INAPPROPRIATE_IOCTL_FOR_DEVICE => "INAPPROPRIATE_IOCTL_FOR_DEVICE"
  | INAPPROPRIATE_FILE_TYPE_OR_FORMAT => "INAPPROPRIATE_FILE_TYPE_OR_FORMAT"
  end.

(** ** libuv codes ([UV_ERRNO_MAP] of uv.h) *)

Inductive uv_errno :=
  | UV_E2BIG | UV_EACCES | UV_EADDRINUSE | UV_EADDRNOTAVAIL | UV_EAFNOSUPPORT | UV_EAGAIN
  | UV_EAI_ADDRFAMILY | UV_EAI_AGAIN | UV_EAI_BADFLAGS | UV_EAI_BADHINTS | UV_EAI_CANCELED
  | UV_EAI_FAIL | UV_EAI_FAMILY | UV_EAI_MEMORY | UV_EAI_NODATA | UV_EAI_NONAME
  | UV_EAI_OVERFLOW | UV_EAI_PROTOCOL | UV_EAI_SERVICE | UV_EAI_SOCKTYPE | UV_EALREADY
  | UV_EBADF | UV_EBUSY | UV_ECANCELED | UV_ECHARSET | UV_ECONNABORTED | UV_ECONNREFUSED
  | UV_ECONNRESET | UV_EDESTADDRREQ | UV_EEXIST | UV_EFAULT | UV_EFBIG | UV_EHOSTUNREACH
  | UV_EINTR | UV_EINVAL | UV_EIO | UV_EISCONN | UV_EISDIR | UV_ELOOP | UV_EMFILE
  | UV_EMSGSIZE | UV_ENAMETOOLONG | UV_ENETDOWN | UV_ENETUNREACH | UV_ENFILE | UV_ENOBUFS
  | UV_ENODEV | UV_ENOENT | UV_ENOMEM | UV_ENONET | UV_ENOPROTOOPT | UV_ENOSPC | UV_ENOSYS
  | UV_ENOTCONN | UV_ENOTDIR | UV_ENOTEMPTY | UV_ENOTSOCK | UV_ENOTSUP | UV_EPERM
  | UV_EPIPE | UV_EPROTO | UV_EPROTONOSUPPORT | UV_EPROTOTYPE | UV_ERANGE | UV_EROFS
  | UV_ESHUTDOWN | UV_ESPIPE | UV_ESRCH | UV_ETIMEDOUT | UV_ETXTBSY | UV_EXDEV | UV_UNKNOWN
  | UV_EOF | UV_ENXIO | UV_EMLINK | UV_EHOSTDOWN | UV_EREMOTEIO | UV_ENOTTY | UV_EFTYPE.

Class UvErrno := {
  uv_code : uv_errno -> Z;
  uv_code_negative : forall e, uv_code e < 0;
  uv_code_inj : forall e1 e2, uv_code e1 = uv_code e2 -> e1 = e2
}.

(** The labels of the [switch] of [convert_from_uv], in source order. *)
Definition convert_table : list (uv_errno * StatusCode) :=
  [ (UV_E2BIG, ARGUMENT_LIST_TOO_LONG);
    (UV_EACCES, PERMISSION_DENIED);
    (UV_EADDRINUSE, ADDRESS_ALREADY_IN_USE);
    (UV_EADDRNOTAVAIL, ADDRESS_NOT_AVAILABLE);
    (UV_EAFNOSUPPORT, ADDRESS_FAMILY_NOT_SUPPORTED);
    (UV_EAGAIN, RESOURCE_TEMPORARILY_UNAVAILABLE);
    (UV_EAI_ADDRFAMILY, ADDRESS_FAMILY_NOT_SUPPORTED);
    (UV_EAI_AGAIN, TEMPORARY_FAILURE);
    (UV_EAI_BADFLAGS, BAD_AI_FLAGS_VALUE);
    (UV_EAI_BADHINTS, INVALID_VALUE_FOR_HINTS);
    (UV_EAI_CANCELED, REQUEST_CANCELED);
    (UV_EAI_FAIL, PERMANENT_FAILURE);
    (UV_EAI_FAMILY, AI_FAMILY_NOT_SUPPORTED);
    (UV_EAI_MEMORY, OUT_OF_MEMORY);
    (UV_EAI_NODATA, NO_ADDRESS_AVAILABLE);
    (UV_EAI_NONAME, UNKNOWN_NODE_OR_SERVICE);
    (UV_EAI_OVERFLOW, ARGUMENT_BUFFER_OVERFLOW);
    (UV_EAI_PROTOCOL, RESOLVED_PROTOCOL_IS_UNKNOWN);
    (UV_EAI_SERVICE, SERVICE_NOT_AVAILABLE_FOR_SOCKET_TYPE);
    (UV_EAI_SOCKTYPE, SOCKET_TYPE_NOT_SUPPORTED);
    (UV_EALREADY, CONNECTION_ALREADY_IN_PROGRESS);
    (UV_EBADF, BAD_FILE_DESCRIPTOR);
    (UV_EBUSY, RESOURCE_BUSY_OR_LOCKED);
    (UV_ECANCELED, OPERATION_CANCELED);
    (UV_ECHARSET, INVALID_UNICODE_CHARACTER);
    (UV_ECONNABORTED, SOFTWARE_CAUSED_CONNECTION_ABORT);
    (UV_ECONNREFUSED, CONNECTION_REFUSED);
    (UV_ECONNRESET, CONNECTION_RESET_BY_PEER);
    (UV_EDESTADDRREQ, DESTINATION_ADDRESS_REQUIRED);
    (UV_EEXIST, FILE_OR_DIR_ALREADY_EXISTS);
    (UV_EFAULT, BAD_ADDRESS_IN_SYSTEM_CALL_ARGUMENT);
    (UV_EFBIG, FILE_TOO_LARGE);
    (UV_EHOSTUNREACH, HOST_IS_UNREACHABLE);
    (UV_EINTR, INTERRUPTED_SYSTEM_CALL);
    (UV_EINVAL, INVALID_ARGUMENT);
    (UV_EIO, IO_ERROR);
    (UV_EISCONN, SOCKET_IS_ALREADY_CONNECTED);
    (UV_EISDIR, ILLEGAL_OPERATION_ON_A_DIRECTORY);
    (UV_ELOOP, TOO_MANY_SYMBOLIC_LINKS_ENCOUNTERED);
    (UV_EMFILE, TOO_MANY_OPEN_FILES);
    (UV_EMSGSIZE, MESSAGE_TOO_LONG);
    (UV_ENAMETOOLONG, NAME_TOO_LONG);
    (UV_ENETDOWN, NETWORK_IS_DOWN);
    (UV_ENETUNREACH, NETWORK_IS_UNREACHABLE);
    (UV_ENFILE, FILE_TABLE_OVERFLOW);
    (UV_ENOBUFS, NO_BUFFER_SPACE_AVAILABLE);
    (UV_ENODEV, NO_SUCH_DEVICE);
    (UV_ENOENT, NO_SUCH_FILE_OR_DIRECTORY);
    (UV_ENOMEM, NOT_ENOUGH_MEMORY);
    (UV_ENONET, MACHINE_IS_NOT_ON_THE_NETWORK);
    (UV_ENOPROTOOPT, PROTOCOL_NOT_AVAILABLE);
    (UV_ENOSPC, NO_SPACE_LEFT_ON_DEVICE);
    (UV_ENOSYS, FUNCTION_NOT_IMPLEMENTED);
    (UV_ENOTCONN, SOCKET_IS_NOT_CONNECTED);
    (UV_ENOTDIR, NOT_A_DIRECTORY);
    (UV_ENOTEMPTY, DIRECTORY_NOT_EMPTY);
    (UV_ENOTSOCK, SOCKET_OPERATION_ON_NON_SOCKET);
    (UV_ENOTSUP, OPERATION_NOT_SUPPORTED_ON_SOCKET);
    (UV_EPERM, OPERATION_NOT_PERMITTED);
    (UV_EPIPE, OPERATION_ON_CLOSED_SOCKET);
    (UV_EPROTO, PROTOCOL_ERROR);
    (UV_EPROTONOSUPPORT, PROTOCOL_NOT_SUPPORTED);
    (UV_EPROTOTYPE, PROTOCOL_WRONG_TYPE_FOR_SOCKET);
    (UV_ERANGE, RESULT_TOO_LARGE);
    (UV_EROFS, READ_ONLY_FILE_SYSTEM);
    (UV_ESHUTDOWN, CANNOT_SEND_AFTER_TRANSPORT_ENDPOINT_SHUTDOWN);
    (UV_ESPIPE, INVALID_SEEK);
    (UV_ESRCH, NO_SUCH_PROCESS);
    (UV_ETIMEDOUT, CONNECTION_TIMED_OUT);
    (UV_ETXTBSY, TEXT_FILE_IS_BUSY);
    (UV_EXDEV, CROSS_DEVICE_LINK_NOT_PERMITTED);
    (UV_UNKNOWN, UNKNOWN_ERROR);
    (UV_EOF, END_OF_FILE);
    (UV_ENXIO, NO_SUCH_DEVICE_OR_ADDRESS);
    (UV_EMLINK, TOO_MANY_LINKS);
    (UV_EHOSTDOWN, HOST_IS_DOWN);
    (UV_EREMOTEIO, REMOTE_IO_ERROR);
    (UV_ENOTTY, INAPPROPRIATE_IOCTL_FOR_DEVICE);
    (UV_EFTYPE, INAPPROPRIATE_FILE_TYPE_OR_FORMAT) ].

Section Convert.
Context {uv : UvErrno}.

Fixpoint switch_uv (table : list (uv_errno * StatusCode)) (libuv_code : Z) : StatusCode :=
  match table with
  | [] => UNDEFINED
  | (e, c) :: rest => if libuv_code =? uv_code e then c else switch_uv rest libuv_code
  end.

Definition convert_from_uv (libuv_code : Z) : StatusCode :=
  if libuv_code =? 0 then OK else switch_uv convert_table libuv_code.

(** ** Error *)

Record Error := mkError {
  m_libuv_code : Z;
  m_status_code : StatusCode;
  m_additional_info : string
}.

(** [Error(std::int64_t libuv_code)]. *)
Definition Error_of_uv (libuv_code : Z) : Error :=
  if libuv_code <? 0
  then mkError libuv_code (convert_from_uv libuv_code) ""
  else mkError 0 OK "".

(** [Error(StatusCode)]. *)
Definition Error_of_status (c : StatusCode) : Error := mkError 0 c "".

(** [Error(StatusCode, const std::string&)]. *)
Definition Error_with_info (c : StatusCode) (additional_info : string) : Error :=
  mkError 0 c additional_info.

Definition code (e : Error) : StatusCode := m_status_code e.

Definition additional_info (e : Error) : string := m_additional_info e.

(** [Error::operator bool]: true means failure. *)
Definition error_bool (e : Error) : bool := bool_decide (m_status_code e <> OK).

(** [operator==(const Error&, const Error&)] compares the status codes only. *)
Definition error_eqb (s1 s2 : Error) : bool := bool_decide (code s1 = code s2).

(** [Error::string()]: the [switch] of Error.cpp. *)
Definition error_string (e : Error) : string :=
  match m_status_code e with
  | OK => "No error. Status OK"
  | UNDEFINED => "Unknown error"
  | FILE_NOT_OPEN => "File is not opened"
  | DIR_NOT_OPEN => "Directory is not opened"
  | TRANSPORT_INIT_FAILURE => "Failed to init underlying transport or protocol"
  | TLS_CERTIFICATE_FILE_NOT_EXIST => "Certificate error. File does not exist"
  | TLS_PRIVATE_KEY_FILE_NOT_EXIST => "Private key error. File does not exist"
  | TLS_CERTIFICATE_INVALID => "Certificate error. Certificate is invalid or corrupted"
  | TLS_PRIVATE_KEY_INVALID => "Private key error. Private key is invalid or corrupted"
  | TLS_PRIVATE_KEY_AND_CERTIFICATE_NOT_MATCH => "Private key and certificate do not match"
  | NOT_CONNECTED => "Not connected"
  | OPERATION_ALREADY_IN_PROGRESS => "Operation already in progress"
  | PEER_NOT_FOUND => "Peer notfound"
  | OPENSSL_ERROR => "Openssl error: " +:+ m_additional_info e
  | ARGUMENT_LIST_TOO_LONG => "Argument list too long"
  | PERMISSION_DENIED => "Permission denied"
  | ADDRESS_ALREADY_IN_USE => "Address already in use"
  | ADDRESS_NOT_AVAILABLE => "Address not available"
  | RESOURCE_TEMPORARILY_UNAVAILABLE => "Resource temporarily unavailable"
  | ADDRESS_FAMILY_NOT_SUPPORTED => "Address family not supported"
  | TEMPORARY_FAILURE => "Temporary failure"
  | BAD_AI_FLAGS_VALUE => "Bad ai_flags value"
  | INVALID_VALUE_FOR_HINTS => "Invalid value for hints"
  | REQUEST_CANCELED => "Request canceled"
  | PERMANENT_FAILURE => "Permanent failure"
  | AI_FAMILY_NOT_SUPPORTED => "Ai_family not supported"
  | OUT_OF_MEMORY => "Out of memory"
  | NO_ADDRESS_AVAILABLE => "No address"
  | UNKNOWN_NODE_OR_SERVICE => "Unknown node or service"
  | ARGUMENT_BUFFER_OVERFLOW => "Argument buffer overflow"
  | RESOLVED_PROTOCOL_IS_UNKNOWN => "Resolved protocol is unknown"
  | SERVICE_NOT_AVAILABLE_FOR_SOCKET_TYPE => "Service not available for socket type"
  | SOCKET_TYPE_NOT_SUPPORTED => "Socket type not supported"
  | CONNECTION_ALREADY_IN_PROGRESS => "Connection already in progress"
  | BAD_FILE_DESCRIPTOR => "Bad file descriptor"
  | RESOURCE_BUSY_OR_LOCKED => "Resource busy or locked"
  | OPERATION_CANCELED => "Operation canceled"
  | INVALID_UNICODE_CHARACTER => "Invalid Unicode character"
  | SOFTWARE_CAUSED_CONNECTION_ABORT => "Software caused connection abort"
  | CONNECTION_REFUSED => "Connection refused"
  | CONNECTION_RESET_BY_PEER => "Connection reset by peer"
  | DESTINATION_ADDRESS_REQUIRED => "Destination address required"
  | FILE_OR_DIR_ALREADY_EXISTS => "File already exists"
  | BAD_ADDRESS_IN_SYSTEM_CALL_ARGUMENT => "Bad address in system call argument"
  | FILE_TOO_LARGE => "File too large"
  | HOST_IS_UNREACHABLE => "Host is unreachable"
  | INTERRUPTED_SYSTEM_CALL => "Interrupted system call"
  | INVALID_ARGUMENT => "Invalid argument"
  | IO_ERROR => "I/o error"
  | SOCKET_IS_ALREADY_CONNECTED => "Socket is already connected"
  | ILLEGAL_OPERATION_ON_A_DIRECTORY => "Illegal operation on a directory"
  | TOO_MANY_SYMBOLIC_LINKS_ENCOUNTERED => "Too many symbolic links encountered"
  | TOO_MANY_OPEN_FILES => "Too many open files"
  | MESSAGE_TOO_LONG => "Message too long"
  | NAME_TOO_LONG => "Name too long"
  | NETWORK_IS_DOWN => "Network is down"
  | NETWORK_IS_UNREACHABLE => "Network is unreachable"
  | FILE_TABLE_OVERFLOW => "File table overflow"
  | NO_BUFFER_SPACE_AVAILABLE => "No buffer space available"
  | NO_SUCH_DEVICE => "No such device"
  | NO_SUCH_FILE_OR_DIRECTORY => "No such file or directory"
  | NOT_ENOUGH_MEMORY => "Not enough memory"
  | MACHINE_IS_NOT_ON_THE_NETWORK => "Machine is not on the network"
  | PROTOCOL_NOT_AVAILABLE => "Protocol not available"
  | NO_SPACE_LEFT_ON_DEVICE => "No space left on device"
  | FUNCTION_NOT_IMPLEMENTED => "Function not implemented"
  | SOCKET_IS_NOT_CONNECTED => "Socket is not connected"
  | NOT_A_DIRECTORY => "Not a directory"
  | DIRECTORY_NOT_EMPTY => "Directory not empty"
  | SOCKET_OPERATION_ON_NON_SOCKET => "Socket operation on non-socket"
  | OPERATION_NOT_SUPPORTED_ON_SOCKET => "Operation not supported on socket"
  | OPERATION_NOT_PERMITTED => "Operation not permitted"
  | OPERATION_ON_CLOSED_SOCKET => "Operation on closed socket"
  | PROTOCOL_ERROR => "Protocol error"
  | PROTOCOL_NOT_SUPPORTED => "Protocol not supported"
  | PROTOCOL_WRONG_TYPE_FOR_SOCKET => "Protocol wrong type for socket"
  | RESULT_TOO_LARGE => "Result too large"
  | READ_ONLY_FILE_SYSTEM => "Read-only file system"
  | CANNOT_SEND_AFTER_TRANSPORT_ENDPOINT_SHUTDOWN => "Cannot send after transport endpoint shutdown"
  | INVALID_SEEK => "Invalid seek"
  | NO_SUCH_PROCESS => "No such process"
  | CONNECTION_TIMED_OUT => "Connection timed out"
  | TEXT_FILE_IS_BUSY => "Text file is busy"
  | CROSS_DEVICE_LINK_NOT_PERMITTED => "Cross-device link not permitted"
  | UNKNOWN_ERROR => "Unknown error"
  | END_OF_FILE => "End of file"
  | NO_SUCH_DEVICE_OR_ADDRESS => "No such device or address"
  | TOO_MANY_LINKS => "Too many links"
  | HOST_IS_DOWN => "Host is down"
  | REMOTE_IO_ERROR => "Remote I/O error"
  | INAPPROPRIATE_IOCTL_FOR_DEVICE => "Inappropriate ioctl for device"
  | INAPPROPRIATE_FILE_TYPE_OR_FORMAT => "Inappropriate file type or format"
  end.

End Convert.

(** libuv's own values where errno.h has none (uv/errno.h). *)
Definition uv_fallback_code (e : uv_errno) : Z :=
  match e with
  | UV_E2BIG => -4093
  | UV_EACCES => -4092
  | UV_EADDRINUSE => -4091
  | UV_EADDRNOTAVAIL => -4090
  | UV_EAFNOSUPPORT => -4089
  | UV_EAGAIN => -4088
  | UV_EAI_ADDRFAMILY => -3000
  | UV_EAI_AGAIN => -3001
  | UV_EAI_BADFLAGS => -3002
  | UV_EAI_BADHINTS => -3013
  | UV_EAI_CANCELED => -3003
  | UV_EAI_FAIL => -3004
  | UV_EAI_FAMILY => -3005
  | UV_EAI_MEMORY => -3006
  | UV_EAI_NODATA => -3007
  | UV_EAI_NONAME => -3008
  | UV_EAI_OVERFLOW => -3009
  | UV_EAI_PROTOCOL => -3014
  | UV_EAI_SERVICE => -3010
  | UV_EAI_SOCKTYPE => -3011
  | UV_EALREADY => -4084
  | UV_EBADF => -4083
  | UV_EBUSY => -4082
  | UV_ECANCELED => -4081
  | UV_ECHARSET => -4080
  | UV_ECONNABORTED => -4079
  | UV_ECONNREFUSED => -4078
  | UV_ECONNRESET => -4077
  | UV_EDESTADDRREQ => -4076
  | UV_EEXIST => -4075
  | UV_EFAULT => -4074
  | UV_EFBIG => -4036
  | UV_EHOSTUNREACH => -4073
  | UV_EINTR => -4072
  | UV_EINVAL => -4071
  | UV_EIO => -4070
  | UV_EISCONN => -4069
  | UV_EISDIR => -4068
  | UV_ELOOP => -4067
  | UV_EMFILE => -4066
  | UV_EMSGSIZE => -4065
  | UV_ENAMETOOLONG => -4064
  | UV_ENETDOWN => -4063
  | UV_ENETUNREACH => -4062
  | UV_ENFILE => -4061
  | UV_ENOBUFS => -4060
  | UV_ENODEV => -4059
  | UV_ENOENT => -4058
  | UV_ENOMEM => -4057
  | UV_ENONET => -4056
  | UV_ENOPROTOOPT => -4035
  | UV_ENOSPC => -4055
  | UV_ENOSYS => -4054
  | UV_ENOTCONN => -4053
  | UV_ENOTDIR => -4052
  | UV_ENOTEMPTY => -4051
  | UV_ENOTSOCK => -4050
  | UV_ENOTSUP => -4049
  | UV_EPERM => -4048
  | UV_EPIPE => -4047
  | UV_EPROTO => -4046
  | UV_EPROTONOSUPPORT => -4045
  | UV_EPROTOTYPE => -4044
  | UV_ERANGE => -4034
  | UV_EROFS => -4043
  | UV_ESHUTDOWN => -4042
  | UV_ESPIPE => -4041
  | UV_ESRCH => -4040
  | UV_ETIMEDOUT => -4039
  | UV_ETXTBSY => -4038
  | UV_EXDEV => -4037
  | UV_UNKNOWN => -4094
  | UV_EOF => -4095
  | UV_ENXIO => -4033
  | UV_EMLINK => -4032
  | UV_EHOSTDOWN => -4031
  | UV_EREMOTEIO => -4030
  | UV_ENOTTY => -4029
  | UV_EFTYPE => -4028
  end.

(** The inverse, used to show that the labels are distinct. *)
Definition uv_fallback_decode (z : Z) : option uv_errno :=
  match - z with
  | 4093 => Some UV_E2BIG
  | 4092 => Some UV_EACCES
  | 4091 => Some UV_EADDRINUSE
  | 4090 => Some UV_EADDRNOTAVAIL
  | 4089 => Some UV_EAFNOSUPPORT
  | 4088 => Some UV_EAGAIN
  | 3000 => Some UV_EAI_ADDRFAMILY
  | 3001 => Some UV_EAI_AGAIN
  | 3002 => Some UV_EAI_BADFLAGS
  | 3013 => Some UV_EAI_BADHINTS
  | 3003 => Some UV_EAI_CANCELED
  | 3004 => Some UV_EAI_FAIL
  | 3005 => Some UV_EAI_FAMILY
  | 3006 => Some UV_EAI_MEMORY
  | 3007 => Some UV_EAI_NODATA
  | 3008 => Some UV_EAI_NONAME
  | 3009 => Some UV_EAI_OVERFLOW
  | 3014 => Some UV_EAI_PROTOCOL
  | 3010 => Some UV_EAI_SERVICE
  | 3011 => Some UV_EAI_SOCKTYPE
  | 4084 => Some UV_EALREADY
  | 4083 => Some UV_EBADF
  | 4082 => Some UV_EBUSY
  | 4081 => Some UV_ECANCELED
  | 4080 => Some UV_ECHARSET
  | 4079 => Some UV_ECONNABORTED
  | 4078 => Some UV_ECONNREFUSED
  | 4077 => Some UV_ECONNRESET
  | 4076 => Some UV_EDESTADDRREQ
  | 4075 => Some UV_EEXIST
  | 4074 => Some UV_EFAULT
  | 4036 => Some UV_EFBIG
  | 4073 => Some UV_EHOSTUNREACH
  | 4072 => Some UV_EINTR
  | 4071 => Some UV_EINVAL
  | 4070 => Some UV_EIO
  | 4069 => Some UV_EISCONN
  | 4068 => Some UV_EISDIR
  | 4067 => Some UV_ELOOP
  | 4066 => Some UV_EMFILE
  | 4065 => Some UV_EMSGSIZE
  | 4064 => Some UV_ENAMETOOLONG
  | 4063 => Some UV_ENETDOWN
  | 4062 => Some UV_ENETUNREACH
  | 4061 => Some UV_ENFILE
  | 4060 => Some UV_ENOBUFS
  | 4059 => Some UV_ENODEV
  | 4058 => Some UV_ENOENT
  | 4057 => Some UV_ENOMEM
  | 4056 => Some UV_ENONET
  | 4035 => Some UV_ENOPROTOOPT
  | 4055 => Some UV_ENOSPC
  | 4054 => Some UV_ENOSYS
  | 4053 => Some UV_ENOTCONN
  | 4052 => Some UV_ENOTDIR
  | 4051 => Some UV_ENOTEMPTY
  | 4050 => Some UV_ENOTSOCK
  | 4049 => Some UV_ENOTSUP
  | 4048 => Some UV_EPERM
  | 4047 => Some UV_EPIPE
  | 4046 => Some UV_EPROTO
  | 4045 => Some UV_EPROTONOSUPPORT
  | 4044 => Some UV_EPROTOTYPE
  | 4034 => Some UV_ERANGE
  | 4043 => Some UV_EROFS
  | 4042 => Some UV_ESHUTDOWN
  | 4041 => Some UV_ESPIPE
  | 4040 => Some UV_ESRCH
  | 4039 => Some UV_ETIMEDOUT
  | 4038 => Some UV_ETXTBSY
  | 4037 => Some UV_EXDEV
  | 4094 => Some UV_UNKNOWN
  | 4095 => Some UV_EOF
  | 4033 => Some UV_ENXIO
  | 4032 => Some UV_EMLINK
  | 4031 => Some UV_EHOSTDOWN
  | 4030 => Some UV_EREMOTEIO
  | 4029 => Some UV_ENOTTY
  | 4028 => Some UV_EFTYPE
  | _ => None
  end.

Lemma uv_fallback_decode_code e : uv_fallback_decode (uv_fallback_code e) = Some e.
Proof. by destruct e. Qed.

#[program] Definition UvFallback : UvErrno := {| uv_code := uv_fallback_code |}.
Next Obligation. by destruct e. Qed.
Next Obligation.
  intros e1 e2 E. pose proof (uv_fallback_decode_code e1) as H.
  rewrite E, uv_fallback_decode_code in H. congruence.
Qed.

(** ** Lemmas on the tables *)

#[global] Instance uv_errno_eq_dec : EqDecision uv_errno.
Proof.
  refine (fun a b => cast_if (decide (uv_fallback_code a = uv_fallback_code b))).
  - by apply (@uv_code_inj UvFallback).
  - congruence.
Defined.

Lemma convert_table_covers e : exists c, (e, c) ∈ convert_table.
Proof.
  assert (e ∈ convert_table.*1) as H.
  { refine (bool_decide_unpack _ _). destruct e; vm_compute; exact I. }
  apply list_elem_of_fmap in H as ([e' c] & -> & Hin). by exists c.
Qed.

Lemma convert_table_NoDup : NoDup convert_table.*1.
Proof. refine (bool_decide_unpack _ _). vm_compute. exact I. Qed.

(** No row of the table produces the two codes that do not come from libuv. *)
Lemma convert_table_range e c : (e, c) ∈ convert_table -> c <> OK /\ c <> UNDEFINED.
Proof.
  assert (Forall (fun r => r.2 <> OK /\ r.2 <> UNDEFINED) convert_table) as H.
  { refine (bool_decide_unpack _ _). vm_compute. exact I. }
  rewrite Forall_forall in H. exact (H (e, c)).
Qed.

Definition same_family (e1 e2 : uv_errno) : Prop :=
  (e1 = UV_EAFNOSUPPORT /\ e2 = UV_EAI_ADDRFAMILY) \/
  (e1 = UV_EAI_ADDRFAMILY /\ e2 = UV_EAFNOSUPPORT).

Lemma convert_table_inj e1 e2 c :
  (e1, c) ∈ convert_table -> (e2, c) ∈ convert_table -> e1 = e2 \/ same_family e1 e2.
Proof.
  assert (Forall (fun r1 => Forall (fun r2 =>
    r1.2 <> r2.2 \/ (r1.1 = r2.1 \/ same_family r1.1 r2.1)) convert_table) convert_table) as H.
  { unfold same_family. refine (bool_decide_unpack _ _). vm_compute. exact I. }
  intros H1 H2. rewrite Forall_forall in H. specialize (H _ H1). rewrite Forall_forall in H.
  specialize (H _ H2). simpl in H. tauto.
Qed.

Section Facts.
Context {uv : UvErrno}.

Lemma switch_uv_hit table e c :
  NoDup table.*1 -> (e, c) ∈ table -> switch_uv table (uv_code e) = c.
Proof.
  induction table as [|[e' c'] rest IH]; simpl; intros Hnd Hin.
  { by apply not_elem_of_nil in Hin. }
  apply NoDup_cons in Hnd as [Hni Hnd].
  apply elem_of_cons in Hin as [[= -> ->]|Hin]; [by rewrite Z.eqb_refl|].
  destruct (uv_code e =? uv_code e') eqn:E; [|by apply IH].
  apply Z.eqb_eq, uv_code_inj in E as ->. exfalso. apply Hni.
  apply list_elem_of_fmap. by exists (e', c).
Qed.

Lemma switch_uv_miss table z :
  (forall e, z <> uv_code e) -> switch_uv table z = UNDEFINED.
Proof.
  intros Hz. induction table as [|[e c] rest IH]; [done|]. simpl.
  by rewrite (proj2 (Z.eqb_neq _ _) (Hz e)).
Qed.

Lemma switch_uv_not_ok z : switch_uv convert_table z <> OK.
Proof.
  assert (forall t, (forall e c, (e, c) ∈ t -> c <> OK) -> switch_uv t z <> OK) as H.
  { induction t as [|[e c] rest IH]; intros Ht; [done|]. simpl. case_match.
    - apply (Ht e). by left.
    - apply IH. intros e' c' Hin. apply (Ht e'). by right. }
  apply H. intros e c Hin. by apply (convert_table_range e c).
Qed.

Lemma convert_from_uv_code e c : (e, c) ∈ convert_table -> convert_from_uv (uv_code e) = c.
Proof.
  intros Hin. unfold convert_from_uv. pose proof (uv_code_negative e).
  rewrite (proj2 (Z.eqb_neq _ _)) by lia.
  apply switch_uv_hit; [apply convert_table_NoDup|done].
Qed.

(** ** Properties *)

(** Every code libuv can return has a status code of its own: it is neither
    [OK] nor the catch-all [UNDEFINED], and two libuv codes share a status code only
    when they are the two spellings of "address family not supported". *)
Theorem convert_from_uv_faithful e1 e2 :
  convert_from_uv (uv_code e1) <> OK /\
  convert_from_uv (uv_code e1) <> UNDEFINED /\
  (convert_from_uv (uv_code e1) = convert_from_uv (uv_code e2) <->
     e1 = e2 \/ same_family e1 e2).
Proof.
  destruct (convert_table_covers e1) as [c1 H1], (convert_table_covers e2) as [c2 H2].
  rewrite (convert_from_uv_code _ _ H1), (convert_from_uv_code _ _ H2).
  destruct (convert_table_range _ _ H1). split_and!; [done..|]. split.
  - intros ->. by apply (convert_table_inj _ _ c2).
  - intros [->|Hf].
    + by rewrite <- (convert_from_uv_code _ _ H1), (convert_from_uv_code _ _ H2).
    + rewrite <- (convert_from_uv_code _ _ H1), <- (convert_from_uv_code _ _ H2).
      destruct Hf as [[-> ->]|[-> ->]];
        rewrite (convert_from_uv_code UV_EAFNOSUPPORT ADDRESS_FAMILY_NOT_SUPPORTED),
                (convert_from_uv_code UV_EAI_ADDRFAMILY ADDRESS_FAMILY_NOT_SUPPORTED);
        try done; refine (bool_decide_unpack _ _); vm_compute; exact I.
Qed.

Lemma error_bool_of_uv z : error_bool (Error_of_uv z) = (z <? 0).
Proof.
  unfold Error_of_uv, error_bool, convert_from_uv. destruct (Z.ltb_spec z 0); [|done].
  cbn [m_status_code]. rewrite (proj2 (Z.eqb_neq _ _)) by lia.
  apply bool_decide_eq_true, switch_uv_not_ok.
Qed.

Lemma error_of_uv_code_fails e : error_bool (Error_of_uv (uv_code e)) = true.
Proof. rewrite error_bool_of_uv. apply Z.ltb_lt, uv_code_negative. Qed.

(** An [Error] built from a libuv return value tests as a failure exactly when the
    value is negative, whether or not the value is a code libuv documents: an unknown
    negative value is reported as [UNDEFINED], never as success. *)
Theorem error_of_uv_fails_iff_negative z :
  error_bool (Error_of_uv z) = (z <? 0) /\
  (z < 0 -> (forall e, z <> uv_code e) -> code (Error_of_uv z) = UNDEFINED).
Proof.
  split; [apply error_bool_of_uv|]. intros Hz Hu. unfold Error_of_uv, code, convert_from_uv.
  rewrite (proj2 (Z.ltb_lt _ _)), (proj2 (Z.eqb_neq _ _)) by lia. by apply switch_uv_miss.
Qed.
End Facts.

(** The text of a status code, the additional information aside. *)
Definition status_text (c : StatusCode) : string := error_string (Error_of_status c).

Lemma status_text_inj c1 c2 :
  status_text c1 = status_text c2 ->
  c1 = c2 \/ (c1 = UNDEFINED /\ c2 = UNKNOWN_ERROR) \/ (c1 = UNKNOWN_ERROR /\ c2 = UNDEFINED).
Proof.
  assert (Forall (fun c1 => Forall (fun c2 =>
    status_text c1 <> status_text c2 \/ (c1 = c2 \/ (c1 = UNDEFINED /\ c2 = UNKNOWN_ERROR) \/
    (c1 = UNKNOWN_ERROR /\ c2 = UNDEFINED))) all_status_codes) all_status_codes) as H.
  { refine (bool_decide_unpack _ _). vm_compute. exact I. }
  assert (forall c, c ∈ all_status_codes) as Hall.
  { intros c. eapply list_elem_of_lookup_2, status_value_lookup. }
  rewrite Forall_forall in H. specialize (H c1 (Hall c1)). rewrite Forall_forall in H.
  specialize (H c2 (Hall c2)). tauto.
Qed.

Lemma error_string_plain e : code e <> OPENSSL_ERROR -> error_string e = status_text (code e).
Proof. destruct e as [u c i]. unfold code; simpl. by destruct c. Qed.

Lemma status_text_prefix c :
  String.prefix "Openssl error: " (status_text c) = true -> c = OPENSSL_ERROR.
Proof. by destruct c. Qed.

Lemma prefix_append s t : String.prefix s (s +:+ t) = true.
Proof.
  induction s as [|a s IH]; [by destruct t|].
  change (String.prefix (String a s) (String a (s +:+ t)) = true). simpl.
  by destruct (Ascii.ascii_dec a a).
Qed.

Lemma error_string_openssl_prefix e :
  code e = OPENSSL_ERROR -> String.prefix "Openssl error: " (error_string e) = true.
Proof.
  destruct e as [u c i]. unfold code, error_string. simpl. intros ->.
  apply prefix_append.
Qed.

(** [Error::string] never reaches its [assert(false)] default: every error has a
    non-empty message; and a message identifies the status code, [UNDEFINED] and
    [UNKNOWN_ERROR] (both "Unknown error") being the only two that share one. *)
Theorem error_string_identifies e1 e2 :
  error_string e1 <> "" /\
  (error_string e1 = error_string e2 ->
   code e1 = code e2 \/
   (code e1 = UNDEFINED /\ code e2 = UNKNOWN_ERROR) \/
   (code e1 = UNKNOWN_ERROR /\ code e2 = UNDEFINED)).
Proof.
  split; [destruct e1 as [u c i]; by destruct c|]. intros E.
  destruct (decide (code e1 = OPENSSL_ERROR)) as [H1|H1],
           (decide (code e2 = OPENSSL_ERROR)) as [H2|H2]; [left; congruence| | |].
  - apply error_string_openssl_prefix in H1 as Hp. rewrite E, error_string_plain in Hp by done.
    by apply status_text_prefix in Hp.
  - apply error_string_openssl_prefix in H2 as Hp. rewrite <- E, error_string_plain in Hp by done.
    by apply status_text_prefix in Hp.
  - rewrite !error_string_plain in E by done. by apply status_text_inj.
Qed.

(** ** Error equality as a setoid

    [operator==] ignores the libuv code and the additional information. *)
Definition error_equiv (e1 e2 : Error) : Prop := error_eqb e1 e2 = true.

#[global] Instance error_equiv_equivalence : Equivalence error_equiv.
Proof.
  unfold error_equiv, error_eqb. split.
  - intros x. by apply bool_decide_eq_true.
  - intros x y. rewrite !bool_decide_eq_true. done.
  - intros x y z. rewrite !bool_decide_eq_true. congruence.
Qed.

#[global] Instance code_proper : Proper (error_equiv ==> (=)) code.
Proof. intros x y H. by apply bool_decide_eq_true in H. Qed.

#[global] Instance error_bool_proper : Proper (error_equiv ==> (=)) error_bool.
Proof. intros x y H. apply bool_decide_eq_true in H. unfold error_bool, code in *. by rewrite H. Qed.

(** ** Witnesses: the properties at libuv's own code values *)

Lemma convert_from_uv_faithful_witness :
  @convert_from_uv UvFallback (-4077) = CONNECTION_RESET_BY_PEER /\
  @convert_from_uv UvFallback (@uv_code UvFallback UV_ECONNRESET) <> OK.
Proof.
  split; [reflexivity|].
  exact (proj1 (@convert_from_uv_faithful UvFallback UV_ECONNRESET UV_EOF)).
Defined.

Lemma error_of_uv_fails_iff_negative_witness :
  @error_bool (@Error_of_uv UvFallback (-77)) = true /\
  code (@Error_of_uv UvFallback (-77)) = UNDEFINED.
Proof.
  destruct (@error_of_uv_fails_iff_negative UvFallback (-77)) as [H1 H2].
  split; [exact H1|]. apply H2; [lia|]. intros e; destruct e; discriminate.
Defined.
