(* ===== verification/LibuvCompat.v ===== *)
(** * libuv compatibility

    [source/io/detail/LibuvCompatibility.cpp], the POSIX branches: [uv_tcp_close_reset] for versions of libuv
    without it, and [tarm_io_socket_option].  The operating system's sockets are a map from file
    descriptors to their options; [errno] is translated by libuv, and the code only needs that a translated
    error is negative. *)

From S2P Require Import Prelude.
Local Open Scope record_scope.

Module LibuvCompat.

Definition UV_EINVAL : Z := -22.
Definition UV_ENOTSUP : Z := -95.
Definition SO_LINGER : Z := 13.

Inductive handle_type := UV_TCP | UV_UDP | UV_NAMED_PIPE | OtherHandle.

(** A handle: its type, the flag [UV_HANDLE_SHUTTING], its descriptor as [uv_fileno] sees it (a
    negative status or the descriptor) and as the watcher of a UDP handle has it, and whether
    [uv_close] was called. *)
Record Handle := mkHandle {
  type : handle_type; shutting : bool; fileno : Z; watcher_fd : Z; closing : bool }.

#[export] Instance handle_settable : Settable Handle := settable! mkHandle <type; shutting; fileno; watcher_fd; closing>.

(** The options of the open sockets; the value of [SO_LINGER] is the time to linger. *)
Abbreviation sockets := (gmap Z (gmap Z Z)).

Section Posix.

(** The error that an operation on a socket fails with, if it does, translated. *)
Context (translated_errno : Z -> Z -> option Z).

(** [setsockopt(fd, SOL_SOCKET, name, &value, len)] and its error, translated. *)
Definition setsockopt (os : sockets) (fd name value : Z) : sockets * option Z :=
  match translated_errno fd name with
  | Some e => (os, Some e)
  | None => (<[fd := <[name := value]> (default ∅ (os !! fd))]> os, None)
  end.

Definition getsockopt (os : sockets) (fd name : Z) : Z + Z :=
  match translated_errno fd name with
  | Some e => inl e
  | None => inr (default 0 (default ∅ (os !! fd) !! name))
  end.

(** The status, the handle and the sockets afterwards. *)
Definition uv_tcp_close_reset (os : sockets) (h : Handle) : Z * Handle * sockets :=
  if shutting h then (UV_EINVAL, h, os)
  else
    let status := fileno h in
    if status <? 0 then (status, h, os)
    else
      let native_handle := fileno h in
      match setsockopt os native_handle SO_LINGER 0 with
      | (os, Some e) => (e, h, os)
      | (os, None) => (0, h <| closing := true |>, os)
      end.

(** The status, the value afterwards and the sockets; [None] is a null pointer. *)
Definition tarm_io_socket_option (os : sockets) (handle : option Handle) (optname : Z) (value : option Z)
    : Z * option Z * sockets :=
  match handle, value with
  | None, _ | _, None => (UV_EINVAL, value, os)
  | Some h, Some v =>
      let native_handle :=
        match type h with
        | UV_TCP | UV_NAMED_PIPE => if fileno h <? 0 then inl (fileno h) else inr (fileno h)
        | UV_UDP => inr (watcher_fd h)
        | OtherHandle => inl UV_ENOTSUP
        end in
      match native_handle with
      | inl status => (status, value, os)
      | inr fd =>
          if v =? 0 then
            match getsockopt os fd optname with
            | inl e => (e, value, os)
            | inr x => (0, Some x, os)
            end
          else
            match setsockopt os fd optname v with
            | (os, Some e) => (e, value, os)
            | (os, None) => (0, value, os)
            end
      end
  end.

(** ** Properties *)

Hypothesis errno_negative : forall fd name e, translated_errno fd name = Some e -> e < 0.

(** Resetting a connection is all or nothing: either the status is 0, the handle is being closed and its
    socket is set to drop the connection at once, or the status is an error and neither the
    handle nor any socket has changed.  A connection that is being shut down is always refused. *)
Theorem close_reset_all_or_nothing os h :
  let '(status, h', os') := uv_tcp_close_reset os h in
  (shutting h = true -> status = UV_EINVAL) /\
  ((status = 0 /\ h' = h <| closing := true |> /\ default ∅ (os' !! fileno h) !! SO_LINGER = Some 0 /\
    (forall fd, fd <> fileno h -> os' !! fd = os !! fd)) \/
   (status < 0 /\ h' = h /\ os' = os)).
Proof.
  unfold uv_tcp_close_reset. destruct (shutting h); [split; [done|]; by right|].
  destruct (Z.ltb_spec (fileno h) 0); [split; [done|]; by right|]. unfold setsockopt.
  destruct (translated_errno (fileno h) SO_LINGER) as [e|] eqn:E; (split; [done|]).
  - right. split_and!; [by eapply errno_negative|done|done].
  - left. split_and!; [done|done| |].
    + by rewrite lookup_insert_eq; cbn; rewrite lookup_insert_eq.
    + intros fd Hne. by rewrite lookup_insert_ne.
Qed.

(** A socket option that was set (to something other than 0) is read back by a query, which asks
    with 0; asking changes nothing. *)
Theorem socket_option_roundtrip os h optname v status value os' :
  v <> 0 -> tarm_io_socket_option os (Some h) optname (Some v) = (status, value, os') -> status = 0 ->
  value = Some v /\ tarm_io_socket_option os' (Some h) optname (Some 0) = (0, Some v, os').
Proof.
  intros Hv H Hs. unfold tarm_io_socket_option in *. rewrite (proj2 (Z.eqb_neq v 0) Hv) in H. rewrite Z.eqb_refl.
  destruct (match type h with UV_TCP | UV_NAMED_PIPE => _ | UV_UDP => _ | OtherHandle => _ end) as [st|fd] eqn:En.
  { exfalso. injection H as <- _ _. subst st.
    destruct (type h); try done; destruct (Z.ltb_spec (fileno h) 0); try done; injection En; lia. }
  unfold setsockopt, getsockopt in *. destruct (translated_errno fd optname) as [e|] eqn:E.
  { exfalso. injection H as <- _ _. apply errno_negative in E. lia. }
  injection H as _ <- <-. split; [done|]. by rewrite lookup_insert_eq; cbn; rewrite lookup_insert_eq.
Qed.

End Posix.

(** A system where only descriptor 3 is a socket. *)
Definition one_socket (fd name : Z) : option Z := if fd =? 3 then None else Some (-9).

Lemma one_socket_negative fd name e : one_socket fd name = Some e -> e < 0.
Proof. unfold one_socket. destruct (fd =? 3); [done|]. intros [= <-]. lia. Qed.

Definition tcp (fd : Z) : Handle := mkHandle UV_TCP false fd (-1) false.

Lemma close_reset_all_or_nothing_witness :
  uv_tcp_close_reset one_socket ∅ (tcp 3) = (0, (tcp 3) <| closing := true |>, {[3 := {[SO_LINGER := 0]}]}) /\
  let '(status, h', os') := uv_tcp_close_reset one_socket ∅ (tcp 4) in
  (shutting (tcp 4) = true -> status = UV_EINVAL) /\
  ((status = 0 /\ h' = (tcp 4) <| closing := true |> /\ default ∅ (os' !! fileno (tcp 4)) !! SO_LINGER = Some 0 /\
    (forall fd, fd <> fileno (tcp 4) -> os' !! fd = (∅ : sockets) !! fd)) \/
   (status < 0 /\ h' = tcp 4 /\ os' = ∅)).
Proof. split; [by vm_compute|]. exact (close_reset_all_or_nothing one_socket one_socket_negative ∅ (tcp 4)). Defined.

Lemma socket_option_roundtrip_witness :
  Some 4096 = Some 4096 /\
  tarm_io_socket_option one_socket {[3 := {[7 := 4096]}]} (Some (tcp 3)) 7 (Some 0) = (0, Some 4096, {[3 := {[7 := 4096]}]}).
Proof.
  refine (socket_option_roundtrip one_socket one_socket_negative ∅ (tcp 3) 7 4096 0 (Some 4096) {[3 := {[7 := 4096]}]} _ _ _);
    [discriminate|by vm_compute|reflexivity].
Defined.

(** An option can not be set to 0: the call reads it instead. *)
Example option_zero_is_a_query :
  tarm_io_socket_option one_socket {[3 := {[7 := 5]}]} (Some (tcp 3)) 7 (Some 0) = (0, Some 5, {[3 := {[7 := 5]}]}).
Proof. by vm_compute. Qed.

End LibuvCompat.
