(* ===== verification/Logging.v ===== *)
(** * Logging

    [source/io/Logger.h] and [.cpp], the macros of [detail/LogMacros.h] and the file names of
    [detail/ConstexprString.h].  Text is a list of characters; the chunks of a message are given as the text that
    their [operator<<] writes.  What the callback was called with is recorded. *)

From stdpp Require Import pretty.
From S2P Require Import Prelude.
Local Open Scope outcome_scope.
Local Open Scope record_scope.

Module Logging.

(** ** File names *)

Definition NPOS : Z := 2 ^ 64 - 1.

(** [length_impl]: the number of characters before the NUL; a null pointer has none. *)
Definition length_ (str : option (list Z)) : nat :=
  match str with Some mem => length (c_str mem) | None => 0%nat end.

Definition equals_one_of (c : Z) (vs : list Z) : bool := existsb (Z.eqb c) vs.

Definition at_ (mem : list Z) (i : nat) : outcome Z :=
  match mem !! i with Some c => Ret c | None => Fault OutOfBounds end.

(** [rfind_impl]: from position [i] down to the first character. *)
Fixpoint rfind_impl (mem : list Z) (i : nat) (cs : list Z) : outcome Z :=
  let* x := at_ mem i in
  match i with
  | O => Ret (if equals_one_of x cs then 0 else NPOS)
  | S i' => if equals_one_of x cs then Ret (Z.of_nat i) else rfind_impl mem i' cs
  end.

Definition rfind (str : option (list Z)) (cs : list Z) : outcome Z :=
  match str with
  | None => Fault NullDeref
  | Some mem => rfind_impl mem (length_ str) cs
  end.

Definition slash : Z := 47.
Definition backslash : Z := 92.

(** [str + (rfind(str, '/', '\\') + 1)]: without a separator the sum wraps to 0. *)
Definition extract_file_name_from_path (str : option (list Z)) : outcome (list Z) :=
  let* pos := rfind str [slash; backslash] in
  match str with
  | None => Fault NullDeref
  | Some mem => Ret (drop (Z.to_nat (wrap 64 (pos + 1))) mem)
  end.

(** ** Lines *)

Inductive Severity := TRACE | DEBUG | INFO | WARNING | ERROR.

Definition severity_text (s : Severity) : list Z :=
  chars match s with TRACE => "TRACE" | DEBUG => "DEBUG" | INFO => "INFO" | WARNING => "WARNING" | ERROR => "ERROR" end.

Record Logger := mkLogger {
  m_callback : bool;
  m_prefix : list Z;
  written : list (list Z)        (* the lines that the callback got *) }.

#[export] Instance logger_settable : Settable Logger := settable! mkLogger <m_callback; m_prefix; written>.

(** [Logger(prefix)]; the default constructor leaves the prefix empty. *)
Definition make (prefix : list Z) : Logger := mkLogger false prefix [].

(** [enable_log]; a null callback turns logging off. *)
Definition enable_log (l : Logger) (callback : bool) : Logger := l <| m_callback := callback |>.

Definition out_common_prefix (l : Logger) (severity : Severity) : list Z :=
  chars "[" ++ severity_text severity ++ chars "]" ++
  (if bool_decide (m_prefix l = []) then [] else chars " <" ++ m_prefix l ++ chars ">").

(** [log_impl]: every chunk after a space. *)
Fixpoint log_impl (chunks : list (list Z)) : list Z :=
  match chunks with
  | [] => []
  | c :: chunks => chars " " ++ c ++ log_impl chunks
  end.

Definition log (l : Logger) (severity : Severity) (chunks : list (list Z)) : Logger :=
  if m_callback l then l <| written ::= fun w => w ++ [out_common_prefix l severity ++ log_impl chunks] |> else l.

Definition log_with_compile_context (l : Logger) (severity : Severity) (file : list Z) (line : N) (func : option (list Z))
    (chunks : list (list Z)) : Logger :=
  if m_callback l then
    l <| written ::= fun w => w ++ [
      out_common_prefix l severity ++
      chars " [" ++ file ++ chars ":" ++ chars (pretty line) ++ chars "]" ++
      match func with Some f => chars " (" ++ f ++ chars ")" | None => [] end ++
      log_impl chunks] |>
  else l.

(** [LOG_IMPL]: the file name is computed from [__FILE__]. *)
Definition LOG_IMPL (l : Logger) (severity : Severity) (file : list Z) (line : N) (func : list Z) (chunks : list (list Z))
    : outcome Logger :=
  let* file_name := extract_file_name_from_path (Some file) in
  Ret (log_with_compile_context l severity (c_str file_name) line (Some func) chunks).

(** ** Properties *)

Definition is_sep (c : Z) : bool := equals_one_of c [slash; backslash].

Lemma c_str_nul s mem : 0 ∉ s -> c_str (s ++ 0 :: mem) = s.
Proof.
  induction s as [|c s IH]; intros Hs; [done|]. apply not_elem_of_cons in Hs as [Hc Hs]. cbn.
  rewrite (proj2 (Z.eqb_neq c 0)) by done. by rewrite IH.
Qed.

(** Searching back over a name without separators, to the separator before it or to the front. *)
Lemma rfind_impl_name dir name mem : Forall (fun c => is_sep c = false) name ->
  match dir with [] => True | _ => exists d c, dir = d ++ [c] /\ is_sep c = true end ->
  forall k, (k <= length name)%nat ->
  match k with
  | O => dir <> [] -> rfind_impl (dir ++ name ++ mem) (length dir - 1) [slash; backslash] = Ret (Z.of_nat (length dir) - 1)
  | S k' => rfind_impl (dir ++ name ++ mem) (length dir + k') [slash; backslash] =
      Ret (if decide (dir = []) then NPOS else Z.of_nat (length dir) - 1)
  end.
Proof.
  intros Hname Hdir.
  assert (dir <> [] -> rfind_impl (dir ++ name ++ mem) (length dir - 1) [slash; backslash] = Ret (Z.of_nat (length dir) - 1)) as Hbase.
  { intros Hne. destruct dir as [|c0 dir0]; [done|]. destruct Hdir as (d & c & -> & Hc).
    rewrite length_app. cbn [length]. replace (length d + 1 - 1)%nat with (length d) by lia.
    assert (at_ ((d ++ [c]) ++ name ++ mem) (length d) = Ret c) as Hat.
    { unfold at_. rewrite <- app_assoc, lookup_app_r, Nat.sub_diag by lia. done. }
    destruct (length d) as [|m] eqn:Em; cbn [rfind_impl]; rewrite Hat; cbn [obind]; unfold is_sep in Hc; rewrite Hc; f_equal; lia. }
  induction k as [|k IH]; intros Hk; [by apply Hbase|].
  assert (exists x, name !! k = Some x /\ is_sep x = false) as (x & Hx & Hsep).
  { destruct (lookup_lt_is_Some_2 name k) as [x Hx]; [lia|]. exists x. split; [done|].
    rewrite Forall_lookup in Hname. by eapply Hname. }
  assert (at_ (dir ++ name ++ mem) (length dir + k) = Ret x) as Hat.
  { unfold at_. rewrite lookup_app_r by lia. replace (length dir + k - length dir)%nat with k by lia.
    by rewrite lookup_app_l, Hx by lia. }
  specialize (IH ltac:(lia)). unfold is_sep in Hsep.
  destruct (length dir + k)%nat as [|p] eqn:Ep; cbn [rfind_impl]; rewrite Hat; cbn [obind]; rewrite Hsep.
  - destruct dir; [|cbn in Ep; lia]. done.
  - destruct k as [|k].
    + destruct dir as [|c0 dir0]; [cbn in Ep; lia|]. rewrite decide_False by done.
      replace p with (length (c0 :: dir0) - 1)%nat by lia. by apply IH.
    + replace p with (length dir + k)%nat by lia. apply IH.
Qed.

(** The name that is logged for a source file is what follows the last slash or backslash of its
    path, and the whole path when there is none (where the search yields the largest number, and adding one
    to it wraps to 0). *)
Theorem file_name_extracted dir name mem :
  0 ∉ dir ++ name -> Z.of_nat (length (dir ++ name)) < 2 ^ 64 - 1 ->
  Forall (fun c => is_sep c = false) name -> match dir with [] => True | _ => exists d c, dir = d ++ [c] /\ is_sep c = true end ->
  extract_file_name_from_path (Some (dir ++ name ++ 0 :: mem)) = Ret (name ++ 0 :: mem).
Proof.
  intros Hnul Hlen Hname Hdir. unfold extract_file_name_from_path, rfind, length_.
  rewrite (app_assoc dir name), c_str_nul by done. rewrite <- app_assoc.
  assert (Forall (fun c => is_sep c = false) (name ++ [0])) as Hname' by (apply Forall_app; split; [done|by repeat constructor]).
  pose proof (rfind_impl_name dir (name ++ [0]) mem Hname' Hdir (S (length name))) as H.
  rewrite <- app_assoc in H. cbn [app] in H. rewrite length_app, H by (rewrite length_app; cbn; lia). cbn [obind].
  rewrite length_app in Hlen. f_equal. destruct (decide (dir = [])) as [->|Hne].
  - replace (wrap 64 (NPOS + 1)) with 0 by done. done.
  - rewrite wrap_small by (unfold fits; lia). replace (Z.to_nat (Z.of_nat (length dir) - 1 + 1)) with (length dir) by lia.
    apply drop_app_length.
Qed.

Lemma file_name_extracted_witness :
  extract_file_name_from_path (Some (chars "/src/io\" ++ chars "Timer.cpp" ++ [0])) = Ret (chars "Timer.cpp" ++ [0]).
Proof.
  refine (file_name_extracted (chars "/src/io\") (chars "Timer.cpp") [] _ _ _ _).
  - apply (bool_decide_unpack _). vm_compute. exact I.
  - by vm_compute.
  - repeat constructor.
  - by exists (chars "/src/io"), 92.
Defined.

(** Logging is silent until a callback is set; then a call gives exactly one line. *)
Example log_line :
  written (log_with_compile_context (make (chars "Loop-0")) ERROR (chars "a.cpp") 7 None []) = [] /\
  (let* l := LOG_IMPL (enable_log (make (chars "Loop-0")) true) WARNING (chars "/src/a.cpp" ++ [0]) 42 (chars "run") [chars "x"; chars "y"] in
   Ret (written l)) = Ret [chars "[WARNING] <Loop-0> [a.cpp:42] (run) x y"].
Proof. split; by vm_compute. Qed.

End Logging.
