(* ===== verification/VariableLengthSize.v ===== *)
(** * core::VariableLengthSize

    [source/io/core/VariableLengthSize.h] and [.cpp]: the variable-length encoding of
    message sizes, up to [2^56 - 1], in one to eight bytes, with the incremental
    decoder that accepts the bytes in any number of chunks.

    The object is its two [std::uint64_t] members.  The abstract decoder [Spec] keeps the
    list of bytes accepted so far; [concrete] computes the members that represent an
    abstract state, and the refinement lemmas say that every operation commutes with it. *)

From S2P Require Import Prelude.
Local Open Scope word_scope.

Module VariableLengthSize.

(** ** The object *)

Record t := mk {
  m_encoded_value : Z;
  m_decoded_value : Z
}.

Definition INVALID_VALUE : Z := 2 ^ 64 - 1.
Definition MAX_VALUE : Z := INVALID_VALUE >>> 8.
Definition IS_COMPLETE_MASK : Z := 1 <<<[64] 63.
Definition IS_FAIL_MASK : Z := 1 <<<[64] 62.

(** Default constructor, for decoding. *)
Definition empty : t := mk 0 0.

(** The [do ... while (current_v)] loop of [encode_impl].  [None] is fuel exhausted;
    ten rounds are enough for any 64-bit value ([encode_loop_terminates]). *)
Fixpoint encode_loop (fuel : nat) (v current_v encoded : Z) : option Z :=
  match fuel with
  | O => None
  | S fuel =>
      let chunk := current_v .& 0x7F in
      let encoded' :=
        if negb (current_v =? v)
        then (encoded <<<[64] 8) .| (chunk .| 0x80)
        else encoded .| chunk in
      let current_v' := current_v >>> 7 in
      if current_v' =? 0 then Some encoded' else encode_loop fuel v current_v' encoded'
  end.

Definition encode_impl (s : t) (v : Z) : t :=
  if negb (v .& (cpl[64] 0x7F) =? 0)
  then match encode_loop 10 v v (m_encoded_value s) with
       | Some e => mk e (m_decoded_value s)
       | None => s
       end
  else mk v (m_decoded_value s).

(** [VariableLengthSize(unsigned long)] and [(unsigned long long)]; the narrower
    unsigned constructors convert to [std::uint64_t] and delegate. *)
Definition of_unsigned (value : Z) : t :=
  if value <=? MAX_VALUE
  then encode_impl (mk 0 (value .| IS_COMPLETE_MASK)) value
  else empty.

(** [VariableLengthSize(long)] and [(long long)]; the narrower signed constructors
    convert to [std::int64_t] and delegate. *)
Definition of_signed (value : Z) : t :=
  if (0 <=? value) && (value <=? MAX_VALUE)
  then encode_impl (mk 0 (value .| IS_COMPLETE_MASK)) value
  else empty.

Definition is_complete (s : t) : bool := negb (m_decoded_value s .& IS_COMPLETE_MASK =? 0).

Definition fail (s : t) : bool := negb (m_decoded_value s .& IS_FAIL_MASK =? 0).

Definition value (s : t) : Z :=
  if is_complete s then m_decoded_value s .& 0xFFFFFFFFFFFFFF else INVALID_VALUE.

Definition bytes_count (s : t) : Z :=
  let all_m_bits_value := 0x8080808080808080 .& m_encoded_value s in
  if all_m_bits_value =? 0 then (if is_complete s then 1 else 0)
  else if all_m_bits_value =? 0x0000000000000080 then 2
  else if all_m_bits_value =? 0x0000000000008080 then 3
  else if all_m_bits_value =? 0x0000000000808080 then 4
  else if all_m_bits_value =? 0x0000000080808080 then 5
  else if all_m_bits_value =? 0x0000008080808080 then 6
  else if all_m_bits_value =? 0x0000808080808080 then 7
  else if all_m_bits_value =? 0x0080808080808080 then 8
  else 0.

Definition reset (s : t) : t := mk 0 0.

(** [bytes()]: the memory of [m_encoded_value], on a little-endian host. *)
Definition bytes (s : t) : list Z := le_split 8 (m_encoded_value s).

Definition set_is_complete (s : t) : t :=
  mk (m_encoded_value s) (m_decoded_value s .| IS_COMPLETE_MASK).

Definition set_is_fail (s : t) : t :=
  mk (m_encoded_value s) (m_decoded_value s .| IS_FAIL_MASK).

Definition add_byte (s : t) (b : Z) : t * bool :=
  if is_complete s then (s, false)
  else if fail s then (s, false)
  else
    let bytes_count := (m_decoded_value s .& 0x0F00000000000000) >>> 56 in
    let should_stop := b .& 0x80 =? 0 in
    if (bytes_count =? 7) && negb should_stop then (set_is_fail s, false)
    else
      let encoded := (m_encoded_value s >>> 8) .| (b <<<[64] 56) in
      let chunk := b .& 0x7F in
      let decoded := m_decoded_value s <<<[64] 7 in
      let decoded := decoded .& (cpl[64] IS_COMPLETE_MASK) in
      let decoded := decoded .| ((bytes_count + 1) <<<[64] 56) in
      let decoded := decoded .| chunk in
      let s' := mk encoded decoded in
      if should_stop
      then let s'' := set_is_complete s' in
           (mk (m_encoded_value s'' >>> (8 * (8 - bytes_count - 1))) (m_decoded_value s''), true)
      else (s', true).

(** The [while(counter < count && add_byte(b[counter]))] loop: the new object and the
    number of bytes processed. *)
Fixpoint add_bytes_loop (s : t) (b : list Z) (counter : Z) : t * Z :=
  match b with
  | [] => (s, counter)
  | x :: rest =>
      let (s', accepted) := add_byte s x in
      if accepted then add_bytes_loop s' rest (counter + 1) else (s', counter)
  end.

(** [add_bytes(b, count)]; [None] is a null pointer. *)
Definition add_bytes (s : t) (b : option (list Z)) : t * Z :=
  match b with
  | None => (s, 0)
  | Some [] => (s, 0)
  | Some bs => add_bytes_loop s bs 0
  end.

(** ** The wire format, as the header comment documents it *)

(** Base-128 digits of [v], most significant first, no leading zero digit. *)
Fixpoint septets (fuel : nat) (v : Z) : list Z :=
  match fuel with
  | O => []
  | S fuel => if v / 128 =? 0 then [v mod 128] else septets fuel (v / 128) ++ [v mod 128]
  end.

(** The marker bit on every byte but the last. *)
Fixpoint mark (ds : list Z) : list Z :=
  match ds with
  | [] => []
  | [d] => [d]
  | d :: rest => (d + 128) :: mark rest
  end.

Definition wire (v : Z) : list Z := mark (septets 8 v).

(** The value denoted by a sequence of wire bytes. *)
Definition septet_val (bs : list Z) : Z := fold_left (fun acc b => acc * 128 + b mod 128) bs 0.

(** ** The abstract decoder *)

Inductive Spec :=
| Pending (bs : list Z)
| Done (bs : list Z)
| Bad (bs : list Z).

Definition spec_add (d : Spec) (b : Z) : Spec * bool :=
  match d with
  | Pending bs =>
      if b <? 128 then (Done (bs ++ [b]), true)
      else if (length bs =? 7)%nat then (Bad bs, false)
      else (Pending (bs ++ [b]), true)
  | Done _ | Bad _ => (d, false)
  end.

Definition marked (b : Z) : Prop := 128 <= b < 256.

Definition spec_ok (d : Spec) : Prop :=
  match d with
  | Pending bs => Forall marked bs /\ (length bs <= 7)%nat
  | Bad bs => Forall marked bs /\ length bs = 7%nat
  | Done bs => exists hd l, bs = hd ++ [l] /\ Forall marked hd /\ (length hd <= 7)%nat /\ 0 <= l < 128
  end.

(** The members representing an abstract state. *)
Definition concrete (d : Spec) : t :=
  match d with
  | Pending bs =>
      mk (le_val bs * 2 ^ (8 * (8 - Z.of_nat (length bs))))
         (Z.of_nat (length bs) * 2 ^ 56 + septet_val bs)
  | Bad bs =>
      mk (le_val bs * 2 ^ (8 * (8 - Z.of_nat (length bs))))
         ((64 + Z.of_nat (length bs)) * 2 ^ 56 + septet_val bs)
  | Done bs =>
      mk (le_val bs) ((128 + Z.of_nat (length bs)) * 2 ^ 56 + septet_val bs)
  end.

(** ** Reading the bit fields of [m_decoded_value]

    Its layout is [h * 2^56 + a]: the value bits [a], and above them the byte count
    (four bits), the fail bit and the complete bit, together [h]. *)

Lemma testbit_fields h a n :
  fits 56 a -> 56 <= n -> Z.testbit (h * 2 ^ 56 + a) n = Z.testbit h (n - 56).
Proof.
  intros Ha Hn. rewrite testbit_field by (done || lia).
  by rewrite (proj2 (Z.ltb_ge n 56)) by lia.
Qed.

Lemma is_complete_fields e h a :
  fits 56 a -> is_complete (mk e (h * 2 ^ 56 + a)) = Z.testbit h 7.
Proof.
  intros Ha. unfold is_complete. simpl m_decoded_value.
  change IS_COMPLETE_MASK with (2 ^ 63).
  by rewrite land_bit_eqb, negb_involutive, testbit_fields by (done || lia).
Qed.

Lemma fail_fields e h a : fits 56 a -> fail (mk e (h * 2 ^ 56 + a)) = Z.testbit h 6.
Proof.
  intros Ha. unfold fail. simpl m_decoded_value. change IS_FAIL_MASK with (2 ^ 62).
  by rewrite land_bit_eqb, negb_involutive, testbit_fields by (done || lia).
Qed.

Lemma count_fields h a :
  fits 56 a -> ((h * 2 ^ 56 + a) .& 0x0F00000000000000) >>> 56 = h mod 16.
Proof.
  intros Ha. rewrite Z.shiftr_land. change (Z.shiftr 0x0F00000000000000 56) with (2 ^ 4 - 1).
  rewrite land_low_mask, Z.shiftr_div_pow2, Z.div_add_l, (Z.div_small a) by (done || lia).
  by rewrite Z.add_0_r.
Qed.

Lemma value_fields h a : fits 56 a -> (h * 2 ^ 56 + a) .& 0xFFFFFFFFFFFFFF = a.
Proof.
  intros Ha. change 0xFFFFFFFFFFFFFF with (2 ^ 56 - 1).
  rewrite land_low_mask, Z.add_comm, Z.mod_add by lia. by apply Z.mod_small.
Qed.

(** ** Arithmetic of the wire format *)

Lemma septet_val_snoc bs b : septet_val (bs ++ [b]) = septet_val bs * 128 + b mod 128.
Proof. unfold septet_val. by rewrite fold_left_app. Qed.

Lemma pow128 n : 2 ^ (7 * Z.of_nat (S n)) = 2 ^ (7 * Z.of_nat n) * 128.
Proof.
  replace (7 * Z.of_nat (S n)) with (7 * Z.of_nat n + 7) by lia. by rewrite Z.pow_add_r by lia.
Qed.

Lemma septet_val_bound bs : fits (7 * Z.of_nat (length bs)) (septet_val bs).
Proof.
  induction bs as [|b bs IH] using rev_ind; [unfold fits, septet_val; simpl; lia|].
  rewrite septet_val_snoc, length_app, Nat.add_1_r. unfold fits in *. rewrite pow128.
  pose proof (Z.mod_pos_bound b 128). lia.
Qed.

Lemma septet_val_fits w bs : 7 * Z.of_nat (length bs) <= w -> fits w (septet_val bs).
Proof. intros H. eapply fits_weaken; [|apply septet_val_bound]. lia. Qed.

Lemma marked_byte bs : Forall marked bs -> Forall byte_ok bs.
Proof. intros H. eapply Forall_impl; [exact H|]. unfold marked, byte_ok, fits. lia. Qed.

(** ** One byte, at the level of the members *)

Lemma decoded_step k a b :
  0 <= k <= 7 -> fits (7 * k) a -> fits 8 b ->
  (((k * 2 ^ 56 + a) <<<[64] 7) .& (cpl[64] IS_COMPLETE_MASK)
     .| ((k + 1) <<<[64] 56) .| (b .& 0x7F))
  = (k + 1) * 2 ^ 56 + (a * 128 + b mod 128).
Proof.
  intros Hk Ha Hb.
  assert (fits 49 a) as Ha' by (eapply fits_weaken; [|done]; lia). unfold fits in Ha'.
  change (cpl[64] IS_COMPLETE_MASK) with (2 ^ 63 - 1).
  change 0x7F with (2 ^ 7 - 1). rewrite !land_low_mask by lia.
  rewrite !Z.shiftl_mul_pow2 by lia.
  rewrite (wrap_small _ ((k + 1) * 2 ^ 56)) by (unfold fits; lia).
  assert (wrap 64 ((k * 2 ^ 56 + a) * 2 ^ 7) mod 2 ^ 63 = a * 2 ^ 7) as ->.
  { unfold wrap. rewrite Z.mod_mod_divide by (exists 2; lia).
    replace ((k * 2 ^ 56 + a) * 2 ^ 7) with (a * 2 ^ 7 + k * 2 ^ 63) by lia.
    rewrite Z.mod_add by lia. apply Z.mod_small. lia. }
  pose proof (Z.mod_pos_bound b (2 ^ 7)).
  rewrite lor_add_fields_r by (unfold fits; lia).
  replace ((k + 1) * 2 ^ 56 + a * 2 ^ 7) with (((k + 1) * 2 ^ 49 + a) * 2 ^ 7) by lia.
  rewrite lor_add_fields by (unfold fits; lia). change (2 ^ 7) with 128. lia.
Qed.

Lemma encoded_step bs b :
  (length bs <= 7)%nat -> Forall byte_ok bs -> fits 8 b ->
  ((le_val bs * 2 ^ (8 * (8 - Z.of_nat (length bs)))) >>> 8 .| (b <<<[64] 56))
  = le_val (bs ++ [b]) * 2 ^ (8 * (8 - Z.of_nat (length (bs ++ [b])))).
Proof.
  intros Hk Hbs Hb. rewrite length_app. simpl length.
  set (k := Z.of_nat (length bs)).
  assert (0 <= k <= 7) as Hk' by lia.
  replace (8 * (8 - k)) with (8 * (7 - k) + 8) by lia.
  rewrite Z.pow_add_r, Z.mul_assoc, Z.shiftr_div_pow2, Z.div_mul by lia.
  rewrite Z.shiftl_mul_pow2, wrap_small by (unfold fits in *; lia).
  pose proof (le_val_bound bs Hbs) as Hv. fold k in Hv. unfold fits in Hv.
  assert (2 ^ 56 = 2 ^ (8 * k) * 2 ^ (8 * (7 - k))) as E56.
  { rewrite <- Z.pow_add_r by lia. f_equal. lia. }
  rewrite lor_add_fields_r; [|lia|].
  2: { unfold fits. pose proof (Z.pow_pos_nonneg 2 (8 * (7 - k))). nia. }
  rewrite le_val_app. fold k. simpl le_val.
  replace (8 * (8 - Z.of_nat (length bs + 1))) with (8 * (7 - k)) by lia.
  rewrite E56. lia.
Qed.

Lemma should_stop_spec b : fits 8 b -> (b .& 0x80 =? 0) = (b <? 128).
Proof.
  intros Hb. unfold fits in Hb. change 0x80 with (2 ^ 7).
  rewrite land_bit_eqb, testbit_div by lia. apply eq_true_iff_eq.
  rewrite negb_true_iff, Z.eqb_neq, Z.ltb_lt.
  destruct (Z.lt_ge_cases b 128).
  - rewrite Z.div_small by lia. done.
  - assert (b / 2 ^ 7 = 1) as -> by (symmetry; apply Z.div_unique with (b - 128); lia).
    split; [done|lia].
Qed.

Lemma exact_shiftr z n : 0 <= n -> (z * 2 ^ n) >>> n = z.
Proof. intros. rewrite Z.shiftr_div_pow2, Z.div_mul; lia. Qed.

(** ** Refinement of the abstract decoder *)

Lemma spec_add_ok d b : spec_ok d -> fits 8 b -> spec_ok (spec_add d b).1.
Proof.
  unfold fits. intros Hd Hb. destruct d as [bs|bs|bs]; simpl; [|done|done].
  destruct Hd as [Hm Hl]. destruct (b <? 128) eqn:E; simpl.
  - apply Z.ltb_lt in E. exists bs, b. split_and!; try done; lia.
  - apply Z.ltb_ge in E. destruct (length bs =? 7)%nat eqn:E7; simpl.
    + by apply Nat.eqb_eq in E7.
    + apply Nat.eqb_neq in E7. rewrite length_app. simpl. split; [|lia].
      apply Forall_app_2; [done|]. constructor; [unfold marked; lia|done].
Qed.

Lemma set_is_fail_pending e k a :
  0 <= k < 16 -> fits 56 a ->
  set_is_fail (mk e (k * 2 ^ 56 + a)) = mk e ((64 + k) * 2 ^ 56 + a).
Proof.
  intros Hk Ha. unfold set_is_fail. simpl. f_equal. change IS_FAIL_MASK with (1 * 2 ^ 62).
  unfold fits in Ha. rewrite lor_add_fields_r; [lia|lia|unfold fits; lia].
Qed.

Lemma set_is_complete_pending e k a :
  0 <= k < 16 -> fits 56 a ->
  set_is_complete (mk e (k * 2 ^ 56 + a)) = mk e ((128 + k) * 2 ^ 56 + a).
Proof.
  intros Hk Ha. unfold set_is_complete. simpl. f_equal.
  change IS_COMPLETE_MASK with (1 * 2 ^ 63).
  unfold fits in Ha. rewrite lor_add_fields_r; [lia|lia|unfold fits; lia].
Qed.

Lemma pending_fits bs : (length bs <= 8)%nat -> fits 56 (septet_val bs).
Proof. intros. apply septet_val_fits. lia. Qed.

Lemma testbit_flag (w n h : Z) : 0 <= w <= n -> fits w h -> Z.testbit (2 ^ n + h) n = true.
Proof.
  intros Hw Hh. assert (fits n h) by (eapply fits_weaken; [|done]; lia).
  replace (2 ^ n + h) with (1 * 2 ^ n + h) by lia.
  rewrite testbit_field, Z.ltb_irrefl, Z.sub_diag by (done || lia). done.
Qed.

Definition spec_complete (d : Spec) : bool := match d with Done _ => true | _ => false end.
Definition spec_fail (d : Spec) : bool := match d with Bad _ => true | _ => false end.

Lemma spec_ok_length d : spec_ok d ->
  match d with
  | Pending bs | Bad bs => (length bs <= 7)%nat
  | Done bs => (1 <= length bs <= 8)%nat
  end.
Proof.
  destruct d; simpl; [tauto| |lia].
  intros (hd & l & -> & _ & H & _). rewrite length_app. simpl. lia.
Qed.

Lemma concrete_complete d : spec_ok d -> is_complete (concrete d) = spec_complete d.
Proof.
  intros Hd. apply spec_ok_length in Hd.
  destruct d as [bs|bs|bs]; unfold concrete; rewrite is_complete_fields by (apply pending_fits; lia).
  - apply (testbit_high 4); unfold fits; lia.
  - apply (testbit_flag 4 7); unfold fits; lia.
  - apply (testbit_high 7); unfold fits; lia.
Qed.

Lemma concrete_fail d : spec_ok d -> fail (concrete d) = spec_fail d.
Proof.
  intros Hd. apply spec_ok_length in Hd.
  destruct d as [bs|bs|bs]; unfold concrete; rewrite fail_fields by (apply pending_fits; lia).
  - apply (testbit_high 4); unfold fits; lia.
  - change 128 with (1 * 2 ^ 7). rewrite testbit_field by (unfold fits; lia).
    apply (testbit_high 4); unfold fits; lia.
  - apply (testbit_flag 4 6); unfold fits; lia.
Qed.

Lemma add_byte_pending bs b :
  Forall marked bs -> (length bs <= 7)%nat -> fits 8 b ->
  add_byte (concrete (Pending bs)) b =
    (concrete (spec_add (Pending bs) b).1, (spec_add (Pending bs) b).2).
Proof.
  intros Hm Hl Hb.
  assert (spec_ok (Pending bs)) as Hok by done.
  assert (fits 56 (septet_val bs)) as Ha by (apply pending_fits; lia).
  assert (Z.of_nat (length bs) + 1 = Z.of_nat (length (bs ++ [b]))) as Hlen
    by (rewrite length_app; simpl; lia).
  unfold add_byte. rewrite concrete_complete, concrete_fail by done. simpl spec_complete.
  unfold concrete at 1. cbn [spec_fail m_decoded_value m_encoded_value concrete].
  rewrite count_fields, Z.mod_small by (done || lia).
  rewrite should_stop_spec by done.
  rewrite decoded_step, encoded_step by
    (done || lia || by apply septet_val_fits || by apply marked_byte).
  rewrite <- septet_val_snoc, Hlen.
  unfold spec_add. destruct (b <? 128); cbn [negb fst snd]; rewrite ?andb_false_r, ?andb_true_r.
  - rewrite set_is_complete_pending by (try apply pending_fits; lia).
    cbn [m_decoded_value m_encoded_value concrete].
    replace (8 - Z.of_nat (length bs) - 1) with (8 - Z.of_nat (length (bs ++ [b]))) by lia.
    by rewrite exact_shiftr by lia.
  - destruct (length bs =? 7)%nat eqn:E7.
    + apply Nat.eqb_eq in E7. rewrite (proj2 (Z.eqb_eq _ 7)) by lia.
      by rewrite set_is_fail_pending by (done || lia).
    + apply Nat.eqb_neq in E7. by rewrite (proj2 (Z.eqb_neq _ 7)) by lia.
Qed.

(** One call of [add_byte] is one step of the abstract decoder. *)
Lemma add_byte_refines d b :
  spec_ok d -> fits 8 b ->
  add_byte (concrete d) b = (concrete (spec_add d b).1, (spec_add d b).2).
Proof.
  intros Hd Hb. destruct d as [bs|bs|bs].
  - by apply add_byte_pending; [apply Hd| apply Hd|].
  - unfold add_byte. by rewrite concrete_complete by done.
  - unfold add_byte. by rewrite concrete_complete, concrete_fail by done.
Qed.

(** ** Observers of the abstract decoder *)

Definition spec_value (d : Spec) : Z :=
  match d with Done bs => septet_val bs | _ => INVALID_VALUE end.

(** Bytes fed one after the other, stopping at the first one not accepted. *)
Fixpoint spec_adds (d : Spec) (bs : list Z) : Spec * Z :=
  match bs with
  | [] => (d, 0)
  | b :: rest =>
      let (d', accepted) := spec_add d b in
      if accepted then let (d'', n) := spec_adds d' rest in (d'', n + 1) else (d', 0)
  end.

Lemma concrete_value d : spec_ok d -> value (concrete d) = spec_value d.
Proof.
  intros Hd. unfold value. rewrite concrete_complete by done.
  apply spec_ok_length in Hd. destruct d; cbn [spec_complete spec_value concrete m_decoded_value]; [done| |done].
  apply value_fields, pending_fits. lia.
Qed.

Lemma add_bytes_loop_refines d bs c :
  spec_ok d -> Forall byte_ok bs ->
  add_bytes_loop (concrete d) bs c = (concrete (spec_adds d bs).1, c + (spec_adds d bs).2) /\
  spec_ok (spec_adds d bs).1 /\ 0 <= (spec_adds d bs).2 <= Z.of_nat (length bs).
Proof.
  intros Hd Hbs. revert d c Hd. induction Hbs as [|b bs Hb _ IH]; intros d c Hd; simpl.
  { rewrite Z.add_0_r. split_and!; done || lia. }
  rewrite add_byte_refines by done. pose proof (spec_add_ok d b Hd Hb) as Hd'.
  destruct (spec_add d b) as [d' [|]] eqn:E; cbn [fst snd] in *.
  - destruct (IH d' (c + 1) Hd') as (Heq & Hok & Hn).
    destruct (spec_adds d' bs) as [d'' n]. cbn [fst snd] in *. rewrite Heq.
    split_and!; [f_equal; lia|done|lia|lia].
  - rewrite Z.add_0_r. split_and!; done || lia.
Qed.

Lemma add_bytes_is_loop s bs : add_bytes s (Some bs) = add_bytes_loop s bs 0.
Proof. by destruct bs. Qed.

Lemma spec_adds_done bs hd l rest :
  Forall marked hd -> (length bs + length hd <= 7)%nat -> 0 <= l < 128 ->
  spec_adds (Pending bs) (hd ++ [l] ++ rest)
    = (Done (bs ++ hd ++ [l]), Z.of_nat (length hd) + 1).
Proof.
  intros Hm. revert bs. induction Hm as [|b hd Hb _ IH]; intros bs Hl Hlast; simpl.
  - rewrite (proj2 (Z.ltb_lt l 128)) by lia. by destruct rest.
  - unfold marked in Hb. rewrite (proj2 (Z.ltb_ge b 128)) by lia. simpl in Hl.
    rewrite (proj2 (Nat.eqb_neq (length bs) 7)) by lia. cbn [fst snd].
    simpl in IH. rewrite (IH (bs ++ [b])) by (rewrite ?length_app; simpl; lia).
    rewrite <- app_assoc. f_equal. lia.
Qed.

(** ** Encoding *)

Lemma mark_snoc ds l : mark (ds ++ [l]) = map (Z.add 128) ds ++ [l].
Proof.
  induction ds as [|d ds IH]; [done|]. simpl.
  destruct (ds ++ [l]) eqn:E; [by destruct ds|]. rewrite <- E in *. rewrite IH. f_equal. lia.
Qed.

Lemma div128_fits n v :
  fits (7 * Z.of_nat (S n)) v -> v / 128 <> 0 -> (0 < n)%nat /\ fits (7 * Z.of_nat n) (v / 128).
Proof.
  unfold fits. rewrite pow128. intros Hv E.
  assert (0 <= v / 128 < 2 ^ (7 * Z.of_nat n)) as Hv'.
  { split; [apply Z.div_pos; lia|]. apply Z.div_lt_upper_bound; lia. }
  split; [|done]. destruct n; [simpl in Hv'|]; lia.
Qed.

(** The digits of a value that fits in [n] septets. *)
Lemma septets_spec n v : (0 < n)%nat -> fits (7 * Z.of_nat n) v ->
  exists ds l, septets n v = ds ++ [l] /\ l = v mod 128 /\
    ds = (if v / 128 =? 0 then [] else septets (n - 1) (v / 128)) /\
    (length ds < n)%nat /\ Forall (fun d => 0 <= d < 128) ds.
Proof.
  revert v. induction n as [|n IH]; intros v Hn Hv; [lia|]. simpl. rewrite Nat.sub_0_r.
  destruct (v / 128 =? 0) eqn:E.
  { exists [], (v mod 128). split_and!; [done..|simpl; lia|done]. }
  apply Z.eqb_neq in E. exists (septets n (v / 128)), (v mod 128).
  destruct (div128_fits n v Hv E) as [Hn' Hv'].
  destruct (IH (v / 128) Hn' Hv') as (ds & l & Heq & -> & _ & Hlen & Hds).
  rewrite Heq. split_and!; [done..|rewrite length_app; simpl; lia|].
  apply Forall_app_2; [done|]. constructor; [|done]. apply Z.mod_pos_bound. lia.
Qed.

Lemma septet_val_septets n v : (0 < n)%nat -> fits (7 * Z.of_nat n) v ->
  septet_val (septets n v) = v /\ septet_val (mark (septets n v)) = v.
Proof.
  intros Hn Hv.
  assert (septet_val (septets n v) = v) as H.
  { revert v Hn Hv. induction n as [|n IH]; intros v Hn Hv; [lia|]. simpl.
    destruct (v / 128 =? 0) eqn:E.
    - apply Z.eqb_eq in E. unfold septet_val. simpl. rewrite Zmod_mod.
      rewrite (Z.div_mod v 128) at 2 by lia. lia.
    - apply Z.eqb_neq in E. rewrite septet_val_snoc, Zmod_mod.
      destruct (div128_fits n v Hv E) as [Hn' Hv']. rewrite IH by done.
      rewrite (Z.div_mod v 128) at 3 by lia. lia. }
  split; [done|]. rewrite <- H at 2.
  destruct (septets_spec n v Hn Hv) as (ds & l & -> & -> & _ & _ & Hds).
  rewrite mark_snoc, !septet_val_snoc. f_equal. f_equal. clear -Hds.
  induction ds as [|d ds IH] using rev_ind; [done|].
  apply Forall_app in Hds as [Hds Hd]. apply Forall_singleton in Hd.
  rewrite map_app. simpl map. rewrite !septet_val_snoc, IH by done. f_equal.
  rewrite Z.add_comm, <- (Z.mul_1_l 128) at 1. by rewrite Z.mod_add by lia.
Qed.

(** The loop puts each further septet, marked, in front of the bytes built so far. *)
Lemma encode_loop_step v cur tail :
  cur <> v -> (length tail <= 7)%nat -> Forall byte_ok tail -> 0 <= cur ->
  ((le_val tail <<<[64] 8) .| ((cur .& 0x7F) .| 0x80)) = le_val ((128 + cur mod 128) :: tail).
Proof.
  intros Hne Hl Ht Hc. change 0x7F with (2 ^ 7 - 1). change 0x80 with (1 * 2 ^ 7).
  rewrite land_low_mask by lia. pose proof (Z.mod_pos_bound cur (2 ^ 7)).
  rewrite (lor_add_fields_r 7 1) by (unfold fits; lia).
  assert (fits 56 (le_val tail)) as Hv.
  { eapply fits_weaken; [|by apply le_val_bound]. lia. }
  unfold fits in Hv. rewrite Z.shiftl_mul_pow2, wrap_small by (unfold fits; lia).
  rewrite lor_add_fields by (unfold fits; lia). cbn [le_val]. change (2 ^ 7) with 128. rewrite Z.mul_1_l. lia.
Qed.

Lemma encode_loop_correct n fuel v cur tail :
  (0 < n <= fuel)%nat -> 0 <= cur < v -> fits (7 * Z.of_nat n) cur ->
  (n + length tail <= 8)%nat -> Forall byte_ok tail ->
  encode_loop fuel v cur (le_val tail)
    = Some (le_val (map (Z.add 128) (septets n cur) ++ tail)).
Proof.
  revert fuel cur tail. induction n as [|n IH]; intros [|fuel] cur tail Hn Hc Hf Hl Ht; try lia.
  cbn [encode_loop]. rewrite (proj2 (Z.eqb_neq cur v)) by lia. cbn [negb].
  rewrite (encode_loop_step v) by (done || lia).
  rewrite Z.shiftr_div_pow2 by lia. change (2 ^ 7) with 128. cbn [septets].
  destruct (cur / 128 =? 0) eqn:E; [done|]. apply Z.eqb_neq in E.
  destruct (div128_fits n cur Hf E) as [Hn' Hf'].
  rewrite IH; [|lia| |done|simpl; lia|].
  - rewrite map_app, <- app_assoc. done.
  - split; [apply Z.div_pos; lia|]. apply Z.le_lt_trans with cur; [apply Z.div_le_upper_bound|]; lia.
  - constructor; [|done]. pose proof (Z.mod_pos_bound cur 128). unfold byte_ok, fits. lia.
Qed.

(** Ten rounds finish the loop for every 64-bit value, whatever the member held. *)
Lemma encode_loop_terminates v cur e n fuel :
  (0 < n <= fuel)%nat -> fits (7 * Z.of_nat n) cur -> is_Some (encode_loop fuel v cur e).
Proof.
  revert fuel cur e. induction n as [|n IH]; intros [|fuel] cur e Hn Hf; try lia.
  cbn [encode_loop]. rewrite Z.shiftr_div_pow2 by lia. change (2 ^ 7) with 128.
  destruct (cur / 128 =? 0) eqn:E; [by eexists|]. apply Z.eqb_neq in E.
  destruct (div128_fits n cur Hf E). by apply IH; [lia|].
Qed.

Lemma needs_loop_spec v :
  fits 64 v -> negb (v .& (cpl[64] 0x7F) =? 0) = negb (v / 128 =? 0).
Proof.
  intros Hv. change (cpl[64] 0x7F) with ((2 ^ 57 - 1) * 2 ^ 7 + 0).
  rewrite (Z.div_mod v (2 ^ 7)) at 1 by lia. rewrite (Z.mul_comm (2 ^ 7)).
  pose proof (Z.mod_pos_bound v (2 ^ 7)).
  rewrite land_fields; [|lia|unfold fits; lia|unfold fits; lia|rewrite Z.land_0_r; unfold fits; lia].
  rewrite land_low_mask, Z.land_0_r, Z.add_0_r by lia.
  rewrite (Z.mod_small _ (2 ^ 57)).
  2: { unfold fits in Hv. split; [apply Z.div_pos; lia|]. apply Z.div_lt_upper_bound; lia. }
  f_equal. change (2 ^ 7) with 128. apply eq_true_iff_eq. rewrite !Z.eqb_eq. lia.
Qed.

Lemma encode_loop_first fuel v :
  v / 128 <> 0 -> encode_loop (S fuel) v v 0 = encode_loop fuel v (v / 128) (v mod 128).
Proof.
  intros E. cbn [encode_loop]. rewrite Z.eqb_refl. cbn [negb].
  rewrite Z.lor_0_l, Z.shiftr_div_pow2 by lia.
  change 0x7F with (2 ^ 7 - 1). rewrite land_low_mask by lia. change (2 ^ 7) with 128.
  by rewrite (proj2 (Z.eqb_neq _ 0)) by done.
Qed.

Lemma max_value_fits v : 0 <= v <= MAX_VALUE -> fits 56 v.
Proof. change MAX_VALUE with (2 ^ 56 - 1). unfold fits. lia. Qed.

Lemma encode_impl_wire v d :
  fits 56 v -> encode_impl (mk 0 d) v = mk (le_val (wire v)) d.
Proof.
  intros Hv. unfold encode_impl.
  rewrite needs_loop_spec by (eapply fits_weaken; [|done]; lia).
  destruct (septets_spec 8 v) as (ds & l & Heq & -> & Hds & Hlen & Hrng); [lia|done|].
  unfold wire. rewrite Heq, mark_snoc.
  destruct (v / 128 =? 0) eqn:E; cbn [negb].
  { subst ds. cbn [map app le_val]. apply Z.eqb_eq in E. f_equal.
    rewrite (Z.div_mod v 128) at 1 by lia. lia. }
  apply Z.eqb_neq in E. subst ds. cbn [m_encoded_value m_decoded_value].
  rewrite encode_loop_first by done.
  destruct (div128_fits 7 v Hv E) as [_ Hf].
  replace (v mod 128) with (le_val [v mod 128]) at 1 by (simpl; lia).
  pose proof (Z.mod_pos_bound v 128). unfold fits in Hv.
  rewrite (encode_loop_correct 7); [done|lia| |done|simpl; lia|].
  - split; [apply Z.div_pos; lia|]. apply Z.div_lt; [|lia].
    assert (v <> 0) by (intros ->; done). lia.
  - constructor; [unfold byte_ok, fits; lia|done].
Qed.

Lemma wire_ok v : fits 56 v -> spec_ok (Done (wire v)) /\ septet_val (wire v) = v.
Proof.
  intros Hv. split; [|by apply septet_val_septets; [lia|]].
  destruct (septets_spec 8 v) as (ds & l & Heq & -> & _ & Hlen & Hrng); [lia|done|].
  unfold wire. rewrite Heq, mark_snoc. exists (map (Z.add 128) ds), (v mod 128).
  split_and!; [done| |rewrite length_map; lia|apply Z.mod_pos_bound; lia..].
  apply Forall_map. eapply Forall_impl; [exact Hrng|]. unfold marked. lia.
Qed.

(** ** The marker bits tell the number of bytes *)

Lemma land_marker b : 0 <= b < 256 -> Z.land 128 b = if b <? 128 then 0 else 128.
Proof.
  intros Hb.
  assert (Forall (fun b => Z.land 128 b = if b <? 128 then 0 else 128) (seqZ 0 256)) as H.
  { refine (bool_decide_unpack _ _). vm_compute. exact I. }
  rewrite Forall_forall in H. apply H, elem_of_seqZ. lia.
Qed.

Lemma marker_bits hd l :
  Forall marked hd -> (length hd <= 7)%nat -> 0 <= l < 128 ->
  0x8080808080808080 .& le_val (hd ++ [l]) = le_val (replicate (length hd) 128).
Proof.
  intros Hm Hl Hlast. change 0x8080808080808080 with (le_val (replicate 8 128)).
  rewrite <- (le_val_pad (hd ++ [l]) (7 - length hd)).
  assert (length ((hd ++ [l]) ++ replicate (7 - length hd) 0) = 8%nat) as Hlen.
  { rewrite !length_app, length_replicate. simpl. lia. }
  rewrite land_le_val; [|apply Forall_replicate; unfold byte_ok, fits; lia| |].
  3: { by rewrite length_replicate. }
  2: { repeat apply Forall_app_2; [by apply marked_byte| |].
       - constructor; [unfold byte_ok, fits; lia|done].
       - apply Forall_replicate. unfold byte_ok, fits; lia. }
  rewrite <- Hlen, zip_with_replicate_l by done.
  rewrite !fmap_app, fmap_replicate. simpl fmap.
  rewrite land_marker by lia. rewrite (proj2 (Z.ltb_lt l 128)) by lia.
  change (Z.land 128 0) with 0. rewrite le_val_pad.
  change [0] with (replicate 1 0). rewrite le_val_pad. f_equal. clear -Hm.
  induction Hm as [|b hd Hb _ IH]; [done|]. cbn [fmap list_fmap length replicate].
  unfold marked in Hb. rewrite land_marker, (proj2 (Z.ltb_ge b 128)) by lia. by f_equal.
Qed.

Lemma bytes_count_done e hd l d :
  e = le_val (hd ++ [l]) -> Forall marked hd -> (length hd <= 7)%nat -> 0 <= l < 128 ->
  is_complete (mk e d) = true -> bytes_count (mk e d) = Z.of_nat (length hd) + 1.
Proof.
  intros -> Hm Hl Hlast Hc. unfold bytes_count. cbn [m_encoded_value].
  rewrite marker_bits, Hc by done. clear -Hl.
  do 8 (destruct hd as [|? hd]; [reflexivity|]). simpl in Hl. lia.
Qed.

(** ** The constructors for encoding *)

Lemma of_unsigned_members v :
  0 <= v <= MAX_VALUE -> of_unsigned v = mk (le_val (wire v)) (128 * 2 ^ 56 + v).
Proof.
  intros Hv. pose proof (max_value_fits v Hv) as Hf.
  unfold of_unsigned. rewrite (proj2 (Z.leb_le v MAX_VALUE)) by lia.
  change IS_COMPLETE_MASK with (128 * 2 ^ 56).
  by rewrite lor_add_fields_r, encode_impl_wire by (done || lia).
Qed.

Lemma of_unsigned_complete v : 0 <= v <= MAX_VALUE -> is_complete (of_unsigned v) = true.
Proof.
  intros Hv. by rewrite of_unsigned_members, is_complete_fields by auto using max_value_fits.
Qed.

Lemma of_unsigned_count v :
  0 <= v <= MAX_VALUE -> bytes_count (of_unsigned v) = Z.of_nat (length (wire v)).
Proof.
  intros Hv. destruct (wire_ok v (max_value_fits v Hv)) as [(hd & l & Hw & Hm & Hl & Hlast) _].
  pose proof (of_unsigned_complete v Hv) as Hc. rewrite of_unsigned_members in * by done.
  rewrite (bytes_count_done _ hd l) by (rewrite ?Hw; done).
  rewrite Hw, length_app. simpl. lia.
Qed.

Lemma wire_bytes v : fits 56 v -> Forall byte_ok (wire v) /\ (1 <= length (wire v) <= 8)%nat.
Proof.
  intros Hv. destruct (wire_ok v Hv) as [(hd & l & -> & Hm & Hl & Hlast) _]. split.
  - apply Forall_app_2; [by apply marked_byte|]. constructor; [unfold byte_ok, fits; lia|done].
  - rewrite length_app. simpl. lia.
Qed.

(** The bytes handed to the transport. *)
Lemma of_unsigned_sent v :
  0 <= v <= MAX_VALUE ->
  take (Z.to_nat (bytes_count (of_unsigned v))) (bytes (of_unsigned v)) = wire v.
Proof.
  intros Hv. rewrite of_unsigned_count, of_unsigned_members, Nat2Z.id by done.
  destruct (wire_bytes v (max_value_fits v Hv)) as [Hb Hl].
  unfold bytes. cbn [m_encoded_value]. rewrite take_le_split by lia. by apply le_split_le_val.
Qed.

(** A fresh decoder reading a size followed by anything. *)
Lemma add_bytes_wire v rest :
  fits 56 v -> Forall byte_ok rest ->
  add_bytes empty (Some (wire v ++ rest)) = (concrete (Done (wire v)), Z.of_nat (length (wire v))).
Proof.
  intros Hv Hr. destruct (wire_ok v Hv) as [Hok _], (wire_bytes v Hv) as [Hb _].
  change empty with (concrete (Pending [])). rewrite add_bytes_is_loop.
  destruct (add_bytes_loop_refines (Pending []) (wire v ++ rest) 0) as (-> & _ & _);
    [split; [constructor|simpl; lia]|by apply Forall_app_2|].
  pose proof Hok as (hd & l & Hw & Hm & Hl & Hlast).
  rewrite Hw, <- app_assoc, (spec_adds_done [] hd l rest Hm) by (simpl; lia).
  cbn [fst snd app]. f_equal. rewrite length_app. simpl. lia.
Qed.

(** ** Properties *)

(** Encoding.  For every size up to [MAX_VALUE] (2^56 - 1) the object is complete,
    holds the value, and exposes as its first [bytes_count()] bytes the documented wire
    format: base-128 digits, most significant first, marker bit on all but the last;
    the signed constructors agree with the unsigned ones. *)
Theorem of_unsigned_correct v :
  0 <= v <= MAX_VALUE ->
  is_complete (of_unsigned v) = true /\ fail (of_unsigned v) = false /\
  value (of_unsigned v) = v /\
  take (Z.to_nat (bytes_count (of_unsigned v))) (bytes (of_unsigned v)) = wire v /\
  bytes_count (of_unsigned v) = Z.of_nat (length (wire v)) /\
  1 <= bytes_count (of_unsigned v) <= 8 /\
  of_signed v = of_unsigned v.
Proof.
  intros Hv. pose proof (max_value_fits v Hv) as Hf.
  pose proof (of_unsigned_complete v Hv) as Hc. pose proof (wire_bytes v Hf) as [_ Hl].
  pose proof (of_unsigned_count v Hv) as Hn.
  split_and!; [done| | |by apply of_unsigned_sent|done|lia|lia|].
  - by rewrite of_unsigned_members, fail_fields by done.
  - unfold value. rewrite Hc, of_unsigned_members by done. by apply value_fields.
  - unfold of_signed, of_unsigned. by rewrite (proj2 (Z.leb_le 0 v)) by lia.
Qed.

Lemma of_unsigned_correct_witness :
  value (of_unsigned 300) = 300 /\ bytes_count (of_unsigned 300) = Z.of_nat (length (wire 300)) /\
  wire 300 = [130; 44].
Proof.
  destruct (of_unsigned_correct 300) as (_ & _ & Hv & _ & Hn & _); [vm_compute; split; discriminate|].
  split_and!; [exact Hv|exact Hn|reflexivity].
Defined.

(** Values that do not fit (above [MAX_VALUE], or negative through a signed
    constructor) are refused: no bytes to send, and the value reads as invalid. *)
Theorem out_of_range_refused v :
  v < 0 \/ MAX_VALUE < v ->
  of_signed v = empty /\ (MAX_VALUE < v -> of_unsigned v = empty) /\
  is_complete empty = false /\ fail empty = false /\
  value empty = INVALID_VALUE /\ bytes_count empty = 0.
Proof.
  intros Hv. split_and!; try done.
  - unfold of_signed. destruct Hv as [Hv|Hv].
    + by rewrite (proj2 (Z.leb_gt 0 v)) by lia.
    + by rewrite (proj2 (Z.leb_gt v MAX_VALUE)), andb_false_r by lia.
  - intros H. unfold of_unsigned. by rewrite (proj2 (Z.leb_gt v MAX_VALUE)) by lia.
Qed.

Lemma out_of_range_refused_witness :
  of_signed (-1) = empty /\ of_unsigned (2 ^ 56) = empty.
Proof.
  split.
  - apply (out_of_range_refused (-1)). left. lia.
  - apply (out_of_range_refused (2 ^ 56)); [right|]; vm_compute; reflexivity.
Defined.

(** Decoding refines the abstract decoder.  From any state the decoder can be in,
    feeding any bytes yields the members that represent the abstract decoder's state, the
    number of bytes processed is the abstract one, and [is_complete], [fail] and [value]
    read off the abstract state; in particular [fail] is raised exactly by an eighth byte
    that still carries the marker bit, and such a byte is not consumed. *)
Theorem add_bytes_refines d bs :
  spec_ok d -> Forall byte_ok bs ->
  add_bytes (concrete d) (Some bs) = (concrete (spec_adds d bs).1, (spec_adds d bs).2) /\
  spec_ok (spec_adds d bs).1 /\
  0 <= (spec_adds d bs).2 <= Z.of_nat (length bs) /\
  is_complete (concrete (spec_adds d bs).1) = spec_complete (spec_adds d bs).1 /\
  fail (concrete (spec_adds d bs).1) = spec_fail (spec_adds d bs).1 /\
  value (concrete (spec_adds d bs).1) = spec_value (spec_adds d bs).1.
Proof.
  intros Hd Hbs. destruct (add_bytes_loop_refines d bs 0 Hd Hbs) as (Heq & Hok & Hn).
  rewrite add_bytes_is_loop. split_and!; try done || lia.
  - by apply concrete_complete.
  - by apply concrete_fail.
  - by apply concrete_value.
Qed.

Lemma add_bytes_refines_witness :
  add_bytes empty (Some [129; 128; 128; 128; 128; 128; 128; 255])
    = (concrete (Bad [129; 128; 128; 128; 128; 128; 128]), 7).
Proof.
  change empty with (concrete (Pending [])).
  refine (proj1 (add_bytes_refines (Pending []) [129; 128; 128; 128; 128; 128; 128; 255] _ _)).
  - split; [constructor|simpl; lia].
  - repeat constructor; lia.
Defined.

(** C3. Round trip.  Feeding a fresh decoder the bytes of an encoded size, with whatever
    follows them in the stream, consumes exactly those bytes and decodes the size. *)
Theorem decode_encode v rest :
  0 <= v <= MAX_VALUE -> Forall byte_ok rest ->
  let sent := take (Z.to_nat (bytes_count (of_unsigned v))) (bytes (of_unsigned v)) in
  let r := add_bytes empty (Some (sent ++ rest)) in
  r.2 = bytes_count (of_unsigned v) /\ is_complete r.1 = true /\ value r.1 = v.
Proof.
  intros Hv Hr. pose proof (max_value_fits v Hv) as Hf. destruct (wire_ok v Hf) as [Hok Hval].
  cbn zeta. rewrite of_unsigned_sent, add_bytes_wire, of_unsigned_count by done.
  cbn [fst snd]. by rewrite concrete_complete, concrete_value by done.
Qed.

Lemma decode_encode_witness :
  let r := add_bytes empty (Some ([255; 127] ++ [1; 2; 3])) in
  r.2 = 2 /\ is_complete r.1 = true /\ value r.1 = 16383.
Proof.
  refine (decode_encode 16383 [1; 2; 3] _ _); [vm_compute; split; discriminate|].
  repeat constructor; lia.
Defined.

End VariableLengthSize.
