(* ===== verification/MessageFraming.v ===== *)
(** * Message-oriented clients over a byte stream

    [source/io/net/GenericMessageOrientedClientBase.h] (with
    [GenericMessageOrientedClient.h] and [GenericMessageOrientedConnectedClient.h], whose
    [send_data] overloads only forward): every message is sent as its
    [VariableLengthSize] followed by its bytes, and the receiver rebuilds the messages
    from chunks of arbitrary boundaries.

    The transport ([ClientType]) is abstract: what the sender hands to it and what its
    read callback delivers are lists of bytes.  Callbacks are the events [Received] (the
    user's receive callback, with the contents of the buffer at that moment) and
    [EndSend].  The automaton [spec_byte] reads one byte at a time; [on_data_receive]
    refines it, which makes the result independent of the chunk boundaries. *)

From S2P Require Import Prelude StatusCode VariableLengthSize.
Import VariableLengthSize.
Local Open Scope outcome_scope.

Module Framing.

(** ** State *)

Record t := mk {
  m_max_message_size : Z;
  m_current_message_offset : Z;
  m_current_message_size : VariableLengthSize.t;
  m_buffer : list Z
}.

(** [receive_callback(parent, {buf, size}, error)]. *)
Inductive ReceiveEvent := Received (buf : option (list Z)) (size : Z) (error : StatusCode).

Definition DEFAULT_MAX_SIZE : Z := 2 * 1024 * 1024.

(** Constructor: [contents] is what the fresh allocation happens to hold. *)
Definition create (max_message_size : Z) (contents : list Z) : t :=
  mk max_message_size 0 VariableLengthSize.empty contents.

Definition current_message_too_large (s : t) : bool :=
  is_complete (m_current_message_size s) &&
  (m_max_message_size s <? value (m_current_message_size s)).

Definition set_size (s : t) (v : VariableLengthSize.t) : t :=
  mk (m_max_message_size s) (m_current_message_offset s) v (m_buffer s).
Definition set_offset (s : t) (o : Z) : t :=
  mk (m_max_message_size s) o (m_current_message_size s) (m_buffer s).
Definition set_buffer (s : t) (b : list Z) : t :=
  mk (m_max_message_size s) (m_current_message_offset s) (m_current_message_size s) b.

(** ** Receiving *)

Section Receive.
(** Whether the user passed a receive callback, and the chunk being processed. *)
Variable receive_callback : bool.
Variable data : list Z.

Definition emit (e : ReceiveEvent) : list ReceiveEvent := if receive_callback then [e] else [].

(** First half of an iteration: the size bytes. *)
Definition receive_size (s : t) (bytes_left : Z) : outcome (t * Z * list ReceiveEvent) :=
  let bytes_processed := Z.of_nat (length data) - bytes_left in
  let (v, size_bytes) :=
    add_bytes (m_current_message_size s) (Some (drop (Z.to_nat bytes_processed) data)) in
  check size_bytes <=? bytes_left else AssertFailed in
  let s := set_size s v in
  Ret (s, bytes_left - size_bytes,
   (if current_message_too_large s then emit (Received None (value v) MESSAGE_TOO_LONG) else []) ++
   (if fail v then emit (Received None 0 PROTOCOL_ERROR) else [])).

(** Second half: the payload. *)
Definition receive_payload (s : t) (bytes_left : Z) : outcome (t * Z * list ReceiveEvent) :=
  let bytes_processed := Z.of_nat (length data) - bytes_left in
  let v := value (m_current_message_size s) in
  let missing := wrap 64 (v - m_current_message_offset s) in
  let size_to_copy := if missing <? bytes_left then missing else bytes_left in
  let* s :=
    if current_message_too_large s then Ret s
    else let* b := memcpy (m_buffer s) (m_current_message_offset s)
                     (take (Z.to_nat size_to_copy) (drop (Z.to_nat bytes_processed) data)) in
         Ret (set_buffer s b) in
  let s := set_offset s (wrap 64 (m_current_message_offset s + size_to_copy)) in
  let bytes_left := bytes_left - size_to_copy in
  if m_current_message_offset s =? v
  then Ret (set_offset (set_size s (reset (m_current_message_size s))) 0, bytes_left,
            if current_message_too_large s then []
            else emit (Received (Some (take (Z.to_nat v) (m_buffer s))) v OK))
  else Ret (s, bytes_left, []).

(** [while (bytes_left)]. *)
Fixpoint receive_loop (fuel : nat) (s : t) (bytes_left : Z) : outcome (t * list ReceiveEvent) :=
  match fuel with
  | O => Fault FuelExhausted
  | S fuel =>
      if bytes_left =? 0 then Ret (s, [])
      else
        let* (s, bytes_left, evs1) :=
          if is_complete (m_current_message_size s) then Ret (s, bytes_left, [])
          else receive_size s bytes_left in
        if bytes_left =? 0 then Ret (s, evs1)
        else
          let* (s, bytes_left, evs2) := receive_payload s bytes_left in
          let* (s, evs3) := receive_loop fuel s bytes_left in
          Ret (s, evs1 ++ evs2 ++ evs3)
  end.

(** [on_data_receive(receive_callback, data, error)]. *)
Definition on_data_receive (s : t) (error : Error) : outcome (t * list ReceiveEvent) :=
  if error_bool error
  then Ret (s, emit (Received None 0 (code error)))
  else receive_loop (S (2 * length data)) s (Z.of_nat (length data)).
End Receive.

(** Successive read callbacks of the transport. *)
Fixpoint receive_chunks (cb : bool) (s : t) (chunks : list (list Z)) : outcome (t * list ReceiveEvent) :=
  match chunks with
  | [] => Ret (s, [])
  | c :: rest =>
      let* (s, evs) := on_data_receive cb c s (Error_of_status OK) in
      let* (s, evs') := receive_chunks cb s rest in
      Ret (s, evs ++ evs')
  end.

(** ** Sending *)

(** What [send_data] does: bytes handed to the transport, or the end-send callback called
    on the spot with an error. *)
Inductive SendEffect := Transport (bytes : list Z) | EndSend (error : StatusCode).

Definition do_send_size (s : t) (callback : bool) (size : Z) : list SendEffect * bool :=
  if size =? 0 then (if callback then [EndSend INVALID_ARGUMENT] else [], false)
  else if m_max_message_size s <? size
  then (if callback then [EndSend MESSAGE_TOO_LONG] else [], false)
  else let vs := of_unsigned size in
       ([Transport (take (Z.to_nat (bytes_count vs)) (bytes vs))], true).

Definition send_data (s : t) (callback : bool) (message : list Z) : list SendEffect :=
  let (effects, resume) := do_send_size s callback (Z.of_nat (length message)) in
  if resume then effects ++ [Transport message] else effects.

(** The bytes the transport sends for a sequence of [send_data] calls. *)
Definition transported (effects : list SendEffect) : list Z :=
  flat_map (fun e => match e with Transport bs => bs | EndSend _ => [] end) effects.

Definition send_all (s : t) (callback : bool) (messages : list (list Z)) : list Z :=
  flat_map (fun m => transported (send_data s callback m)) messages.

(** ** The byte automaton *)

Inductive RState :=
| Header (bs : list Z)             (* size bytes so far *)
| Body (size : Z) (got : list Z)   (* size known, payload so far *)
| Dead.                            (* protocol error *)

Section Automaton.
Variable max : Z.

Definition header_byte (bs : list Z) (b : Z) : RState * list ReceiveEvent :=
  match (spec_add (Pending bs) b).1 with
  | Pending bs' => (Header bs', [])
  | Done bs' =>
      let v := septet_val bs' in
      (Body v [], if max <? v then [Received None v MESSAGE_TOO_LONG] else [])
  | Bad _ => (Dead, [Received None 0 PROTOCOL_ERROR])
  end.

Definition deliver (size : Z) (got : list Z) : list ReceiveEvent :=
  if max <? size then [] else [Received (Some got) size OK].

Definition spec_byte (a : RState) (b : Z) : RState * list ReceiveEvent :=
  match a with
  | Header bs => header_byte bs b
  | Body v got =>
      if Z.of_nat (length got) =? v
      then let (a', evs) := header_byte [] b in (a', deliver v got ++ evs)
      else if Z.of_nat (length (got ++ [b])) =? v
      then (Header [], deliver v (got ++ [b]))
      else (Body v (got ++ [b]), [])
  | Dead => (Dead, [])
  end.

Fixpoint spec_bytes (a : RState) (bs : list Z) : RState * list ReceiveEvent :=
  match bs with
  | [] => (a, [])
  | b :: rest =>
      let (a', evs) := spec_byte a b in
      let (a'', evs') := spec_bytes a' rest in
      (a'', evs ++ evs')
  end.
End Automaton.

(** ** Folding the automaton over whole fields *)

Lemma spec_bytes_dead max bs : spec_bytes max Dead bs = (Dead, []).
Proof. induction bs as [|b bs IH]; [done|]. simpl. by rewrite IH. Qed.

Lemma spec_bytes_app max a xs ys :
  spec_bytes max a (xs ++ ys) =
    ((spec_bytes max (spec_bytes max a xs).1 ys).1,
     (spec_bytes max a xs).2 ++ (spec_bytes max (spec_bytes max a xs).1 ys).2).
Proof.
  revert a. induction xs as [|x xs IH]; intros a; simpl; [by destruct (spec_bytes max a ys)|].
  destruct (spec_byte max a x) as [a' evs]. rewrite IH.
  destruct (spec_bytes max a' xs) as [a'' evs']. simpl. by rewrite app_assoc.
Qed.

Definition too_long (max v : Z) : list ReceiveEvent :=
  if max <? v then [Received None v MESSAGE_TOO_LONG] else [].

(** The size bytes: the automaton follows the abstract size decoder. *)
Lemma header_fold max inp bs :
  spec_ok (Pending bs) -> Forall byte_ok inp ->
  match spec_adds (Pending bs) inp with
  | (Pending bs', n) => n = Z.of_nat (length inp) /\ spec_bytes max (Header bs) inp = (Header bs', [])
  | (Done bs', n) =>
      1 <= n <= Z.of_nat (length inp) /\
      spec_bytes max (Header bs) inp =
        ((spec_bytes max (Body (septet_val bs') []) (drop (Z.to_nat n) inp)).1,
         too_long max (septet_val bs') ++
         (spec_bytes max (Body (septet_val bs') []) (drop (Z.to_nat n) inp)).2)
  | (Bad _, _) => (spec_bytes max (Header bs) inp).1 = Dead
  end.
Proof.
  intros Hok Hinp. revert bs Hok. induction Hinp as [|b inp Hb _ IH]; intros bs Hok; [done|].
  cbn [spec_adds spec_bytes spec_byte]. unfold header_byte.
  pose proof (spec_add_ok _ b Hok Hb) as Hok'.
  unfold spec_add in *. destruct (b <? 128).
  { cbn [fst snd] in *.
    assert (spec_adds (Done (bs ++ [b])) inp = (Done (bs ++ [b]), 0)) as -> by (by destruct inp).
    split; [simpl; lia|]. change (Z.to_nat (0 + 1)) with 1%nat. cbn [drop].
    rewrite drop_0. unfold too_long. by destruct (spec_bytes max (Body (septet_val (bs ++ [b])) []) inp). }
  destruct (length bs =? 7)%nat; cbn [fst snd] in *; [by rewrite spec_bytes_dead|].
  specialize (IH _ Hok'). destruct (spec_adds (Pending (bs ++ [b])) inp) as [[bs'|bs'|bs'] n].
  - destruct IH as [-> ->]. split; [simpl; lia|done].
  - destruct IH as [Hn ->]. split; [simpl; lia|].
    replace (Z.to_nat (n + 1)) with (S (Z.to_nat n)) by lia. done.
  - by destruct (spec_bytes max (Header (bs ++ [b])) inp).
Qed.

(** The payload: up to the end of the message or of the input. *)
Lemma body_fold max inp v got c :
  Z.of_nat (length got) <= v -> (inp = [] -> Z.of_nat (length got) < v) ->
  c = Z.min (v - Z.of_nat (length got)) (Z.of_nat (length inp)) ->
  if Z.of_nat (length got) + c =? v
  then spec_bytes max (Body v got) inp =
         ((spec_bytes max (Header []) (drop (Z.to_nat c) inp)).1,
          deliver max v (got ++ take (Z.to_nat c) inp) ++
          (spec_bytes max (Header []) (drop (Z.to_nat c) inp)).2)
  else c = Z.of_nat (length inp) /\ spec_bytes max (Body v got) inp = (Body v (got ++ inp), []).
Proof.
  revert got c. induction inp as [|b inp IH]; intros got c Hle Hne ->.
  { specialize (Hne eq_refl). simpl length. rewrite (proj2 (Z.eqb_neq _ v)) by lia.
    split; [lia|]. by rewrite app_nil_r. }
  cbn [spec_bytes spec_byte]. destruct (Z.of_nat (length got) =? v) eqn:E.
  { apply Z.eqb_eq in E. rewrite Z.min_l, (proj2 (Z.eqb_eq _ v)) by lia.
    replace (v - Z.of_nat (length got)) with 0 by lia. change (Z.to_nat 0) with 0%nat.
    rewrite drop_0, take_0, app_nil_r. cbn [spec_bytes spec_byte].
    destruct (header_byte max [] b) as [a' evs], (spec_bytes max a' inp). cbn [fst snd].
    by rewrite app_assoc. }
  apply Z.eqb_neq in E. rewrite length_app. cbn [length].
  destruct (Z.of_nat (length got + 1) =? v) eqn:E1.
  { apply Z.eqb_eq in E1. rewrite Z.min_l, (proj2 (Z.eqb_eq _ v)) by lia.
    replace (v - Z.of_nat (length got)) with 1 by lia. change (Z.to_nat 1) with 1%nat.
    cbn [drop take]. rewrite drop_0, take_0. by destruct (spec_bytes max (Header []) inp). }
  apply Z.eqb_neq in E1.
  specialize (IH (got ++ [b])). rewrite length_app in IH. cbn [length] in IH.
  specialize (IH _ ltac:(lia) ltac:(lia) eq_refl).
  set (c' := Z.min (v - Z.of_nat (length got + 1)) (Z.of_nat (length inp))) in *.
  replace (Z.min _ _) with (c' + 1) by lia.
  replace (Z.of_nat (length got) + (c' + 1)) with (Z.of_nat (length got + 1) + c') by lia.
  destruct (_ =? v).
  - rewrite IH. replace (Z.to_nat (c' + 1)) with (S (Z.to_nat c')) by lia.
    cbn [drop take fst snd app]. by rewrite <- app_assoc.
  - destruct IH as [Hc ->]. rewrite <- app_assoc. split; [lia|done].
Qed.

(** ** Refinement of the automaton by the chunk loop *)

Definition rel (max : Z) (a : RState) (s : t) : Prop :=
  m_max_message_size s = max /\ Z.of_nat (length (m_buffer s)) = max /\
  match a with
  | Header bs =>
      spec_ok (Pending bs) /\ m_current_message_size s = concrete (Pending bs) /\
      m_current_message_offset s = 0
  | Body v got => exists bs,
      spec_ok (Done bs) /\ septet_val bs = v /\ m_current_message_size s = concrete (Done bs) /\
      m_current_message_offset s = Z.of_nat (length got) /\ Z.of_nat (length got) <= v /\
      (v <= max -> take (length got) (m_buffer s) = got)
  | Dead => exists bs,
      spec_ok (Bad bs) /\ m_current_message_size s = concrete (Bad bs) /\
      0 <= m_current_message_offset s
  end.

Lemma rel_create max contents :
  Z.of_nat (length contents) = max -> rel max (Header []) (create max contents).
Proof. intros H. repeat split; try done; simpl; lia. Qed.

Section Loop.
Context (cb : bool) (data : list Z) (max : Z).

Definition emits (evs : list ReceiveEvent) : list ReceiveEvent := if cb then evs else [].

Lemma emits_app xs ys : emits (xs ++ ys) = emits xs ++ emits ys.
Proof. unfold emits. by destruct cb. Qed.

Lemma suffix_of_data pre inp :
  data = pre ++ inp ->
  drop (Z.to_nat (Z.of_nat (length data) - Z.of_nat (length inp))) data = inp.
Proof.
  intros ->. rewrite length_app.
  replace (Z.to_nat _) with (length pre) by lia. by rewrite drop_app_length.
Qed.

Lemma body_too_large v got s :
  rel max (Body v got) s -> current_message_too_large s = (max <? v) /\ value (m_current_message_size s) = v.
Proof.
  intros (Hm & _ & bs & Hok & Hv & Hs & _). unfold current_message_too_large.
  rewrite Hs, concrete_complete, concrete_value, Hm by done. simpl. by rewrite Hv.
Qed.

Lemma body_size_bound v got s : rel max (Body v got) s -> 0 <= v < 2 ^ 56.
Proof.
  intros (_ & _ & bs & Hok & Hv & _). apply spec_ok_length in Hok.
  pose proof (pending_fits bs) as H. rewrite Hv in H. apply H. lia.
Qed.

(** The size half of an iteration, when the size is still incomplete. *)
Lemma receive_size_refines pre inp bs s :
  data = pre ++ inp -> Forall byte_ok inp -> rel max (Header bs) s ->
  (spec_bytes max (Header bs) inp).1 <> Dead ->
  exists s' n evs, receive_size cb data s (Z.of_nat (length inp)) = Ret (s', Z.of_nat (length inp) - n, emits evs) /\
    ((n = Z.of_nat (length inp) /\ evs = [] /\
      exists bs', spec_bytes max (Header bs) inp = (Header bs', []) /\ rel max (Header bs') s')
     \/
     (1 <= n <= Z.of_nat (length inp) /\ exists v, rel max (Body v []) s' /\
      spec_bytes max (Header bs) inp =
        ((spec_bytes max (Body v []) (drop (Z.to_nat n) inp)).1,
         evs ++ (spec_bytes max (Body v []) (drop (Z.to_nat n) inp)).2))).
Proof.
  intros Hd Hb (Hm & Hbuf & Hok & Hs & Ho) Hnd. unfold receive_size.
  rewrite (suffix_of_data pre) by done. rewrite Hs, add_bytes_is_loop.
  destruct (add_bytes_loop_refines (Pending bs) inp 0 Hok Hb) as (-> & Hok' & Hn).
  pose proof (header_fold max inp bs Hok Hb) as Hfold.
  destruct (spec_adds (Pending bs) inp) as [d n]. cbn [fst snd] in *. rewrite Z.add_0_l.
  rewrite (proj2 (Z.leb_le n _)) by lia.
  unfold current_message_too_large. cbn [m_current_message_size set_size m_max_message_size].
  rewrite concrete_complete, concrete_fail, concrete_value, Hm by done.
  destruct d as [bs'|bs'|bs']; cbn [spec_complete spec_fail spec_value andb].
  - destruct Hfold as [-> Hf]. eexists _, _, []. split.
    { unfold emits. by destruct cb. }
    left. split_and!; [done..|]. exists bs'. by split.
  - destruct Hfold as [Hn' Hf]. eexists _, n, (too_long max (septet_val bs')). split.
    { unfold emits, too_long, emit. rewrite app_nil_r. by destruct cb, (max <? _). }
    right. split; [done|]. exists (septet_val bs'). split; [|done].
    split_and!; [done..|]. exists bs'. split_and!; try done.
    simpl. pose proof (spec_ok_length _ Hok'). apply (pending_fits bs'). simpl in *. lia.
  - by rewrite Hfold in Hnd.
Qed.

(** The payload half of an iteration. *)
Lemma receive_payload_refines pre inp v got s c :
  data = pre ++ inp -> inp <> [] -> rel max (Body v got) s ->
  c = Z.min (v - Z.of_nat (length got)) (Z.of_nat (length inp)) ->
  exists s', if Z.of_nat (length got) + c =? v
    then receive_payload cb data s (Z.of_nat (length inp)) =
           Ret (s', Z.of_nat (length inp) - c, emits (deliver max v (got ++ take (Z.to_nat c) inp))) /\
         rel max (Header []) s'
    else receive_payload cb data s (Z.of_nat (length inp)) = Ret (s', Z.of_nat (length inp) - c, []) /\
         rel max (Body v (got ++ take (Z.to_nat c) inp)) s'.
Proof.
  intros Hd Hne Hrel Hc. pose proof (body_size_bound _ _ _ Hrel) as Hv.
  pose proof (body_too_large _ _ _ Hrel) as [Htl Hval].
  destruct Hrel as (Hm & Hbuf & bs & Hok & Hvs & Hs & Ho & Hle & Hgot).
  unfold receive_payload. rewrite (suffix_of_data pre), Hval, Htl, Ho by done.
  rewrite wrap_small by (unfold fits; lia).
  replace (if _ <? _ then _ else _) with c by (destruct (Z.ltb_spec (v - Z.of_nat (length got)) (Z.of_nat (length inp))); lia).
  assert (length (take (Z.to_nat c) inp) = Z.to_nat c) as Hlt by (rewrite length_take; lia).
  assert (exists buf', (if max <? v then Ret s
            else let* b := memcpy (m_buffer s) (Z.of_nat (length got)) (take (Z.to_nat c) inp) in Ret (set_buffer s b))
            = Ret (set_buffer s buf') /\ length buf' = length (m_buffer s) /\
            (v <= max -> take (length got + Z.to_nat c) buf' = got ++ take (Z.to_nat c) inp)) as (buf' & -> & Hlb & Htk).
  { destruct (max <? v) eqn:E.
    - exists (m_buffer s). apply Z.ltb_lt in E. destruct s. split_and!; done || lia.
    - apply Z.ltb_ge in E.
      destruct (memcpy_ret (m_buffer s) (Z.of_nat (length got)) (take (Z.to_nat c) inp)) as (b' & -> & Hl & Ht); [lia|lia|].
      exists b'. split_and!; [done..|]. rewrite Nat2Z.id, Hlt, (Hgot E) in Ht. done. }
  cbn [obind m_current_message_offset set_buffer set_offset m_current_message_size].
  rewrite Ho, wrap_small by (unfold fits; lia).
  unfold current_message_too_large in *. cbn [m_current_message_size m_max_message_size set_offset set_buffer m_buffer] in *.
  rewrite Htl. destruct (Z.of_nat (length got) + c =? v) eqn:E.
  - apply Z.eqb_eq in E. eexists. split; [f_equal; f_equal|].
    + unfold deliver, emits, emit. destruct (Z.ltb_spec max v) as [Hmv|Hmv]; [by destruct cb|].
      rewrite <- Htk by lia. replace (Z.to_nat v) with (length got + Z.to_nat c)%nat by lia. done.
    + split; [done|]. split; [simpl; lia|]. repeat split; try done. simpl; lia.
  - apply Z.eqb_neq in E. eexists. split; [done|].
    split; [done|]. split; [simpl; lia|].
    exists bs. rewrite length_app, Hlt. split_and!; cbn [m_current_message_size m_current_message_offset set_offset set_buffer m_buffer];
      done || lia.
Qed.

Definition in_body (a : RState) : nat := match a with Body _ _ => 1 | _ => 0 end.

Lemma in_body_le a : (in_body a <= 1)%nat.
Proof. destruct a; simpl; lia. Qed.

(** One iteration entered with the size known. *)
Lemma loop_from_body fuel pre inp v got s :
  (forall pre' inp' a' s', data = pre' ++ inp' -> Forall byte_ok inp' -> rel max a' s' ->
     (spec_bytes max a' inp').1 <> Dead -> (length inp' + in_body a' < S fuel)%nat ->
     (length inp' < length inp \/ (in_body a' = 0 /\ length inp' = length inp))%nat ->
     exists s'', receive_loop cb data fuel s' (Z.of_nat (length inp')) =
         Ret (s'', emits (spec_bytes max a' inp').2) /\ rel max (spec_bytes max a' inp').1 s'') ->
  data = pre ++ inp -> Forall byte_ok inp -> inp <> [] -> rel max (Body v got) s ->
  (spec_bytes max (Body v got) inp).1 <> Dead -> (length inp < S fuel)%nat ->
  exists s'', (let* (s, bytes_left, evs2) := receive_payload cb data s (Z.of_nat (length inp)) in
               let* (s, evs3) := receive_loop cb data fuel s bytes_left in Ret (s, evs2 ++ evs3))
      = Ret (s'', emits (spec_bytes max (Body v got) inp).2) /\
    rel max (spec_bytes max (Body v got) inp).1 s''.
Proof.
  intros IH Hd Hb Hne Hrel Hnd Hfuel.
  assert (Z.of_nat (length got) <= v) as Hle by (destruct Hrel as (_ & _ & ? & ?); tauto).
  destruct (receive_payload_refines pre inp v got s _ Hd Hne Hrel eq_refl) as (s' & Hstep).
  pose proof (body_fold max inp v got _ Hle (fun H => match Hne H with end) eq_refl) as Hfold.
  set (c := Z.min _ _) in *. assert (0 <= c <= Z.of_nat (length inp)) as Hc by lia.
  assert (data = (pre ++ take (Z.to_nat c) inp) ++ drop (Z.to_nat c) inp) as Hd'
    by (by rewrite <- app_assoc, take_drop).
  assert (Z.of_nat (length inp) - c = Z.of_nat (length (drop (Z.to_nat c) inp))) as Hlen
    by (rewrite length_drop; lia).
  assert (length inp <> 0)%nat by (by destruct inp).
  rewrite Hlen in Hstep. destruct (_ =? v); destruct Hstep as [-> Hrel']; cbn [obind].
  - rewrite Hfold in *. cbn [fst snd] in *.
    destruct (IH _ _ (Header []) s' Hd') as (s'' & -> & Hrel''); [|done|done|simpl; lia| |].
    + by apply Forall_drop.
    + simpl. lia.
    + exists s''. rewrite emits_app. done.
  - destruct Hfold as [Hcl Hfold]. rewrite Hfold in *. cbn [fst snd] in *.
    rewrite take_ge in Hrel' by lia.
    assert (drop (Z.to_nat c) inp = []) as Hnil by (apply drop_ge; lia). rewrite Hnil in *.
    destruct (IH _ [] _ s' Hd' ltac:(done) Hrel') as (s'' & -> & Hrel'');
      [done|simpl; lia|simpl; lia|].
    exists s''. split; [|done]. unfold emits. by destruct cb.
Qed.

(** Every chunk: the loop terminates and follows the automaton. *)
Lemma receive_loop_refines fuel pre inp a s :
  data = pre ++ inp -> Forall byte_ok inp -> rel max a s ->
  (spec_bytes max a inp).1 <> Dead -> (length inp + in_body a < fuel)%nat \/ (inp = [] /\ 0 < fuel)%nat ->
  exists s', receive_loop cb data fuel s (Z.of_nat (length inp)) =
      Ret (s', emits (spec_bytes max a inp).2) /\ rel max (spec_bytes max a inp).1 s'.
Proof.
  revert pre inp a s. induction fuel as [|fuel IH]; intros pre inp a s Hd Hb Hrel Hnd Hfuel; [lia|].
  destruct inp as [|b inp].
  { exists s. split; [|done]. simpl. unfold emits. by destruct cb. }
  assert (length (b :: inp) + in_body a < S fuel)%nat as Hf by (destruct Hfuel as [|[? _]]; done).
  set (input := b :: inp) in *. assert (input <> []) as Hne by done. clearbody input.
  assert ((Z.of_nat (length input) =? 0) = false) as Hnz
    by (apply Z.eqb_neq; destruct input; [done|simpl; lia]).
  cbn [receive_loop]. rewrite Hnz. destruct a as [bs|v got|].
  - assert (is_complete (m_current_message_size s) = false) as ->.
    { destruct Hrel as (_ & _ & Hok & -> & _). by rewrite concrete_complete. }
    destruct (receive_size_refines pre input bs s Hd Hb Hrel Hnd) as (s' & n & evs & -> & Hcase).
    cbn [obind]. destruct Hcase as [(-> & -> & bs' & Heq & Hrel')|(Hn & v & Hrel' & Heq)].
    { rewrite Z.sub_diag. simpl. rewrite Heq. by exists s'. }
    rewrite Heq in *. cbn [fst snd] in *.
    replace (Z.of_nat (length input) - n) with (Z.of_nat (length (drop (Z.to_nat n) input)))
      by (rewrite length_drop; lia).
    assert (data = (pre ++ take (Z.to_nat n) input) ++ drop (Z.to_nat n) input) as Hd'
      by (by rewrite <- app_assoc, take_drop).
    assert (length (drop (Z.to_nat n) input) < length input)%nat as Hlt.
    { rewrite length_drop. destruct input; [done|simpl in *; lia]. }
    pose proof (Forall_drop _ (Z.to_nat n) _ Hb) as Hb'.
    set (input' := drop (Z.to_nat n) input) in *. clearbody input'.
    destruct (Z.of_nat (length input') =? 0) eqn:E0.
    { apply Z.eqb_eq in E0. assert (input' = []) as -> by (destruct input'; [done|simpl in *; lia]).
      exists s'. cbn [spec_bytes fst snd]. rewrite app_nil_r. done. }
    destruct (loop_from_body fuel (pre ++ take (Z.to_nat n) input) input' v [] s')
      as (s'' & Hrun & Hrel''); [|done|done|by intros ->|done|done|lia|].
    { intros pre' inp' a' s1 ????? Hlen. eapply IH; eauto. pose proof (in_body_le a'). lia. }
    exists s''. split; [|done]. rewrite emits_app.
    revert Hrun. destruct (receive_payload cb data s' _) as [[[s1 l1] e1]|]; [|done]. cbn [obind].
    destruct (receive_loop cb data fuel s1 l1) as [[s2 e2]|]; [|done]. cbn [obind].
    intros [= -> <-]. done.
  - assert (is_complete (m_current_message_size s) = true) as ->.
    { destruct Hrel as (_ & _ & bs & Hok & _ & -> & _). by rewrite concrete_complete. }
    cbn [obind]. rewrite Hnz. apply loop_from_body with pre; try done; [|simpl in Hf; lia].
    intros pre' inp' a' s1 ????? Hlen. eapply IH; eauto. pose proof (in_body_le a'). simpl in Hf. lia.
  - by rewrite spec_bytes_dead in Hnd.
Qed.
End Loop.

(** ** Frames *)

Definition frame (m : list Z) : list Z := wire (Z.of_nat (length m)) ++ m.

(** What the receiver should report for a message. *)
Definition report (max : Z) (m : list Z) : list ReceiveEvent :=
  let size := Z.of_nat (length m) in
  if max <? size then [Received None size MESSAGE_TOO_LONG] else [Received (Some m) size OK].

Definition sendable (limit : Z) (m : list Z) : Prop :=
  Forall byte_ok m /\ 1 <= Z.of_nat (length m) <= limit.

Lemma spec_adds_wire v rest : fits 56 v ->
  spec_adds (Pending []) (wire v ++ rest) = (Done (wire v), Z.of_nat (length (wire v))).
Proof.
  intros Hv. destruct (wire_ok v Hv) as [(hd & l & -> & Hm & Hl & Hlast) _].
  rewrite <- app_assoc, (spec_adds_done [] hd l rest Hm) by (simpl; lia).
  f_equal. rewrite length_app. simpl. lia.
Qed.

Lemma frame_fold max m rest :
  sendable MAX_VALUE m -> Forall byte_ok rest ->
  spec_bytes max (Header []) (frame m ++ rest) =
    ((spec_bytes max (Header []) rest).1, report max m ++ (spec_bytes max (Header []) rest).2).
Proof.
  intros [Hb Hl] Hr. set (size := Z.of_nat (length m)) in *.
  assert (fits 56 size) as Hf by (apply max_value_fits; lia).
  destruct (wire_ok size Hf) as [_ Hval], (wire_bytes size Hf) as [Hwb _].
  unfold frame. fold size. rewrite <- app_assoc.
  pose proof (header_fold max (wire size ++ m ++ rest) []) as Hh.
  rewrite spec_adds_wire in Hh by done.
  destruct Hh as [_ ->]; [split; [constructor|simpl; lia]|by repeat apply Forall_app_2|].
  rewrite Nat2Z.id, drop_app_length, Hval.
  pose proof (body_fold max (m ++ rest) size [] size) as Hbody.
  rewrite Z.add_0_l, Z.eqb_refl in Hbody. rewrite Hbody; clear Hbody;
    [|simpl; lia|intros; simpl; lia|rewrite length_app; simpl; lia].
  replace (Z.to_nat size) with (length m) by lia.
  rewrite drop_app_length, take_app_length. cbn [fst snd app]. rewrite app_assoc.
  unfold too_long, deliver, report. fold size. by destruct (max <? size).
Qed.

Lemma frames_bytes ms : Forall (sendable MAX_VALUE) ms -> Forall byte_ok (flat_map frame ms).
Proof.
  induction 1 as [|m ms' [Hb Hl] _ IH]; [constructor|]. simpl.
  apply Forall_app_2; [|done]. apply Forall_app_2; [|done].
  apply wire_bytes, max_value_fits. lia.
Qed.

Lemma frames_fold max ms :
  Forall (sendable MAX_VALUE) ms ->
  spec_bytes max (Header []) (flat_map frame ms) = (Header [], flat_map (report max) ms).
Proof.
  induction 1 as [|m ms' Hm Hms IH]; [done|]. simpl.
  rewrite frame_fold by auto using frames_bytes. by rewrite IH.
Qed.

Lemma send_data_frame s cb m :
  m_max_message_size s <= MAX_VALUE -> sendable (m_max_message_size s) m ->
  transported (send_data s cb m) = frame m.
Proof.
  intros Hmax [Hb Hl]. unfold send_data, do_send_size.
  rewrite (proj2 (Z.eqb_neq _ 0)), (proj2 (Z.ltb_ge _ _)) by lia. simpl.
  rewrite of_unsigned_sent by lia. by rewrite app_nil_r.
Qed.

Lemma send_all_frames s cb ms :
  m_max_message_size s <= MAX_VALUE -> Forall (sendable (m_max_message_size s)) ms ->
  send_all s cb ms = flat_map frame ms.
Proof.
  intros Hmax. induction 1 as [|m ms Hm _ IH]; [done|]. unfold send_all in *. simpl.
  by rewrite IH, send_data_frame.
Qed.

Lemma on_data_receive_loop cb data s a max :
  Forall byte_ok data -> rel max a s -> (spec_bytes max a data).1 <> Dead ->
  exists s', on_data_receive cb data s (Error_of_status OK) =
      Ret (s', emits cb (spec_bytes max a data).2) /\ rel max (spec_bytes max a data).1 s'.
Proof.
  intros Hb Hrel Hnd. unfold on_data_receive. simpl error_bool. cbn iota.
  apply (receive_loop_refines cb data max _ []); try done.
  pose proof (in_body_le a). destruct data; [right|left]; simpl; lia || (split; [done|lia]).
Qed.

Lemma dead_prefix max a xs ys :
  (spec_bytes max a (xs ++ ys)).1 <> Dead -> (spec_bytes max a xs).1 <> Dead.
Proof. intros H E. apply H. by rewrite spec_bytes_app, E, spec_bytes_dead. Qed.

Lemma receive_chunks_stream cb chunks s a max :
  Forall byte_ok (concat chunks) -> rel max a s -> (spec_bytes max a (concat chunks)).1 <> Dead ->
  exists s', receive_chunks cb s chunks = Ret (s', emits cb (spec_bytes max a (concat chunks)).2) /\
    rel max (spec_bytes max a (concat chunks)).1 s'.
Proof.
  revert s a. induction chunks as [|c chunks IH]; intros s a Hb Hrel Hnd.
  { exists s. split; [|done]. simpl. unfold emits. by destruct cb. }
  simpl in *. apply Forall_app in Hb as [Hb Hbs].
  destruct (on_data_receive_loop cb c s a max) as (s' & -> & Hrel'); [done..| |].
  { by eapply dead_prefix. }
  cbn [obind]. rewrite spec_bytes_app in *. cbn [fst snd] in *.
  destruct (IH s' _ Hbs Hrel' Hnd) as (s'' & -> & Hrel''). cbn [obind].
  exists s''. by rewrite emits_app.
Qed.

(** ** After a protocol error *)

Lemma spec_adds_bad bs hd b rest :
  Forall marked hd -> (length bs + length hd = 7)%nat -> marked b ->
  spec_adds (Pending bs) (hd ++ b :: rest) = (Bad (bs ++ hd), Z.of_nat (length hd)).
Proof.
  intros Hm. revert bs. induction Hm as [|x hd Hx _ IH]; intros bs Hl Hb; unfold marked in *.
  - simpl. rewrite (proj2 (Z.ltb_ge b 128)), (proj2 (Nat.eqb_eq _ 7)) by (simpl in Hl; lia).
    by rewrite app_nil_r.
  - simpl. rewrite (proj2 (Z.ltb_ge x 128)) by lia. simpl in Hl.
    rewrite (proj2 (Nat.eqb_neq (length bs) 7)) by lia.
    rewrite IH by (done || rewrite length_app; simpl; lia). rewrite <- app_assoc.
    f_equal. lia.
Qed.

(** With the decoder failed, the "payload" half copies everything that is left. *)
Lemma receive_payload_failed cb data s bs pre inp :
  data = pre ++ inp -> m_current_message_size s = concrete (Bad bs) -> spec_ok (Bad bs) ->
  0 <= m_current_message_offset s ->
  m_current_message_offset s + Z.of_nat (length inp) < 2 ^ 64 ->
  Z.of_nat (length (m_buffer s)) < m_current_message_offset s + Z.of_nat (length inp) ->
  receive_payload cb data s (Z.of_nat (length inp)) = Fault OutOfBounds.
Proof.
  intros Hd Hs Hok Ho Hsmall Hover. unfold receive_payload, current_message_too_large.
  rewrite (suffix_of_data data pre) by done.
  rewrite Hs, concrete_complete, concrete_value by done. cbn [spec_complete spec_value andb].
  unfold INVALID_VALUE. rewrite wrap_small by (unfold fits; lia).
  rewrite (proj2 (Z.ltb_ge _ (Z.of_nat (length inp)))) by lia.
  rewrite Nat2Z.id, firstn_all, memcpy_fault by lia. done.
Qed.

(** ** Properties *)

(** C2. Receiving refines the byte automaton.  A chunk processed by [on_data_receive] from
    any reachable state, without a protocol error in it, terminates without undefined
    behaviour (no write outside [m_buffer]) and produces exactly the callbacks of reading
    its bytes one at a time; the new state again represents the automaton's. *)
Theorem on_data_receive_refines cb data s a max :
  rel max a s -> Forall byte_ok data -> (spec_bytes max a data).1 <> Dead ->
  exists s', on_data_receive cb data s (Error_of_status OK) =
      Ret (s', if cb then (spec_bytes max a data).2 else []) /\
    rel max (spec_bytes max a data).1 s'.
Proof. intros Hrel Hb Hnd. by apply on_data_receive_loop. Qed.

Lemma on_data_receive_refines_witness :
  exists s', on_data_receive true [2; 7; 9; 11; 1] (create 4 [0; 0; 0; 0]) (Error_of_status OK) =
      Ret (s', [Received (Some [7; 9]) 2 OK; Received None 11 MESSAGE_TOO_LONG]) /\
    rel 4 (Body 11 [1]) s'.
Proof.
  refine (on_data_receive_refines true [2; 7; 9; 11; 1] (create 4 [0; 0; 0; 0]) (Header []) 4 _ _ _).
  - repeat split; try done; simpl; lia.
  - repeat constructor; lia.
  - vm_compute. discriminate.
Defined.

(** Chunk boundaries do not matter.  Two ways of cutting the same byte stream into
    read callbacks lead to the same callbacks in the same order, and to states that
    represent the same position in the stream. *)
Theorem fragmentation_irrelevant cb chunks1 chunks2 max contents :
  Z.of_nat (length contents) = max ->
  concat chunks1 = concat chunks2 -> Forall byte_ok (concat chunks1) ->
  (spec_bytes max (Header []) (concat chunks1)).1 <> Dead ->
  exists s1 s2 evs,
    receive_chunks cb (create max contents) chunks1 = Ret (s1, evs) /\
    receive_chunks cb (create max contents) chunks2 = Ret (s2, evs) /\
    rel max (spec_bytes max (Header []) (concat chunks1)).1 s1 /\
    rel max (spec_bytes max (Header []) (concat chunks1)).1 s2.
Proof.
  intros Hlen Heq Hb Hnd. pose proof (rel_create max contents Hlen) as Hrel.
  destruct (receive_chunks_stream cb chunks1 _ _ _ Hb Hrel Hnd) as (s1 & H1 & R1).
  rewrite Heq in Hb, Hnd.
  destruct (receive_chunks_stream cb chunks2 _ _ _ Hb Hrel Hnd) as (s2 & H2 & R2).
  rewrite <- Heq in H2, R2. by eexists s1, s2, _.
Qed.

Lemma fragmentation_irrelevant_witness :
  exists s1 s2 evs,
    receive_chunks true (create 3 [0; 0; 0]) [[3]; [1; 2]; [3; 1]] = Ret (s1, evs) /\
    receive_chunks true (create 3 [0; 0; 0]) [[3; 1; 2; 3; 1]] = Ret (s2, evs) /\
    rel 3 (Body 1 []) s1 /\ rel 3 (Body 1 []) s2.
Proof.
  refine (fragmentation_irrelevant true [[3]; [1; 2]; [3; 1]] [[3; 1; 2; 3; 1]] 3 [0; 0; 0] _ _ _ _);
    [reflexivity|reflexivity|repeat constructor; lia|vm_compute; discriminate].
Defined.

(** C1. End-to-end delivery.  Messages of 1 to [m_max_message_size] bytes sent by one side
    reach the other side's callback exactly once, in order and unchanged, however the
    transport cuts the stream; a message above the receiver's own limit is reported once as
    [MESSAGE_TOO_LONG] with its size, skipped, and does not disturb the ones after it; at
    the end the receiver is ready for the next message. *)
Theorem messages_delivered sender cb_send messages chunks max contents :
  m_max_message_size sender <= MAX_VALUE ->
  Forall (sendable (m_max_message_size sender)) messages ->
  concat chunks = send_all sender cb_send messages ->
  Z.of_nat (length contents) = max ->
  exists s, receive_chunks true (create max contents) chunks
      = Ret (s, flat_map (report max) messages) /\ rel max (Header []) s.
Proof.
  intros Hmax Hms Hchunks Hlen. rewrite send_all_frames in Hchunks by done.
  assert (Forall (sendable MAX_VALUE) messages) as Hms'.
  { eapply Forall_impl; [exact Hms|]. intros m [Hb Hl]. split; [done|lia]. }
  pose proof (frames_fold max messages Hms') as Hfold. rewrite <- Hchunks in Hfold.
  destruct (receive_chunks_stream true chunks (create max contents) (Header []) max)
    as (s & Hs & Hrel).
  - rewrite Hchunks. by apply frames_bytes.
  - by apply rel_create.
  - by rewrite Hfold.
  - rewrite Hfold in *. by exists s.
Qed.

Lemma messages_delivered_witness :
  exists s, receive_chunks true (create 4 [0; 0; 0; 0]) [[2; 10]; [20; 5; 1; 2]; [3; 4; 5; 1]; [9]]
      = Ret (s, [Received (Some [10; 20]) 2 OK; Received None 5 MESSAGE_TOO_LONG;
                 Received (Some [9]) 1 OK]) /\ rel 4 (Header []) s.
Proof.
  refine (messages_delivered (create 100 []) true [[10; 20]; [1; 2; 3; 4; 5]; [9]]
            [[2; 10]; [20; 5; 1; 2]; [3; 4; 5; 1]; [9]] 4 [0; 0; 0; 0] _ _ _ _).
  - vm_compute; discriminate.
  - repeat constructor; simpl; lia.
  - reflexivity.
  - reflexivity.
Defined.

(** A malformed size overruns the receive buffer.  The eighth marked byte of a size is
    a protocol error; the callback is told, but the loop goes on and copies everything that
    is left of the chunk into [m_buffer] with no bound (the size reads as [INVALID_VALUE] and
    counts as "not too large"), so a chunk with more than [m_max_message_size] bytes left
    after the seventh is written past the end of the allocation. *)
Theorem protocol_error_overruns_buffer cb max contents hd b rest :
  Z.of_nat (length contents) = max -> Forall marked hd -> length hd = 7%nat -> marked b ->
  Forall byte_ok rest -> max < Z.of_nat (length (b :: rest)) < 2 ^ 64 ->
  on_data_receive cb (hd ++ b :: rest) (create max contents) (Error_of_status OK)
    = Fault OutOfBounds.
Proof.
  intros Hlen Hm Hl Hb Hr Hover. unfold on_data_receive. simpl error_bool. cbn iota.
  set (data := hd ++ b :: rest).
  assert (Forall byte_ok data) as Hdata.
  { apply Forall_app_2; [by apply marked_byte|]. constructor; [|done].
    unfold marked, byte_ok, fits in *. lia. }
  assert (Z.of_nat (length data) = 7 + Z.of_nat (length (b :: rest))) as Hdl
    by (unfold data; rewrite length_app; lia).
  cbn [receive_loop]. rewrite (proj2 (Z.eqb_neq _ 0)) by lia.
  cbn [m_current_message_size create]. change (is_complete empty) with false. cbn iota.
  unfold receive_size. rewrite (suffix_of_data data []) by done.
  change (m_current_message_size (create max contents)) with (concrete (Pending [])).
  rewrite add_bytes_is_loop.
  destruct (add_bytes_loop_refines (Pending []) data 0) as (-> & Hok & _);
    [split; [constructor|simpl; lia]|done|].
  assert (spec_adds (Pending []) data = (Bad hd, 7)) as Hs
    by (unfold data; rewrite spec_adds_bad, Hl by done; done).
  rewrite Hs in *. cbn [fst snd] in *. rewrite Z.add_0_l, (proj2 (Z.leb_le 7 _)) by lia.
  cbn [obind]. rewrite Hdl. replace (7 + _ - 7) with (Z.of_nat (length (b :: rest))) by lia.
  rewrite (proj2 (Z.eqb_neq _ 0)) by lia.
  rewrite (receive_payload_failed cb data _ hd hd (b :: rest)); try done;
    cbn [set_size create m_current_message_offset m_buffer]; lia.
Qed.

Lemma protocol_error_overruns_buffer_witness :
  on_data_receive true ([255; 255; 255; 255; 255; 255; 255] ++ 255 :: [1; 2; 3])
    (create 2 [0; 0]) (Error_of_status OK) = Fault OutOfBounds.
Proof.
  refine (protocol_error_overruns_buffer true 2 [0; 0] [255; 255; 255; 255; 255; 255; 255] 255 [1; 2; 3] _ _ _ _ _ _);
    [reflexivity|repeat constructor; unfold marked; lia|reflexivity|unfold marked; lia
    |repeat constructor; unfold byte_ok, fits; lia|simpl; lia].
Defined.

(** Refused sends.  An empty message or one above the sender's limit puts nothing on
    the wire, neither size nor payload, and the end-send callback, when there is one, gets
    the matching error; every other message puts its size and its bytes on the wire. *)
Theorem send_data_cases s callback message :
  m_max_message_size s <= MAX_VALUE ->
  send_data s callback message =
    let size := Z.of_nat (length message) in
    if size =? 0 then (if callback then [EndSend INVALID_ARGUMENT] else [])
    else if m_max_message_size s <? size then (if callback then [EndSend MESSAGE_TOO_LONG] else [])
    else [Transport (wire size); Transport message].
Proof.
  intros Hmax. unfold send_data, do_send_size. cbn zeta.
  destruct (Z.eqb_spec (Z.of_nat (length message)) 0); [done|].
  destruct (Z.ltb_spec (m_max_message_size s) (Z.of_nat (length message))); [done|].
  by rewrite of_unsigned_sent by lia.
Qed.

Lemma send_data_cases_witness :
  send_data (create 2 []) true [1; 2; 3] = [EndSend MESSAGE_TOO_LONG].
Proof. rewrite send_data_cases; [reflexivity|vm_compute; discriminate]. Defined.

End Framing.
