(* ===== verification/MessageServer.v ===== *)
(** * Message-oriented servers and clients

    [source/io/net/GenericMessageOrientedServer.h], [GenericMessageOrientedConnectedClient.h] and
    [GenericMessageOrientedClient.h]: the wrappers that put the framing of [MessageFraming] between
    a stream transport and the user's callbacks.

    The server's callbacks for the transport keep one wrapper per connection, reached through the
    user data of the transport's client object.  Wrappers live on a heap: [wrappers] holds those that
    were made and not deleted.  The events are the calls of the user's callbacks, with the client
    that the wrapper they get belongs to. *)

From S2P Require Import Prelude StatusCode VariableLengthSize MessageFraming.
Local Open Scope outcome_scope.
Local Open Scope record_scope.

Module MessageServer.
Import Framing.

(** ** The server *)

(** [GenericMessageOrientedConnectedClient]: the base with the framing, and the client it wraps. *)
Record Wrapper := mkWrapper { m_client : nat; framing : Framing.t }.

Inductive event :=
| NewConnection (error : Error)
| Message (ev : ReceiveEvent)
| CloseConnection (error : Error).

Record Server := mkServer {
  wrappers : gmap nat Wrapper;
  user_data : gmap nat nat;        (* of the clients; an absent key is the null pointer *)
  next_wrapper : nat;
  log : list (nat * event) }.

#[export] Instance server_settable : Settable Server := settable! mkServer <wrappers; user_data; next_wrapper; log>.

Definition GenericMessageOrientedServer : Server := mkServer ∅ ∅ 0 [].

Section Callbacks.

(** [DEFAULT_MAX_MESSAGE_SIZE], and which callbacks the user passed to [listen]. *)
Context (max_message_size : Z) (new_connection_callback data_receive_callback close_connection_callback : bool).

Definition call (cb : bool) (c : nat) (ev : event) (s : Server) : Server :=
  if cb then s <| log ::= fun l => l ++ [(c, ev)] |> else s.

(** [new GenericMessageOrientedConnectedClient(&client, max)]; the buffer of the base holds what
    the allocation happens to contain. *)
Definition new_wrapper (client : nat) (contents : list Z) (s : Server) : Server * nat :=
  let w := next_wrapper s in
  (s <| wrappers ::= insert w (mkWrapper client (create max_message_size contents)) |> <| next_wrapper ::= S |>, w).

(** The three callbacks that [listen] hands to the transport's server. *)
Definition on_new_connection (client : nat) (error : Error) (contents : list Z) (s : Server) : Server :=
  let '(s, w) := new_wrapper client contents s in
  let s := call new_connection_callback client (NewConnection error) s in
  s <| user_data ::= insert client w |>.

Definition find_wrapper (client : nat) (s : Server) : outcome (nat * Wrapper) :=
  match user_data s !! client with
  | None => Fault NullDeref
  | Some w => match wrappers s !! w with Some x => Ret (w, x) | None => Fault UseAfterFree end
  end.

Definition on_data (client : nat) (data : list Z) (error : Error) (s : Server) : outcome Server :=
  let* (w, x) := find_wrapper client s in
  let* (f, evs) := on_data_receive data_receive_callback data (framing x) error in
  Ret (s <| wrappers ::= insert w (mkWrapper (m_client x) f) |>
         <| log ::= fun l => l ++ map (fun ev => (m_client x, Message ev)) evs |>).

Definition on_close (client : nat) (error : Error) (s : Server) : outcome Server :=
  if close_connection_callback then
    let* (w, x) := find_wrapper client s in
    let s := call close_connection_callback (m_client x) (CloseConnection error) s in
    Ret (s <| user_data ::= delete client |> <| wrappers ::= delete w |>)
  else
    (* [delete] of a null pointer does nothing *)
    match user_data s !! client with
    | None => Ret s
    | Some w =>
        check (bool_decide (is_Some (wrappers s !! w))) else UseAfterFree in
        Ret (s <| user_data ::= delete client |> <| wrappers ::= delete w |>)
    end.

(** What the transport's server calls. *)
Inductive action :=
| Connect (client : nat) (error : Error) (contents : list Z)
| Data (client : nat) (data : list Z)
| DataFailed (client : nat) (data : list Z) (error : Error)
| Close (client : nat) (error : Error).

Definition act (a : action) (s : Server) : outcome Server :=
  match a with
  | Connect c e contents => Ret (on_new_connection c e contents s)
  | Data c data => on_data c data (Error_of_status OK) s
  | DataFailed c data e => on_data c data e s
  | Close c e => on_close c e s
  end.

Fixpoint serve (acts : list action) (s : Server) : outcome Server :=
  match acts with
  | [] => Ret s
  | a :: acts => let* s := act a s in serve acts s
  end.

End Callbacks.

(** ** How a stream server calls them

    A client object is announced once, with or without an error.  After an error it is removed and nothing more is
    called for it; else its data come, and its end, once.  The data of a connection have no malformed
    size in them (see [Framing.protocol_error_overruns_buffer] for what happens then). *)
Inductive phase :=
| POpen (connected : Error) (bytes : list Z)
| PFailed (error : Error)
| PClosed (connected : Error) (bytes : list Z) (error : Error).

Abbreviation history := (gmap nat phase).

#[export] Instance RState_eq_dec : EqDecision RState.
Proof. solve_decision. Defined.

Definition extend (max : Z) (g : history) (a : action) : option history :=
  match a with
  | Connect c e contents =>
      match g !! c with
      | None =>
          if bool_decide (Z.of_nat (length contents) = max)
          then Some (<[c := if error_bool e then PFailed e else POpen e []]> g) else None
      | Some _ => None
      end
  | Data c data =>
      match g !! c with
      | Some (POpen e bs) =>
          if bool_decide (Forall byte_ok data) &&
             negb (bool_decide ((spec_bytes max (Header []) (bs ++ data)).1 = Dead))
          then Some (<[c := POpen e (bs ++ data)]> g) else None
      | _ => None
      end
  | DataFailed _ _ _ => None
  | Close c e =>
      match g !! c with
      | Some (POpen e0 bs) => Some (<[c := PClosed e0 bs e]> g)
      | _ => None
      end
  end.

Fixpoint history_of (max : Z) (acts : list action) (g : history) : option history :=
  match acts with
  | [] => Some g
  | a :: acts => match extend max g a with Some g => history_of max acts g | None => None end
  end.

(** Any sequence of calls: what has become of each client that was announced. *)
Definition follow (g : history) (a : action) : history :=
  match a with
  | Connect c e _ => <[c := if error_bool e then PFailed e else POpen e []]> g
  | Data c data => match g !! c with Some (POpen e bs) => <[c := POpen e (bs ++ data)]> g | _ => g end
  | DataFailed _ _ _ => g
  | Close c e =>
      match g !! c with
      | Some (POpen e0 bs) => <[c := PClosed e0 bs e]> g
      | Some (PFailed e0) => <[c := PClosed e0 [] e]> g
      | _ => g
      end
  end.

Definition announced (acts : list action) : list nat := omap (fun a => match a with Connect c _ _ => Some c | _ => None end) acts.

Lemma extend_follow max g a g' : extend max g a = Some g' -> follow g a = g'.
Proof.
  destruct a as [c e contents|c data|c data e|c e]; cbn; [| |done|]; destruct (g !! c) as [[]|]; try done; try (destruct (bool_decide _); [|done]; by intros [= <-]).
  - destruct (_ && _); [|done]. by intros [= <-].
  - by intros [= <-].
Qed.

Lemma history_follow max acts g g' : history_of max acts g = Some g' -> foldl follow g acts = g'.
Proof.
  revert g. induction acts as [|a acts IH]; intros g; cbn; [by intros [= <-]|]. destruct (extend max g a) as [g1|] eqn:E; [|done]. rewrite (extend_follow _ _ _ _ E). apply IH.
Qed.

(** ** What the user is to see *)

Section Served.
Context (max : Z) (nc dr cl : bool).

Definition opt {A} (cb : bool) (l : list A) : list A := if cb then l else [].

Definition expected (p : phase) : list event :=
  match p with
  | PFailed e => opt nc [NewConnection e]
  | POpen e bs => opt nc [NewConnection e] ++ opt dr (map Message (spec_bytes max (Header []) bs).2)
  | PClosed e bs e' =>
      opt nc [NewConnection e] ++ opt dr (map Message (spec_bytes max (Header []) bs).2) ++ opt cl [CloseConnection e']
  end.

(** The callbacks of one client. *)
Fixpoint events_of (c : nat) (l : list (nat * event)) : list event :=
  match l with
  | [] => []
  | (d, ev) :: l => if decide (d = c) then ev :: events_of c l else events_of c l
  end.

Definition has_wrapper (p : phase) : bool := match p with PClosed _ _ _ => false | _ => true end.

(** Each client of the history has its wrapper, and nothing else is on the heap. *)
Record owned (g : history) (s : Server) : Prop := {
  own_client c p : g !! c = Some p ->
    if has_wrapper p then exists w x, user_data s !! c = Some w /\ wrappers s !! w = Some x /\ m_client x = c else user_data s !! c = None;
  own_user_data c w : user_data s !! c = Some w -> is_Some (g !! c);
  own_wrapper w x : wrappers s !! w = Some x -> user_data s !! m_client x = Some w /\ (w < next_wrapper s)%nat }.

(** The wrappers of open connections are in the state that their data lead to. *)
Record inv (g : history) (s : Server) : Prop := {
  inv_owned : owned g s;
  inv_framing w x e bs : wrappers s !! w = Some x -> g !! m_client x = Some (POpen e bs) -> rel max (spec_bytes max (Header []) bs).1 (framing x);
  inv_log c : events_of c (log s) = match g !! c with Some p => expected p | None => [] end }.

Lemma events_of_app c l k : events_of c (l ++ k) = events_of c l ++ events_of c k.
Proof. induction l as [|[d ev] l IH]; cbn; [done|]. destruct (decide (d = c)); cbn; by rewrite IH. Qed.

Lemma events_of_own c evs : events_of c (map (fun ev => (c, ev)) evs) = evs.
Proof. induction evs as [|ev evs IH]; cbn; [done|]. by rewrite decide_True, IH. Qed.

Lemma events_of_other c d evs : c <> d -> events_of c (map (fun ev => (d, ev)) evs) = [].
Proof. intros H. induction evs as [|ev evs IH]; cbn; [done|]. by rewrite decide_False. Qed.

(** Adding callbacks of one client to the log. *)
Lemma log_step (g : history) (l : list (nat * event)) c p evs :
  (forall d, events_of d l = match g !! d with Some q => expected q | None => [] end) ->
  expected p = match g !! c with Some q => expected q | None => [] end ++ evs ->
  forall d, events_of d (l ++ map (fun ev => (c, ev)) evs) =
    match <[c := p]> g !! d with Some q => expected q | None => [] end.
Proof.
  intros Hl Hp d. rewrite events_of_app, Hl. destruct (decide (d = c)) as [->|Hne].
  - by rewrite lookup_insert_eq, events_of_own, Hp.
  - by rewrite lookup_insert_ne, events_of_other, app_nil_r by congruence.
Qed.

Lemma call_map cb c ev s : call cb c ev s = s <| log ::= fun l => l ++ map (fun ev => (c, ev)) (opt cb [ev]) |>.
Proof. unfold call. destruct cb; [done|]. destruct s; cbn. by rewrite app_nil_r. Qed.

Lemma owned_empty : owned ∅ GenericMessageOrientedServer.
Proof. split; cbn; intros; try done; by rewrite lookup_empty in *. Qed.

Lemma inv_empty : inv ∅ GenericMessageOrientedServer.
Proof.
  split; [apply owned_empty|..].
  - intros w x e bs H. cbn in H. by rewrite lookup_empty in H.
  - intros c. by rewrite lookup_empty.
Qed.

Lemma owned_connect g s c e contents : owned g s -> g !! c = None -> owned (follow g (Connect c e contents)) (on_new_connection max nc c e contents s).
Proof.
  intros [H1 H2 H3] Hc. cbn [follow].
  assert (user_data s !! c = None) as Huc.
  { destruct (user_data s !! c) as [w|] eqn:E; [|done]. apply H2 in E. rewrite Hc in E. by destruct E. }
  unfold on_new_connection, new_wrapper. rewrite call_map. split; cbn.
  - intros d p Hd. destruct (decide (d = c)) as [->|Hne].
    + rewrite lookup_insert_eq in Hd. injection Hd as <-.
      assert (has_wrapper (if error_bool e then PFailed e else POpen e []) = true) as -> by (by destruct (error_bool e)).
      exists (next_wrapper s), (mkWrapper c (create max contents)). by rewrite !lookup_insert_eq.
    + rewrite lookup_insert_ne in Hd by done. specialize (H1 d p Hd). destruct (has_wrapper p).
      * destruct H1 as (w & x & Hu & Hx & Hcl). exists w, x.
        rewrite !lookup_insert_ne by (congruence || (apply H3 in Hx; lia)). done.
      * by rewrite lookup_insert_ne.
  - intros d w Hd. destruct (decide (d = c)) as [->|Hne]; [rewrite lookup_insert_eq; eauto|].
    rewrite lookup_insert_ne in Hd by done. rewrite lookup_insert_ne by done. by eapply H2.
  - intros w x Hx. destruct (decide (w = next_wrapper s)) as [->|Hne].
    + rewrite lookup_insert_eq in Hx. injection Hx as <-. cbn. rewrite lookup_insert_eq. split; [done|lia].
    + rewrite lookup_insert_ne in Hx by done. apply H3 in Hx as [Hu Hlt].
      rewrite lookup_insert_ne by congruence. split; [done|lia].
Qed.

Lemma inv_connect g s c e contents : inv g s -> g !! c = None -> Z.of_nat (length contents) = max ->
  inv (follow g (Connect c e contents)) (on_new_connection max nc c e contents s).
Proof.
  intros [Ho Hf Hl] Hc Hlen. split; [by apply owned_connect|..]; unfold on_new_connection, new_wrapper; rewrite call_map; cbn.
  - intros w x e0 bs Hx. destruct (decide (w = next_wrapper s)) as [->|Hne].
    + rewrite lookup_insert_eq in Hx. injection Hx as <-. cbn. rewrite lookup_insert_eq. destruct (error_bool e); [done|]. intros [= <- <-]. by apply rel_create.
    + rewrite lookup_insert_ne in Hx by done. rewrite lookup_insert_ne; [by eapply Hf|]. intros Eq. apply (own_wrapper _ _ Ho) in Hx as [Hu _].
      rewrite <- Eq in Hu. apply (own_user_data _ _ Ho) in Hu. rewrite Hc in Hu. by destruct Hu.
  - apply log_step; [exact Hl|]. rewrite Hc. destruct (error_bool e); cbn; [done|]. destruct dr, nc; done.
Qed.

Lemma find_wrapper_ret c s w x : user_data s !! c = Some w -> wrappers s !! w = Some x -> find_wrapper c s = Ret (w, x).
Proof. intros Hu Hx. unfold find_wrapper. by rewrite Hu, Hx. Qed.

Lemma find_wrapper_inv c s w x : find_wrapper c s = Ret (w, x) -> user_data s !! c = Some w /\ wrappers s !! w = Some x.
Proof. unfold find_wrapper. destruct (user_data s !! c) as [w'|]; [|done]. destruct (wrappers s !! w') eqn:E; [|done]. by intros [= <- <-]. Qed.

Lemma emits_opt evs : emits dr evs = opt dr evs.
Proof. done. Qed.

(** The data of a client change what its wrapper holds, not which wrappers there are. *)
Lemma owned_receive g s c data error s' : owned g s -> on_data dr c data error s = Ret s' -> owned g s'.
Proof.
  intros [H1 H2 H3] H. unfold on_data in H. apply obind_ret_inv in H as ([w x] & Hw & H). apply find_wrapper_inv in Hw as [Hu Hx]. apply obind_ret_inv in H as ([f evs] & _ & [= <-]).
  split; cbn [user_data wrappers next_wrapper set_field].
  - intros d p Hd. specialize (H1 d p Hd). destruct (has_wrapper p); [|done].
    destruct H1 as (w' & x' & Hu' & Hx' & Hcl'). destruct (decide (w' = w)) as [->|Hne].
    + exists w, (mkWrapper (m_client x) f). cbn. rewrite lookup_insert_eq. split_and!; [done|done|]. congruence.
    + exists w', x'. cbn. rewrite lookup_insert_ne by done. done.
  - exact H2.
  - intros w' x' Hx'. cbn in Hx'. destruct (decide (w' = w)) as [->|Hne].
    + rewrite lookup_insert_eq in Hx'. injection Hx' as <-. cbn. by apply H3.
    + rewrite lookup_insert_ne in Hx' by done. by apply H3.
Qed.

Lemma owned_more g s c e bs data : owned g s -> g !! c = Some (POpen e bs) -> owned (<[c := POpen e (bs ++ data)]> g) s.
Proof.
  intros [H1 H2 H3] Hc. split; [| |exact H3].
  - intros d p Hd. destruct (decide (d = c)) as [->|Hne]; [|rewrite lookup_insert_ne in Hd by done; by apply H1].
    rewrite lookup_insert_eq in Hd. injection Hd as <-. by apply (H1 c _ Hc).
  - intros d w Hd. destruct (decide (d = c)) as [->|Hne]; [rewrite lookup_insert_eq; eauto|rewrite lookup_insert_ne by done; by eapply H2].
Qed.

Lemma owned_data g s c data error s' : owned g s -> on_data dr c data error s = Ret s' -> owned (follow g (Data c data)) s'.
Proof.
  intros Ho H. apply (owned_receive g) in H; [|done]. cbn [follow]. destruct (g !! c) as [[]|] eqn:Hc; try done. by apply owned_more.
Qed.

Lemma inv_data g s c e bs data :
  inv g s -> g !! c = Some (POpen e bs) -> Forall byte_ok data ->
  (spec_bytes max (Header []) (bs ++ data)).1 <> Dead ->
  exists s', on_data dr c data (Error_of_status OK) s = Ret s' /\ inv (<[c := POpen e (bs ++ data)]> g) s'.
Proof.
  intros [Ho Hf Hl] Hc Hb Hnd. destruct (own_client _ _ Ho _ _ Hc) as (w & x & Hu & Hx & Hcl).
  assert (rel max (spec_bytes max (Header []) bs).1 (framing x)) as Hrel by (by eapply Hf; [|rewrite Hcl]).
  rewrite spec_bytes_app in Hnd. cbn [fst] in Hnd.
  destruct (on_data_receive_loop dr data (framing x) _ max Hb Hrel Hnd) as (f & Hf' & Hrel').
  assert (exists s', on_data dr c data (Error_of_status OK) s = Ret s' /\ s' = s <| wrappers ::= insert w (mkWrapper (m_client x) f) |>
         <| log ::= fun l => l ++ map (fun ev => (m_client x, Message ev)) (emits dr (spec_bytes max (spec_bytes max (Header []) bs).1 data).2) |>) as (s' & Hs' & Es).
  { unfold on_data. rewrite (find_wrapper_ret _ _ _ _ Hu Hx). cbn [obind]. rewrite Hf'. cbn [obind]. by eexists. }
  exists s'. split; [done|]. split.
  - apply (owned_data g s c data) in Hs'; [|done]. cbn [follow] in Hs'. by rewrite Hc in Hs'.
  - subst s'. cbn. intros w' x' e' bs' Hx'. destruct (decide (w' = w)) as [->|Hne].
    + rewrite lookup_insert_eq in Hx'. injection Hx' as <-. cbn. rewrite Hcl, lookup_insert_eq. intros [= <- <-]. by rewrite spec_bytes_app.
    + rewrite lookup_insert_ne in Hx' by done. rewrite lookup_insert_ne; [by eapply Hf|]. intros Eq. apply (own_wrapper _ _ Ho) in Hx' as [Hu' _]. rewrite <- Eq, Hu in Hu'. congruence.
  - subst s'. cbn. rewrite Hcl, <- (map_map Message (fun ev => (c, ev))).
    apply log_step; [exact Hl|]. rewrite Hc. cbn [expected]. rewrite spec_bytes_app. cbn [snd].
    rewrite emits_opt, <- app_assoc. f_equal. destruct dr; cbn [opt]; [by rewrite map_app|done].
Qed.

(** The wrapper of a client is deleted; the client's phase says that it has none. *)
Lemma owned_deleted g s c w x p l : owned g s -> user_data s !! c = Some w -> wrappers s !! w = Some x -> has_wrapper p = false ->
  owned (<[c := p]> g) (s <| log := l |> <| user_data ::= delete c |> <| wrappers ::= delete w |>).
Proof.
  intros [H1 H2 H3] Hu Hx Hp. assert (m_client x = c) as Hcl.
  { destruct (H2 c w Hu) as [q Hq]. specialize (H1 c q Hq). destruct (has_wrapper q); [|congruence]. destruct H1 as (w' & x' & Hu' & Hx' & <-). congruence. }
  split; cbn.
  - intros d q Hd. destruct (decide (d = c)) as [->|Hne].
    + rewrite lookup_insert_eq in Hd. injection Hd as <-. rewrite Hp. apply lookup_delete_eq.
    + rewrite lookup_insert_ne in Hd by done. specialize (H1 d q Hd). destruct (has_wrapper q).
      * destruct H1 as (w' & x' & Hu' & Hx' & Hcl'). exists w', x'.
        rewrite !lookup_delete_ne; [done| |done]. intros <-. rewrite Hx in Hx'. congruence.
      * by rewrite lookup_delete_ne.
  - intros d w' Hd. destruct (decide (d = c)) as [->|Hne]; [by rewrite lookup_delete_eq in Hd|].
    rewrite lookup_delete_ne in Hd by done. rewrite lookup_insert_ne by done. by eapply H2.
  - intros w' x' Hx'. destruct (decide (w' = w)) as [->|Hne]; [by rewrite lookup_delete_eq in Hx'|].
    rewrite lookup_delete_ne in Hx' by done. destruct (H3 _ _ Hx') as [Hu' Hlt]. split; [|done].
    rewrite lookup_delete_ne; [done|]. intros E. rewrite <- E in Hu'. congruence.
Qed.

Lemma owned_close g s c e s' : owned g s -> on_close cl c e s = Ret s' -> owned (follow g (Close c e)) s'.
Proof.
  intros Ho H. assert ((user_data s !! c = None /\ s' = s) \/ exists w x l, user_data s !! c = Some w /\ wrappers s !! w = Some x /\ 
    s' = s <| log := l |> <| user_data ::= delete c |> <| wrappers ::= delete w |>) as [[Hu ->]|(w & x & l & Hu & Hx & ->)].
  { unfold on_close in H. destruct cl.
    - apply obind_ret_inv in H as ([w x] & Hw & [= <-]). apply find_wrapper_inv in Hw as [Hu Hx]. right. exists w, x. eexists. split_and!; [done..|]. by destruct s.
    - destruct (user_data s !! c) as [w|] eqn:Hu; [|left; by injection H as <-]. destruct (bool_decide_reflect (is_Some (wrappers s !! w))) as [[x Hx]|]; [|done].
      right. exists w, x, (log s). split_and!; [done..|]. destruct s. cbn in *. by injection H as <-. }
  - cbn [follow]. destruct (g !! c) as [p|] eqn:Hc; [|done]. pose proof (own_client _ _ Ho c p Hc) as H1. destruct p; cbn in H1; try done;
      destruct H1 as (w & x & Hu' & _); congruence.
  - destruct (own_user_data _ _ Ho c w Hu) as [p Hc]. cbn [follow]. rewrite Hc. destruct p as [e0 bs|e0|e0 bs e1]; [by eapply owned_deleted..|].
    pose proof (own_client _ _ Ho c _ Hc) as H1. cbn in H1. congruence.
Qed.

Lemma inv_close g s c e bs e' :
  inv g s -> g !! c = Some (POpen e bs) ->
  exists s', on_close cl c e' s = Ret s' /\ inv (<[c := PClosed e bs e']> g) s'.
Proof.
  intros [Ho Hf Hl] Hc. destruct (own_client _ _ Ho _ _ Hc) as (w & x & Hu & Hx & Hcl).
  assert (on_close cl c e' s =
    Ret (s <| log ::= fun l => l ++ map (fun ev => (c, ev)) (opt cl [CloseConnection e']) |>
           <| user_data ::= delete c |> <| wrappers ::= delete w |>)) as E.
  { unfold on_close. destruct cl; cbn.
    - rewrite (find_wrapper_ret _ _ _ _ Hu Hx). cbn. by rewrite Hcl.
    - rewrite Hu, bool_decide_eq_true_2 by eauto. destruct s; cbn. by rewrite app_nil_r. }
  rewrite E. eexists. split; [done|]. apply owned_close with (g := g) in E; [|done]. cbn [follow] in E. rewrite Hc in E. split; [done|..]; cbn.
  - intros w' x' e0 bs' Hx'. rewrite lookup_delete_Some in Hx'. destruct Hx' as [Hne Hx']. rewrite lookup_insert_ne; [by eapply Hf|]. intros Eq.
    apply (own_wrapper _ _ Ho) in Hx' as [Hu' _]. congruence.
  - apply log_step; [exact Hl|]. rewrite Hc. cbn. by rewrite <- app_assoc.
Qed.

Lemma inv_act g s a g' : inv g s -> extend max g a = Some g' ->
  exists s', act max nc dr cl a s = Ret s' /\ inv g' s'.
Proof.
  intros Hinv Ha. pose proof (extend_follow _ _ _ _ Ha) as <-. destruct a as [c e contents|c data|c data e|c e]; cbn [extend act] in *.
  - destruct (g !! c) eqn:Hc; [done|]. case_bool_decide; [|done]. eexists. split; [done|]. by apply inv_connect.
  - cbn [follow]. destruct (g !! c) as [[e bs| |]|] eqn:Hc; try done. destruct (_ && _) eqn:E; [|done].
    apply andb_true_iff in E as [Hb%bool_decide_eq_true Hd%negb_true_iff%bool_decide_eq_false].
    by apply inv_data.
  - done.
  - cbn [follow]. destruct (g !! c) as [[e0 bs| |]|] eqn:Hc; try done. by apply inv_close.
Qed.

Lemma inv_serve acts g s g' : inv g s -> history_of max acts g = Some g' ->
  exists s', serve max nc dr cl acts s = Ret s' /\ inv g' s'.
Proof.
  revert g s. induction acts as [|a acts IH]; intros g s Hinv Hg; cbn in *.
  { injection Hg as <-. eauto. }
  destruct (extend max g a) as [g1|] eqn:Ha; [|done].
  destruct (inv_act _ _ _ _ Hinv Ha) as (s1 & -> & Hinv1). cbn [obind]. by apply (IH g1).
Qed.

(** Any sequence of calls that does not fault. *)
Lemma owned_serve acts g s s' : owned g s -> NoDup (announced acts) -> (forall c, c ∈ announced acts -> g !! c = None) -> serve max nc dr cl acts s = Ret s' -> owned (foldl follow g acts) s'.
Proof.
  revert g s. induction acts as [|a acts IH]; intros g s Ho Hnd Hnew H; cbn [serve foldl] in *; [by injection H as <-|]. apply obind_ret_inv in H as (s1 & H1 & H).
  assert (owned (follow g a) s1) as Ho1.
  { destruct a as [c e contents|c data|c data e|c e]; cbn [act] in H1; [injection H1 as <-; apply owned_connect; [done|]; apply Hnew; by left|by eapply owned_data|by eapply owned_receive|by eapply owned_close]. }
  assert (forall c, c ∈ announced acts -> (forall e ct, a <> Connect c e ct) -> g !! c = None -> follow g a !! c = None) as Hkeep.
  { intros c _ Ha Hc. destruct a as [c' e contents|c' data|c' data e|c' e]; cbn.
    - rewrite lookup_insert_ne; [done|]. intros ->. by eapply Ha.
    - destruct (g !! c') as [[]|] eqn:Hc'; try done. rewrite lookup_insert_ne; [done|]. congruence.
    - done.
    - destruct (g !! c') as [[]|] eqn:Hc'; try done; (rewrite lookup_insert_ne; [done|]; congruence). }
  apply (IH (follow g a) s1); [done| | |done].
  - destruct a; cbn in Hnd; [by apply NoDup_cons in Hnd as [_ ?]|done..].
  - intros c Hc. apply Hkeep; [done| |].
    + intros e ct ->. cbn in Hnd. by apply NoDup_cons in Hnd as [? _].
    + apply Hnew. destruct a; cbn; [by right|done..].
Qed.

(** ** Properties *)

(** A message server on a stream server: however connections, data and closings of any number
    of clients interleave, no callback dereferences a null or deleted wrapper, and each client's callbacks are, in
    order, its connection, the messages that its own bytes frame, and its closing. *)
Theorem connections_served_apart acts g :
  history_of max acts ∅ = Some g ->
  exists s, serve max nc dr cl acts GenericMessageOrientedServer = Ret s /\
    forall c, events_of c (log s) = match g !! c with Some p => expected p | None => [] end.
Proof.
  intros Hg. destruct (inv_serve acts ∅ _ g inv_empty Hg) as (s & Hs & Hinv).
  exists s. split; [done|]. apply Hinv.
Qed.

(** C6. Whatever the transport calls, with a client object of its own for each connection: as long as no callback faults, the wrappers alive are one for each connection that was announced and
    whose end was not reported, also, for ever, for those announced with an error, for which the transport calls nothing afterwards.  No callback faults if data and ends are
    reported only for connections that are open, each end once, and the data come without an error and have no malformed size in them. *)
Theorem wrappers_alive acts : NoDup (announced acts) ->
  (forall s, serve max nc dr cl acts GenericMessageOrientedServer = Ret s ->
    (forall w1 w2 x1 x2, wrappers s !! w1 = Some x1 -> wrappers s !! w2 = Some x2 -> m_client x1 = m_client x2 -> w1 = w2) /\
    forall c, (exists w x, wrappers s !! w = Some x /\ m_client x = c) <->
              match foldl follow ∅ acts !! c with Some p => has_wrapper p = true | None => False end) /\
  (forall g, history_of max acts ∅ = Some g -> exists s, serve max nc dr cl acts GenericMessageOrientedServer = Ret s).
Proof.
  intros Hnd. split.
  - intros s Hs. apply (owned_serve acts ∅ _ s owned_empty Hnd) in Hs as [H1 H2 H3]; [|intros c _; apply lookup_empty]. split.
    + intros w1 w2 x1 x2 Hx1 Hx2 Hc. apply H3 in Hx1 as [Hu1 _], Hx2 as [Hu2 _]. congruence.
    + intros c. split.
      * intros (w & x & Hx & <-). destruct (H3 _ _ Hx) as [Hu _]. destruct (H2 _ _ Hu) as [p Hp]. rewrite Hp.
        specialize (H1 _ _ Hp). destruct (has_wrapper p); [done|]. congruence.
      * destruct (_ !! c) as [p|] eqn:Hp; [|done]. intros Hw. specialize (H1 _ _ Hp). rewrite Hw in H1. destruct H1 as (w & x & _ & Hx & Hcl). by exists w, x.
  - intros g Hg. destruct (inv_serve acts ∅ _ g inv_empty Hg) as (s & Hs & _). by exists s.
Qed.

End Served.

(** With all callbacks set, a client that sent messages through the framing and was closed is seen
    as its connection, each of its messages once and in order, and its end. *)
Theorem messages_served max acts g c e sender cb ms e' :
  history_of max acts ∅ = Some g -> g !! c = Some (PClosed e (send_all sender cb ms) e') ->
  m_max_message_size sender <= VariableLengthSize.MAX_VALUE -> Forall (sendable (m_max_message_size sender)) ms ->
  exists s, serve max true true true acts GenericMessageOrientedServer = Ret s /\
    events_of c (log s) = NewConnection e :: map Message (flat_map (report max) ms) ++ [CloseConnection e'].
Proof.
  intros Hg Hc Hmax Hms. destruct (inv_serve max true true true acts ∅ _ g (inv_empty _ _ _ _) Hg) as (s & Hs & Hinv).
  exists s. split; [done|]. rewrite (inv_log _ _ _ _ _ _ Hinv), Hc. cbn [expected opt app].
  rewrite send_all_frames by done. rewrite frames_fold; [done|].
  eapply Forall_impl; [exact Hms|]. intros m [Hb Hl]. split; [done|lia].
Qed.


Definition ok : Error := Error_of_status OK.

(** Two clients whose data interleave, and a third that could not be accepted. *)
Definition sample : list action :=
  [Connect 0 ok [0; 0; 0; 0]; Connect 1 ok [9; 9; 9; 9]; Data 0 [2; 10]; Data 1 [1]; Data 0 [20; 5; 1; 2];
   Connect 2 (Error_of_status CONNECTION_REFUSED) [0; 0; 0; 0]; Data 1 [7]; Data 0 [3; 4; 5; 1; 9]; Close 0 ok].

Definition sample_history : history :=
  {[0%nat := PClosed ok [2; 10; 20; 5; 1; 2; 3; 4; 5; 1; 9] ok; 1%nat := POpen ok [1; 7];
    2%nat := PFailed (Error_of_status CONNECTION_REFUSED)]}.

Lemma sample_run : history_of 4 sample ∅ = Some sample_history.
Proof. by vm_compute. Qed.

Lemma connections_served_apart_witness :
  exists s, serve 4 true true true sample GenericMessageOrientedServer = Ret s /\
    forall c, events_of c (log s) = match sample_history !! c with Some p => expected 4 true true true p | None => [] end.
Proof. exact (connections_served_apart 4 true true true sample sample_history sample_run). Defined.

Lemma wrappers_alive_witness : exists s, serve 4 true true true sample GenericMessageOrientedServer = Ret s /\
  (exists w x, wrappers s !! w = Some x /\ m_client x = 2%nat) /\ ~ (exists w x, wrappers s !! w = Some x /\ m_client x = 0%nat).
Proof.
  assert (NoDup (announced sample)) as Hnd by (apply (bool_decide_unpack _); vm_compute; exact I).
  destruct (wrappers_alive 4 true true true sample Hnd) as [H1 H2]. destruct (H2 sample_history sample_run) as [s Hs]. exists s. destruct (H1 s Hs) as [_ H3]. split; [exact Hs|]. split.
  - apply H3. vm_compute. reflexivity.
  - intros H. apply H3 in H. vm_compute in H. discriminate.
Defined.

Lemma messages_served_witness :
  exists s, serve 4 true true true sample GenericMessageOrientedServer = Ret s /\
    events_of 0 (log s) = NewConnection ok :: map Message [Received (Some [10; 20]) 2 OK; Received None 5 MESSAGE_TOO_LONG;
      Received (Some [9]) 1 OK] ++ [CloseConnection ok].
Proof.
  refine (messages_served 4 sample sample_history 0 ok (create 100 []) true [[10; 20]; [1; 2; 3; 4; 5]; [9]] ok sample_run _ _ _).
  - by vm_compute.
  - vm_compute; discriminate.
  - repeat constructor; simpl; lia.
Defined.

(** Data for a client that was never announced, or after its end, dereferences a null pointer; so
    does the end of such a client when there is a close callback. *)
Example unannounced_client_faults :
  on_data true 0 [1] ok GenericMessageOrientedServer = Fault NullDeref /\
  on_close true 0 ok GenericMessageOrientedServer = Fault NullDeref /\
  on_close false 0 ok GenericMessageOrientedServer = Ret GenericMessageOrientedServer.
Proof. split_and!; reflexivity. Qed.

(** ** The client *)

Inductive client_event := Connected (error : Error) | ClientMessage (ev : ReceiveEvent) | Closed (error : Error).

(** What the transport's client calls, over any number of connections. *)
Inductive client_action := CConnected (error : Error) | CData (data : list Z) | CClosed (error : Error).

Section Client.

(** Which callbacks the user passed to [connect]. *)
Context (connect_callback receive_callback close_callback : bool).

(** The three callbacks that [connect] hands to the transport's client. *)
Definition client_act (a : client_action) (f : Framing.t) : outcome (Framing.t * list client_event) :=
  match a with
  | CConnected e => Ret (f, if connect_callback then [Connected e] else [])
  | CData data =>
      let* (f, evs) := on_data_receive receive_callback data f (Error_of_status OK) in
      Ret (f, map ClientMessage evs)
  | CClosed e => Ret (f, if close_callback then [Closed e] else [])
  end.

Fixpoint client_run (acts : list client_action) (f : Framing.t) : outcome (Framing.t * list client_event) :=
  match acts with
  | [] => Ret (f, [])
  | a :: acts =>
      let* (f, evs) := client_act a f in
      let* (f, evs') := client_run acts f in
      Ret (f, evs ++ evs')
  end.

(** The data of all connections, one after the other. *)
Definition all_data (acts : list client_action) : list Z :=
  flat_map (fun a => match a with CData data => data | _ => [] end) acts.

Definition messages (evs : list client_event) : list ReceiveEvent :=
  flat_map (fun ev => match ev with ClientMessage m => [m] | _ => [] end) evs.

Lemma messages_app xs ys : messages (xs ++ ys) = messages xs ++ messages ys.
Proof. apply flat_map_app. Qed.

Lemma messages_map evs : messages (map ClientMessage evs) = evs.
Proof. induction evs as [|ev evs IH]; cbn; [done|]. by f_equal. Qed.

Lemma client_run_stream max acts f a :
  rel max a f -> Forall byte_ok (all_data acts) -> (spec_bytes max a (all_data acts)).1 <> Dead ->
  exists f' evs, client_run acts f = Ret (f', evs) /\ rel max (spec_bytes max a (all_data acts)).1 f' /\
    messages evs = opt receive_callback (spec_bytes max a (all_data acts)).2.
Proof.
  revert f a. induction acts as [|b acts IH]; intros f a Hrel Hb Hnd.
  { exists f, []. split_and!; [done|done|]. by destruct receive_callback. }
  cbn [all_data flat_map] in Hb, Hnd. apply Forall_app in Hb as [Hb1 Hb2].
  assert (exists f1 evs1, client_act b f = Ret (f1, evs1) /\
    rel max (spec_bytes max a (match b with CData data => data | _ => [] end)).1 f1 /\
    messages evs1 = opt receive_callback (spec_bytes max a (match b with CData data => data | _ => [] end)).2)
    as (f1 & evs1 & H1 & Hrel1 & Hm1).
  { destruct b as [e|data|e]; cbn [client_act spec_bytes fst snd].
    1,3: eexists _, _; split_and!; [done|done|]; by destruct connect_callback, receive_callback, close_callback.
    destruct (on_data_receive_loop receive_callback data f a max Hb1 Hrel) as (f1 & Hf & Hrel1).
    { intros E. apply Hnd. by rewrite spec_bytes_app, E, spec_bytes_dead. }
    rewrite Hf. cbn [obind]. eexists _, _. split_and!; [done|done|]. by rewrite messages_map. }
  rewrite spec_bytes_app in Hnd. cbn [fst] in Hnd.
  destruct (IH f1 _ Hrel1 Hb2 Hnd) as (f2 & evs2 & H2 & Hrel2 & Hm2).
  cbn [client_run]. rewrite H1. cbn [obind]. rewrite H2. cbn [obind]. eexists _, _. split; [done|].
  cbn [all_data flat_map]. rewrite spec_bytes_app. cbn [fst snd]. split; [done|].
  rewrite messages_app, Hm1, Hm2. unfold opt. by destruct receive_callback.
Qed.

(** A message-oriented client reads one stream through all of its connections: what it
    delivers is what the bytes of all connections, joined, frame.  Nothing is reset when a connection
    ends or the next one begins, so after a connection that ended inside a message the next one is misread. *)
Theorem client_joins_connections max contents acts :
  Z.of_nat (length contents) = max -> Forall byte_ok (all_data acts) ->
  (spec_bytes max (Header []) (all_data acts)).1 <> Dead ->
  exists f evs, client_run acts (create max contents) = Ret (f, evs) /\
    messages evs = opt receive_callback (spec_bytes max (Header []) (all_data acts)).2.
Proof.
  intros Hlen Hb Hnd.
  destruct (client_run_stream max acts _ _ (rel_create max contents Hlen) Hb Hnd) as (f & evs & H1 & _ & H2). eauto.
Qed.

End Client.

(** A connection that ends after two of three bytes; the message [7] of the next one is lost, and the rest is
    out of step. *)
Definition cut_short : list client_action :=
  [CConnected ok; CData [3; 1; 2]; CClosed ok; CConnected ok; CData [1; 7; 1; 8]].

Lemma client_joins_connections_witness :
  exists f evs, client_run true true true cut_short (create 4 [0; 0; 0; 0]) = Ret (f, evs) /\
    messages evs = [Received (Some [1; 2; 1]) 3 OK; Received None 7 MESSAGE_TOO_LONG].
Proof.
  refine (client_joins_connections true true true 4 [0; 0; 0; 0] cut_short eq_refl _ _).
  - repeat constructor; lia.
  - vm_compute. discriminate.
Defined.

End MessageServer.
