(* ===== verification/Utf8Codecvt.v ===== *)
(** * utf8_codecvt_facet

    [source/io/fs/path_impl/Utf8CodecvtFacet.h] and [.cpp]: the conversion facet between
    UTF-8 and [wchar_t], used by [fs::Path] on the platforms whose file names are UTF-8.

    A range [[from, from_end)] is a list; the position returned in [from_next] is a number
    of consumed elements, the range [[to, to_next)] is the list of elements produced, and the
    room [to_end - to] is a natural number.  [wchar_t] is the signed 32-bit type of the
    platforms the facet is compiled for; a [char] is seen as its [unsigned char] value, as
    the code itself does. *)

From S2P Require Import Prelude.
Local Open Scope outcome_scope.

Module Utf8.

Inductive codecvt_result := codecvt_ok | codecvt_partial | codecvt_error.

Definition invalid_continuing_octet (octet_1 : Z) : bool := (octet_1 <? 0x80) || (0xbf <? octet_1).

Definition invalid_leading_octet (octet_1 : Z) : bool :=
  ((0x7f <? octet_1) && (octet_1 <? 0xc0)) || (0xfd <? octet_1).

Definition get_octet_count (lead_octet : Z) : Z :=
  if lead_octet <=? 0x7f then 1
  else if (0xc0 <=? lead_octet) && (lead_octet <=? 0xdf) then 2
  else if (0xe0 <=? lead_octet) && (lead_octet <=? 0xef) then 3
  else if (0xf0 <=? lead_octet) && (lead_octet <=? 0xf7) then 4
  else if (0xf8 <=? lead_octet) && (lead_octet <=? 0xfb) then 5
  else 6.

Definition get_cont_octet_count (lead_octet : Z) : Z := get_octet_count lead_octet - 1.

Definition octet1_modifier_table : list Z := [0x00; 0xc0; 0xe0; 0xf0; 0xf8; 0xfc].

(** [get_cont_octet_out_count_impl<4>]. *)
Definition get_cont_octet_out_count (word : Z) : Z :=
  if word <? 0x80 then 0
  else if word <? 0x800 then 1
  else if word <? 0x10000 then 2
  else if word <? 0x200000 then 3
  else if word <? 0x4000000 then 4
  else 5.

(** ** do_in *)

(** The inner loop over the continuing octets: [todo] of them are missing, [i] are done.
    [inl] is an invalid octet, with the position it is at; [inr] gives the number of octets
    read, the accumulated value and what is left of the input. *)
Fixpoint do_in_cont (todo : nat) (from : list Z) (i ucs_result : Z) : Z + (Z * Z * list Z) :=
  match todo, from with
  | S todo, b :: rest =>
      if invalid_continuing_octet b then inl i
      else do_in_cont todo rest (i + 1) (ucs_result * 2 ^ 6 + (b - 0x80))
  | _, _ => inr (i, ucs_result, from)
  end.

(** The outer loop.  [pos] is the number of octets consumed so far; every iteration
    produces one element, so the room is the recursion argument. *)
Fixpoint do_in_loop (from : list Z) (room : nat) (pos : Z) (out : list Z)
    : codecvt_result * Z * list Z :=
  match from, room with
  | [], _ => (codecvt_ok, pos, out)
  | _, O => (codecvt_partial, pos, out)
  | lead :: rest, S room =>
      if invalid_leading_octet lead then (codecvt_error, pos, out)
      else
        let cont_octet_count := get_cont_octet_count lead in
        let ucs := lead - nth (Z.to_nat cont_octet_count) octet1_modifier_table 0 in
        match do_in_cont (Z.to_nat cont_octet_count) rest 0 ucs with
        | inl i => (codecvt_error, pos + 1 + i, out)
        | inr (i, ucs_result, rest') =>
            if bool_decide (rest' = []) && negb (i =? cont_octet_count)
            then (codecvt_partial, pos + 1 + i - (i + 1), out)
            else do_in_loop rest' room (pos + 1 + i) (out ++ [ucs_result])
        end
  end.

Definition do_in (from : list Z) (room : nat) : codecvt_result * Z * list Z :=
  do_in_loop from room 0 [].

(** ** do_out *)

(** The continuing octets, while there is room: those written, how many, the room left. *)
Fixpoint do_out_cont (word : Z) (todo : nat) (room : nat) (shift_exponent i : Z) (out : list Z)
    : list Z * Z * nat :=
  match todo, room with
  | S todo, S room =>
      let shift_exponent := shift_exponent - 6 in
      let octet := wrap 8 (0x80 + Z.rem (Z.quot word (2 ^ shift_exponent)) (2 ^ 6)) in
      do_out_cont word todo room shift_exponent (i + 1) (out ++ [octet])
  | _, _ => (out, i, room)
  end.

Definition max_wchar : Z := 2 ^ 31 - 1.

Fixpoint do_out_loop (from : list Z) (room : nat) (pos : Z) (out : list Z)
    : codecvt_result * Z * list Z :=
  match from, room with
  | [], _ => (codecvt_ok, pos, out)
  | _, O => (codecvt_partial, pos, out)
  | word :: rest, S room =>
      if max_wchar <? word then (codecvt_error, pos, out)
      else
        let cont_octet_count := get_cont_octet_out_count word in
        let shift_exponent := cont_octet_count * 6 in
        let octet1 := wrap 8 (nth (Z.to_nat cont_octet_count) octet1_modifier_table 0
                              + wrap 8 (Z.quot word (2 ^ shift_exponent))) in
        let '(out', i, room') :=
          do_out_cont word (Z.to_nat cont_octet_count) room shift_exponent 0 (out ++ [octet1]) in
        if (room' =? 0)%nat && negb (i =? cont_octet_count)
        then (codecvt_partial, pos, take (length out' - Z.to_nat (i + 1)) out')
        else do_out_loop rest room' (pos + 1) out'
  end.

Definition do_out (from : list Z) (room : nat) : codecvt_result * Z * list Z :=
  do_out_loop from room 0 [].

(** ** do_length *)

(** [while (from_next+last_octet_count <= from_end && char_count <= max_limit)]; reading
    [*from_next] at the end of the buffer is out of bounds.  Every iteration after the first
    advances, so the length of the buffer plus two bounds the iterations. *)
Fixpoint do_length_loop (fuel : nat) (buf : list Z) (from_next last_octet_count char_count max_limit : Z)
    : outcome Z :=
  match fuel with
  | O => Fault FuelExhausted
  | S fuel =>
      if (from_next + last_octet_count <=? Z.of_nat (length buf)) && (char_count <=? max_limit)
      then
        let from_next := from_next + last_octet_count in
        match buf !! Z.to_nat from_next with
        | None => Fault OutOfBounds
        | Some lead => do_length_loop fuel buf from_next (get_octet_count lead) (char_count + 1) max_limit
        end
      else Ret from_next
  end.

Definition do_length (buf : list Z) (max_limit : Z) : outcome Z :=
  do_length_loop (length buf + 3) buf 0 0 0 max_limit.

Definition do_max_length : Z := 6.

(** ** The encoding, one character at a time *)

Fixpoint conts (n : nat) (w : Z) : list Z :=
  match n with
  | O => []
  | S n => (0x80 + (w / 2 ^ (6 * Z.of_nat n)) mod 2 ^ 6) :: conts n w
  end.

Definition encode_char (w : Z) : list Z :=
  let n := Z.to_nat (get_cont_octet_out_count w) in
  (nth n octet1_modifier_table 0 + w / 2 ^ (6 * Z.of_nat n)) :: conts n w.

Definition wchar_ok (w : Z) : Prop := 0 <= w <= max_wchar.

(** ** Lead octets *)

Lemma div_range w k q : 0 < k -> 0 <= w < k * q -> 0 <= w / k < q.
Proof.
  intros Hk Hw. split; [apply Z.div_pos; lia|]. apply Z.div_lt_upper_bound; lia.
Qed.

(** What a lead octet announces, for [n] continuing octets and high bits [hi]. *)
Definition lead_ok (n hi : Z) : Prop :=
  let lead := nth (Z.to_nat n) octet1_modifier_table 0 + hi in
  0 <= lead < 256 /\ invalid_leading_octet lead = false /\
  get_cont_octet_count lead = n /\ get_octet_count lead = n + 1.

(** The number of lead octets of each length. *)
Definition lead_room : list Z := [0x80; 0x20; 0x10; 0x8; 0x4; 0x2].

Lemma lead_ok_range n hi : 0 <= n <= 5 -> 0 <= hi < nth (Z.to_nat n) lead_room 0 -> lead_ok n hi.
Proof.
  intros Hn Hhi.
  assert (Forall (fun n => Forall (lead_ok n) (seqZ 0 (nth (Z.to_nat n) lead_room 0))) (seqZ 0 6)) as H.
  { unfold lead_ok. refine (bool_decide_unpack _ _). vm_compute. exact I. }
  rewrite Forall_forall in H. specialize (H n ltac:(apply elem_of_seqZ; lia)).
  rewrite Forall_forall in H. apply H, elem_of_seqZ. lia.
Qed.

(** The lead octet of a character announces the number of octets that follow and carries
    the high bits. *)
Lemma lead_spec w :
  wchar_ok w ->
  let n := get_cont_octet_out_count w in
  let hi := w / 2 ^ (6 * n) in
  let lead := nth (Z.to_nat n) octet1_modifier_table 0 + hi in
  0 <= n <= 5 /\ 0 <= hi < 128 /\ 0 <= lead < 256 /\ invalid_leading_octet lead = false /\
  get_cont_octet_count lead = n /\ get_octet_count lead = n + 1.
Proof.
  intros Hw. unfold wchar_ok, max_wchar in Hw. cbn zeta.
  assert (0 <= get_cont_octet_out_count w <= 5 /\
    0 <= w / 2 ^ (6 * get_cont_octet_out_count w)
      < nth (Z.to_nat (get_cont_octet_out_count w)) lead_room 0) as [Hn Hhi].
  { unfold get_cont_octet_out_count. repeat case_match; rewrite ?Z.ltb_lt, ?Z.ltb_ge in *;
      (split; [lia|]); apply div_range; simpl; lia. }
  destruct (lead_ok_range _ _ Hn Hhi) as (H1 & H2 & H3 & H4).
  split_and!; try done; try lia. eapply Z.lt_le_trans; [apply Hhi|].
  revert Hn. generalize (get_cont_octet_out_count w). intros n Hn.
  assert (n = 0 \/ n = 1 \/ n = 2 \/ n = 3 \/ n = 4 \/ n = 5) as Hc by lia.
  by destruct Hc as [->|[->|[->|[->|[->| ->]]]]].
Qed.

Lemma length_conts n w : length (conts n w) = n.
Proof. induction n; simpl; congruence. Qed.

Lemma pow64_S n : 2 ^ (6 * Z.of_nat (S n)) = 2 ^ (6 * Z.of_nat n) * 2 ^ 6.
Proof. rewrite <- Z.pow_add_r by lia. f_equal. lia. Qed.

(** Reading back the continuing octets restores the low bits. *)
Lemma do_in_cont_conts n w rest i acc :
  do_in_cont n (conts n w ++ rest) i acc =
    inr (i + Z.of_nat n, acc * 2 ^ (6 * Z.of_nat n) + w mod 2 ^ (6 * Z.of_nat n), rest).
Proof.
  revert i acc. induction n as [|n IH]; intros i acc.
  { simpl. rewrite Z.mod_1_r. destruct rest; f_equal; f_equal; f_equal; lia. }
  cbn [conts app do_in_cont]. pose proof (Z.mod_pos_bound (w / 2 ^ (6 * Z.of_nat n)) (2 ^ 6)).
  assert (invalid_continuing_octet (0x80 + (w / 2 ^ (6 * Z.of_nat n)) mod 2 ^ 6) = false) as ->.
  { unfold invalid_continuing_octet. rewrite (proj2 (Z.ltb_ge _ 0x80)), (proj2 (Z.ltb_ge 0xbf _)) by lia. done. }
  rewrite IH, pow64_S, Z.rem_mul_r by lia. f_equal. f_equal. f_equal; lia.
Qed.

(** ** One character in, one character out *)

Lemma encode_char_length w : wchar_ok w ->
  Z.of_nat (length (encode_char w)) = get_cont_octet_out_count w + 1.
Proof.
  intros Hw. destruct (lead_spec w Hw) as (Hn & _). unfold encode_char. cbn [length].
  rewrite length_conts. lia.
Qed.

Lemma do_in_loop_char w rest room pos out :
  wchar_ok w ->
  do_in_loop (encode_char w ++ rest) (S room) pos out =
    do_in_loop rest room (pos + Z.of_nat (length (encode_char w))) (out ++ [w]).
Proof.
  intros Hw. pose proof (encode_char_length w Hw) as Hlen.
  destruct (lead_spec w Hw) as (Hn & Hhi & Hb & Hinv & Hcnt & _).
  unfold encode_char in *. cbn zeta in *. cbn [app do_in_loop].
  rewrite Z2Nat.id in * by lia. rewrite Hinv, Hcnt, do_in_cont_conts, Z2Nat.id by lia.
  rewrite Z.add_0_l, Z.eqb_refl, andb_false_r. f_equal; [lia|].
  rewrite Z.add_simpl_l, (Z.mul_comm (w / _)). by rewrite <- Z.div_mod by lia.
Qed.

Lemma do_out_cont_room word n room sh i out :
  0 <= word -> sh = 6 * Z.of_nat n -> (n <= room)%nat ->
  do_out_cont word n room sh i out = (out ++ conts n word, i + Z.of_nat n, (room - n)%nat).
Proof.
  intros Hw. revert room sh i out. induction n as [|n IH]; intros room sh i out -> Hr.
  { simpl. rewrite app_nil_r. destruct room; f_equal; try lia; f_equal; lia. }
  destruct room as [|room]; [lia|]. cbn [do_out_cont conts].
  replace (6 * Z.of_nat (S n) - 6) with (6 * Z.of_nat n) by lia.
  rewrite IH by lia. rewrite <- app_assoc. cbn [app].
  pose proof (Z.div_pos word (2 ^ (6 * Z.of_nat n))).
  rewrite Z.quot_div_nonneg, Z.rem_mod_nonneg by lia.
  pose proof (Z.mod_pos_bound (word / 2 ^ (6 * Z.of_nat n)) (2 ^ 6)).
  rewrite wrap_small by (unfold fits; lia). f_equal; f_equal; lia.
Qed.

Lemma do_out_cont_short word n room sh i out :
  (room < n)%nat ->
  exists tail, do_out_cont word n room sh i out = (out ++ tail, i + Z.of_nat room, 0%nat) /\
    length tail = room.
Proof.
  revert n sh i out. induction room as [|room IH]; intros [|n] sh i out Hr; try lia.
  { exists []. simpl. rewrite app_nil_r. split; [f_equal; f_equal; lia|done]. }
  cbn [do_out_cont]. destruct (IH n (sh - 6) (i + 1)
    (out ++ [wrap 8 (0x80 + Z.rem (Z.quot word (2 ^ (sh - 6))) (2 ^ 6))])) as (tail & -> & Hl); [lia|].
  eexists (_ :: tail). rewrite <- app_assoc. split; [f_equal; f_equal; lia|simpl; lia].
Qed.

Lemma do_out_loop_char w rest room pos out :
  wchar_ok w -> (length (encode_char w) <= room)%nat ->
  do_out_loop (w :: rest) room pos out =
    do_out_loop rest (room - length (encode_char w)) (pos + 1) (out ++ encode_char w).
Proof.
  intros Hw Hr. pose proof (encode_char_length w Hw) as Hlen.
  destruct (lead_spec w Hw) as (Hn & Hhi & Hb & _). unfold wchar_ok, max_wchar in Hw.
  unfold encode_char in *. cbn zeta in *. cbn [length] in *. rewrite length_conts in *.
  destruct room as [|room]; [lia|]. cbn [do_out_loop].
  unfold max_wchar. rewrite (proj2 (Z.ltb_ge _ w)) by lia.
  rewrite Z2Nat.id in * by lia. set (n := get_cont_octet_out_count w) in *.
  rewrite (Z.mul_comm n 6), Z.quot_div_nonneg by lia.
  rewrite (wrap_small 8 (w / _)) by (unfold fits; lia).
  rewrite (wrap_small 8 (_ + _)) by (unfold fits; lia).
  rewrite do_out_cont_room by lia. rewrite Z.add_0_l, Z2Nat.id, Z.eqb_refl, andb_false_r by lia.
  rewrite <- app_assoc. done.
Qed.

Lemma do_out_loop_full w rest room pos out :
  wchar_ok w -> (room < length (encode_char w))%nat ->
  do_out_loop (w :: rest) room pos out = (codecvt_partial, pos, out).
Proof.
  intros Hw Hr. pose proof (encode_char_length w Hw) as Hlen.
  destruct (lead_spec w Hw) as (Hn & _). unfold wchar_ok, max_wchar in Hw.
  destruct room as [|room]; [done|]. cbn [do_out_loop].
  unfold max_wchar. rewrite (proj2 (Z.ltb_ge _ w)) by lia.
  set (n := get_cont_octet_out_count w) in *.
  match goal with |- context [do_out_cont w ?a ?b ?c ?d ?e] =>
    destruct (do_out_cont_short w a b c d e) as (tail & -> & Hl); [lia|] end.
  rewrite (proj2 (Z.eqb_neq _ n)) by lia. cbn [Nat.eqb negb andb]. f_equal.
  rewrite !length_app. cbn [length]. rewrite <- app_assoc.
  replace (length out + 1 + length tail - Z.to_nat (0 + Z.of_nat room + 1))%nat with (length out) by lia.
  apply take_app_length.
Qed.

(** ** Accumulators and suffixes *)

Lemma do_in_loop_acc from room pos out :
  do_in_loop from room pos out =
    let '(r, k, o) := do_in from room in (r, pos + k, out ++ o).
Proof.
  unfold do_in. revert from pos out.
  assert (forall n from pos out, do_in_loop from n pos out =
    let '(r, k, o) := do_in_loop from n 0 [] in (r, pos + k, out ++ o)) as H; [|intros; apply H].
  induction n as [|n IH]; intros [|lead rest] pos out; cbn [do_in_loop];
    try (rewrite Z.add_0_r, app_nil_r; done).
  destruct (invalid_leading_octet lead); [by rewrite Z.add_0_r, app_nil_r|].
  destruct (do_in_cont _ _ _ _) as [i|[[i u] rest']]; [rewrite app_nil_r; f_equal; f_equal; lia|].
  destruct (_ && _); [rewrite app_nil_r; f_equal; f_equal; lia|].
  rewrite (IH _ (pos + 1 + i)), (IH _ (0 + 1 + i)).
  destruct (do_in_loop rest' n 0 []) as [[r k] o]. rewrite <- app_assoc. f_equal. f_equal. lia.
Qed.

Lemma do_in_cont_app n from i acc i' u rest' ys :
  do_in_cont n from i acc = inr (i', u, rest') ->
  0 <= i' - i <= Z.of_nat n /\ from = take (Z.to_nat (i' - i)) from ++ rest' /\
  Z.of_nat (length from) = i' - i + Z.of_nat (length rest') /\
  (rest' <> [] -> i' = i + Z.of_nat n) /\
  (i' = i + Z.of_nat n -> do_in_cont n (from ++ ys) i acc = inr (i', u, rest' ++ ys)).
Proof.
  revert from i acc. induction n as [|n IH]; intros from i acc H.
  { destruct from as [|b from]; simpl in H; injection H as <- <- <-; rewrite Z.sub_diag;
      (split_and!; [lia|lia|done|simpl; lia|lia|]); intros _; [by destruct ys|done]. }
  destruct from as [|b from]; simpl in H.
  { injection H as <- <- <-. rewrite Z.sub_diag. split_and!; try done; lia. }
  destruct (invalid_continuing_octet b) eqn:Eb; [done|].
  destruct (IH _ _ _ H) as (H1 & H2 & H3 & H4 & H5). split_and!; [lia|lia| | | |].
  - replace (Z.to_nat (i' - i)) with (S (Z.to_nat (i' - (i + 1)))) by lia. simpl. by f_equal.
  - simpl. lia.
  - intros Hr. specialize (H4 Hr). lia.
  - intros Hi. simpl. rewrite Eb. apply H5. lia.
Qed.

(** ** Counting characters *)

Lemma do_length_loop_spec ws fuel pre from_next last c max_limit :
  Forall wchar_ok ws -> (length ws + 2 <= fuel)%nat ->
  0 <= from_next -> 0 <= last -> from_next + last = Z.of_nat (length pre) -> c <= max_limit ->
  do_length_loop fuel (pre ++ flat_map encode_char ws) from_next last c max_limit =
    if decide (max_limit - c < Z.of_nat (length ws))
    then Ret (Z.of_nat (length (pre ++ flat_map encode_char (take (Z.to_nat (max_limit - c)) ws))))
    else Fault OutOfBounds.
Proof.
  intros Hws. revert fuel pre from_next last c.
  induction Hws as [|w ws Hw _ IH]; intros fuel pre from_next last c Hfuel Hf Hl Hpre Hc.
  all: destruct fuel as [|fuel]; [lia|]; cbn [do_length_loop].
  all: rewrite (proj2 (Z.leb_le (from_next + last) _)), (proj2 (Z.leb_le c _)) by (rewrite ?length_app; lia).
  all: rewrite Hpre, Nat2Z.id; cbn [andb].
  { cbn [flat_map length]. rewrite app_nil_r, lookup_ge_None_2 by lia. by rewrite decide_False by lia. }
  pose proof (encode_char_length w Hw) as Hlen. destruct (lead_spec w Hw) as (Hn & _ & _ & _ & _ & Hoct).
  rewrite ?Z2Nat.id in * by lia.
  assert ((pre ++ flat_map encode_char (w :: ws)) !! length pre =
    Some (nth (Z.to_nat (get_cont_octet_out_count w)) octet1_modifier_table 0
          + w / 2 ^ (6 * get_cont_octet_out_count w))) as ->.
  { rewrite lookup_app_r, Nat.sub_diag by lia. unfold encode_char. cbn [flat_map app]. simpl.
    rewrite Z2Nat.id by lia. done. }
  rewrite Hoct. destruct (decide (c = max_limit)) as [->|Hne].
  - destruct fuel as [|fuel]; [simpl in Hfuel; lia|]. cbn [do_length_loop length] in *.
    rewrite (proj2 (Z.leb_gt (max_limit + 1) _)), andb_false_r by lia.
    rewrite decide_True by lia. rewrite Z.sub_diag. cbn. by rewrite app_nil_r.
  - specialize (IH fuel (pre ++ encode_char w) (Z.of_nat (length pre)) (get_cont_octet_out_count w + 1) (c + 1)).
    rewrite <- app_assoc in IH. cbn [flat_map length] in *. rewrite IH by (rewrite ?length_app; lia).
    replace (Z.to_nat (max_limit - c)) with (S (Z.to_nat (max_limit - (c + 1)))) by lia.
    cbn [take flat_map]. rewrite <- app_assoc.
    destruct (decide (_ < Z.of_nat (length ws))), (decide (_ < Z.of_nat (S _))); (done || lia).
Qed.

(** More room makes no difference to a conversion that had enough. *)
Lemma do_in_loop_more_room from room room' pos out r k o :
  do_in_loop from room pos out = (r, k, o) -> r = codecvt_ok -> (room <= room')%nat ->
  do_in_loop from room' pos out = (r, k, o).
Proof.
  revert from room' pos out. induction room as [|room IH]; intros [|lead rest] room' pos out Hrun Hr Hle;
    [by destruct room'|by injection Hrun as <- _ _|by destruct room'|].
  destruct room' as [|room']; [lia|]. cbn [do_in_loop] in *.
  destruct (invalid_leading_octet lead); [done|].
  destruct (do_in_cont _ rest _ _) as [i|[[i u] rest']]; [done|].
  destruct (_ && _); [done|]. apply IH; [done|done|lia].
Qed.

Lemma do_in_more_room from room room' :
  (room <= room')%nat -> (do_in from room).1.1 = codecvt_ok -> do_in from room' = do_in from room.
Proof.
  intros Hle Hok. unfold do_in in *. destruct (do_in_loop from room 0 []) as [[r k] o] eqn:E.
  by apply (do_in_loop_more_room from room).
Qed.

(** ** Properties *)

(** Round trip: for every text of non-negative 31-bit characters, converting it out
    (with room for the result) and back in consumes everything, reports [ok] both times and
    yields the same text. *)
Theorem do_in_do_out ws room :
  Forall wchar_ok ws -> (length (flat_map encode_char ws) <= room)%nat ->
  do_out ws room = (codecvt_ok, Z.of_nat (length ws), flat_map encode_char ws) /\
  do_in (flat_map encode_char ws) (length ws) =
    (codecvt_ok, Z.of_nat (length (flat_map encode_char ws)), ws).
Proof.
  intros Hws Hroom. unfold do_out, do_in. split.
  - enough (forall ws room pos out, Forall wchar_ok ws -> (length (flat_map encode_char ws) <= room)%nat ->
      do_out_loop ws room pos out = (codecvt_ok, pos + Z.of_nat (length ws), out ++ flat_map encode_char ws))
      as H by (by apply H). clear.
    induction ws as [|w ws IH]; intros room pos out Hws Hroom.
    { rewrite Z.add_0_r, app_nil_r. by destruct room. }
    apply Forall_cons in Hws as [Hw Hws]. cbn [flat_map] in *. rewrite length_app in Hroom.
    rewrite do_out_loop_char by (done || lia). rewrite IH by (done || lia).
    rewrite <- app_assoc. cbn [length]. f_equal. f_equal. lia.
  - enough (forall ws pos out, Forall wchar_ok ws ->
      do_in_loop (flat_map encode_char ws) (length ws) pos out =
      (codecvt_ok, pos + Z.of_nat (length (flat_map encode_char ws)), out ++ ws))
      as H by (by apply H). clear.
    induction ws as [|w ws IH]; intros pos out Hws.
    { by rewrite Z.add_0_r, app_nil_r. }
    apply Forall_cons in Hws as [Hw Hws]. cbn [flat_map length].
    rewrite do_in_loop_char, IH by done. rewrite length_app, <- app_assoc. f_equal. f_equal. lia.
Qed.

Lemma do_in_do_out_witness :
  do_out [0x41; 0x20ac; 0x1F600] 8 = (codecvt_ok, 3, [65; 226; 130; 172; 240; 159; 152; 128]) /\
  do_in [65; 226; 130; 172; 240; 159; 152; 128] 3 = (codecvt_ok, 8, [0x41; 0x20ac; 0x1F600]).
Proof.
  refine (do_in_do_out [0x41; 0x20ac; 0x1F600] 8 _ _); [|vm_compute; lia].
  repeat constructor; vm_compute; discriminate.
Defined.

(** Converting out never splits a character: what [do_out] produces is the encoding of
    the longest prefix of the text that fits in the room, and it reports [partial] exactly
    when some character was left out. *)
Theorem do_out_longest_prefix ws room :
  Forall wchar_ok ws ->
  exists pre suf, ws = pre ++ suf /\
    (length (flat_map encode_char pre) <= room)%nat /\
    match suf with
    | [] => do_out ws room = (codecvt_ok, Z.of_nat (length pre), flat_map encode_char pre)
    | w :: _ =>
        do_out ws room = (codecvt_partial, Z.of_nat (length pre), flat_map encode_char pre) /\
        (room < length (flat_map encode_char pre) + length (encode_char w))%nat
    end.
Proof.
  unfold do_out. intros Hws.
  enough (forall pos out, exists pre suf, ws = pre ++ suf /\
    (length (flat_map encode_char pre) <= room)%nat /\
    match suf with
    | [] => do_out_loop ws room pos out =
        (codecvt_ok, pos + Z.of_nat (length pre), out ++ flat_map encode_char pre)
    | w :: _ => do_out_loop ws room pos out =
        (codecvt_partial, pos + Z.of_nat (length pre), out ++ flat_map encode_char pre) /\
        (room < length (flat_map encode_char pre) + length (encode_char w))%nat
    end) as H by (exact (H 0 [])).
  revert room. induction Hws as [|w ws Hw Hws IH]; intros room pos out.
  { exists [], []. cbn [length flat_map Z.of_nat app]. rewrite Z.add_0_r, app_nil_r.
    split_and!; [done|lia|by destruct room]. }
  destruct (decide (length (encode_char w) <= room)%nat) as [Hf|Hf].
  - destruct (IH (room - length (encode_char w))%nat (pos + 1) (out ++ encode_char w))
      as (pre & suf & -> & Hl & Hsuf).
    exists (w :: pre), suf. cbn [flat_map length app]. rewrite length_app.
    rewrite do_out_loop_char by done. rewrite <- app_assoc in Hsuf.
    replace (pos + Z.of_nat (S (length pre))) with (pos + 1 + Z.of_nat (length pre)) by lia.
    split_and!; [done|lia|]. destruct suf; [done|]. split; [tauto|lia].
  - exists [], (w :: ws). cbn [flat_map length app Z.of_nat]. rewrite do_out_loop_full by (done || lia).
    rewrite Z.add_0_r, app_nil_r. split_and!; [done|lia|done|lia].
Qed.

Lemma do_out_longest_prefix_witness :
  exists pre suf, [0x41; 0x20ac; 0x42] = pre ++ suf /\
    (length (flat_map encode_char pre) <= 3)%nat /\
    match suf with
    | [] => do_out [0x41; 0x20ac; 0x42] 3 = (codecvt_ok, Z.of_nat (length pre), flat_map encode_char pre)
    | w :: _ =>
        do_out [0x41; 0x20ac; 0x42] 3 = (codecvt_partial, Z.of_nat (length pre), flat_map encode_char pre) /\
        (3 < length (flat_map encode_char pre) + length (encode_char w))%nat
    end.
Proof.
  refine (do_out_longest_prefix [0x41; 0x20ac; 0x42] 3 _).
  repeat constructor; vm_compute; discriminate.
Defined.

(** Converting in can be resumed: if the conversion of a first buffer did not meet an
    invalid octet, continuing from the position it reports (the incomplete last character
    included again) gives the same characters, position and result as converting the two
    buffers in one go, for any octets at all. *)
Theorem do_in_resumable xs ys room room' r k out :
  do_in xs room = (r, k, out) -> r <> codecvt_error -> (length out <= room')%nat ->
  do_in (xs ++ ys) room' =
    (let '(r', k', out') := do_in (drop (Z.to_nat k) (xs ++ ys)) (room' - length out) in
     (r', k + k', out ++ out')) /\ 0 <= k <= Z.of_nat (length xs).
Proof.
  revert xs room' r k out. induction room as [|room IH]; intros xs room' r k out Hrun Hr Hroom.
  { destruct xs as [|x xs]; injection Hrun as <- <- <-; rewrite Nat.sub_0_r;
      (split; [|simpl; lia]); change (Z.to_nat 0) with 0%nat; rewrite drop_0;
      by destruct (do_in _ room') as [[? ?] ?]. }
  destruct xs as [|lead rest].
  { injection Hrun as <- <- <-. rewrite Nat.sub_0_r. split; [|simpl; lia].
    change (Z.to_nat 0) with 0%nat. rewrite drop_0. by destruct (do_in _ room') as [[? ?] ?]. }
  unfold do_in in Hrun. cbn [do_in_loop] in Hrun.
  destruct (invalid_leading_octet lead) eqn:Einv; [by injection Hrun as <- _ _|].
  set (cnt := get_cont_octet_count lead) in *.
  destruct (do_in_cont _ rest _ _) as [i|[[i u] rest']] eqn:Econt; [by injection Hrun as <- _ _|].
  destruct (do_in_cont_app _ _ _ _ _ _ _ ys Econt) as (Hi & Hsplit & Hlen & Hrest & Happ).
  assert (0 <= cnt) as Hcnt by (unfold cnt, get_cont_octet_count, get_octet_count; repeat case_match; lia).
  rewrite Z2Nat.id in Hi, Hrest, Happ by lia.
  destruct (bool_decide (rest' = []) && negb (i =? cnt)) eqn:Epart.
  { injection Hrun as <- <- <-. replace (0 + 1 + i - (i + 1)) with 0 by lia.
    rewrite Nat.sub_0_r. split; [|simpl; lia]. change (Z.to_nat 0) with 0%nat. rewrite drop_0.
    by destruct (do_in _ room') as [[? ?] ?]. }
  assert (i = cnt) as ->.
  { apply andb_false_iff in Epart as [E|E].
    - apply bool_decide_eq_false in E. specialize (Hrest E). lia.
    - apply negb_false_iff, Z.eqb_eq in E. done. }
  rewrite do_in_loop_acc in Hrun. destruct (do_in rest' room) as [[r1 k1] out1] eqn:Erec.
  injection Hrun as <- <- <-. simpl in Hroom. destruct room' as [|room']; [lia|].
  destruct (IH rest' room' r1 k1 out1 Erec Hr ltac:(lia)) as [Heq Hk].
  unfold do_in at 1. cbn [app do_in_loop]. fold cnt. rewrite Einv, (Happ ltac:(lia)), Z.eqb_refl, andb_false_r.
  rewrite do_in_loop_acc, Heq. cbn [length app Nat.sub].
  assert (drop (Z.to_nat (0 + 1 + cnt + k1)) (lead :: rest ++ ys) = drop (Z.to_nat k1) (rest' ++ ys)) as ->.
  { rewrite Hsplit. replace (Z.to_nat (0 + 1 + cnt + k1)) with (S (Z.to_nat (cnt - 0) + Z.to_nat k1)) by lia.
    cbn [drop]. rewrite <- drop_drop, <- app_assoc.
    rewrite drop_app_length' by (rewrite length_take; lia). done. }
  split; [|simpl; lia]. destruct (do_in (drop _ _) _) as [[r2 k2] out2].
  rewrite Z.add_assoc. done.
Qed.

Lemma do_in_resumable_witness :
  do_in ([0x41; 0xe2; 0x82] ++ [0xac; 0x42]) 5 =
    (let '(r', k', out') := do_in (drop 1 ([0x41; 0xe2; 0x82] ++ [0xac; 0x42])) 4 in
     (r', 1 + k', [0x41] ++ out')) /\ 0 <= 1 <= 3.
Proof.
  refine (do_in_resumable [0x41; 0xe2; 0x82] [0xac; 0x42] 3 5 codecvt_partial 1 [0x41] _ _ _);
    [reflexivity|discriminate|simpl; lia].
Defined.

(** [do_length] on a well-formed text returns the number of octets that hold its first
    [max_limit] characters, provided the text has more characters than that; when
    [max_limit] is the number of characters of the text or more, the loop reads the octet
    behind the end of the buffer. *)
Theorem do_length_prefix_or_overread ws max_limit :
  Forall wchar_ok ws -> 0 <= max_limit ->
  do_length (flat_map encode_char ws) max_limit =
    if decide (max_limit < Z.of_nat (length ws))
    then Ret (Z.of_nat (length (flat_map encode_char (take (Z.to_nat max_limit) ws))))
    else Fault OutOfBounds.
Proof.
  intros Hws Hm. unfold do_length.
  assert (length ws <= length (flat_map encode_char ws))%nat as Hl.
  { clear. induction ws as [|w ws IH]; cbn [flat_map length]; [lia|]. rewrite length_app.
    unfold encode_char at 1. cbn [length]. lia. }
  pose proof (do_length_loop_spec ws (length (flat_map encode_char ws) + 3) [] 0 0 0 max_limit Hws) as H.
  rewrite Z.sub_0_r in H. apply H; simpl; lia.
Qed.

Lemma do_length_prefix_or_overread_witness :
  do_length [65; 226; 130; 172; 66] 2 = Ret 4 /\ do_length [65; 226; 130; 172; 66] 3 = Fault OutOfBounds.
Proof.
  split.
  - refine (do_length_prefix_or_overread [0x41; 0x20ac; 0x42] 2 _ _);
      [repeat constructor; vm_compute; discriminate|lia].
  - refine (do_length_prefix_or_overread [0x41; 0x20ac; 0x42] 3 _ _);
      [repeat constructor; vm_compute; discriminate|lia].
Defined.

(** ** The ranges of what is produced *)

Lemma do_in_cont_bound n from i acc i' u rest :
  0 <= acc -> do_in_cont n from i acc = inr (i', u, rest) ->
  0 <= u < (acc + 1) * 2 ^ (6 * Z.of_nat n) /\ (exists pre, from = pre ++ rest).
Proof.
  revert from i acc. induction n as [|n IH]; intros from i acc Hacc H.
  { destruct from; injection H as <- <- <-; (split; [simpl; lia|]); by exists []. }
  destruct from as [|b from]; cbn [do_in_cont] in H.
  { injection H as <- <- <-. split; [|by exists []]. split; [done|].
    assert (0 < 2 ^ (6 * Z.of_nat (S n))) by (apply Z.pow_pos_nonneg; lia). nia. }
  destruct (invalid_continuing_octet b) eqn:Eb; [done|]. unfold invalid_continuing_octet in Eb.
  apply orb_false_iff in Eb as [E1%Z.ltb_ge E2%Z.ltb_ge].
  apply IH in H as [Hu [pre ->]]; [|lia]. split; [|by exists (b :: pre)].
  rewrite pow64_S. split; [lia|]. eapply Z.lt_le_trans; [apply Hu|].
  assert (0 < 2 ^ (6 * Z.of_nat n)) by (apply Z.pow_pos_nonneg; lia). nia.
Qed.

(** What a lead octet of each length can carry. *)
Definition lead_carries (lead : Z) : Prop :=
  invalid_leading_octet lead = false ->
  let n := get_cont_octet_count lead in
  let acc := lead - nth (Z.to_nat n) octet1_modifier_table 0 in
  0 <= n /\ 0 <= acc /\ (acc + 1) * 2 ^ (6 * n) <= 2 ^ 31.

Lemma lead_carries_byte lead : byte_ok lead -> lead_carries lead.
Proof.
  intros Hb. assert (Forall lead_carries (seqZ 0 256)) as H.
  { unfold lead_carries. refine (bool_decide_unpack _ _). vm_compute. exact I. }
  rewrite Forall_forall in H. apply H, elem_of_seqZ. unfold byte_ok, fits in Hb. lia.
Qed.

Lemma do_in_loop_typed room from pos out :
  Forall byte_ok from -> Forall wchar_ok out -> Forall wchar_ok (do_in_loop from room pos out).2.
Proof.
  revert from pos out. induction room as [|room IH]; intros [|lead rest] pos out Hf Ho; cbn [do_in_loop]; try done.
  apply Forall_cons in Hf as [Hlead Hrest].
  destruct (invalid_leading_octet lead) eqn:Einv; [done|].
  destruct (lead_carries_byte lead Hlead Einv) as (Hn & Hacc & Hmax).
  destruct (do_in_cont _ rest _ _) as [i|[[i u] rest']] eqn:Ec; [done|].
  destruct (_ && _); [done|]. apply do_in_cont_bound in Ec as [Hu [pre ->]]; [|done].
  rewrite Z2Nat.id in Hu by done. apply Forall_app in Hrest as [_ Hrest'].
  apply IH; [done|]. apply Forall_app. split; [done|]. constructor; [|done]. unfold wchar_ok, max_wchar. lia.
Qed.

Lemma do_out_cont_typed word todo room sh i out :
  Forall byte_ok out -> Forall byte_ok (do_out_cont word todo room sh i out).1.1.
Proof.
  revert room sh i out. induction todo as [|todo IH]; intros [|room] sh i out Ho; try done.
  cbn [do_out_cont]. apply IH, Forall_app. split; [done|]. constructor; [|done]. by apply wrap_fits.
Qed.

Lemma do_out_loop_typed from room pos out :
  Forall byte_ok out -> Forall byte_ok (do_out_loop from room pos out).2.
Proof.
  revert room pos out. induction from as [|word rest IH]; intros room pos out Ho; [by destruct room|].
  destruct room as [|room]; [done|]. cbn [do_out_loop].
  destruct (max_wchar <? word); [done|].
  match goal with |- context [do_out_cont ?a ?b ?c ?d ?e ?f] =>
    pose proof (do_out_cont_typed a b c d e f) as Ht; destruct (do_out_cont a b c d e f) as [[o i] room'] end.
  assert (Forall byte_ok o) as Hout.
  { apply Ht. apply Forall_app. split; [done|]. constructor; [|done]. by apply wrap_fits. }
  destruct (_ && _); [by apply Forall_take|by apply IH].
Qed.

(** C38. Type of the conversions: from any octets, malformed ones included, [do_in] produces only
    non-negative 31-bit characters, which [wchar_t] can hold and [do_out] takes; from any words,
    [do_out] produces only octets, since each is stored in an 8-bit [char]. *)
Theorem conversions_typed octets words room :
  (Forall byte_ok octets -> Forall wchar_ok (do_in octets room).2) /\ Forall byte_ok (do_out words room).2.
Proof. split; [intros H; by apply do_in_loop_typed|by apply do_out_loop_typed]. Qed.

Lemma conversions_typed_witness : Forall wchar_ok [0x7fffffff] /\ Forall byte_ok [0x41; 0xff].
Proof.
  destruct (conversions_typed [0xfd; 0xbf; 0xbf; 0xbf; 0xbf; 0xbf; 0xff; 0x41] [0x41; -1] 4) as [Hin Hout].
  split; [|exact Hout]. apply Hin. repeat constructor; discriminate.
Defined.

End Utf8.
