(* ===== verification/Inet.v ===== *)
(** * Byte order and textual IPv4 addresses

    [source/io/ByteSwap.cpp] (module [ByteSwap]) and [source/io/Convert.cpp] (module
    [Convert]), with the IPv4 parser of libuv that [Convert] calls
    ([thirdparty/libuv-1.30.1/src/inet.c], [inet_pton4]).  The host's byte order is the class
    [Host]; both orders are covered by every theorem.  The IPv6 text conversions of libuv are
    arguments of the definitions that use them. *)

From S2P Require Import Prelude StatusCode.
Local Open Scope word_scope.

(** The byte order of the machine the code runs on. *)
Class Host := { big_endian : bool }.
Definition LittleEndianHost : Host := {| big_endian := false |}.
Definition BigEndianHost : Host := {| big_endian := true |}.

Module ByteSwap.

Section Swap.
Context {host : Host}.

(** The bytes of an [n]-byte unsigned integer in memory, and back. *)
Definition word_bytes (n : nat) (v : Z) : list Z :=
  if big_endian then rev (le_split n v) else le_split n v.
Definition bytes_word (bs : list Z) : Z :=
  le_val (if big_endian then rev bs else bs).

(** [ntohs], [ntohl], [be64toh] and their inverses: the identity on a big-endian host, a
    reversal of the [n] bytes on a little-endian one. *)
Definition byte_swap (n : nat) (v : Z) : Z := le_val (rev (le_split n v)).

Definition network_to_host (n : nat) (v : Z) : Z := if big_endian then v else byte_swap n v.
Definition host_to_network (n : nat) (v : Z) : Z := if big_endian then v else byte_swap n v.

End Swap.

(** Big-endian value of a byte list. *)
Definition be_val (bs : list Z) : Z := le_val (rev bs).

Lemma word_fits n v : fits (8 * Z.of_nat n) (byte_swap n v).
Proof.
  unfold byte_swap.
  assert (length (rev (le_split n v)) = n) as Hl by (rewrite length_rev; apply length_le_split).
  rewrite <- Hl at 1. apply le_val_bound. apply Forall_rev, le_split_bytes.
Qed.

Lemma byte_swap_bytes n v : le_split n (byte_swap n v) = rev (le_split n v).
Proof.
  unfold byte_swap. assert (length (rev (le_split n v)) = n) as Hl
    by (rewrite length_rev; apply length_le_split).
  rewrite <- Hl at 1. apply le_split_le_val, Forall_rev, le_split_bytes.
Qed.

Lemma byte_swap_involutive n v : fits (8 * Z.of_nat n) v -> byte_swap n (byte_swap n v) = v.
Proof.
  intros H. unfold byte_swap at 1. rewrite byte_swap_bytes, rev_involutive, le_val_le_split.
  by apply Z.mod_small.
Qed.

Section Facts.
Context {host : Host}.

Lemma word_bytes_length n v : length (word_bytes n v) = n.
Proof. unfold word_bytes. destruct big_endian; rewrite ?length_rev; apply length_le_split. Qed.

Lemma word_bytes_ok n v : Forall byte_ok (word_bytes n v).
Proof. unfold word_bytes. destruct big_endian; [apply Forall_rev|]; apply le_split_bytes. Qed.

Lemma bytes_word_bytes n v : fits (8 * Z.of_nat n) v -> bytes_word (word_bytes n v) = v.
Proof.
  intros H. unfold bytes_word, word_bytes. destruct big_endian; rewrite ?rev_involutive, le_val_le_split;
    by apply Z.mod_small.
Qed.

Lemma bytes_word_fits bs : Forall byte_ok bs -> fits (8 * Z.of_nat (length bs)) (bytes_word bs).
Proof.
  intros H. unfold bytes_word. destruct big_endian; [|by apply le_val_bound].
  rewrite <- length_rev. apply le_val_bound. by apply Forall_rev.
Qed.

Lemma word_bytes_word bs : Forall byte_ok bs -> word_bytes (length bs) (bytes_word bs) = bs.
Proof.
  intros H. unfold bytes_word, word_bytes. destruct big_endian; [|by apply le_split_le_val].
  rewrite <- (length_rev bs), le_split_le_val, rev_involutive; [done|]. by apply Forall_rev.
Qed.

Lemma word_bytes_word_n n bs : Forall byte_ok bs -> length bs = n -> word_bytes n (bytes_word bs) = bs.
Proof. intros H <-. by apply word_bytes_word. Qed.

Lemma network_to_host_to_network n v :
  fits (8 * Z.of_nat n) v -> network_to_host n (host_to_network n v) = v.
Proof.
  intros H. unfold network_to_host, host_to_network. destruct big_endian; [done|].
  by apply byte_swap_involutive.
Qed.

Lemma host_to_network_memory n v : word_bytes n (host_to_network n v) = rev (le_split n v).
Proof.
  unfold word_bytes, host_to_network. destruct big_endian; [done|]. apply byte_swap_bytes.
Qed.

Lemma network_to_host_bytes bs :
  Forall byte_ok bs -> network_to_host (length bs) (bytes_word bs) = be_val bs.
Proof.
  intros H. unfold network_to_host, bytes_word, be_val. destruct big_endian; [done|].
  unfold byte_swap. by rewrite le_split_le_val.
Qed.

(** On either kind of host, [host_to_network] puts the most significant byte first in
    memory, [network_to_host] reads such memory back as the number, and the two functions
    are inverse to each other on every integer of their width. *)
Theorem byte_order_correct n v :
  fits (8 * Z.of_nat n) v ->
  be_val (word_bytes n (host_to_network n v)) = v /\
  network_to_host n (host_to_network n v) = v /\
  host_to_network n (network_to_host n v) = v /\
  fits (8 * Z.of_nat n) (host_to_network n v).
Proof.
  intros H. split_and!; try by apply network_to_host_to_network.
  - unfold be_val. rewrite host_to_network_memory, rev_involutive, le_val_le_split.
    by apply Z.mod_small.
  - unfold host_to_network. destruct big_endian; [done|apply word_fits].
Qed.

End Facts.

Lemma byte_order_correct_witness :
  fits (8 * Z.of_nat 2) 0x1f90 /\
  host_to_network (host := LittleEndianHost) 2 0x1f90 = 0x901f /\
  be_val (word_bytes (host := LittleEndianHost) 2 (host_to_network (host := LittleEndianHost) 2 0x1f90)) = 0x1f90.
Proof.
  split; [by vm_compute|]. split; [reflexivity|].
  apply (byte_order_correct (host := LittleEndianHost) 2 0x1f90). by vm_compute.
Defined.

End ByteSwap.

Module Convert.
Import ByteSwap.

(** [push_byte_as_str]: decimal digits of a byte, without leading zeros. *)
Definition push_byte_as_str (s : list Z) (byte : Z) : list Z :=
  if 100 <=? byte then
    s ++ [byte / 100 + 48] ++ [(byte mod 100) / 10 + 48] ++ [byte mod 10 + 48]
  else if 10 <=? byte then
    s ++ [(byte mod 100) / 10 + 48] ++ [byte mod 10 + 48]
  else
    s ++ [byte mod 10 + 48].

Definition dot : Z := 46.

Definition ip4_addr_to_string (addr : Z) : list Z :=
  let result := [] in
  let result := push_byte_as_str result ((addr .& 0xFF000000) >>> 24) in
  let result := result ++ [dot] in
  let result := push_byte_as_str result ((addr .& 0x00FF0000) >>> 16) in
  let result := result ++ [dot] in
  let result := push_byte_as_str result ((addr .& 0x0000FF00) >>> 8) in
  let result := result ++ [dot] in
  push_byte_as_str result (addr .& 0x000000FF).

(** [strchr(digits, ch)] as an offset into ["0123456789"]. *)
Definition digit_of (ch : Z) : option Z :=
  if (48 <=? ch) && (ch <=? 57) then Some (ch - 48) else None.

(** libuv's [inet_pton4]: [tmp] holds the octets before the one [tp] points at, [cur] is
    [*tp].  [None] is [UV_EINVAL]. *)
Fixpoint inet_pton4_loop (src : list Z) (saw_digit : bool) (octets : Z) (tmp : list Z) (cur : Z)
    : option (Z * list Z) :=
  match src with
  | [] => Some (octets, tmp ++ [cur])
  | ch :: src =>
      match digit_of ch with
      | Some d =>
          let nw := cur * 10 + d in
          if saw_digit && (cur =? 0) then None
          else if 255 <? nw then None
          else if negb saw_digit then
            if 4 <? octets + 1 then None else inet_pton4_loop src true (octets + 1) tmp nw
          else inet_pton4_loop src true octets tmp nw
      | None =>
          if (ch =? dot) && saw_digit then
            if octets =? 4 then None else inet_pton4_loop src false octets (tmp ++ [cur]) 0
          else None
      end
  end.

Definition inet_pton4 (src : list Z) : option (list Z) :=
  match inet_pton4_loop src false 0 [] 0 with
  | Some (octets, tmp) => if octets <? 4 then None else Some tmp
  | None => None
  end.

Section Parse.
Context {host : Host} {uv : UvErrno}.

(** [uv_inet_pton(AF_INET, ...)]: the return code and, on success, the four bytes written. *)
Definition uv_inet_pton4 (src : list Z) : Z * option (list Z) :=
  match inet_pton4 src with
  | Some bytes => (0, Some bytes)
  | None => (uv_code UV_EINVAL, None)
  end.

(** The out-parameter [uint_address] is returned next to the error. *)
Definition string_to_ip4_addr (string_address : list Z) (uint_address : Z) : Error * Z :=
  let '(rc, bytes) := uv_inet_pton4 (c_str string_address) in
  let convert_error := Error_of_uv rc in
  if error_bool convert_error then (convert_error, uint_address)
  else (Error_of_uv 0, network_to_host 4 (bytes_word (default [] bytes))).

(** IPv6 text is produced and parsed by libuv: [uv_inet_ntop] returns a code and the
    buffer's text, [uv_inet_pton] a code and the 16 bytes written. *)
Definition ip6_addr_to_string (uv_inet_ntop6 : list Z -> Z * list Z) (address_bytes : option (list Z)) : list Z :=
  match address_bytes with
  | None => []
  | Some bytes => (uv_inet_ntop6 bytes).2
  end.

Definition string_to_ip6_addr (uv_inet_pton6 : list Z -> list Z -> Z * list Z)
    (string_address bytes : list Z) : Error * list Z :=
  let '(rc, bytes) := uv_inet_pton6 (c_str string_address) bytes in
  let convert_error := Error_of_uv rc in
  if error_bool convert_error then (convert_error, bytes) else (Error_of_uv 0, bytes).

End Parse.

(** ** The dotted quad as a reference *)

Definition dec (b : Z) : list Z := push_byte_as_str [] b.

(** The text of a list of octets, separated by dots. *)
Fixpoint dotted (b : Z) (bs : list Z) : list Z :=
  match bs with
  | [] => dec b
  | b' :: bs => dec b ++ [dot] ++ dotted b' bs
  end.

Lemma push_byte_as_str_dec s b : push_byte_as_str s b = s ++ dec b.
Proof. unfold dec, push_byte_as_str. by repeat case_match. Qed.

Lemma dec_digit d : 0 <= d <= 9 -> dec d = [d + 48].
Proof.
  intros H. unfold dec, push_byte_as_str.
  rewrite (proj2 (Z.leb_gt 100 d)), (proj2 (Z.leb_gt 10 d)), Z.mod_small by lia. done.
Qed.

(** Appending a digit to a canonical number below 256 gives a canonical number. *)
Lemma dec_snoc c d : 0 < c -> 0 <= d <= 9 -> c * 10 + d <= 255 -> dec (c * 10 + d) = dec c ++ [d + 48].
Proof.
  intros Hc Hd Hle.
  assert (Forall (fun c => Forall (fun d => c * 10 + d <= 255 -> dec (c * 10 + d) = dec c ++ [d + 48])
    (seqZ 0 10)) (seqZ 1 25)) as H.
  { refine (bool_decide_unpack _ _). vm_compute. exact I. }
  rewrite Forall_forall in H. specialize (H c ltac:(apply elem_of_seqZ; lia)).
  rewrite Forall_forall in H. apply H; [apply elem_of_seqZ; lia|done].
Qed.

Lemma digit_of_digit d : 0 <= d <= 9 -> digit_of (d + 48) = Some d.
Proof.
  intros H. unfold digit_of. rewrite (proj2 (Z.leb_le 48 _)), (proj2 (Z.leb_le _ 57)) by lia.
  simpl. f_equal. lia.
Qed.

Lemma digit_of_some ch d : digit_of ch = Some d -> ch = d + 48 /\ 0 <= d <= 9.
Proof.
  unfold digit_of. destruct (Z.leb_spec 48 ch), (Z.leb_spec ch 57); simpl; intros Hd; simplify_eq; lia.
Qed.

Lemma pton4_digit_first d rest o tmp :
  0 <= d <= 9 -> o < 4 ->
  inet_pton4_loop ((d + 48) :: rest) false o tmp 0 = inet_pton4_loop rest true (o + 1) tmp d.
Proof.
  intros Hd Ho. cbn [inet_pton4_loop]. rewrite digit_of_digit by done. cbn [andb negb].
  rewrite (proj2 (Z.ltb_ge 255 _)), (proj2 (Z.ltb_ge 4 _)) by lia. done.
Qed.

Lemma pton4_digit_next c d rest o tmp :
  0 < c -> 0 <= d <= 9 -> c * 10 + d <= 255 ->
  inet_pton4_loop ((d + 48) :: rest) true o tmp c = inet_pton4_loop rest true o tmp (c * 10 + d).
Proof.
  intros Hc Hd Hle. cbn [inet_pton4_loop]. rewrite digit_of_digit by done. cbn [andb negb].
  rewrite (proj2 (Z.eqb_neq c 0)), (proj2 (Z.ltb_ge 255 _)) by lia. done.
Qed.

(** Every byte is one digit, or a smaller canonical number followed by a digit. *)
Lemma byte_decimal_ind (P : Z -> Prop) :
  (forall d, 0 <= d <= 9 -> P d) ->
  (forall c d, 0 < c -> 0 <= d <= 9 -> c * 10 + d <= 255 -> P c -> P (c * 10 + d)) ->
  forall b, 0 <= b <= 255 -> P b.
Proof.
  intros H0 HS b Hb. assert (forall b, 10 <= b <= 255 -> P (b / 10) -> P b) as Hstep.
  { intros c Hc HP. pose proof (Z.mod_pos_bound c 10). pose proof (Z.div_mod c 10).
    replace c with (c / 10 * 10 + c mod 10) by lia. apply HS; [lia|lia|lia|done]. }
  destruct (decide (b <= 9)); [apply H0; lia|]. apply Hstep; [lia|].
  pose proof (Z.mod_pos_bound b 10). pose proof (Z.div_mod b 10).
  destruct (decide (b / 10 <= 9)); [apply H0; lia|]. apply Hstep; [lia|].
  apply H0. rewrite Z.div_div by lia. split; [apply Z.div_pos; lia|].
  apply Z.lt_succ_r, Z.div_lt_upper_bound; lia.
Qed.

Lemma pton4_dec b rest o tmp :
  0 <= b <= 255 -> o < 4 ->
  inet_pton4_loop (dec b ++ rest) false o tmp 0 = inet_pton4_loop rest true (o + 1) tmp b.
Proof.
  intros Hb Ho. revert b Hb rest. apply (byte_decimal_ind (fun b => forall rest, _)).
  - intros d Hd rest. rewrite dec_digit by done. by apply pton4_digit_first.
  - intros c d Hc Hd Hle IH rest. rewrite dec_snoc, <- app_assoc, IH by done. by apply pton4_digit_next.
Qed.

Lemma pton4_dot rest o tmp cur :
  o <> 4 -> inet_pton4_loop (dot :: rest) true o tmp cur = inet_pton4_loop rest false o (tmp ++ [cur]) 0.
Proof. intros Ho. cbn. by rewrite (proj2 (Z.eqb_neq o 4)). Qed.

Lemma pton4_dotted b bs o tmp :
  Forall byte_ok (b :: bs) -> o + 1 + Z.of_nat (length bs) = 4 ->
  inet_pton4_loop (dotted b bs) false o tmp 0 = Some (4, tmp ++ b :: bs).
Proof.
  revert b o tmp. induction bs as [|b' bs IH]; intros b o tmp Hok Ho; cbn [dotted length] in *;
    apply Forall_cons in Hok as [Hb Hbs]; unfold byte_ok, fits in Hb.
  - rewrite <- (app_nil_r (dec b)), pton4_dec by lia. cbn. f_equal. f_equal. lia.
  - rewrite pton4_dec by lia. cbn [app]. rewrite pton4_dot by lia.
    rewrite IH by (done || lia). by rewrite <- app_assoc.
Qed.

Lemma pton4_octets_bound src saw o tmp cur o' r :
  inet_pton4_loop src saw o tmp cur = Some (o', r) -> o' <= Z.max o 4.
Proof.
  revert saw o tmp cur. induction src as [|ch src IH]; intros saw o tmp cur; cbn [inet_pton4_loop].
  { intros [= -> _]. lia. }
  destruct (digit_of ch); [destruct (_ && _); [done|]; destruct (_ <? _); [done|];
    destruct (negb saw); [destruct (Z.ltb_spec 4 (o + 1)); [done|]|]|
    destruct (_ && _); [|done]; destruct (_ =? _); [done|]]; intros Hr; apply IH in Hr; lia.
Qed.

(** Whatever the parser accepts is a dotted list of canonical octets. *)
Lemma pton4_inv src saw o tmp cur o' r :
  inet_pton4_loop src saw o tmp cur = Some (o', r) -> o' = 4 ->
  (if saw then 0 <= cur <= 255 /\ o <= 4 else cur = 0 /\ o < 4) ->
  exists b bs, r = tmp ++ b :: bs /\ Forall byte_ok (b :: bs) /\
    (if saw then dec cur ++ src = dotted b bs /\ o + Z.of_nat (length bs) = 4
     else src = dotted b bs /\ o + 1 + Z.of_nat (length bs) = 4).
Proof.
  intros Hrun ->. revert saw o tmp cur Hrun.
  induction src as [|ch src IH]; intros saw o tmp cur Hrun Hcur; cbn [inet_pton4_loop] in Hrun.
  { injection Hrun as -> <-. destruct saw; [|lia]. exists cur, []. rewrite app_nil_r.
    split_and!; [done| |done|simpl; lia]. repeat constructor; lia. }
  destruct (digit_of ch) as [d|] eqn:Ed.
  - apply digit_of_some in Ed as [-> Hd].
    destruct (saw && (cur =? 0)) eqn:Ez; [done|].
    destruct (Z.ltb_spec 255 (cur * 10 + d)); [done|].
    destruct saw; cbn [negb andb] in *.
    + apply Z.eqb_neq in Ez. apply IH in Hrun as (b & bs & -> & Hok & Heq & Ho); [|lia].
      exists b, bs. split_and!; [done|done| |done]. rewrite <- Heq, dec_snoc by lia. by rewrite <- app_assoc.
    + destruct Hcur as [-> Ho4]. rewrite (proj2 (Z.ltb_ge 4 _)) in Hrun by lia.
      apply IH in Hrun as (b & bs & -> & Hok & Heq & Ho); [|lia].
      exists b, bs. split_and!; [done|done| |lia]. rewrite <- Heq, Z.add_0_l, dec_digit by done. done.
  - destruct (Z.eqb_spec ch dot) as [->|]; [|done]. destruct saw; [|done]. cbn [andb] in Hrun.
    destruct (Z.eqb_spec o 4); [done|].
    apply IH in Hrun as (b & bs & -> & Hok & -> & Ho); [|lia].
    exists cur, (b :: bs). rewrite <- app_assoc. split_and!; [done| |done|simpl; lia].
    constructor; [unfold byte_ok, fits; lia|done].
Qed.

(** ** The integer of a dotted quad *)

Definition quad (a : Z) : list Z := rev (le_split 4 a).

Lemma quad_cons a : quad a = [(a / 2 ^ 24) mod 256; (a / 2 ^ 16) mod 256; (a / 2 ^ 8) mod 256; a mod 256].
Proof. unfold quad. cbn [le_split rev app]. by rewrite !Z.div_div by lia. Qed.

Lemma ip4_addr_to_string_dotted a :
  exists b bs, quad a = b :: bs /\ ip4_addr_to_string a = dotted b bs.
Proof.
  exists ((a / 2 ^ 24) mod 256), [(a / 2 ^ 16) mod 256; (a / 2 ^ 8) mod 256; a mod 256].
  split; [apply quad_cons|]. unfold ip4_addr_to_string. rewrite !push_byte_as_str_dec, !Z.shiftr_land.
  change (0xFF000000 >>> 24) with (2 ^ 8 - 1). change (0x00FF0000 >>> 16) with (2 ^ 8 - 1).
  change (0x0000FF00 >>> 8) with (2 ^ 8 - 1). change 0x000000FF with (2 ^ 8 - 1).
  rewrite !land_low_mask, !Z.shiftr_div_pow2 by lia. cbn [dotted app]. by rewrite <- !app_assoc.
Qed.

Lemma quad_bytes a : Forall byte_ok (quad a).
Proof. apply Forall_rev, le_split_bytes. Qed.

Lemma quad_value a : fits 32 a -> be_val (quad a) = a.
Proof.
  intros Ha. unfold be_val, quad. rewrite rev_involutive, le_val_le_split. by apply Z.mod_small.
Qed.

Lemma quad_of_bytes bs : Forall byte_ok bs -> length bs = 4%nat -> fits 32 (be_val bs) /\ quad (be_val bs) = bs.
Proof.
  intros Hok Hl. unfold be_val, quad. apply Forall_rev in Hok as Hok'.
  pose proof (le_val_bound _ Hok') as Hb. pose proof (le_split_le_val _ Hok') as Hs.
  rewrite length_rev, Hl in *. rewrite Hs, rev_involutive. done.
Qed.

Lemma inet_pton4_quad a : inet_pton4 (ip4_addr_to_string a) = Some (quad a).
Proof.
  destruct (ip4_addr_to_string_dotted a) as (b & bs & Hq & ->). unfold inet_pton4.
  pose proof (quad_bytes a) as Hok. assert (length (quad a) = 4%nat) as Hl
    by (unfold quad; by rewrite length_rev, length_le_split).
  rewrite Hq in *. rewrite pton4_dotted; [done|done|]. simpl in Hl. lia.
Qed.

Lemma inet_pton4_inv s bs :
  inet_pton4 s = Some bs -> Forall byte_ok bs /\ length bs = 4%nat /\ s = ip4_addr_to_string (be_val bs).
Proof.
  unfold inet_pton4. destruct (inet_pton4_loop _ _ _ _ _) as [[o r]|] eqn:E; [|done].
  destruct (Z.ltb_spec o 4) as [|Ho]; [done|]. intros [= ->].
  assert (o = 4) as -> by (pose proof (pton4_octets_bound _ _ _ _ _ _ _ E); lia).
  apply pton4_inv in E as (b & bs' & -> & Hok & -> & Hl); [|done|done]. cbn [app].
  assert (length (b :: bs') = 4%nat) as Hl4 by (simpl; lia).
  destruct (quad_of_bytes _ Hok Hl4) as [Hf Hq].
  destruct (ip4_addr_to_string_dotted (be_val (b :: bs'))) as (c & cs & Hc & ->).
  rewrite Hq in Hc. by injection Hc as <- <-.
Qed.

(** The alphabet of the text, which has neither NUL nor a colon. *)
Definition ip4_char (c : Z) : Prop := c = dot \/ 48 <= c <= 57.

Lemma dec_chars b : 0 <= b <= 255 -> Forall ip4_char (dec b).
Proof.
  revert b. apply byte_decimal_ind.
  - intros d Hd. rewrite dec_digit, Forall_singleton by done. right. lia.
  - intros c d Hc Hd Hle IH. rewrite dec_snoc, Forall_app by done. split; [done|].
    apply Forall_singleton. right. lia.
Qed.

Lemma ip4_text_chars a : Forall ip4_char (ip4_addr_to_string a).
Proof.
  destruct (ip4_addr_to_string_dotted a) as (b & bs & Hq & ->). pose proof (quad_bytes a) as Hok.
  rewrite Hq in Hok. clear Hq. revert b Hok. induction bs as [|b' bs IH]; intros b Hok; cbn [dotted];
    apply Forall_cons in Hok as [Hb Hbs]; unfold byte_ok, fits in Hb; [apply dec_chars; lia|].
  rewrite !Forall_app. split_and!; [apply dec_chars; lia| |by apply IH].
  apply Forall_singleton. by left.
Qed.

Lemma ip4_text_not_in a c : ~ ip4_char c -> c ∉ ip4_addr_to_string a.
Proof. intros Hc Hin. apply Hc. eapply Forall_forall in Hin; [done|apply ip4_text_chars]. Qed.

Lemma ip4_text_no_nul a : 0 ∉ ip4_addr_to_string a.
Proof. apply ip4_text_not_in. unfold ip4_char, dot. lia. Qed.

Example ip4_text : ip4_addr_to_string 0x7f000001 = chars "127.0.0.1".
Proof. reflexivity. Qed.

Example ip4_parse : inet_pton4 (chars "10.0.255.7") = Some [10; 0; 255; 7] /\
  inet_pton4 (chars "10.0.255.07") = None /\ inet_pton4 (chars "1.2.3") = None /\
  inet_pton4 (chars "1.2.3.4.") = None /\ inet_pton4 (chars "1.2.3.256") = None.
Proof. done. Qed.

Section Properties.
Context {host : Host} {uv : UvErrno}.

Lemma string_to_ip4_addr_ok s bs out :
  inet_pton4 (c_str s) = Some bs -> string_to_ip4_addr s out = (Error_of_uv 0, be_val bs).
Proof.
  intros H. unfold string_to_ip4_addr, uv_inet_pton4. rewrite H. cbn [default].
  apply inet_pton4_inv in H as (Hok & Hl & _). rewrite <- Hl, network_to_host_bytes by done. done.
Qed.

(** Round trip: for every 32-bit IPv4 address, on a host of either byte order, parsing
    the text [ip4_addr_to_string] makes of it succeeds and gives the address back. *)
Theorem ip4_roundtrip a out :
  fits 32 a -> string_to_ip4_addr (ip4_addr_to_string a) out = (Error_of_uv 0, a).
Proof.
  intros Ha. rewrite (string_to_ip4_addr_ok _ (quad a)); [by rewrite quad_value|].
  rewrite c_str_id by apply ip4_text_no_nul. apply inet_pton4_quad.
Qed.

(** Exactness: [string_to_ip4_addr] accepts a text without NUL if and only if it is the
    text of some 32-bit address (four octets without leading zeros), of which it then
    returns the value; for every other text it reports the libuv error [UV_EINVAL] and
    leaves the result variable as it was. *)
Theorem ip4_text_exact s out :
  0 ∉ s ->
  (exists a, fits 32 a /\ s = ip4_addr_to_string a /\ string_to_ip4_addr s out = (Error_of_uv 0, a)) \/
  ((forall a, fits 32 a -> s <> ip4_addr_to_string a) /\
   string_to_ip4_addr s out = (Error_of_uv (uv_code UV_EINVAL), out)).
Proof.
  intros Hs. destruct (inet_pton4 (c_str s)) as [bs|] eqn:E.
  - left. exists (be_val bs). pose proof (inet_pton4_inv _ _ E) as (Hok & Hl & Heq).
    rewrite c_str_id in Heq by done. split_and!; [by apply quad_of_bytes|done|].
    by apply string_to_ip4_addr_ok.
  - right. split.
    + intros a Ha ->. rewrite c_str_id, inet_pton4_quad in E by apply ip4_text_no_nul. done.
    + unfold string_to_ip4_addr, uv_inet_pton4. rewrite E.
      assert (error_bool (Error_of_uv (uv_code UV_EINVAL)) = true) as ->; [|done].
      by apply error_of_uv_code_fails.
Qed.

End Properties.

Lemma ip4_roundtrip_witness :
  fits 32 0xC0A80001 /\ ip4_addr_to_string 0xC0A80001 = chars "192.168.0.1" /\
  string_to_ip4_addr (host := LittleEndianHost) (uv := UvFallback) (chars "192.168.0.1") 7
    = (Error_of_uv (uv := UvFallback) 0, 0xC0A80001).
Proof.
  split; [by vm_compute|]. split; [reflexivity|].
  refine (ip4_roundtrip (host := LittleEndianHost) (uv := UvFallback) 0xC0A80001 7 _). by vm_compute.
Defined.

Lemma ip4_text_exact_witness :
  let s := chars "192.168.0.01" in
  (exists a, fits 32 a /\ s = ip4_addr_to_string a /\
    string_to_ip4_addr (host := LittleEndianHost) (uv := UvFallback) s 7 = (Error_of_uv (uv := UvFallback) 0, a)) \/
  ((forall a, fits 32 a -> s <> ip4_addr_to_string a) /\
   string_to_ip4_addr (host := LittleEndianHost) (uv := UvFallback) s 7
     = (Error_of_uv (uv := UvFallback) (uv_code (UvErrno := UvFallback) UV_EINVAL), 7)).
Proof.
  refine (ip4_text_exact (host := LittleEndianHost) (uv := UvFallback) (chars "192.168.0.01") 7 _).
  refine (bool_decide_unpack _ _). vm_compute. exact I.
Defined.

End Convert.
