(* ===== verification/Endpoint.v ===== *)
(** * Network endpoints and peer identifiers

    [source/io/net/Endpoint.h], [Endpoint.cpp] (module [Endpoint]) and
    [source/io/net/detail/PeerId.h], [PeerId.cpp] (module [PeerId]).

    The [sockaddr_storage] is its 128 bytes; [sockaddr_in] and [sockaddr_in6] are read and
    written through it at the offsets of the Linux ABI, in the byte order of the host.  The
    IPv6 text conversions of libuv are the class [Inet6]. *)

From S2P Require Import Prelude StatusCode Inet.
Import ByteSwap Convert.
Local Open Scope word_scope.
Local Open Scope outcome_scope.

(** ** sockaddr memory *)

Section Sockaddr.
Context {host : Host}.

Definition load (n off : nat) (mem : list Z) : Z := bytes_word (take n (drop off mem)).

Definition store_bytes (off : nat) (bs mem : list Z) : list Z :=
  take off mem ++ bs ++ drop (off + length bs) mem.

Definition store (n off : nat) (v : Z) (mem : list Z) : list Z := store_bytes off (word_bytes n v) mem.

End Sockaddr.

(** [n] bytes of memory from [off]. *)
Definition slice (off n : nat) (mem : list Z) : list Z := take n (drop off mem).

Lemma length_slice off n mem : (off + n <= length mem)%nat -> length (slice off n mem) = n.
Proof. intros. unfold slice. rewrite length_take, length_drop. lia. Qed.

Lemma slice_ok off n mem : Forall byte_ok mem -> Forall byte_ok (slice off n mem).
Proof. intros. unfold slice. by apply Forall_take, Forall_drop. Qed.

Lemma length_store_bytes off bs mem :
  (off + length bs <= length mem)%nat -> length (store_bytes off bs mem) = length mem.
Proof. intros. unfold store_bytes. rewrite !length_app, length_take, length_drop. lia. Qed.

Lemma store_bytes_ok off bs mem : Forall byte_ok bs -> Forall byte_ok mem -> Forall byte_ok (store_bytes off bs mem).
Proof.
  intros. unfold store_bytes. rewrite !Forall_app. split_and!; [by apply Forall_take|done|by apply Forall_drop].
Qed.

Lemma slice_store_same off n bs mem :
  (off + n <= length mem)%nat -> length bs = n -> slice off n (store_bytes off bs mem) = bs.
Proof.
  intros H <-. unfold slice, store_bytes. rewrite drop_app_length' by (rewrite length_take; lia).
  by rewrite take_app_length.
Qed.

Lemma slice_store_other off' n off bs mem :
  (off + length bs <= length mem)%nat -> (off' + n <= off \/ off + length bs <= off')%nat ->
  slice off' n (store_bytes off bs mem) = slice off' n mem.
Proof.
  intros H Hd. unfold slice, store_bytes. destruct Hd as [Hd|Hd].
  - rewrite drop_app_le, take_app_le by (rewrite ?length_drop, length_take; lia).
    rewrite <- (take_drop off mem) at 2. rewrite drop_app_le, take_app_le; [done|..];
      rewrite ?length_drop, length_take; lia.
  - rewrite app_assoc, drop_app_ge by (rewrite length_app, length_take; lia).
    rewrite drop_drop. f_equal. f_equal. rewrite length_app, length_take. lia.
Qed.

(** Copying the first [k] bytes of one memory over another copies every field in them. *)
Lemma slice_copy off n k src mem :
  (off + n <= k)%nat -> (k <= length src)%nat ->
  slice off n (store_bytes 0 (take k src) mem) = slice off n src.
Proof.
  intros Hk Hl. assert (length (take k src) = k) as Htk by (rewrite length_take; lia).
  unfold slice, store_bytes. rewrite take_0, app_nil_l.
  rewrite drop_app_le, take_app_le by (rewrite ?length_drop, Htk; lia).
  rewrite <- (take_drop k src) at 2. rewrite drop_app_le, take_app_le; [done|..];
    rewrite ?length_drop, Htk; lia.
Qed.

Definition AF_UNSPEC : Z := 0.
Definition AF_INET : Z := 2.
Definition AF_INET6 : Z := 10.
Definition sizeof_sockaddr_storage : nat := 128.
Definition sizeof_sockaddr_in : nat := 16.
Definition sizeof_sockaddr_in6 : nat := 28.
(** Offsets: [sa_family]; [sin_port] and [sin6_port]; [sin_addr]; [sin6_addr]. *)
Definition off_family : nat := 0.
Definition off_port : nat := 2.
Definition off_addr4 : nat := 4.
Definition off_addr6 : nat := 8.

(** Reading back fields after a sequence of stores. *)
Ltac mem_side := unfold sizeof_sockaddr_storage, sizeof_sockaddr_in, off_family, off_port, off_addr4, off_addr6 in *;
  repeat (rewrite length_store_bytes); rewrite ?word_bytes_length, ?length_replicate; lia.
Ltac slices := unfold store;
  repeat first [rewrite slice_store_same by mem_side | rewrite slice_store_other by mem_side].
Ltac mem_wf := repeat apply store_bytes_ok; auto using word_bytes_ok, Forall_replicate.

(** libuv's IPv6 text functions: the return code, and the text or the memory written. *)
Class Inet6 := {
  uv_inet_ntop6 : list Z -> Z * list Z;
  uv_ip6_addr : list Z -> Z -> list Z -> Z * list Z
}.

(** [uv_ip4_addr] (thirdparty/libuv-1.30.1/src/uv-common.c). *)
Definition uv_ip4_addr {host : Host} {uv : UvErrno} (ip : list Z) (port : Z) (mem : list Z) : Z * list Z :=
  let mem := store_bytes 0 (replicate sizeof_sockaddr_in 0) mem in
  let mem := store 2 off_family AF_INET mem in
  let mem := store 2 off_port (host_to_network 2 port) mem in
  let '(rc, bytes) := uv_inet_pton4 ip in
  (rc, match bytes with Some bytes => store_bytes off_addr4 bytes mem | None => mem end).

(** What libuv documents of them: formatting a 16-byte address succeeds and gives a text
    with a colon and no NUL, which parses back to the address, written with the given port
    as a [sockaddr_in6]. *)
Class Inet6Laws {host : Host} (inet6 : Inet6) := {
  inet6_text : forall bs, Forall byte_ok bs -> length bs = 16%nat ->
    exists s, uv_inet_ntop6 bs = (0, s) /\ (0 ∉ s) /\ (58 ∈ s) /\
      forall port mem, fits 16 port -> length mem = sizeof_sockaddr_storage -> Forall byte_ok mem ->
        exists mem', uv_ip6_addr s port mem = (0, mem') /\
          length mem' = sizeof_sockaddr_storage /\ Forall byte_ok mem' /\
          load 2 off_family mem' = AF_INET6 /\
          slice off_port 2 mem' = word_bytes 2 (host_to_network 2 port) /\
          slice off_addr6 16 mem' = bs
}.

Module Endpoint.

Inductive Type_ := UNDEFINED | IP_V4 | IP_V6.

#[global] Instance Type_eq_dec : EqDecision Type_.
Proof. solve_decision. Defined.

Record t := mk {
  m_address_storage : list Z;
  m_type : Type_
}.

(** [Impl()]. *)
Definition empty : t := mk (replicate sizeof_sockaddr_storage 0) UNDEFINED.

Section Operations.
Context {host : Host} {uv : UvErrno} {inet6 : Inet6}.

(** [Impl] from a [sockaddr] pointer; [address] is the memory at the pointer. *)
Definition of_sockaddr (address : list Z) : outcome t :=
  check (2 <=? length address)%nat else OutOfBounds in
  let sa_family := load 2 off_family address in
  if sa_family =? AF_INET then
    check (sizeof_sockaddr_in <=? length address)%nat else OutOfBounds in
    Ret (mk (store_bytes 0 (take sizeof_sockaddr_in address) (m_address_storage empty)) IP_V4)
  else if sa_family =? AF_INET6 then
    check (sizeof_sockaddr_in6 <=? length address)%nat else OutOfBounds in
    Ret (mk (store_bytes 0 (take sizeof_sockaddr_in6 address) (m_address_storage empty)) IP_V6)
  else Ret empty.

Definition colon : Z := 58.

(** [Impl(const std::string&, std::uint16_t)]. *)
Definition of_string (address : list Z) (port : Z) : t :=
  if bool_decide (address = []) then empty
  else if bool_decide (colon ∈ address) then
    let '(rc, mem) := uv_ip6_addr (c_str address) port (m_address_storage empty) in
    if error_bool (Error_of_uv rc) then mk mem UNDEFINED else mk mem IP_V6
  else
    let '(rc, mem) := uv_ip4_addr (c_str address) port (m_address_storage empty) in
    if error_bool (Error_of_uv rc) then mk mem UNDEFINED else mk mem IP_V4.

(** [Impl] from a byte pointer and a size. *)
Definition of_bytes (address_bytes : list Z) (port : Z) : t :=
  if (length address_bytes =? 4)%nat then
    let at_ i := nth i address_bytes 0 in
    let mem := store 2 off_family AF_INET (m_address_storage empty) in
    let mem := store 4 off_addr4
      ((at_ 3%nat <<<[32] 24) .| (at_ 2%nat <<<[32] 16) .| (at_ 1%nat <<<[32] 8) .| at_ 0%nat) mem in
    let mem := store 2 off_port (host_to_network 2 port) mem in
    mk mem IP_V4
  else if (length address_bytes =? 16)%nat then
    let mem := store 2 off_family AF_INET6 (m_address_storage empty) in
    let mem := store_bytes off_addr6 address_bytes mem in
    let mem := store 2 off_port (host_to_network 2 port) mem in
    mk mem IP_V6
  else empty.

(** [Impl(std::uint32_t, std::uint16_t)]. *)
Definition of_u32 (address : Z) (port : Z) : t :=
  let mem := store 2 off_family AF_INET (m_address_storage empty) in
  let mem := store 2 off_port (host_to_network 2 port) mem in
  let mem := store 4 off_addr4 (host_to_network 4 address) mem in
  mk mem IP_V4.

(** [Endpoint(unsigned long, std::uint16_t)]. *)
Definition of_ulong (address : Z) (port : Z) : t := of_u32 (wrap 32 address) port.

Definition address_string (e : t) : list Z :=
  match m_type e with
  | UNDEFINED => []
  | IP_V4 => ip4_addr_to_string (network_to_host 4 (load 4 off_addr4 (m_address_storage e)))
  | IP_V6 =>
      let '(rc, buf) := uv_inet_ntop6 (take 16 (drop off_addr6 (m_address_storage e))) in
      if error_bool (Error_of_uv rc) then [] else buf
  end.

Definition port (e : t) : Z :=
  match m_type e with
  | IP_V4 => network_to_host 2 (load 2 off_port (m_address_storage e))
  | IP_V6 => network_to_host 2 (load 2 off_port (m_address_storage e))
  | UNDEFINED => 0
  end.

Definition ipv4_addr (e : t) : Z :=
  if decide (m_type e <> IP_V4) then 0
  else network_to_host 4 (load 4 off_addr4 (m_address_storage e)).

Definition raw_endpoint (e : t) : list Z := m_address_storage e.

Definition clear (e : t) : t := mk (replicate sizeof_sockaddr_storage 0) UNDEFINED.

(** [operator<<]; [decimal] is the standard library's formatting of an unsigned integer. *)
Definition print (decimal : Z -> list Z) (e : t) : list Z :=
  match m_type e with
  | IP_V4 => address_string e ++ [colon] ++ decimal (port e)
  | IP_V6 => chars "[" ++ address_string e ++ chars "]:" ++ decimal (port e)
  | UNDEFINED => []
  end.

Definition raw_type (ty : Type_) : Z :=
  match ty with IP_V4 => AF_INET | IP_V6 => AF_INET6 | UNDEFINED => AF_UNSPEC end.

End Operations.

(** ** What an endpoint denotes *)

Inductive Addr := V4 (bytes : list Z) | V6 (bytes : list Z).

(** The address, most significant byte first, and the port; nothing for [UNDEFINED]. *)
Definition view (e : t) : option (Addr * Z) :=
  let mem := m_address_storage e in
  match m_type e with
  | UNDEFINED => None
  | IP_V4 => Some (V4 (slice off_addr4 4 mem), be_val (slice off_port 2 mem))
  | IP_V6 => Some (V6 (slice off_addr6 16 mem), be_val (slice off_port 2 mem))
  end.

(** Storage of the right size, and a family field that agrees with [m_type]. *)
Definition wf {host : Host} (e : t) : Prop :=
  length (m_address_storage e) = sizeof_sockaddr_storage /\
  Forall byte_ok (m_address_storage e) /\
  match m_type e with
  | UNDEFINED => True
  | ty => load 2 off_family (m_address_storage e) = raw_type ty
  end.

Section Facts.
Context {host : Host} {uv : UvErrno} {inet6 : Inet6}.

Lemma load_slice n off mem : load n off mem = bytes_word (slice off n mem).
Proof. done. Qed.

Lemma ntoh_slice n off mem :
  (off + n <= length mem)%nat -> Forall byte_ok mem ->
  network_to_host n (load n off mem) = be_val (slice off n mem).
Proof.
  intros Hl Hok. rewrite load_slice. rewrite <- (length_slice off n mem Hl) at 1.
  by apply network_to_host_bytes, slice_ok.
Qed.

Lemma empty_wf : wf empty.
Proof.
  split_and!; [done| |done]. apply Forall_replicate. unfold byte_ok, fits. lia.
Qed.

Lemma zero_byte_ok : byte_ok 0.
Proof. unfold byte_ok, fits. lia. Qed.

Lemma be_val_network v n : fits (8 * Z.of_nat n) v -> be_val (word_bytes n (host_to_network n v)) = v.
Proof.
  intros H. unfold be_val. rewrite host_to_network_memory, rev_involutive, le_val_le_split.
  by apply Z.mod_small.
Qed.

Lemma bytes_word_u16 v : fits 16 v -> bytes_word (word_bytes 2 v) = v.
Proof. intros. by apply bytes_word_bytes. Qed.

Lemma of_u32_view a p :
  fits 32 a -> fits 16 p -> wf (of_u32 a p) /\ view (of_u32 a p) = Some (V4 (quad a), p).
Proof.
  intros Ha Hp. pose proof zero_byte_ok. unfold of_u32, view, wf. cbn [m_address_storage m_type empty].
  rewrite load_slice. slices. split; [split_and!|].
  - rewrite !length_store_bytes; mem_side.
  - mem_wf.
  - by apply bytes_word_u16.
  - rewrite be_val_network by done. by rewrite host_to_network_memory.
Qed.

(** The integer the byte constructor composes is the little-endian one. *)
Lemma compose_le b0 b1 b2 b3 :
  Forall byte_ok [b0; b1; b2; b3] ->
  (b3 <<<[32] 24) .| (b2 <<<[32] 16) .| (b1 <<<[32] 8) .| b0 = le_val [b0; b1; b2; b3].
Proof.
  rewrite !Forall_cons. unfold byte_ok, fits. intros (H0 & H1 & H2 & H3 & _).
  rewrite !Z.shiftl_mul_pow2, !wrap_small by (unfold fits; lia).
  rewrite <- !Z.lor_assoc, (lor_add_fields 8), (lor_add_fields 16), (lor_add_fields 24)
    by (unfold fits; lia).
  cbn [le_val]. lia.
Qed.

Lemma of_bytes4_view bs p :
  Forall byte_ok bs -> length bs = 4%nat -> fits 16 p ->
  wf (of_bytes bs p) /\ view (of_bytes bs p) = Some (V4 (if big_endian then rev bs else bs), p).
Proof.
  intros Hok Hl Hp. pose proof zero_byte_ok.
  destruct bs as [|b0 [|b1 [|b2 [|b3 [|]]]]]; try done. unfold of_bytes. cbn [length Nat.eqb nth].
  rewrite compose_le by done. unfold view, wf. cbn [m_address_storage m_type empty].
  rewrite load_slice. slices. split; [split_and!|].
  - rewrite !length_store_bytes; mem_side.
  - mem_wf.
  - by apply bytes_word_u16.
  - rewrite be_val_network by done. unfold word_bytes.
    rewrite <- Hl, le_split_le_val by done. by destruct big_endian.
Qed.

Lemma of_bytes16_view bs p :
  Forall byte_ok bs -> length bs = 16%nat -> fits 16 p ->
  wf (of_bytes bs p) /\ view (of_bytes bs p) = Some (V6 bs, p).
Proof.
  intros Hok Hl Hp. pose proof zero_byte_ok. unfold of_bytes. rewrite Hl. cbn [Nat.eqb].
  unfold view, wf. cbn [m_address_storage m_type empty].
  rewrite load_slice. slices. split; [split_and!|].
  - rewrite !length_store_bytes; mem_side.
  - mem_wf.
  - by apply bytes_word_u16.
  - by rewrite be_val_network.
Qed.

Lemma of_string_v4 a p :
  fits 32 a -> fits 16 p ->
  wf (of_string (ip4_addr_to_string a) p) /\
  view (of_string (ip4_addr_to_string a) p) = Some (V4 (quad a), p).
Proof.
  intros Ha Hp. pose proof zero_byte_ok. unfold of_string.
  rewrite bool_decide_false by (intros E; pose proof (inet_pton4_quad a) as Hq; by rewrite E in Hq).
  rewrite bool_decide_false by (apply ip4_text_not_in; unfold ip4_char, dot, colon; lia).
  unfold uv_ip4_addr, uv_inet_pton4. rewrite c_str_id, inet_pton4_quad by apply ip4_text_no_nul.
  assert (error_bool (Error_of_uv 0) = false) as -> by by rewrite error_bool_of_uv.
  assert (length (quad a) = 4%nat) as Hq by (unfold quad; by rewrite length_rev, length_le_split).
  unfold view, wf. cbn [m_address_storage m_type empty]. rewrite load_slice. slices. split; [split_and!|].
  - rewrite !length_store_bytes; mem_side.
  - mem_wf. apply quad_bytes.
  - by apply bytes_word_u16.
  - by rewrite be_val_network.
Qed.

(** The getters are functions of what the endpoint denotes. *)
Lemma observers e :
  wf e ->
  match view e with
  | None => m_type e = UNDEFINED /\ port e = 0 /\ ipv4_addr e = 0 /\ address_string e = []
  | Some (V4 bs, p) =>
      m_type e = IP_V4 /\ port e = p /\ ipv4_addr e = be_val bs /\
      address_string e = ip4_addr_to_string (be_val bs)
  | Some (V6 bs, p) =>
      m_type e = IP_V6 /\ port e = p /\ ipv4_addr e = 0 /\
      address_string e = (let '(rc, buf) := uv_inet_ntop6 bs in
                          if error_bool (Error_of_uv rc) then [] else buf)
  end.
Proof.
  intros (Hl & Hok & _). unfold view, port, ipv4_addr, address_string.
  destruct e as [mem []]; cbn [m_type m_address_storage] in *; [done| |].
  - rewrite decide_False by (intros H; by apply H).
    rewrite !ntoh_slice by (done || (rewrite Hl; unfold sizeof_sockaddr_storage, off_port, off_addr4; lia)).
    done.
  - rewrite decide_True by done.
    rewrite !ntoh_slice by (done || (rewrite Hl; unfold sizeof_sockaddr_storage, off_port, off_addr4; lia)).
    done.
Qed.

Lemma view_port_fits e a p : wf e -> view e = Some (a, p) -> fits 16 p.
Proof.
  intros (Hl & Hok & _) Hv. assert (p = be_val (slice off_port 2 (m_address_storage e))) as ->.
  { unfold view in Hv. by destruct (m_type e); simplify_eq. }
  pose proof (le_val_bound (rev (slice off_port 2 (m_address_storage e)))) as Hb.
  rewrite length_rev, length_slice in Hb by (rewrite Hl; unfold off_port, sizeof_sockaddr_storage; lia).
  apply Hb. by apply Forall_rev, slice_ok.
Qed.

Lemma view_bytes_ok e a p : wf e -> view e = Some (a, p) ->
  match a with
  | V4 bs => Forall byte_ok bs /\ length bs = 4%nat
  | V6 bs => Forall byte_ok bs /\ length bs = 16%nat
  end.
Proof.
  intros (Hl & Hok & _) Hv. unfold view in Hv. destruct (m_type e); simplify_eq;
    (split; [by apply slice_ok|]); apply length_slice; rewrite Hl;
    unfold off_addr4, off_addr6, sizeof_sockaddr_storage; lia.
Qed.

Lemma uv_success : error_bool (Error_of_uv 0) = false.
Proof. by rewrite error_bool_of_uv. Qed.

Lemma of_string_v6 {laws : Inet6Laws inet6} bs p :
  Forall byte_ok bs -> length bs = 16%nat -> fits 16 p ->
  exists s, uv_inet_ntop6 bs = (0, s) /\ wf (of_string s p) /\ view (of_string s p) = Some (V6 bs, p).
Proof.
  intros Hok Hl Hp. destruct (inet6_text bs Hok Hl) as (s & Hs & Hnul & Hcol & Hparse).
  destruct (Hparse p (m_address_storage empty)) as (mem & Hmem & Hl' & Hok' & Hfam & Hport & Haddr);
    [done|done|apply empty_wf|].
  exists s. split; [done|]. unfold of_string. rewrite bool_decide_false by (intros ->; set_solver).
  rewrite bool_decide_true, c_str_id, Hmem, uv_success by done.
  unfold wf, view. cbn [m_type m_address_storage]. rewrite Hport, Haddr, be_val_network by done. done.
Qed.

Lemma of_sockaddr_view e :
  wf e -> view e <> None ->
  exists e', of_sockaddr (raw_endpoint e) = Ret e' /\ wf e' /\ view e' = view e.
Proof.
  intros (Hl & Hok & Hfam) Hv. unfold of_sockaddr, raw_endpoint. pose proof zero_byte_ok. rewrite Hl. cbn [Nat.leb].
  destruct e as [mem ty]. cbn [m_type m_address_storage] in *.
  destruct ty; [done| |]; rewrite Hfam; cbn -[take store_bytes replicate]; eexists; (split; [done|]); unfold wf, view;
    cbn [m_type m_address_storage].
  all: assert (28 <= length mem)%nat as Hmem by (rewrite Hl; unfold sizeof_sockaddr_storage; lia).
  all: rewrite load_slice, !slice_copy by (unfold off_family, off_port, off_addr4, off_addr6,
    sizeof_sockaddr_in, sizeof_sockaddr_in6; lia).
  all: split; [split_and!|done].
  all: try (rewrite length_store_bytes; rewrite ?length_take, ?length_replicate;
    unfold sizeof_sockaddr_storage, sizeof_sockaddr_in, sizeof_sockaddr_in6; lia).
  all: try (apply store_bytes_ok; [by apply Forall_take|by apply Forall_replicate]).
  all: by rewrite <- load_slice.
Qed.

(** The numeric constructors: for a 16-bit port, an endpoint made of a 32-bit address
    or of 16 bytes reports exactly that address (as a number, as text) and that port, on a
    host of either byte order; made of 4 bytes it reports them as the address on a
    little-endian host and in reverse on a big-endian one; any other number of bytes gives
    the undefined endpoint, with port 0 and an empty address. *)
Theorem endpoint_constructors p :
  fits 16 p ->
  (forall a, fits 32 a ->
     m_type (of_u32 a p) = IP_V4 /\ port (of_u32 a p) = p /\ ipv4_addr (of_u32 a p) = a /\
     address_string (of_u32 a p) = ip4_addr_to_string a) /\
  (forall bs, Forall byte_ok bs -> length bs = 16%nat ->
     m_type (of_bytes bs p) = IP_V6 /\ port (of_bytes bs p) = p /\ ipv4_addr (of_bytes bs p) = 0 /\
     view (of_bytes bs p) = Some (V6 bs, p)) /\
  (forall bs, Forall byte_ok bs -> length bs = 4%nat ->
     m_type (of_bytes bs p) = IP_V4 /\ port (of_bytes bs p) = p /\
     ipv4_addr (of_bytes bs p) = be_val (if big_endian then rev bs else bs)) /\
  (forall bs, length bs <> 4%nat -> length bs <> 16%nat ->
     m_type (of_bytes bs p) = UNDEFINED /\ port (of_bytes bs p) = 0 /\ address_string (of_bytes bs p) = []).
Proof.
  intros Hp. split_and!.
  - intros a Ha. destruct (of_u32_view a p Ha Hp) as [Hwf Hv]. pose proof (observers _ Hwf) as Hobs.
    rewrite Hv, quad_value in Hobs by done. done.
  - intros bs Hok Hl. destruct (of_bytes16_view bs p Hok Hl Hp) as [Hwf Hv].
    pose proof (observers _ Hwf) as Hobs. rewrite Hv in Hobs. by destruct Hobs as (? & ? & ? & ?).
  - intros bs Hok Hl. destruct (of_bytes4_view bs p Hok Hl Hp) as [Hwf Hv].
    pose proof (observers _ Hwf) as Hobs. rewrite Hv in Hobs. by destruct Hobs as (? & ? & ? & ?).
  - intros bs H4 H16. unfold of_bytes. rewrite (proj2 (Nat.eqb_neq _ _) H4), (proj2 (Nat.eqb_neq _ _) H16). done.
Qed.

(** Round trips of an endpoint of type IPv4 or IPv6: an endpoint made of its address
    text and its port, and an endpoint made of its raw [sockaddr], both denote the same
    address and port. *)
Theorem endpoint_roundtrips {laws : Inet6Laws inet6} e :
  wf e -> m_type e <> UNDEFINED ->
  view (of_string (address_string e) (port e)) = view e /\
  exists e', of_sockaddr (raw_endpoint e) = Ret e' /\ view e' = view e /\ m_type e' = m_type e.
Proof.
  intros Hwf Hty. pose proof (observers e Hwf) as Hobs.
  destruct (view e) as [[a p]|] eqn:Hv; [|by destruct Hobs].
  pose proof (view_port_fits _ _ _ Hwf Hv) as Hp. pose proof (view_bytes_ok _ _ _ Hwf Hv) as Hb.
  split.
  - destruct a as [bs|bs]; destruct Hb as [Hok Hl], Hobs as (_ & -> & _ & ->).
    + destruct (quad_of_bytes bs Hok Hl) as [Hf Hq]. rewrite (proj2 (of_string_v4 _ p Hf Hp)). by rewrite Hq.
    + destruct (of_string_v6 bs p Hok Hl Hp) as (s & -> & _ & Hs). by rewrite uv_success.
  - destruct (of_sockaddr_view e Hwf) as (e' & He' & _ & Hv'); [by rewrite Hv|].
    exists e'. split_and!; [done|by rewrite Hv'|]. unfold view in Hv', Hv.
    destruct (m_type e), (m_type e'); simplify_eq; done.
Qed.

(** The text constructor on a text without colon and NUL: the endpoint is of type IPv4
    exactly when the text is the canonical dotted quad of some address, and then has that
    address and the given port; otherwise it is undefined. *)
Theorem endpoint_of_ip4_text s p :
  fits 16 p -> (0 ∉ s) -> (colon ∉ s) ->
  (exists a, fits 32 a /\ s = ip4_addr_to_string a /\ view (of_string s p) = Some (V4 (quad a), p)) \/
  ((forall a, s <> ip4_addr_to_string a) /\ view (of_string s p) = None).
Proof.
  intros Hp Hnul Hcol. destruct (inet_pton4 s) as [bs|] eqn:E.
  - left. apply inet_pton4_inv in E as (Hok & Hl & ->). exists (be_val bs).
    destruct (quad_of_bytes bs Hok Hl) as [Hf _]. split_and!; [done|done|by apply of_string_v4].
  - right. split; [intros a ->; by rewrite inet_pton4_quad in E|].
    unfold of_string. case_bool_decide; [done|]. rewrite bool_decide_false by done.
    unfold uv_ip4_addr, uv_inet_pton4. rewrite c_str_id, E by done. by rewrite error_of_uv_code_fails.
Qed.

End Facts.

(** An IPv6 notation that satisfies the laws: a colon, then the bytes, each shifted by one. *)
Definition Inet6Plain {host : Host} {uv : UvErrno} : Inet6 := {|
  uv_inet_ntop6 bs := (0, 58 :: map Z.succ bs);
  uv_ip6_addr s port mem :=
    match s with
    | 58 :: cs =>
        (0, store_bytes off_addr6 (map Z.pred cs) (store 2 off_port (host_to_network 2 port)
              (store 2 off_family AF_INET6 mem)))
    | _ => (uv_code UV_EINVAL, mem)
    end
|}.

#[global] Instance Inet6Plain_laws {host : Host} {uv : UvErrno} : Inet6Laws Inet6Plain.
Proof.
  constructor. intros bs Hok Hl. exists (58 :: map Z.succ bs). split_and!; [done| |set_solver|].
  { rewrite not_elem_of_cons. split; [done|]. intros Hin. apply list_elem_of_fmap in Hin as (b & Hb & Hin).
    rewrite Forall_forall in Hok. apply Hok in Hin. unfold byte_ok, fits in Hin. lia. }
  intros p mem Hp Hm Hmok. eexists. split; [reflexivity|].
  assert (map Z.pred (map Z.succ bs) = bs) as ->.
  { rewrite map_map, (map_ext _ id) by (intros; apply Z.pred_succ). apply map_id. }
  rewrite load_slice. unfold sizeof_sockaddr_storage in Hm. slices. split_and!; [|mem_wf|by apply bytes_word_u16|done|done].
  rewrite !length_store_bytes; mem_side.
Qed.

Lemma endpoint_constructors_witness :
  let of_u32 := of_u32 (host := LittleEndianHost) in
  m_type (of_u32 0x7f000001 8080) = IP_V4 /\ port (host := LittleEndianHost) (of_u32 0x7f000001 8080) = 8080 /\
  ipv4_addr (host := LittleEndianHost) (of_u32 0x7f000001 8080) = 0x7f000001 /\
  address_string (host := LittleEndianHost) (uv := UvFallback)
    (inet6 := Inet6Plain (host := LittleEndianHost) (uv := UvFallback))
    (of_u32 0x7f000001 8080) = chars "127.0.0.1".
Proof.
  refine (proj1 (endpoint_constructors (host := LittleEndianHost) (uv := UvFallback)
    (inet6 := Inet6Plain (host := LittleEndianHost) (uv := UvFallback)) 8080 _) 0x7f000001 _); by vm_compute.
Defined.

Lemma endpoint_roundtrips_witness :
  let e := of_u32 (host := LittleEndianHost) 0x7f000001 8080 in
  view (of_string (host := LittleEndianHost) (uv := UvFallback)
    (inet6 := Inet6Plain (host := LittleEndianHost) (uv := UvFallback)) (chars "127.0.0.1") 8080) = view e /\
  exists e', of_sockaddr (host := LittleEndianHost) (raw_endpoint e) = Ret e' /\ view e' = view e /\ m_type e' = IP_V4.
Proof.
  refine (endpoint_roundtrips (host := LittleEndianHost) (uv := UvFallback)
    (inet6 := Inet6Plain (host := LittleEndianHost) (uv := UvFallback))
    (laws := Inet6Plain_laws (host := LittleEndianHost) (uv := UvFallback))
    (of_u32 (host := LittleEndianHost) 0x7f000001 8080) _ _); [|discriminate].
  split_and!; [reflexivity| |reflexivity]. refine (bool_decide_unpack _ _). vm_compute. exact I.
Defined.

Lemma endpoint_of_ip4_text_witness :
  let s := chars "10.0.0.300" in
  let e := of_string (host := LittleEndianHost) (uv := UvFallback)
    (inet6 := Inet6Plain (host := LittleEndianHost) (uv := UvFallback)) s 80 in
  (exists a, fits 32 a /\ s = ip4_addr_to_string a /\ view e = Some (V4 (quad a), 80)) \/
  ((forall a, s <> ip4_addr_to_string a) /\ view e = None).
Proof.
  refine (endpoint_of_ip4_text (host := LittleEndianHost) (uv := UvFallback)
    (inet6 := Inet6Plain (host := LittleEndianHost) (uv := UvFallback)) (chars "10.0.0.300") 80 _ _ _);
    refine (bool_decide_unpack _ _); vm_compute; exact I.
Defined.

End Endpoint.

Module PeerId.

Record t := mk { address_high : Z; address_low : Z; port : Z }.

#[global] Instance t_eq_dec : EqDecision t.
Proof. solve_decision. Defined.

Section Operations.
Context {host : Host}.

(** The constructor, over the memory at the pointer. *)
Definition of_address (address : list Z) : t :=
  let sa_family := load 2 off_family address in
  if sa_family =? AF_INET then
    mk 0 (load 4 off_addr4 address) (load 2 off_port address)
  else if sa_family =? AF_INET6 then
    mk (load 8 off_addr6 address) (load 8 (off_addr6 + 8) address) (load 2 off_port address)
  else mk 0 0 0.

End Operations.

Definition eqb (lhs rhs : t) : bool :=
  (address_high lhs =? address_high rhs) && (address_low lhs =? address_low rhs) && (port lhs =? port rhs).

(** [std::hash<PeerId>], over the standard library's integer hashes. *)
Definition hash (hash64 hash16 : Z -> Z) (id : t) : Z :=
  Z.lxor (Z.lxor (hash64 (address_high id)) (hash64 (address_low id))) (hash16 (port id)).

Import Endpoint.

Section Facts.
Context {host : Host}.

Lemma eqb_eq x y : eqb x y = true <-> x = y.
Proof.
  unfold eqb. destruct x, y; cbn. rewrite !andb_true_iff, !Z.eqb_eq. split.
  - by intros [[-> ->] ->].
  - by intros [= -> -> ->].
Qed.

Lemma bytes_word_inj xs ys :
  Forall byte_ok xs -> Forall byte_ok ys -> length xs = length ys -> bytes_word xs = bytes_word ys -> xs = ys.
Proof.
  intros Hx Hy Hl H. by rewrite <- (word_bytes_word xs), <- (word_bytes_word ys), H, Hl.
Qed.

(** The identifier of a defined endpoint, in terms of the bytes it denotes. *)
Definition id_of (v : Addr * Z) : PeerId.t :=
  match v with
  | (V4 bs, p) => PeerId.mk 0 (bytes_word bs) (host_to_network 2 p)
  | (V6 bs, p) => PeerId.mk (bytes_word (take 8 bs)) (bytes_word (drop 8 bs)) (host_to_network 2 p)
  end.

Lemma port_word mem :
  length mem = sizeof_sockaddr_storage -> Forall byte_ok mem ->
  load 2 off_port mem = host_to_network 2 (be_val (slice off_port 2 mem)).
Proof.
  intros Hl Hok. rewrite <- (ntoh_slice 2 off_port mem) by (done || (rewrite Hl; unfold off_port, sizeof_sockaddr_storage; lia)).
  symmetry. pose proof (bytes_word_fits (slice off_port 2 mem) (slice_ok _ _ _ Hok)) as Hf.
  rewrite length_slice in Hf by (rewrite Hl; unfold off_port, sizeof_sockaddr_storage; lia).
  by apply (network_to_host_to_network 2).
Qed.

Lemma of_address_id e v : wf e -> view e = Some v -> of_address (raw_endpoint e) = id_of v.
Proof.
  intros (Hl & Hok & Hfam) Hv. unfold of_address, raw_endpoint, view in *.
  destruct e as [mem []]; cbn [m_type m_address_storage] in *; simplify_eq; rewrite Hfam; cbn [raw_type id_of].
  - rewrite Z.eqb_refl, port_word by done. done.
  - change (AF_INET6 =? AF_INET) with false. rewrite Z.eqb_refl, port_word by done.
    rewrite !load_slice. unfold slice. rewrite take_take, skipn_firstn_comm, drop_drop. done.
Qed.

Lemma htons_inj p q : fits 16 p -> fits 16 q -> host_to_network 2 p = host_to_network 2 q -> p = q.
Proof.
  intros Hp Hq H. rewrite <- (network_to_host_to_network 2 p), <- (network_to_host_to_network 2 q) by done.
  by rewrite H.
Qed.

Lemma v6_id_collides a b :
  Forall byte_ok a -> Forall byte_ok b -> length a = 4%nat -> length b = 16%nat ->
  b = word_bytes 8 0 ++ word_bytes 8 (bytes_word a) <->
  0 = bytes_word (take 8 b) /\ bytes_word a = bytes_word (drop 8 b).
Proof.
  intros Ha Hb Hla Hlb.
  assert (fits 64 (bytes_word a)) as Hf.
  { apply (fits_weaken 32); [lia|]. pose proof (bytes_word_fits a Ha) as H. by rewrite Hla in H. }
  split.
  - intros ->. rewrite take_app_length', drop_app_length' by (by rewrite word_bytes_length).
    by rewrite !bytes_word_bytes.
  - intros [H1 H2]. rewrite <- (take_drop 8 b) at 1. f_equal.
    + rewrite H1. symmetry. apply word_bytes_word_n; [by apply Forall_take|rewrite length_take; lia].
    + rewrite H2. symmetry. apply word_bytes_word_n; [by apply Forall_drop|rewrite length_drop; lia].
Qed.

(** A peer identifier tells remote endpoints apart: the identifiers of two endpoints of
    the same family compare equal exactly when address and port are the same.  Across the
    families they compare equal only for an IPv6 address whose first eight bytes are zero
    and whose last eight hold the IPv4 address as a zero-extended word, with the same port. *)
Theorem peer_id_identifies e1 e2 :
  wf e1 -> wf e2 -> m_type e1 <> UNDEFINED -> m_type e2 <> UNDEFINED ->
  (eqb (of_address (raw_endpoint e1)) (of_address (raw_endpoint e2)) = true <->
   match view e1, view e2 with
   | Some (V4 a, p), Some (V6 b, q) | Some (V6 b, p), Some (V4 a, q) =>
       p = q /\ b = word_bytes 8 0 ++ word_bytes 8 (bytes_word a)
   | v1, v2 => v1 = v2
   end).
Proof.
  intros Hwf1 Hwf2 Ht1 Ht2. rewrite eqb_eq.
  destruct (view e1) as [[a1 p1]|] eqn:Hv1; [|unfold view in Hv1; by destruct (m_type e1)].
  destruct (view e2) as [[a2 p2]|] eqn:Hv2; [|unfold view in Hv2; by destruct (m_type e2)].
  rewrite (of_address_id _ _ Hwf1 Hv1), (of_address_id _ _ Hwf2 Hv2).
  pose proof (view_port_fits _ _ _ Hwf1 Hv1) as Hp1. pose proof (view_port_fits _ _ _ Hwf2 Hv2) as Hp2.
  apply view_bytes_ok in Hv1; [|done]. apply view_bytes_ok in Hv2; [|done]. revert Hv1 Hv2.
  destruct a1 as [b1|b1], a2 as [b2|b2]; intros [Hok1 Hl1] [Hok2 Hl2]; cbn [id_of].
  - split; [|congruence]. intros [= Hb Hp]. apply htons_inj in Hp as ->; [|done|done].
    by rewrite (bytes_word_inj b1 b2) by congruence.
  - rewrite (v6_id_collides b1 b2) by done.
    split; [intros [= H1 H2 Hp]|intros (-> & H1 & H2); congruence].
    apply htons_inj in Hp as ->; done.
  - rewrite (v6_id_collides b2 b1) by done.
    split; [intros [= H1 H2 Hp]|intros (-> & H1 & H2); congruence].
    apply htons_inj in Hp as ->; done.
  - split; [|congruence]. intros [= H1 H2 Hp]. apply htons_inj in Hp as ->; [|done|done].
    assert (take 8 b1 = take 8 b2) as E1.
    { apply bytes_word_inj; [by apply Forall_take|by apply Forall_take|rewrite !length_take; lia|done]. }
    assert (drop 8 b1 = drop 8 b2) as E2.
    { apply bytes_word_inj; [by apply Forall_drop|by apply Forall_drop|rewrite !length_drop; lia|done]. }
    by rewrite <- (take_drop 8 b1), <- (take_drop 8 b2), E1, E2.
Qed.

End Facts.

Lemma peer_id_identifies_witness :
  let e1 := of_u32 (host := LittleEndianHost) 0x7f000001 8080 in
  let e2 := of_u32 (host := LittleEndianHost) 0x7f000001 8081 in
  eqb (of_address (host := LittleEndianHost) (raw_endpoint e1))
      (of_address (host := LittleEndianHost) (raw_endpoint e2)) = true <-> view e1 = view e2.
Proof.
  refine (peer_id_identifies (host := LittleEndianHost) (of_u32 (host := LittleEndianHost) 0x7f000001 8080)
    (of_u32 (host := LittleEndianHost) 0x7f000001 8081) _ _ _ _); try discriminate;
  (split_and!; [reflexivity| |reflexivity]); refine (bool_decide_unpack _ _); vm_compute; exact I.
Defined.

End PeerId.
