(* ===== verification/Path.v ===== *)
(** * fs::Path

    [source/io/fs/Path.h] and [Path.cpp], the POSIX build ([value_type] is [char], [/] is the
    only separator).  A path is its [m_pathname], a list of characters; positions are [nat]
    and [string_type::npos] is [None].  A [for] or [while] loop that moves a position over
    separators is a structural recursion on the text or on the position.  The [assert]s of the
    source and the exception of [std::string::erase] are faults of the outcome.  Texts
    here are [char] strings; sources of other kinds and conversions are in [PathText], the reverse iterator in [PathReverse]. *)

From S2P Require Import Prelude.
Local Open Scope outcome_scope.
Local Open Scope nat_scope.

Module Path.

(** ** Characters and searches *)

Definition separator : Z := 47.
Definition dot : Z := 46.

Definition is_directory_separator (c : Z) : bool := (c =? separator)%Z.
Definition is_element_separator (c : Z) : bool := (c =? separator)%Z.

(** [str[pos]]; the position [size()] holds the terminating NUL. *)
Definition char_at (str : list Z) (pos : nat) : Z := nth pos str 0%Z.
Definition sep_at (str : list Z) (pos : nat) : bool := is_directory_separator (char_at str pos).

(** The number of leading characters that satisfy [p]. *)
Fixpoint span (p : Z -> bool) (str : list Z) : nat :=
  match str with
  | [] => 0
  | c :: str => if p c then S (span p str) else 0
  end.

Definition not_separator (c : Z) : bool := negb (is_directory_separator c).

(** [while (pos != size && is_directory_separator(str[pos])) ++pos;]. *)
Definition skip_separators (str : list Z) (pos : nat) : nat :=
  pos + span is_directory_separator (drop pos str).

(** [str.find_first_of(separators, pos)]. *)
Definition find_first_of (str : list Z) (pos : nat) : option nat :=
  let k := pos + span not_separator (drop pos str) in
  if k <? length str then Some k else None.

(** The last position below [n] whose character satisfies [p]. *)
Fixpoint last_below (p : Z -> bool) (str : list Z) (n : nat) : option nat :=
  match n with
  | O => None
  | S k => if p (char_at str k) then Some k else last_below p str k
  end.

(** [str.find_last_of(separators, end_pos - 1)]; for [end_pos = 0] the argument wraps to
    [npos] and the whole text is searched. *)
Definition find_last_of_before (str : list Z) (end_pos : nat) : option nat :=
  match end_pos with
  | O => last_below is_directory_separator str (length str)
  | S _ => last_below is_directory_separator str (Nat.min end_pos (length str))
  end.

(** [str.rfind(dot)]. *)
Definition rfind_dot (str : list Z) : option nat := last_below (Z.eqb dot) str (length str).

Definition substr (str : list Z) (pos n : nat) : list Z := take n (drop pos str).

(** [m_pathname.erase(pos)]: throws when the position is past the end. *)
Definition erase_from (str : list Z) (pos : option nat) : outcome (list Z) :=
  match pos with
  | Some pos => check (pos <=? length str) else OutOfRange in Ret (take pos str)
  | None => Fault OutOfRange
  end.

(** ** Helpers of the unnamed namespace *)

(** [while (pos > 0 && is_directory_separator(str[pos-1])) --pos;]. *)
Fixpoint leftmost_separator (str : list Z) (pos : nat) : nat :=
  match pos with
  | O => O
  | S p => if sep_at str p then leftmost_separator str p else pos
  end.

Definition is_root_separator (str : list Z) (pos : nat) : outcome bool :=
  check (negb (length str =? 0) && sep_at str pos) else AssertFailed in
  let pos := leftmost_separator str pos in
  if pos =? 0 then Ret true
  else if (pos <? 3) || negb (sep_at str 0) || negb (sep_at str 1) then Ret false
  else Ret (bool_decide (find_first_of str 2 = Some pos)).

Definition filename_pos (str : list Z) (end_pos : nat) : nat :=
  if (end_pos =? 2) && sep_at str 0 && sep_at str 1 then 0
  else if negb (end_pos =? 0) && sep_at str (end_pos - 1) then end_pos - 1
  else
    match find_last_of_before str end_pos with
    | None => 0
    | Some pos => if (pos =? 1) && sep_at str 0 then 0 else pos + 1
    end.

Definition root_directory_start (path : list Z) (size : nat) : option nat :=
  if (size =? 2) && sep_at path 0 && sep_at path 1 then None
  else if (3 <? size) && sep_at path 0 && sep_at path 1 && negb (sep_at path 2) then
    match find_first_of path 2 with
    | Some pos => if pos <? size then Some pos else None
    | None => None
    end
  else if (0 <? size) && sep_at path 0 then Some 0
  else None.

(** [first_element] with its default size; the position and the size of the element. *)
Definition first_element (src : list Z) : nat * nat :=
  let size := length src in
  if size =? 0 then (0, 0)
  else if (2 <=? size) && sep_at src 0 && sep_at src 1 && ((size =? 2) || negb (sep_at src 2)) then
    (0, 2 + span not_separator (drop 2 src))
  else if sep_at src 0 then
    (* bypass extra leading separators *)
    (span is_directory_separator (drop 1 src), 1)
  else (0, span not_separator src).

(** [for (; end_pos > 0 && (end_pos-1) != root_dir_pos && sep(str[end_pos-1]); --end_pos)]. *)
Fixpoint skip_back (str : list Z) (root_dir_pos : option nat) (end_pos : nat) : nat :=
  match end_pos with
  | O => O
  | S p =>
      if negb (bool_decide (Some p = root_dir_pos)) && sep_at str p
      then skip_back str root_dir_pos p else end_pos
  end.

(** ** Iterators

    An iterator over a path: its element and its position; [end()] is the position
    [size()]. *)
Record Iterator := mkIterator { m_element : list Z; m_pos : nat }.

Definition dot_path : list Z := [dot].
Definition dot_dot_path : list Z := [dot; dot].

Definition begin_ (s : list Z) : Iterator :=
  let '(pos, element_size) := first_element s in
  mkIterator (substr s pos element_size) pos.

Definition end_ (s : list Z) : Iterator := mkIterator [] (length s).

(** Iterators of the same path are equal when their positions are. *)
Definition iter_eqb (a b : Iterator) : bool := m_pos a =? m_pos b.

Definition element_at (s : list Z) (pos : nat) : Iterator :=
  let end_pos := default (length s) (find_first_of s pos) in
  mkIterator (substr s pos (end_pos - pos)) pos.

Definition increment (s : list Z) (it : Iterator) : outcome Iterator :=
  check (m_pos it <? length s) else AssertFailed in
  let pos := m_pos it + length (m_element it) in
  if pos =? length s then Ret (mkIterator [] pos)
  else
    let was_net := (2 <? length (m_element it)) && sep_at (m_element it) 0
                   && sep_at (m_element it) 1 && negb (sep_at (m_element it) 2) in
    if sep_at s pos then
      if was_net then Ret (mkIterator [separator] pos)
      else
        let pos := skip_separators s pos in
        if pos =? length s then
          let* root := is_root_separator s (pos - 1) in
          if root then Ret (element_at s pos)
          else Ret (mkIterator dot_path (pos - 1))
        else Ret (element_at s pos)
    else Ret (element_at s pos).

Definition decrement (s : list Z) (it : Iterator) : outcome Iterator :=
  check (negb (m_pos it =? 0)) else AssertFailed in
  let end_pos := m_pos it in
  let* trailing :=
    if (m_pos it =? length s) && (1 <? length s) && sep_at s (m_pos it - 1)
    then let* root := is_root_separator s (m_pos it - 1) in Ret (negb root)
    else Ret false in
  if trailing then Ret (mkIterator dot_path (m_pos it - 1))
  else
    let root_dir_pos := root_directory_start s end_pos in
    let end_pos := skip_back s root_dir_pos end_pos in
    let pos := filename_pos s end_pos in
    Ret (mkIterator (substr s pos (end_pos - pos)) pos).

(** The elements from an iterator to [end()]. *)
Fixpoint elements_from (fuel : nat) (s : list Z) (it : Iterator) : outcome (list (list Z)) :=
  if iter_eqb it (end_ s) then Ret []
  else match fuel with
  | O => Fault FuelExhausted
  | S fuel =>
      let* next := increment s it in
      let* rest := elements_from fuel s next in
      Ret (m_element it :: rest)
  end.

Definition elements (s : list Z) : outcome (list (list Z)) := elements_from (length s) s (begin_ s).

(** ** Comparison *)

(** [operator<] of [std::string]. *)
Fixpoint string_lt (a b : list Z) : bool :=
  match a, b with
  | _, [] => false
  | [], _ :: _ => true
  | x :: a, y :: b => (x <? y)%Z || ((x =? y)%Z && string_lt a b)
  end.

Fixpoint lex_compare (fuel : nat) (s1 : list Z) (first1 : Iterator) (s2 : list Z) (first2 : Iterator)
    : outcome Z :=
  let at_end1 := iter_eqb first1 (end_ s1) in
  let at_end2 := iter_eqb first2 (end_ s2) in
  if negb at_end1 && negb at_end2 then
    if string_lt (m_element first1) (m_element first2) then Ret (-1)%Z
    else if string_lt (m_element first2) (m_element first1) then Ret 1%Z
    else
      check (bool_decide (m_element first2 = m_element first1)) else AssertFailed in
      match fuel with
      | O => Fault FuelExhausted
      | S fuel =>
          let* next1 := increment s1 first1 in
          let* next2 := increment s2 first2 in
          lex_compare fuel s1 next1 s2 next2
      end
  else if at_end1 && at_end2 then Ret 0%Z
  else Ret (if at_end1 then -1 else 1)%Z.

Definition compare (s p : list Z) : outcome Z := lex_compare (length s) s (begin_ s) p (begin_ p).

Definition path_eqb (lhs rhs : list Z) : outcome bool := let* c := compare lhs rhs in Ret (c =? 0)%Z.
Definition path_ltb (lhs rhs : list Z) : outcome bool := let* c := compare lhs rhs in Ret (c <? 0)%Z.

(** ** Appending *)

(** [m_append_separator_if_needed]: the new path and the size before, or 0. *)
Definition append_separator_if_needed (s : list Z) : list Z * nat :=
  if negb (length s =? 0) && negb (sep_at s (length s - 1))
  then (s ++ [separator], length s) else (s, 0).

Definition erase_redundant_separator (s : list Z) (sep_pos : nat) : list Z :=
  if negb (sep_pos =? 0) && (sep_pos <? length s) && (char_at s (sep_pos + 1) =? separator)%Z
  then take sep_pos s ++ drop (sep_pos + 1) s else s.

(** [operator/=(const Path&)]; both of its branches (self-append or not) do this. *)
Definition append_path (s p : list Z) : list Z :=
  if length p =? 0 then s
  else (if negb (sep_at p 0) then (append_separator_if_needed s).1 else s) ++ p.

(** [operator/=] of a C string, over the characters up to the NUL. *)
Definition append_c_str (s : list Z) (ptr : option (list Z)) : list Z :=
  match ptr with
  | None => s
  | Some ptr =>
      (if negb (sep_at ptr 0) then (append_separator_if_needed s).1 else s) ++ c_str ptr
  end.

(** [append(Source const&)] for a source of [char]s. *)
Definition append (s source : list Z) : list Z :=
  if length source =? 0 then s
  else
    let '(s, sep_pos) := append_separator_if_needed s in
    let s := s ++ source in
    if negb (sep_pos =? 0) then erase_redundant_separator s sep_pos else s.

(** ** Decomposition *)

Definition root_name (s : list Z) : list Z :=
  let itr := begin_ s in
  if negb (m_pos itr =? length s) && (1 <? length (m_element itr))
     && sep_at (m_element itr) 0 && sep_at (m_element itr) 1
  then m_element itr else [].

Definition root_directory (s : list Z) : list Z :=
  match root_directory_start s (length s) with
  | None => []
  | Some pos => substr s pos 1
  end.

Definition root_path (s : list Z) : list Z :=
  root_name s ++ (if negb (length (root_directory s) =? 0) then c_str (root_directory s) else []).

(** [for (; itr.m_pos != size && is_directory_separator(itr.m_element[0]); ++itr)]. *)
Fixpoint skip_root (fuel : nat) (s : list Z) (itr : Iterator) : outcome Iterator :=
  if negb (m_pos itr =? length s) && sep_at (m_element itr) 0 then
    match fuel with
    | O => Fault FuelExhausted
    | S fuel => let* itr := increment s itr in skip_root fuel s itr
    end
  else Ret itr.

Definition relative_path (s : list Z) : outcome (list Z) :=
  let* itr := skip_root (length s) s (begin_ s) in
  Ret (c_str (drop (m_pos itr) s)).

Definition parent_path_end (s : list Z) : option nat :=
  let end_pos := filename_pos s (length s) in
  let filename_was_separator := negb (length s =? 0) && sep_at s end_pos in
  let root_dir_pos := root_directory_start s end_pos in
  let end_pos := skip_back s root_dir_pos end_pos in
  if (end_pos =? 1) && bool_decide (root_dir_pos = Some 0) && filename_was_separator
  then None else Some end_pos.

Definition parent_path (s : list Z) : list Z :=
  match parent_path_end s with
  | None => []
  | Some end_pos => substr s 0 end_pos
  end.

Definition filename (s : list Z) : outcome (list Z) :=
  let pos := filename_pos s (length s) in
  let* implicit_dot :=
    if negb (length s =? 0) && negb (pos =? 0) && sep_at s pos
    then let* root := is_root_separator s pos in Ret (negb root)
    else Ret false in
  Ret (if implicit_dot then dot_path else c_str (drop pos s)).

Definition is_special (name : list Z) : outcome bool :=
  let* e1 := path_eqb name dot_path in
  if e1 then Ret true else path_eqb name dot_dot_path.

Definition stem (s : list Z) : outcome (list Z) :=
  let* name := filename s in
  let* special := is_special name in
  Ret (if special then name
       else match rfind_dot name with None => name | Some pos => take pos name end).

Definition extension (s : list Z) : outcome (list Z) :=
  let* name := filename s in
  let* special := is_special name in
  Ret (if special then []
       else match rfind_dot name with None => [] | Some pos => c_str (drop pos name) end).

(** ** Modifiers *)

Definition clear (s : list Z) : list Z := [].

Definition make_preferred (s : list Z) : list Z := s.

Definition remove_filename (s : list Z) : outcome (list Z) := erase_from s (parent_path_end s).

Definition remove_trailing_separator (s : list Z) : list Z :=
  if negb (length s =? 0) && sep_at s (length s - 1) then take (length s - 1) s else s.

Definition replace_extension (s new_extension : list Z) : outcome (list Z) :=
  let* ext := extension s in
  let* s := erase_from s (Some (length s - length ext)) in
  Ret (if negb (length new_extension =? 0) then
         (if negb (char_at new_extension 0 =? dot)%Z then s ++ [dot] else s) ++ new_extension
       else s).

(** ** Queries *)

Definition filename_is_dot (s : list Z) : outcome bool :=
  let* p := filename s in Ret ((length p =? 1) && (char_at p 0 =? dot)%Z).

Definition filename_is_dot_dot (s : list Z) : bool :=
  (2 <=? length s) && (char_at s (length s - 1) =? dot)%Z && (char_at s (length s - 2) =? dot)%Z
  && ((length s =? 2) || is_element_separator (char_at s (length s - 3))).

Definition has_root_directory (s : list Z) : bool := negb (length (root_directory s) =? 0).
Definition has_root_name (s : list Z) : bool := negb (length (root_name s) =? 0).
Definition has_root_path (s : list Z) : bool := has_root_directory s || has_root_name s.
Definition has_parent_path (s : list Z) : bool := negb (length (parent_path s) =? 0).
Definition has_filename (s : list Z) : bool := negb (length s =? 0).
Definition is_absolute (s : list Z) : bool := has_root_directory s.
Definition is_relative (s : list Z) : bool := negb (is_absolute s).

(** ** Lexical operations *)

(** [detail::mismatch]. *)
Fixpoint mismatch (fuel : nat) (s1 : list Z) (it1 : Iterator) (s2 : list Z) (it2 : Iterator)
    : outcome (Iterator * Iterator) :=
  if iter_eqb it1 (end_ s1) || iter_eqb it2 (end_ s2) then Ret (it1, it2)
  else
    let* same := path_eqb (m_element it1) (m_element it2) in
    if same then
      match fuel with
      | O => Fault FuelExhausted
      | S fuel =>
          let* it1 := increment s1 it1 in
          let* it2 := increment s2 it2 in
          mismatch fuel s1 it1 s2 it2
      end
    else Ret (it1, it2).

Definition lexically_relative (s base : list Z) : outcome (list Z) :=
  let* (first, second) := mismatch (length s) s (begin_ s) base (begin_ base) in
  if iter_eqb first (begin_ s) && iter_eqb second (begin_ base) then Ret []
  else if iter_eqb first (end_ s) && iter_eqb second (end_ base) then Ret dot_path
  else
    let* ups := elements_from (length base) base second in
    let* downs := elements_from (length s) s first in
    let tmp := fold_left (fun tmp _ => append_path tmp dot_dot_path) ups [] in
    Ret (fold_left append_path downs tmp).

Definition lexically_proximate (s base : list Z) : outcome (list Z) :=
  let* tmp := lexically_relative s base in
  Ret (if length tmp =? 0 then s else tmp).

(** The condition under which ".." removes the last name of [temp]. *)
Definition removable (lf : list Z) : bool :=
  (0 <? length lf)
  && (negb (length lf =? 1) || (negb (char_at lf 0 =? dot)%Z && negb (char_at lf 0 =? separator)%Z))
  && (negb (length lf =? 2) || (negb (char_at lf 0 =? dot)%Z && negb (char_at lf 1 =? dot)%Z)).

(** One iteration of the loop of [lexically_normal]. *)
Definition normal_step (s : list Z) (last itr : Iterator) (temp : list Z) : outcome (list Z) :=
  let native := m_element itr in
  if (length native =? 1) && (char_at native 0 =? dot)%Z
     && negb (iter_eqb itr (begin_ s)) && negb (iter_eqb itr last) then Ret temp
  else
    let* lf := if negb (length temp =? 0) && (length native =? 2)
                  && (char_at native 0 =? dot)%Z && (char_at native 1 =? dot)%Z
               then filename temp else Ret [] in
    if removable lf then
      let* temp := remove_filename temp in
      if length temp =? 0 then
        let* next := increment s itr in
        if negb (iter_eqb next (end_ s)) && iter_eqb next last then
          let* is_dot := path_eqb (m_element last) dot_path in
          Ret (if is_dot then append_path temp dot_path else temp)
        else Ret temp
      else Ret temp
    else Ret (append_path temp native).

Fixpoint normal_loop (fuel : nat) (s : list Z) (last itr : Iterator) (temp : list Z) : outcome (list Z) :=
  if iter_eqb itr (end_ s) then Ret temp
  else match fuel with
  | O => Fault FuelExhausted
  | S fuel =>
      let* temp := normal_step s last itr temp in
      let* itr := increment s itr in
      normal_loop fuel s last itr temp
  end.

Definition lexically_normal (s : list Z) : outcome (list Z) :=
  if length s =? 0 then Ret s
  else
    let* last := decrement s (end_ s) in
    let* temp := normal_loop (length s) s last (begin_ s) [] in
    Ret (if length temp =? 0 then append_path temp dot_path else temp).

(** ** Reference: the elements of a path

    The maximal runs of characters other than separators. *)
Fixpoint names_acc (s cur : list Z) : list (list Z) :=
  match s with
  | [] => if decide (cur = []) then [] else [cur]
  | c :: s =>
      if is_directory_separator c
      then (if decide (cur = []) then names_acc s [] else cur :: names_acc s [])
      else names_acc s (cur ++ [c])
  end.
Definition names (s : list Z) : list (list Z) := names_acc s [].

Definition ends_in_separator (s : list Z) : bool :=
  match last s with Some c => is_directory_separator c | None => false end.

(** What follows a name: more names, and "." for a trailing separator. *)
Definition after_name (s : list Z) : list (list Z) :=
  names s ++ (if ends_in_separator s then [dot_path] else []).

(** What follows a root directory: a trailing separator alone adds nothing. *)
Definition after_root (s : list Z) : list (list Z) :=
  if decide (names s = []) then [] else after_name s.

Definition root_element : list Z := [separator].
Definition net_prefix : list Z := [separator; separator].

Definition spec_elements (s : list Z) : list (list Z) :=
  let k := span is_directory_separator s in
  let r := drop k s in
  match k with
  | 0 => after_name s
  | 2 =>
      let n := span not_separator r in
      (net_prefix ++ take n r) ::
      (match drop n r with [] => [] | r' => root_element :: after_root r' end)
  | _ => root_element :: after_root r
  end.

(** ** Texts as runs *)

Definition clean (e : list Z) : Prop := Forall (fun c => is_directory_separator c = false) e.
Definition seps (l : list Z) : Prop := Forall (fun c => is_directory_separator c = true) l.
(** A text that starts a new element: empty, or at a separator. *)
Definition boundary (s : list Z) : Prop :=
  match s with [] => True | c :: _ => is_directory_separator c = true end.
Definition no_boundary (s : list Z) : Prop :=
  match s with [] => True | c :: _ => is_directory_separator c = false end.

Lemma span_take p s : Forall (fun c => p c = true) (take (span p s) s).
Proof. induction s as [|c s IH]; simpl; [done|]. destruct (p c) eqn:E; simpl; by constructor. Qed.

Lemma span_drop p s : match drop (span p s) s with [] => True | c :: _ => p c = false end.
Proof. induction s as [|c s IH]; simpl; [done|]. by destruct (p c) eqn:E; simpl. Qed.

Lemma span_app p xs ys :
  Forall (fun c => p c = true) xs -> match ys with [] => True | c :: _ => p c = false end ->
  span p (xs ++ ys) = length xs.
Proof.
  intros Hx Hy. induction Hx as [|x xs Hx _ IH]; simpl.
  - destruct ys as [|y ys]; simpl; [done|by rewrite Hy].
  - by rewrite Hx, IH.
Qed.

Lemma clean_not_separator e : clean e <-> Forall (fun c => not_separator c = true) e.
Proof. unfold clean, not_separator. by setoid_rewrite negb_true_iff. Qed.

(** Every text is a run of separators and a rest that does not start with one... *)
Lemma seps_split s : exists l r, s = l ++ r /\ seps l /\ no_boundary r /\ length l = span is_directory_separator s.
Proof.
  exists (take (span is_directory_separator s) s), (drop (span is_directory_separator s) s).
  split_and!; [by rewrite take_drop|apply span_take|apply span_drop|].
  rewrite length_take_le; [done|]. induction s as [|c s IH]; simpl; [done|]. destruct (is_directory_separator c); lia.
Qed.

(** ... or a name and a rest that does. *)
Lemma name_split s : exists e r, s = e ++ r /\ clean e /\ boundary r /\ length e = span not_separator s.
Proof.
  exists (take (span not_separator s) s), (drop (span not_separator s) s).
  split_and!; [by rewrite take_drop|apply clean_not_separator, span_take| |].
  - pose proof (span_drop not_separator s) as H. destruct (drop _ s); [done|]. by apply negb_false_iff in H.
  - rewrite length_take_le; [done|]. induction s as [|c s IH]; simpl; [done|]. destruct (not_separator c); lia.
Qed.

Lemma span_seps l r : seps l -> no_boundary r -> span is_directory_separator (l ++ r) = length l.
Proof. intros. by apply span_app. Qed.

Lemma span_clean e r : clean e -> boundary r -> span not_separator (e ++ r) = length e.
Proof.
  intros He Hr. apply span_app; [by apply clean_not_separator|].
  destruct r; [done|]. by apply negb_false_iff.
Qed.

Lemma char_at_app xs ys n : char_at (xs ++ ys) (length xs + n) = char_at ys n.
Proof. unfold char_at. by rewrite app_nth2_plus. Qed.

Lemma sep_at_app xs ys n : sep_at (xs ++ ys) (length xs + n) = sep_at ys n.
Proof. unfold sep_at. by rewrite char_at_app. Qed.

Lemma sep_at_app_l xs ys n : n < length xs -> sep_at (xs ++ ys) n = sep_at xs n.
Proof. intros H. unfold sep_at, char_at. by rewrite app_nth1. Qed.

Lemma sep_at_end s n : length s <= n -> sep_at s n = false.
Proof. intros H. unfold sep_at, char_at. by rewrite nth_overflow. Qed.

Lemma sep_at_clean e n : clean e -> sep_at e n = false.
Proof.
  intros He. destruct (decide (n < length e)); [|apply sep_at_end; lia].
  unfold sep_at, char_at, clean in *. by eapply Forall_nth in He; [apply He|].
Qed.

Lemma sep_at_seps l n : seps l -> n < length l -> sep_at l n = true.
Proof. intros Hl Hn. unfold sep_at, char_at. by eapply Forall_nth in Hl; [apply Hl|]. Qed.

Lemma sep_at_length xs ys : sep_at (xs ++ ys) (length xs) = match ys with [] => false | c :: _ => is_directory_separator c end.
Proof. rewrite <- (Nat.add_0_r (length xs)), sep_at_app. by destruct ys. Qed.

(** ** Names *)

Lemma names_acc_clean e rest cur : clean e -> names_acc (e ++ rest) cur = names_acc rest (cur ++ e).
Proof.
  intros He. revert cur. induction He as [|c e Hc _ IH]; intros cur; simpl; [by rewrite app_nil_r|].
  rewrite Hc, IH, <- app_assoc. done.
Qed.

Lemma names_seps l s : seps l -> names (l ++ s) = names s.
Proof. unfold names. induction 1 as [|c l Hc _ IH]; simpl; [done|]. by rewrite Hc. Qed.

Lemma names_name e rest : clean e -> e <> [] -> boundary rest -> names (e ++ rest) = e :: names rest.
Proof.
  intros He Hne Hb. unfold names. rewrite names_acc_clean by done. simpl.
  destruct rest as [|c rest]; simpl; [by rewrite decide_False|].
  simpl in Hb. rewrite Hb. by rewrite decide_False.
Qed.

Lemma ends_in_separator_app xs ys : ys <> [] -> ends_in_separator (xs ++ ys) = ends_in_separator ys.
Proof. intros H. unfold ends_in_separator. rewrite last_app. destruct (last ys) eqn:E; [done|]. by apply last_None in E. Qed.

Lemma ends_in_seps l : seps l -> l <> [] -> ends_in_separator l = true.
Proof.
  intros Hl Hne. unfold ends_in_separator. destruct (last l) as [c|] eqn:E; [|by apply last_None in E].
  apply last_Some in E as [l' ->]. apply Forall_app in Hl as [_ Hc]. by inversion Hc.
Qed.

Lemma ends_in_clean e : clean e -> ends_in_separator e = false.
Proof.
  intros He. unfold ends_in_separator. destruct (last e) as [c|] eqn:E; [|done].
  apply last_Some in E as [l' ->]. apply Forall_app in He as [_ Hc]. by inversion Hc.
Qed.

Lemma after_name_next l e rest :
  seps l -> clean e -> e <> [] -> boundary rest -> after_name (l ++ e ++ rest) = e :: after_name rest.
Proof.
  intros Hl He Hne Hb. unfold after_name. rewrite names_seps, names_name by done. simpl. f_equal. f_equal.
  rewrite ends_in_separator_app by (by destruct e). destruct rest as [|c rest].
  - rewrite app_nil_r. by rewrite ends_in_clean.
  - by rewrite ends_in_separator_app.
Qed.

Lemma after_name_seps l : seps l -> l <> [] -> after_name l = [dot_path].
Proof.
  intros Hl Hne. unfold after_name. rewrite <- (app_nil_r l) at 1. rewrite names_seps by done.
  by rewrite ends_in_seps.
Qed.

Lemma after_root_next l e rest :
  seps l -> clean e -> e <> [] -> boundary rest -> after_root (l ++ e ++ rest) = e :: after_name rest.
Proof.
  intros. unfold after_root. rewrite names_seps, names_name by done. by rewrite after_name_next.
Qed.

Lemma after_root_seps l : seps l -> after_root l = [].
Proof. intros. unfold after_root. rewrite <- (app_nil_r l), names_seps by done. done. Qed.

(** ** Iteration *)

Lemma skip_separators_app xs l r :
  seps l -> no_boundary r -> skip_separators (xs ++ l ++ r) (length xs) = length xs + length l.
Proof.
  intros. unfold skip_separators. rewrite drop_app_length. by rewrite span_seps.
Qed.

Lemma element_at_app xs e r :
  clean e -> boundary r -> element_at (xs ++ e ++ r) (length xs) = mkIterator e (length xs).
Proof.
  intros He Hr. unfold element_at, find_first_of, substr. rewrite drop_app_length, span_clean by done.
  rewrite !length_app. destruct (Nat.ltb_spec (length xs + length e) (length xs + (length e + length r))); simpl.
  - replace (length xs + length e - length xs) with (length e) by lia. by rewrite take_app_length.
  - destruct r; [|simpl in *; lia]. rewrite app_nil_r. simpl.
    rewrite take_ge by lia. done.
Qed.

Definition is_net (e : list Z) : bool :=
  (2 <? length e) && sep_at e 0 && sep_at e 1 && negb (sep_at e 2).

Lemma is_net_clean e : clean e -> is_net e = false.
Proof. intros. unfold is_net. by rewrite sep_at_clean, andb_false_r. Qed.

(** One increment, past an element that is not a network name: to the end, to the next name
    after a run of separators, or, when only separators are left, to the implicit dot. *)
Lemma increment_app xs pre e l r :
  xs = pre ++ e -> e <> [] -> is_net e = false -> seps l -> no_boundary r ->
  increment (xs ++ l ++ r) (mkIterator e (length pre)) =
    match r with
    | [] =>
        match l with
        | [] => Ret (mkIterator [] (length xs))
        | _ => let* root := is_root_separator (xs ++ l) (length (xs ++ l) - 1) in
               Ret (if root then mkIterator [] (length (xs ++ l))
                    else mkIterator dot_path (length (xs ++ l) - 1))
        end
    | _ => Ret (element_at (xs ++ l ++ r) (length (xs ++ l)))
    end.
Proof.
  intros Hxs Hne Hnet Hl Hr. unfold increment. cbn [m_pos m_element]. unfold is_net in Hnet. rewrite Hnet.
  assert (1 <= length e) by (destruct e; [done|simpl; lia]).
  assert (length pre + length e = length xs) as Hlen by (by rewrite Hxs, length_app).
  rewrite Hlen, (proj2 (Nat.ltb_lt _ _)) by (rewrite !length_app; lia). clear Hnet Hxs.
  destruct l as [|c l]; cbn [app].
  - destruct r as [|c r].
    + rewrite app_nil_r. by rewrite Nat.eqb_refl.
    + rewrite (proj2 (Nat.eqb_neq _ _)) by (rewrite length_app; simpl; lia).
      rewrite sep_at_length. simpl in Hr. rewrite Hr. by rewrite app_nil_r.
  - rewrite (proj2 (Nat.eqb_neq _ _)) by (rewrite length_app; simpl; lia).
    rewrite sep_at_length. inversion Hl as [|? ? Hc Hl']; subst. rewrite Hc.
    change (xs ++ c :: l ++ r) with (xs ++ (c :: l) ++ r). rewrite skip_separators_app by done.
    rewrite <- length_app. destruct r as [|d r].
    + rewrite app_nil_r, Nat.eqb_refl.
      destruct (is_root_separator _ _) as [[]|]; cbn [obind]; [|done|done].
      pose proof (element_at_app (xs ++ c :: l) [] []) as He. rewrite !app_nil_r in He.
      rewrite He; [done|constructor|done].
    + rewrite (proj2 (Nat.eqb_neq _ _)) by (rewrite !length_app; simpl; lia). done.
Qed.

Lemma elements_from_end fuel s e : elements_from fuel s (mkIterator e (length s)) = Ret [].
Proof. destruct fuel; cbn; unfold iter_eqb; cbn; by rewrite Nat.eqb_refl. Qed.

Lemma elements_from_step fuel s it :
  m_pos it < length s ->
  elements_from (S fuel) s it =
    let* next := increment s it in
    let* rest := elements_from fuel s next in Ret (m_element it :: rest).
Proof. intros H. cbn. unfold iter_eqb. cbn. by rewrite (proj2 (Nat.eqb_neq _ _)) by lia. Qed.

Lemma elements_from_dot fuel s :
  0 < length s -> elements_from (S fuel) s (mkIterator dot_path (length s - 1)) = Ret [dot_path].
Proof.
  intros H. rewrite elements_from_step by (cbn; lia). unfold increment. cbn [m_pos m_element].
  rewrite (proj2 (Nat.ltb_lt _ _)) by lia. cbn [length dot_path].
  rewrite (proj2 (Nat.eqb_eq _ _)) by lia. cbn [obind].
  replace (length s - 1 + 1) with (length s) by lia. by rewrite elements_from_end.
Qed.

(** A position behind the root: the text does not start with two separators, or there is a
    later one before the position. *)
Definition past_root (s : list Z) (p : nat) : Prop :=
  sep_at s 0 && sep_at s 1 = false \/ exists j, 2 <= j < p /\ sep_at s j = true.

Lemma leftmost_separator_app xs l :
  xs <> [] -> ends_in_separator xs = false -> seps l ->
  forall n, n <= length l -> leftmost_separator (xs ++ l) (length xs + n) = length xs.
Proof.
  intros Hne Hxs Hl. induction n as [|n IH]; intros Hn.
  - rewrite Nat.add_0_r. destruct xs as [|x xs _] using rev_ind; [done|].
    unfold ends_in_separator in Hxs. rewrite last_snoc in Hxs.
    rewrite length_app, Nat.add_1_r. cbn [leftmost_separator].
    assert (sep_at ((xs ++ [x]) ++ l) (length xs) = false) as ->; [|done].
    by rewrite <- app_assoc, sep_at_length.
  - rewrite Nat.add_succ_r. cbn [leftmost_separator].
    rewrite sep_at_app, sep_at_seps by (done || lia). apply IH. lia.
Qed.

Lemma span_le s k : sep_at s k = true -> span not_separator s <= k.
Proof.
  revert k. induction s as [|c s IH]; intros k H; simpl; [lia|].
  destruct k as [|k].
  - unfold sep_at, char_at in H. simpl in H. unfold not_separator. rewrite H. simpl. lia.
  - specialize (IH k H). destruct (not_separator c); lia.
Qed.

Lemma sep_at_drop s n k : sep_at (drop n s) k = sep_at s (n + k).
Proof. unfold sep_at, char_at. by rewrite nth_skipn. Qed.

Lemma find_first_of_le s j p : 2 <= j -> sep_at s j = true -> find_first_of s 2 = Some p -> p <= j.
Proof.
  intros Hj Hs. unfold find_first_of. case_match; [|done]. intros [= <-].
  pose proof (span_le (drop 2 s) (j - 2)) as H1. rewrite sep_at_drop in H1.
  replace (2 + (j - 2)) with j in H1 by lia. specialize (H1 Hs). lia.
Qed.

(** The separators behind a name that is past the root are not the root directory. *)
Lemma trailing_not_root pre e l :
  clean e -> e <> [] -> seps l -> l <> [] -> past_root (pre ++ e ++ l) (length pre) ->
  is_root_separator ((pre ++ e) ++ l) (length ((pre ++ e) ++ l) - 1) = Ret false.
Proof.
  intros He Hne Hl Hnl Hroot. unfold is_root_separator.
  assert (1 <= length l) by (destruct l; [done|simpl; lia]). assert (1 <= length e) by (destruct e; [done|simpl; lia]).
  set (xs := pre ++ e). assert (xs <> []) as Hxs by (unfold xs; destruct pre, e; done).
  assert (1 <= length xs) by (destruct xs; [done|simpl; lia]).
  assert (length (xs ++ l) - 1 = length xs + (length l - 1)) as -> by (rewrite length_app; lia).
  rewrite (proj2 (Nat.eqb_neq _ _)) by (rewrite length_app; lia). rewrite sep_at_app, sep_at_seps by (done || lia).
  cbn [negb andb]. rewrite leftmost_separator_app by
    (done || lia || (unfold xs; rewrite ends_in_separator_app by done; by apply ends_in_clean)).
  rewrite (proj2 (Nat.eqb_neq _ _)) by lia. rewrite app_assoc in Hroot. fold xs in Hroot.
  destruct Hroot as [Hroot|(j & Hj & Hsep)].
  - assert (negb (sep_at (xs ++ l) 0) || negb (sep_at (xs ++ l) 1) = true) as Hn
      by (by rewrite <- negb_andb, Hroot).
    rewrite <- orb_assoc, Hn, orb_true_r. done.
  - destruct (_ || _ || _); [done|]. f_equal. apply bool_decide_eq_false. intros Hf.
    apply (find_first_of_le _ j) in Hf; [|lia|done]. unfold xs in Hf. rewrite length_app in Hf. lia.
Qed.

Lemma iterate_names fuel pre e rest :
  clean e -> e <> [] -> boundary rest -> past_root (pre ++ e ++ rest) (length pre) ->
  length (e ++ rest) <= fuel ->
  elements_from fuel (pre ++ e ++ rest) (mkIterator e (length pre)) = Ret (e :: after_name rest).
Proof.
  revert pre e rest. induction fuel as [|fuel IH]; intros pre e rest He Hne Hb Hroot Hfuel;
    (assert (1 <= length e) by (destruct e; [done|simpl; lia])); rewrite length_app in Hfuel; [lia|].
  rewrite elements_from_step by (cbn; rewrite !length_app; lia). cbn [m_element].
  destruct (seps_split rest) as (l & r & -> & Hl & Hr & _). rewrite length_app in Hfuel.
  rewrite app_assoc in Hroot |- *.
  rewrite (increment_app (pre ++ e) pre e l r eq_refl Hne (is_net_clean e He) Hl Hr).
  destruct r as [|c r].
  - rewrite !app_nil_r in *. destruct l as [|c l].
    + cbn [obind]. rewrite app_nil_r, elements_from_end. done.
    + rewrite <- app_assoc in Hroot. rewrite trailing_not_root by done. cbn [obind].
      destruct fuel as [|fuel]; [simpl in Hfuel; lia|].
      rewrite elements_from_dot by (rewrite length_app; simpl; lia). cbn [obind].
      by rewrite after_name_seps.
  - cbn [obind]. destruct (name_split (c :: r)) as (e2 & r2 & Heq & He2 & Hb2 & _).
    assert (e2 <> []) as Hne2 by (intros ->; destruct r2; simplify_eq; simpl in *; congruence).
    rewrite Heq in *. rewrite app_assoc, element_at_app by done.
    rewrite <- (app_assoc (pre ++ e)), app_assoc.
    rewrite IH; [|done|done|done| |rewrite !length_app in *; lia].
    + cbn [obind]. by rewrite after_name_next.
    + rewrite <- app_assoc. destruct Hroot as [?|(j & Hj & Hs)]; [by left|right].
      exists j. split; [rewrite !length_app; lia|done].
Qed.

Lemma sep_at_0 c s : sep_at (c :: s) 0 = is_directory_separator c.
Proof. done. Qed.

Lemma begin_relative e rest :
  clean e -> e <> [] -> boundary rest -> begin_ (e ++ rest) = mkIterator e 0.
Proof.
  intros He Hne Hb. unfold begin_, first_element. assert (1 <= length e) by (destruct e; [done|simpl; lia]).
  rewrite (proj2 (Nat.eqb_neq _ _)) by (rewrite length_app; lia).
  assert (sep_at (e ++ rest) 0 = false) as -> by (rewrite sep_at_app_l by lia; by apply sep_at_clean).
  rewrite andb_false_r, andb_false_l. cbn [andb]. rewrite span_clean by done. unfold substr.
  by rewrite drop_0, take_app_length.
Qed.

Lemma iterate_relative s : no_boundary s -> elements s = Ret (after_name s).
Proof.
  intros Hs. destruct s as [|c s]; [done|]. destruct (name_split (c :: s)) as (e & rest & Heq & He & Hb & _).
  assert (e <> []) as Hne by (intros ->; destruct rest; simplify_eq; simpl in *; congruence).
  rewrite Heq. unfold elements. rewrite begin_relative by done.
  rewrite (iterate_names _ [] e rest); [|done|done|done| |done].
  - by rewrite <- (after_name_next [] e rest) by (done || constructor).
  - left. cbn [app]. rewrite sep_at_app_l by (destruct e; [done|simpl; lia]). by rewrite sep_at_clean.
Qed.

Lemma past_root_mono s p q : p <= q -> past_root s p -> past_root s q.
Proof. intros Hpq [?|(j & Hj & Hs)]; [by left|right]. exists j. split; [lia|done]. Qed.

(** Iteration from a root directory at the end of [pre ++ "/"]. *)
Lemma iterate_root fuel pre l r :
  seps l -> no_boundary r -> past_root (pre ++ [separator] ++ l ++ r) (S (length pre)) ->
  (l <> [] -> r = [] -> is_root_separator ((pre ++ [separator]) ++ l)
                         (length ((pre ++ [separator]) ++ l) - 1) = Ret true) ->
  S (length (l ++ r)) <= fuel ->
  elements_from fuel (pre ++ [separator] ++ l ++ r) (mkIterator root_element (length pre)) =
    Ret (root_element :: after_root (l ++ r)).
Proof.
  intros Hl Hr Hroot Htrail Hfuel. destruct fuel as [|fuel]; [lia|]. rewrite length_app in Hfuel.
  rewrite elements_from_step by (cbn; rewrite !length_app; simpl; lia). cbn [m_element].
  rewrite app_assoc in Hroot |- *. unfold root_element at 1.
  rewrite (increment_app (pre ++ [separator]) pre [separator] l r eq_refl) by done.
  destruct r as [|c r].
  - rewrite !app_nil_r in *. destruct l as [|c l].
    + cbn [obind]. rewrite app_nil_r, elements_from_end. done.
    + rewrite Htrail by done. cbn [obind]. rewrite elements_from_end. cbn [obind]. by rewrite after_root_seps.
  - cbn [obind]. destruct (name_split (c :: r)) as (e2 & r2 & Heq & He2 & Hb2 & _).
    assert (e2 <> []) as Hne2 by (intros ->; destruct r2; simplify_eq; simpl in *; congruence).
    rewrite Heq in *. rewrite app_assoc, element_at_app by done.
    rewrite iterate_names; [|done|done|done| |rewrite ?length_app in *; lia].
    + cbn [obind]. by rewrite after_root_next.
    + rewrite <- app_assoc. eapply past_root_mono; [|done]. rewrite !length_app. simpl. lia.
Qed.

Lemma seps_replicate l : seps l -> l = replicate (length l) separator.
Proof.
  induction 1 as [|c l Hc _ IH]; simpl; [done|]. unfold is_directory_separator in Hc.
  apply Z.eqb_eq in Hc as ->. by f_equal.
Qed.

Lemma seps_snoc l : seps l -> l <> [] -> exists l', l = l' ++ [separator] /\ seps l'.
Proof.
  intros Hl Hne. destruct l as [|c l' _] using rev_ind; [done|].
  apply Forall_app in Hl as [Hl' Hc]. inversion Hc as [|? ? H1 _]; subst.
  unfold is_directory_separator in H1. apply Z.eqb_eq in H1 as ->. by exists l'.
Qed.

Lemma sep_at_run l r n : seps l -> n < length l -> sep_at (l ++ r) n = true.
Proof. intros. by rewrite sep_at_app_l, sep_at_seps by done. Qed.

Lemma sep_at_run_end l r : no_boundary r -> sep_at (l ++ r) (length l) = false.
Proof. intros Hr. rewrite sep_at_length. by destruct r. Qed.

Lemma begin_root l r :
  seps l -> no_boundary r -> length l <> 0 -> length l <> 2 ->
  begin_ (l ++ r) = mkIterator root_element (length l - 1).
Proof.
  intros Hl Hr H0 H2. unfold begin_, first_element.
  rewrite (proj2 (Nat.eqb_neq (length (l ++ r)) 0)) by (rewrite length_app; lia).
  assert ((2 <=? length (l ++ r)) && sep_at (l ++ r) 0 && sep_at (l ++ r) 1
    && ((length (l ++ r) =? 2) || negb (sep_at (l ++ r) 2)) = false) as ->.
  { destruct (decide (length l = 1)) as [H1|H1].
    - pose proof (sep_at_run_end l r Hr) as Hs. rewrite H1 in Hs. rewrite Hs, andb_false_r. done.
    - rewrite (sep_at_run l r 2) by (done || lia).
      rewrite (proj2 (Nat.eqb_neq (length (l ++ r)) 2)) by (rewrite length_app; lia). by rewrite andb_false_r. }
  rewrite sep_at_run by (done || lia). destruct (seps_snoc l Hl) as (l' & -> & Hl'); [by destruct l|].
  assert (span is_directory_separator (drop 1 ((l' ++ [separator]) ++ r)) = length l') as ->.
  { destruct l' as [|x l']; cbn [app drop].
    - by destruct r as [|c r]; simpl in *; rewrite ?Hr.
    - rewrite drop_0, span_seps; [rewrite length_app; simpl; lia| |done].
      inversion Hl'; subst. apply Forall_app. split; [done|by repeat constructor]. }
  rewrite length_app, Nat.add_sub. unfold substr. rewrite <- app_assoc, drop_app_length. done.
Qed.

Lemma elements_root l r :
  seps l -> no_boundary r -> length l <> 0 -> length l <> 2 ->
  elements (l ++ r) = Ret (root_element :: after_root r).
Proof.
  intros Hl Hr H0 H2. unfold elements. rewrite begin_root by done.
  assert (past_root (l ++ r) (length l)) as Hroot.
  { destruct (decide (length l = 1)) as [H1|H1].
    - left. pose proof (sep_at_run_end l r Hr) as Hs. rewrite H1 in Hs. by rewrite Hs, andb_false_r.
    - right. exists 2. split; [lia|]. apply sep_at_run; [done|lia]. }
  destruct (seps_snoc l Hl) as (l' & -> & Hl'); [by destruct l|].
  replace (length (l' ++ [separator]) - 1) with (length l') by (rewrite length_app; simpl; lia).
  rewrite length_app in Hroot. rewrite <- app_assoc in Hroot |- *.
  apply (iterate_root _ l' [] r); [constructor|done| |done|].
  - cbn [app length] in *. by rewrite Nat.add_1_r in Hroot.
  - rewrite !length_app. simpl. lia.
Qed.

Lemma begin_net n rest :
  clean n -> boundary rest -> (n = [] -> rest = []) ->
  begin_ (net_prefix ++ n ++ rest) = mkIterator (net_prefix ++ n) 0.
Proof.
  intros Hn Hb Hnil. unfold begin_, first_element. cbn [net_prefix app length].
  assert ((S (S (length (n ++ rest))) =? 2) || negb (sep_at (separator :: separator :: n ++ rest) 2) = true) as ->.
  { destruct n as [|c n]; [by rewrite Hnil|]. inversion Hn as [|? ? Hc _]; subst.
    change (sep_at (separator :: separator :: (c :: n) ++ rest) 2) with (is_directory_separator c).
    rewrite Hc. apply orb_true_r. }
  change (sep_at (separator :: separator :: n ++ rest) 0) with true.
  change (sep_at (separator :: separator :: n ++ rest) 1) with true. cbn [Nat.eqb Nat.leb andb drop].
  rewrite drop_0, span_clean by done. unfold substr. rewrite drop_0.
  cbn [Nat.add take]. by rewrite take_app_length.
Qed.

Lemma after_root_cons s : after_root (separator :: s) = after_root s.
Proof.
  unfold after_root, after_name. change (separator :: s) with ([separator] ++ s).
  rewrite names_seps by (by repeat constructor). destruct (decide (names s = [])); [done|].
  rewrite ends_in_separator_app; [done|]. by intros ->.
Qed.

(** The separators behind a network name are its root directory. *)
Lemma net_root_separator c n l :
  clean (c :: n) -> seps l ->
  let s := (net_prefix ++ c :: n) ++ [separator] ++ l in
  is_root_separator s (length s - 1) = Ret true.
Proof.
  intros Hn Hl. set (xs := net_prefix ++ c :: n). set (l' := [separator] ++ l).
  assert (seps l') as Hl' by (by constructor). cbn zeta. unfold is_root_separator.
  assert (length (xs ++ l') - 1 = length xs + length l) as -> by (rewrite length_app; simpl; lia).
  rewrite sep_at_app, sep_at_seps by (done || (simpl; lia)).
  rewrite leftmost_separator_app; [|done| |done|simpl; lia].
  - assert (length xs = 3 + length n) as Hx by (unfold xs; rewrite length_app; done).
    rewrite (proj2 (Nat.eqb_neq (length (xs ++ l')) 0)) by (rewrite length_app; lia).
    rewrite (proj2 (Nat.eqb_neq (length xs) 0)), (proj2 (Nat.ltb_ge (length xs) 3)) by lia. cbn [negb andb orb].
    change (sep_at (xs ++ l') 0) with true. change (sep_at (xs ++ l') 1) with true. cbn [negb orb]. f_equal.
    apply bool_decide_eq_true. unfold find_first_of.
    change (drop 2 (xs ++ l')) with ((c :: n) ++ l'). rewrite span_clean by done.
    rewrite (proj2 (Nat.ltb_lt _ _)) by (rewrite length_app; simpl in *; lia). by rewrite Hx.
  - unfold xs. rewrite ends_in_separator_app by done. by apply ends_in_clean.
Qed.

Lemma elements_net n rest :
  clean n -> boundary rest -> (n = [] -> rest = []) ->
  elements (net_prefix ++ n ++ rest) =
    Ret ((net_prefix ++ n) :: match rest with [] => [] | r' => root_element :: after_root r' end).
Proof.
  intros Hn Hb Hnil. unfold elements. rewrite begin_net by done.
  set (len := length (net_prefix ++ n ++ rest)). assert (len = S (S (length n + length rest))) as Hlen
    by (unfold len; rewrite !length_app; done).
  rewrite Hlen, elements_from_step by (cbn; rewrite length_app; lia). cbn [m_element].
  unfold increment. cbn [m_pos m_element]. rewrite !Nat.add_0_l.
  rewrite (proj2 (Nat.ltb_lt _ _)) by (rewrite !length_app; simpl; lia).
  destruct rest as [|c rest].
  { rewrite app_nil_r, Nat.eqb_refl. cbn [obind]. rewrite elements_from_end. done. }
  destruct n as [|d n]; [by specialize (Hnil eq_refl)|].
  rewrite (proj2 (Nat.eqb_neq _ _)) by (rewrite !length_app; simpl; lia).
  rewrite app_assoc, sep_at_length. simpl in Hb. rewrite Hb.
  inversion Hn as [|? ? Hd _]; subst.
  assert ((2 <? length (net_prefix ++ d :: n)) && sep_at (net_prefix ++ d :: n) 0 &&
    sep_at (net_prefix ++ d :: n) 1 && negb (sep_at (net_prefix ++ d :: n) 2) = true) as ->.
  { change (sep_at (net_prefix ++ d :: n) 2) with (is_directory_separator d). by rewrite Hd. }
  cbn [obind]. unfold is_directory_separator in Hb. apply Z.eqb_eq in Hb as ->.
  destruct (seps_split rest) as (l & r & -> & Hl & Hr & _).
  change (separator :: l ++ r) with ([separator] ++ l ++ r).
  assert (sep_at ((net_prefix ++ d :: n) ++ [separator] ++ l ++ r) (length (net_prefix ++ d :: n)) = true) as Hsep
    by by rewrite sep_at_length.
  fold root_element. rewrite iterate_root; [| done | done | | |].
  - cbn [obind]. rewrite <- (after_root_cons (l ++ r)). done.
  - right. eexists. split; [|exact Hsep]. rewrite length_app. simpl. lia.
  - intros Hl0 ->. rewrite <- app_assoc. apply net_root_separator; done.
  - rewrite !length_app in *. simpl in *. lia.
Qed.

Lemma elements_spec s : elements s = Ret (spec_elements s).
Proof.
  destruct (seps_split s) as (l & r & -> & Hl & Hr & Hlen). unfold spec_elements. rewrite <- Hlen, drop_app_length.
  destruct (decide (length l = 0)) as [H0|H0].
  { destruct l; [|done]. by apply iterate_relative. }
  destruct (decide (length l = 2)) as [H2|H2].
  - rewrite H2. destruct (name_split r) as (n & rest & -> & Hn & Hb & Hnl). rewrite <- Hnl.
    rewrite take_app_length, drop_app_length. rewrite (seps_replicate l Hl), H2.
    change (replicate 2 separator) with net_prefix.
    rewrite elements_net; [by destruct rest|done|done|].
    intros ->. destruct rest; [done|]. simpl in *. congruence.
  - rewrite elements_root by done. by destruct (length l) as [|[|[|]]].
Qed.

(** ** Comparison *)

(** Lexicographic comparison of element lists. *)
Fixpoint spec_compare (l1 l2 : list (list Z)) : Z :=
  match l1, l2 with
  | [], [] => 0
  | [], _ => -1
  | _, [] => 1
  | e1 :: l1, e2 :: l2 =>
      if string_lt e1 e2 then -1 else if string_lt e2 e1 then 1 else spec_compare l1 l2
  end%Z.

Lemma string_lt_irrefl a : string_lt a a = false.
Proof. induction a; simpl; [done|]. by rewrite Z.ltb_irrefl, Z.eqb_refl. Qed.

Lemma string_lt_trans a b c : string_lt a b = true -> string_lt b c = true -> string_lt a c = true.
Proof.
  revert b c. induction a as [|x a IH]; intros [|y b] [|z c]; simpl; try done.
  rewrite !orb_true_iff, !andb_true_iff, !Z.ltb_lt, !Z.eqb_eq.
  intros [H1|[-> H1]] [H2|[-> H2]]; [left; lia|left; lia|left; lia|]. right. split; [done|]. by eapply IH.
Qed.

Lemma string_lt_total a b : string_lt a b = false -> string_lt b a = false -> a = b.
Proof.
  revert b. induction a as [|x a IH]; intros [|y b]; simpl; try done.
  rewrite !orb_false_iff, !andb_false_iff, !Z.ltb_ge, !Z.eqb_neq.
  intros [H1 H2] [H3 H4]. assert (x = y) as -> by lia. f_equal.
  apply IH; [by destruct H2|by destruct H4].
Qed.

Lemma string_lt_asym a b : string_lt a b = true -> string_lt b a = false.
Proof.
  intros H. destruct (string_lt b a) eqn:E; [|done].
  by rewrite <- (string_lt_irrefl a), (string_lt_trans a b a).
Qed.

Lemma spec_compare_eq l1 l2 : spec_compare l1 l2 = 0%Z <-> l1 = l2.
Proof.
  split.
  - revert l2. induction l1 as [|e1 l1 IH]; intros [|e2 l2]; simpl; try done.
    destruct (string_lt e1 e2) eqn:E1; [done|]. destruct (string_lt e2 e1) eqn:E2; [done|].
    rewrite (string_lt_total _ _ E1 E2). intros H. f_equal. by apply IH.
  - intros <-. induction l1; simpl; [done|]. by rewrite string_lt_irrefl.
Qed.

Lemma spec_compare_opp l1 l2 : spec_compare l2 l1 = (- spec_compare l1 l2)%Z.
Proof.
  revert l2. induction l1 as [|e1 l1 IH]; intros [|e2 l2]; simpl; try done.
  destruct (string_lt e1 e2) eqn:E1; [by rewrite (string_lt_asym _ _ E1)|].
  by destruct (string_lt e2 e1).
Qed.

Lemma spec_compare_range l1 l2 : (spec_compare l1 l2 = -1 \/ spec_compare l1 l2 = 0 \/ spec_compare l1 l2 = 1)%Z.
Proof.
  revert l2. induction l1 as [|e1 l1 IH]; intros [|e2 l2]; simpl; try tauto.
  destruct (string_lt e1 e2); [tauto|]. destruct (string_lt e2 e1); [tauto|]. apply IH.
Qed.

Lemma spec_compare_trans l1 l2 l3 :
  (spec_compare l1 l2 < 0 -> spec_compare l2 l3 < 0 -> spec_compare l1 l3 < 0)%Z.
Proof.
  revert l2 l3. induction l1 as [|e1 l1 IH]; intros [|e2 l2] [|e3 l3]; simpl; try lia.
  destruct (string_lt e1 e2) eqn:E12, (string_lt e2 e3) eqn:E23.
  - by rewrite (string_lt_trans _ _ _ E12 E23).
  - destruct (string_lt e3 e2) eqn:E32; [lia|]. rewrite <- (string_lt_total _ _ E23 E32). by rewrite E12.
  - destruct (string_lt e2 e1) eqn:E21; [lia|]. rewrite (string_lt_total _ _ E12 E21). by rewrite E23.
  - destruct (string_lt e2 e1) eqn:E21; [lia|]. destruct (string_lt e3 e2) eqn:E32; [lia|].
    rewrite (string_lt_total _ _ E12 E21), E23, E32. apply IH.
Qed.

Lemma elements_from_length fuel s it l : elements_from fuel s it = Ret l -> length l <= fuel.
Proof.
  revert it l. induction fuel as [|fuel IH]; intros it l; cbn [elements_from]; destruct (iter_eqb _ _);
    try (intros [= <-]; simpl; lia); try done.
  intros H. apply obind_ret_inv in H as (next & _ & H). apply obind_ret_inv in H as (rest & Hrest & [= <-]).
  apply IH in Hrest. simpl. lia.
Qed.

Lemma lex_compare_spec fuel f1 f2 s1 it1 s2 it2 l1 l2 :
  elements_from f1 s1 it1 = Ret l1 -> elements_from f2 s2 it2 = Ret l2 -> length l1 <= fuel ->
  lex_compare fuel s1 it1 s2 it2 = Ret (spec_compare l1 l2).
Proof.
  revert f1 f2 it1 it2 l1 l2. induction fuel as [|fuel IH]; intros f1 f2 it1 it2 l1 l2 H1 H2 Hf.
  all: destruct f1 as [|f1]; cbn [elements_from] in H1; destruct (iter_eqb it1 _) eqn:E1; simplify_eq.
  all: destruct f2 as [|f2]; cbn [elements_from] in H2; destruct (iter_eqb it2 _) eqn:E2; simplify_eq.
  all: cbn [lex_compare]; rewrite E1, E2; cbn [negb andb]; try done.
  all: try (apply obind_ret_inv in H1 as (n1 & Hn1 & H1); apply obind_ret_inv in H1 as (r1 & Hr1 & H1); simplify_eq).
  all: try (apply obind_ret_inv in H2 as (n2 & Hn2 & H2); apply obind_ret_inv in H2 as (r2 & Hr2 & H2); simplify_eq).
  all: try done; try (simpl in Hf; lia).
  cbn [spec_compare]. destruct (string_lt (m_element it1) _) eqn:Ea; [done|].
  destruct (string_lt (m_element it2) _) eqn:Eb; [done|].
  rewrite bool_decide_true by (symmetry; by apply string_lt_total).
  rewrite Hn1, Hn2. cbn [obind]. eapply IH; [done|done|simpl in Hf; lia].
Qed.

Lemma compare_spec s p : compare s p = Ret (spec_compare (spec_elements s) (spec_elements p)).
Proof.
  pose proof (elements_spec s) as Hs. pose proof (elements_spec p) as Hp. unfold elements in *.
  eapply lex_compare_spec; [done|done|]. by eapply elements_from_length.
Qed.

Lemma path_eqb_spec s p : path_eqb s p = Ret (bool_decide (spec_elements s = spec_elements p)).
Proof.
  unfold path_eqb. rewrite compare_spec. cbn [obind]. f_equal. apply eq_true_iff_eq.
  rewrite bool_decide_eq_true, Z.eqb_eq. apply spec_compare_eq.
Qed.


(** ** Decomposition at the right end *)

Lemma names_acc_sep x c y cur :
  is_directory_separator c = true -> names_acc (x ++ c :: y) cur = names_acc x cur ++ names y.
Proof.
  intros Hc. revert cur. induction x as [|d x IH]; intros cur; simpl.
  - rewrite Hc. by destruct (decide (cur = [])).
  - destruct (is_directory_separator d); [|apply IH].
    rewrite IH. by destruct (decide (cur = [])).
Qed.

Lemma names_snoc x l e : seps l -> l <> [] -> clean e -> e <> [] -> names (x ++ l ++ e) = names x ++ [e].
Proof.
  intros Hl Hne He Hnee. destruct l as [|c l]; [done|]. inversion Hl as [|? ? Hc Hl']; subst.
  unfold names at 1. cbn [app]. rewrite names_acc_sep by done. rewrite names_seps by done.
  rewrite <- (app_nil_r e) at 1. by rewrite names_name.
Qed.

Lemma names_trailing x l : seps l -> names (x ++ l) = names x.
Proof.
  intros Hl. destruct l as [|c l]; [by rewrite app_nil_r|]. inversion Hl as [|? ? Hc Hl']; subst.
  unfold names at 1. rewrite names_acc_sep by done. rewrite <- (app_nil_r l), names_seps by done. apply app_nil_r.
Qed.

(** Every text is a part that does not end in a separator, a run of separators, and a last
    name, which is the whole text when there is no separator. *)
Lemma right_split s : exists x l e, s = x ++ l ++ e /\ ends_in_separator x = false /\ seps l /\ clean e /\
  (l = [] -> x = []).
Proof.
  assert (forall s, exists x l, s = x ++ l /\ ends_in_separator x = false /\ seps l) as Hseps.
  { clear s. intros s. induction s as [|c s (x & l & -> & Hx & Hl)] using rev_ind.
    { exists [], []. split_and!; [done|done|constructor]. }
    destruct (is_directory_separator c) eqn:Hc.
    - exists x, (l ++ [c]). rewrite app_assoc. split_and!; [done|done|]. apply Forall_app. split; [done|by repeat constructor].
    - exists ((x ++ l) ++ [c]), []. rewrite app_nil_r. split_and!; [done| |constructor].
      unfold ends_in_separator. by rewrite last_snoc. }
  induction s as [|c s IH] using rev_ind.
  { exists [], [], []. split_and!; try done; constructor. }
  destruct (is_directory_separator c) eqn:Hc.
  - destruct (Hseps (s ++ [c])) as (x & l & Heq & Hx & Hl). exists x, l, []. rewrite app_nil_r.
    split_and!; [done|done|done|constructor|]. intros ->. rewrite app_nil_r in Heq. subst x.
    unfold ends_in_separator in Hx. rewrite last_snoc in Hx. congruence.
  - destruct IH as (x & l & e & -> & Hx & Hl & He & Hnil). exists x, l, (e ++ [c]).
    rewrite <- !app_assoc. split_and!; [done|done|done| |done]. apply Forall_app. split; [done|by repeat constructor].
Qed.

Lemma skip_back_app x l t root n :
  ends_in_separator x = false -> seps l -> n <= length l ->
  (forall i, root = Some i -> ~ (length x <= i < length x + n)) ->
  skip_back (x ++ l ++ t) root (length x + n) = length x.
Proof.
  intros Hx Hl. induction n as [|n IH]; intros Hn Hroot.
  - rewrite Nat.add_0_r. destruct x as [|c x _] using rev_ind; [done|].
    unfold ends_in_separator in Hx. rewrite last_snoc in Hx.
    rewrite length_app, Nat.add_1_r. cbn [skip_back].
    assert (sep_at ((x ++ [c]) ++ l ++ t) (length x) = false) as ->; [|by rewrite andb_false_r].
    by rewrite <- app_assoc, sep_at_length.
  - rewrite Nat.add_succ_r. cbn [skip_back]. rewrite bool_decide_false by (intros E; apply (Hroot (length x + n)); [done|lia]).
    rewrite sep_at_app, sep_at_run by (done || lia). cbn [negb andb]. apply IH; [lia|].
    intros i Hi. specialize (Hroot i Hi). lia.
Qed.

(** With the root directory at the start of the run, the run is skipped down to it. *)
Lemma skip_back_root x l t n :
  seps l -> n < length l -> skip_back (x ++ l ++ t) (Some (length x)) (length x + S n) = S (length x).
Proof.
  intros Hl. induction n as [|n IH]; intros Hn; rewrite Nat.add_succ_r; cbn [skip_back].
  - rewrite Nat.add_0_r. by rewrite bool_decide_true.
  - rewrite bool_decide_false by (intros [= E]; lia).
    rewrite sep_at_app, sep_at_run by (done || lia). cbn [negb andb]. apply IH. lia.
Qed.

Lemma last_below_at p s i n :
  i < n -> p (char_at s i) = true -> (forall j, i < j < n -> p (char_at s j) = false) -> last_below p s n = Some i.
Proof.
  intros Hi Hp. induction n as [|n IH]; intros Hj; [lia|]. cbn [last_below].
  destruct (decide (i = n)) as [->|]; [by rewrite Hp|]. rewrite Hj by lia. apply IH; [lia|].
  intros j Hjn. apply Hj. lia.
Qed.

Lemma last_below_none p s n : (forall j, j < n -> p (char_at s j) = false) -> last_below p s n = None.
Proof.
  induction n as [|n IH]; intros Hj; [done|]. cbn [last_below]. rewrite Hj by lia. apply IH.
  intros j Hjn. apply Hj. lia.
Qed.

Lemma last_separator x l e :
  seps l -> l <> [] -> clean e ->
  last_below is_directory_separator (x ++ l ++ e) (length (x ++ l ++ e)) = Some (length (x ++ l) - 1).
Proof.
  intros Hl Hne He. assert (1 <= length l) by (destruct l; [done|simpl; lia]).
  apply last_below_at; rewrite ?length_app; [lia| |].
  - change (is_directory_separator (char_at ?s ?n)) with (sep_at s n).
    replace (length x + length l - 1) with (length x + (length l - 1)) by lia.
    rewrite sep_at_app, sep_at_run by (done || lia). done.
  - intros j Hj. change (is_directory_separator (char_at ?s ?n)) with (sep_at s n). rewrite app_assoc.
    replace j with (length (x ++ l) + (j - length (x ++ l))) by (rewrite length_app; lia).
    rewrite sep_at_app. by apply sep_at_clean.
Qed.

Lemma no_separator e : clean e -> last_below is_directory_separator e (length e) = None.
Proof.
  intros He. apply last_below_none. intros j _. change (is_directory_separator (char_at ?s ?n)) with (sep_at s n).
  by apply sep_at_clean.
Qed.

Lemma sep_at_last s : s <> [] -> sep_at s (length s - 1) = ends_in_separator s.
Proof.
  intros Hne. destruct s as [|c s _] using rev_ind; [done|]. unfold ends_in_separator. rewrite last_snoc.
  rewrite length_app. simpl. rewrite Nat.add_sub. by rewrite sep_at_length.
Qed.

(** [filename_pos] of the whole text. *)
Lemma filename_pos_name x l e :
  ends_in_separator x = false -> seps l -> clean e -> e <> [] -> (l = [] -> x = []) ->
  filename_pos (x ++ l ++ e) (length (x ++ l ++ e)) =
    if bool_decide (x = []) && (length l =? 2) then 0 else length (x ++ l).
Proof.
  intros Hx Hl He Hne Hnil. unfold filename_pos.
  assert (1 <= length e) as Hle by (destruct e; [done|simpl; lia]).
  assert (ends_in_separator (x ++ l ++ e) = false) as Hend
    by (rewrite app_assoc, ends_in_separator_app by done; by apply ends_in_clean).
  assert (sep_at (x ++ l ++ e) (length (x ++ l ++ e) - 1) = false) as Hlast.
  { rewrite sep_at_last; [done|]. destruct x, l, e; done. }
  rewrite Hlast, andb_false_r.
  assert ((length (x ++ l ++ e) =? 2) && sep_at (x ++ l ++ e) 0 && sep_at (x ++ l ++ e) 1 = false) as ->.
  { destruct (Nat.eqb_spec (length (x ++ l ++ e)) 2) as [H2|]; [|done]. rewrite H2 in Hlast. simpl in Hlast.
    by rewrite Hlast, andb_false_r. }
  unfold find_last_of_before. destruct (length (x ++ l ++ e)) as [|len] eqn:Hlen; [rewrite !length_app in Hlen; lia|].
  rewrite Nat.min_id. rewrite <- Hlen. destruct l as [|c l].
  { rewrite Hnil by done. cbn [app]. rewrite no_separator by done. done. }
  rewrite last_separator by done. set (l' := c :: l) in *. rewrite length_app.
  assert (1 <= length l') as Hll by (unfold l'; simpl; lia).
  destruct x as [|d x].
  - rewrite bool_decide_true by done. cbn [app length andb]. rewrite sep_at_run by (done || lia). rewrite andb_true_r.
    destruct (Nat.eqb_spec (length l') 2) as [->|]; [done|].
    rewrite (proj2 (Nat.eqb_neq _ _)) by lia. lia.
  - rewrite bool_decide_false by done. cbn [andb].
    destruct (Nat.eqb_spec (length (d :: x) + length l' - 1) 1) as [H1|]; [|cbn [andb length] in *; lia].
    assert (sep_at ((d :: x) ++ l' ++ e) 0 = false) as ->; [|cbn [andb length] in *; lia].
    cbn [length] in H1. assert (length x = 0) by lia. destruct x; [|done].
    unfold ends_in_separator in Hx. cbn in Hx. cbn. done.
Qed.

Lemma filename_pos_trailing x l :
  ends_in_separator x = false -> seps l -> l <> [] ->
  filename_pos (x ++ l) (length (x ++ l)) =
    if bool_decide (x = []) && (length l =? 2) then 0 else length (x ++ l) - 1.
Proof.
  intros Hx Hl Hne. unfold filename_pos. assert (1 <= length l) as Hll by (destruct l; [done|simpl; lia]).
  assert (sep_at (x ++ l) (length (x ++ l) - 1) = true) as ->.
  { rewrite sep_at_last by (destruct x, l; done). rewrite ends_in_separator_app by done. by apply ends_in_seps. }
  rewrite (proj2 (Nat.eqb_neq (length (x ++ l)) 0)) by (rewrite length_app; lia). cbn [negb andb].
  destruct x as [|d x].
  - rewrite bool_decide_true by done. cbn [app andb]. rewrite sep_at_seps by (done || lia).
    destruct (Nat.eqb_spec (length l) 2) as [H2|]; [|done]. by rewrite sep_at_seps by (done || lia).
  - rewrite bool_decide_false by done. cbn [andb].
    destruct (Nat.eqb_spec (length ((d :: x) ++ l)) 2) as [H2|]; [|done].
    assert (sep_at ((d :: x) ++ l) 0 = false) as ->; [|done].
    rewrite length_app in H2. cbn [length] in H2. destruct x; [|simpl in H2; lia].
    unfold ends_in_separator in Hx. cbn in Hx. cbn. done.
Qed.


(** A network name: exactly two separators and a name. *)
Definition net_name (x : list Z) : bool :=
  (2 <? length x) && sep_at x 0 && sep_at x 1 && (span not_separator (drop 2 x) =? length x - 2).

Lemma span_length p s : span p s <= length s.
Proof. induction s as [|c s IH]; simpl; [lia|]. destruct (p c); lia. Qed.

Lemma span_full s : span not_separator s = length s -> clean s.
Proof.
  intros H. pose proof (span_take not_separator s) as Ht. rewrite H, firstn_all in Ht.
  by apply clean_not_separator.
Qed.

Lemma span_partial s t : span not_separator s < length s -> span not_separator (s ++ t) = span not_separator s.
Proof.
  induction s as [|c s IH]; simpl; [lia|]. destruct (not_separator c); [|done]. intros H. rewrite IH; [done|lia].
Qed.

Lemma net_name_spec x : net_name x = true <-> exists n, x = net_prefix ++ n /\ clean n /\ n <> [].
Proof.
  unfold net_name. split.
  - rewrite !andb_true_iff, Nat.ltb_lt, Nat.eqb_eq. intros [[[Hl H0] H1] Hs].
    destruct x as [|c0 [|c1 n]]; simpl in Hl; [lia|lia|].
    unfold sep_at, char_at, is_directory_separator in H0, H1. cbn [nth] in H0, H1. apply Z.eqb_eq in H0 as ->. apply Z.eqb_eq in H1 as ->.
    exists n. cbn [drop] in Hs. rewrite drop_0 in Hs. simpl in Hs.
    split_and!; [done|apply span_full; lia|intros ->; simpl in *; lia].
  - intros (n & -> & Hn & Hne). cbn [net_prefix app drop length]. rewrite drop_0.
    pose proof (span_clean n [] Hn I) as Hs. rewrite app_nil_r in Hs. rewrite Hs. destruct n; [done|].
    change (2 <? S (S (length (z :: n)))) with true.
    change (sep_at (separator :: separator :: z :: n) 0) with true.
    change (sep_at (separator :: separator :: z :: n) 1) with true. cbn [andb].
    apply Nat.eqb_eq. lia.
Qed.

Lemma is_root_trailing x l :
  x <> [] -> ends_in_separator x = false -> seps l -> l <> [] ->
  is_root_separator (x ++ l) (length (x ++ l) - 1) = Ret (net_name x).
Proof.
  intros Hx Hend Hl Hne. unfold is_root_separator.
  assert (1 <= length l) by (destruct l; [done|simpl; lia]). assert (1 <= length x) by (destruct x; [done|simpl; lia]).
  assert (length (x ++ l) - 1 = length x + (length l - 1)) as -> by (rewrite length_app; lia).
  rewrite sep_at_app, sep_at_seps by (done || lia). rewrite leftmost_separator_app by (done || lia).
  rewrite (proj2 (Nat.eqb_neq (length (x ++ l)) 0)) by (rewrite length_app; lia).
  rewrite (proj2 (Nat.eqb_neq (length x) 0)) by lia. cbn [negb andb]. unfold net_name.
  destruct (Nat.ltb_spec (length x) 3); [by rewrite (proj2 (Nat.ltb_ge 2 _)) by lia|].
  rewrite (proj2 (Nat.ltb_lt 2 _)) by lia. rewrite !sep_at_app_l by lia. cbn [orb andb].
  destruct (sep_at x 0), (sep_at x 1); cbn [negb orb andb]; try done. f_equal. unfold find_first_of.
  rewrite drop_app_le by lia. pose proof (span_length not_separator (drop 2 x)) as Hsp. rewrite length_drop in Hsp.
  destruct (Nat.eqb_spec (span not_separator (drop 2 x)) (length x - 2)) as [E|E].
  - assert (span not_separator (drop 2 x ++ l) = length x - 2) as ->.
    { rewrite <- E. rewrite span_clean; [by rewrite length_drop, E|apply span_full; by rewrite length_drop|].
      destruct l; [done|]. by inversion Hl. }
    rewrite (proj2 (Nat.ltb_lt _ _)) by (rewrite length_app; lia). apply bool_decide_eq_true. f_equal. lia.
  - rewrite span_partial by (rewrite length_drop; lia).
    rewrite (proj2 (Nat.ltb_lt _ _)) by (rewrite length_app; lia). apply bool_decide_eq_false. intros [= Hc]. lia.
Qed.

(** ** Elements at the right end *)

Definition last_element (e : list Z) : list Z := if decide (e = []) then dot_path else e.

Lemma after_name_snoc r l e :
  ends_in_separator r = false -> seps l -> l <> [] -> clean e ->
  after_name (r ++ l ++ e) = after_name r ++ [last_element e].
Proof.
  intros Hr Hl Hne He. unfold after_name, last_element. rewrite Hr, app_nil_r. destruct (decide (e = [])) as [->|Hnee].
  - rewrite app_nil_r, names_trailing, ends_in_separator_app, ends_in_seps by done. done.
  - rewrite names_snoc by done. rewrite app_assoc, ends_in_separator_app, ends_in_clean by done. apply app_nil_r.
Qed.

Lemma names_nonempty r : r <> [] -> ends_in_separator r = false -> names r <> [].
Proof.
  intros Hr Hend. destruct (right_split r) as (x & l & e & -> & Hx & Hl & He & Hnil).
  destruct e as [|c e].
  { rewrite app_nil_r in *. destruct l as [|d l]; [rewrite Hnil in Hr by done; done|].
    rewrite ends_in_separator_app, ends_in_seps in Hend by done. done. }
  destruct l as [|d l].
  - rewrite Hnil by done. cbn [app]. rewrite <- (app_nil_r (c :: e)). by rewrite names_name.
  - rewrite names_snoc by done. by destruct (names x).
Qed.

Lemma after_root_snoc r l e :
  r <> [] -> ends_in_separator r = false -> seps l -> l <> [] -> clean e ->
  after_root (r ++ l ++ e) = after_root r ++ [last_element e].
Proof.
  intros Hr Hend Hl Hne He. unfold after_root. rewrite (decide_False (P := names r = [])) by by apply names_nonempty.
  rewrite decide_False; [by apply after_name_snoc|]. destruct e as [|c e].
  - rewrite app_nil_r, names_trailing by done. by apply names_nonempty.
  - rewrite names_snoc by done. by destruct (names r).
Qed.


Lemma spec_relative s : no_boundary s -> spec_elements s = after_name s.
Proof. intros Hs. unfold spec_elements. destruct s as [|c s]; [done|]. simpl in *. by rewrite Hs. Qed.

Lemma spec_root l r :
  seps l -> no_boundary r -> length l <> 0 -> length l <> 2 -> spec_elements (l ++ r) = root_element :: after_root r.
Proof.
  intros Hl Hr H0 H2. unfold spec_elements. rewrite span_seps, drop_app_length by done.
  by destruct (length l) as [|[|[|]]].
Qed.

Lemma spec_net n rest :
  clean n -> boundary rest -> (n = [] -> rest = []) ->
  spec_elements (net_prefix ++ n ++ rest) =
    (net_prefix ++ n) :: match rest with [] => [] | r' => root_element :: after_root r' end.
Proof.
  intros Hn Hb Hnil. pose proof (elements_net n rest Hn Hb Hnil) as H. rewrite elements_spec in H. by injection H.
Qed.

Lemma no_boundary_app r t : r <> [] -> no_boundary r -> no_boundary (r ++ t).
Proof. by destruct r. Qed.

Lemma boundary_app r t : r <> [] -> boundary r -> boundary (r ++ t).
Proof. by destruct r. Qed.

Lemma seps_boundary l : seps l -> boundary l.
Proof. destruct l; [done|]. by inversion 1. Qed.

(** Appending separators and a name (or nothing) to a text that does not end in a separator
    appends one element, but for the root directory of a network name. *)
Lemma spec_snoc x l e :
  x <> [] -> ends_in_separator x = false -> seps l -> l <> [] -> clean e ->
  spec_elements (x ++ l ++ e) =
    if net_name x then x :: root_element :: (if decide (e = []) then [] else [e])
    else spec_elements x ++ [last_element e].
Proof.
  intros Hx Hend Hl Hne He. destruct (seps_split x) as (l0 & r & -> & Hl0 & Hr & _).
  assert (r <> []) as Hrne.
  { intros ->. rewrite app_nil_r in *. by rewrite ends_in_seps in Hend. }
  rewrite ends_in_separator_app in Hend by done.
  destruct (decide (length l0 = 2)) as [H2|H2].
  - rewrite (seps_replicate l0 Hl0), H2. change (replicate 2 separator) with net_prefix.
    destruct (name_split r) as (n & rest & -> & Hn & Hb & _).
    assert (n <> []) as Hnn by (intros ->; destruct rest; simpl in *; congruence).
    destruct rest as [|c rest].
    + rewrite app_nil_r in *. rewrite (proj2 (net_name_spec _)) by (by exists n).
      rewrite <- app_assoc, spec_net; [|done|by apply boundary_app, seps_boundary|done].
      destruct l as [|c l]; [done|]. cbn [app]. destruct (decide (e = [])) as [->|Hnee].
      * rewrite app_nil_r. by rewrite after_root_seps.
      * change (c :: l ++ e) with ((c :: l) ++ e). rewrite <- (app_nil_r e) at 1. by rewrite after_root_next.
    + assert (net_name (net_prefix ++ n ++ c :: rest) = false) as ->.
      { apply not_true_iff_false. rewrite net_name_spec. intros (n' & Heq & Hn' & _). injection Heq as Heq. subst n'.
        apply Forall_app in Hn' as [_ Hc]. inversion Hc as [|? ? Hc' _]. simpl in Hb. congruence. }
      rewrite <- !app_assoc, !spec_net by done. cbn [app]. f_equal. f_equal.
      rewrite ends_in_separator_app in Hend by done.
      change (c :: rest ++ l ++ e) with ((c :: rest) ++ l ++ e). by apply after_root_snoc.
  - assert (net_name (l0 ++ r) = false) as ->.
    { apply not_true_iff_false. rewrite net_name_spec. intros (n' & Heq & Hn' & Hne').
      apply (f_equal (span is_directory_separator)) in Heq.
      rewrite !span_seps in Heq; [done|by repeat constructor| |done|done].
      destruct n'; [done|]. by inversion Hn'. }
    destruct (decide (length l0 = 0)) as [H0|H0].
    + destruct l0; [|done]. cbn [app]. rewrite !spec_relative by (done || by apply no_boundary_app).
      by apply after_name_snoc.
    + rewrite <- app_assoc, !spec_root by (done || by apply no_boundary_app).
      by rewrite after_root_snoc.
Qed.

Lemma single_name e : clean e -> e <> [] -> after_name e = [e] /\ after_root e = [e].
Proof.
  intros He Hne. assert (seps []) as Hnil by constructor. pose proof (after_name_next [] e [] Hnil He Hne I) as H1.
  pose proof (after_root_next [] e [] Hnil He Hne I) as H2. by rewrite !app_nil_r in *.
Qed.

(** The elements of a text that is a run of separators and at most one name. *)
Lemma spec_short l e :
  seps l -> clean e ->
  spec_elements (l ++ e) =
    match length l with
    | 0 => if decide (e = []) then [] else [e]
    | 2 => [net_prefix ++ e]
    | _ => root_element :: (if decide (e = []) then [] else [e])
    end.
Proof.
  intros Hl He. assert (no_boundary e) as Hb by (destruct e; [done|]; by inversion He).
  assert (forall P : list Z -> list (list Z), P [] = [] -> (e <> [] -> P e = [e]) ->
    P e = if decide (e = []) then [] else [e]) as Hcase.
  { intros P H1 H2. destruct (decide (e = [])) as [->|]; [done|by apply H2]. }
  destruct (length l) as [|[|[|k]]] eqn:Hlen.
  - destruct l; [|done]. cbn [app]. rewrite spec_relative by done. apply Hcase; [done|]. intros Hne. by apply single_name.
  - rewrite spec_root by (done || lia). f_equal. apply Hcase; [done|]. intros Hne. by apply single_name.
  - rewrite (seps_replicate l Hl), Hlen. change (replicate 2 separator) with net_prefix.
    rewrite <- (app_nil_r e) at 1. by rewrite spec_net.
  - rewrite spec_root by (done || lia). f_equal. apply Hcase; [done|]. intros Hne. by apply single_name.
Qed.

(** ** filename *)

Lemma leftmost_separator_seps l t n : seps l -> n <= length l -> leftmost_separator (l ++ t) n = 0.
Proof.
  intros Hl. induction n as [|n IH]; intros Hn; [done|]. cbn [leftmost_separator].
  rewrite sep_at_run by (done || lia). apply IH. lia.
Qed.

Lemma is_root_seps l n : seps l -> n < length l -> is_root_separator l n = Ret true.
Proof.
  intros Hl Hn. unfold is_root_separator. rewrite sep_at_seps by done.
  rewrite (proj2 (Nat.eqb_neq _ _)) by lia. cbn [negb andb].
  pose proof (leftmost_separator_seps l [] n Hl) as H. rewrite app_nil_r in H. by rewrite H by lia.
Qed.

Lemma drop_last_sep x l : seps l -> l <> [] -> drop (length (x ++ l) - 1) (x ++ l) = root_element.
Proof.
  intros Hl Hne. destruct (seps_snoc l Hl Hne) as (l' & -> & _). rewrite app_assoc.
  rewrite length_app. simpl. rewrite Nat.add_sub. by rewrite drop_app_length.
Qed.

Lemma c_str_app_r x y : 0%Z ∉ x ++ y -> c_str y = y.
Proof. intros H. apply c_str_id. set_solver. Qed.

Lemma filename_name x l e :
  ends_in_separator x = false -> seps l -> clean e -> e <> [] -> (l = [] -> x = []) -> 0%Z ∉ x ++ l ++ e ->
  filename (x ++ l ++ e) = Ret (if bool_decide (x = []) && (length l =? 2) then net_prefix ++ e else e).
Proof.
  intros Hx Hl He Hne Hnil Hnul. unfold filename. rewrite filename_pos_name by done.
  destruct (bool_decide (x = []) && (length l =? 2)) eqn:E.
  - apply andb_true_iff in E as [Ex El]. apply bool_decide_eq_true in Ex as ->. apply Nat.eqb_eq in El.
    cbn [Nat.eqb negb andb]. rewrite andb_false_r. cbn [obind andb app drop].
    rewrite drop_0, c_str_id by done. by rewrite (seps_replicate l Hl), El.
  - assert (sep_at (x ++ l ++ e) (length (x ++ l)) = false) as ->.
    { rewrite app_assoc, sep_at_length. destruct e; [done|]. by inversion He. }
    rewrite andb_false_r. cbn [obind]. rewrite app_assoc in *. rewrite drop_app_length.
    by rewrite (c_str_app_r (x ++ l)).
Qed.

Lemma filename_trailing x l :
  ends_in_separator x = false -> seps l -> l <> [] -> 0%Z ∉ x ++ l ->
  filename (x ++ l) = Ret (if decide (x = []) then (if length l =? 2 then net_prefix else root_element)
                           else if net_name x then root_element else dot_path).
Proof.
  intros Hx Hl Hne Hnul. unfold filename. rewrite filename_pos_trailing by done.
  assert (1 <= length l) by (destruct l; [done|simpl; lia]).
  assert (sep_at (x ++ l) (length (x ++ l) - 1) = true) as Hsep.
  { rewrite sep_at_last by (destruct x, l; done). rewrite ends_in_separator_app by done. by apply ends_in_seps. }
  assert (c_str (drop (length (x ++ l) - 1) (x ++ l)) = root_element) as Hroot
    by (rewrite drop_last_sep by done; done).
  rewrite (proj2 (Nat.eqb_neq (length (x ++ l)) 0)) by (rewrite length_app; lia).
  destruct (decide (x = [])) as [->|Hxne].
  - rewrite bool_decide_true by done. cbn [app andb] in *.
    destruct (Nat.eqb_spec (length l) 2) as [H2|H2].
    + cbn [Nat.eqb negb andb obind]. rewrite drop_0, c_str_id by done. by rewrite (seps_replicate l Hl), H2.
    + destruct (Nat.eqb_spec (length l - 1) 0) as [H0|H0]; cbn [negb andb obind].
      * by rewrite Hroot.
      * rewrite Hsep, is_root_seps by (done || lia). cbn [obind negb]. by rewrite Hroot.
  - rewrite bool_decide_false by done. cbn [andb negb]. rewrite Hsep, andb_true_r.
    assert (1 <= length x) by (destruct x; [done|simpl; lia]).
    rewrite (proj2 (Nat.eqb_neq _ _)) by (rewrite length_app; lia). cbn [negb].
    rewrite is_root_trailing by done. cbn [obind]. destruct (net_name x); cbn [negb]; [by rewrite Hroot|done].
Qed.

Lemma filename_spec s : 0%Z ∉ s -> filename s = Ret (default [] (last (spec_elements s))).
Proof.
  intros Hnul. destruct (right_split s) as (x & l & e & -> & Hx & Hl & He & Hnil).
  destruct (decide (e = [])) as [->|Hne].
  - destruct (decide (l = [])) as [->|Hnel]; [by rewrite Hnil by done|].
    rewrite app_nil_r in *. rewrite filename_trailing by done. destruct (decide (x = [])) as [->|Hxne].
    + cbn [app]. rewrite <- (app_nil_r l) at 2. rewrite spec_short by done.
      destruct l as [|c0 [|c1 [|]]]; done.
    + rewrite <- (app_nil_r l) at 1. rewrite spec_snoc by done. destruct (net_name x); [done|].
      by rewrite last_snoc.
  - rewrite filename_name by done. destruct (decide (x = [])) as [->|Hxne].
    + rewrite bool_decide_true by done. cbn [app andb]. rewrite spec_short by done. rewrite decide_False by done.
      by destruct (length l) as [|[|[|]]].
    + rewrite bool_decide_false by done. cbn [andb]. rewrite spec_snoc by (done || (intros E; by apply Hxne, Hnil)).
      unfold last_element. rewrite !decide_False by done. destruct (net_name x); [done|]. by rewrite last_snoc.
Qed.

(** ** parent_path *)

Lemma root_start_before x t m i :
  x <> [] -> ends_in_separator x = false -> net_name x = false ->
  root_directory_start (x ++ t) m = Some i -> i < length x.
Proof.
  intros Hx Hend Hnet. assert (1 <= length x) by (destruct x; [done|simpl; lia]). unfold root_directory_start.
  destruct (_ && _ && _); [done|]. destruct (_ && _ && _ && _) eqn:E.
  - rewrite !andb_true_iff in E. destruct E as [[[_ H0] H1] H2]. unfold find_first_of.
    assert (2 < length x) as Hlen.
    { destruct (decide (2 < length x)); [done|exfalso]. destruct x as [|c0 [|c1 [|]]]; simpl in *; try lia.
      - unfold ends_in_separator in Hend. cbn in Hend, H0. unfold sep_at, char_at in H0. cbn in H0. congruence.
      - unfold ends_in_separator in Hend. cbn in Hend. unfold sep_at, char_at in H1. cbn in H1. congruence. }
    rewrite !sep_at_app_l in H0, H1 by lia. unfold net_name in Hnet. rewrite H0, H1, (proj2 (Nat.ltb_lt 2 _)) in Hnet by done.
    cbn [andb] in Hnet. apply Nat.eqb_neq in Hnet. pose proof (span_length not_separator (drop 2 x)) as Hsp.
    rewrite length_drop in Hsp. rewrite drop_app_le by lia. rewrite span_partial by (rewrite length_drop; lia).
    repeat case_match; simplify_eq; intros; simplify_eq; lia.
  - case_match; [|discriminate]. intros [= <-]. lia.
Qed.

Lemma root_start_net x l e n :
  net_name x = true -> seps l -> n < length l ->
  root_directory_start (x ++ l ++ e) (length x + S n) = Some (length x).
Proof.
  intros Hnet Hl Hn. apply net_name_spec in Hnet as (m & -> & Hm & Hne).
  destruct m as [|c m]; [done|]. inversion Hm as [|? ? Hc _]; subst. unfold root_directory_start.
  rewrite (proj2 (Nat.eqb_neq _ 2)) by (rewrite length_app; simpl; lia). cbn [andb].
  change (sep_at ((net_prefix ++ c :: m) ++ l ++ e) 0) with true.
  change (sep_at ((net_prefix ++ c :: m) ++ l ++ e) 1) with true.
  change (sep_at ((net_prefix ++ c :: m) ++ l ++ e) 2) with (is_directory_separator c).
  rewrite Hc, (proj2 (Nat.ltb_lt 3 _)) by (rewrite length_app; simpl; lia). cbn [negb andb].
  unfold find_first_of. change (drop 2 ((net_prefix ++ c :: m) ++ l ++ e)) with ((c :: m) ++ l ++ e).
  rewrite span_clean; [|done|apply boundary_app; [by intros ->; simpl in Hn; lia|by apply seps_boundary]].
  rewrite (proj2 (Nat.ltb_lt _ _)) by (rewrite !length_app; simpl; lia).
  rewrite (proj2 (Nat.ltb_lt _ _)) by (rewrite !length_app; simpl; lia). done.
Qed.

(** Past the leading run, the parent ends where the separators before the last element
    start; behind a network name it keeps one of them. *)
Lemma parent_end_inner x l e n :
  x <> [] -> ends_in_separator x = false -> seps l -> n <= length l ->
  let root := root_directory_start (x ++ l ++ e) (length x + n) in
  skip_back (x ++ l ++ e) root (length x + n) = (if net_name x && negb (n =? 0) then S (length x) else length x) /\
  ~ (length x = 1 /\ root = Some 0).
Proof.
  intros Hx Hend Hl Hn. cbn zeta. split.
  - destruct (net_name x) eqn:Hnet; cbn [andb].
    + destruct n as [|n]; cbn [Nat.eqb negb]; [apply skip_back_app; try done; lia|].
      rewrite root_start_net by (done || lia). apply skip_back_root; [done|lia].
    + apply skip_back_app; [done|done|done|]. intros i Hi. apply root_start_before in Hi; [lia|done|done|done].
  - intros [H1 Hroot]. destruct x as [|c [|]]; simpl in H1; try lia. cbn [app] in Hroot.
    assert (sep_at (c :: l ++ e) 0 = false) as H0 by done.
    unfold root_directory_start in Hroot. rewrite H0, !andb_false_r in Hroot. done.
Qed.

Lemma parent_path_end_inner x l e :
  x <> [] -> ends_in_separator x = false -> seps l -> l <> [] -> clean e ->
  parent_path_end (x ++ l ++ e) =
    Some (if net_name x && negb (bool_decide (e = []) && (length l =? 1)) then S (length x) else length x).
Proof.
  intros Hx Hend Hl Hne He. assert (1 <= length l) by (destruct l; [done|simpl; lia]).
  assert (exists n, filename_pos (x ++ l ++ e) (length (x ++ l ++ e)) = length x + n /\ n <= length l /\
    (n =? 0) = bool_decide (e = []) && (length l =? 1)) as (n & Hpos & Hn & Hdef).
  { destruct (decide (e = [])) as [->|Hnee].
    - exists (length l - 1). rewrite app_nil_r, filename_pos_trailing, bool_decide_false by done.
      rewrite bool_decide_true by done. cbn [andb]. rewrite length_app. split_and!; [lia|lia|].
      destruct (Nat.eqb_spec (length l - 1) 0), (Nat.eqb_spec (length l) 1); (done || lia).
    - exists (length l). rewrite filename_pos_name by done. rewrite !bool_decide_false by done.
      cbn [andb]. rewrite length_app. split_and!; [done|done|]. apply Nat.eqb_neq. lia. }
  unfold parent_path_end. rewrite Hpos, <- Hdef.
  destruct (parent_end_inner x l e n Hx Hend Hl Hn) as [Hskip Hno]. cbn zeta in *.
  rewrite Hskip. assert (length x <> 0) by (by destruct x).
  destruct (net_name x && negb (n =? 0)).
  - by rewrite (proj2 (Nat.eqb_neq (S (length x)) 1)) by lia.
  - destruct (Nat.eqb_spec (length x) 1) as [E|E]; [|done]. rewrite bool_decide_false; [done|]. auto.
Qed.

Lemma parent_path_inner x l e :
  x <> [] -> ends_in_separator x = false -> seps l -> l <> [] -> clean e ->
  parent_path (x ++ l ++ e) =
    if net_name x && negb (bool_decide (e = []) && (length l =? 1)) then x ++ [separator] else x.
Proof.
  intros Hx Hend Hl Hne He. unfold parent_path, substr. rewrite parent_path_end_inner, drop_0 by done.
  destruct (_ && _); [|by rewrite take_app_length].
  destruct l as [|c l]; [done|]. inversion Hl as [|? ? Hc _]; subst. unfold is_directory_separator in Hc.
  apply Z.eqb_eq in Hc as ->. cbn [app].
  replace (x ++ separator :: l ++ e) with ((x ++ [separator]) ++ l ++ e) by (by rewrite <- app_assoc).
  rewrite take_app_length'; [done|]. rewrite length_app. simpl. lia.
Qed.

Lemma skip_back_seps l t n : seps l -> n <= length l -> skip_back (l ++ t) None n = 0.
Proof.
  intros Hl Hn. apply (skip_back_app [] l t None n); [done|done|done|done].
Qed.

Lemma skip_back_seps_root l t n : seps l -> n < length l -> skip_back (l ++ t) (Some 0) (S n) = 1.
Proof. intros Hl Hn. apply (skip_back_root [] l t n); done. Qed.

Lemma root_start_seps l e n :
  seps l -> no_boundary e -> 0 < n <= length l -> n <> 2 -> length l <> 2 -> root_directory_start (l ++ e) n = Some 0.
Proof.
  intros Hl He Hn H2 Hl2. unfold root_directory_start. rewrite (proj2 (Nat.eqb_neq n 2)) by done. cbn [andb].
  assert ((3 <? n) && sep_at (l ++ e) 0 && sep_at (l ++ e) 1 && negb (sep_at (l ++ e) 2) = false) as ->.
  { destruct (Nat.ltb_spec 3 n); [|done]. by rewrite (sep_at_run l e 2), andb_false_r by (done || lia). }
  rewrite (proj2 (Nat.ltb_lt 0 n)), sep_at_run by (done || lia). done.
Qed.

Lemma parent_end_short l e :
  seps l -> clean e ->
  parent_path_end (l ++ e) =
    if bool_decide (e = []) then (if 3 <? length l then None else Some 0)
    else if (length l =? 0) || (length l =? 2) then Some 0 else Some 1.
Proof.
  intros Hl He. assert (no_boundary e) as Hb by (destruct e; [done|]; by inversion He). unfold parent_path_end.
  destruct (decide (e = [])) as [->|Hne].
  - change (bool_decide (@nil Z = [])) with true. destruct l as [|c l]; [done|]. set (l' := c :: l) in *.
    pose proof (filename_pos_trailing [] l' eq_refl Hl ltac:(done)) as Hp. cbn [app] in Hp. rewrite app_nil_r, Hp. change (bool_decide (@nil Z = [])) with true. cbn [app andb].
    assert (1 <= length l') by (unfold l'; simpl; lia).
    rewrite (proj2 (Nat.eqb_neq (length l') 0)) by lia. cbn [negb andb].
    destruct (Nat.eqb_spec (length l') 2) as [H2|H2]; [by rewrite H2|].
    destruct (decide (length l' = 1)) as [H1|H1]; [by rewrite H1|].
    rewrite sep_at_seps by (done || lia). pose proof (skip_back_seps l' [] (length l' - 1) Hl) as Hs.
    pose proof (skip_back_seps_root l' [] (length l' - 2) Hl) as Hsr. rewrite app_nil_r in Hs, Hsr.
    destruct (decide (length l' = 3)) as [H3|H3].
    + assert (root_directory_start l' (length l' - 1) = None) as ->.
      { unfold root_directory_start. rewrite H3. cbn [Nat.sub Nat.eqb andb]. by rewrite !sep_at_seps by (done || lia). }
      rewrite Hs by lia. by rewrite H3.
    + pose proof (root_start_seps l' [] (length l' - 1) Hl I) as Hr. rewrite app_nil_r in Hr. rewrite Hr by lia.
      replace (length l' - 1) with (S (length l' - 2)) by lia. rewrite Hsr by lia.
      rewrite bool_decide_true by done. rewrite (proj2 (Nat.ltb_lt 3 _)) by lia. done.
  - rewrite (bool_decide_eq_false_2 (e = [])) by done. pose proof (filename_pos_name [] l e eq_refl Hl He Hne ltac:(done)) as Hp. cbn [app] in Hp. rewrite Hp.
    change (bool_decide (@nil Z = [])) with true. cbn [app andb].
    destruct (Nat.eqb_spec (length l) 2) as [H2|H2]; [by rewrite orb_true_r|]. rewrite orb_false_r.
    destruct (Nat.eqb_spec (length l) 0) as [H0|H0]; [destruct l; done|].
    rewrite root_start_seps by (done || lia). destruct (length l) as [|k] eqn:Hk; [done|].
    rewrite skip_back_seps_root by (done || lia).
    assert (sep_at (l ++ e) (S k) = false) as -> by (rewrite <- Hk; by apply sep_at_run_end).
    by rewrite !andb_false_r.
Qed.

(** A network name followed by more than one separator. *)
Definition net_root_run (s : list Z) : Prop :=
  exists x l, s = x ++ l /\ net_name x = true /\ seps l /\ 2 <= length l.

Lemma net_name_end x : net_name x = true -> x <> [] /\ ends_in_separator x = false.
Proof.
  intros (n & -> & Hn & Hne)%net_name_spec. split; [done|]. rewrite ends_in_separator_app by done. by apply ends_in_clean.
Qed.

Lemma spec_net_name x : net_name x = true -> spec_elements x = [x].
Proof.
  intros (n & -> & Hn & Hne)%net_name_spec. rewrite <- (app_nil_r n) at 1. by rewrite spec_net.
Qed.

Lemma parent_path_spec s :
  spec_elements (parent_path s) = removelast (spec_elements s) \/
  (net_root_run s /\ spec_elements (parent_path s) = spec_elements s).
Proof.
  destruct (right_split s) as (x & l & e & -> & Hx & Hl & He & Hnil). destruct (decide (x = [])) as [->|Hxne].
  - left. cbn [app]. unfold parent_path. rewrite parent_end_short, spec_short by done.
    destruct (decide (e = [])) as [->|Hne].
    + rewrite bool_decide_true by done. by destruct (length l) as [|[|[|[|]]]].
    + rewrite bool_decide_false by done. destruct l as [|c [|c1 [|c2 l]]]; cbn [length Nat.eqb orb]; try done.
      all: inversion Hl as [|? ? Hc _]; unfold is_directory_separator in Hc; apply Z.eqb_eq in Hc as ->; done.
  - assert (l <> []) as Hlne by (intros E; by apply Hxne, Hnil). rewrite parent_path_inner, spec_snoc by done.
    assert (1 <= length l) by (destruct l; [done|simpl; lia]).
    destruct (net_name x) eqn:Hnet; cbn [andb]; [|left; by rewrite removelast_last].
    destruct (decide (e = [])) as [->|Hne].
    + rewrite bool_decide_true by done. cbn [andb]. destruct (Nat.eqb_spec (length l) 1) as [H1|H1]; cbn [negb].
      * left. by rewrite spec_net_name.
      * right. split; [exists x, l; rewrite app_nil_r; split_and!; [done|done|done|lia]|].
        pose proof (spec_snoc x [separator] [] Hxne Hx) as Hs. rewrite app_nil_r, Hnet in Hs.
        apply Hs; [by repeat constructor|done|constructor].
    + left. rewrite bool_decide_false by done. cbn [andb negb].
      pose proof (spec_snoc x [separator] [] Hxne Hx) as Hs. rewrite app_nil_r, Hnet in Hs.
      apply Hs; [by repeat constructor|done|constructor].
Qed.

Lemma remove_filename_spec s :
  remove_filename s = if decide (seps s /\ 3 < length s) then Fault OutOfRange else Ret (parent_path s).
Proof.
  destruct (right_split s) as (x & l & e & -> & Hx & Hl & He & Hnil). unfold remove_filename, parent_path.
  destruct (decide (x = [])) as [->|Hxne].
  - cbn [app]. rewrite parent_end_short by done. destruct (decide (e = [])) as [->|Hne].
    + rewrite bool_decide_true by done. rewrite app_nil_r. destruct (Nat.ltb_spec 3 (length l)).
      * by rewrite decide_True.
      * rewrite decide_False by (intros [_ ?]; lia). cbn [erase_from Nat.leb]. unfold substr. by rewrite drop_0.
    + rewrite bool_decide_false by done. rewrite decide_False.
      * destruct (_ || _); cbn [erase_from Nat.leb]; unfold substr; rewrite drop_0; [done|].
        destruct l, e; done.
      * intros [Hs _]. destruct e as [|c e]; [done|]. apply Forall_app in Hs as [_ Hc].
        inversion Hc; inversion He; congruence.
  - rewrite decide_False.
    + assert (l <> []) as Hlne by (intros E; by apply Hxne, Hnil).
      rewrite parent_path_end_inner by done. assert (1 <= length l) by (destruct l; [done|simpl; lia]).
      cbn [erase_from]. rewrite (proj2 (Nat.leb_le _ _)) by (rewrite !length_app; destruct (_ && _); lia).
      unfold substr. by rewrite drop_0.
    + intros [Hs _]. apply Forall_app in Hs as [Hs _]. by rewrite ends_in_seps in Hx.
Qed.

(** ** stem and extension *)

Lemma c_str_no_nul s : 0%Z ∉ c_str s.
Proof.
  induction s as [|c s IH]; simpl; [set_solver|]. destruct (Z.eqb_spec c 0); [set_solver|].
  apply not_elem_of_cons. by split.
Qed.

Lemma is_root_total s p : s <> [] -> sep_at s p = true -> exists b, is_root_separator s p = Ret b.
Proof.
  intros Hne Hs. unfold is_root_separator. rewrite Hs, (proj2 (Nat.eqb_neq (length s) 0)) by (by destruct s).
  cbn [negb andb]. repeat case_match; by eexists.
Qed.

(** [filename] never trips the assertion of [is_root_separator]. *)
Lemma filename_total s : exists name, filename s = Ret name /\ 0%Z ∉ name.
Proof.
  unfold filename. set (pos := filename_pos s (length s)).
  destruct (negb (length s =? 0) && negb (pos =? 0) && sep_at s pos) eqn:E.
  - rewrite !andb_true_iff in E. destruct E as [[E1 _] E3].
    destruct (is_root_total s pos) as (b & ->); [by intros ->|done|]. cbn [obind].
    eexists. split; [done|]. destruct b; cbn [negb]; [apply c_str_no_nul|].
    apply not_elem_of_cons. split; [done|apply not_elem_of_nil].
  - eexists. split; [done|]. apply c_str_no_nul.
Qed.

Lemma last_below_inv p s n i :
  last_below p s n = Some i -> i < n /\ p (char_at s i) = true /\ forall j, i < j < n -> p (char_at s j) = false.
Proof.
  induction n as [|n IH]; cbn [last_below]; [done|]. destruct (p (char_at s n)) eqn:E.
  - intros [= ->]. split_and!; [lia|done|lia].
  - intros H. destruct (IH H) as (H1 & H2 & H3). split_and!; [lia|done|]. intros j Hj.
    destruct (decide (j = n)) as [->|]; [done|]. apply H3. lia.
Qed.

Lemma rfind_dot_some name p :
  rfind_dot name = Some p -> exists t, drop p name = dot :: t /\ dot ∉ t.
Proof.
  unfold rfind_dot. intros (Hp & Hd & Hj)%last_below_inv. apply Z.eqb_eq in Hd. unfold char_at in *.
  exists (drop (S p) name). split.
  - rewrite (drop_S name dot p); [done|]. destruct (nth_lookup_or_length name p 0%Z) as [H|H]; [|lia].
    by rewrite H, <- Hd.
  - intros Hin. apply list_elem_of_lookup in Hin as [k Hk]. rewrite lookup_drop in Hk.
    pose proof (lookup_lt_Some _ _ _ Hk). specialize (Hj (S p + k) ltac:(lia)).
    rewrite (nth_lookup_Some _ _ _ _ Hk), Z.eqb_refl in Hj. done.
Qed.

Lemma rfind_dot_snoc st t : dot ∉ t -> rfind_dot (st ++ dot :: t) = Some (length st).
Proof.
  intros Ht. unfold rfind_dot. apply last_below_at.
  - rewrite length_app. simpl. lia.
  - rewrite <- (Nat.add_0_r (length st)), char_at_app. done.
  - intros j Hj. apply Z.eqb_neq. intros E. apply Ht.
    replace j with (length st + S (j - length st - 1)) in E by lia. rewrite char_at_app in E.
    unfold char_at in E. cbn [nth] in E. rewrite length_app in Hj. cbn [length] in Hj.
    rewrite E. apply list_elem_of_In, nth_In. lia.
Qed.

Definition special (name : list Z) : bool :=
  bool_decide (spec_elements name = [dot_path]) || bool_decide (spec_elements name = [dot_dot_path]).

Lemma is_special_spec name : is_special name = Ret (special name).
Proof.
  unfold is_special, special. rewrite !path_eqb_spec. cbn [obind].
  change (spec_elements dot_path) with [dot_path]. change (spec_elements dot_dot_path) with [dot_dot_path].
  by destruct (bool_decide _).
Qed.

Lemma special_clean name : clean name -> name <> [] -> special name = bool_decide (name = dot_path) || bool_decide (name = dot_dot_path).
Proof.
  intros Hc Hne. unfold special. pose proof (spec_short [] name) as Hs. cbn [app length] in Hs.
  rewrite Hs, decide_False by (done || constructor). f_equal; apply bool_decide_ext; split; congruence.
Qed.

Lemma stem_of s name : filename s = Ret name -> special name = false ->
  stem s = Ret (match rfind_dot name with None => name | Some pos => take pos name end) /\
  extension s = Ret (match rfind_dot name with None => [] | Some pos => c_str (drop pos name) end).
Proof.
  intros Hn Hs. unfold stem, extension. rewrite Hn. cbn [obind]. rewrite is_special_spec, Hs. done.
Qed.

Lemma stem_extension_spec s : exists name st ext,
  filename s = Ret name /\ stem s = Ret st /\ extension s = Ret ext /\ name = st ++ ext /\
  (ext = [] \/ exists t, ext = dot :: t /\ dot ∉ t).
Proof.
  destruct (filename_total s) as (name & Hname & Hnul). destruct (special name) eqn:Es.
  - exists name, name, []. unfold stem, extension. rewrite Hname. cbn [obind]. rewrite is_special_spec, Es. cbn [obind].
    rewrite app_nil_r. auto 6.
  - destruct (stem_of s name Hname Es) as [Hst Hext]. destruct (rfind_dot name) as [p|] eqn:Ep.
    + destruct (rfind_dot_some _ _ Ep) as (t & Ht & Hdot).
      exists name, (take p name), (drop p name). rewrite Hst, Hext, c_str_id, take_drop.
      * split_and!; try done. right. by exists t.
      * intros Hin. apply Hnul. rewrite <- (take_drop p name). set_solver.
    + exists name, name, []. rewrite app_nil_r. auto 6.
Qed.

(** A last name that is not special is the end of the text. *)
Lemma plain_filename s name :
  0%Z ∉ s -> filename s = Ret name -> clean name -> name <> [] -> name <> dot_path ->
  exists x l, s = x ++ l ++ name /\ ends_in_separator x = false /\ seps l /\ (l = [] -> x = []) /\
    bool_decide (x = []) && (length l =? 2) = false.
Proof.
  intros Hnul Hname Hc Hne Hdot. destruct (right_split s) as (x & l & e & -> & Hx & Hl & He & Hnil).
  destruct (decide (e = [])) as [->|Hee].
  - exfalso. rewrite app_nil_r in *. destruct (decide (l = [])) as [->|Hl0].
    { rewrite Hnil in Hname by done. by injection Hname as <-. }
    rewrite filename_trailing in Hname by done. injection Hname as <-.
    repeat case_match; try done; by inversion Hc.
  - rewrite filename_name in Hname by done. exists x, l.
    destruct (bool_decide (x = []) && (length l =? 2)); injection Hname as <-; [by inversion Hc|done].
Qed.

(** ** Cases of the test-suite *)

Example ex1 : elements (chars "/foo//bar/") = Ret (map chars ["/"; "foo"; "bar"; "."]).
Proof. reflexivity. Qed.
Example ex2 : map elements (map chars [""; "//"; "///"; "//net"; "//net/"; "//net//"; "//net//a"; "a///b"; "/."; "///x/"]) =
  map (fun l => Ret (map chars l)) [[]; ["//"]; ["/"]; ["//net"]; ["//net"; "/"]; ["//net"; "/"]; ["//net"; "/"; "a"]; ["a";"b"]; ["/"; "."]; ["/";"x";"."]].
Proof. reflexivity. Qed.
Example ex3 : map filename (map chars [""; "/"; "//"; "///"; "//net"; "//net/"; "a/"; "a/b.c"; "/."]) =
  map (fun l => Ret (chars l)) [""; "/"; "//"; "/"; "//net"; "/"; "."; "b.c"; "."].
Proof. reflexivity. Qed.
Example ex4 : map parent_path (map chars [""; "/"; "//"; "///"; "////"; "//net"; "//net/"; "a/"; "a///b.c"; "/."; "/a"; "///a"]) =
  map chars [""; ""; ""; ""; ""; ""; "//net"; "a"; "a"; "/"; "/"; "/"].
Proof. vm_compute. reflexivity. Qed.
Example ex5 : remove_filename (chars "////") = Fault OutOfRange.
Proof. reflexivity. Qed.
Example ex6 : map lexically_normal (map chars ["foo/.///bar/../"; "a/.."; "/a/../.."; "../a"; "a/../b"; "a/./b/."; "//net/../x"; "foo/../."; "/.."; "////../.."]) =
  map (fun l => Ret (chars l)) ["foo/."; "."; "/.."; "../a"; "b"; "a/b/."; "//net/../x"; "./."; "/.."; "/../.."].
Proof. vm_compute. reflexivity. Qed.
Example ex7 : lexically_relative (chars "/a/d") (chars "/a/b/c") = Ret (chars "../../d").
Proof. reflexivity. Qed.

(** ** lexically_normal *)

Lemma removable_not_seps temp lf :
  filename temp = Ret lf -> removable lf = true -> ~ (seps temp /\ 3 < length temp).
Proof.
  intros Hf Hr [Hs Hl]. pose proof (filename_trailing [] temp eq_refl Hs) as H. cbn [app] in H.
  rewrite H in Hf.
  - rewrite decide_True, (proj2 (Nat.eqb_neq _ _)) in Hf by (done || lia). by injection Hf as <-.
  - intros ->. simpl in Hl. lia.
  - intros Hz. unfold seps in Hs. rewrite Forall_forall in Hs. by apply Hs in Hz.
Qed.

Lemma normal_step_total s last it next temp :
  increment s it = Ret next -> exists temp', normal_step s last it temp = Ret temp'.
Proof.
  intros Hinc. unfold normal_step. destruct (_ && _ && _ && _); [by eexists|].
  assert (exists lf, (if negb (length temp =? 0) && (length (m_element it) =? 2) && (char_at (m_element it) 0 =? dot)%Z
     && (char_at (m_element it) 1 =? dot)%Z then filename temp else Ret []) = Ret lf /\
     (removable lf = true -> filename temp = Ret lf)) as (lf & -> & Hlf).
  { destruct (_ && _ && _ && _); [|by exists []].
    destruct (filename_total temp) as (lf & -> & _). by exists lf. }
  cbn [obind]. destruct (removable lf) eqn:Er; [|by eexists].
  rewrite remove_filename_spec, decide_False by (by eapply removable_not_seps; [apply Hlf|]). cbn [obind].
  destruct (length (parent_path temp) =? 0); [|by eexists]. rewrite Hinc. cbn [obind].
  destruct (_ && _); [|by eexists]. rewrite path_eqb_spec. cbn [obind]. by eexists.
Qed.

Lemma normal_loop_total fuel f s last it temp l :
  elements_from f s it = Ret l -> length l <= fuel -> exists r, normal_loop fuel s last it temp = Ret r.
Proof.
  revert f it temp l. induction fuel as [|fuel IH]; intros f it temp l Hl Hlen;
    destruct f as [|f]; cbn [elements_from normal_loop] in *; destruct (iter_eqb it (end_ s)); try done; try by eexists.
  - apply obind_ret_inv in Hl as (n & _ & Hl). apply obind_ret_inv in Hl as (r & _ & [= <-]). simpl in Hlen. lia.
  - apply obind_ret_inv in Hl as (n & Hn & Hl). apply obind_ret_inv in Hl as (r & Hr & [= <-]).
    destruct (normal_step_total s last it n temp Hn) as (temp' & ->). rewrite Hn. cbn [obind].
    eapply IH; [done|]. simpl in Hlen. lia.
Qed.

Lemma decrement_end s : s <> [] -> exists it, decrement s (end_ s) = Ret it.
Proof.
  intros Hne. unfold decrement. cbn [end_ m_pos]. rewrite (proj2 (Nat.eqb_neq (length s) 0)) by (by destruct s).
  cbn [negb]. destruct (_ && _ && _) eqn:E; [|by eexists].
  rewrite !andb_true_iff in E. destruct E as [[_ _] Hs]. destruct (is_root_total s (length s - 1) Hne Hs) as (b & ->).
  cbn [obind]. destruct (negb b); by eexists.
Qed.

(** ** Properties *)

(** C40. Iteration refines the reference: from [begin()] to [end()], for every path text, the
    iterator passes exactly the elements of the reference definition (root name, root
    directory, maximal runs without separators, and "." for a trailing separator), reaches
    [end()] within as many increments as the path has characters, and no assertion of the
    iteration fails. *)
Theorem iteration_refines s :
  elements s = Ret (spec_elements s) /\ length (spec_elements s) <= length s.
Proof.
  pose proof (elements_spec s) as H. split; [done|]. by eapply elements_from_length.
Qed.

(** [compare] is a total order on element lists: it never fails, is 0 exactly for paths
    with the same elements (so "a//b" equals "a/b"), changes sign when its arguments are
    exchanged, and is transitive. *)
Theorem compare_total_order a b c :
  exists ab bc ac, compare a b = Ret ab /\ compare b c = Ret bc /\ compare a c = Ret ac /\
    compare b a = Ret (- ab)%Z /\
    (ab = 0%Z <-> spec_elements a = spec_elements b) /\
    (ab < 0 -> bc < 0 -> ac < 0)%Z.
Proof.
  rewrite !compare_spec. do 3 eexists. split_and!; try done.
  - by rewrite spec_compare_opp.
  - apply spec_compare_eq.
  - apply spec_compare_trans.
Qed.

(** [filename] and [parent_path] split a path: for a text without NUL, [filename] is the
    last element (empty for the empty path) and the elements of [parent_path] are all the
    others.  The one exception is a network name followed by several separators
    ("//net//"), whose parent has the same elements as the path itself. *)
Theorem filename_parent_split s :
  (0%Z ∉ s) ->
  filename s = Ret (default [] (last (spec_elements s))) /\
  (elements (parent_path s) = Ret (removelast (spec_elements s)) \/
   (net_root_run s /\ elements (parent_path s) = elements s)).
Proof.
  intros Hnul. split; [by apply filename_spec|]. rewrite !elements_spec.
  destruct (parent_path_spec s) as [->|[Hrun ->]]; auto.
Qed.

Lemma filename_parent_split_witness :
  filename (chars "/usr//lib/") = Ret (chars ".") /\
  (elements (parent_path (chars "/usr//lib/")) = Ret (map chars ["/"; "usr"; "lib"]) \/
   (net_root_run (chars "/usr//lib/") /\ elements (parent_path (chars "/usr//lib/")) = elements (chars "/usr//lib/"))).
Proof.
  refine (filename_parent_split (chars "/usr//lib/") _). refine (bool_decide_unpack _ _). vm_compute. exact I.
Defined.

(** [remove_filename] leaves the parent path, except for a path of four or more
    separators and nothing else, for which it throws [std::out_of_range] ([m_parent_path_end]
    returns [npos] to [erase]). *)
Theorem remove_filename_or_throw s :
  remove_filename s = if decide (seps s /\ 3 < length s) then Fault OutOfRange else Ret (parent_path s).
Proof. apply remove_filename_spec. Qed.

(** [stem] and [extension] split the file name: their concatenation is [filename], the
    extension is empty or starts with the last dot of the name, and none of the three can
    fail. *)
Theorem stem_extension_split s : exists name st ext,
  filename s = Ret name /\ stem s = Ret st /\ extension s = Ret ext /\ name = st ++ ext /\
  (ext = [] \/ exists t, ext = dot :: t /\ dot ∉ t).
Proof. apply stem_extension_spec. Qed.

(** What [replace_extension] leaves of the text: everything up to the stem. *)
Lemma replace_extension_text pre st ext t with_dot :
  extension (pre ++ st ++ ext) = Ret ext -> t <> [] -> (dot ∉ t) ->
  replace_extension (pre ++ st ++ ext) (if with_dot : bool then dot :: t else t) = Ret (pre ++ st ++ dot :: t).
Proof.
  intros Hext Ht Htd. unfold replace_extension. rewrite Hext. cbn [obind erase_from].
  rewrite (proj2 (Nat.leb_le _ _)) by (rewrite !length_app; lia). cbn [obind].
  assert (take (length (pre ++ st ++ ext) - length ext) (pre ++ st ++ ext) = pre ++ st) as ->.
  { rewrite app_assoc, take_app_length'; [done|]. rewrite (length_app _ ext). lia. }
  destruct t as [|c t]; [done|]. destruct with_dot; cbn [length Nat.eqb negb].
  - cbn. by rewrite <- !app_assoc.
  - assert ((char_at (c :: t) 0 =? dot)%Z = false) as ->
      by (apply Z.eqb_neq; intros E; apply Htd; rewrite <- E; by left).
    cbn [negb]. by rewrite <- !app_assoc.
Qed.

(** Two paths that differ in an ordinary last name have the same parent. *)
Lemma parent_path_same x l e1 e2 :
  ends_in_separator x = false -> seps l -> (l = [] -> x = []) ->
  clean e1 -> e1 <> [] -> clean e2 -> e2 <> [] ->
  parent_path (x ++ l ++ e1) = parent_path (x ++ l ++ e2).
Proof.
  intros Hx Hl Hnil Hc1 Hn1 Hc2 Hn2. destruct (decide (x = [])) as [->|Hxne].
  - unfold parent_path. cbn [app]. rewrite !parent_end_short by done.
    rewrite !bool_decide_false by done. destruct l as [|c l]; [done|].
    destruct (_ || _); [done|]. unfold substr. by rewrite !drop_0.
  - assert (l <> []) as Hlne by (intros E; by apply Hxne, Hnil).
    rewrite !parent_path_inner by done. by rewrite !bool_decide_false by done.
Qed.

Lemma special_dotted st t :
  clean (st ++ dot :: t) -> t <> [] -> (dot ∉ t) -> special (st ++ dot :: t) = false.
Proof.
  intros Hc Ht Htd. rewrite special_clean by (done || by destruct st). destruct t as [|c t]; [done|].
  rewrite !bool_decide_false; [done| |]; intros E; pose proof (f_equal length E) as Hlen;
    rewrite length_app in Hlen; simpl in Hlen; [|lia].
  destruct st; [|simpl in *; lia]. injection E as -> _. by apply Htd; left.
Qed.

(** [replace_extension] on a path whose file name is an ordinary name: with a new
    extension without further dots and separators, given with or without its dot, the new
    path has that extension, the same stem and the same parent. *)
Theorem replace_extension_correct s name st t with_dot :
  (0%Z ∉ s) -> filename s = Ret name -> clean name -> name <> [] -> name <> dot_path -> name <> dot_dot_path ->
  stem s = Ret st -> t <> [] -> clean t -> (0%Z ∉ t) -> (dot ∉ t) ->
  exists s', replace_extension s (if with_dot : bool then dot :: t else t) = Ret s' /\
    filename s' = Ret (st ++ dot :: t) /\ stem s' = Ret st /\ extension s' = Ret (dot :: t) /\
    parent_path s' = parent_path s.
Proof.
  intros Hnul Hname Hc Hne Hd Hdd Hst Ht Htc Htn Htd.
  destruct (plain_filename s name Hnul Hname Hc Hne Hd) as (x & l & -> & Hx & Hl & Hnil & Hnet).
  destruct (stem_extension_spec (x ++ l ++ name)) as (name' & st' & ext & E1 & E2 & E3 & -> & _).
  rewrite Hname in E1. rewrite Hst in E2. injection E1 as ->. injection E2 as <-.
  set (nm := st ++ dot :: t). exists (x ++ l ++ nm).
  assert (clean nm) as Hcn.
  { apply Forall_app in Hc as [Hc1 _]. apply Forall_app. split; [done|]. by constructor. }
  assert (0%Z ∉ x ++ l ++ nm) as Hnul'.
  { unfold nm. rewrite !not_elem_of_app, not_elem_of_cons in *. split_and!; try tauto. done. }
  assert (nm <> []) as Hnmne by (unfold nm; destruct st; done).
  assert (filename (x ++ l ++ nm) = Ret nm) as Hf by (rewrite filename_name by done; by rewrite Hnet).
  destruct (stem_of _ _ Hf (special_dotted _ _ Hcn Ht Htd)) as [Hst2 Hext2]. unfold nm in Hst2, Hext2.
  rewrite rfind_dot_snoc, take_app_length in Hst2 by done.
  rewrite rfind_dot_snoc, drop_app_length, c_str_id in Hext2
    by (done || (rewrite not_elem_of_cons; by split)).
  split_and!; [|done|done|done|by apply parent_path_same].
  rewrite !app_assoc in E3 |- *. rewrite <- app_assoc in E3 |- *.
  rewrite replace_extension_text by done. unfold nm. by rewrite <- app_assoc.
Qed.

(** [lexically_normal] always returns a path: no assertion fails, [remove_filename] does
    not throw, the loop ends with the iteration, and the result is empty only for the empty
    path. *)
Theorem lexically_normal_total s :
  exists r, lexically_normal s = Ret r /\ (r = [] <-> s = []).
Proof.
  destruct s as [|c s]; [by exists []|]. set (p := c :: s). unfold lexically_normal.
  change (length p =? 0) with false. destruct (decrement_end p) as (last & ->); [done|]. cbn [obind].
  destruct (normal_loop_total (length p) (length p) p last (begin_ p) [] (spec_elements p)) as (r & ->).
  - apply elements_spec.
  - eapply elements_from_length, elements_spec.
  - cbn [obind]. eexists. split; [done|]. split; [|done].
    destruct r; [done|]. done.
Qed.

Lemma replace_extension_correct_witness :
  exists s', replace_extension (chars "dir/archive.tar") (chars "gz") = Ret s' /\
    filename s' = Ret (chars "archive.gz") /\ stem s' = Ret (chars "archive") /\
    extension s' = Ret (chars ".gz") /\ parent_path s' = parent_path (chars "dir/archive.tar").
Proof.
  refine (replace_extension_correct (chars "dir/archive.tar") (chars "archive.tar") (chars "archive") (chars "gz") false
    _ _ _ _ _ _ _ _ _ _ _); try reflexivity; try discriminate; refine (bool_decide_unpack _ _); vm_compute; exact I.
Defined.


End Path.
