(* ===== verification/Quoted.v ===== *)
(** * Quoted text on streams

    [source/io/fs/path_impl/QuotedManip.h]: the manipulator [quoted] with its inserters and its
    extractor, and [ios_flags_saver].  A character is a [Z].  The streams are those of the
    standard library as far as the code uses them: formatted input of a character and of a string,
    [unget], the state bits, the [skipws] flag and the field width; formatted output of a
    character with its padding. *)

From S2P Require Import Prelude.
Local Open Scope outcome_scope.
Local Open Scope record_scope.

Module Quoted.

(** ** Streams *)

Record fmtflags := mkFlags { skipws : bool; adjust_left : bool }.

Record istream := mkIstream {
  behind : list Z;        (* the characters taken, the last one first *)
  ahead : list Z;         (* the characters still to come *)
  eofbit : bool; failbit : bool; badbit : bool;
  flags : fmtflags;
  width : nat }.

#[export] Instance istream_settable : Settable istream :=
  settable! mkIstream <behind; ahead; eofbit; failbit; badbit; flags; width>.

Record ostream := mkOstream { written : list Z; o_flags : fmtflags; o_width : nat; fill : Z }.

#[export] Instance ostream_settable : Settable ostream := settable! mkOstream <written; o_flags; o_width; fill>.

Definition good (is_ : istream) : bool := negb (eofbit is_) && negb (failbit is_) && negb (badbit is_).

(** [os << c]: the character is padded to the field width, which is then reset. *)
Definition put_char (os : ostream) (c : Z) : ostream :=
  let pad := replicate (o_width os - 1) (fill os) in
  os <| written ::= fun w => w ++ (if adjust_left (o_flags os) then c :: pad else pad ++ [c]) |> <| o_width := 0%nat |>.

Section Streams.

(** [std::isspace] of the stream's locale. *)
Context (isspace : Z -> bool).

(** The whitespace in front, last one first, and what follows it. *)
Fixpoint skip_space (acc s : list Z) : list Z * list Z :=
  match s with
  | c :: s' => if isspace c then skip_space (c :: acc) s' else (acc, s)
  | [] => (acc, [])
  end.

(** The sentry of formatted input: whether reading may go on. *)
Definition sentry (is_ : istream) : istream * bool :=
  if good is_ then
    if skipws (flags is_) then
      let '(behind', ahead') := skip_space (behind is_) (ahead is_) in
      let is_ := is_ <| behind := behind' |> <| ahead := ahead' |> in
      match ahead' with
      | [] => (is_ <| eofbit := true |> <| failbit := true |>, false)
      | _ :: _ => (is_, true)
      end
    else (is_, true)
  else (is_ <| failbit := true |>, false).

(** [is >> c] of a character; [c] keeps its value when nothing could be read. *)
Definition get_char (is_ : istream) (c : option Z) : istream * option Z :=
  let '(is_, ok) := sentry is_ in
  if ok then
    match ahead is_ with
    | x :: rest => (is_ <| behind ::= cons x |> <| ahead := rest |>, Some x)
    | [] => (is_ <| eofbit := true |> <| failbit := true |>, c)
    end
  else (is_, c).

(** [is.unget()]. *)
Definition unget (is_ : istream) : istream :=
  let is_ := is_ <| eofbit := false |> in
  if good is_ then
    match behind is_ with
    | x :: before => is_ <| behind := before |> <| ahead ::= cons x |>
    | [] => is_ <| badbit := true |>
    end
  else is_ <| failbit := true |>.

(** The characters of a word: up to whitespace, the end, or the limit. *)
Fixpoint take_word (limit : option nat) (s : list Z) : list Z :=
  match limit, s with
  | Some O, _ => []
  | _, [] => []
  | _, c :: s' => if isspace c then [] else c :: take_word (pred <$> limit) s'
  end.

(** [is >> string], for a string that is empty. *)
Definition get_string (is_ : istream) : istream * list Z :=
  let '(is_, ok) := sentry is_ in
  if ok then
    let limit := if decide (width is_ = 0%nat) then None else Some (width is_) in
    let word := take_word limit (ahead is_) in
    let rest := drop (length word) (ahead is_) in
    let at_end := bool_decide (rest = []) && negb (bool_decide (limit = Some (length word))) in
    (is_ <| behind := rev word ++ behind is_ |> <| ahead := rest |> <| width := 0%nat |>
         <| eofbit := at_end |> <| failbit := bool_decide (word = []) |>, word)
  else (is_, []).

(** ** ios_flags_saver *)

Definition flags_saver (is_ : istream) : fmtflags := flags is_.
Definition restore (saved : fmtflags) (is_ : istream) : istream := is_ <| flags := saved |>.

(** [is >> std::noskipws]. *)
Definition noskipws (is_ : istream) : istream :=
  is_ <| flags := mkFlags false (adjust_left (flags is_)) |>.

(** ** The manipulator *)

Record quoted_proxy := mkProxy { string : list Z; escape : Z; delim : Z }.

(** [quoted]; the escape character and the delimiter default to a backslash and a quotation mark. *)
Definition quoted (s : list Z) (escape delim : Z) : quoted_proxy := mkProxy s escape delim.

Definition needs_escape (p : quoted_proxy) (c : Z) : bool := (c =? delim p) || (c =? escape p).

Definition insert_char (p : quoted_proxy) (os : ostream) (c : Z) : ostream :=
  put_char (if needs_escape p c then put_char os (escape p) else os) c.

(** [basic_string_inserter_imp]. *)
Definition basic_string_inserter_imp (os : ostream) (p : quoted_proxy) : ostream :=
  let os := put_char os (delim p) in
  let os := fold_left (insert_char p) (string p) os in
  put_char os (delim p).

(** The inserter of C strings: [for (it = string; *it; ++it)]. *)
Fixpoint insert_c_str (p : quoted_proxy) (os : ostream) (it : list Z) : outcome ostream :=
  match it with
  | [] => Fault OutOfBounds
  | c :: it => if c =? 0 then Ret os else insert_c_str p (insert_char p os c) it
  end.

Definition c_string_inserter (os : ostream) (p : quoted_proxy) : outcome ostream :=
  let os := put_char os (delim p) in
  let* os := insert_c_str p os (string p) in
  Ret (put_char os (delim p)).

(** The loop of the extractor.  Every iteration takes a character or leaves. *)
Fixpoint extract_loop (fuel : nat) (p : quoted_proxy) (is_ : istream) (c : option Z) (str : list Z)
    : outcome (istream * list Z) :=
  match fuel with
  | O => Fault FuelExhausted
  | S fuel =>
      let '(is_, c) := get_char is_ c in
      if negb (good is_) then Ret (is_, str)
      else match c with
      | None => Fault Uninitialised
      | Some x =>
          if x =? escape p then
            let '(is_, c) := get_char is_ c in
            if negb (good is_) then Ret (is_, str)
            else match c with
            | None => Fault Uninitialised
            | Some x => extract_loop fuel p is_ c (str ++ [x])
            end
          else if x =? delim p then Ret (is_, str)
          else extract_loop fuel p is_ c (str ++ [x])
      end
  end.

(** [operator>>] for a proxy; the local [c] starts without a value, and comparing it then is
    undefined behaviour. *)
Definition extract (is_ : istream) (p : quoted_proxy) : outcome (istream * list Z) :=
  let '(is_, c) := get_char is_ None in
  match c with
  | None => Fault Uninitialised
  | Some x =>
      if negb (x =? delim p) then Ret (get_string (unget is_))
      else
        let ifs := flags_saver is_ in
        let is_ := noskipws is_ in
        let* (is_, str) := extract_loop (S (length (ahead is_))) p is_ c [] in
        Ret (restore ifs is_, str)
  end.

End Streams.

(** ** What the extractor is to do

    The text between delimiters: its characters without the escapes, how many characters of the
    input it takes (the closing delimiter included), and whether it was closed. *)
Fixpoint unquote (escape delim : Z) (s : list Z) : list Z * nat * bool :=
  match s with
  | [] => ([], 0%nat, false)
  | c :: s' =>
      if c =? escape then
        match s' with
        | [] => ([], 1%nat, false)
        | x :: s'' => let '(t, k, closed) := unquote escape delim s'' in (x :: t, S (S k), closed)
        end
      else if c =? delim then ([], 1%nat, true)
      else let '(t, k, closed) := unquote escape delim s' in (c :: t, S k, closed)
  end.

(** The text with its escapes. *)
Definition escaped (escape delim : Z) (s : list Z) : list Z :=
  flat_map (fun c => if (c =? delim) || (c =? escape) then [escape; c] else [c]) s.

Lemma unquote_escaped escape delim s rest : escape <> delim ->
  unquote escape delim (escaped escape delim s ++ delim :: rest) =
    (s, S (length (escaped escape delim s)), true).
Proof.
  intros Hne. induction s as [|c s IH]; cbn [escaped flat_map app].
  - cbn. by rewrite (proj2 (Z.eqb_neq delim escape)), Z.eqb_refl by done.
  - unfold escaped in IH. destruct (Z.eqb_spec c delim) as [->|Hd]; cbn.
    { rewrite Z.eqb_refl. by rewrite IH. }
    destruct (Z.eqb_spec c escape) as [->|He]; cbn.
    { rewrite Z.eqb_refl. by rewrite IH. }
    rewrite (proj2 (Z.eqb_neq c escape)), (proj2 (Z.eqb_neq c delim)) by done. by rewrite IH.
Qed.

(** ** Moving along a stream *)

Definition advance (k : nat) (is_ : istream) : istream :=
  is_ <| behind := rev (take k (ahead is_)) ++ behind is_ |> <| ahead := drop k (ahead is_) |>.

Definition at_eof (is_ : istream) : istream := is_ <| eofbit := true |> <| failbit := true |>.

Lemma take_plus (l : list Z) k j : take (k + j) l = take k l ++ take j (drop k l).
Proof. revert k. induction l as [|x l IH]; intros [|k]; cbn; rewrite ?take_nil; [done|done|done|]. by rewrite IH. Qed.

Lemma advance_advance j k is_ : advance j (advance k is_) = advance (k + j) is_.
Proof.
  destruct is_. unfold advance. cbn. f_equal.
  - by rewrite take_plus, rev_app_distr, app_assoc.
  - apply drop_drop.
Qed.

Lemma advance_good k is_ : good (advance k is_) = good is_.
Proof. done. Qed.

Lemma at_eof_good is_ : good (at_eof is_) = false.
Proof. unfold good. cbn. done. Qed.

Section Extraction.
Context (isspace : Z -> bool).

Lemma get_char_next is_ c : good is_ = true -> skipws (flags is_) = false ->
  get_char isspace is_ c =
    match ahead is_ with
    | x :: _ => (advance 1 is_, Some x)
    | [] => (at_eof is_, c)
    end.
Proof.
  intros Hg Hs. unfold get_char, sentry. rewrite Hg, Hs. destruct is_ as [b [|x a] e f d fl w]; done.
Qed.

Lemma extract_loop_spec p fuel is_ c str :
  good is_ = true -> skipws (flags is_) = false -> (length (ahead is_) < fuel)%nat ->
  extract_loop isspace fuel p is_ c str =
    let '(t, k, closed) := unquote (escape p) (delim p) (ahead is_) in
    Ret ((if closed then advance k is_ else at_eof (advance k is_)), str ++ t).
Proof.
  revert is_ c str. induction fuel as [|fuel IH]; intros is_ c str Hg Hs Hf; [lia|].
  cbn [extract_loop]. rewrite get_char_next by done.
  destruct (ahead is_) as [|x a] eqn:Ea.
  { rewrite at_eof_good. cbn. rewrite app_nil_r. by destruct is_; cbn in *; subst. }
  rewrite advance_good, Hg. cbn [negb unquote].
  assert (forall k, ahead (advance k is_) = drop k (x :: a)) as Ha by (by intros k; rewrite <- Ea).
  destruct (x =? escape p).
  - rewrite get_char_next by (rewrite ?advance_good; done). rewrite Ha, skipn_cons, drop_0.
    destruct a as [|y a]; [by rewrite at_eof_good; cbn; rewrite app_nil_r|].
    rewrite !advance_good, Hg. cbn [negb]. rewrite IH; [|done|done|rewrite advance_advance, Ha; cbn [Nat.add]; rewrite !skipn_cons, drop_0; cbn in Hf; lia].
    rewrite !advance_advance, Ha. cbn [Nat.add]. rewrite !skipn_cons, drop_0.
    destruct (unquote _ _ a) as [[t k] cl]. rewrite !advance_advance. by rewrite <- app_assoc.
  - destruct (x =? delim p); [by rewrite app_nil_r|].
    rewrite IH; [|done|done|rewrite Ha, skipn_cons, drop_0; cbn in Hf; lia].
    rewrite Ha, skipn_cons, drop_0. destruct (unquote _ _ a) as [[t k] cl]. rewrite !advance_advance. by rewrite <- app_assoc.
Qed.

(** The whitespace that [is >> ...] passes over, given the flag. *)
Definition leading (is_ : istream) (sp a : list Z) : Prop :=
  ahead is_ = sp ++ a /\
  if skipws (flags is_)
  then Forall (fun c => isspace c = true) sp /\ match a with [] => True | x :: _ => isspace x = false end
  else sp = [].

Lemma skip_space_app acc sp a :
  Forall (fun c => isspace c = true) sp -> match a with [] => True | x :: _ => isspace x = false end ->
  skip_space isspace acc (sp ++ a) = (rev sp ++ acc, a).
Proof.
  intros Hsp Ha. revert acc. induction Hsp as [|c sp Hc _ IH]; intros acc; cbn.
  - destruct a as [|x a]; [done|]. cbn. by rewrite Ha.
  - rewrite Hc, IH. by rewrite <- app_assoc.
Qed.

Lemma sentry_leading is_ sp x a : good is_ = true -> leading is_ sp (x :: a) ->
  sentry isspace is_ = (advance (length sp) is_, true).
Proof.
  intros Hg [Ha Hl]. unfold sentry, advance. rewrite Hg, Ha. rewrite take_app_length, drop_app_length.
  destruct (skipws (flags is_)).
  - destruct Hl as [Hsp Hx]. by rewrite skip_space_app.
  - subst sp. cbn in *. destruct is_; cbn in *. by subst.
Qed.

Lemma sentry_blank is_ sp : good is_ = true -> leading is_ sp [] -> skipws (flags is_) = true ->
  sentry isspace is_ = (at_eof (advance (length sp) is_), false).
Proof.
  intros Hg [Ha Hl] Hs. unfold sentry, advance, at_eof. rewrite Hg, Ha, Hs in *.
  rewrite take_app_length, drop_app_length. destruct Hl as [Hsp Hx]. by rewrite skip_space_app.
Qed.

Lemma ahead_advance is_ sp a : ahead is_ = sp ++ a -> ahead (advance (length sp) is_) = a.
Proof. intros Ha. cbn. by rewrite Ha, drop_app_length. Qed.

Lemma get_char_leading is_ c sp x a : good is_ = true -> leading is_ sp (x :: a) ->
  get_char isspace is_ c = (advance (S (length sp)) is_, Some x).
Proof.
  intros Hg Hl. unfold get_char. rewrite (sentry_leading _ _ _ _ Hg Hl).
  rewrite (ahead_advance _ _ _ (proj1 Hl)). f_equal.
  rewrite <- Nat.add_1_r, <- advance_advance. unfold advance at 2.
  by rewrite (ahead_advance _ _ _ (proj1 Hl)).
Qed.

Lemma get_char_blank is_ c sp : good is_ = true -> leading is_ sp [] ->
  get_char isspace is_ c = (at_eof (advance (length sp) is_), c).
Proof.
  intros Hg Hl. destruct (skipws (flags is_)) eqn:Hs.
  - unfold get_char. by rewrite (sentry_blank _ _ Hg Hl Hs).
  - rewrite get_char_next by done. destruct Hl as [Ha Hl]. rewrite Hs in Hl. subst sp.
    rewrite Ha. cbn. by destruct is_; cbn in *; subst.
Qed.

(** A quotation that begins with the delimiter. *)
Lemma extract_delimited p is_ sp a : good is_ = true -> leading is_ sp (delim p :: a) ->
  extract isspace is_ p =
    let '(t, k, closed) := unquote (escape p) (delim p) a in
    let is_ := advance (S (length sp) + k) is_ in
    Ret (if closed then is_ else at_eof is_, t).
Proof.
  intros Hg Hl. unfold extract. rewrite (get_char_leading _ _ _ _ _ Hg Hl), Z.eqb_refl. cbn [negb].
  assert (ahead (advance (S (length sp)) is_) = a) as Ha.
  { rewrite <- Nat.add_1_r, <- advance_advance. cbn. by rewrite (proj1 Hl), drop_app_length. }
  rewrite extract_loop_spec; [|done|done|lia]. change (ahead (noskipws ?i)) with (ahead i). rewrite Ha.
  destruct (unquote _ _ a) as [[t k] cl]. cbn [obind]. unfold restore, flags_saver. rewrite <- advance_advance.
  destruct is_, cl; reflexivity.
Qed.

(** Anything else is a word. *)
Lemma unget_advance is_ k x : good is_ = true -> ahead is_ !! k = Some x ->
  unget (advance (S k) is_) = advance k is_.
Proof.
  intros Hg Hx. destruct is_ as [b a e f d fl w]. unfold good in Hg. cbn in *.
  destruct e, f, d; try done. unfold unget, advance. cbn.
  rewrite (take_S_r _ _ _ Hx), rev_app_distr. cbn. f_equal. by rewrite (drop_S _ _ _ Hx).
Qed.

Lemma take_word_prefix limit s : take (length (take_word isspace limit s)) s = take_word isspace limit s.
Proof.
  revert limit. induction s as [|c s IH]; intros [[|n]|]; cbn; try done; (destruct (isspace c); [done|]); cbn;
    f_equal; apply IH.
Qed.

Lemma get_string_word is_ sp x a : good is_ = true -> leading is_ sp (x :: a) -> isspace x = false ->
  width is_ = 0%nat ->
  let word := take_word isspace None (x :: a) in
  get_string isspace is_ =
    ((advance (length sp + length word) is_) <| eofbit := bool_decide (drop (length word) (x :: a) = []) |>, word).
Proof.
  intros Hg Hl Hx Hw word. unfold get_string. rewrite (sentry_leading _ _ _ _ Hg Hl).
  change (width (advance (length sp) is_)) with (width is_). rewrite Hw. cbn [decide decide_rel].
  rewrite decide_True by done. rewrite (ahead_advance _ _ _ (proj1 Hl)). fold word.
  rewrite (bool_decide_eq_false_2 (None = _)) by done. cbn [negb]. rewrite andb_true_r.
  rewrite <- advance_advance. unfold advance at 3. rewrite (ahead_advance _ _ _ (proj1 Hl)).
  replace (take (length word) (x :: a)) with word by (symmetry; apply take_word_prefix).
  rewrite (bool_decide_eq_false_2 (word = [])) by (unfold word; cbn; by rewrite Hx).
  destruct is_ as [b a' e f d fl w]. unfold good in Hg. cbn in Hw, Hg. destruct e, f, d; try done. by rewrite Hw.
Qed.

Lemma extract_word p is_ sp x a : good is_ = true -> leading is_ sp (x :: a) -> x <> delim p ->
  extract isspace is_ p = Ret (get_string isspace (advance (length sp) is_)).
Proof.
  intros Hg Hl Hx. unfold extract. rewrite (get_char_leading _ _ _ _ _ Hg Hl), (proj2 (Z.eqb_neq _ _) Hx). cbn [negb].
  rewrite (unget_advance is_ (length sp) x); [done|done|]. rewrite (proj1 Hl).
  by rewrite lookup_app_r, Nat.sub_diag by lia.
Qed.

(** ** Inserting *)

(** The opening delimiter takes the whole padding. *)
Definition opening (os : ostream) (delim : Z) : list Z :=
  let pad := replicate (o_width os - 1) (fill os) in
  if adjust_left (o_flags os) then delim :: pad else pad ++ [delim].

Lemma put_char_plain os c : o_width os = 0%nat -> put_char os c = os <| written ::= fun w => w ++ [c] |>.
Proof. destruct os as [w [sk l] wd f]. cbn. intros ->. unfold put_char. cbn. by destruct l. Qed.

Lemma insert_char_plain p os c : o_width os = 0%nat ->
  insert_char p os c = os <| written ::= fun w => w ++ (if needs_escape p c then [escape p; c] else [c]) |>.
Proof.
  intros Hw. unfold insert_char. destruct (needs_escape p c); rewrite !put_char_plain by done; [|done].
  destruct os. cbn. by rewrite <- app_assoc.
Qed.

Lemma insert_chars_plain p t os : o_width os = 0%nat ->
  fold_left (insert_char p) t os = os <| written ::= fun w => w ++ escaped (escape p) (delim p) t |>.
Proof.
  revert os. induction t as [|c t IH]; intros os Hw; cbn [fold_left].
  - destruct os. cbn. by rewrite app_nil_r.
  - rewrite insert_char_plain, IH by done. destruct os. cbn. by rewrite <- app_assoc.
Qed.

Lemma inserter_spec os p :
  basic_string_inserter_imp os p =
    os <| written ::= fun w => w ++ opening os (delim p) ++ escaped (escape p) (delim p) (string p) ++ [delim p] |>
       <| o_width := 0%nat |>.
Proof.
  unfold basic_string_inserter_imp. rewrite insert_chars_plain, put_char_plain by done.
  destruct os as [w [sk l] wd f]. unfold put_char, opening. cbn. by rewrite <- !app_assoc.
Qed.

Lemma inserter_plain os p : o_width os = 0%nat ->
  written (basic_string_inserter_imp os p) =
    written os ++ delim p :: escaped (escape p) (delim p) (string p) ++ [delim p].
Proof.
  intros Hw. rewrite inserter_spec. unfold opening. rewrite Hw. destruct os as [w [sk [|]] wd f]; done.
Qed.

Lemma insert_c_str_spec p t mem os : 0 ∉ t -> o_width os = 0%nat ->
  insert_c_str p os (t ++ 0 :: mem) = Ret (fold_left (insert_char p) t os).
Proof.
  revert os. induction t as [|c t IH]; intros os Ht Hw; [done|].
  apply not_elem_of_cons in Ht as [Hc Ht]. cbn [app insert_c_str fold_left].
  rewrite (proj2 (Z.eqb_neq c 0)) by done. apply IH; [done|]. by rewrite insert_char_plain.
Qed.

Lemma c_string_inserter_spec os t mem escape delim : 0 ∉ t ->
  c_string_inserter os (quoted (t ++ 0 :: mem) escape delim) =
    Ret (basic_string_inserter_imp os (quoted t escape delim)).
Proof.
  intros Ht. unfold c_string_inserter. change (string (quoted (t ++ 0 :: mem) escape delim)) with (t ++ 0 :: mem).
  by rewrite insert_c_str_spec.
Qed.

(** Reading back what the inserter wrote. *)
Lemma extract_inserted is_ s escape delim sp rest :
  let out := delim :: escaped escape delim s ++ [delim] in
  escape <> delim -> good is_ = true -> leading is_ sp (out ++ rest) ->
  forall t, exists is',
    extract isspace is_ (quoted t escape delim) = Ret (is', s) /\
    ahead is' = rest /\ good is' = true /\ flags is' = flags is_ /\ behind is' = rev (sp ++ out) ++ behind is_.
Proof.
  intros out Hne Hg Hl t. unfold out in *. clear out.
  set (e := escaped escape delim s) in *.
  assert (leading is_ sp (delim :: e ++ delim :: rest)) as Hl' by (revert Hl; cbn [app]; by rewrite <- app_assoc).
  rewrite (extract_delimited (quoted t escape delim) is_ sp _ Hg Hl').
  change (Quoted.escape (quoted t escape delim)) with escape. change (Quoted.delim (quoted t escape delim)) with delim.
  unfold e at 1. rewrite unquote_escaped by done. fold e. eexists. split; [done|]. destruct Hl' as [Ha _].
  assert (ahead is_ = (sp ++ delim :: e ++ [delim]) ++ rest) as Ha' by (rewrite Ha, <- app_assoc; cbn; by rewrite <- app_assoc).
  replace (S (length sp) + S (length e))%nat with (length (sp ++ delim :: e ++ [delim]))
    by (rewrite !length_app; cbn; rewrite length_app; cbn; lia).
  split_and!; [by apply ahead_advance|done|done|]. cbn. by rewrite Ha', take_app_length.
Qed.

(** ** Properties *)

(** Round trip: what the inserter writes for a string, wherever it stands in a stream (after
    whitespace when the stream skips it, and with anything behind it), is read back by the
    extractor as that string, whatever characters it has.  The extractor takes the quotation and
    no more, and leaves the state bits and the flags as they were. *)
Theorem quoted_roundtrip os is_ s escape delim sp rest out :
  escape <> delim -> o_width os = 0%nat ->
  written (basic_string_inserter_imp os (quoted s escape delim)) = written os ++ out ->
  good is_ = true -> leading is_ sp (out ++ rest) ->
  forall t, exists is',
    extract isspace is_ (quoted t escape delim) = Ret (is', s) /\
    ahead is' = rest /\ good is' = true /\ flags is' = flags is_ /\ behind is' = rev (sp ++ out) ++ behind is_.
Proof.
  intros Hne Hw Hout Hg Hl. rewrite inserter_plain in Hout by done. apply app_inv_head in Hout as <-.
  exact (extract_inserted is_ s escape delim sp rest Hne Hg Hl).
Qed.

(** C36. The extractor on every input of a good stream: nothing but whitespace leaves the local
    character without a value, which is then compared; a quotation is unescaped up to its closing delimiter,
    or up to the end of the stream, which then has [eofbit] and [failbit] set while the text read
    so far is kept; anything else is read as a word. *)
Theorem extract_cases is_ p sp a :
  good is_ = true -> leading is_ sp a ->
  extract isspace is_ p =
    match a with
    | [] => Fault Uninitialised
    | x :: a' =>
        if x =? delim p then
          let '(t, k, closed) := unquote (escape p) (delim p) a' in
          Ret (if closed then advance (length sp + S k) is_ else at_eof (advance (length sp + S k) is_), t)
        else Ret (get_string isspace (advance (length sp) is_))
    end.
Proof.
  intros Hg Hl. destruct a as [|x a].
  { unfold extract. by rewrite (get_char_blank _ _ _ Hg Hl). }
  destruct (Z.eqb_spec x (delim p)) as [->|Hx].
  - rewrite (extract_delimited _ _ _ _ Hg Hl). destruct (unquote _ _ a) as [[t k] cl].
    by replace (S (length sp) + k)%nat with (length sp + S k)%nat by lia.
  - by apply extract_word with x a.
Qed.

(** A word that is not quoted is read up to the next whitespace. *)
Lemma extract_unquoted is_ p sp x a :
  good is_ = true -> leading is_ sp (x :: a) -> isspace x = false -> x <> delim p -> width is_ = 0%nat ->
  let word := take_word isspace None (x :: a) in
  extract isspace is_ p =
    Ret ((advance (length sp + length word) is_) <| eofbit := bool_decide (drop (length word) (x :: a) = []) |>, word).
Proof.
  intros Hg Hl Hx Hd Hw word. rewrite (extract_word _ _ _ _ _ Hg Hl Hd). f_equal.
  rewrite (get_string_word (advance (length sp) is_) [] x a); [|done| |done|done].
  - cbn [length Nat.add]. rewrite advance_advance. done.
  - split; [apply ahead_advance, Hl|]. cbn. destruct Hl as [_ Hl]. destruct (skipws _); [|done]. by split.
Qed.

End Extraction.

(** ** On concrete streams *)

Definition c_isspace (c : Z) : bool := (c =? 32) || ((9 <=? c) && (c <=? 13)).
Definition mark : Z := 34.
Definition backslash : Z := 92.
Definition ampersand : Z := 38.

Definition istringstream (s : list Z) : istream := mkIstream [] s false false false (mkFlags true false) 0.
Definition ostringstream : ostream := mkOstream [] (mkFlags true false) 0 32.

Definition read (s : list Z) : outcome (list Z) :=
  let* (_, t) := extract c_isspace (istringstream s) (quoted [] ampersand mark) in Ret t.

Example read_examples :
  map read [chars "  a b"; mark :: chars "a b&" ++ mark :: chars "&&" ++ [mark; 65]; mark :: chars "open"; [mark; mark]] =
    [Ret (chars "a"); Ret (chars "a b" ++ mark :: chars "&"); Ret (chars "open"); Ret []].
Proof. reflexivity. Qed.

Example read_nothing : read [32; 32] = Fault Uninitialised.
Proof. reflexivity. Qed.

Lemma quoted_roundtrip_witness :
  exists is', extract c_isspace (istringstream (chars "  " ++ (mark :: chars "a &&b" ++ [ampersand; mark; mark]) ++ chars " rest"))
      (quoted [] ampersand mark) = Ret (is', chars "a &b" ++ [mark]) /\
    ahead is' = chars " rest" /\ good is' = true /\ flags is' = mkFlags true false /\
    behind is' = rev (chars "  " ++ mark :: chars "a &&b" ++ [ampersand; mark; mark]).
Proof.
  refine (quoted_roundtrip c_isspace ostringstream
    (istringstream (chars "  " ++ (mark :: chars "a &&b" ++ [ampersand; mark; mark]) ++ chars " rest"))
    (chars "a &b" ++ [mark]) ampersand mark (chars "  ") (chars " rest")
    (mark :: chars "a &&b" ++ [ampersand; mark; mark]) _ _ _ _ _ []); try reflexivity; [discriminate|].
  split; [reflexivity|]. cbn. split; [repeat constructor|reflexivity].
Defined.

Lemma extract_cases_witness :
  exists is', extract c_isspace (istringstream (32 :: mark :: chars "open")) (quoted [] ampersand mark) = Ret (is', chars "open") /\
    eofbit is' = true /\ failbit is' = true /\ ahead is' = [].
Proof.
  eexists. split.
  - refine (extract_cases c_isspace (istringstream (32 :: mark :: chars "open")) (quoted [] ampersand mark)
      [32] (mark :: chars "open") eq_refl _).
    split; [reflexivity|]. cbn. split; [repeat constructor|reflexivity].
  - split_and!; reflexivity.
Defined.

(** A field width is spent on the opening delimiter.  With the flag [left] the padding lands
    inside the quotation and is read back as part of the text. *)
Example left_width_breaks_roundtrip :
  let os := mkOstream [] (mkFlags true true) 4 32 in
  let out := written (basic_string_inserter_imp os (quoted (chars "ab") ampersand mark)) in
  out = mark :: chars "   ab" ++ [mark] /\ read out = Ret (chars "   ab").
Proof. split; reflexivity. Qed.

End Quoted.
