(* ===== verification/PathText.v ===== *)
(** * Path text

    [source/io/fs/path_impl/PathTraits.h] and [.cpp], the members of [source/io/fs/Path.h] that take
    text from sources of either character type or give it back (constructors, assignment, [concat],
    [append], [wstring], the stream operators), the path locale of [Path.cpp], and the hash of
    [HashRange.h] and [.cpp].

    The POSIX build: [m_pathname] is a string of [char], and only [wchar_t] text is converted.  A
    pointer is the memory from there on, or [None] for the null pointer.  The conversion facet is an
    argument, as it is in the code; [utf8_codecvt_facet] of [Utf8Codecvt] is one.  Whether [assert]
    is compiled in is an argument as well: what the code does to the text after a failed conversion
    shows only without it. *)

From S2P Require Import Prelude Utf8Codecvt Path Quoted.
Local Open Scope outcome_scope.

Module PathText.
Import Utf8.

Record codecvt_type := mkCodecvt {
  in_ : list Z -> nat -> codecvt_result * Z * list Z;
  out_ : list Z -> nat -> codecvt_result * Z * list Z }.

Definition utf8_codecvt_facet : codecvt_type := mkCodecvt do_in do_out.

#[export] Instance codecvt_result_eq_dec : EqDecision codecvt_result.
Proof. solve_decision. Defined.

Inductive char_type := Char | WChar.

#[export] Instance char_type_eq_dec : EqDecision char_type.
Proof. solve_decision. Defined.

Definition default_codecvt_buf_size : nat := 256.

Section Conversion.

(** Whether [assert] is compiled in. *)
Context (asserts : bool).

Definition assert_ (b : bool) : outcome unit := if asserts && negb b then Fault AssertFailed else Ret tt.

(** [std::strlen] and [std::wcslen]. *)
Definition strlen (mem : list Z) : outcome nat :=
  check (bool_decide (0 ∈ mem)) else OutOfBounds in Ret (length (c_str mem)).

Definition deref (p : option (list Z)) : outcome (list Z) :=
  match p with Some mem => Ret mem | None => Fault NullDeref end.

(** The characters of [[from, from_end)]. *)
Definition range (mem : list Z) (n : nat) : outcome (list Z) :=
  check (n <=? length mem)%nat else OutOfBounds in Ret (take n mem).

(** ** convert_impl *)

Definition convert_impl_in (from : list Z) (room : nat) (target : list Z) (cvt : codecvt_type) : outcome (list Z) :=
  let '(res, _, to) := in_ cvt from room in
  let* _ := if decide (res = codecvt_ok) then Ret tt else assert_ false in
  Ret (target ++ to).

Definition convert_impl_out (from : list Z) (room : nat) (target : list Z) (cvt : codecvt_type) : outcome (list Z) :=
  let '(res, _, to) := out_ cvt from room in
  let* _ := if decide (res = codecvt_ok) then Ret tt else assert_ false in
  Ret (target ++ to).

(** The buffer: on the stack unless the source is unusually large. *)
Definition buffer_room (buf_size : nat) : nat :=
  if (default_codecvt_buf_size <? buf_size)%nat then buf_size else default_codecvt_buf_size.

(** ** convert, the value types differ *)

Definition convert_to_wstring (from : option (list Z)) (from_end : option nat) (to : list Z) (cvt : codecvt_type)
    : outcome (list Z) :=
  let* _ := assert_ (bool_decide (from <> None)) in
  let* mem := deref from in
  let* n := match from_end with None => strlen mem | Some n => Ret n end in
  if (n =? 0)%nat then Ret to
  else
    let* src := range mem n in
    let buf_size := (n * 3)%nat in
    convert_impl_in src (buffer_room buf_size) to cvt.

Definition convert_to_string (from : option (list Z)) (from_end : option nat) (to : list Z) (cvt : codecvt_type)
    : outcome (list Z) :=
  let* _ := assert_ (bool_decide (from <> None)) in
  let* mem := deref from in
  let* n := match from_end with None => strlen mem | Some n => Ret n end in
  if (n =? 0)%nat then Ret to
  else
    let* src := range mem n in
    let buf_size := (n * 4)%nat in
    let buf_size := (buf_size + 4)%nat in
    convert_impl_out src (buffer_room buf_size) to cvt.

(** ** convert, the value types are the same *)

Definition convert_same_range (from : option (list Z)) (from_end : nat) (to : list Z) : outcome (list Z) :=
  let* _ := assert_ (bool_decide (from <> None)) in
  let* mem := deref from in
  let* src := range mem from_end in
  Ret (to ++ src).

Definition convert_same_c_str (from : option (list Z)) (to : list Z) : outcome (list Z) :=
  let* _ := assert_ (bool_decide (from <> None)) in
  let* mem := deref from in
  let* n := strlen mem in
  Ret (to ++ take n mem).

(** The overloads by the character types of the source and of the target. *)
Definition convert (from_t to_t : char_type) (from : option (list Z)) (from_end : nat) (to : list Z) (cvt : codecvt_type)
    : outcome (list Z) :=
  match from_t, to_t with
  | Char, WChar => convert_to_wstring from (Some from_end) to cvt
  | WChar, Char => convert_to_string from (Some from_end) to cvt
  | Char, Char | WChar, WChar => convert_same_range from from_end to
  end.

Definition convert_c_str (from_t to_t : char_type) (from : option (list Z)) (to : list Z) (cvt : codecvt_type)
    : outcome (list Z) :=
  match from_t, to_t with
  | Char, WChar => let* _ := assert_ (bool_decide (from <> None)) in convert_to_wstring from None to cvt
  | WChar, Char => let* _ := assert_ (bool_decide (from <> None)) in convert_to_string from None to cvt
  | Char, Char | WChar, WChar => convert_same_c_str from to
  end.

(** ** Sources

    A contiguous container ([std::string], [std::vector]), another container ([std::list]), or a
    pointer to a string that ends in NUL. *)
Inductive Source :=
| Contiguous (t : char_type) (c : list Z)
| Container (t : char_type) (c : list Z)
| CStr (t : char_type) (p : option (list Z)).

(** [&*c.begin()] of a container and [s.c_str()] of a copy point to the characters and a NUL behind them. *)
Definition storage (c : list Z) : option (list Z) := Some (c ++ [0]).

Definition dispatch (to_t : char_type) (source : Source) (to : list Z) (cvt : codecvt_type) : outcome (list Z) :=
  match source with
  | Contiguous t c => if (length c =? 0)%nat then Ret to else convert t to_t (storage c) (length c) to cvt
  | Container t c =>
      if (length c =? 0)%nat then Ret to
      else let s := c in convert t to_t (storage s) (length s) to cvt
  | CStr t p =>
      let* _ := assert_ (bool_decide (p <> None)) in
      convert_c_str t to_t p to cvt
  end.

(** [path_traits::empty]. *)
Definition empty (source : Source) : outcome bool :=
  match source with
  | Contiguous _ c | Container _ c => Ret (bool_decide (c = []))
  | CStr _ None => Ret true
  | CStr _ (Some []) => Fault OutOfBounds
  | CStr _ (Some (x :: _)) => Ret (x =? 0)
  end.

(** ** The path's members *)

(** [Path(Source const&)] and [Path(Source const&, cvt)]. *)
Definition construct (source : Source) (cvt : codecvt_type) : outcome (list Z) := dispatch Char source [] cvt.

(** [Path(begin, end)] and [Path(begin, end, cvt)]. *)
Definition construct_range (t : char_type) (seq : list Z) (cvt : codecvt_type) : outcome (list Z) :=
  if bool_decide (seq <> []) then convert t Char (storage seq) (length seq) [] cvt else Ret [].

(** [operator=(Source const&)] and [assign]. *)
Definition assign (m_pathname : list Z) (source : Source) (cvt : codecvt_type) : outcome (list Z) :=
  let m_pathname := [] in dispatch Char source m_pathname cvt.

Definition assign_range (m_pathname : list Z) (t : char_type) (seq : list Z) (cvt : codecvt_type) : outcome (list Z) :=
  let m_pathname := [] in
  if bool_decide (seq <> []) then convert t Char (storage seq) (length seq) m_pathname cvt else Ret m_pathname.

(** [operator+=(Source const&)] and [concat]. *)
Definition concat (m_pathname : list Z) (source : Source) (cvt : codecvt_type) : outcome (list Z) :=
  dispatch Char source m_pathname cvt.

Definition concat_range (m_pathname : list Z) (t : char_type) (seq : list Z) (cvt : codecvt_type) : outcome (list Z) :=
  if bool_decide (seq = []) then Ret m_pathname
  else convert t Char (storage seq) (length seq) m_pathname cvt.

(** [operator+=(CharT)]: the character and a NUL in a local array, which becomes a string. *)
Definition concat_char (m_pathname : list Z) (t : char_type) (c : Z) (cvt : codecvt_type) : outcome (list Z) :=
  let tmp := [c; 0] in concat m_pathname (Contiguous t (c_str tmp)) cvt.

(** [append(Source const&)] and [operator/=(Source const&)]. *)
Definition append (m_pathname : list Z) (source : Source) (cvt : codecvt_type) : outcome (list Z) :=
  let* e := empty source in
  if e then Ret m_pathname
  else
    let '(m_pathname, sep_pos) := Path.append_separator_if_needed m_pathname in
    let* m_pathname := dispatch Char source m_pathname cvt in
    Ret (if (sep_pos =? 0)%nat then m_pathname else Path.erase_redundant_separator m_pathname sep_pos).

Definition append_range (m_pathname : list Z) (t : char_type) (seq : list Z) (cvt : codecvt_type) : outcome (list Z) :=
  if bool_decide (seq = []) then Ret m_pathname
  else
    let '(m_pathname, sep_pos) := Path.append_separator_if_needed m_pathname in
    let* m_pathname := convert t Char (storage seq) (length seq) m_pathname cvt in
    Ret (if (sep_pos =? 0)%nat then m_pathname else Path.erase_redundant_separator m_pathname sep_pos).

(** [string()], which is the text itself, and [wstring()]. *)
Definition string_ (m_pathname : list Z) : list Z := m_pathname.

Definition wstring (m_pathname : list Z) (cvt : codecvt_type) : outcome (list Z) :=
  let tmp := [] in
  if bool_decide (m_pathname <> []) then convert_to_wstring (storage m_pathname) (Some (length m_pathname)) tmp cvt
  else Ret tmp.

Definition generic_wstring (m_pathname : list Z) (cvt : codecvt_type) : outcome (list Z) := wstring m_pathname cvt.

(** [string<std::basic_string<Char>>()]. *)
Definition string_of (t : char_type) (m_pathname : list Z) (cvt : codecvt_type) : outcome (list Z) :=
  match t with Char => Ret (string_ m_pathname) | WChar => wstring m_pathname cvt end.

(** ** Streams: quoted, with an ampersand as the escape character *)

Definition put_path (t : char_type) (os : Quoted.ostream) (p : list Z) (cvt : codecvt_type) : outcome Quoted.ostream :=
  let* s := string_of t p cvt in
  Ret (Quoted.basic_string_inserter_imp os (Quoted.quoted s Quoted.ampersand Quoted.mark)).

Definition get_path (isspace : Z -> bool) (t : char_type) (is_ : Quoted.istream) (p : list Z) (cvt : codecvt_type)
    : outcome (Quoted.istream * list Z) :=
  let* (is_, str) := Quoted.extract isspace is_ (Quoted.quoted [] Quoted.ampersand Quoted.mark) in
  let* p := match t with Char => Ret str | WChar => assign p (Contiguous WChar str) cvt end in
  Ret (is_, p).

End Conversion.

(** ** The path locale *)

(** A locale, as far as the conversion facet goes; [facet] is [std::use_facet]. *)
Record locale := mkLocale { facet : codecvt_type }.

Inductive platform := BsdLike | OtherPosix.

(** [default_locale()]: UTF-8 where file names are, else [std::locale("")], the environment's. *)
Definition default_locale (pf : platform) (environment : locale) : locale :=
  match pf with BsdLike => mkLocale utf8_codecvt_facet | OtherPosix => environment end.

(** [path_locale()]: a local static, initialised at the first call. *)
Definition path_locale (def : locale) (loc : option locale) : locale := default def loc.

(** [Path::codecvt()]: the facet and the static afterwards. *)
Definition codecvt (def : locale) (loc : option locale) : codecvt_type * option locale :=
  let l := path_locale def loc in (facet l, Some l).

(** [Path::imbue()]: the locale before and the static afterwards. *)
Definition imbue (def : locale) (loc : option locale) (l : locale) : locale * option locale :=
  let temp := path_locale def loc in (temp, Some l).

(** ** Hashes *)

Section Hash.

(** [std::hash<char>]. *)
Context (std_hash : Z -> Z).

(** [hash_combine_impl], with [std::size_t] of 64 bits. *)
Definition hash_combine_impl (h k : Z) : Z :=
  let m := 0xc6a4a7935bd1e995 in
  let r := 47 in
  let k := wrap 64 (k * m) in
  let k := Z.lxor k (Z.shiftr k r) in
  let k := wrap 64 (k * m) in
  let h := Z.lxor h k in
  let h := wrap 64 (h * m) in
  wrap 64 (h + 0xe6546b64).

Definition hash_combine (seed v : Z) : Z := hash_combine_impl seed (std_hash v).

Definition hash_range_from (seed : Z) (s : list Z) : Z := fold_left hash_combine s seed.
Definition hash_range (s : list Z) : Z := let seed := 0 in hash_range_from seed s.

Definition hash_value (p : list Z) : Z := hash_range p.

End Hash.

(** ** Conversions append *)

Section Facts.
Context (asserts : bool).

Lemma convert_impl_in_app src room to cvt :
  convert_impl_in asserts src room to cvt =
    let* t := convert_impl_in asserts src room [] cvt in Ret (to ++ t).
Proof.
  unfold convert_impl_in. destruct (in_ cvt src room) as [[r k] o]. by destruct (if decide _ then _ else _).
Qed.

Lemma convert_impl_out_app src room to cvt :
  convert_impl_out asserts src room to cvt =
    let* t := convert_impl_out asserts src room [] cvt in Ret (to ++ t).
Proof.
  unfold convert_impl_out. destruct (out_ cvt src room) as [[r k] o]. by destruct (if decide _ then _ else _).
Qed.

Ltac appends :=
  repeat match goal with
  | |- context [obind (obind _ _) _] => rewrite obind_assoc
  | |- obind ?m _ = obind ?m _ => destruct m; cbn [obind]; [|done]
  | |- context [if ?b then _ else _] => destruct b; cbn [obind]
  end; rewrite ?app_nil_r; try done.

Lemma convert_to_wstring_app p n to cvt :
  convert_to_wstring asserts p n to cvt =
    let* t := convert_to_wstring asserts p n [] cvt in Ret (to ++ t).
Proof. unfold convert_to_wstring. appends. apply convert_impl_in_app. Qed.

Lemma convert_to_string_app p n to cvt :
  convert_to_string asserts p n to cvt =
    let* t := convert_to_string asserts p n [] cvt in Ret (to ++ t).
Proof. unfold convert_to_string. appends. apply convert_impl_out_app. Qed.

Lemma convert_app t u p n to cvt :
  convert asserts t u p n to cvt = let* t := convert asserts t u p n [] cvt in Ret (to ++ t).
Proof.
  destruct t, u; cbn [convert]; auto using convert_to_wstring_app, convert_to_string_app;
    unfold convert_same_range; appends.
Qed.

Lemma convert_c_str_app t u p to cvt :
  convert_c_str asserts t u p to cvt = let* t := convert_c_str asserts t u p [] cvt in Ret (to ++ t).
Proof.
  destruct t, u; cbn [convert_c_str]; try (unfold convert_same_c_str; appends; done); appends;
    auto using convert_to_wstring_app, convert_to_string_app.
Qed.

Lemma dispatch_app u source to cvt :
  dispatch asserts u source to cvt = let* t := dispatch asserts u source [] cvt in Ret (to ++ t).
Proof.
  destruct source as [t c|t c|t p]; cbn [dispatch].
  1,2: destruct (length c =? 0)%nat; [cbn; by rewrite app_nil_r|apply convert_app].
  appends. apply convert_c_str_app.
Qed.

(** ** Appending a source *)

Lemma erase_added m p : p <> [] ->
  (let '(m1, sep_pos) := Path.append_separator_if_needed m in
   if (sep_pos =? 0)%nat then m1 ++ p else Path.erase_redundant_separator (m1 ++ p) sep_pos) = Path.append_path m p.
Proof.
  intros Hp. unfold Path.append_path, Path.append_separator_if_needed.
  destruct p as [|x p]; [done|]. cbn [length Nat.eqb].
  destruct (negb (length m =? 0)%nat && negb (Path.sep_at m (length m - 1))) eqn:E; cbn [fst].
  2: { by destruct (negb (Path.sep_at (x :: p) 0)). }
  apply andb_true_iff in E as [E%negb_true_iff _]. rewrite E. unfold Path.erase_redundant_separator.
  rewrite E, <- app_assoc, (proj2 (Nat.ltb_lt _ _)) by (rewrite !length_app; cbn; lia). cbn [negb andb app].
  rewrite Path.char_at_app. cbn. change (x =? Path.separator) with (Path.is_directory_separator x).
  change (Path.sep_at (x :: p) 0) with (Path.is_directory_separator x).
  destruct (Path.is_directory_separator x); cbn [negb]; [|by rewrite <- app_assoc].
  rewrite take_app_length. f_equal. by rewrite drop_app_add.
Qed.

(** Nothing behind the separator: it stays. *)
Lemma erase_nothing m :
  (let '(m1, sep_pos) := Path.append_separator_if_needed m in
   if (sep_pos =? 0)%nat then m1 ++ [] else Path.erase_redundant_separator (m1 ++ []) sep_pos) =
  (Path.append_separator_if_needed m).1.
Proof.
  unfold Path.append_separator_if_needed. destruct (_ && _); cbn [fst]; rewrite ?app_nil_r; [|done].
  destruct (length m =? 0)%nat eqn:E; [done|]. unfold Path.erase_redundant_separator.
  replace (length m + 1)%nat with (length (m ++ [Path.separator])) by (rewrite length_app; cbn; lia).
  unfold Path.char_at. rewrite nth_overflow by lia. by rewrite andb_false_r.
Qed.

Lemma strlen_nul mem : strlen (0 :: mem) = Ret 0%nat.
Proof. unfold strlen. by rewrite bool_decide_eq_true_2 by (by left). Qed.

Lemma empty_construct source cvt p :
  empty source = Ret true -> construct asserts source cvt = Ret p -> p = [].
Proof.
  unfold construct. destruct source as [t c|t c|t [[|x mem]|]]; cbn [empty dispatch]; intros He Hc; try done.
  1,2: injection He as ->%bool_decide_eq_true; cbn in Hc; congruence.
  - injection He as ->%Z.eqb_eq. destruct asserts, t; cbn -[strlen] in Hc; rewrite strlen_nul in Hc; cbn in Hc; congruence.
  - destruct asserts, t; done.
Qed.

Lemma construct_empty source cvt p :
  construct asserts source cvt = Ret p -> exists b, empty source = Ret b.
Proof.
  unfold construct. destruct source as [t c|t c|t [[|x mem]|]]; cbn [empty]; eauto.
  by destruct asserts, t.
Qed.

Lemma empty_fault source cvt f f' :
  empty source = Fault f' -> construct asserts source cvt = Fault f -> Fault f' = Fault (A := list Z) f.
Proof. unfold construct. destruct source as [t c|t c|t [[|x mem]|]]; cbn [empty]; try done. intros [= <-].
  assert (strlen [] = Fault OutOfBounds) as E by done. by destruct asserts, t; cbn; rewrite E.
Qed.

Lemma range_storage c : range (c ++ [0]) (length c) = Ret c.
Proof. unfold range. rewrite (proj2 (Nat.leb_le _ _)) by (rewrite length_app; lia). by rewrite take_app_length. Qed.

(** ** UTF-8 *)

(** The characters of Unicode, and some more: those of at most four octets. *)
Definition short_char (w : Z) : Prop := 0 <= w < 2 ^ 21.

Lemma short_char_ok w : short_char w -> wchar_ok w.
Proof. unfold short_char, wchar_ok, max_wchar. lia. Qed.

Lemma short_chars_ok ws : Forall short_char ws -> Forall wchar_ok ws.
Proof. intros H. eapply Forall_impl; [exact H|]. apply short_char_ok. Qed.

Lemma encode_short w : short_char w -> (1 <= length (encode_char w) <= 4)%nat.
Proof.
  intros Hw. pose proof (encode_char_length w (short_char_ok w Hw)) as Hl. unfold short_char in Hw.
  unfold get_cont_octet_out_count in Hl.
  repeat case_match; rewrite ?Z.ltb_lt, ?Z.ltb_ge in *; lia.
Qed.

Lemma encode_shorts ws : Forall short_char ws ->
  (length ws <= length (flat_map encode_char ws) <= 4 * length ws)%nat.
Proof.
  induction 1 as [|w ws Hw _ IH]; cbn [flat_map length]; [lia|].
  pose proof (encode_short w Hw). rewrite length_app. lia.
Qed.

Lemma buffer_room_ge n : (n <= buffer_room n)%nat.
Proof. unfold buffer_room, default_codecvt_buf_size. destruct (Nat.ltb_spec 256 n); lia. Qed.

(** A character of input is at least one octet, so room for as many characters as there are
    octets is never the limit. *)
Lemma do_in_loop_room from room room' pos out :
  (length from <= room)%nat -> (length from <= room')%nat ->
  do_in_loop from room pos out = do_in_loop from room' pos out.
Proof.
  revert from room' pos out. induction room as [|room IH]; intros [|lead rest] room' pos out H1 H2;
    [by destruct room'|cbn in H1; lia|by destruct room'|].
  destruct room' as [|room']; [cbn in H2; lia|]. cbn [do_in_loop length] in *.
  destruct (invalid_leading_octet lead); [done|].
  destruct (do_in_cont _ rest _ _) as [i|[[i u] rest']] eqn:Ec; [done|].
  destruct (_ && _); [done|]. apply do_in_cont_app with (ys := []) in Ec as (Hi & _ & Hlen & _).
  apply IH; lia.
Qed.

Lemma do_in_room from room room' :
  (length from <= room)%nat -> (length from <= room')%nat -> do_in from room = do_in from room'.
Proof. apply do_in_loop_room. Qed.

Lemma convert_to_wstring_utf8 p to : p <> [] ->
  convert_to_wstring asserts (storage p) (Some (length p)) to utf8_codecvt_facet =
    let '(r, _, o) := do_in p (length p) in
    if decide (r = codecvt_ok) then Ret (to ++ o)
    else if asserts then Fault AssertFailed else Ret (to ++ o).
Proof.
  intros Hp. unfold convert_to_wstring, storage. rewrite bool_decide_eq_true_2 by done.
  unfold assert_ at 1. rewrite andb_false_r. cbn [obind deref].
  rewrite (proj2 (Nat.eqb_neq _ 0)) by (by destruct p). rewrite range_storage. cbn [obind].
  unfold convert_impl_in. cbn [in_ utf8_codecvt_facet].
  rewrite (do_in_room p _ (length p)); [|pose proof (buffer_room_ge (length p * 3)); lia|lia].
  destruct (do_in p (length p)) as [[r k] o]. unfold assert_. by destruct (decide _), asserts.
Qed.

Lemma convert_to_string_utf8 ws to : ws <> [] -> Forall short_char ws ->
  convert_to_string asserts (storage ws) (Some (length ws)) to utf8_codecvt_facet =
    Ret (to ++ flat_map encode_char ws).
Proof.
  intros Hp Hws. unfold convert_to_string, storage. rewrite bool_decide_eq_true_2 by done.
  unfold assert_ at 1. rewrite andb_false_r. cbn [obind deref].
  rewrite (proj2 (Nat.eqb_neq _ 0)) by (by destruct ws). rewrite range_storage. cbn [obind].
  unfold convert_impl_out. cbn [out_ utf8_codecvt_facet].
  destruct (do_in_do_out ws (buffer_room (length ws * 4 + 4))) as [-> _]; [by apply short_chars_ok| |done].
  pose proof (encode_shorts ws Hws). pose proof (buffer_room_ge (length ws * 4 + 4)). lia.
Qed.

(** ** Properties *)

(** C34. Appending any source (of either character type, container or C string, through any
    conversion facet) is [operator/=] of the path made from that source: one separator stands
    between the two texts unless there is one already.  The separator that [append] adds before the
    conversion, not knowing the first character, is erased again where it was not needed.  The one
    difference is a source that is not empty but converts to nothing (the facet failed and the
    assertion is compiled out): the separator stays, where [operator/=] of the empty path would add
    none.  A source whose conversion faults faults here as well, unless it is empty (a null C
    string), which appends nothing. *)
Theorem append_is_slash m source cvt :
  match construct asserts source cvt with
  | Ret p => exists e, empty source = Ret e /\
      append asserts m source cvt =
        Ret (if negb e && bool_decide (p = []) then (Path.append_separator_if_needed m).1 else Path.append_path m p)
  | Fault f => append asserts m source cvt = Fault f \/ empty source = Ret true /\ append asserts m source cvt = Ret m
  end.
Proof.
  destruct (construct asserts source cvt) as [p|f] eqn:Hc.
  - destruct (construct_empty _ _ _ Hc) as [b Hb]. exists b. split; [done|]. unfold append. rewrite Hb. cbn [obind].
    destruct b; [by rewrite (empty_construct _ _ _ Hb Hc)|]. cbn [negb andb].
    unfold construct in Hc. case_bool_decide as Hp; [subst p; rewrite <- erase_nothing|rewrite <- erase_added by done];
      destruct (Path.append_separator_if_needed m) as [m1 sep_pos]; by rewrite dispatch_app, Hc.
  - destruct (empty source) as [b|f'] eqn:Hb.
    + destruct b; [right; unfold append; by rewrite Hb|]. left. unfold append. rewrite Hb. cbn [obind].
      unfold construct in Hc. destruct (Path.append_separator_if_needed m). by rewrite dispatch_app, Hc.
    + left. unfold append. rewrite Hb. cbn [obind]. eapply empty_fault; eauto.
Qed.

(** The range overloads do what the container overloads do. *)
Lemma ranges_are_containers m t seq cvt :
  construct_range asserts t seq cvt = construct asserts (Container t seq) cvt /\
  assign_range asserts m t seq cvt = assign asserts m (Container t seq) cvt /\
  concat_range asserts m t seq cvt = concat asserts m (Container t seq) cvt /\
  append_range asserts m t seq cvt = append asserts m (Container t seq) cvt.
Proof.
  unfold construct_range, assign_range, concat_range, append_range, construct, assign, concat, append.
  cbn [dispatch empty obind]. destruct seq as [|x seq]; [done|].
  rewrite (bool_decide_eq_false_2 (x :: seq = [])), bool_decide_eq_true_2 by done. done.
Qed.

(** Round trip of wide text through a path, with the UTF-8 facet: a path made from any text
    of characters of up to four octets (all of Unicode) holds its encoding, and [wstring] gives the text back;
    neither conversion meets an assertion, so the guessed buffer sizes are large enough. *)
Theorem wide_roundtrip ws :
  Forall short_char ws ->
  construct asserts (Contiguous WChar ws) utf8_codecvt_facet = Ret (flat_map encode_char ws) /\
  wstring asserts (flat_map encode_char ws) utf8_codecvt_facet = Ret ws.
Proof.
  intros Hws. destruct (decide (ws = [])) as [->|Hne]; [done|].
  pose proof (encode_shorts ws Hws) as Hlen.
  assert (flat_map encode_char ws <> []) as Hne' by (destruct ws; [done|]; intros E; rewrite E in Hlen; cbn in Hlen; lia).
  unfold construct, wstring. cbn [dispatch convert].
  rewrite (proj2 (Nat.eqb_neq _ 0)) by (by destruct ws). rewrite bool_decide_eq_true_2 by done.
  split; [by apply convert_to_string_utf8|]. rewrite convert_to_wstring_utf8 by done.
  destruct (do_in_do_out ws (length (flat_map encode_char ws))) as [_ Hin]; [by apply short_chars_ok|lia|].
  assert (do_in (flat_map encode_char ws) (length (flat_map encode_char ws)) =
    (codecvt_ok, Z.of_nat (length (flat_map encode_char ws)), ws)) as ->; [|done].
  pose proof (do_in_more_room (flat_map encode_char ws) (length ws) (length (flat_map encode_char ws))) as H.
  rewrite Hin in H. apply H; [lia|done].
Qed.

(** [wstring] of any bytes at all: if they decode, the result is the decoded text; if they do not, the
    assertion fails, and without assertions the text before the malformed octet is returned as if
    it were the whole.  The buffer is never what stops the conversion. *)
Theorem wstring_any_bytes p :
  wstring asserts p utf8_codecvt_facet =
    let '(r, _, ws) := do_in p (length p) in
    if decide (r = codecvt_ok) then Ret ws else if asserts then Fault AssertFailed else Ret ws.
Proof.
  unfold wstring. destruct p as [|c p]; [done|]. rewrite bool_decide_eq_true_2 by done.
  by rewrite convert_to_wstring_utf8.
Qed.

(** C35. Paths survive being written to a stream and read from it, narrow or wide: for any facet
    that converts the path's text to wide characters and back, what [operator<<] writes is read by
    [operator>>] as the same path, and the stream continues behind it.  The streams have the default
    field width, zero. *)
Theorem path_stream_roundtrip isspace t os p cvt s :
  string_of asserts t p cvt = Ret s -> construct asserts (Contiguous t s) cvt = Ret p ->
  Quoted.o_width os = 0%nat ->
  exists os' out, put_path asserts t os p cvt = Ret os' /\ Quoted.written os' = Quoted.written os ++ out /\
    forall is_ sp rest q, Quoted.good is_ = true -> Quoted.leading isspace is_ sp (out ++ rest) ->
      exists is', get_path asserts isspace t is_ q cvt = Ret (is', p) /\
        Quoted.ahead is' = rest /\ Quoted.good is' = true /\ Quoted.flags is' = Quoted.flags is_.
Proof.
  intros Hs Hc Hw. unfold put_path. rewrite Hs. cbn [obind].
  eexists _, _. split; [done|]. split; [by apply Quoted.inserter_plain|].
  intros is_ sp rest q Hg Hl. unfold get_path.
  destruct (Quoted.extract_inserted isspace is_ s Quoted.ampersand Quoted.mark sp rest ltac:(done) Hg Hl [])
    as (is' & -> & H1 & H2 & H3 & _). cbn [obind]. exists is'. split; [|done].
  destruct t; [|by unfold assign, construct in *; rewrite Hc].
  cbn in Hs. injection Hs as <-. done.
Qed.

End Facts.

(** ** What the hash tells apart *)

Lemma lxor_fits w a b : 0 <= w -> fits w a -> fits w b -> fits w (Z.lxor a b).
Proof.
  intros Hw Ha Hb. rewrite <- (wrap_small w (Z.lxor a b)) at 1; [by apply wrap_fits|].
  replace (Z.lxor a b) with (wrap w (Z.lxor a b)); [by apply wrap_fits|].
  apply Z.bits_inj'. intros n Hn. unfold wrap. destruct (decide (n < w)).
  - by rewrite Z.mod_pow2_bits_low by lia.
  - by rewrite Z.mod_pow2_bits_high, Z.lxor_spec, !(testbit_high w) by (done || lia).
Qed.

(** The multiplier is odd, so it has an inverse. *)
Lemma multiplier_cancel a b : fits 64 a -> fits 64 b ->
  wrap 64 (a * 0xc6a4a7935bd1e995) = wrap 64 (b * 0xc6a4a7935bd1e995) -> a = b.
Proof.
  intros Ha Hb H. rewrite <- (wrap_small 64 a), <- (wrap_small 64 b) by done.
  assert (forall x, wrap 64 x = wrap 64 (wrap 64 (x * 0xc6a4a7935bd1e995) * 0x5f7a0ea7e59b19bd)) as Hinv.
  { intros x. unfold wrap. rewrite Zmult_mod_idemp_l, <- Z.mul_assoc, <- Zmult_mod_idemp_r.
    change ((0xc6a4a7935bd1e995 * 0x5f7a0ea7e59b19bd) mod 2 ^ 64) with 1. by rewrite Z.mul_1_r. }
  by rewrite (Hinv a), (Hinv b), H.
Qed.

Definition xorshift (k : Z) : Z := Z.lxor k (Z.shiftr k 47).

Lemma shiftr_fits w z n : 0 <= w -> 0 <= n -> fits w z -> fits w (Z.shiftr z n).
Proof.
  intros Hw Hn [H1 H2]. rewrite Z.shiftr_div_pow2 by done. split; [apply Z.div_pos; lia|].
  eapply Z.le_lt_trans; [|exact H2]. apply Z.div_le_upper_bound; [lia|]. nia.
Qed.

Lemma xorshift_fits k : fits 64 k -> fits 64 (xorshift k).
Proof. intros Hk. apply lxor_fits; [lia|done|]. apply shiftr_fits; [lia|lia|done]. Qed.

Lemma xorshift_twice k : fits 64 k -> xorshift (xorshift k) = k.
Proof.
  intros Hk. unfold xorshift. rewrite Z.shiftr_lxor, Z.shiftr_shiftr by lia.
  rewrite (Z.shiftr_eq_0 k (47 + 47)); [|apply Hk|].
  - rewrite Z.lxor_0_r, Z.lxor_assoc, Z.lxor_nilpotent. apply Z.lxor_0_r.
  - destruct (decide (k = 0)) as [->|]; [done|]. unfold fits in Hk. apply Z.log2_lt_pow2; [lia|].
    eapply Z.lt_le_trans; [apply Hk|]. by apply Z.pow_le_mono_r.
Qed.

Lemma xor_cancel_l h a b : Z.lxor h a = Z.lxor h b -> a = b.
Proof.
  intros H. rewrite <- (Z.lxor_0_l a), <- (Z.lxor_0_l b), <- (Z.lxor_nilpotent h), !Z.lxor_assoc. by rewrite H.
Qed.

Lemma add_cancel_wrap a b c : fits 64 a -> fits 64 b -> wrap 64 (a + c) = wrap 64 (b + c) -> a = b.
Proof.
  intros Ha Hb H. rewrite <- (wrap_small 64 a), <- (wrap_small 64 b) by done.
  unfold wrap in *. replace a with (a + c - c) by lia. replace b with (b + c - c) by lia.
  rewrite <- Zminus_mod_idemp_l, H. apply Zminus_mod_idemp_l.
Qed.

Lemma hash_combine_fits h k : fits 64 (hash_combine_impl h k).
Proof. apply wrap_fits. lia. Qed.

(** Combining is one-to-one in the seed and in the value. *)
Lemma hash_combine_inj h h' k k' : fits 64 h -> fits 64 h' -> fits 64 k -> fits 64 k' ->
  hash_combine_impl h k = hash_combine_impl h' k' -> (h = h' <-> k = k').
Proof.
  intros Hh Hh' Hk Hk' H. unfold hash_combine_impl in H. cbn zeta in H.
  change (Z.lxor ?x (Z.shiftr ?x 47)) with (xorshift x) in H.
  apply add_cancel_wrap in H; [|apply wrap_fits; lia..].
  apply multiplier_cancel in H; [|apply lxor_fits; [lia|done|apply wrap_fits; lia]..].
  split; intros <-.
  - apply xor_cancel_l in H. apply multiplier_cancel in H; [|apply xorshift_fits, wrap_fits; lia..].
    apply (f_equal xorshift) in H. rewrite !xorshift_twice in H by (apply wrap_fits; lia).
    by apply multiplier_cancel in H.
  - rewrite !(Z.lxor_comm _ (wrap _ _)) in H. by apply xor_cancel_l in H.
Qed.

Section HashFacts.
Context (std_hash : Z -> Z) (Hfits : forall c, fits 64 (std_hash c)) 
  (Hinj : forall c d, byte_ok c -> byte_ok d -> std_hash c = std_hash d -> c = d).

Lemma hash_range_from_fits seed s : fits 64 seed -> fits 64 (hash_range_from std_hash seed s).
Proof.
  revert seed. induction s as [|c s IH]; intros seed Hs; [done|]. apply IH, hash_combine_fits.
Qed.

Lemma hash_range_from_inj s h h' : fits 64 h -> fits 64 h' ->
  hash_range_from std_hash h s = hash_range_from std_hash h' s -> h = h'.
Proof.
  revert h h'. induction s as [|c s IH]; intros h h' Hh Hh' H; [done|].
  apply IH in H; [|apply hash_combine_fits..].
  by apply hash_combine_inj in H; [apply H| | | |].
Qed.

(** With a hash of characters that tells them apart, two paths whose texts differ in
    exactly one character have different hashes. *)
Theorem hash_value_one_character pre c d post :
  byte_ok c -> byte_ok d ->
  hash_value std_hash (pre ++ c :: post) = hash_value std_hash (pre ++ d :: post) <-> c = d.
Proof.
  intros Hc Hd. split; [|by intros ->]. unfold hash_value, hash_range, hash_range_from. rewrite !fold_left_app. cbn [fold_left].
  intros H. apply hash_range_from_inj in H; [|apply hash_combine_fits..].
  apply hash_combine_inj in H; [|apply hash_range_from_fits; unfold fits; lia..|done|done].
  by apply Hinj, H.
Qed.

End HashFacts.

(** ** On concrete paths *)

(** [std::hash<char>] of the usual libraries: the value of a signed [char]. *)
Definition char_hash (c : Z) : Z := wrap 64 (if c <? 128 then c else c - 256).

Lemma char_hash_inj c d : byte_ok c -> byte_ok d -> char_hash c = char_hash d -> c = d.
Proof.
  unfold byte_ok, fits, char_hash. intros Hc Hd H.
  assert (forall x, -2 ^ 7 <= x < 2 ^ 7 -> wrap 64 x = if x <? 0 then x + 2 ^ 64 else x) as Hw.
  { intros x Hx. unfold wrap. destruct (Z.ltb_spec x 0).
    - rewrite <- (Z.mod_add x 1), Z.mod_small; lia.
    - apply Z.mod_small. lia. }
  destruct (Z.ltb_spec c 128), (Z.ltb_spec d 128); rewrite !Hw in H by lia; repeat case_match;
    rewrite ?Z.ltb_lt, ?Z.ltb_ge in *; lia.
Qed.

Lemma hash_value_one_character_witness :
  hash_value char_hash (chars "/a" ++ 98 :: chars "/c") <> hash_value char_hash (chars "/a" ++ 200 :: chars "/c").
Proof.
  intros H. refine (_ (proj1 (hash_value_one_character char_hash _ char_hash_inj (chars "/a") 98 200 (chars "/c") _ _) H)).
  - discriminate.
  - intros c. apply wrap_fits. discriminate.
  - unfold byte_ok, fits. lia.
  - unfold byte_ok, fits. lia.
Defined.

(** Paths that compare equal may have different hashes: comparison goes element by element and
    does not see a doubled separator, the hash goes over the text. *)
Example equal_paths_hash_differently :
  Path.path_eqb (chars "a/b") (chars "a//b") = Ret true /\
  hash_value char_hash (chars "a/b") <> hash_value char_hash (chars "a//b").
Proof. split; [reflexivity|]. by vm_compute. Qed.

(** Wide characters that need more than four octets can overflow the guessed buffer; without
    assertions the path is cut short. *)
Example long_characters_truncated :
  let ws := replicate 43 0x7fffffff in
  construct true (Contiguous WChar ws) utf8_codecvt_facet = Fault AssertFailed /\
  construct false (Contiguous WChar ws) utf8_codecvt_facet = Ret (flat_map encode_char (replicate 42 0x7fffffff)).
Proof. split; by vm_compute. Qed.

(** A malformed name read as wide text without assertions loses its end. *)
Example malformed_name_truncated :
  wstring true (chars "a" ++ 0xff :: chars "b") utf8_codecvt_facet = Fault AssertFailed /\
  wstring false (chars "a" ++ 0xff :: chars "b") utf8_codecvt_facet = Ret (chars "a").
Proof. split; reflexivity. Qed.

(** The facet of a locale without wide characters beyond ASCII. *)
Definition ascii_out (from : list Z) (room : nat) : codecvt_result * Z * list Z :=
  let n := Path.span (fun c => (0 <=? c) && (c <? 128)) (take room from) in
  (if (n =? length from)%nat then codecvt_ok else if (n =? room)%nat then codecvt_partial else codecvt_error,
   Z.of_nat n, take n from).

(** Without assertions, a source of which nothing could be converted still leaves the separator
    that was added for it. *)
Example failed_append_leaves_separator :
  append false (chars "a") (Contiguous WChar [0x20ac]) (mkCodecvt do_in ascii_out) = Ret (chars "a/").
Proof. reflexivity. Qed.

(** The path locale: conversions use the facet that was imbued last, and [imbue] returns the locale
    before it, the default one at first. *)
Lemma imbue_codecvt pf env loc l1 l2 :
  let def := default_locale pf env in
  let '(old, loc1) := imbue def loc l1 in
  let '(old', loc2) := imbue def loc1 l2 in
  old = path_locale def loc /\ old' = l1 /\ (codecvt def loc2).1 = facet l2 /\ (codecvt def (imbue def loc2 old).2).1 = (codecvt def loc).1.
Proof. by destruct loc. Qed.

Lemma wide_roundtrip_witness :
  construct true (Contiguous WChar [0x41; 0x20ac; 0x1F600]) utf8_codecvt_facet = Ret [65; 226; 130; 172; 240; 159; 152; 128] /\
  wstring true [65; 226; 130; 172; 240; 159; 152; 128] utf8_codecvt_facet = Ret [0x41; 0x20ac; 0x1F600].
Proof.
  refine (wide_roundtrip true [0x41; 0x20ac; 0x1F600] _). repeat constructor; vm_compute; discriminate.
Defined.

Lemma path_stream_roundtrip_witness :
  exists os' out, put_path true WChar Quoted.ostringstream [97; 32; 226; 130; 172] utf8_codecvt_facet = Ret os' /\
    Quoted.written os' = [] ++ out /\
    forall is_ sp rest q, Quoted.good is_ = true -> Quoted.leading Quoted.c_isspace is_ sp (out ++ rest) ->
      exists is', get_path true Quoted.c_isspace WChar is_ q utf8_codecvt_facet = Ret (is', [97; 32; 226; 130; 172]) /\
        Quoted.ahead is' = rest /\ Quoted.good is' = true /\ Quoted.flags is' = Quoted.flags is_.
Proof.
  refine (path_stream_roundtrip true Quoted.c_isspace WChar Quoted.ostringstream [97; 32; 226; 130; 172] utf8_codecvt_facet
    [97; 32; 0x20ac] _ _ _); reflexivity.
Defined.

End PathText.
