(* ===== verification/PathReverse.v ===== *)
(** * Reverse iteration over a path

    [Path::ReverseIterator] of [source/io/fs/Path.h], with [rbegin] and [rend]. *)

From S2P Require Import Prelude Path.
Local Open Scope outcome_scope.
Local Open Scope nat_scope.

Module PathReverse.
Import Path.

(** The iterator behind the element, and a copy of the element. *)
Record ReverseIterator := mkReverse { m_itr : Iterator; r_element : list Z }.

Definition make_reverse (s : list Z) (itr : Iterator) : outcome ReverseIterator :=
  if negb (iter_eqb itr (begin_ s)) then
    let* prev := decrement s itr in Ret (mkReverse itr (m_element prev))
  else Ret (mkReverse itr []).

Definition rincrement (s : list Z) (r : ReverseIterator) : outcome ReverseIterator :=
  let* itr := decrement s (m_itr r) in
  if negb (iter_eqb itr (begin_ s)) then
    let* tmp := decrement s itr in Ret (mkReverse itr (m_element tmp))
  else Ret (mkReverse itr (r_element r)).

Definition rdecrement (s : list Z) (r : ReverseIterator) : outcome ReverseIterator :=
  let element := m_element (m_itr r) in
  let* itr := increment s (m_itr r) in
  Ret (mkReverse itr element).

Definition rbegin (s : list Z) : outcome ReverseIterator := make_reverse s (end_ s).
Definition rend (s : list Z) : outcome ReverseIterator := make_reverse s (begin_ s).

Definition requal (a b : ReverseIterator) : bool := iter_eqb (m_itr a) (m_itr b).

(** [for (r = rbegin(); r != rend(); ++r)] over the elements. *)
Fixpoint relements_from (fuel : nat) (s : list Z) (r last : ReverseIterator) : outcome (list (list Z)) :=
  if requal r last then Ret []
  else match fuel with
  | O => Fault FuelExhausted
  | S fuel =>
      let* next := rincrement s r in
      let* rest := relements_from fuel s next last in
      Ret (r_element r :: rest)
  end.

Definition relements (s : list Z) : outcome (list (list Z)) :=
  let* first := rbegin s in
  let* last := rend s in
  relements_from (length s) s first last.

(** ** Positions in a prefix *)

Lemma last_below_prefix p x t n : n <= length x -> last_below p (x ++ t) n = last_below p x n.
Proof.
  induction n as [|n IH]; intros Hn; [done|]. cbn [last_below]. rewrite IH by lia.
  unfold char_at. by rewrite app_nth1 by lia.
Qed.

Lemma filename_pos_prefix x t : x <> [] -> filename_pos (x ++ t) (length x) = filename_pos x (length x).
Proof.
  intros Hx. assert (0 < length x) by (destruct x; [done|cbn; lia]). unfold filename_pos, find_last_of_before.
  rewrite !(sep_at_app_l x t 0), !(sep_at_app_l x t (length x - 1)) by lia.
  destruct (length x) as [|k] eqn:Hk; [lia|].
  rewrite last_below_prefix by (rewrite length_app; lia). rewrite length_app, Hk, Nat.min_l, Nat.min_id by lia.
  destruct (Nat.eqb_spec (S k) 2) as [E|E]; [|done]. by rewrite (sep_at_app_l x t 1) by lia.
Qed.

Lemma substr_prefix x y t : substr (x ++ y ++ t) (length x) (length (x ++ y) - length x) = y.
Proof.
  unfold substr. rewrite drop_app_length, length_app.
  replace (length x + length y - length x) with (length y) by lia. by rewrite take_app_length.
Qed.

(** ** One decrement

    From a position that is not the end behind trailing separators. *)

Definition not_trailing (s : list Z) (p : nat) : Prop :=
  p < length s \/ sep_at s (p - 1) = false \/ is_root_separator s (p - 1) = Ret true.

Lemma decrement_plain s it : m_pos it <> 0 -> not_trailing s (m_pos it) ->
  decrement s it =
    let end_pos := skip_back s (root_directory_start s (m_pos it)) (m_pos it) in
    let pos := filename_pos s end_pos in
    Ret (mkIterator (substr s pos (end_pos - pos)) pos).
Proof.
  intros H0 Ht. unfold decrement. rewrite (proj2 (Nat.eqb_neq _ 0)) by done. cbn [negb].
  assert ((if (m_pos it =? length s) && (1 <? length s) && sep_at s (m_pos it - 1)
    then let* root := is_root_separator s (m_pos it - 1) in Ret (negb root) else Ret false) = Ret false) as ->; [|done].
  destruct Ht as [Ht|[Ht|Ht]].
  - by rewrite (proj2 (Nat.eqb_neq _ (length s))) by lia.
  - by rewrite Ht, andb_false_r.
  - rewrite Ht. cbn. by case_match.
Qed.

(** Back over the separators and the name before them. *)
Lemma decrement_name x' l' e' l t n el :
  let x := x' ++ l' ++ e' in
  let s := x ++ l ++ t in
  ends_in_separator x' = false -> seps l' -> clean e' -> e' <> [] -> (l' = [] -> x' = []) ->
  seps l -> n <= length l -> net_name x && negb (n =? 0) = false -> not_trailing s (length x + n) ->
  decrement s (mkIterator el (length x + n)) =
    Ret (if bool_decide (x' = []) && (length l' =? 2) then mkIterator x 0 else mkIterator e' (length (x' ++ l'))).
Proof.
  intros x s Hx' Hl' He' Hne Hnil Hl Hn Hnet Ht.
  assert (x <> []) as Hx by (unfold x; destruct x', l', e'; done).
  assert (ends_in_separator x = false) as Hend
    by (unfold x; rewrite app_assoc, ends_in_separator_app by done; by apply ends_in_clean).
  rewrite decrement_plain; [|cbn; destruct x; [done|cbn; lia]|done]. cbn [m_pos].
  destruct (parent_end_inner x l t n Hx Hend Hl Hn) as [Hskip _]. fold s in Hskip. rewrite Hnet in Hskip.
  cbn zeta in *. rewrite Hskip.
  assert (filename_pos s (length x) = if bool_decide (x' = []) && (length l' =? 2) then 0 else length (x' ++ l')) as Hp
    by (unfold s; rewrite filename_pos_prefix by done; by apply filename_pos_name).
  rewrite Hp. destruct (bool_decide (x' = []) && (length l' =? 2)).
  - rewrite Nat.sub_0_r. unfold substr, s. by rewrite drop_0, take_app_length.
  - f_equal. f_equal. unfold s, x. rewrite (app_assoc x' l' e'), <- app_assoc. apply substr_prefix.
Qed.

(** Back to the root directory of a network name. *)
Lemma decrement_net_root x l t n el :
  let s := x ++ l ++ t in
  net_name x = true -> seps l -> S n <= length l -> not_trailing s (length x + S n) ->
  decrement s (mkIterator el (length x + S n)) = Ret (mkIterator root_element (length x)).
Proof.
  intros s Hnet Hl Hn Ht. destruct (net_name_end x Hnet) as [Hx Hend].
  rewrite decrement_plain; [|cbn; lia|done]. cbn [m_pos].
  destruct (parent_end_inner x l t (S n) Hx Hend Hl Hn) as [Hskip _]. fold s in Hskip. rewrite Hnet in Hskip.
  cbn [Nat.eqb negb andb] in Hskip. cbn zeta in *. rewrite Hskip.
  assert (sep_at s (length x) = true) as Hs.
  { unfold s. rewrite <- (Nat.add_0_r (length x)), sep_at_app. apply sep_at_run; [done|lia]. }
  assert (filename_pos s (S (length x)) = length x) as Hp.
  { unfold filename_pos. apply net_name_spec in Hnet as (m & -> & _ & Hm). destruct m; [done|].
    rewrite (proj2 (Nat.eqb_neq _ 2)) by (rewrite length_app; cbn; lia). cbn [andb Nat.eqb negb].
    replace (S (length (net_prefix ++ z :: m)) - 1) with (length (net_prefix ++ z :: m)) by lia. by rewrite Hs. }
  rewrite Hp. f_equal. f_equal. unfold substr, s. rewrite drop_app_length.
  replace (S (length x) - length x) with 1 by lia. destruct l as [|c l]; [cbn in Hn; lia|].
  unfold s in Hs. rewrite sep_at_length in Hs. cbn in Hs |- *. unfold is_directory_separator in Hs.
  apply Z.eqb_eq in Hs as ->. by rewrite take_0.
Qed.

(** ** Chains of decrements *)

(** [back s p es]: going back from position [p] passes the elements [es] and reaches [begin()]. *)
Inductive back (s : list Z) : nat -> list (list Z) -> Prop :=
| back_begin p : p = m_pos (begin_ s) -> back s p []
| back_step p prev es :
    (forall el, decrement s (mkIterator el p) = Ret prev) -> m_pos prev < p -> back s (m_pos prev) es ->
    back s p (m_element prev :: es).

Lemma back_ge s p es : back s p es -> m_pos (begin_ s) <= p /\ length es <= p - m_pos (begin_ s) /\
  (es <> [] -> m_pos (begin_ s) < p).
Proof.
  induction 1 as [p ->|p prev es Hd Hlt Hb (IH1 & IH2 & IH3)]; [by split_and!; [|cbn; lia|]|].
  split_and!; cbn [length]; lia.
Qed.

Lemma iterator_eta it : it = mkIterator (m_element it) (m_pos it).
Proof. by destruct it. Qed.

Lemma relements_back s es p el fuel last :
  back s p es -> m_pos (m_itr last) = m_pos (begin_ s) -> length es <= fuel ->
  forall e0, relements_from fuel s (mkReverse (mkIterator el p) (default e0 (head es))) last = Ret es.
Proof.
  intros Hb Hlast. revert el fuel. induction Hb as [p ->|p prev es Hd Hlt Hb IH]; intros el fuel Hf e0.
  { assert (requal (mkReverse (mkIterator el (m_pos (begin_ s))) (default e0 (head []))) last = true) as Hr
      by (unfold requal, iter_eqb; cbn; rewrite Hlast; apply Nat.eqb_refl).
    destruct fuel; cbn [relements_from]; by rewrite Hr. }
  destruct fuel as [|fuel]; [cbn in Hf; lia|]. cbn [relements_from].
  pose proof (back_ge _ _ _ Hb) as (Hge & _ & Hgt).
  assert (requal (mkReverse (mkIterator el p) (default e0 (head (m_element prev :: es)))) last = false) as ->.
  { unfold requal, iter_eqb. cbn. rewrite Hlast. apply Nat.eqb_neq. lia. }
  unfold rincrement. cbn [m_itr]. rewrite Hd. cbn [obind]. rewrite (iterator_eta prev).
  cbn [m_element m_pos default head r_element]. unfold id.
  inversion Hb as [q Hq|q prev' es' Hd' Hlt' Hb']; subst.
  - unfold iter_eqb. cbn [m_pos]. rewrite Hq, Nat.eqb_refl. cbn [negb obind].
    rewrite Hq in IH. specialize (IH (m_element prev) fuel ltac:(cbn in Hf |- *; lia) (m_element prev)).
    cbn in IH. by rewrite IH.
  - unfold iter_eqb. cbn [m_pos]. rewrite (proj2 (Nat.eqb_neq _ _)) by (specialize (Hgt ltac:(done)); lia).
    cbn [negb]. rewrite Hd'. cbn [obind].
    specialize (IH (m_element prev) fuel ltac:(cbn in Hf |- *; lia) []). cbn in IH. by rewrite IH.
Qed.

(** ** All the way back *)

(** The elements before a position that is [n] separators behind [x]. *)
Definition before (x : list Z) (n : nat) : list (list Z) :=
  spec_elements x ++ (if net_name x && negb (n =? 0) then [root_element] else []).

Lemma before_snoc x l e : x <> [] -> ends_in_separator x = false -> seps l -> l <> [] -> clean e -> e <> [] ->
  spec_elements (x ++ l ++ e) = before x (length l) ++ [e].
Proof.
  intros Hx Hend Hl Hne He Hnee. rewrite spec_snoc by done. unfold before, last_element.
  rewrite (proj2 (Nat.eqb_neq (length l) 0)) by (by destruct l). rewrite !decide_False by done.
  destruct (net_name x) eqn:Hnet; cbn [negb andb]; [by rewrite spec_net_name|by rewrite app_nil_r].
Qed.

(** A path whose iteration starts at its first character has at most two leading separators. *)
Lemma begin_zero l e : seps l -> no_boundary e -> m_pos (begin_ (l ++ e)) = 0 -> length l <= 2.
Proof.
  intros Hl He H0. destruct (decide (length l <= 2)) as [|Hn]; [done|].
  rewrite begin_root in H0 by (done || lia). cbn in H0. lia.
Qed.

Lemma back_one s : m_pos (begin_ s) = 0 -> sep_at s 0 = true -> 1 < length s -> sep_at s 1 = false -> back s 1 [root_element].
Proof.
  intros H0 Hs Hlen Hs1. destruct s as [|c s]; [done|]. rewrite sep_at_0 in Hs. unfold is_directory_separator in Hs.
  apply Z.eqb_eq in Hs as ->. 
  apply (back_step _ _ (mkIterator root_element 0)); [|cbn; lia|by constructor].
  intros el. rewrite decrement_plain; [|done|by left]. cbn [m_pos].
  assert (root_directory_start (separator :: s) 1 = Some 0) as -> by done. done.
Qed.

Lemma back_names k s x l t n : length x <= k ->
  s = x ++ l ++ t -> m_pos (begin_ s) = 0 -> x <> [] -> ends_in_separator x = false -> seps l -> n <= length l ->
  net_name x && negb (n =? 0) = false -> not_trailing s (length x + n) ->
  back s (length x + n) (rev (spec_elements x)).
Proof.
  revert x l t n. induction k as [|k IH]; intros x l t n Hk Hs H0 Hx Hend Hl Hn Hnet Ht; [destruct x; [done|cbn in Hk; lia]|].
  destruct (right_split x) as (x' & l' & e' & -> & Hx' & Hl' & He' & Hnil).
  assert (e' <> []) as Hne.
  { intros ->. rewrite app_nil_r in *. destruct l' as [|c l']; [by rewrite Hnil in Hx|].
    rewrite ends_in_separator_app in Hend by done. by rewrite ends_in_seps in Hend. }
  assert (no_boundary (e' ++ l ++ t)) as Hb by (destruct e'; [done|]; by inversion He').
  pose proof (fun el => decrement_name x' l' e' l t n el Hx' Hl' He' Hne Hnil Hl Hn Hnet) as Hdec.
  cbn zeta in Hdec. rewrite <- Hs in Hdec.
  assert (1 <= length e') by (destruct e'; [done|cbn; lia]).
  destruct (decide (x' = [])) as [->|Hne'].
  - cbn [app] in *. rewrite bool_decide_true in Hdec by done.
    assert (length l' <= 2) as Hle by (apply (begin_zero l' (e' ++ l ++ t)); [done..|]; by rewrite app_assoc, <- Hs).
    rewrite spec_short by done. rewrite !decide_False by done.
    destruct l' as [|c [|d [|]]]; cbn [length Nat.eqb andb] in *; [| | |lia].
    + cbn [rev app]. apply (back_step s _ (mkIterator e' 0)); [by intros; apply Hdec|cbn; lia|]. by constructor.
    + cbn [rev app]. apply (back_step s _ (mkIterator e' 1)); [by intros; apply Hdec|cbn; lia|]. cbn [m_pos].
      apply back_one; [done|by rewrite Hs; inversion Hl'|rewrite Hs; cbn; rewrite length_app; lia|].
      rewrite Hs. change (sep_at (([c] ++ e') ++ l ++ t) (length [c]) = false).
      rewrite <- app_assoc. by apply sep_at_run_end.
    + assert ([c; d] = net_prefix) as Hcd by (by apply (seps_replicate [c; d])). cbn [rev app].
      rewrite <- Hcd. cbn [app].
      apply (back_step s _ (mkIterator (c :: d :: e') 0)); [by intros; apply Hdec|cbn; lia|]. by constructor.
  - rewrite bool_decide_false in Hdec by done. cbn [andb] in Hdec.
    assert (l' <> []) as Hnel by (intros ->; by apply Hne', Hnil).
    rewrite before_snoc by done. rewrite rev_app_distr. cbn [rev app].
    assert (length (x' ++ l') < length s) as Hlt by (rewrite Hs, !length_app; lia).
    apply (back_step s _ (mkIterator e' (length (x' ++ l')))); [by intros; apply Hdec|cbn; rewrite !length_app; lia|]. cbn [m_pos].
    assert (s = x' ++ l' ++ (e' ++ l ++ t)) as Hs' by (rewrite Hs, <- !app_assoc; done).
    unfold before. destruct (net_name x') eqn:Hnx; cbn [andb].
    + rewrite (proj2 (Nat.eqb_neq (length l') 0)) by (by destruct l'). cbn [negb].
      rewrite rev_app_distr, length_app. cbn [rev app].
      destruct (length l') as [|m] eqn:Hm; [by destruct l'|].
      apply (back_step s _ (mkIterator root_element (length x'))); [|cbn; lia|].
      * intros el. rewrite Hs'. apply decrement_net_root; [done|done|lia|].
        left. rewrite <- Hs'. rewrite length_app in Hlt. lia.
      * cbn [m_pos]. rewrite <- (Nat.add_0_r (length x')).
        apply (IH x' l' (e' ++ l ++ t) 0); [rewrite !length_app in Hk; lia|done|done|done|done|done|lia|by rewrite andb_false_r|].
        left. rewrite length_app in Hlt. lia.
    + rewrite app_nil_r, length_app.
      apply (IH x' l' (e' ++ l ++ t) (length l')); [rewrite !length_app in Hk; lia|done|done|done|done|done|done|by rewrite Hnx|].
      left. by rewrite <- length_app.
Qed.

Lemma begin_short s : span is_directory_separator s <= 2 -> s <> [] -> m_pos (begin_ s) = 0.
Proof.
  intros Hsp Hne. destruct (seps_split s) as (l & r & -> & Hl & Hr & Hlen). rewrite <- Hlen in Hsp.
  destruct (decide (length l = 2)) as [H2|H2].
  - rewrite (seps_replicate l Hl), H2. change (replicate 2 separator) with net_prefix.
    destruct (name_split r) as (n & rest & -> & Hn & Hb & _). rewrite begin_net; [done..|].
    intros ->. destruct rest; [done|]. cbn in Hr, Hb. congruence.
  - destruct (decide (length l = 0)) as [H0|H0]; [|rewrite begin_root by done; cbn; lia].
    destruct l; [|done]. destruct (name_split r) as (n & rest & -> & Hn & Hb & _). cbn [app] in *.
    rewrite begin_relative; [done|done| |done]. intros ->. destruct rest; [done|]. cbn in Hr, Hb. congruence.
Qed.

Lemma back_end s : span is_directory_separator s <= 2 -> s <> net_prefix -> s <> [] ->
  back s (length s) (rev (spec_elements s)).
Proof.
  intros Hsp Hnet Hne. pose proof (begin_short s Hsp Hne) as H0.
  destruct (right_split s) as (x & l & e & Heq & Hend & Hl & He & Hnil).
  assert (ends_in_separator s = false -> back s (length s) (rev (spec_elements s))) as Hplain.
  { intros Hes. rewrite <- (Nat.add_0_r (length s)) at 1.
    apply (back_names (length s) s s [] [] 0); try done; [by rewrite app_nil_r|constructor|by rewrite andb_false_r|].
    right. left. by rewrite Nat.add_0_r, sep_at_last. }
  destruct (decide (e = [])) as [->|Hnee].
  2: { apply Hplain. rewrite Heq, app_assoc, ends_in_separator_app by done. by apply ends_in_clean. }
  rewrite app_nil_r in Heq. destruct (decide (l = [])) as [->|Hnel]; [by rewrite Heq, Hnil in Hne|].
  destruct (decide (x = [])) as [->|Hx].
  { cbn [app] in Heq. subst l. pose proof (begin_zero s [] Hl I) as Hle. rewrite app_nil_r in Hle. specialize (Hle H0).
    rewrite (seps_replicate s Hl) in Hnet, Hne |- *. destruct (length s) as [|[|[|]]]; [done| |done|lia]. cbn.
    apply (back_step _ _ (mkIterator root_element 0)); [done|cbn; lia|by constructor]. }
  pose proof (spec_snoc x l [] Hx Hend Hl Hnel ltac:(constructor)) as Hspec. rewrite app_nil_r, <- Heq in Hspec.
  pose proof (is_root_trailing x l Hx Hend Hl Hnel) as Hroot. rewrite <- Heq in Hroot.
  assert (length s = length x + length l) as Hlen by (by rewrite Heq, length_app).
  assert (1 <= length l) by (destruct l; [done|cbn; lia]).
  assert (forall n, net_name x && negb (n =? 0) = false -> n <= length l -> length x + n < length s ->
    back s (length x + n) (rev (spec_elements x))) as Hback.
  { intros n Hn Hle Hlt. apply (back_names (length x) s x l [] n); try done; [by rewrite app_nil_r|by left]. }
  rewrite Hspec. destruct (net_name x) eqn:Hnx.
  - rewrite decide_True by done. change (x :: [root_element]) with ([x] ++ [root_element]).
    rewrite <- (spec_net_name x Hnx), rev_app_distr. cbn [rev app].
    apply (back_step s _ (mkIterator root_element (length x))).
    + intros el. rewrite Hlen. destruct (length l) as [|m] eqn:Hm; [lia|]. rewrite Heq, <- (app_nil_r l).
      apply decrement_net_root; [done|done|lia|]. rewrite app_nil_r, <- Heq. right. right.
      by replace (length x + S m - 1) with (length s - 1) by lia.
    + cbn. lia.
    + cbn [m_pos]. rewrite <- (Nat.add_0_r (length x)). apply Hback; [done|lia|lia].
  - rewrite rev_app_distr. cbn [rev app last_element].
    apply (back_step s _ (mkIterator dot_path (length s - 1))).
    + intros el. unfold decrement. cbn [m_pos]. rewrite (proj2 (Nat.eqb_neq (length s) 0)) by lia. cbn [negb].
      rewrite Nat.eqb_refl, (proj2 (Nat.ltb_lt 1 _)) by (destruct x; [done|cbn in Hlen; lia]).
      rewrite sep_at_last by done. rewrite Heq, ends_in_separator_app, ends_in_seps by done. rewrite <- Heq, Hroot. done.
    + cbn. lia.
    + cbn [m_pos]. replace (length s - 1) with (length x + (length l - 1)) by lia. apply Hback; [done|lia|lia].
Qed.

(** ** Properties *)

(** C37. Reverse iteration from [rbegin()] to [rend()] passes the elements of forward iteration in the
    opposite order, and no assertion fails, for every path with at most two leading separators
    other than "//" itself. *)
Theorem reverse_iteration s :
  span is_directory_separator s <= 2 -> s <> net_prefix ->
  relements s = let* es := elements s in Ret (rev es).
Proof.
  intros Hsp Hnet. rewrite elements_spec. cbn [obind]. destruct (decide (s = [])) as [->|Hne]; [done|].
  pose proof (back_end s Hsp Hnet Hne) as Hb. pose proof (elements_from_length _ _ _ _ (elements_spec s)) as Hlen.
  rewrite <- length_rev in Hlen. unfold relements, rbegin, rend, make_reverse.
  pose proof (begin_short s Hsp Hne) as H0. assert (0 < length s) by (destruct s; [done|cbn; lia]).
  assert (iter_eqb (end_ s) (begin_ s) = false) as -> by (unfold iter_eqb; cbn [end_ m_pos]; rewrite H0; apply Nat.eqb_neq; lia).
  assert (iter_eqb (begin_ s) (begin_ s) = true) as -> by apply Nat.eqb_refl. cbn [negb].
  inversion Hb as [p Hp|p prev es Hd Hlt Hb' Hp Hes]; [lia|]. subst p. rewrite <- Hes in Hb, Hlen.
  unfold end_ at 1. rewrite Hd. cbn [obind]. unfold end_.
  exact (relements_back s _ (length s) [] (length s) (mkReverse (begin_ s) []) Hb eq_refl Hlen []).
Qed.

Lemma reverse_iteration_witness :
  relements (chars "//net//usr/lib/") = Ret (map chars ["."; "lib"; "usr"; "/"; "//net"]).
Proof. exact (reverse_iteration (chars "//net//usr/lib/") ltac:(vm_compute; lia) ltac:(discriminate)). Defined.

(** Of the path "//" the reverse iterator gives an empty element. *)
Example reverse_of_two_separators : relements (chars "//") = Ret [[]] /\ elements (chars "//") = Ret [chars "//"].
Proof. split; reflexivity. Qed.

(** With three leading separators it passes [rend()]: going back, the root directory is found at the
    first of them, while [begin()] is at the last. *)
Example reverse_passes_rend :
  map relements (map chars ["///"; "///a"; "////a/b"]) = replicate 3 (Fault AssertFailed).
Proof. reflexivity. Qed.

(** Stepping the reverse iterator back and forth. *)
Example reverse_decrement :
  (let* r := rbegin (chars "/a/b") in let* r := rincrement (chars "/a/b") r in rdecrement (chars "/a/b") r) = rbegin (chars "/a/b").
Proof. reflexivity. Qed.

End PathReverse.
