(* ===== verification/Backlog.v ===== *)
(** * BacklogWithTimeout

    [source/io/BacklogWithTimeout.h]: items with a last-activity time, kept in buckets that
    are re-examined by timers of halving periods, and reported once they have been inactive
    for the timeout.

    The object is a record; its timers are the list of their [timeout_ms()].  Times are 64-bit
    nanoseconds; the clock is a function from the number of the reading to its value.  The
    expiry callback is an arbitrary operation on the backlog and on a world [W] of the
    client's, because the code calls it in the middle of its own loops and it may call back
    into the object.  Moving objects is in [BacklogMove]. *)

From S2P Require Import Prelude.
Local Open Scope outcome_scope.

Module Backlog.

Section Model.
Context {T : Type} `{EqDecision T}.

Record t := mk {
  m_entity_timeout : Z;
  (** [m_expired_callback], [m_time_getter] and [m_clock_getter] are set (not null). *)
  m_callbacks_set : bool;
  m_timers : list Z;
  m_items : list (list T);
  (** The number of clock readings so far. *)
  clock_reads : nat
}.

Definition set_items (s : t) (items : list (list T)) : t :=
  mk (m_entity_timeout s) (m_callbacks_set s) (m_timers s) items (clock_reads s).
Definition tick (s : t) : t :=
  mk (m_entity_timeout s) (m_callbacks_set s) (m_timers s) (m_items s) (S (clock_reads s)).

(** ** Construction

    [do { ...; current_timeout /= 2; ++buckets_count; } while (current_timeout > 1);], at most
    one iteration per bit. *)
Fixpoint timer_periods (fuel : nat) (current_timeout : Z) : list Z :=
  match fuel with
  | O => []
  | S fuel =>
      current_timeout ::
      (if 1 <? current_timeout / 2 then timer_periods fuel (current_timeout / 2) else [])
  end.

Definition create (entity_timeout : Z) : t :=
  let timers := timer_periods 64 entity_timeout in
  mk (wrap 64 (entity_timeout * 1000000)) true timers (replicate (length timers) []) 0.

(** ** Buckets *)

(** [for (i = 1; i < m_timers.size(); ++i) if (time >= m_timers[i]->timeout_ms() * 1000000) return i;]. *)
Fixpoint find_bucket (timers : list Z) (i : nat) (time : Z) : option nat :=
  match timers with
  | [] => None
  | period :: timers => if wrap 64 (period * 1000000) <=? time then Some i else find_bucket timers (S i) time
  end.

Definition bucket_index_from_time (s : t) (time : Z) : outcome nat :=
  match m_timers s with
  | [] => Fault AssertFailed
  | front :: rest =>
      let back := List.last (m_timers s) front in
      if wrap 64 (front - time / 1000000) <=? back then Ret 0%nat
      else
        match find_bucket rest 1 time with
        | Some i => Ret i
        | None => Ret (length (m_timers s) - 1)%nat
        end
  end.

Definition stop (s : t) : t := mk 0 false [] [] (clock_reads s).

Section Operations.
Context {W : Type}.
Context (clock : nat -> Z) (time_getter : T -> Z).
Context (expired : W -> t -> T -> outcome (W * t)).

(** Calling [m_clock_getter] and [m_time_getter], null after [stop]. *)
Definition read_times (s : t) (item : T) : outcome (Z * Z * t) :=
  check m_callbacks_set s else NullDeref in
  Ret (clock (clock_reads s), time_getter item, tick s).

Definition push_item (s : t) (index : nat) (item : T) : outcome t :=
  match m_items s !! index with
  | None => Fault OutOfBounds
  | Some bucket => Ret (set_items s (<[index := bucket ++ [item]]> (m_items s)))
  end.

Definition add_item (w : W) (s : t) (item : T) : outcome (W * t * bool) :=
  let* (current_time, item_time, s) := read_times s item in
  if current_time <? item_time then Ret (w, s, false)
  else if bool_decide (m_timers s = []) then Ret (w, s, false)
  else
    let time_diff := wrap 64 (current_time - item_time) in
    if m_entity_timeout s <=? time_diff then
      let* (w, s) := expired w s item in
      Ret (w, s, negb (bool_decide (m_timers s = [])))
    else
      let* index := bucket_index_from_time s (wrap 64 (m_entity_timeout s - time_diff)) in
      let* s := push_item s index item in
      Ret (w, s, true).

(** The loop of [on_timer].  [current_bucket] is a reference to [m_items[timer_index]], read
    again in every iteration. *)
Fixpoint on_timer_loop (fuel : nat) (timer_index i : nat) (w : W) (s : t) (bucket_replacement : list T)
    : outcome (W * t) :=
  match m_items s !! timer_index with
  | None => Fault UseAfterFree
  | Some current_bucket =>
      match current_bucket !! i with
      | None => Ret (w, set_items s (<[timer_index := bucket_replacement]> (m_items s)))
      | Some item =>
          match fuel with
          | O => Fault FuelExhausted
          | S fuel =>
              let* (current_time, item_time, s) := read_times s item in
              let time_diff := wrap 64 (current_time - item_time) in
              if m_entity_timeout s <=? time_diff then
                let* (w, s) := expired w s item in
                if bool_decide (m_timers s = []) then Ret (w, s)
                else on_timer_loop fuel timer_index (S i) w s bucket_replacement
              else
                let* index := bucket_index_from_time s (wrap 64 (m_entity_timeout s - time_diff)) in
                if (index =? timer_index)%nat
                then on_timer_loop fuel timer_index (S i) w s (bucket_replacement ++ [item])
                else
                  let* s := push_item s index item in
                  on_timer_loop fuel timer_index (S i) w s bucket_replacement
          end
      end
  end.

Definition on_timer (fuel timer_index : nat) (w : W) (s : t) : outcome (W * t) :=
  on_timer_loop fuel timer_index 0 w s [].

End Operations.

(** [std::find] and [erase] of the first occurrence. *)
Fixpoint remove_first (item : T) (items : list T) : option (list T) :=
  match items with
  | [] => None
  | x :: items =>
      if decide (x = item) then Some items
      else match remove_first item items with Some items => Some (x :: items) | None => None end
  end.

(** The loop of [remove_item] over the buckets from [i] on, [n] timers to go. *)
Fixpoint remove_loop (n i : nat) (item : T) (items : list (list T)) : outcome (list (list T) * bool) :=
  match n with
  | O => Ret (items, false)
  | S n =>
      match items !! i with
      | None => Fault OutOfBounds
      | Some bucket =>
          match remove_first item bucket with
          | Some bucket => Ret (<[i := bucket]> items, true)
          | None => remove_loop n (S i) item items
          end
      end
  end.

Definition remove_item (s : t) (item : T) : outcome (t * bool) :=
  let* (items, removed) := remove_loop (length (m_timers s)) 0 item (m_items s) in
  Ret (set_items s items, removed).

End Model.
Arguments t T : clear implicits.

(** ** Timers *)

Lemma periods_nonempty fuel cur : fuel <> O -> timer_periods fuel cur <> [].
Proof. by destruct fuel. Qed.

Lemma periods_lookup fuel cur i p : 0 <= cur -> timer_periods fuel cur !! i = Some p -> p = cur / 2 ^ Z.of_nat i.
Proof.
  revert cur i. induction fuel as [|fuel IH]; intros cur i Hc H; [done|]. cbn [timer_periods] in H.
  destruct i as [|i]; [injection H as <-; by rewrite Z.div_1_r|]. cbn in H.
  destruct (1 <? cur / 2); [|done]. apply IH in H; [|by apply Z.div_pos].
  rewrite H, Z.div_div by lia. f_equal. rewrite Nat2Z.inj_succ, Z.pow_succ_r by lia. lia.
Qed.

(** The halving stops by itself: the last period is below 4, whatever the timeout. *)
Lemma periods_last fuel cur d :
  0 <= cur < 2 ^ Z.of_nat fuel -> (0 < fuel)%nat -> List.last (timer_periods fuel cur) d <= 3.
Proof.
  revert cur d. induction fuel as [|fuel IH]; intros cur d Hc Hf; [lia|]. cbn [timer_periods].
  rewrite Nat2Z.inj_succ, Z.pow_succ_r in Hc by lia. pose proof (Z.div_mod cur 2). pose proof (Z.mod_pos_bound cur 2).
  destruct (Z.ltb_spec 1 (cur / 2)) as [Hlt|Hge]; [|cbn; lia].
  destruct fuel as [|fuel]; [cbn in Hc; lia|].
  set (rest := timer_periods (S fuel) (cur / 2)).
  assert (List.last (cur :: rest) d = List.last rest d) as -> by (unfold rest; by destruct (timer_periods (S fuel) (cur / 2)) eqn:E).
  apply IH; lia.
Qed.

Lemma find_bucket_spec timers i time :
  match find_bucket timers i time with
  | Some j => (i <= j < i + length timers)%nat /\
      (exists p, timers !! (j - i)%nat = Some p /\ wrap 64 (p * 1000000) <= time) /\
      (forall k p, (k < j - i)%nat -> timers !! k = Some p -> time < wrap 64 (p * 1000000))
  | None => forall k p, timers !! k = Some p -> time < wrap 64 (p * 1000000)
  end.
Proof.
  revert i. induction timers as [|q timers IH]; intros i; cbn [find_bucket]; [done|].
  destruct (Z.leb_spec (wrap 64 (q * 1000000)) time) as [Hle|Hgt].
  - split_and!; [lia|simpl; lia| |lia]. exists q. rewrite Nat.sub_diag. done.
  - specialize (IH (S i)). destruct (find_bucket timers (S i) time) as [j|].
    + destruct IH as (H1 & (p & Hp & Hpt) & H3). split_and!; [lia|simpl; lia| |].
      * exists p. replace (j - i)%nat with (S (j - S i)) by lia. done.
      * intros [|k] p' Hk Hk'; cbn in Hk'; [by simplify_eq|]. apply (H3 k p'); [lia|done].
    + intros [|k] p Hk; cbn in Hk; [by simplify_eq|]. by apply (IH k p).
Qed.

Example periods : timer_periods 64 250 = [250; 125; 62; 31; 15; 7; 3].
Proof. reflexivity. Qed.

Section Facts.
Context {T : Type} `{EqDecision T}.
Implicit Types (s : t T) (items : list (list T)) (x : T).

(** An active backlog: at least one timer, a bucket for each, callbacks in place. *)
Definition active s : Prop :=
  m_timers s <> [] /\ length (m_items s) = length (m_timers s) /\ m_callbacks_set s = true.

Definition stopped s : Prop := m_timers s = [] /\ m_items s = [] /\ m_callbacks_set s = false.

Lemma bucket_index_range s time :
  m_timers s <> [] -> exists i, bucket_index_from_time s time = Ret i /\ (i < length (m_timers s))%nat.
Proof.
  intros Hne. unfold bucket_index_from_time. destruct (m_timers s) as [|front rest]; [done|].
  destruct (_ <=? _); [exists 0%nat; split; [done|simpl; lia]|].
  pose proof (find_bucket_spec rest 1 time) as Hf. destruct (find_bucket rest 1 time) as [j|].
  - exists j. split; [done|]. simpl. lia.
  - eexists. split; [done|]. simpl. lia.
Qed.

Lemma active_insert s i b : active s -> active (set_items s (<[i := b]> (m_items s))).
Proof. intros (H1 & H2 & H3). split_and!; [done|cbn; by rewrite length_insert|done]. Qed.

(** ** Contents of the buckets *)

Lemma concat_insert (items : list (list T)) i b : (i < length items)%nat ->
  concat (<[i := b]> items) ≡ₚ b ++ concat (<[i := []]> items).
Proof.
  revert i. induction items as [|c items IH]; intros i Hi; simpl in Hi; [lia|].
  destruct i as [|i]; cbn; [done|]. rewrite IH by lia. apply Permutation_app_swap_app.
Qed.

Lemma concat_push items idx j b c x :
  j <> idx -> items !! j = Some b ->
  concat (<[idx := c]> (<[j := b ++ [x]]> items)) ≡ₚ x :: concat (<[idx := c]> items).
Proof.
  intros Hne Hj. rewrite list_insert_insert_ne by done. pose proof (lookup_lt_Some _ _ _ Hj) as Hlt.
  rewrite concat_insert by (by rewrite length_insert). rewrite <- app_assoc. cbn [app].
  rewrite <- Permutation_middle. f_equiv. rewrite <- concat_insert by (by rewrite length_insert).
  rewrite list_insert_id; [done|]. by rewrite list_lookup_insert_ne.
Qed.

(** The callback that only records the items it is given. *)
Definition record (w : list T) s x : outcome (list T * t T) := Ret (w ++ [x], s).

Section Clock.
Context (clock : nat -> Z) (time_getter : T -> Z).

Definition is_expired (timeout : Z) (reading : nat) x : bool :=
  timeout <=? wrap 64 (clock reading - time_getter x).

(** The items of a bucket found expired when they are examined one clock reading after the
    other. *)
Fixpoint expired_in (timeout : Z) (reading : nat) (bucket : list T) : list T :=
  match bucket with
  | [] => []
  | x :: bucket =>
      if is_expired timeout reading x then x :: expired_in timeout (S reading) bucket
      else expired_in timeout (S reading) bucket
  end.

Lemma on_timer_loop_conserves fuel idx pre rest w s repl :
  active s -> m_items s !! idx = Some (pre ++ rest) -> (length rest <= fuel)%nat ->
  exists s', on_timer_loop clock time_getter record fuel idx (length pre) w s repl =
      Ret (w ++ expired_in (m_entity_timeout s) (clock_reads s) rest, s') /\
    active s' /\ m_timers s' = m_timers s /\ m_entity_timeout s' = m_entity_timeout s /\
    concat (<[idx := rest ++ repl]> (m_items s)) ≡ₚ
      expired_in (m_entity_timeout s) (clock_reads s) rest ++ concat (m_items s').
Proof.
  revert pre fuel w s repl. induction rest as [|x rest IH]; intros pre fuel w s repl Hact Hidx Hfuel.
  - destruct fuel; cbn [on_timer_loop expired_in]; rewrite Hidx, lookup_app_r, Nat.sub_diag by lia; cbn [lookup];
      (eexists; split; [by rewrite app_nil_r|]); (split_and!; [by apply active_insert|done|done|done]).
  - destruct fuel as [|fuel]; [simpl in Hfuel; lia|]. cbn [on_timer_loop expired_in].
    rewrite Hidx, lookup_app_r, Nat.sub_diag by lia. cbn [lookup list_lookup].
    assert (m_callbacks_set s = true) as Hcb by apply Hact. unfold read_times. rewrite Hcb. cbn [obind].
    change (m_entity_timeout (tick s) <=? wrap 64 (clock (clock_reads s) - time_getter x)) with
      (is_expired (m_entity_timeout s) (clock_reads s) x).
    assert (active (tick s)) as Hact' by done. assert (Hidx2 := Hidx).
    replace (pre ++ x :: rest) with ((pre ++ [x]) ++ rest) in Hidx2 by (by rewrite <- app_assoc).
    replace (S (length pre)) with (length (pre ++ [x])) by (rewrite length_app; simpl; lia).
    pose proof (lookup_lt_Some _ _ _ Hidx) as Hlt. simpl in Hfuel.
    destruct (is_expired (m_entity_timeout s) (clock_reads s) x).
    + cbn [record obind]. rewrite bool_decide_false by apply Hact.
      destruct (IH (pre ++ [x]) fuel (w ++ [x]) (tick s) repl Hact' Hidx2 ltac:(lia)) as (s' & -> & Ha & Ht & He & Hp).
      exists s'. rewrite <- app_assoc. split_and!; try done. cbn [app].
      rewrite concat_insert by done. cbn [app]. f_equiv. rewrite <- concat_insert by done. exact Hp.
    + destruct (bucket_index_range (tick s) (wrap 64 (m_entity_timeout (tick s) - wrap 64 (clock (clock_reads s) - time_getter x))))
        as (j & -> & Hj); [apply Hact|]. cbn [obind].
      destruct (Nat.eqb_spec j idx) as [->|Hne].
      * destruct (IH (pre ++ [x]) fuel w (tick s) (repl ++ [x]) Hact' Hidx2 ltac:(lia)) as (s' & -> & Ha & Ht & He & Hp).
        exists s'. split_and!; try done. etransitivity; [|exact Hp]. rewrite (concat_insert _ idx ((x :: rest) ++ repl)) by done.
        rewrite (concat_insert _ idx (rest ++ repl ++ [x])) by done. apply Permutation_app_tail.
        rewrite app_assoc. apply Permutation_cons_append.
      * assert (exists b, m_items s !! j = Some b) as (b & Hb).
        { apply lookup_lt_is_Some. destruct Hact as (_ & -> & _). done. }
        unfold push_item. change (m_items (tick s)) with (m_items s). rewrite Hb. cbn [obind].
        set (s2 := set_items (tick s) (<[j:=b ++ [x]]> (m_items s))).
        destruct (IH (pre ++ [x]) fuel w s2 repl) as (s' & -> & Ha & Ht & He & Hp).
        { by apply (active_insert (tick s)). }
        { cbn. by rewrite list_lookup_insert_ne. }
        { lia. }
        exists s'. split_and!; try done. etransitivity; [|exact Hp]. unfold s2. cbn [m_items set_items].
        rewrite concat_push by done. rewrite (concat_insert _ idx ((x :: rest) ++ repl)) by done.
        rewrite (concat_insert _ idx (rest ++ repl)) by done. done.
Qed.

(** An item that is neither from the future nor expired goes into a bucket, whatever the callback. *)
Lemma add_item_pushes {W : Type} (expired : W -> t T -> T -> outcome (W * t T)) w s x :
  active s -> time_getter x <= clock (clock_reads s) ->
  is_expired (m_entity_timeout s) (clock_reads s) x = false ->
  exists s', add_item clock time_getter expired w s x = Ret (w, s', true) /\
    active s' /\ m_timers s' = m_timers s /\ m_entity_timeout s' = m_entity_timeout s /\
    concat (m_items s') ≡ₚ x :: concat (m_items s).
Proof.
  intros (H1 & H2 & H3) Hle Hexp. unfold add_item, read_times, is_expired in *. rewrite H3. cbn [obind].
  rewrite (proj2 (Z.ltb_ge _ _)) by done. change (m_timers (tick s)) with (m_timers s). rewrite bool_decide_false by done.
  change (m_entity_timeout (tick s)) with (m_entity_timeout s). rewrite Hexp.
  destruct (bucket_index_range (tick s) (wrap 64 (m_entity_timeout s - wrap 64 (clock (clock_reads s) - time_getter x))))
    as (j & -> & Hj); [done|]. cbn [obind]. unfold push_item. change (m_items (tick s)) with (m_items s).
  assert (exists b, m_items s !! j = Some b) as (b & Hb) by (apply lookup_lt_is_Some; by rewrite H2).
  rewrite Hb. cbn [obind]. eexists. split; [done|]. split; [by apply (active_insert (tick s))|].
  split; [done|]. split; [done|]. cbn [m_items set_items]. pose proof (lookup_lt_Some _ _ _ Hb) as Hlt.
  rewrite concat_insert by done. rewrite <- app_assoc. cbn [app]. rewrite <- Permutation_middle. f_equiv.
  rewrite <- concat_insert by done. by rewrite list_insert_id.
Qed.

Lemma add_item_record w s x :
  active s ->
  let now := clock (clock_reads s) in
  if now <? time_getter x then add_item clock time_getter record w s x = Ret (w, tick s, false)
  else if is_expired (m_entity_timeout s) (clock_reads s) x
  then add_item clock time_getter record w s x = Ret (w ++ [x], tick s, true)
  else exists s', add_item clock time_getter record w s x = Ret (w, s', true) /\
         active s' /\ m_timers s' = m_timers s /\ concat (m_items s') ≡ₚ x :: concat (m_items s).
Proof.
  intros Hact. cbn zeta. destruct (Z.ltb_spec (clock (clock_reads s)) (time_getter x)) as [Hlt|Hge].
  { unfold add_item, read_times. destruct Hact as (_ & _ & ->). cbn [obind]. by rewrite (proj2 (Z.ltb_lt _ _)). }
  destruct (is_expired (m_entity_timeout s) (clock_reads s) x) eqn:He.
  - destruct Hact as (H1 & _ & H3). unfold add_item, read_times, is_expired in *. rewrite H3. cbn [obind].
    rewrite (proj2 (Z.ltb_ge _ _)) by done. change (m_timers (tick s)) with (m_timers s). rewrite bool_decide_false by done.
    change (m_entity_timeout (tick s)) with (m_entity_timeout s). rewrite He. cbn. by rewrite bool_decide_false.
  - destruct (add_item_pushes record w s x Hact Hge He) as (s' & H & Ha & Ht & _ & Hp). by exists s'.
Qed.

(** What has been reported stays reported. *)
Lemma on_timer_loop_prefix fuel : forall idx i seen s repl reported s',
  on_timer_loop clock time_getter record fuel idx i seen s repl = Ret (reported, s') -> seen `prefix_of` reported.
Proof.
  induction fuel as [|fuel IH]; intros idx i seen s repl reported s'; cbn [on_timer_loop]; destruct (m_items s !! idx) as [B|]; try done; destruct (B !! i) as [x|]; try done.
  1,3: by intros [= <- _].
  unfold read_times. destruct (m_callbacks_set s); [|done]. cbn [obind]. destruct (_ <=? _).
  - cbn [record obind]. destruct (bool_decide _); [intros [= <- _]; by eexists|]. intros H. etransitivity; [|by eapply IH]. by eexists.
  - destruct (bucket_index_from_time _ _) as [j|]; [|done]. cbn [obind]. destruct (j =? idx)%nat; [by apply IH|]. unfold push_item. destruct (_ !! j); [|done]. apply IH.
Qed.

(** A timer firing with any callback that leaves the backlog alone: the callback is called for
    exactly the reported items, in order, and the buckets end up the same.  [P w seen] is what the
    client knows after [seen] has been reported; no item of a bucket without duplicates is
    reported twice.  A callback that faults with [f] for the items that are [bad] ends the firing when
    the first of them is reported. *)
Lemma on_timer_loop_calls {W : Type} (expired : W -> t T -> T -> outcome (W * t T)) (P : W -> list T -> Prop) (B : list T) (bad : T -> Prop) (f : fault) :
  NoDup B ->
  (forall w seen x s, active s -> x ∈ B -> x ∉ seen -> P w seen ->
     (exists w', expired w s x = Ret (w', s) /\ P w' (seen ++ [x])) \/ expired w s x = Fault f /\ bad x) ->
  forall fuel idx i w s repl seen reported s',
    active s -> m_items s !! idx = Some B -> (forall y, y ∈ seen -> y ∈ take i B) -> P w seen ->
    on_timer_loop clock time_getter record fuel idx i seen s repl = Ret (reported, s') ->
    (exists w', on_timer_loop clock time_getter expired fuel idx i w s repl = Ret (w', s') /\ P w' reported) \/
    (on_timer_loop clock time_getter expired fuel idx i w s repl = Fault f /\ exists x, x ∈ reported /\ bad x).
Proof.
  intros HB Hcb. induction fuel as [|fuel IH]; intros idx i w s repl seen reported s' Hact Hidx Hseen HP;
    cbn [on_timer_loop]; rewrite Hidx; destruct (B !! i) as [x|] eqn:Hx; try done.
  1,3: intros [= <- <-]; left; by exists w.
  assert (x ∉ take i B) as Hni.
  { intros (j & Hj)%list_elem_of_lookup. apply lookup_take_Some in Hj as [Hj Hlt].
    pose proof (NoDup_lookup _ _ _ _ HB Hj Hx). lia. }
  assert (forall y, y ∈ seen -> y ∈ take (S i) B) as Hseen' by (intros y Hy; rewrite (take_S_r _ _ _ Hx); apply elem_of_app; left; by apply Hseen).
  assert (active (tick s)) as Hact' by done.
  unfold read_times. destruct (m_callbacks_set s); [|done]. cbn [obind]. destruct (_ <=? _).
  - destruct (Hcb w seen x (tick s) Hact') as [(w' & -> & HP')|[-> Hbad]]; [by eapply list_elem_of_lookup_2|by intros ?%Hseen|done| |].
    + cbn [record obind]. rewrite bool_decide_false by apply Hact. intros H. eapply IH; [exact Hact'|done| |exact HP'|exact H].
      intros y [Hy|Hy]%elem_of_app; [by apply Hseen'|]. apply list_elem_of_singleton in Hy as ->.
      rewrite (take_S_r _ _ _ Hx). apply elem_of_app. right. by left.
    + cbn [record obind]. rewrite bool_decide_false by apply Hact. intros H. right. split; [done|]. exists x. split; [|done].
      destruct (on_timer_loop_prefix _ _ _ _ _ _ _ _ H) as [l ->]. apply elem_of_app. left. apply elem_of_app. right. by left.
  - destruct (bucket_index_from_time _ _) as [j|]; [|done]. cbn [obind].
    destruct (Nat.eqb_spec j idx) as [->|Hne]; [intros H; by eapply IH|].
    unfold push_item. change (m_items (tick s)) with (m_items s).
    destruct (m_items s !! j) as [b|] eqn:Hj; [|done]. cbn [obind]. intros H.
    eapply IH; [by apply (active_insert (tick s))| |exact Hseen'|exact HP|exact H].
    cbn. by rewrite list_lookup_insert_ne.
Qed.

End Clock.

Lemma remove_first_spec x b :
  match remove_first x b with Some b' => b ≡ₚ x :: b' | None => x ∉ b end.
Proof.
  induction b as [|y b IH]; cbn [remove_first]; [apply not_elem_of_nil|].
  destruct (decide (y = x)) as [->|Hne]; [done|].
  destruct (remove_first x b) as [b'|]; [rewrite IH; constructor|]. apply not_elem_of_cons. by split.
Qed.

Lemma remove_loop_spec n i x items :
  (i + n = length items)%nat ->
  exists items' b, remove_loop n i x items = Ret (items', b) /\ length items' = length items /\
    if b then concat items ≡ₚ x :: concat items' else items' = items /\ x ∉ concat (drop i items).
Proof.
  revert i. induction n as [|n IH]; intros i Hn; cbn [remove_loop].
  { exists items, false. split_and!; [done|done|done|]. rewrite drop_ge by lia. apply not_elem_of_nil. }
  destruct (items !! i) as [bucket|] eqn:Hi; [|apply lookup_ge_None in Hi; lia].
  pose proof (remove_first_spec x bucket) as Hf. destruct (remove_first x bucket) as [b'|].
  - exists (<[i := b']> items), true. split_and!; [done|by rewrite length_insert|].
    pose proof (lookup_lt_Some _ _ _ Hi) as Hlt. rewrite <- (list_insert_id items i bucket Hi) at 1.
    rewrite (concat_insert items i bucket), (concat_insert items i b'), Hf by done. done.
  - destruct (IH (S i) ltac:(lia)) as (items' & b & -> & Hl & Hb). exists items', b. split_and!; [done|done|].
    destruct b; [done|]. destruct Hb as [-> Hb]. split; [done|]. rewrite (drop_S items bucket i Hi).
    cbn. by apply not_elem_of_app.
Qed.

Lemma remove_item_spec s x :
  active s ->
  exists s' removed, remove_item s x = Ret (s', removed) /\ active s' /\
    if removed : bool then concat (m_items s) ≡ₚ x :: concat (m_items s')
    else m_items s' = m_items s /\ x ∉ concat (m_items s).
Proof.
  intros (H1 & H2 & H3). unfold remove_item.
  destruct (remove_loop_spec (length (m_timers s)) 0 x (m_items s) ltac:(lia)) as (items' & b & -> & Hl & Hb).
  cbn [obind]. eexists _, b. split; [done|]. split; [split_and!; [exact H1|cbn; congruence|exact H3]|].
  destruct b; [done|]. rewrite drop_0 in Hb. done.
Qed.

(** The callback of a client that removes the expired item again from inside the callback,
    as [UdpPeer::close] does through [UdpServer::close_peer]. *)
Definition record_and_remove (w : list T) s x : outcome (list T * t T) :=
  match remove_item s x with
  | Ret (s, _) => Ret (w ++ [x], s)
  | Fault f => Fault f
  end.

(** Conservation: when a timer fires, with a callback that leaves the backlog alone, the
    call ends within as many iterations as the bucket has items, reports exactly the items
    of its bucket whose inactivity has reached the timeout when they are examined, in order
    and once each, and keeps all other items of all buckets. *)
Theorem on_timer_conserves clock time_getter fuel idx bucket w s :
  active s -> m_items s !! idx = Some bucket -> (length bucket <= fuel)%nat ->
  let reported := expired_in clock time_getter (m_entity_timeout s) (clock_reads s) bucket in
  exists s', on_timer clock time_getter record fuel idx w s = Ret (w ++ reported, s') /\ active s' /\
    concat (m_items s) ≡ₚ reported ++ concat (m_items s').
Proof.
  intros Hact Hidx Hfuel. cbn zeta. unfold on_timer.
  destruct (on_timer_loop_conserves clock time_getter fuel idx [] bucket w s [] Hact Hidx Hfuel)
    as (s' & Hrun & Ha & _ & _ & Hp).
  exists s'. split_and!; [exact Hrun|exact Ha|]. rewrite app_nil_r, list_insert_id in Hp by done. exact Hp.
Qed.

(** [add_item]: an item from the future is refused, an item already inactive for the
    timeout is reported at once, and any other item is added to the buckets, once. *)
Theorem add_item_cases clock time_getter w s x :
  active s ->
  if clock (clock_reads s) <? time_getter x
  then add_item clock time_getter record w s x = Ret (w, tick s, false)
  else if is_expired clock time_getter (m_entity_timeout s) (clock_reads s) x
  then add_item clock time_getter record w s x = Ret (w ++ [x], tick s, true)
  else exists s', add_item clock time_getter record w s x = Ret (w, s', true) /\ active s' /\
         concat (m_items s') ≡ₚ x :: concat (m_items s).
Proof.
  intros Hact. pose proof (add_item_record clock time_getter w s x Hact) as H. cbn zeta in H.
  destruct (_ <? _); [done|]. destruct (is_expired _ _ _ _ _); [done|].
  destruct H as (s' & H1 & H2 & _ & H3). by exists s'.
Qed.

(** [remove_item] removes exactly one occurrence of the item if it is in some bucket and
    reports it; otherwise it changes nothing and returns false. *)
Theorem remove_item_correct s x :
  active s ->
  exists s' removed, remove_item s x = Ret (s', removed) /\ active s' /\
    if removed : bool then concat (m_items s) ≡ₚ x :: concat (m_items s')
    else m_items s' = m_items s /\ x ∉ concat (m_items s).
Proof. apply remove_item_spec. Qed.

(** A client that removes the expired item from inside the expiry callback loses the
    item that follows it in the bucket: after the timer has fired it is in no bucket and
    has not been reported. *)
Theorem reentrant_removal_loses_item clock time_getter w s x y rest :
  active s -> m_items s = [x; y] :: rest -> x <> y -> (y ∉ concat rest) ->
  is_expired clock time_getter (m_entity_timeout s) (clock_reads s) x = true ->
  exists s', on_timer clock time_getter record_and_remove 2 0 w s = Ret (w ++ [x], s') /\
    y ∉ concat (m_items s').
Proof.
  intros (H1 & H2 & H3) Hi Hxy Hy Hexp. unfold on_timer. cbn [on_timer_loop]. rewrite Hi. cbn [lookup list_lookup].
  unfold read_times. rewrite H3. cbn [obind].
  change (m_entity_timeout (tick s) <=? wrap 64 (clock (clock_reads s) - time_getter x)) with
    (is_expired clock time_getter (m_entity_timeout s) (clock_reads s) x). rewrite Hexp.
  unfold record_and_remove, remove_item. cbn [m_timers tick m_items]. rewrite Hi.
  destruct (m_timers s) as [|p ps] eqn:Et; [done|]. cbn [length remove_loop lookup list_lookup].
  cbn [remove_first]. rewrite decide_True by done. cbn [obind set_items m_timers tick].
  rewrite Et, bool_decide_false by done. cbn [m_items list_insert insert lookup list_lookup].
  eexists. split; [reflexivity|]. cbn. done.
Qed.

(** After [stop], [add_item] calls a null function pointer: the test for a stopped
    backlog comes after the clock has been read. *)
Theorem add_after_stop_faults {W : Type} clock time_getter (expired : W -> t T -> T -> outcome (W * t T)) w s x :
  add_item clock time_getter expired w (stop s) x = Fault NullDeref.
Proof. reflexivity. Qed.

End Facts.

(** ** Timers are frequent enough *)

Lemma wrap64_small z : 0 <= z < 2 ^ 64 -> wrap 64 z = z.
Proof. intros. by apply wrap_small. Qed.

Lemma lookup_last {A} (x d : A) l : (x :: l) !! (length (x :: l) - 1)%nat = Some (List.last (x :: l) d).
Proof.
  revert x. induction l as [|y l IH]; intros x; [done|]. specialize (IH y). cbn [length] in *.
  replace (S (S (length l)) - 1)%nat with (S (S (length l) - 1)) by lia. exact IH.
Qed.

(** C33. The bucket an item is put in is examined in time: for a timeout of [T] ms and an item
    that expires in [r] ns, the period of the timer of its bucket is at most 3 ms longer than
    [r], so with timers that fire every period the item is examined again no later than
    3 ms after it has expired. *)
Theorem bucket_examined_in_time {A : Type} timeout r i p :
  0 <= timeout -> timeout * 1000000 < 2 ^ 64 -> 0 <= r <= timeout * 1000000 ->
  bucket_index_from_time (T := A) (create timeout) r = Ret i ->
  m_timers (T := A) (create timeout) !! i = Some p ->
  p * 1000000 <= r + 3000000.
Proof.
  intros Ht Hfit Hr Hi Hp. unfold create in *. cbn [m_timers] in *.
  remember (timer_periods 64 timeout) as periods eqn:Eperiods.
  assert (forall k q, periods !! k = Some q -> q = timeout / 2 ^ Z.of_nat k /\ 0 <= q <= timeout) as Hrange.
  { intros k q Hk. rewrite Eperiods in Hk. apply periods_lookup in Hk as ->; [|done].
    assert (0 < 2 ^ Z.of_nat k) by (apply Z.pow_pos_nonneg; lia).
    split_and!; [done|by apply Z.div_pos|]. rewrite <- (Z.div_1_r timeout) at 2. apply Z.div_le_compat_l; lia. }
  assert (forall d, List.last periods d <= 3) as Hlast by (intros; rewrite Eperiods; apply periods_last; simpl; lia).
  clear Eperiods. unfold bucket_index_from_time in Hi. cbn [m_timers] in Hi. destruct periods as [|front rest]; [done|].
  destruct (Hrange 0%nat front eq_refl) as [Hfront _]. rewrite Z.div_1_r in Hfront. subst front.
  pose proof (Z.div_mod r 1000000). pose proof (Z.mod_pos_bound r 1000000).
  assert (r / 1000000 <= timeout) by (apply Z.div_le_upper_bound; lia).
  assert (0 <= r / 1000000) by (apply Z.div_pos; lia).
  rewrite wrap64_small in Hi by lia. specialize (Hlast timeout).
  destruct (Z.leb_spec (timeout - r / 1000000) (List.last (timeout :: rest) timeout)) as [Hle|Hgt].
  { injection Hi as <-. injection Hp as <-. lia. }
  pose proof (find_bucket_spec rest 1 r) as Hf. destruct (find_bucket rest 1 r) as [j|].
  - injection Hi as <-. destruct Hf as (Hj & (q & Hq & Hqr) & _).
    assert (p = q) as ->.
    { destruct j as [|j]; [lia|]. rewrite Nat.sub_succ, Nat.sub_0_r in Hq. change (rest !! j = Some p) in Hp.
      rewrite Hp in Hq. by injection Hq. }
    destruct (Hrange _ _ Hp) as [_ Hq']. rewrite wrap64_small in Hqr by lia. lia.
  - injection Hi as <-. pose proof (lookup_last timeout timeout rest) as Hl. cbn [length] in Hl.
    replace (length rest - 0)%nat with (S (length rest) - 1)%nat in Hp by lia. rewrite Hl in Hp.
    remember (List.last (timeout :: rest) timeout) as back. injection Hp as <-. lia.
Qed.


(** ** Witnesses *)

Definition sample : t nat := set_items (create 8) [[1; 2]; [3]; []]%nat.
Definition sample_clock (n : nat) : Z := 9000000 + Z.of_nat n.
Definition sample_time (x : nat) : Z := match x with 1%nat => 0 | 2%nat => 500000 | _ => 8000000 end.

Lemma sample_active : active sample.
Proof. by split_and!. Qed.

Lemma on_timer_conserves_witness :
  exists s', on_timer sample_clock sample_time record 2 0 [] sample = Ret ([1; 2]%nat, s') /\ active s' /\
    concat (m_items sample) ≡ₚ [1; 2]%nat ++ concat (m_items s').
Proof.
  exact (on_timer_conserves sample_clock sample_time 2 0 [1; 2]%nat [] sample sample_active eq_refl (le_n 2)).
Defined.

Lemma add_item_cases_witness :
  exists s', add_item sample_clock sample_time record [] sample 5%nat = Ret ([], s', true) /\ active s' /\
    concat (m_items s') ≡ₚ 5%nat :: concat (m_items sample).
Proof. exact (add_item_cases sample_clock sample_time [] sample 5%nat sample_active). Defined.

Lemma remove_item_correct_witness :
  exists s' removed, remove_item sample 3%nat = Ret (s', removed) /\ active s' /\
    if removed : bool then concat (m_items sample) ≡ₚ 3%nat :: concat (m_items s')
    else m_items s' = m_items sample /\ 3%nat ∉ concat (m_items sample).
Proof. exact (remove_item_correct sample 3%nat sample_active). Defined.

Lemma reentrant_removal_loses_item_witness :
  exists s', on_timer sample_clock sample_time record_and_remove 2 0 [] sample = Ret ([1%nat], s') /\
    2%nat ∉ concat (m_items s').
Proof.
  refine (reentrant_removal_loses_item sample_clock sample_time [] sample 1%nat 2%nat [[3%nat]; []] sample_active eq_refl _ _ eq_refl).
  - discriminate.
  - refine (bool_decide_unpack _ _). vm_compute. exact I.
Defined.

Lemma bucket_examined_in_time_witness : 31 * 1000000 <= 40000000 + 3000000.
Proof.
  refine (bucket_examined_in_time (A := nat) 250 40000000 3 31 _ _ _ _ _); try lia; reflexivity.
Defined.

End Backlog.
