(* ===== verification/BacklogMove.v ===== *)
(** * Moving a backlog

    The move operations, [refresh_timer_backlog_pointers], [TimerData] and the destructor of
    [source/io/BacklogWithTimeout.h], over the objects and timers in memory.  A timer's user data points to a
    [TimerData] with the index of its bucket and the address of its backlog; the timers belong to the
    vector of one backlog and are deleted, with their data, when they leave it.  The behaviour of the
    backlog itself is in [Backlog]. *)

From S2P Require Import Prelude Backlog.
Local Open Scope outcome_scope.
Local Open Scope record_scope.

Module BacklogMove.
Import Backlog.

Section Moves.
Context {T : Type} `{EqDecision T}.

Record TimerData := mkData { index : nat; backlog : nat }.

(** An object: its members as [Backlog] has them, and the timers of [m_timers] themselves. *)
Record Object := mkObject { body : Backlog.t T; timer_ids : list nat }.

Record Memory := mkMemory { objects : gmap nat Object; timers : gmap nat TimerData; next_timer : nat }.

#[export] Instance memory_settable : Settable Memory := settable! mkMemory <objects; timers; next_timer>.

Definition delete_timers (ids : list nat) (m : Memory) : Memory := m <| timers ::= fun t => foldr delete t ids |>.

(** Setting the data of timers, from index [i] on. *)
Fixpoint set_data (ids : list nat) (i a : nat) (t : gmap nat TimerData) : gmap nat TimerData :=
  match ids with
  | [] => t
  | id :: ids => <[id := mkData i a]> (set_data ids (S i) a t)
  end.

(** The timers of a new object at address [a]: one for each period. *)
Definition start_timers (a : nat) (b : Backlog.t T) (m : Memory) : Memory :=
  let ids := seq (next_timer m) (length (m_timers b)) in
  m <| objects ::= insert a (mkObject b ids) |> <| timers ::= set_data ids 0 a |> <| next_timer ::= fun n => (n + length ids)%nat |>.

(** The constructor. *)
Definition construct (a : nat) (entity_timeout : Z) (m : Memory) : Memory := start_timers a (create entity_timeout) m.

(** [refresh_timer_backlog_pointers]. *)
Definition refresh_timer_backlog_pointers (a : nat) (ids : list nat) (m : Memory) : outcome Memory :=
  if bool_decide (Forall (fun id => is_Some (timers m !! id)) ids)
  then Ret (m <| timers ::= fun t => foldr (fun id t => alter (fun d => mkData (index d) a) id t) t ids |>)
  else Fault NullDeref.

(** What is left of an object that was moved from: the functions and vectors are empty. *)
Definition moved_from (b : Backlog.t T) : Backlog.t T := mk (m_entity_timeout b) false [] [] (clock_reads b).

(** The move constructor, of the object at [from], at address [a]. *)
Definition move_construct (a from : nat) (m : Memory) : outcome Memory :=
  match objects m !! from with
  | None => Fault UseAfterFree
  | Some o =>
      let m := m <| objects ::= fun os => <[a := o]> (<[from := mkObject (moved_from (body o)) []]> os) |> in
      refresh_timer_backlog_pointers a (timer_ids o) m
  end.

(** [operator=(BacklogWithTimeout&&)] between two objects: the timers that the target had are deleted. *)
Definition move_assign (a from : nat) (m : Memory) : outcome Memory :=
  match objects m !! a, objects m !! from with
  | Some old, Some o =>
      let m := delete_timers (timer_ids old) m in
      let m := m <| objects ::= fun os => <[a := o]> (<[from := mkObject (moved_from (body o)) []]> os) |> in
      refresh_timer_backlog_pointers a (timer_ids o) m
  | _, _ => Fault UseAfterFree
  end.

Definition stop_at (a : nat) (m : Memory) : outcome Memory :=
  match objects m !! a with
  | None => Fault UseAfterFree
  | Some o => Ret (delete_timers (timer_ids o) m <| objects ::= insert a (mkObject (stop (body o)) []) |>)
  end.

Definition destroy (a : nat) (m : Memory) : outcome Memory :=
  match objects m !! a with
  | None => Fault UseAfterFree
  | Some o => Ret (delete_timers (timer_ids o) m <| objects ::= delete a |>)
  end.

(** A timer fires: [on_timer] finds the backlog through the timer's data. *)
Definition fired (id : nat) (m : Memory) : outcome (Object * TimerData) :=
  match timers m !! id with
  | None => Fault UseAfterFree
  | Some d =>
      match objects m !! backlog d with
      | None => Fault UseAfterFree
      | Some o => Ret (o, d)
      end
  end.

(** ** Invariant *)

(** The timers of an object carry its address and their own positions, and every timer belongs to an object. *)
Record wf (m : Memory) : Prop := {
  wf_length a o : objects m !! a = Some o -> length (timer_ids o) = length (m_timers (body o));
  wf_owned a o i id : objects m !! a = Some o -> timer_ids o !! i = Some id -> timers m !! id = Some (mkData i a);
  wf_owner id d : timers m !! id = Some d ->
    exists o, objects m !! backlog d = Some o /\ timer_ids o !! index d = Some id;
  wf_next id d : timers m !! id = Some d -> (id < next_timer m)%nat }.

Lemma set_data_seq n k i a t id :
  set_data (seq n k) i a t !! id =
    if decide (n <= id < n + k)%nat then Some (mkData (i + (id - n)) a) else t !! id.
Proof.
  revert n i. induction k as [|k IH]; intros n i; cbn [seq set_data].
  { by rewrite decide_False by lia. }
  destruct (decide (id = n)) as [->|Hne].
  - rewrite lookup_insert_eq, decide_True by lia. do 2 f_equal. lia.
  - rewrite lookup_insert_ne, IH by done.
    destruct (decide (S n <= id < S n + k)%nat), (decide (n <= id < n + S k)%nat); try lia; [|done]. do 2 f_equal. lia.
Qed.

Lemma deleted_timers_lookup ids (t : gmap nat TimerData) id : foldr delete t ids !! id = if decide (id ∈ ids) then None else t !! id.
Proof.
  induction ids as [|x ids IH]; cbn [foldr]; [by rewrite decide_False by apply not_elem_of_nil|].
  destruct (decide (id = x)) as [->|Hne].
  - rewrite lookup_delete_eq, decide_True; [done|by left].
  - rewrite lookup_delete_ne, IH by done.
    destruct (decide (id ∈ ids)), (decide (id ∈ x :: ids)) as [H|H]; try done.
    + destruct H. by right.
    + by apply elem_of_cons in H as [|].
Qed.

Lemma refreshed_lookup a ids (t : gmap nat TimerData) id :
  foldr (fun id t => alter (fun d => mkData (index d) a) id t) t ids !! id =
    if decide (id ∈ ids) then (fun d => mkData (index d) a) <$> t !! id else t !! id.
Proof.
  induction ids as [|x ids IH]; cbn [foldr]; [by rewrite decide_False by apply not_elem_of_nil|].
  destruct (decide (id = x)) as [->|Hne].
  - rewrite lookup_alter_eq, IH, (decide_True (P := x ∈ x :: ids)) by (by left).
    destruct (decide (x ∈ ids)); [|done]. by destruct (t !! x).
  - rewrite lookup_alter_ne, IH by done.
    destruct (decide (id ∈ ids)), (decide (id ∈ x :: ids)) as [H|H]; try done.
    + destruct H. by right.
    + by apply elem_of_cons in H as [|].
Qed.

(** Timers of different objects are different. *)
Lemma timers_apart m a1 a2 o1 o2 id :
  wf m -> objects m !! a1 = Some o1 -> objects m !! a2 = Some o2 -> id ∈ timer_ids o1 -> id ∈ timer_ids o2 -> a1 = a2.
Proof.
  intros Hwf H1 H2 [i Hi]%list_elem_of_lookup [j Hj]%list_elem_of_lookup.
  pose proof (wf_owned _ Hwf _ _ _ _ H1 Hi). pose proof (wf_owned _ Hwf _ _ _ _ H2 Hj). congruence.
Qed.

Lemma wf_empty : wf (mkMemory ∅ ∅ 0).
Proof. split; cbn; intros; by rewrite lookup_empty in *. Qed.

Lemma wf_start_timers a b m : wf m -> objects m !! a = None -> wf (start_timers a b m).
Proof.
  intros Hwf Ha. unfold start_timers. set (k := length (m_timers b)). split; cbn.
  - intros a' o Ho. destruct (decide (a' = a)) as [->|Hne].
    + rewrite lookup_insert_eq in Ho. injection Ho as <-. cbn. apply length_seq.
    + rewrite lookup_insert_ne in Ho by done. by eapply wf_length.
  - intros a' o i id Ho Hi. rewrite set_data_seq. destruct (decide (a' = a)) as [->|Hne].
    + rewrite lookup_insert_eq in Ho. injection Ho as <-. cbn in Hi. apply lookup_seq in Hi as [-> Hlt].
      rewrite decide_True by lia. do 2 f_equal. lia.
    + rewrite lookup_insert_ne in Ho by done. pose proof (wf_owned _ Hwf _ _ _ _ Ho Hi) as Hd.
      pose proof (wf_next _ Hwf _ _ Hd). by rewrite decide_False by lia.
  - intros id d Hd. rewrite set_data_seq in Hd. destruct (decide (next_timer m <= id < next_timer m + k)%nat) as [Hin|Hout].
    + injection Hd as <-. cbn. exists (mkObject b (seq (next_timer m) k)). rewrite lookup_insert_eq. split; [done|]. cbn.
      apply lookup_seq. lia.
    + destruct (wf_owner _ Hwf _ _ Hd) as (o & Ho & Hi). exists o. split; [|done].
      rewrite lookup_insert_ne; [done|]. intros ->. congruence.
  - intros id d Hd. rewrite set_data_seq in Hd. rewrite length_seq.
    destruct (decide (next_timer m <= id < next_timer m + k)%nat); [lia|]. pose proof (wf_next _ Hwf _ _ Hd). lia.
Qed.

Lemma wf_construct a timeout m : wf m -> objects m !! a = None -> wf (construct a timeout m).
Proof. apply wf_start_timers. Qed.

Lemma wf_delete_timers a o m : wf m -> objects m !! a = Some o ->
  forall o', timer_ids o' = [] -> m_timers (body o') = [] ->
  wf (delete_timers (timer_ids o) m <| objects ::= insert a o' |>) /\ wf (delete_timers (timer_ids o) m <| objects ::= delete a |>).
Proof.
  intros Hwf Ha o' Hids Htm.
  assert (forall id d, foldr delete (timers m) (timer_ids o) !! id = Some d ->
    exists o2, objects m !! backlog d = Some o2 /\ timer_ids o2 !! index d = Some id /\ backlog d <> a) as Hown.
  { intros id d Hd. rewrite deleted_timers_lookup in Hd. destruct (decide (id ∈ timer_ids o)) as [|Hout]; [done|].
    destruct (wf_owner _ Hwf _ _ Hd) as (o2 & Ho2 & Hi). exists o2. split_and!; [done|done|]. intros E. rewrite E, Ha in Ho2.
    injection Ho2 as <-. apply Hout. by eapply list_elem_of_lookup_2. }
  assert (forall a' o2 i id, a' <> a -> objects m !! a' = Some o2 -> timer_ids o2 !! i = Some id ->
    foldr delete (timers m) (timer_ids o) !! id = Some (mkData i a')) as Hkeep.
  { intros a' o2 i id Hne Ho2 Hi. rewrite deleted_timers_lookup, decide_False; [by eapply wf_owned|].
    intros Hin. apply Hne. eapply (timers_apart m a' a); [done|done|done| |done]. by eapply list_elem_of_lookup_2. }
  assert (forall id d, foldr delete (timers m) (timer_ids o) !! id = Some d -> (id < next_timer m)%nat) as Hnext.
  { intros id d Hd. rewrite deleted_timers_lookup in Hd. destruct (decide _); [done|]. by eapply wf_next. }
  split; split; cbn.
  - intros a' o2 Ho2. destruct (decide (a' = a)) as [->|Hne].
    + rewrite lookup_insert_eq in Ho2. injection Ho2 as <-. by rewrite Hids, Htm.
    + rewrite lookup_insert_ne in Ho2 by done. by eapply wf_length.
  - intros a' o2 i id Ho2 Hi. destruct (decide (a' = a)) as [->|Hne].
    + rewrite lookup_insert_eq in Ho2. injection Ho2 as <-. by rewrite Hids in Hi.
    + rewrite lookup_insert_ne in Ho2 by done. by eapply Hkeep.
  - intros id d Hd. destruct (Hown id d Hd) as (o2 & Ho2 & Hi & Hne). exists o2. by rewrite lookup_insert_ne.
  - apply Hnext.
  - intros a' o2 Ho2. apply lookup_delete_Some in Ho2 as [_ Ho2]. by eapply wf_length.
  - intros a' o2 i id Ho2 Hi. apply lookup_delete_Some in Ho2 as [Hne Ho2]. by eapply Hkeep.
  - intros id d Hd. destruct (Hown id d Hd) as (o2 & Ho2 & Hi & Hne). exists o2. by rewrite lookup_delete_ne.
  - apply Hnext.
Qed.

(** A move to an address that holds nothing, or an object without timers. *)
Lemma wf_move a from o m : wf m -> a <> from -> objects m !! from = Some o ->
  (forall old, objects m !! a = Some old -> timer_ids old = []) ->
  exists m', refresh_timer_backlog_pointers a (timer_ids o)
      (m <| objects ::= fun os => <[a := o]> (<[from := mkObject (moved_from (body o)) []]> os) |>) = Ret m' /\ wf m'.
Proof.
  intros Hwf Hne Ho Hold. unfold refresh_timer_backlog_pointers. rewrite bool_decide_eq_true_2.
  2: { apply Forall_forall. intros id [i Hi]%list_elem_of_lookup. cbn. rewrite (wf_owned _ Hwf _ _ _ _ Ho Hi). eauto. }
  eexists. split; [done|]. split; cbn.
  - intros a' o' Ho'. destruct (decide (a' = a)) as [->|Ha]; [rewrite lookup_insert_eq in Ho'; injection Ho' as <-; by eapply wf_length|].
    rewrite lookup_insert_ne in Ho' by done.
    destruct (decide (a' = from)) as [->|Hf]; [rewrite lookup_insert_eq in Ho'; by injection Ho' as <-|].
    rewrite lookup_insert_ne in Ho' by done. by eapply wf_length.
  - intros a' o' i id Ho' Hi. rewrite refreshed_lookup. destruct (decide (a' = a)) as [->|Ha].
    + rewrite lookup_insert_eq in Ho'. injection Ho' as <-. rewrite decide_True by (by eapply list_elem_of_lookup_2).
      by rewrite (wf_owned _ Hwf _ _ _ _ Ho Hi).
    + rewrite lookup_insert_ne in Ho' by done.
      destruct (decide (a' = from)) as [->|Hf]; [rewrite lookup_insert_eq in Ho'; by injection Ho' as <-|].
      rewrite lookup_insert_ne in Ho' by done. rewrite decide_False; [by eapply wf_owned|].
      intros Hin. apply Hf. eapply (timers_apart m a' from); [done|done|done| |done]. by eapply list_elem_of_lookup_2.
  - intros id d Hd. rewrite refreshed_lookup in Hd. destruct (decide (id ∈ timer_ids o)) as [Hin|Hout].
    + destruct (timers m !! id) as [d0|] eqn:Hd0; [|done]. injection Hd as <-. cbn. exists o. rewrite lookup_insert_eq.
      split; [done|]. destruct (wf_owner _ Hwf _ _ Hd0) as (o2 & Ho2 & Hi).
      assert (backlog d0 = from) as E by (eapply (timers_apart m); [done|exact Ho2|exact Ho|by eapply list_elem_of_lookup_2|done]).
      rewrite E, Ho in Ho2. by injection Ho2 as <-.
    + destruct (wf_owner _ Hwf _ _ Hd) as (o2 & Ho2 & Hi).
      assert (backlog d <> from) as Hf.
      { intros E. rewrite E, Ho in Ho2. injection Ho2 as <-. apply Hout. by eapply list_elem_of_lookup_2. }
      assert (backlog d <> a) as Ha.
      { intros E. rewrite E in Ho2. specialize (Hold _ Ho2). by rewrite Hold in Hi. }
      exists o2. by rewrite !lookup_insert_ne.
  - intros id d Hd. rewrite refreshed_lookup in Hd. destruct (decide _); [|by eapply wf_next].
    destruct (timers m !! id) as [d0|] eqn:Hd0; [|done]. by eapply wf_next.
Qed.

(** ** Runs *)

Inductive op := Construct (a : nat) (entity_timeout : Z) | MoveConstruct (a from : nat) | MoveAssign (a from : nat) | Stop (a : nat) | Destroy (a : nat).

Definition apply_op (p : op) (m : Memory) : outcome Memory :=
  match p with
  | Construct a timeout => Ret (construct a timeout m)
  | MoveConstruct a from => move_construct a from m
  | MoveAssign a from => move_assign a from m
  | Stop a => stop_at a m
  | Destroy a => destroy a m
  end.

(** Objects are constructed where there is none, and used where there is one; no object is moved to itself. *)
Definition allowed (p : op) (m : Memory) : bool :=
  match p with
  | Construct a _ => bool_decide (objects m !! a = None)
  | MoveConstruct a from => bool_decide (objects m !! a = None) && bool_decide (is_Some (objects m !! from))
  | MoveAssign a from => bool_decide (is_Some (objects m !! a)) && bool_decide (is_Some (objects m !! from)) && bool_decide (a <> from)
  | Stop a | Destroy a => bool_decide (is_Some (objects m !! a))
  end.

Fixpoint run (ops : list op) (m : Memory) : option (outcome Memory) :=
  match ops with
  | [] => Some (Ret m)
  | p :: ops =>
      if allowed p m then match apply_op p m with Ret m => run ops m | Fault f => Some (Fault f) end else None
  end.

Lemma wf_op p m : wf m -> allowed p m = true -> exists m', apply_op p m = Ret m' /\ wf m'.
Proof.
  intros Hwf Ha. destruct p as [a timeout|a from|a from|a|a]; cbn [allowed apply_op] in *.
  - apply bool_decide_eq_true in Ha. eexists. split; [done|]. by apply wf_construct.
  - apply andb_true_iff in Ha as [Ha%bool_decide_eq_true [o Ho]%bool_decide_eq_true]. unfold move_construct. rewrite Ho.
    apply wf_move; [done|congruence|done|]. intros old. congruence.
  - rewrite !andb_true_iff, !bool_decide_eq_true in Ha. destruct Ha as [[[old Hold] [o Ho]] Hne]. unfold move_assign. rewrite Hold, Ho.
    destruct (wf_delete_timers a old m Hwf Hold (mkObject (moved_from (body old)) []) eq_refl eq_refl) as [Hwf1 _].
    pose proof (wf_move a from o _ Hwf1 Hne) as Hm. cbn in Hm. rewrite lookup_insert_ne in Hm by done.
    destruct Hm as (m' & Hr & Hwf'); [done| |].
    { intros old'. rewrite lookup_insert_eq. by intros [= <-]. }
    exists m'. split; [|done]. rewrite <- Hr. unfold refresh_timer_backlog_pointers. cbn.
    rewrite (insert_insert_ne _ from a) by congruence. rewrite insert_insert_eq.
    done.
  - apply bool_decide_eq_true in Ha as [o Ho]. unfold stop_at. rewrite Ho. eexists. split; [done|].
    by apply (wf_delete_timers a o m Hwf Ho (mkObject (stop (body o)) [])).
  - apply bool_decide_eq_true in Ha as [o Ho]. unfold destroy. rewrite Ho. eexists. split; [done|].
    by apply (wf_delete_timers a o m Hwf Ho (mkObject (stop (body o)) [])).
Qed.

Lemma wf_run ops m r : wf m -> run ops m = Some r -> exists m', r = Ret m' /\ wf m'.
Proof.
  revert m. induction ops as [|p ops IH]; intros m Hwf Hr; cbn in Hr; [injection Hr as <-; eauto|].
  destruct (allowed p m) eqn:Ha; [|done]. destruct (wf_op p m Hwf Ha) as (m' & Hm' & Hwf'). rewrite Hm' in Hr. by apply (IH m').
Qed.

(** ** Properties *)

(** However backlogs are constructed, moved, assigned, stopped and destroyed, no operation fails, and a timer that fires finds
    the backlog it belongs to now, alive, with a bucket for its index. *)
Theorem timers_find_their_backlog ops r :
  run ops (mkMemory ∅ ∅ 0) = Some r ->
  exists m, r = Ret m /\
    forall id d, timers m !! id = Some d ->
      exists o, fired id m = Ret (o, d) /\ timer_ids o !! index d = Some id /\ (index d < length (m_timers (body o)))%nat.
Proof.
  intros Hr. destruct (wf_run ops _ r wf_empty Hr) as (m & -> & Hwf). exists m. split; [done|].
  intros id d Hd. destruct (wf_owner _ Hwf _ _ Hd) as (o & Ho & Hi). exists o. unfold fired. rewrite Hd, Ho. split_and!; [done|done|].
  rewrite <- (wf_length _ Hwf _ _ Ho). by eapply lookup_lt_Some.
Qed.

(** A move hands the items, the timeout and the timers over: the timers of the old object now fire for the new
    one, and nothing fires for the old one. *)
Theorem move_hands_over a from m m' o :
  wf m -> objects m !! a = None -> objects m !! from = Some o -> move_construct a from m = Ret m' ->
  objects m' !! a = Some o /\ (forall id d, timers m' !! id = Some d -> backlog d <> from) /\
  (forall i id, timer_ids o !! i = Some id -> fired id m' = Ret (o, mkData i a)).
Proof.
  intros Hwf Ha Ho Hm. assert (a <> from) as Hne by congruence. unfold move_construct in Hm. rewrite Ho in Hm.
  destruct (wf_move a from o m Hwf Hne Ho) as (m1 & Hr & Hwf'); [congruence|]. rewrite Hr in Hm. injection Hm as ->.
  unfold refresh_timer_backlog_pointers in Hr. destruct (bool_decide _); [|done]. injection Hr as <-. cbn in *.
  split; [by rewrite lookup_insert_eq|]. split.
  - intros id d Hd E. destruct (wf_owner _ Hwf' _ _ Hd) as (o2 & Ho2 & Hi). cbn in Ho2. rewrite E in Ho2.
    rewrite lookup_insert_ne, lookup_insert_eq in Ho2 by done. injection Ho2 as <-. done.
  - intros i id Hi. assert (timers (mkMemory (<[a:=o]> (<[from:=mkObject (moved_from (body o)) []]> (objects m)))
        (foldr (fun id t => alter (fun d => mkData (index d) a) id t) (timers m) (timer_ids o)) (next_timer m)) !! id = Some (mkData i a)) as Hd.
    { cbn. rewrite refreshed_lookup, decide_True by (by eapply list_elem_of_lookup_2). by rewrite (wf_owned _ Hwf _ _ _ _ Ho Hi). }
    unfold fired. cbn in Hd. cbn. rewrite Hd. cbn. by rewrite lookup_insert_eq.
Qed.

End Moves.

Definition sample_ops : list op := [Construct 1 10; Construct 2 4; MoveConstruct 3 1; MoveAssign 2 3; Destroy 1; Stop 3].

Lemma timers_find_their_backlog_witness :
  exists m, run (T := nat) sample_ops (mkMemory ∅ ∅ 0) = Some (Ret m) /\
    forall id d, timers m !! id = Some d ->
      exists o, fired id m = Ret (o, d) /\ timer_ids o !! index d = Some id /\ (index d < length (m_timers (body o)))%nat.
Proof.
  destruct (run (T := nat) sample_ops (mkMemory ∅ ∅ 0)) as [r|] eqn:E; [|by vm_compute in E].
  destruct (timers_find_their_backlog sample_ops r E) as (m & -> & H). by exists m.
Defined.

Lemma move_hands_over_witness :
  let m := construct (T := nat) 1 10 (mkMemory ∅ ∅ 0) in
  forall o m', objects m !! 1%nat = Some o -> move_construct 2 1 m = Ret m' ->
  objects m' !! 2%nat = Some o /\ (forall id d, timers m' !! id = Some d -> backlog d <> 1%nat) /\
  (forall i id, timer_ids o !! i = Some id -> fired id m' = Ret (o, mkData i 2)).
Proof.
  intros m o m' Ho Hm. exact (move_hands_over 2 1 m m' o (wf_construct 1 10 _ wf_empty eq_refl) eq_refl Ho Hm).
Defined.

End BacklogMove.
