(* ===== verification/EventLoop.v ===== *)
(** * EventLoop

    [source/io/EventLoop.h] and [EventLoop.cpp]: callbacks scheduled on the loop's own thread,
    callbacks posted from any thread, callbacks run on each cycle, and the timer that keeps a
    loop from exiting; module [Posting] interleaves posting threads with the loop thread.
    Signals and thread-pool work are in [LoopServices], construction and [finish] in [LoopFinish].

    A callback is a name; [body] gives the calls into the loop it makes when it runs, in
    order, and every run is recorded.  Of libuv the model has what these functions rest on:
    the queue of active idle handles and how one loop iteration walks it
    ([thirdparty/libuv-1.30.1/src/unix/loop-watcher.c]), the pending flag of an async handle,
    and the set of started timers.  Initialising and starting an idle handle cannot fail
    there. *)

From S2P Require Import Prelude StatusCode.
Local Open Scope outcome_scope.

Module EventLoop.

Definition callback := nat.
Definition handle := nat.

(** What an idle handle calls: the executor of scheduled callbacks, or a user's callback. *)
Inductive IdleCallback := Executor | User (c : callback).

(** The calls a callback can make; the argument of [StopCallOnEachCycle] says which of the
    handles obtained from [CallOnEachCycle] so far, in order, is meant. *)
Inductive Call :=
| ScheduleCallback (c : callback)
| ExecuteOnLoopThread (c : callback)
| CallOnEachCycle (c : callback)
| StopCallOnEachCycle (i : nat)
| StartBlockLoop
| StopBlockLoop.

Record t := mk {
  (** [None] is [INVALID_HANDLE] or never set. *)
  m_sync_callbacks_executor_handle : option handle;
  m_sync_callbacks_queue : list callback;
  m_have_active_sync_callbacks : bool;
  m_async_callbacks_queue : list callback;
  m_dummy_idle_ref_counter : Z;
  m_dummy_idle : option handle;
  (** libuv: the active idle handles (first one run first), those the running iteration has
      not come to yet, the started timers, the pending flag of [m_async], handles given out. *)
  idle_handles : list (handle * IdleCallback);
  idle_running : list (handle * IdleCallback);
  timers : gset handle;
  async_pending : bool;
  next_handle : handle;
  (** The handles returned to the user. *)
  user_handles : list handle;
  (** The callbacks run so far, by the queue they came from, and the calls that queued them. *)
  sync_run : list callback;
  async_run : list callback;
  sync_scheduled : list callback;
  async_posted : list callback;
  m_is_running : bool;
  m_run_called : bool
}.

Definition initial : t := mk None [] false [] 0 None [] [] ∅ false 0%nat [] [] [] [] [] false false.

(** ** Field updates *)

Definition set_sync (s : t) (h : option handle) (q : list callback) (active : bool) : t :=
  mk h q active (m_async_callbacks_queue s) (m_dummy_idle_ref_counter s) (m_dummy_idle s)
     (idle_handles s) (idle_running s) (timers s) (async_pending s) (next_handle s) (user_handles s)
     (sync_run s) (async_run s) (sync_scheduled s) (async_posted s) (m_is_running s) (m_run_called s).
Definition set_async (s : t) (q : list callback) (pending : bool) : t :=
  mk (m_sync_callbacks_executor_handle s) (m_sync_callbacks_queue s) (m_have_active_sync_callbacks s)
     q (m_dummy_idle_ref_counter s) (m_dummy_idle s)
     (idle_handles s) (idle_running s) (timers s) pending (next_handle s) (user_handles s)
     (sync_run s) (async_run s) (sync_scheduled s) (async_posted s) (m_is_running s) (m_run_called s).
Definition set_block (s : t) (n : Z) (h : option handle) (ts : gset handle) (next : handle) : t :=
  mk (m_sync_callbacks_executor_handle s) (m_sync_callbacks_queue s) (m_have_active_sync_callbacks s)
     (m_async_callbacks_queue s) n h (idle_handles s) (idle_running s) ts (async_pending s) next (user_handles s)
     (sync_run s) (async_run s) (sync_scheduled s) (async_posted s) (m_is_running s) (m_run_called s).
Definition set_idles (s : t) (hs running : list (handle * IdleCallback)) (next : handle) : t :=
  mk (m_sync_callbacks_executor_handle s) (m_sync_callbacks_queue s) (m_have_active_sync_callbacks s)
     (m_async_callbacks_queue s) (m_dummy_idle_ref_counter s) (m_dummy_idle s) hs running (timers s)
     (async_pending s) next (user_handles s) (sync_run s) (async_run s) (sync_scheduled s) (async_posted s) (m_is_running s) (m_run_called s).
Definition record_runs (s : t) (sync_c async_c : list callback) : t :=
  mk (m_sync_callbacks_executor_handle s) (m_sync_callbacks_queue s) (m_have_active_sync_callbacks s)
     (m_async_callbacks_queue s) (m_dummy_idle_ref_counter s) (m_dummy_idle s)
     (idle_handles s) (idle_running s) (timers s) (async_pending s) (next_handle s) (user_handles s)
     (sync_run s ++ sync_c) (async_run s ++ async_c) (sync_scheduled s) (async_posted s) (m_is_running s) (m_run_called s).
Definition record_calls (s : t) (sync_c async_c : list callback) : t :=
  mk (m_sync_callbacks_executor_handle s) (m_sync_callbacks_queue s) (m_have_active_sync_callbacks s)
     (m_async_callbacks_queue s) (m_dummy_idle_ref_counter s) (m_dummy_idle s)
     (idle_handles s) (idle_running s) (timers s) (async_pending s) (next_handle s) (user_handles s)
     (sync_run s) (async_run s) (sync_scheduled s ++ sync_c) (async_posted s ++ async_c) (m_is_running s) (m_run_called s).

Definition set_running (s : t) (is_running run_called : bool) : t :=
  mk (m_sync_callbacks_executor_handle s) (m_sync_callbacks_queue s) (m_have_active_sync_callbacks s)
     (m_async_callbacks_queue s) (m_dummy_idle_ref_counter s) (m_dummy_idle s)
     (idle_handles s) (idle_running s) (timers s) (async_pending s) (next_handle s) (user_handles s)
     (sync_run s) (async_run s) (sync_scheduled s) (async_posted s) is_running run_called.

Definition give_handle (s : t) (h : handle) : t :=
  mk (m_sync_callbacks_executor_handle s) (m_sync_callbacks_queue s) (m_have_active_sync_callbacks s)
     (m_async_callbacks_queue s) (m_dummy_idle_ref_counter s) (m_dummy_idle s)
     (idle_handles s) (idle_running s) (timers s) (async_pending s) (next_handle s) (user_handles s ++ [h])
     (sync_run s) (async_run s) (sync_scheduled s) (async_posted s) (m_is_running s) (m_run_called s).

(** ** Operations *)

(** [schedule_call_on_each_loop_cycle]: [uv_idle_start] puts the handle at the head. *)
Definition schedule_call_on_each_loop_cycle (s : t) (c : IdleCallback) : t * handle :=
  let h := next_handle s in
  (set_idles s ((h, c) :: idle_handles s) (idle_running s) (S h), h).

Definition not_handle (h : handle) (x : handle * IdleCallback) : bool := negb (fst x =? h)%nat.

(** [stop_call_on_each_loop_cycle] stops and closes the handle; a handle that is not active any
    more has been closed and freed. *)
Definition stop_call_on_each_loop_cycle (s : t) (h : option handle) : outcome t :=
  match h with
  | None => Ret s
  | Some h =>
      check bool_decide (h ∈ (idle_handles s ++ idle_running s).*1) else UseAfterFree in
      Ret (set_idles s (List.filter (not_handle h) (idle_handles s))
                       (List.filter (not_handle h) (idle_running s)) (next_handle s))
  end.

Definition schedule_callback (s : t) (c : callback) : t :=
  let s :=
    if negb (m_have_active_sync_callbacks s) then
      let '(s, h) := schedule_call_on_each_loop_cycle s Executor in
      set_sync s (Some h) (m_sync_callbacks_queue s) true
    else s in
  record_calls
    (set_sync s (m_sync_callbacks_executor_handle s) (m_sync_callbacks_queue s ++ [c])
              (m_have_active_sync_callbacks s)) [c] [].

(** [execute_on_loop_thread]: the push under the mutex, then [uv_async_send].  Another thread can
    come in between, so the function is the list of its indivisible parts; [execute_on_loop_thread]
    is all of them at one go. *)
Inductive atom := Push (c : callback) | Send.

Definition async_push (s : t) (c : callback) : t :=
  record_calls (set_async s (m_async_callbacks_queue s ++ [c]) (async_pending s)) [] [c].
Definition async_send (s : t) : t := set_async s (m_async_callbacks_queue s) true.
Definition atom_step (s : t) (a : atom) : t :=
  match a with Push c => async_push s c | Send => async_send s end.

Definition posting (c : callback) : list atom := [Push c; Send].
Definition execute_on_loop_thread (s : t) (c : callback) : t := fold_left atom_step (posting c) s.

Definition start_block_loop_from_exit (s : t) : t :=
  let n := m_dummy_idle_ref_counter s in
  if negb (n =? 0) then set_block s (n + 1) (m_dummy_idle s) (timers s) (next_handle s)
  else
    let h := next_handle s in
    set_block s (n + 1) (Some h) ({[h]} ∪ timers s) (S h).

Definition stop_block_loop_from_exit (s : t) : outcome t :=
  let n := m_dummy_idle_ref_counter s - 1 in
  if negb (n =? 0) then Ret (set_block s n (m_dummy_idle s) (timers s) (next_handle s))
  else
    match m_dummy_idle s with
    | None => Fault NullDeref
    | Some h => Ret (set_block s n None (timers s ∖ {[h]}) (next_handle s))
    end.

Section Callbacks.
Context (body : callback -> list Call).

Definition call (s : t) (k : Call) : outcome t :=
  match k with
  | ScheduleCallback c => Ret (schedule_callback s c)
  | ExecuteOnLoopThread c => Ret (execute_on_loop_thread s c)
  | CallOnEachCycle c =>
      let '(s, h) := schedule_call_on_each_loop_cycle s (User c) in Ret (give_handle s h)
  | StopCallOnEachCycle i =>
      match user_handles s !! i with
      | Some h => stop_call_on_each_loop_cycle s (Some h)
      | None => Ret s
      end
  | StartBlockLoop => Ret (start_block_loop_from_exit s)
  | StopBlockLoop => stop_block_loop_from_exit s
  end.

Fixpoint calls (s : t) (ks : list Call) : outcome t :=
  match ks with
  | [] => Ret s
  | k :: ks => let* s := call s k in calls s ks
  end.

Definition run_callback (s : t) (c : callback) : outcome t := calls s (body c).

Fixpoint run_sync (s : t) (queue_copy : list callback) : outcome t :=
  match queue_copy with
  | [] => Ret s
  | c :: queue_copy => let* s := run_callback (record_runs s [c] []) c in run_sync s queue_copy
  end.

Fixpoint run_async (s : t) (queue_copy : list callback) : outcome t :=
  match queue_copy with
  | [] => Ret s
  | c :: queue_copy => let* s := run_callback (record_runs s [] [c]) c in run_async s queue_copy
  end.

(** [m_sync_callbacks_executor_function]. *)
Definition sync_callbacks_executor_function (s : t) : outcome t :=
  let queue_copy := m_sync_callbacks_queue s in
  let s := set_sync s (m_sync_callbacks_executor_handle s) [] (m_have_active_sync_callbacks s) in
  let* s := run_sync s queue_copy in
  if bool_decide (m_sync_callbacks_queue s = []) then
    let* s := stop_call_on_each_loop_cycle s (m_sync_callbacks_executor_handle s) in
    Ret (set_sync s (m_sync_callbacks_executor_handle s) (m_sync_callbacks_queue s) false)
  else Ret s.

(** [execute_pending_callbacks]: the swap of the queue under the mutex, then the loop. *)
Definition swap_pending (s : t) : t * list callback :=
  (set_async s [] (async_pending s), m_async_callbacks_queue s).
Definition execute_pending_callbacks (s : t) : outcome t :=
  let '(s, callbacks_queue_copy) := swap_pending s in
  run_async s callbacks_queue_copy.

(** [on_async], called by libuv after it has cleared the pending flag. *)
Definition async_wake (s : t) : t := set_async s (m_async_callbacks_queue s) false.
Definition on_async (s : t) : outcome t := execute_pending_callbacks (async_wake s).

Definition on_idle (s : t) (c : IdleCallback) : outcome t :=
  match c with
  | Executor => sync_callbacks_executor_function s
  | User c => run_callback s c
  end.

(** libuv's [uv__run_idle]. *)
Fixpoint run_idle_loop (fuel : nat) (s : t) : outcome t :=
  match idle_running s with
  | [] => Ret s
  | (h, c) :: rest =>
      match fuel with
      | O => Fault FuelExhausted
      | S fuel =>
          let s := set_idles s (idle_handles s ++ [(h, c)]) rest (next_handle s) in
          let* s := on_idle s c in
          run_idle_loop fuel s
      end
  end.
Definition run_idle (s : t) : outcome t :=
  run_idle_loop (length (idle_handles s)) (set_idles s [] (idle_handles s) (next_handle s)).

(** [run]; [uv_run] is libuv's, with the status it returns. *)
Context (uv_run : t -> outcome (t * Z)).

Fixpoint run_loop (fuel : nat) (s : t) : outcome (t * Z) :=
  match fuel with
  | O => Fault FuelExhausted
  | S fuel =>
      let* (s, run_status) := uv_run s in
      let has_pending_callbacks := negb (bool_decide (m_async_callbacks_queue s = [])) in
      let* s := execute_pending_callbacks s in
      if (run_status =? 0) && has_pending_callbacks then run_loop fuel s else Ret (s, run_status)
  end.
Definition run (fuel : nat) (s : t) : outcome (t * Z) :=
  let* (s, run_status) := run_loop fuel (set_running s true true) in
  Ret (set_running s false (m_run_called s), run_status).

End Callbacks.

(** ** Invariant of the scheduled callbacks *)

Definition all_idles (s : t) : list (handle * IdleCallback) := idle_handles s ++ idle_running s.

(** [p]: the callbacks the executor has taken out of the queue and not run yet. *)
Record sync_inv (p : list callback) (s : t) : Prop := {
  si_order : sync_scheduled s = sync_run s ++ p ++ m_sync_callbacks_queue s;
  si_nodup : NoDup (all_idles s).*1;
  si_fresh : Forall (fun h => h < next_handle s)%nat (all_idles s).*1;
  si_users : Forall (fun h => h < next_handle s)%nat (user_handles s);
  si_executor : forall h, (h, Executor) ∈ all_idles s ->
    m_sync_callbacks_executor_handle s = Some h /\ m_have_active_sync_callbacks s = true;
  si_active : m_have_active_sync_callbacks s = true ->
    exists h, m_sync_callbacks_executor_handle s = Some h /\ (h, Executor) ∈ all_idles s /\ h ∉ user_handles s;
  si_idle : m_have_active_sync_callbacks s = false -> m_sync_callbacks_queue s = [] /\ p = []
}.

Lemma initial_inv : sync_inv [] initial.
Proof. split; cbn; try done; try constructor; set_solver. Qed.

Lemma sync_inv_sync_only p p' s s' :
  sync_inv p s ->
  all_idles s' = all_idles s -> next_handle s' = next_handle s -> user_handles s' = user_handles s ->
  m_sync_callbacks_executor_handle s' = m_sync_callbacks_executor_handle s ->
  m_have_active_sync_callbacks s' = m_have_active_sync_callbacks s ->
  sync_scheduled s' = sync_run s' ++ p' ++ m_sync_callbacks_queue s' ->
  (m_have_active_sync_callbacks s = false -> m_sync_callbacks_queue s' = [] /\ p' = []) ->
  sync_inv p' s'.
Proof.
  intros [H1 H2 H3 H4 H5 H6 H7] E1 E2 E3 E4 E5 E6 E7. split; rewrite ?E1, ?E2, ?E3, ?E4, ?E5; done.
Qed.

Lemma schedule_idle_inv p s c s' h :
  sync_inv p s -> schedule_call_on_each_loop_cycle s (User c) = (s', h) -> sync_inv p (give_handle s' h).
Proof.
  intros [H1 H2 H3 H4 H5 H6 H7] [= <- <-]. split; cbn; try done.
  - constructor; [|done]. intros Hin. rewrite Forall_forall in H3. specialize (H3 _ Hin). lia.
  - constructor; [lia|]. eapply Forall_impl; [exact H3|]. cbn. lia.
  - apply Forall_app. split; [eapply Forall_impl; [exact H4|]; cbn; lia|]. apply Forall_singleton. lia.
  - intros h [E|Hin]%elem_of_cons; [done|]. by apply H5.
  - intros Ha. destruct (H6 Ha) as (h & Hh & Hin & Hu). exists h. split_and!; [done|by right|].
    apply not_elem_of_app. split; [done|]. intros ->%list_elem_of_singleton.
    rewrite Forall_forall in H3. assert (next_handle s ∈ (all_idles s).*1) as Hn by (apply list_elem_of_fmap; by exists (next_handle s, Executor)).
    apply H3 in Hn. lia.
Qed.

Lemma all_idles_stop s h :
  all_idles (set_idles s (List.filter (not_handle h) (idle_handles s))
                         (List.filter (not_handle h) (idle_running s)) (next_handle s))
  = List.filter (not_handle h) (all_idles s).
Proof. unfold all_idles. cbn. by rewrite List.filter_app. Qed.

Lemma elem_of_stop h x (l : list (handle * IdleCallback)) :
  x ∈ List.filter (not_handle h) l <-> x ∈ l /\ fst x <> h.
Proof.
  rewrite !list_elem_of_In, filter_In. unfold not_handle. rewrite negb_true_iff, Nat.eqb_neq. done.
Qed.

Lemma stop_fst h (l : list (handle * IdleCallback)) :
  NoDup l.*1 -> NoDup (List.filter (not_handle h) l).*1.
Proof.
  induction l as [|x l IH]; cbn; [done|]. intros [Hx Hl]%NoDup_cons. unfold not_handle at 1.
  destruct (negb _); [|by apply IH]. cbn. apply NoDup_cons. split; [|by apply IH].
  intros (y & E & Hin)%list_elem_of_fmap. apply elem_of_stop in Hin as [Hin _]. apply Hx. rewrite E.
  by apply list_elem_of_fmap_2.
Qed.

(** Stopping a user's handle does not touch the executor. *)
Lemma stop_user_inv p s h s' :
  sync_inv p s -> h ∈ user_handles s -> stop_call_on_each_loop_cycle s (Some h) = Ret s' -> sync_inv p s'.
Proof.
  intros [H1 H2 H3 H4 H5 H6 H7] Hu. unfold stop_call_on_each_loop_cycle. case_bool_decide; [|done]. intros [= <-].
  split; try done; rewrite ?all_idles_stop.
  - by apply stop_fst.
  - apply Forall_forall. intros n (y & -> & Hin)%list_elem_of_fmap. apply elem_of_stop in Hin as [Hin _].
    rewrite Forall_forall in H3. apply H3. by apply list_elem_of_fmap_2.
  - intros h' [Hin _]%elem_of_stop. by apply H5.
  - intros Ha. destruct (H6 Ha) as (h' & Hh & Hin & Hn). exists h'. split_and!; [done| |done].
    apply elem_of_stop. split; [done|]. cbn. by intros ->.
Qed.

Lemma schedule_callback_inv p s c : sync_inv p s -> sync_inv p (schedule_callback s c).
Proof.
  intros Hinv. pose proof Hinv as [H1 H2 H3 H4 H5 H6 H7]. unfold schedule_callback.
  destruct (m_have_active_sync_callbacks s) eqn:Ha; cbn [negb].
  - eapply sync_inv_sync_only; try done; cbn; [|by rewrite Ha].
    rewrite H1, <- !app_assoc. done.
  - destruct (H7 eq_refl) as [Hq ->]. split; cbn; try done.
    + rewrite H1, Hq. cbn. by rewrite app_nil_r.
    + constructor; [|done]. intros Hin. rewrite Forall_forall in H3. specialize (H3 _ Hin). lia.
    + constructor; [lia|]. eapply Forall_impl; [exact H3|]. cbn. lia.
    + eapply Forall_impl; [exact H4|]. cbn. lia.
    + intros h [[= ->]|Hin]%elem_of_cons; [done|]. destruct (H5 h Hin) as [_ E]. congruence.
    + intros _. eexists. split; [done|]. split; [by left|]. intros Hin.
      rewrite Forall_forall in H4. specialize (H4 _ Hin). lia.
Qed.

Lemma call_inv p s k s' : sync_inv p s -> call s k = Ret s' -> sync_inv p s'.
Proof.
  intros Hinv. destruct k as [c|c|c|i| |]; cbn [call].
  - intros [= <-]. by apply schedule_callback_inv.
  - intros [= <-]. eapply sync_inv_sync_only; try done; cbn; [|apply Hinv].
    rewrite app_nil_r. apply Hinv.
  - destruct (schedule_call_on_each_loop_cycle s (User c)) as [s1 h] eqn:E. intros [= <-].
    by eapply schedule_idle_inv.
  - destruct (user_handles s !! i) as [h|] eqn:E; [|by intros [= <-]].
    apply stop_user_inv; [done|]. by eapply list_elem_of_lookup_2.
  - intros [= <-]. unfold start_block_loop_from_exit. destruct (negb _).
    + eapply sync_inv_sync_only; try done; cbn; apply Hinv.
    + destruct Hinv as [H1 H2 H3 H4 H5 H6 H7]. split; cbn; try done.
      * eapply Forall_impl; [exact H3|]. cbn. lia.
      * eapply Forall_impl; [exact H4|]. cbn. lia.
  - unfold stop_block_loop_from_exit. destruct (negb _); [|destruct (m_dummy_idle s); [|done]]; intros [= <-];
      (eapply sync_inv_sync_only; try done; cbn; apply Hinv).
Qed.

(** How the loop's own code and the callbacks it runs extend a state. *)
Record frame (s s' : t) : Prop := {
  fr_scheduled : sync_scheduled s `prefix_of` sync_scheduled s';
  fr_executor : forall h, (h, Executor) ∈ idle_running s -> (h < next_handle s)%nat -> h ∉ user_handles s ->
    (h, Executor) ∈ idle_running s';
  fr_running : (length (idle_running s') <= length (idle_running s))%nat;
  fr_users : forall h, h ∈ user_handles s' -> h ∈ user_handles s \/ (next_handle s <= h)%nat;
  fr_next : (next_handle s <= next_handle s')%nat;
  fr_active : m_have_active_sync_callbacks s = true ->
    m_have_active_sync_callbacks s' = true /\
    m_sync_callbacks_executor_handle s' = m_sync_callbacks_executor_handle s;
  fr_async : exists q, m_async_callbacks_queue s' = m_async_callbacks_queue s ++ q /\
                       async_posted s' = async_posted s ++ q /\ (q <> [] -> async_pending s' = true);
  fr_pending : async_pending s = true -> async_pending s' = true
}.

#[global] Instance frame_refl : Reflexive frame.
Proof. intros s. split; try done; [auto|exists []; by rewrite !app_nil_r]. Qed.

#[global] Instance frame_trans : Transitive frame.
Proof.
  intros s1 s2 s3 [A3 A4 A5 A6 A7 A8 (qa & A9 & A9' & A9'') A10] [B3 B4 B5 B6 B7 B8 (qb & B9 & B9' & B9'') B10].
  split; try congruence; try lia; auto.
  - by transitivity (sync_scheduled s2).
  - intros h Hin Hn Hu. apply B4; [by apply A4|lia|]. intros Hin2. destruct (A6 h Hin2); [done|lia].
  - intros h Hin. destruct (B6 h Hin) as [H|H]; [by apply A6|right; lia].
  - intros Ha. destruct (A8 Ha) as [Ha2 E2]. destruct (B8 Ha2) as [Ha3 E3]. split; congruence.
  - exists (qa ++ qb). rewrite B9, A9, B9', A9', !app_assoc. split_and!; [done|done|].
    intros Hne. destruct qb as [|c qb]; [|by apply B9'']. apply B10, A9''. intros ->. done.
Qed.

(** Changes of fields the frame does not speak about. *)
Lemma frame_same s s' :
  sync_scheduled s' = sync_scheduled s -> idle_running s' = idle_running s ->
  user_handles s' = user_handles s -> (next_handle s <= next_handle s')%nat ->
  m_have_active_sync_callbacks s' = m_have_active_sync_callbacks s ->
  m_sync_callbacks_executor_handle s' = m_sync_callbacks_executor_handle s ->
  m_async_callbacks_queue s' = m_async_callbacks_queue s -> async_posted s' = async_posted s ->
  async_pending s' = async_pending s -> frame s s'.
Proof.
  intros E1 E2 E3 E4 E5 E6 E7 E8 E9. split; rewrite ?E1, ?E2, ?E3, ?E5, ?E6, ?E7, ?E8, ?E9; auto.
  exists []. by rewrite !app_nil_r.
Qed.

Lemma schedule_callback_frame s c : frame s (schedule_callback s c).
Proof.
  unfold schedule_callback. destruct (m_have_active_sync_callbacks s) eqn:Ha; cbn [negb]; split; cbn; auto;
    try congruence; try (by eexists); exists []; by rewrite !app_nil_r.
Qed.

Lemma call_framed s k s' : call s k = Ret s' ->
  frame s s' /\ sync_run s' = sync_run s /\ async_run s' = async_run s.
Proof.
  destruct k as [c|c|c|i| |]; cbn [call].
  - intros [= <-]. split; [apply schedule_callback_frame|]. unfold schedule_callback. by destruct (negb _).
  - intros [= <-]. split; [|done]. split; cbn; auto; [by rewrite app_nil_r|by exists [c]].
  - intros [= <-]. split; [|done]. split; cbn; auto; try lia.
    + intros h Hin. apply elem_of_app in Hin as [Hin|Hin]; [by left|].
      apply list_elem_of_singleton in Hin as ->. by right.
    + exists []. by rewrite !app_nil_r.
  - destruct (user_handles s !! i) as [h|] eqn:E; [|by intros [= <-]].
    unfold stop_call_on_each_loop_cycle. case_bool_decide; [|done]. intros [= <-].
    split; [|done]. split; cbn; auto; [|apply filter_length_le|exists []; by rewrite !app_nil_r].
    intros h' Hin _ Hu. apply elem_of_stop. split; [done|]. cbn. intros ->. apply Hu. by eapply list_elem_of_lookup_2.
  - intros [= <-]. unfold start_block_loop_from_exit. destruct (negb _); (split; [|done]); apply frame_same; cbn; auto.
  - unfold stop_block_loop_from_exit. destruct (negb _); [|destruct (m_dummy_idle s); [|done]]; intros [= <-];
      (split; [|done]); by apply frame_same.
Qed.

Lemma calls_inv p ks s s' : sync_inv p s -> calls s ks = Ret s' ->
  sync_inv p s' /\ frame s s' /\ sync_run s' = sync_run s /\ async_run s' = async_run s.
Proof.
  revert s. induction ks as [|k ks IH]; intros s Hinv; cbn [calls]; [by intros [= <-]|].
  intros (s1 & H1 & H2)%obind_ret_inv. destruct (IH s1 (call_inv _ _ _ _ Hinv H1) H2) as (Ha & Hf & Hs & Hy).
  destruct (call_framed _ _ _ H1) as (Hf1 & Hs1 & Hy1). split_and!; [done|by transitivity s1|congruence|congruence].
Qed.

(** ** The executor *)

Section Executor.
Context (body : callback -> list Call).

(** Running what the executor took out of the queue. *)
Lemma run_sync_inv q s s' :
  sync_inv q s -> m_have_active_sync_callbacks s = true -> run_sync body s q = Ret s' ->
  sync_inv [] s' /\ sync_run s' = sync_run s ++ q /\ frame s s' /\ async_run s' = async_run s.
Proof.
  revert s. induction q as [|c q IH]; intros s Hinv Ha; cbn [run_sync].
  { intros [= <-]. by rewrite app_nil_r. }
  intros (s1 & H1 & H2)%obind_ret_inv. set (s0 := record_runs s [c] []) in *.
  assert (sync_inv q s0) as Hinv0.
  { eapply sync_inv_sync_only; try done; cbn; [|by rewrite Ha]. rewrite (si_order _ _ Hinv), <- !app_assoc. done. }
  destruct (calls_inv _ _ _ _ Hinv0 H1) as (Hinv1 & Hf1 & Hs1 & Hy1).
  assert (frame s s1) as Hf01 by (transitivity s0; [by apply frame_same|done]).
  destruct (IH s1 Hinv1 (proj1 (fr_active _ _ Hf1 Ha)) H2) as (Hinv' & Hrun & Hf & Hy).
  split_and!; [done| |by transitivity s1|].
  - rewrite Hrun, Hs1. cbn. by rewrite <- app_assoc.
  - rewrite Hy, Hy1. cbn. by rewrite app_nil_r.
Qed.

(** One call of the executor runs exactly the callbacks queued when it starts, in order. *)
Lemma executor_inv s s' :
  sync_inv [] s -> m_have_active_sync_callbacks s = true ->
  sync_callbacks_executor_function body s = Ret s' ->
  sync_inv [] s' /\ sync_run s' = sync_scheduled s /\ sync_scheduled s `prefix_of` sync_scheduled s' /\
  (length (idle_running s') <= length (idle_running s))%nat.
Proof.
  intros Hinv Ha. unfold sync_callbacks_executor_function.
  intros (s1 & H1 & H2)%obind_ret_inv. set (s0 := set_sync _ _ [] _) in H1.
  assert (sync_inv (m_sync_callbacks_queue s) s0) as Hinv0.
  { eapply sync_inv_sync_only; try done; cbn; [|by rewrite Ha]. rewrite (si_order _ _ Hinv), app_nil_r. done. }
  destruct (run_sync_inv _ _ _ Hinv0 Ha H1) as (Hinv1 & Hrun & Hf & _).
  assert (sync_run s1 = sync_scheduled s) as Hrun' by (rewrite Hrun, (si_order _ _ Hinv); done).
  assert (sync_scheduled s `prefix_of` sync_scheduled s1) as Hpre by apply (fr_scheduled _ _ Hf).
  pose proof (fr_running _ _ Hf) as Hlen. cbn in Hlen.
  case_bool_decide as Hq; [|injection H2 as <-; done].
  destruct (fr_active _ _ Hf Ha) as [Ha1 Hh1].
  pose proof Hinv1 as [I1 I2 I3 I4 I5 I6 I7]. destruct (I6 Ha1) as (h & Eh & Hin & Hu).
  rewrite Eh in H2. unfold stop_call_on_each_loop_cycle in H2.
  rewrite bool_decide_true in H2 by (apply list_elem_of_fmap; by exists (h, Executor)).
  injection H2 as <-. split_and!; [|done|done|].
  - split; cbn -[all_idles]; try done; rewrite ?Hq.
    + change (all_idles (set_sync ?x _ _ _)) with (all_idles x). rewrite all_idles_stop. by apply stop_fst.
    + change (all_idles (set_sync ?x _ _ _)) with (all_idles x). rewrite all_idles_stop.
      apply Forall_forall. intros n (y & -> & Hy)%list_elem_of_fmap. apply elem_of_stop in Hy as [Hy _].
      rewrite Forall_forall in I3. apply I3. by apply list_elem_of_fmap_2.
    + intros h'. change (all_idles (set_sync ?x _ _ _)) with (all_idles x). rewrite all_idles_stop.
      intros [Hin' Hne]%elem_of_stop. destruct (I5 h' Hin') as [E _]. rewrite Eh in E. by injection E as ->.
  - cbn. etransitivity; [apply filter_length_le|done].
Qed.

(** A run of calls faults only by stopping a handle that was stopped before. *)
Definition stops_twice (f : fault) : Prop :=
  f = UseAfterFree /\ exists c i, StopCallOnEachCycle i ∈ body c.

(** The counter of [start_block_loop_from_exit] and its timer. *)
Definition block_inv (s : t) : Prop :=
  (1 <= m_dummy_idle_ref_counter s -> exists h, m_dummy_idle s = Some h /\ h ∈ timers s).

Lemma call_block s k : block_inv s ->
  match call s k with
  | Ret s' => block_inv s'
  | Fault f => f = UseAfterFree /\ exists i, k = StopCallOnEachCycle i
  end.
Proof.
  unfold block_inv. intros Hb. destruct k as [c|c|c|i| |]; cbn [call].
  - unfold schedule_callback. by destruct (negb _).
  - done.
  - done.
  - destruct (_ !! i); [|done]. unfold stop_call_on_each_loop_cycle. case_bool_decide; [done|by eauto].
  - unfold start_block_loop_from_exit. destruct (Z.eqb_spec (m_dummy_idle_ref_counter s) 0) as [E|E]; cbn.
    + intros _. eexists. split; [done|]. set_solver.
    + intros Hn. apply Hb. lia.
  - unfold stop_block_loop_from_exit. destruct (Z.eqb_spec (m_dummy_idle_ref_counter s - 1) 0) as [E|E]; cbn.
    + destruct Hb as (h & -> & _); [lia|]. cbn. lia.
    + intros Hn. apply Hb. lia.
Qed.

Lemma calls_block s ks : block_inv s ->
  match calls s ks with
  | Ret s' => block_inv s'
  | Fault f => f = UseAfterFree /\ exists i, StopCallOnEachCycle i ∈ ks
  end.
Proof.
  revert s. induction ks as [|k ks IH]; intros s Hb; cbn [calls]; [done|].
  pose proof (call_block s k Hb) as Hk. destruct (call s k) as [s1|f]; cbn.
  - specialize (IH s1 Hk). destruct (calls s1 ks); [done|]. destruct IH as [-> [i Hi]]. split; [done|]. exists i. by right.
  - destruct Hk as [-> [i ->]]. split; [done|]. exists i. by left.
Qed.

Lemma run_callback_block s c : block_inv s ->
  match run_callback body s c with Ret s' => block_inv s' | Fault f => stops_twice f end.
Proof.
  intros Hb. unfold run_callback. pose proof (calls_block s (body c) Hb) as H.
  destruct (calls s (body c)); [done|]. destruct H as [-> [i Hi]]. split; [done|by exists c, i].
Qed.

Lemma run_sync_block q s : block_inv s ->
  match run_sync body s q with Ret s' => block_inv s' | Fault f => stops_twice f end.
Proof.
  revert s. induction q as [|c q IH]; intros s Hb; cbn [run_sync]; [done|].
  pose proof (run_callback_block (record_runs s [c] []) c Hb) as H.
  destruct (run_callback body _ c) as [s1|f]; cbn; [by apply IH|done].
Qed.

Lemma run_async_block q s : block_inv s ->
  match run_async body s q with Ret s' => block_inv s' | Fault f => stops_twice f end.
Proof.
  revert s. induction q as [|c q IH]; intros s Hb; cbn [run_async]; [done|].
  pose proof (run_callback_block (record_runs s [] [c]) c Hb) as H.
  destruct (run_callback body _ c) as [s1|f]; cbn; [by apply IH|done].
Qed.

(** ** Invariant of the posted callbacks *)

(** [p]: the callbacks [execute_pending_callbacks] has taken out and not run yet. *)
Definition async_inv (p : list callback) (s : t) : Prop :=
  async_posted s = async_run s ++ p ++ m_async_callbacks_queue s /\
  (m_async_callbacks_queue s <> [] -> async_pending s = true).

Lemma frame_async p s s' :
  async_inv p s -> frame s s' -> async_run s' = async_run s -> async_inv p s'.
Proof.
  intros [H1 H2] Hf E. destruct (fr_async _ _ Hf) as (q & Eq & Ep & Hp). split.
  - rewrite Ep, Eq, H1, E, <- !app_assoc. done.
  - rewrite Eq. destruct (decide (q = [])) as [->|Hq]; [|by intros _; apply Hp].
    rewrite app_nil_r. intros Hne. apply (fr_pending _ _ Hf), H2, Hne.
Qed.

Lemma run_async_inv q s s' :
  sync_inv [] s -> async_inv q s -> run_async body s q = Ret s' ->
  sync_inv [] s' /\ async_inv [] s' /\ async_run s' = async_run s ++ q /\ frame s s'.
Proof.
  revert s. induction q as [|c q IH]; intros s Hs Hinv; cbn [run_async].
  { intros [= <-]. by rewrite app_nil_r. }
  intros (s1 & H1 & H2)%obind_ret_inv. set (s0 := record_runs s [] [c]) in *.
  assert (sync_inv [] s0) as Hs0.
  { eapply sync_inv_sync_only; try done; cbn; [|apply Hs]. rewrite app_nil_r. apply Hs. }
  assert (async_inv q s0) as Hinv0.
  { destruct Hinv as [E Hp]. split; [|done]. cbn. rewrite E, <- !app_assoc. done. }
  destruct (calls_inv _ _ _ _ Hs0 H1) as (Hs1 & Hf1 & _ & Hy1).
  destruct (IH s1 Hs1 (frame_async _ _ _ Hinv0 Hf1 Hy1) H2) as (Hs' & Ha' & Hrun & Hf).
  split_and!; [done|done| |].
  - rewrite Hrun, Hy1. cbn. by rewrite <- app_assoc.
  - transitivity s0; [by apply frame_same|]. by transitivity s1.
Qed.

Lemma executor_async s s' : sync_inv [] s -> m_have_active_sync_callbacks s = true ->
  async_inv [] s -> sync_callbacks_executor_function body s = Ret s' -> async_inv [] s'.
Proof.
  intros Hinv Ha Hy. unfold sync_callbacks_executor_function.
  intros (s1 & H1 & H2)%obind_ret_inv. set (s0 := set_sync _ _ [] _) in H1.
  assert (sync_inv (m_sync_callbacks_queue s) s0) as Hinv0.
  { eapply sync_inv_sync_only; try done; cbn; [|by rewrite Ha]. rewrite (si_order _ _ Hinv), app_nil_r. done. }
  destruct (run_sync_inv _ _ _ Hinv0 Ha H1) as (_ & _ & Hf & Hr).
  assert (async_inv [] s1) as Hy1 by (by eapply (frame_async [] s0)).
  case_bool_decide; [|by injection H2 as <-].
  apply obind_ret_inv in H2 as (s2 & H2 & [= <-]). unfold stop_call_on_each_loop_cycle in H2.
  destruct (m_sync_callbacks_executor_handle s1); [|by injection H2 as <-].
  case_bool_decide; [|done]. by injection H2 as <-.
Qed.

Lemma executor_block s : sync_inv [] s -> m_have_active_sync_callbacks s = true -> block_inv s ->
  match sync_callbacks_executor_function body s with Ret s' => block_inv s' | Fault f => stops_twice f end.
Proof.
  intros Hinv Ha Hb. unfold sync_callbacks_executor_function. set (s0 := set_sync _ _ [] _).
  assert (sync_inv (m_sync_callbacks_queue s) s0) as Hinv0.
  { eapply sync_inv_sync_only; try done; cbn; [|by rewrite Ha]. rewrite (si_order _ _ Hinv), app_nil_r. done. }
  pose proof (run_sync_block (m_sync_callbacks_queue s) s0 Hb) as Hr.
  destruct (run_sync body s0 _) as [s1|f] eqn:E; cbn [obind]; [|done].
  destruct (run_sync_inv _ _ _ Hinv0 Ha E) as (Hinv1 & _ & Hf & _).
  case_bool_decide; [|done].
  destruct (si_active _ _ Hinv1 (proj1 (fr_active _ _ Hf Ha))) as (h & -> & Hin & _).
  cbn. rewrite bool_decide_true by (apply list_elem_of_fmap; by exists (h, Executor)). done.
Qed.

(** ** One cycle of the loop *)

Lemma sync_inv_perm p s s' :
  sync_inv p s -> all_idles s' ≡ₚ all_idles s -> next_handle s' = next_handle s ->
  user_handles s' = user_handles s ->
  m_sync_callbacks_executor_handle s' = m_sync_callbacks_executor_handle s ->
  m_have_active_sync_callbacks s' = m_have_active_sync_callbacks s ->
  sync_scheduled s' = sync_scheduled s -> sync_run s' = sync_run s ->
  m_sync_callbacks_queue s' = m_sync_callbacks_queue s -> sync_inv p s'.
Proof.
  intros [H1 H2 H3 H4 H5 H6 H7] E1 E2 E3 E4 E5 E6 E7 E8.
  split; rewrite ?E2, ?E3, ?E4, ?E5, ?E6, ?E7, ?E8; try done.
  - by rewrite E1.
  - by rewrite E1.
  - intros h. rewrite E1. apply H5.
  - intros Ha. destruct (H6 Ha) as (h & Hh & Hin & Hu). exists h. by rewrite E1.
Qed.

Record inv (s : t) : Prop := {
  inv_sync : sync_inv [] s;
  inv_async : async_inv [] s;
  inv_block : block_inv s
}.

Lemma initial_state_inv : inv initial.
Proof. split; [apply initial_inv|done|]. unfold block_inv. cbn. lia. Qed.

Lemma on_idle_inv s c : inv s -> (c = Executor -> m_have_active_sync_callbacks s = true) ->
  match on_idle body s c with Ret s' => inv s' | Fault f => stops_twice f end.
Proof.
  intros [Hs Hy Hb] Hc. destruct c as [|c]; cbn [on_idle].
  - specialize (Hc eq_refl). pose proof (executor_block s Hs Hc Hb) as He.
    destruct (sync_callbacks_executor_function body s) as [s'|f] eqn:E; [|done].
    destruct (executor_inv _ _ Hs Hc E) as (Hs' & _). split; [done| |done].
    exact (executor_async s s' Hs Hc Hy E).
  - pose proof (run_callback_block s c Hb) as He. destruct (run_callback body s c) as [s'|f] eqn:E; [|done].
    destruct (calls_inv _ _ _ _ Hs E) as (Hs' & Hf & _ & Hy'). split; [done| |done].
    exact (frame_async _ _ _ Hy Hf Hy').
Qed.

Lemma rotate_perm s x rest : idle_running s = x :: rest ->
  all_idles (set_idles s (idle_handles s ++ [x]) rest (next_handle s)) ≡ₚ all_idles s.
Proof. intros Er. unfold all_idles. cbn. by rewrite Er, <- app_assoc. Qed.

(** [Q] is still owed: it has run, or the executor is among the handles of this iteration that
    are yet to be called. *)
Definition owed (Q : list callback) (s : t) : Prop :=
  Q `prefix_of` sync_run s \/
  (Q `prefix_of` sync_scheduled s /\ exists h, (h, Executor) ∈ idle_running s).

Lemma on_idle_owed Q s s' h c rest :
  inv s -> idle_running s = (h, c) :: rest -> owed Q s ->
  on_idle body (set_idles s (idle_handles s ++ [(h, c)]) rest (next_handle s)) c = Ret s' ->
  owed Q s' /\ (length (idle_running s') <= length rest)%nat.
Proof.
  intros Hinv Er Ho Hi. set (s1 := set_idles _ _ _ _) in Hi.
  assert (sync_inv [] s1) as Hs1.
  { eapply sync_inv_perm; try exact (inv_sync _ Hinv); try done. by apply rotate_perm. }
  destruct c as [|c]; cbn [on_idle] in Hi.
  - destruct (si_executor _ _ Hs1 h) as [_ Ha].
    { unfold all_idles. cbn. apply elem_of_app. left. apply elem_of_app. right. by left. }
    destruct (executor_inv _ _ Hs1 Ha Hi) as (_ & Hrun & _ & Hlen). split; [|done]. left.
    rewrite Hrun. cbn. destruct Ho as [Ho|[Ho _]]; [|done]. etransitivity; [exact Ho|].
    rewrite (si_order _ _ (inv_sync _ Hinv)). by apply prefix_app_r.
  - destruct (calls_inv _ _ _ _ Hs1 Hi) as (_ & Hf & Hrun & _). split; [|apply (fr_running _ _ Hf)].
    destruct Ho as [Ho|(Ho & h0 & Hin)]; [left; by rewrite Hrun|]. right. split.
    { etransitivity; [exact Ho|]. apply (fr_scheduled _ _ Hf). }
    rewrite Er in Hin. apply elem_of_cons in Hin as [?|Hin]; [done|]. exists h0.
    assert ((h0, Executor) ∈ all_idles s1) as Hall by (apply elem_of_app; by right).
    destruct (si_executor _ _ Hs1 _ Hall) as [Eh Ha]. destruct (si_active _ _ Hs1 Ha) as (h1 & Eh1 & _ & Hu).
    rewrite Eh in Eh1. injection Eh1 as <-. apply (fr_executor _ _ Hf); [done| |done].
    pose proof (si_fresh _ _ Hs1) as Hfr. rewrite Forall_forall in Hfr. apply Hfr.
    apply list_elem_of_fmap. by exists (h0, Executor).
Qed.

Lemma run_idle_loop_inv Q fuel s :
  inv s -> (length (idle_running s) <= fuel)%nat -> owed Q s ->
  match run_idle_loop body fuel s with
  | Ret s' => inv s' /\ idle_running s' = [] /\ Q `prefix_of` sync_run s'
  | Fault f => stops_twice f
  end.
Proof.
  revert s. induction fuel as [|fuel IH]; intros s Hinv Hl Ho; cbn [run_idle_loop];
    destruct (idle_running s) as [|[h c] rest] eqn:Er.
  1,3: by destruct Ho as [Ho|(_ & h & Hin)]; [|rewrite Er in Hin; apply not_elem_of_nil in Hin].
  { cbn in Hl. lia. }
  set (s1 := set_idles _ _ _ _).
  assert (inv s1) as Hinv1.
  { destruct Hinv as [Hs Hy Hb]. split; [|done|done]. eapply sync_inv_perm; try exact Hs; try done.
    by apply rotate_perm. }
  assert (c = Executor -> m_have_active_sync_callbacks s1 = true) as Hc.
  { intros ->. apply (si_executor _ _ (inv_sync _ Hinv1) h). unfold all_idles. cbn.
    apply elem_of_app. left. apply elem_of_app. right. by left. }
  pose proof (on_idle_inv s1 c Hinv1 Hc) as H2. destruct (on_idle body s1 c) as [s2|f] eqn:E; cbn [obind]; [|done].
  destruct (on_idle_owed Q _ _ _ _ _ Hinv Er Ho E) as [Ho2 Hl2].
  apply IH; [done|cbn in Hl; lia|done].
Qed.

Lemma run_idle_inv s : inv s -> idle_running s = [] ->
  match run_idle body s with
  | Ret s' => inv s' /\ idle_running s' = [] /\ sync_scheduled s `prefix_of` sync_run s'
  | Fault f => stops_twice f
  end.
Proof.
  intros Hinv Er. unfold run_idle. apply run_idle_loop_inv; [|done|].
  - destruct Hinv as [Hs Hy Hb]. split; [|done|done]. eapply sync_inv_perm; try exact Hs; try done.
    unfold all_idles. cbn. by rewrite Er, app_nil_r.
  - pose proof (inv_sync _ Hinv) as Hs. unfold owed. cbn.
    destruct (m_have_active_sync_callbacks s) eqn:Ha.
    + right. split; [done|]. destruct (si_active _ _ Hs Ha) as (h & _ & Hin & _). exists h.
      unfold all_idles in Hin. by rewrite Er, app_nil_r in Hin.
    + left. rewrite (si_order _ _ Hs). destruct (si_idle _ _ Hs Ha) as [-> _]. by rewrite !app_nil_r.
Qed.

Lemma execute_pending_inv s : sync_inv [] s -> block_inv s ->
  async_posted s = async_run s ++ m_async_callbacks_queue s ->
  match execute_pending_callbacks body s with
  | Ret s' => inv s' /\ async_run s' = async_posted s /\ frame (set_async s [] (async_pending s)) s'
  | Fault f => stops_twice f
  end.
Proof.
  intros Hs Hb Ep. unfold execute_pending_callbacks, swap_pending. set (s1 := set_async _ _ _).
  assert (sync_inv [] s1) as Hs1 by (eapply sync_inv_sync_only; try done; cbn; apply Hs).
  assert (async_inv (m_async_callbacks_queue s) s1) as Hy1 by (split; cbn; [by rewrite app_nil_r|done]).
  pose proof (run_async_block (m_async_callbacks_queue s) s1 Hb) as Hr.
  destruct (run_async body s1 _) as [s2|f] eqn:E; [|done].
  destruct (run_async_inv _ _ _ Hs1 Hy1 E) as (Hs2 & Hy2 & Hrun & Hf). split_and!; [done| |done].
  rewrite Hrun. cbn. by rewrite Ep.
Qed.

Lemma on_async_inv s : inv s -> idle_running s = [] ->
  match on_async body s with
  | Ret s' => inv s' /\ idle_running s' = [] /\ async_run s' = async_posted s
  | Fault f => stops_twice f
  end.
Proof.
  intros [Hs [Hp Hq] Hb] Er. unfold on_async. set (s0 := async_wake s).
  assert (sync_inv [] s0) as Hs0 by (eapply sync_inv_sync_only; try done; cbn; apply Hs).
  pose proof (execute_pending_inv s0 Hs0 Hb Hp) as H.
  destruct (execute_pending_callbacks body s0) as [s'|f]; [|done]. destruct H as (Hi & Hr & Hf).
  split_and!; [done| |done]. pose proof (fr_running _ _ Hf) as Hlen. cbn in Hlen. rewrite Er in Hlen.
  apply nil_length_inv. cbn in Hlen. lia.
Qed.

(** ** What a client sees

    The states of a loop driven by its user's calls, its cycles and the wake-ups of its async
    handle, in any order. *)
Inductive step : t -> t -> Prop :=
| step_call s k s' : call s k = Ret s' -> step s s'
| step_cycle s s' : run_idle body s = Ret s' -> step s s'
| step_async s s' : async_pending s = true -> on_async body s = Ret s' -> step s s'.

Definition reachable (s : t) : Prop := rtc step initial s.

Lemma step_inv s s' : inv s /\ idle_running s = [] -> step s s' -> inv s' /\ idle_running s' = [].
Proof.
  intros [Hinv Er]. destruct 1 as [s k s' H|s s' H|s s' _ H].
  - destruct Hinv as [Hs Hy Hb]. pose proof (call_block s k Hb) as Hb'. rewrite H in Hb'.
    destruct (call_framed _ _ _ H) as (Hf & _ & Hr). split.
    + split; [by eapply call_inv|by eapply frame_async|done].
    + pose proof (fr_running _ _ Hf) as Hl. rewrite Er in Hl. apply nil_length_inv. cbn in Hl. lia.
  - pose proof (run_idle_inv s Hinv Er) as Hr. rewrite H in Hr. tauto.
  - pose proof (on_async_inv s Hinv Er) as Hr. rewrite H in Hr. tauto.
Qed.

Lemma reachable_inv s : reachable s -> inv s /\ idle_running s = [].
Proof.
  intros H. assert (inv initial /\ idle_running initial = []) as H0 by (split; [apply initial_state_inv|done]).
  unfold reachable in H. revert H0. induction H as [s|s1 s2 s3 H12 _ IH]; [done|].
  intros H0. apply IH. by eapply step_inv.
Qed.

End Executor.

(** C7. Callbacks given to [schedule_callback] and to [execute_on_loop_thread] run at most once
    each and in the order of the calls, whatever the callbacks themselves schedule, post, start
    or stop: at any moment what was scheduled is what has run followed by what is queued, and
    while something is queued the loop has an active idle handle (for scheduled callbacks) or a
    pending wake-up (for posted ones) that will run it. *)
Theorem callbacks_in_order_and_never_forgotten body s :
  reachable body s ->
  sync_scheduled s = sync_run s ++ m_sync_callbacks_queue s /\
  async_posted s = async_run s ++ m_async_callbacks_queue s /\
  (m_sync_callbacks_queue s <> [] -> exists h, (h, Executor) ∈ idle_handles s) /\
  (m_async_callbacks_queue s <> [] -> async_pending s = true).
Proof.
  intros [[Hs [Hp Hq] Hb] Er]%reachable_inv. split_and!; [apply Hs|done| |done].
  intros Hne. destruct (m_have_active_sync_callbacks s) eqn:Ha.
  - destruct (si_active _ _ Hs Ha) as (h & _ & Hin & _). exists h. unfold all_idles in Hin.
    by rewrite Er, app_nil_r in Hin.
  - by destruct (si_idle _ _ Hs Ha).
Qed.

(** A callback 0 that schedules 1 and posts 2; 1 schedules itself again. *)
Definition example_body (c : callback) : list Call :=
  match c with
  | 0%nat => [ScheduleCallback 1%nat; ExecuteOnLoopThread 2%nat; CallOnEachCycle 2%nat]
  | 1%nat => [ScheduleCallback 1%nat]
  | _ => []
  end.

Definition example_state : t :=
  schedule_callback (schedule_callback initial 0%nat) 2%nat.

Lemma example_reachable : reachable example_body example_state.
Proof.
  eapply rtc_l; [eapply (step_call _ _ (ScheduleCallback 0%nat)); reflexivity|].
  eapply rtc_l; [eapply (step_call _ _ (ScheduleCallback 2%nat)); reflexivity|]. apply rtc_refl.
Defined.

Lemma callbacks_in_order_and_never_forgotten_witness :
  m_sync_callbacks_queue example_state = [0; 2]%nat /\ exists h, (h, Executor) ∈ idle_handles example_state.
Proof.
  split; [reflexivity|].
  apply (callbacks_in_order_and_never_forgotten example_body example_state example_reachable). done.
Defined.

(** C8. A loop cycle runs every callback that was scheduled before it began, and a wake-up of the
    async handle runs every callback that had been posted, and each returns to the loop: the walk
    over the idle handles ends even when callbacks start and stop handles, and the only fault a
    callback can cause is stopping a handle it has stopped before. *)
Theorem cycle_runs_what_was_scheduled body s :
  reachable body s ->
  match run_idle body s with
  | Ret s' => sync_scheduled s `prefix_of` sync_run s'
  | Fault f => f = UseAfterFree /\ exists c i, StopCallOnEachCycle i ∈ body c
  end /\
  match on_async body s with
  | Ret s' => async_run s' = async_posted s
  | Fault f => f = UseAfterFree /\ exists c i, StopCallOnEachCycle i ∈ body c
  end.
Proof.
  intros [Hinv Er]%reachable_inv. pose proof (run_idle_inv body s Hinv Er) as H1.
  pose proof (on_async_inv body s Hinv Er) as H2. split.
  - destruct (run_idle body s); [tauto|done].
  - destruct (on_async body s); [tauto|done].
Qed.

Lemma cycle_runs_what_was_scheduled_witness :
  exists s', run_idle example_body example_state = Ret s' /\ [0; 2]%nat `prefix_of` sync_run s' /\
             m_sync_callbacks_queue s' = [1]%nat.
Proof.
  destruct (cycle_runs_what_was_scheduled example_body example_state example_reachable) as [H _].
  assert (match run_idle example_body example_state with
          | Ret s' => m_sync_callbacks_queue s' = [1]%nat | Fault _ => False end) as Hq by (vm_compute; reflexivity).
  revert H Hq. generalize (run_idle example_body example_state). intros [s'|f] H Hq; [|done].
  exists s'. split; [done|]. split; [exact H|exact Hq].
Defined.

(** ** Posting from several threads

    Calls of [execute_on_loop_thread] are under way on any number of threads, each somewhere in its
    [posting].  The loop thread clears the pending flag before it calls [on_async], swaps the queue
    under the mutex and runs the copy, callback by callback and call by call, its own posts part by
    part; at loop exit [run] does the same without a wake-up; and in between the loop thread may
    run any other of the program's callbacks. *)
Module Posting.

Inductive phase :=
| Waiting                      (* in libuv *)
| Woken                        (* inside [execute_pending_callbacks], before the mutex *)
(* A post that is under way, the calls the callback still makes, the callbacks still to be run. *)
| Running (rest : list atom) (ks : list Call) (callbacks_queue_copy : list callback).

Record state := mk_state {
  loop : t;
  (** What is left of the calls of [execute_on_loop_thread] on the other threads. *)
  threads : list (list atom);
  at_phase : phase
}.

Section Interleaving.
Context (body : callback -> list Call).

Inductive post_step : state -> state -> Prop :=
| post_call s ts p c : post_step (mk_state s ts p) (mk_state s (ts ++ [posting c]) p)
| post_atom s ts p i a rest : ts !! i = Some (a :: rest) ->
    post_step (mk_state s ts p) (mk_state (atom_step s a) (<[i:=rest]> ts) p).

Inductive loop_step : state -> state -> Prop :=
| loop_other s ts c : loop_step (mk_state s ts Waiting) (mk_state s ts (Running [] (body c) []))
| loop_wake s ts : async_pending s = true ->
    loop_step (mk_state s ts Waiting) (mk_state (async_wake s) ts Woken)
| loop_exit s ts : loop_step (mk_state s ts Waiting) (mk_state s ts Woken)
| loop_swap s ts :
    loop_step (mk_state s ts Woken) (mk_state (swap_pending s).1 ts (Running [] [] (swap_pending s).2))
| loop_begin s ts c q :
    loop_step (mk_state s ts (Running [] [] (c :: q))) (mk_state (record_runs s [] [c]) ts (Running [] (body c) q))
| loop_post s ts c ks q :
    loop_step (mk_state s ts (Running [] (ExecuteOnLoopThread c :: ks) q)) (mk_state s ts (Running (posting c) ks q))
| loop_atom s ts a rest ks q :
    loop_step (mk_state s ts (Running (a :: rest) ks q)) (mk_state (atom_step s a) ts (Running rest ks q))
| loop_call s ts k ks q s' : (forall c, k <> ExecuteOnLoopThread c) -> call s k = Ret s' ->
    loop_step (mk_state s ts (Running [] (k :: ks) q)) (mk_state s' ts (Running [] ks q))
| loop_done s ts : loop_step (mk_state s ts (Running [] [] [])) (mk_state s ts Waiting).

Definition start : state := mk_state initial [] Waiting.
Definition any_step (x y : state) : Prop := post_step x y \/ loop_step x y.
Definition interleaving (x : state) : Prop := rtc any_step start x.

Definition copy (x : state) : list callback :=
  match at_phase x with Running _ _ q => q | _ => [] end.
Definition own_post (x : state) : list atom :=
  match at_phase x with Running rest _ _ => rest | _ => [] end.

(** No call of [execute_on_loop_thread] is under way. *)
Definition through (x : state) : Prop := Forall (.= []) (threads x) /\ own_post x = [].

(** What the loop thread does until it is in libuv again, by the functions of the loop. *)
Definition rest_of (x : state) : outcome t :=
  match at_phase x with
  | Waiting => Ret (loop x)
  | Woken => execute_pending_callbacks body (loop x)
  | Running rest ks q => let* s := calls (fold_left atom_step rest (loop x)) ks in run_async body s q
  end.

Record posting_inv (x : state) : Prop := {
  pi_sync : sync_inv [] (loop x);
  pi_block : block_inv (loop x);
  pi_order : async_posted (loop x) = async_run (loop x) ++ copy x ++ m_async_callbacks_queue (loop x);
  pi_posts : Forall (fun p => exists c, p `suffix_of` posting c) (own_post x :: threads x);
  pi_pending : m_async_callbacks_queue (loop x) <> [] ->
    async_pending (loop x) = true \/ [Send] ∈ own_post x :: threads x \/ at_phase x = Woken;
  pi_calls : match at_phase x with
             | Running _ ks _ => forall i, StopCallOnEachCycle i ∈ ks -> exists c, StopCallOnEachCycle i ∈ body c
             | _ => True
             end
}.

Lemma atom_sync s a : sync_inv [] s -> sync_inv [] (atom_step s a).
Proof. intros Hs. destruct a; eapply sync_inv_sync_only; try done; cbn; rewrite ?app_nil_r; apply Hs. Qed.

Lemma suffix_posting p c : p `suffix_of` posting c -> p = [] \/ p = [Send] \/ p = posting c.
Proof.
  destruct p as [|a p]; [auto|]. unfold posting. intros [E|[E|E%suffix_nil_inv]%suffix_cons_inv]%suffix_cons_inv; auto; done.
Qed.

(** A part of a post: the rest is still one, the callback is queued behind the others, and a queue
    that is not empty has its wake-up, or the send is what is left. *)
Lemma atom_post s a rest c : a :: rest `suffix_of` posting c ->
  (exists q, m_async_callbacks_queue (atom_step s a) = m_async_callbacks_queue s ++ q /\
     async_posted (atom_step s a) = async_posted s ++ q) /\
  (async_pending (atom_step s a) = true \/ a <> Send /\ rest = [Send] /\ async_pending (atom_step s a) = async_pending s).
Proof.
  intros [?|[E|E]]%suffix_posting; [done| |]; injection E as -> ->; cbn.
  - split; [exists []; by rewrite !app_nil_r|by left].
  - split; [by exists [c]|by right].
Qed.

Lemma suffix_tail (a : atom) rest c : a :: rest `suffix_of` posting c -> rest `suffix_of` posting c.
Proof. intros H. etransitivity; [|exact H]. by exists [a]. Qed.

Lemma post_step_inv x y : posting_inv x -> post_step x y -> posting_inv y.
Proof.
  intros Hx Hs. destruct Hs as [s ts p c|s ts p i a rest Hi]; destruct Hx as [H1 H2 H3 H4 H5 H6]; cbn in *.
  - split; cbn; try done.
    + rewrite app_comm_cons. apply Forall_app. split; [done|]. apply Forall_singleton. by exists c.
    + intros Hq. destruct (H5 Hq) as [?|[?|?]]; [auto| |auto]. right. left. rewrite app_comm_cons. apply elem_of_app. by left.
  - apply Forall_cons in H4 as [H4 H4']. pose proof (Forall_lookup_1 _ _ _ _ H4' Hi) as [c Hc].
    destruct (atom_post s a rest c Hc) as [(q & Eq & Ep) Hp].
    split; cbn; try done.
    + by apply atom_sync.
    + by destruct a.
    + rewrite Eq, Ep, H3, <- !app_assoc. by destruct a.
    + constructor; [done|]. apply Forall_insert; [done|]. exists c. by eapply suffix_tail.
    + intros Hq. destruct Hp as [?|(Ha & -> & _)]; [auto|]. right. left. right. apply list_elem_of_lookup_2 with i.
      apply list_lookup_insert_eq. by eapply lookup_lt_Some.
Qed.

Lemma call_posted s k s' : call s k = Ret s' -> (forall c, k <> ExecuteOnLoopThread c) ->
  m_async_callbacks_queue s' = m_async_callbacks_queue s /\ async_posted s' = async_posted s /\
  async_run s' = async_run s /\ async_pending s' = async_pending s.
Proof.
  destruct k as [c|c|c|i| |]; cbn [call]; intros H Hk.
  - injection H as <-. unfold schedule_callback. destruct (negb _); cbn; by rewrite app_nil_r.
  - by destruct (Hk c).
  - by injection H as <-.
  - destruct (_ !! i); [|by injection H as <-]. unfold stop_call_on_each_loop_cycle in H. case_bool_decide; [|done]. by injection H as <-.
  - injection H as <-. unfold start_block_loop_from_exit. by destruct (negb _).
  - unfold stop_block_loop_from_exit in H. destruct (negb _); [|destruct (m_dummy_idle s); [|done]]; by injection H as <-.
Qed.

Lemma loop_step_inv x y : posting_inv x -> loop_step x y -> posting_inv y.
Proof.
  intros Hx Hl. destruct Hl as [s ts c|s ts Hw|s ts|s ts|s ts c q|s ts c ks q|s ts a rest ks q|s ts k ks q s' Hk Hc|s ts];
    destruct Hx as [H1 H2 H3 H4 H5 H6]; cbn in *.
  - split; cbn; try done; [|by eauto]. intros Hq. destruct (H5 Hq) as [?|[?|?]]; [auto|auto|done].
  - split; cbn; try done; [|by auto]. eapply sync_inv_sync_only; try done; cbn; apply H1.
  - split; cbn; try done. auto.
  - split; cbn; try done.
    + eapply sync_inv_sync_only; try done; cbn; apply H1.
    + by rewrite app_nil_r.
    + by intros i Hi%not_elem_of_nil.
  - split; cbn; try done; [| | |by eauto].
    + eapply sync_inv_sync_only; try done; cbn; rewrite ?app_nil_r; apply H1.
    + by rewrite H3, <- !app_assoc.
    + intros Hq. destruct (H5 Hq) as [?|[?|?]]; [auto|auto|done].
  - split; cbn; try done.
    + apply Forall_cons in H4 as [_ H4]. constructor; [by exists c|done].
    + intros Hq. destruct (H5 Hq) as [?|[[?|?]%elem_of_cons|?]]; [auto|done| |done]. right. left. by right.
    + intros i Hi. apply H6. by right.
  - apply Forall_cons in H4 as [[c Hs] H4]. destruct (atom_post s a rest c Hs) as [(q' & Eq & Ep) Hp].
    split; cbn; try done.
    + by apply atom_sync.
    + by destruct a.
    + rewrite Eq, Ep, H3, <- !app_assoc. by destruct a.
    + constructor; [|done]. exists c. by eapply suffix_tail.
    + intros Hq. destruct Hp as [?|(Ha & -> & _)]; [auto|]. right. left. by left.
  - pose proof (call_block s k H2) as Hb. rewrite Hc in Hb. destruct (call_posted _ _ _ Hc Hk) as (E1 & E2 & E3 & E4).
    split; cbn; rewrite ?E1, ?E2, ?E3, ?E4; try done; [by eapply call_inv| |].
    + intros Hq. destruct (H5 Hq) as [?|[?|?]]; [auto|auto|done].
    + intros i Hi. apply H6. by right.
  - split; cbn; try done. intros Hq. destruct (H5 Hq) as [?|[?|?]]; [auto|auto|done].
Qed.

Lemma interleaving_inv x : interleaving x -> posting_inv x.
Proof.
  intros H. assert (posting_inv start) as H0.
  { split; cbn; try done; [apply initial_inv|unfold block_inv; cbn; lia|]. apply Forall_singleton. exists 0%nat. by exists (posting 0%nat). }
  unfold interleaving in H. revert H0. induction H as [x|x1 x2 x3 H12 _ IH]; [done|].
  intros H0. apply IH. destruct H12; [by eapply post_step_inv|by eapply loop_step_inv].
Qed.

(** *** The loop thread on its own does what the functions of the loop do *)

Lemma loop_runs_atoms s ts rest ks q :
  rtc loop_step (mk_state s ts (Running rest ks q)) (mk_state (fold_left atom_step rest s) ts (Running [] ks q)).
Proof. revert s. induction rest as [|a rest IH]; intros s; cbn; [done|]. eapply rtc_l; [constructor|apply IH]. Qed.

Lemma loop_runs_calls s ts ks q s' : calls s ks = Ret s' ->
  rtc loop_step (mk_state s ts (Running [] ks q)) (mk_state s' ts (Running [] [] q)).
Proof.
  revert s. induction ks as [|k ks IH]; intros s; cbn [calls]; [by intros [= <-]|].
  intros (s1 & H1 & H2)%obind_ret_inv. specialize (IH s1 H2).
  assert ((exists c, k = ExecuteOnLoopThread c) \/ forall c, k <> ExecuteOnLoopThread c) as [[c ->]|Hk]
    by (destruct k; eauto).
  - injection H1 as <-. eapply rtc_l; [constructor|]. etransitivity; [apply loop_runs_atoms|exact IH].
  - eapply rtc_l; [by apply loop_call|exact IH].
Qed.

Lemma loop_runs_copy s ts q s' : run_async body s q = Ret s' ->
  rtc loop_step (mk_state s ts (Running [] [] q)) (mk_state s' ts Waiting).
Proof.
  revert s. induction q as [|c q IH]; intros s; cbn [run_async].
  - intros [= <-]. apply rtc_once. constructor.
  - intros (s1 & H1 & H2)%obind_ret_inv. eapply rtc_l; [constructor|].
    etransitivity; [by apply loop_runs_calls|by apply IH].
Qed.

Lemma loop_alone x s' : rest_of x = Ret s' -> rtc loop_step x (mk_state s' (threads x) Waiting).
Proof.
  destruct x as [s ts [| |rest ks q]]; unfold rest_of; cbn [at_phase loop threads].
  - by intros [= <-].
  - intros H. eapply rtc_l; [constructor|]. by apply loop_runs_copy.
  - intros (s1 & H1 & H2)%obind_ret_inv. etransitivity; [apply loop_runs_atoms|].
    etransitivity; [by apply loop_runs_calls|by apply loop_runs_copy].
Qed.

Lemma fold_atoms_block rest s : block_inv s -> block_inv (fold_left atom_step rest s).
Proof. revert s. induction rest as [|a rest IH]; intros s Hb; cbn; [done|]. apply IH. by destruct a. Qed.

Lemma rest_of_fault x f : posting_inv x -> rest_of x = Fault f -> stops_twice body f.
Proof.
  intros [H1 H2 H3 H4 H5 H6]. unfold rest_of. destruct (at_phase x) as [| |rest ks q]; [done| |].
  - pose proof (run_async_block body (swap_pending (loop x)).2 (swap_pending (loop x)).1 H2) as H.
    unfold execute_pending_callbacks. cbn in *. intros E. by rewrite E in H.
  - pose proof (calls_block _ ks (fold_atoms_block rest _ H2)) as H. destruct (calls _ ks) as [s1|f1]; cbn.
    + pose proof (run_async_block body q s1 H) as Hr. intros E. by rewrite E in Hr.
    + intros [= <-]. destruct H as [-> [i Hi]]. split; [done|]. destruct (H6 i Hi) as [c Hc]. eauto.
Qed.

Lemma loop_steps_inv x y : posting_inv x -> rtc loop_step x y -> posting_inv y.
Proof. intros Hx H. induction H as [|x y z Hs _ IH]; [done|]. by apply IH, (loop_step_inv x). Qed.

Lemma loop_step_grows x y : loop_step x y -> posting_inv x ->
  async_posted (loop x) `prefix_of` async_posted (loop y) /\ threads y = threads x.
Proof.
  intros [s ts c|s ts Hw|s ts|s ts|s ts c q|s ts c ks q|s ts a rest ks q|s ts k ks q s' Hk Hc|s ts] Hx; try done; cbn.
  - split; [|done]. destruct a; cbn; [by eexists|done].
  - destruct (call_posted _ _ _ Hc Hk) as (_ & -> & _). done.
Qed.

Lemma loop_steps_grow x y : posting_inv x -> rtc loop_step x y ->
  async_posted (loop x) `prefix_of` async_posted (loop y) /\ threads y = threads x.
Proof.
  intros Hx H. induction H as [|x y z Hs _ IH]; [done|].
  destruct (loop_step_grows _ _ Hs Hx) as [Hp Ht]. destruct (IH (loop_step_inv _ _ Hx Hs)) as [Hp' Ht'].
  split; [by transitivity (async_posted (loop y))|congruence].
Qed.

Lemma pending_when_through x : posting_inv x -> through x -> at_phase x <> Woken ->
  m_async_callbacks_queue (loop x) <> [] -> async_pending (loop x) = true.
Proof.
  intros Hx [Ht Ho] Hp Hq. destruct (pi_pending _ Hx Hq) as [?|[[E|Hin]%elem_of_cons|?]]; [done| | |done].
  - rewrite Ho in E. done.
  - rewrite Forall_forall in Ht. by apply Ht in Hin.
Qed.

(** One wake-up from libuv runs all that was posted. *)
Lemma wake_up_runs_all s ts : posting_inv (mk_state s ts Waiting) ->
  match on_async body s with
  | Ret s' => async_run s' = async_posted s
  | Fault f => stops_twice body f
  end.
Proof.
  intros [H1 H2 H3 _ _ _]. cbn in H1, H2, H3. unfold on_async.
  assert (sync_inv [] (async_wake s)) as Hs by (eapply sync_inv_sync_only; try done; cbn; apply H1).
  pose proof (execute_pending_inv body (async_wake s) Hs H2 H3) as H.
  destruct (execute_pending_callbacks body _) as [s'|f]; [|exact H]. by destruct H as (_ & H & _).
Qed.

End Interleaving.
End Posting.

(** C9. Posting from any number of threads loses no callback and no wake-up, for every
    interleaving of the parts of [execute_on_loop_thread] with the loop thread, whose callbacks
    may call the loop and post in their turn: callbacks run once each in the order of their pushes;
    a callback queued while no post is under way and the loop is not inside
    [execute_pending_callbacks] has a pending wake-up.  Once the posting threads are through, the
    loop thread alone comes back to libuv, by what [execute_pending_callbacks] and [run_async] do
    from where it is, and [on_async], for which a wake-up is then pending if anything is queued,
    runs everything posted.  The only fault is a callback that stops a handle twice. *)
Theorem posting_never_loses_a_callback body (x : Posting.state) :
  Posting.interleaving body x ->
  (async_posted (Posting.loop x) =
     async_run (Posting.loop x) ++ Posting.copy x ++ m_async_callbacks_queue (Posting.loop x)) /\
  (m_async_callbacks_queue (Posting.loop x) <> [] -> Posting.through x ->
   Posting.at_phase x <> Posting.Woken -> async_pending (Posting.loop x) = true) /\
  (Forall (.= []) (Posting.threads x) ->
   match Posting.rest_of body x with
   | Ret s1 =>
       rtc (Posting.loop_step body) x (Posting.mk_state s1 (Posting.threads x) Posting.Waiting) /\
       async_posted (Posting.loop x) `prefix_of` async_posted s1 /\
       (m_async_callbacks_queue s1 <> [] -> async_pending s1 = true) /\
       match on_async body s1 with
       | Ret s2 => async_run s2 = async_posted s1
       | Fault f => stops_twice body f
       end
   | Fault f => stops_twice body f
   end).
Proof.
  intros Hx%Posting.interleaving_inv. split_and!.
  - by apply Posting.pi_order with (body := body).
  - intros Hq Ht Hp. by eapply Posting.pending_when_through.
  - intros Ht. destruct (Posting.rest_of body x) as [s1|f] eqn:E; [|by eapply Posting.rest_of_fault].
    pose proof (Posting.loop_alone body _ _ E) as Hr. pose proof (Posting.loop_steps_inv body _ _ Hx Hr) as Hx1.
    split_and!; [done|by apply (Posting.loop_steps_grow body _ _ Hx Hr)| |by eapply Posting.wake_up_runs_all].
    intros Hq. by apply (Posting.pending_when_through body _ Hx1).
Qed.

(** Two threads post; the loop wakes, swaps and runs callback 0, which posts 2 in its turn. *)
Lemma posting_never_loses_a_callback_witness :
  exists x, Posting.interleaving example_body x /\ async_posted (Posting.loop x) = [5; 0; 2]%nat /\
    async_run (Posting.loop x) = [5; 0]%nat /\ m_async_callbacks_queue (Posting.loop x) = [2]%nat /\
    async_pending (Posting.loop x) = true.
Proof.
  assert (exists x, Posting.interleaving example_body x /\ async_posted (Posting.loop x) = [5; 0; 2]%nat /\
    async_run (Posting.loop x) = [5; 0]%nat /\ m_async_callbacks_queue (Posting.loop x) = [2]%nat /\
    Posting.through x /\ Posting.at_phase x <> Posting.Woken) as (x & Hx & E1 & E2 & E3 & Ht & Hp).
  { eexists. split.
    { eapply rtc_l; [left; apply Posting.post_call with (c := 5%nat)|].
      eapply rtc_l; [left; apply Posting.post_call with (c := 0%nat)|].
      eapply rtc_l; [left; apply Posting.post_atom with (i := 0%nat); reflexivity|].
      eapply rtc_l; [left; apply Posting.post_atom with (i := 1%nat); reflexivity|].
      eapply rtc_l; [left; apply Posting.post_atom with (i := 1%nat); reflexivity|].
      eapply rtc_l; [left; apply Posting.post_atom with (i := 0%nat); reflexivity|].
      eapply rtc_l; [right; apply Posting.loop_wake; reflexivity|].
      eapply rtc_l; [right; apply Posting.loop_swap|].
      eapply rtc_l; [right; apply Posting.loop_begin|].
      eapply rtc_l; [right; apply Posting.loop_begin|].
      eapply rtc_l; [right; apply Posting.loop_call; [discriminate|reflexivity]|].
      eapply rtc_l; [right; apply Posting.loop_post|].
      eapply rtc_l; [right; apply Posting.loop_atom|].
      eapply rtc_l; [right; apply Posting.loop_atom|]. apply rtc_refl. }
    vm_compute. split_and!; try reflexivity; [repeat constructor|discriminate]. }
  exists x. do 4 (split; [assumption|]).
  apply (proj1 (proj2 (posting_never_loses_a_callback example_body x Hx))); [rewrite E3; discriminate|assumption|assumption].
Defined.

(** ** The end of [run] *)

(** [run] returns status 0 only when nothing is posted any more, and then [is_running] is false
    again.  [uv_run] stands for libuv's loop, which runs callbacks of this loop only. *)
Theorem run_drains_posted body uv_run fuel s s' st :
  (forall s1 s2 st, uv_run s1 = Ret (s2, st) -> inv s1 -> inv s2) ->
  inv s -> run body uv_run fuel s = Ret (s', st) ->
  m_is_running s' = false /\ inv s' /\ (st = 0 -> async_run s' = async_posted s' /\ m_async_callbacks_queue s' = []).
Proof.
  intros Huv Hinv. unfold run. intros ([s1 st1] & H1 & [= <- <-])%obind_ret_inv.
  set (s0 := set_running s true true) in H1.
  assert (inv s0) as Hinv0.
  { destruct Hinv as [Hs Hy Hb]. split; [|done|done]. eapply sync_inv_sync_only; try done; cbn; apply Hs. }
  clearbody s0. split; [done|].
  enough (inv s1 /\ (st1 = 0 -> async_run s1 = async_posted s1 /\ m_async_callbacks_queue s1 = [])) as [Hi Hd].
  { split; [|exact Hd]. destruct Hi as [Hs Hy Hb]. split; [|done|done].
    eapply sync_inv_sync_only; try done; cbn; apply Hs. }
  revert s0 Hinv0 H1. clear -Huv. induction fuel as [|fuel IH]; intros s0 Hinv0; cbn [run_loop]; [done|].
  intros ([s2 st2] & H2 & (s3 & H3 & H4)%obind_ret_inv)%obind_ret_inv.
  pose proof (Huv _ _ _ H2 Hinv0) as Hinv2. pose proof Hinv2 as [Hs2 [Hp2 Hq2] Hb2].
  pose proof (execute_pending_inv body s2 Hs2 Hb2 Hp2) as He. rewrite H3 in He. destruct He as (Hinv3 & Hr3 & Hf3).
  destruct (Z.eqb_spec st2 0) as [->|Hst]; cbn [andb] in H4; [|by injection H4 as <- <-].
  case_bool_decide as Hq; cbn [negb] in H4; [|by eapply IH].
  injection H4 as <- <-. split; [done|]. intros _.
  unfold execute_pending_callbacks, swap_pending in H3. rewrite Hq in H3. injection H3 as <-. cbn in *.
  by rewrite Hp2, Hq, app_nil_r.
Qed.

(** ** Keeping the loop from exiting *)

(** The nesting depth after a sequence of starts ([true]) and stops; [None] when some stop has no
    start before it. *)
Fixpoint depth (n : nat) (ops : list bool) : option nat :=
  match ops with
  | [] => Some n
  | true :: ops => depth (S n) ops
  | false :: ops => match n with O => None | S n => depth n ops end
  end.

Definition block_call (start : bool) : Call := if start then StartBlockLoop else StopBlockLoop.

Definition blocks (s0 : t) (n : nat) (s : t) : Prop :=
  m_dummy_idle_ref_counter s = Z.of_nat n /\
  (forall h, h ∈ timers s0 -> (h < next_handle s)%nat) /\
  match n with
  | O => m_dummy_idle s = None /\ timers s = timers s0
  | S _ => exists h, (h ∉ timers s0) /\ m_dummy_idle s = Some h /\ timers s = {[h]} ∪ timers s0
  end.

Lemma start_blocks s0 n s : blocks s0 n s -> blocks s0 (S n) (start_block_loop_from_exit s).
Proof.
  unfold blocks, start_block_loop_from_exit. intros (Hc & Hf & Hn). rewrite Hc.
  destruct n as [|n].
  - change (Z.of_nat 0 =? 0) with true. cbn. destruct Hn as [Hd Ht]. split_and!; [lia|intros h Hh; specialize (Hf h Hh); lia|].
    exists (next_handle s). split_and!; [|done|by rewrite Ht]. intros Hin. specialize (Hf _ Hin). lia.
  - rewrite (proj2 (Z.eqb_neq _ 0)) by lia. cbn -[Z.of_nat]. split_and!; [lia|done|done].
Qed.

Lemma stop_blocks s0 n s : blocks s0 (S n) s ->
  exists s', stop_block_loop_from_exit s = Ret s' /\ blocks s0 n s'.
Proof.
  unfold blocks, stop_block_loop_from_exit. intros (Hc & Hf & h & Hh & Hd & Ht). rewrite Hc, Hd, Ht.
  destruct n as [|n].
  - change (Z.of_nat 1 - 1 =? 0) with true. eexists. split; [reflexivity|]. cbn.
    split_and!; [lia|done|done|]. set_solver.
  - rewrite (proj2 (Z.eqb_neq _ 0)) by lia. eexists. split; [reflexivity|]. cbn -[Z.of_nat].
    split_and!; [lia|done|]. by exists h.
Qed.

Lemma calls_blocks s0 ops n m s : blocks s0 n s -> depth n ops = Some m ->
  exists s', calls s (map block_call ops) = Ret s' /\ blocks s0 m s'.
Proof.
  revert n s. induction ops as [|[] ops IH]; intros n s Hb; cbn [depth map block_call calls call].
  - intros [= <-]. by exists s.
  - rewrite obind_ret. by apply IH, start_blocks.
  - destruct n as [|n]; [done|]. destruct (stop_blocks _ _ _ Hb) as (s1 & -> & Hb1). rewrite obind_ret. by apply IH.
Qed.

(** [start_block_loop_from_exit] and [stop_block_loop_from_exit] nest: after any sequence in
    which every stop has its start, none of them having faulted, one timer of the loop's own keeps
    it alive exactly while starts outnumber stops, and when they are even again no timer is left
    over. *)
Theorem block_loop_from_exit_nests s ops n :
  m_dummy_idle_ref_counter s = 0 -> m_dummy_idle s = None ->
  (forall h, h ∈ timers s -> (h < next_handle s)%nat) ->
  depth 0 ops = Some n ->
  exists s', calls s (map block_call ops) = Ret s' /\ m_dummy_idle_ref_counter s' = Z.of_nat n /\
    (n = 0%nat -> m_dummy_idle s' = None /\ timers s' = timers s) /\
    (n <> 0%nat -> exists h, (h ∉ timers s) /\ m_dummy_idle s' = Some h /\ timers s' = {[h]} ∪ timers s).
Proof.
  intros Hc Hd Hf Hn. destruct (calls_blocks s ops 0 n s) as (s' & H & Hc' & _ & Hb); [|done|].
  { by split_and!. }
  exists s'. split_and!; [done|done| |]; destruct n; done.
Qed.

Lemma block_loop_from_exit_nests_witness :
  exists s', calls initial (map block_call [true; true; false; false; true]) = Ret s' /\
             m_dummy_idle_ref_counter s' = 1 /\ m_dummy_idle s' <> None.
Proof.
  destruct (block_loop_from_exit_nests initial [true; true; false; false; true] 1 eq_refl eq_refl
              (fun h Hh => False_ind _ (not_elem_of_empty h Hh)) eq_refl) as (s' & H & Hc & _ & Hb).
  exists s'. split; [exact H|]. split; [exact Hc|].
  destruct (Hb ltac:(discriminate)) as (h & _ & E & _). rewrite E. discriminate.
Defined.

(** A stop without a start makes the next start ineffective. *)
Example extra_stop_disables_start :
  match calls initial [StopBlockLoop; StartBlockLoop] with
  | Ret s => m_dummy_idle s = None /\ m_dummy_idle_ref_counter s = 0
  | Fault _ => False
  end.
Proof. by vm_compute. Qed.

End EventLoop.
