(* ===== verification/LoopServices.v ===== *)
(** * Services of the loop: signals and thread-pool work

    [source/io/EventLoop.cpp]: module [Signals] models [add_signal_handler],
    [remove_signal_handler], [on_signal] and [close_signal_handlers]; module [Works] models
    [add_work], [cancel_work], [on_work] and [on_after_work] for one piece of work, with the loop
    thread, the thread pool and the cancelling code as interleaved steps.

    libuv's [uv_signal_init] and [uv_signal_start] return a status the model takes as an argument
    of the call; [uv_signal_stop] always succeeds.  A work request is in libuv's queue until a
    pool thread takes it out; [uv_cancel] takes it back while it is there and returns [UV_EBUSY]
    otherwise ([thirdparty/libuv-1.30.1/src/threadpool.c]). *)

From S2P Require Import Prelude StatusCode.
Local Open Scope outcome_scope.

(** ** Signal handlers *)

Module Signals.

Inductive Signal := INT | HUP | WINCH.

#[global] Instance signal_eq_dec : EqDecision Signal.
Proof. solve_decision. Defined.

Inductive Continuity := ONCE | REPEAT.

(** A [SignalHandler]; [initialized] is libuv's: [uv_signal_init] succeeded on it; [active]: it has
    been started and not stopped since. *)
Record SignalHandler := mkHandler {
  callback : nat;
  continuity : Continuity;
  initialized : bool;
  active : bool
}.

(** [m_signal_handlers]. *)
Definition handlers := Signal -> option SignalHandler.
Definition no_handlers : handlers := fun _ => None.

Definition update (hs : handlers) (signal : Signal) (h : SignalHandler) : handlers :=
  fun s => if bool_decide (s = signal) then Some h else hs s.

(** The numbers of [SIGINT], [SIGHUP] and [SIGWINCH] on Linux. *)
Definition uv_signal_from_enum (signal : Signal) : Z :=
  match signal with INT => 2 | HUP => 1 | WINCH => 28 end.

Section Handlers.
Context {uv : UvErrno}.

(** [add_signal_handler]; [cb] is [None] for an empty [std::function], [init_status] and
    [start_status] are what [uv_signal_init] and [uv_signal_start] return if they are called. *)
Definition add_signal_handler (hs : handlers) (signal : Signal) (cb : option nat)
    (handler_continuity : Continuity) (init_status start_status : Z) : outcome (handlers * Error) :=
  match cb with
  | None => Ret (hs, Error_of_status INVALID_ARGUMENT)
  | Some cb =>
      let sig_num := uv_signal_from_enum signal in
      if sig_num =? 0 then Ret (hs, Error_of_status INVALID_ARGUMENT)
      else
        let existing := hs signal in
        let '(h, hs, init_error) :=
          match existing with
          | Some h => (h, hs, Error_of_status OK)
          | None =>
              let init_error := Error_of_uv init_status in
              let h := mkHandler 0 ONCE (negb (error_bool init_error)) false in
              (h, update hs signal h, init_error)
          end in
        if error_bool init_error then Ret (hs, init_error)
        else
          let h := mkHandler cb handler_continuity (initialized h) (active h) in
          check initialized h else Uninitialised in
          let start_error := Error_of_uv start_status in
          if error_bool start_error then Ret (update hs signal h, start_error)
          else Ret (update hs signal (mkHandler cb handler_continuity (initialized h) true), Error_of_status OK)
  end.

Definition remove_signal_handler (hs : handlers) (signal : Signal) : outcome handlers :=
  match hs signal with
  | Some h =>
      check initialized h else Uninitialised in
      Ret (update hs signal (mkHandler (callback h) (continuity h) (initialized h) false))
  | None => Ret hs
  end.

(** The delivery of a signal: libuv calls [on_signal] on a handle that is active; the result is the
    callback that is called, with the error it is given. *)
Definition on_signal (hs : handlers) (signal : Signal) : handlers * option (nat * Error) :=
  match hs signal with
  | Some h =>
      if active h then
        let hs :=
          match continuity h with
          | ONCE => update hs signal (mkHandler (callback h) (continuity h) (initialized h) false)
          | REPEAT => hs
          end in
        (hs, Some (callback h, Error_of_status OK))
      else (hs, None)
  | None => (hs, None)
  end.

(** [close_signal_handlers]: the handles that are stopped and closed. *)
Definition close_signal_handlers (hs : handlers) : outcome (list Signal) :=
  let known := List.filter (fun s => bool_decide (is_Some (hs s))) [INT; HUP; WINCH] in
  let fix close (l : list Signal) : outcome (list Signal) :=
    match l with
    | [] => Ret []
    | s :: l =>
        match hs s with
        | Some h => check initialized h else Uninitialised in let* r := close l in Ret (s :: r)
        | None => close l
        end
    end in
  close known.

(** *** What the interface promises

    A table of live subscriptions: adding replaces, removing deletes, a delivery calls the
    subscriber and ends a subscription made with [handle_signal_once]. *)
Definition subscriptions := Signal -> option (nat * Continuity).

Definition view (hs : handlers) : subscriptions :=
  fun s => h ← hs s; if active h then Some (callback h, continuity h) else None.

Definition spec_set (v : subscriptions) (signal : Signal) (x : option (nat * Continuity)) : subscriptions :=
  fun s => if bool_decide (s = signal) then x else v s.

Definition spec_deliver (v : subscriptions) (signal : Signal) : subscriptions * option nat :=
  match v signal with
  | Some (cb, ONCE) => (spec_set v signal None, Some cb)
  | Some (cb, REPEAT) => (v, Some cb)
  | None => (v, None)
  end.

Inductive op :=
| Add (signal : Signal) (cb : option nat) (c : Continuity)
| Remove (signal : Signal)
| Deliver (signal : Signal).

(** A run of the implementation in which libuv grants every request, with the callbacks called. *)
Fixpoint exec (hs : handlers) (ops : list op) : outcome (handlers * list nat) :=
  match ops with
  | [] => Ret (hs, [])
  | Add signal cb c :: ops =>
      let* (hs, _) := add_signal_handler hs signal cb c 0 0 in exec hs ops
  | Remove signal :: ops => let* hs := remove_signal_handler hs signal in exec hs ops
  | Deliver signal :: ops =>
      let '(hs, called) := on_signal hs signal in
      let* (hs, l) := exec hs ops in
      Ret (hs, match called with Some (cb, _) => cb :: l | None => l end)
  end.

Fixpoint spec_exec (v : subscriptions) (ops : list op) : subscriptions * list nat :=
  match ops with
  | [] => (v, [])
  | Add signal (Some cb) c :: ops => spec_exec (spec_set v signal (Some (cb, c))) ops
  | Add signal None c :: ops => spec_exec v ops
  | Remove signal :: ops => spec_exec (spec_set v signal None) ops
  | Deliver signal :: ops =>
      let '(v, called) := spec_deliver v signal in
      let '(v, l) := spec_exec v ops in
      (v, match called with Some cb => cb :: l | None => l end)
  end.

Definition well_formed (hs : handlers) : Prop := forall s h, hs s = Some h -> initialized h = true.

Definition represents (hs : handlers) (v : subscriptions) : Prop :=
  well_formed hs /\ forall s, view hs s = v s.

Lemma update_well_formed hs signal h : well_formed hs -> initialized h = true -> well_formed (update hs signal h).
Proof. unfold well_formed, update. intros Hw Hh s h'. case_bool_decide; [by intros [= <-]|apply Hw]. Qed.

Lemma update_represents hs v signal h :
  represents hs v -> initialized h = true ->
  represents (update hs signal h) (spec_set v signal (if active h then Some (callback h, continuity h) else None)).
Proof.
  intros [Hw Hv] Hh. split; [by apply update_well_formed|]. intros s. unfold view, update, spec_set.
  case_bool_decide; [done|apply Hv].
Qed.

Lemma no_error_ok : error_bool (Error_of_status OK) = false.
Proof. reflexivity. Qed.

Lemma add_represents hs v signal cb c :
  represents hs v ->
  exists hs', add_signal_handler hs signal (Some cb) c 0 0 = Ret (hs', Error_of_status OK) /\
              represents hs' (spec_set v signal (Some (cb, c))).
Proof.
  intros Hr. pose proof Hr as [Hw Hv]. unfold add_signal_handler.
  replace (uv_signal_from_enum signal =? 0) with false by (by destruct signal).
  destruct (hs signal) as [h|] eqn:E; rewrite ?error_bool_of_uv, ?no_error_ok; cbn [negb Z.ltb Z.compare].
  - cbn [initialized callback continuity active]. rewrite (Hw _ _ E).
    eexists. split; [reflexivity|]. by apply (update_represents _ _ _ (mkHandler cb c true true)).
  - eexists. split; [reflexivity|]. split.
    + apply update_well_formed; [|done]. by apply update_well_formed.
    + intros s. unfold view, update, spec_set. case_bool_decide; [done|apply Hv].
Qed.

Lemma remove_represents hs v signal :
  represents hs v ->
  exists hs', remove_signal_handler hs signal = Ret hs' /\ represents hs' (spec_set v signal None).
Proof.
  intros Hr. pose proof Hr as [Hw Hv]. unfold remove_signal_handler. destruct (hs signal) as [h|] eqn:E.
  - rewrite (Hw _ _ E). eexists. split; [reflexivity|].
    by apply (update_represents _ _ _ (mkHandler (callback h) (continuity h) true false)).
  - exists hs. split; [done|]. split; [done|]. intros s. unfold spec_set. case_bool_decide as H; [|apply Hv].
    subst s. unfold view. by rewrite E.
Qed.

Lemma deliver_represents hs v signal :
  represents hs v ->
  exists hs' called, on_signal hs signal = (hs', called) /\
    represents hs' (fst (spec_deliver v signal)) /\ fst <$> called = snd (spec_deliver v signal).
Proof.
  intros Hr. pose proof Hr as [Hw Hv]. unfold on_signal, spec_deliver. specialize (Hv signal) as Hs. unfold view in Hs.
  destruct (hs signal) as [h|] eqn:E; cbn in Hs; [|rewrite <- Hs; by eexists _, _].
  destruct (active h) eqn:Ea; rewrite <- Hs; [|by eexists _, _].
  destruct (continuity h) eqn:Ec; [|by eexists _, _].
  eexists _, _. split; [reflexivity|]. split; [|done].
  apply (update_represents _ _ _ (mkHandler (callback h) ONCE (initialized h) false)); [done|]. exact (Hw signal h E).
Qed.

(** C28. Signal handling is a table of subscriptions: for every sequence of additions, one-time
    additions, removals and signal deliveries, the callbacks called, in order, are those of the
    latest subscription to each delivered signal; a removed subscription and a one-time
    subscription that has fired are never called again until subscribed anew; subscribing without
    a callback changes nothing, and no sequence faults.  libuv takes every request. *)
Theorem signals_refine_subscriptions hs v ops :
  represents hs v ->
  exists hs' called, exec hs ops = Ret (hs', called) /\
    called = snd (spec_exec v ops) /\ represents hs' (fst (spec_exec v ops)).
Proof.
  revert hs v. induction ops as [|[signal [cb|] c|signal|signal] ops IH]; intros hs v Hr; cbn [exec spec_exec].
  - by exists hs, [].
  - destruct (add_represents hs v signal cb c Hr) as (hs1 & -> & Hr1). cbn [obind]. by apply IH.
  - cbn. by apply IH.
  - destruct (remove_represents hs v signal Hr) as (hs1 & -> & Hr1). cbn [obind]. by apply IH.
  - destruct (deliver_represents hs v signal Hr) as (hs1 & called & -> & Hr1 & Hc).
    destruct (spec_deliver v signal) as [v1 called'] eqn:Ed. cbn [fst snd] in *.
    destruct (IH hs1 v1 Hr1) as (hs2 & l & -> & -> & Hr2). cbn [obind].
    destruct (spec_exec v1 ops) as [v2 l2]. cbn [fst snd] in *.
    eexists _, _. split; [reflexivity|]. split; [|done]. rewrite <- Hc. by destruct called as [[cb e]|].
Qed.

(** A failed [uv_signal_init] leaves the handler in the table; the next attempt to add one for the
    same signal, its removal and the loop's destruction then use a handle libuv never
    initialised. *)
Theorem failed_init_poisons_handler signal cb c (status start : Z) :
  status < 0 ->
  exists hs e, add_signal_handler no_handlers signal (Some cb) c status start = Ret (hs, e) /\
    error_bool e = true /\
    add_signal_handler hs signal (Some cb) c 0 0 = Fault Uninitialised /\
    remove_signal_handler hs signal = Fault Uninitialised /\
    close_signal_handlers hs = Fault Uninitialised.
Proof.
  intros Hs. assert (error_bool (Error_of_uv status) = true) as He by (rewrite error_bool_of_uv; by apply Z.ltb_lt).
  unfold add_signal_handler at 1. replace (uv_signal_from_enum signal =? 0) with false by (by destruct signal).
  cbn [no_handlers]. rewrite He. eexists _, _. split; [reflexivity|]. split; [done|].
  destruct signal; split_and!; reflexivity.
Qed.

End Handlers.

Lemma signals_refine_subscriptions_witness :
  exists hs' called, exec (uv := UvFallback) no_handlers [Add INT (Some 1%nat) ONCE; Deliver INT; Deliver INT;
                                       Add INT (Some 2%nat) REPEAT; Deliver INT; Deliver INT;
                                       Remove INT; Deliver INT; Deliver HUP] = Ret (hs', called) /\
                     called = [1; 2; 2]%nat.
Proof.
  destruct (signals_refine_subscriptions (uv := UvFallback) no_handlers (fun _ => None)
    [Add INT (Some 1%nat) ONCE; Deliver INT; Deliver INT; Add INT (Some 2%nat) REPEAT; Deliver INT; Deliver INT;
     Remove INT; Deliver INT; Deliver HUP]) as (hs' & called & H & Hc & _); [done|].
  exists hs', called. split; [exact H|]. rewrite Hc. vm_compute. reflexivity.
Defined.

End Signals.

(** ** Thread-pool work *)

Module Works.

(** Where a piece of work is.  [Checked] and [Queueing] are points inside the callback that
    [add_work] schedules: [cancelled] was read as false; [queued] was set. *)
Inductive place := Scheduled | Checked | Queueing | InPool | Picked | WorkDone | TakenBack | Freed.

#[global] Instance place_eq_dec : EqDecision place.
Proof. solve_decision. Defined.

Inductive event := WorkCalled | DoneCalled (e : Error).

(** [Work]; [has_done] is whether [work_done_callback] is non-empty, [events] the user's callbacks
    called so far. *)
Record work := mkWork {
  cancelled : bool;
  queued : bool;
  has_done : bool;
  at_place : place;
  events : list event
}.

Definition move (w : work) (p : place) : work := mkWork (cancelled w) (queued w) (has_done w) p (events w).

Definition call_work_callback (w : work) : work :=
  mkWork (cancelled w) (queued w) (has_done w) (at_place w) (events w ++ [WorkCalled]).

Definition call_work_done_callback (w : work) (e : Error) : work :=
  if has_done w then mkWork (cancelled w) (queued w) (has_done w) (at_place w) (events w ++ [DoneCalled e]) else w.

(** [add_work]: [None] is [INVALID_HANDLE]. *)
Definition add_work (work_callback work_done_callback : bool) : option work :=
  if negb work_callback then None
  else Some (mkWork false false work_done_callback Scheduled []).

(** The callback [add_work] schedules, in its three shared accesses: reading [cancelled], setting
    [queued], and [uv_queue_work] with the status it returns. *)
Definition queue_check (w : work) : work :=
  if cancelled w then move (call_work_done_callback w (Error_of_status OPERATION_CANCELED)) Freed
  else move w Checked.
Definition queue_mark (w : work) : work := mkWork (cancelled w) true (has_done w) Queueing (events w).

Section Pool.
Context {uv : UvErrno}.

Definition queue_submit (w : work) (status : Z) : work :=
  let error := Error_of_uv status in
  if error_bool error then move (call_work_done_callback w error) Freed else move w InPool.

(** [uv_cancel] on a request that has been submitted. *)
Definition uv_cancel (w : work) : work * Z :=
  match at_place w with
  | InPool => (move w TakenBack, 0)
  | _ => (w, uv_code UV_EBUSY)
  end.

Definition cancel_work (w : work) : outcome (work * Error) :=
  check negb (bool_decide (at_place w = Freed)) else UseAfterFree in
  let w := mkWork true (queued w) (has_done w) (at_place w) (events w) in
  if queued w then
    check negb (bool_decide (at_place w = Queueing)) else Uninitialised in
    let '(w, status) := uv_cancel w in Ret (w, Error_of_uv status)
  else Ret (w, Error_of_status OK).

(** [on_work].  The loop's [data] is the [EventLoop], not the [EventLoop::Impl] the pointer is cast
    to, and the cancelled branch calls a method on it. *)
Definition on_work (w : work) : outcome work :=
  if cancelled w then Fault BadCast else Ret (move (call_work_callback w) WorkDone).

Definition on_after_work (w : work) (status : Z) : work :=
  move (call_work_done_callback w (Error_of_uv status)) Freed.

(** One step of the loop thread or of the pool. *)
Inductive progress : work -> work -> Prop :=
| step_check w : at_place w = Scheduled -> progress w (queue_check w)
| step_mark w : at_place w = Checked -> progress w (queue_mark w)
| step_submit w status : at_place w = Queueing -> progress w (queue_submit w status)
| step_pick w : at_place w = InPool -> progress w (move w Picked)
| step_work w w' : at_place w = Picked -> on_work w = Ret w' -> progress w w'
| step_after w : at_place w = WorkDone -> progress w (on_after_work w 0)
| step_taken_back w : at_place w = TakenBack -> progress w (on_after_work w (uv_code UV_ECANCELED)).

(** One step of them or of code that cancels. *)
Inductive step : work -> work -> Prop :=
| step_progress w w' : progress w w' -> step w w'
| step_cancel w w' e : cancel_work w = Ret (w', e) -> step w w'.

(** The work was cancelled when the loop thread had already looked, and no [uv_cancel] has taken it
    back. *)
Definition raced (w : work) : bool :=
  cancelled w && match at_place w with Checked | Queueing | InPool | Picked => true | _ => false end.

(** How many steps of the loop thread and the pool are left. *)
Definition rank (w : work) : nat :=
  match at_place w with
  | Scheduled => 6 | Checked => 5 | Queueing => 4 | InPool => 3 | Picked => 2 | WorkDone | TakenBack => 1 | Freed => 0
  end.

(** What the user has been told, by place. *)
Definition told (w : work) : Prop :=
  match at_place w with
  | WorkDone => events w = [WorkCalled]
  | Freed =>
      exists called e, events w = called ++ (if has_done w then [DoneCalled e] else []) /\
        ((called = [WorkCalled] /\ error_bool e = false) \/
         (called = [] /\ code e = OPERATION_CANCELED /\ cancelled w = true) \/
         (called = [] /\ exists status, status < 0 /\ e = Error_of_uv status))
  | _ => events w = []
  end /\
  (match at_place w with Scheduled | Checked => queued w = false | _ => True end) /\
  (at_place w = TakenBack -> cancelled w = true).

Lemma call_done_events w e : events (call_work_done_callback w e) = events w ++ (if has_done w then [DoneCalled e] else []).
Proof. unfold call_work_done_callback. destruct (has_done w); cbn; [done|by rewrite app_nil_r]. Qed.
Lemma call_done_has w e : has_done (call_work_done_callback w e) = has_done w.
Proof. unfold call_work_done_callback. by destruct (has_done w) eqn:E; cbn. Qed.
Lemma call_done_flags w e : cancelled (call_work_done_callback w e) = cancelled w /\ queued (call_work_done_callback w e) = queued w.
Proof. unfold call_work_done_callback. by destruct (has_done w). Qed.

Lemma told_freed w e :
  events w = [] /\ code e = OPERATION_CANCELED /\ cancelled w = true \/
  events w = [WorkCalled] /\ error_bool e = false \/
  events w = [] /\ (exists status, status < 0 /\ e = Error_of_uv status) ->
  told (move (call_work_done_callback w e) Freed).
Proof.
  intros H. destruct (call_done_flags w e) as [Ec _]. split; [|done]. cbn.
  exists (events w), e. rewrite call_done_events, call_done_has, Ec. split; [done|].
  destruct H as [H|[H|H]]; auto.
Qed.

Lemma ecanceled_code : code (Error_of_uv (uv_code UV_ECANCELED)) = OPERATION_CANCELED.
Proof.
  unfold code, Error_of_uv. rewrite (proj2 (Z.ltb_lt _ _)) by apply uv_code_negative. cbn [m_status_code].
  apply convert_from_uv_code. refine (bool_decide_unpack _ _). vm_compute. exact I.
Qed.

Lemma cancel_told w w' e : told w -> cancel_work w = Ret (w', e) -> told w' /\ cancelled w' = true.
Proof.
  intros (H & Hq & Ht). unfold cancel_work. case_bool_decide as Hf; [done|]. cbn [negb queued at_place].
  destruct (queued w) eqn:Eq.
  - case_bool_decide as Hg; [done|]. cbn [negb]. unfold uv_cancel. cbn [at_place].
    destruct (at_place w) eqn:Ep; intros [= <- <-]; (split; [|done]); unfold told; cbn; rewrite ?Ep, ?Eq in *; done.
  - intros [= <- <-]. split; [|done]. unfold told. cbn. destruct (at_place w) eqn:Ep; rewrite ?Eq in *; done.
Qed.

Lemma step_told w w' : told w -> step w w' -> told w'.
Proof.
  intros Hw H. pose proof Hw as (He & Hq & Ht). destruct H as [w w' H|w w' e H]; [|by eapply cancel_told].
  destruct H as [w Hp|w Hp|w status Hp|w Hp|w w' Hp H|w Hp|w Hp]; unfold told in He; rewrite ?Hp in He, Hq, Ht.
  - unfold queue_check. destruct (cancelled w) eqn:Ec; [apply told_freed; auto|]. unfold told. cbn. by rewrite He.
  - unfold told, queue_mark. cbn. by rewrite He.
  - unfold queue_submit. rewrite error_bool_of_uv. destruct (Z.ltb_spec status 0); [|by unfold told; cbn; rewrite He].
    apply told_freed. right. right. split; [done|by exists status].
  - unfold told. cbn. by rewrite He.
  - unfold on_work in H. destruct (cancelled w); [done|]. injection H as <-. unfold told. cbn. by rewrite He.
  - apply told_freed. right. left. split; [done|]. by rewrite error_bool_of_uv.
  - apply told_freed. left. split_and!; [done|apply ecanceled_code|by apply Ht].
Qed.

(** The loop thread and the pool on their own carry work to its end. *)
Definition completes (w : work) : Prop :=
  exists w', rtc progress w w' /\ at_place w' = Freed /\
    events w' = WorkCalled :: (if has_done w then [DoneCalled (Error_of_uv 0)] else []).

Lemma completes_step w w1 : progress w w1 -> has_done w1 = has_done w -> completes w1 -> completes w.
Proof.
  intros Hs Hd (w' & Hr & Hp & He). exists w'. rewrite Hd in He. split_and!; [by eapply rtc_l|done|done].
Qed.

Lemma completes_done w : at_place w = WorkDone -> events w = [WorkCalled] -> completes w.
Proof.
  intros Hp He. exists (on_after_work w 0). split; [by apply rtc_once, step_after|].
  split; [done|]. cbn. by rewrite call_done_events, He.
Qed.

Lemma completes_picked w : at_place w = Picked -> events w = [] -> cancelled w = false -> completes w.
Proof.
  intros Hp He Hc. apply (completes_step _ (move (call_work_callback w) WorkDone)); [|done|].
  - apply step_work; [done|]. unfold on_work. by rewrite Hc.
  - apply completes_done; [done|]. cbn. by rewrite He.
Qed.

Lemma completes_in_pool w : at_place w = InPool -> events w = [] -> cancelled w = false -> completes w.
Proof.
  intros Hp He Hc. eapply completes_step; [by apply step_pick|done|]. by apply completes_picked.
Qed.

Lemma completes_queueing w : at_place w = Queueing -> events w = [] -> cancelled w = false -> completes w.
Proof.
  intros Hp He Hc. assert (queue_submit w 0 = move w InPool) as E
    by (unfold queue_submit; by rewrite error_bool_of_uv).
  eapply completes_step; [by apply (step_submit _ 0)|by rewrite E|]. rewrite E. by apply completes_in_pool.
Qed.

Lemma completes_checked w : at_place w = Checked -> events w = [] -> cancelled w = false -> completes w.
Proof.
  intros Hp He Hc. eapply completes_step; [by apply step_mark|done|]. by apply completes_queueing.
Qed.

Lemma completes_scheduled w : at_place w = Scheduled -> events w = [] -> cancelled w = false -> completes w.
Proof.
  intros Hp He Hc. assert (queue_check w = move w Checked) as E by (unfold queue_check; by rewrite Hc).
  eapply completes_step; [by apply step_check|by rewrite E|]. rewrite E. by apply completes_checked.
Qed.

Lemma add_work_told c d w : add_work c d = Some w -> told w /\ has_done w = d /\ cancelled w = false.
Proof. unfold add_work. destruct c; [|done]. by intros [= <-]. Qed.

Lemma rtc_step_told w w' : told w -> rtc step w w' -> told w'.
Proof. intros Hw H. induction H as [w|w1 w2 w3 H12 _ IH]; [done|]. by apply IH, (step_told w1). Qed.

Lemma step_has_done w w' : step w w' -> has_done w' = has_done w.
Proof.
  destruct 1 as [v v' [w Hp|w Hp|w status Hp|w Hp|w w' Hp H|w Hp|w Hp]|w w' e H]; try done.
  - unfold queue_check. destruct (cancelled w); [apply call_done_has|done].
  - unfold queue_submit. destruct (error_bool _); [apply call_done_has|done].
  - unfold on_work in H. destruct (cancelled w); [done|]. by injection H as <-.
  - apply call_done_has.
  - apply call_done_has.
  - unfold cancel_work in H. case_bool_decide; [done|]. cbn in H. destruct (queued w); [|by injection H as <- <-].
    case_bool_decide; [done|]. cbn in H. unfold uv_cancel in H. cbn in H.
    by destruct (at_place w); injection H as <- <-.
Qed.

(** Each step of the loop thread and the pool leads nearer to the end, and none begins a race. *)
Lemma progress_rank w w' : progress w w' -> (rank w' < rank w)%nat /\ (raced w' = true -> raced w = true).
Proof.
  unfold rank, raced. intros [v Hp|v Hp|v status Hp|v Hp|v v' Hp H|v Hp|v Hp]; rewrite Hp; cbn.
  - unfold queue_check. destruct (cancelled v) eqn:Ec; cbn; rewrite ?Ec, ?andb_false_r; split; [lia|done|lia|done].
  - split; [lia|done].
  - unfold queue_submit. destruct (error_bool _); cbn; rewrite ?andb_false_r; split; [lia|done|lia|done].
  - split; [lia|done].
  - unfold on_work in H. destruct (cancelled v); [done|]. injection H as <-. cbn. rewrite ?andb_false_r. split; [lia|done].
  - rewrite ?andb_false_r. split; [lia|done].
  - rewrite ?andb_false_r. split; [lia|done].
Qed.

Lemma progress_bound n w w' : nsteps progress n w w' -> (n + rank w' <= rank w)%nat /\ (raced w' = true -> raced w = true).
Proof.
  revert w. induction n as [|n IH]; intros w H; inversion H as [|? ? v ? Hs Hr]; subst; [done|].
  apply IH in Hr as [Hn Hi]. apply progress_rank in Hs as [Hm Hj]. split; [lia|auto].
Qed.

(** Only freed work and work that the pool took up after the race stop. *)
Lemma progress_or_stop w :
  (exists w', progress w w') \/ at_place w = Freed \/ (at_place w = Picked /\ raced w = true /\ on_work w = Fault BadCast).
Proof.
  destruct (at_place w) eqn:Hp; [| |left; exists (queue_submit w 0); by constructor| | | | |]; eauto using progress.
  - destruct (cancelled w) eqn:Ec.
    + right. right. unfold raced, on_work. by rewrite Hp, Ec.
    + left. eexists. eapply step_work; [done|]. unfold on_work. by rewrite Ec.
Qed.

Lemma cancel_fault w f :
  cancel_work w = Fault f -> at_place w = Freed /\ f = UseAfterFree \/ at_place w = Queueing /\ f = Uninitialised.
Proof.
  unfold cancel_work. case_bool_decide as Hf; cbn [negb]; [intros [= <-]; auto|]. cbn [queued at_place].
  destruct (queued w); [|done]. case_bool_decide as Hg; cbn [negb]; [intros [= <-]; auto|].
  unfold uv_cancel. cbn [at_place]. by destruct (at_place w).
Qed.

Lemma rtc_step_has_done w w' : rtc step w w' -> has_done w' = has_done w.
Proof. induction 1 as [|w1 w2 w3 H12 _ IH]; [done|]. rewrite IH. by apply step_has_done. Qed.

(** C10. Thread-pool work reports exactly once: for every interleaving of the loop thread, the
    pool and cancellation, the done callback of a piece of work has been called exactly once when
    the work object is freed and never before; it is told success only after the work callback ran,
    and the work callback ran at most once and never when cancellation is reported.  From every
    point of such an interleaving the loop thread and the pool make at most six more steps and stop
    only when the work is freed, or, if it was cancelled after the loop thread had looked and not
    taken back in time, in the undefined call of [on_work]; work nobody cancels is carried to its
    success.  Cancelling itself fails only for work that is freed, and between the loop thread's
    mark and its hand-over to the pool. *)
Theorem work_reports_exactly_once w0 w :
  add_work true true = Some w0 -> rtc step w0 w ->
  (at_place w <> Freed -> events w = [] \/ events w = [WorkCalled]) /\
  (at_place w = Freed ->
     (exists e, events w = [WorkCalled; DoneCalled e] /\ error_bool e = false) \/
     (exists e, events w = [DoneCalled e] /\ code e = OPERATION_CANCELED /\ cancelled w = true) \/
     (exists status, status < 0 /\ events w = [DoneCalled (Error_of_uv status)])) /\
  (forall n w', nsteps progress n w w' -> (n <= 6)%nat /\
     ((exists w'', progress w' w'') \/ at_place w' = Freed \/
      (at_place w' = Picked /\ raced w = true /\ on_work w' = Fault BadCast))) /\
  (cancelled w = false -> at_place w <> Freed ->
     exists w', rtc progress w w' /\ at_place w' = Freed /\
                events w' = [WorkCalled; DoneCalled (Error_of_uv 0)]) /\
  (forall f, cancel_work w = Fault f ->
     at_place w = Freed /\ f = UseAfterFree \/ at_place w = Queueing /\ f = Uninitialised).
Proof.
  intros H0 Hr. destruct (add_work_told _ _ _ H0) as (Ht0 & Hd0 & _).
  pose proof (rtc_step_told _ _ Ht0 Hr) as Hw. pose proof Hw as (He & _ & Htb).
  assert (has_done w = true) as Hd by (by rewrite (rtc_step_has_done _ _ Hr)). split_and!.
  - intros Hp. destruct (at_place w); try (by left); try (by right); done.
  - intros Hp. rewrite Hp in He. destruct He as (called & e & He & H). rewrite Hd in He.
    destruct H as [[-> Hok]|[(-> & Hc & Hcc)|(-> & status & Hs & ->)]]; [left|right; left|right; right];
      cbn in He; eauto.
  - intros n w' Hn. apply progress_bound in Hn as [Hn Hrace]. split; [unfold rank in Hn; repeat case_match; lia|].
    destruct (progress_or_stop w') as [?|[?|(? & ? & ?)]]; auto 10.
  - intros Hc Hp.
    enough (completes w) as (w' & Hr' & Hp' & He') by (exists w'; by rewrite Hd in He').
    destruct (at_place w) eqn:Ep.
    + by apply completes_scheduled.
    + by apply completes_checked.
    + by apply completes_queueing.
    + by apply completes_in_pool.
    + by apply completes_picked.
    + by apply completes_done.
    + rewrite Htb in Hc; done.
    + done.
  - intros f. apply cancel_fault.
Qed.

(** Cancelling work that a pool thread has taken out but not begun, or between the loop thread's
    check and its hand-over, returns to the caller and makes [on_work] use the loop through a
    pointer of the wrong class. *)
Theorem cancel_race_faults w w' e :
  at_place w = Picked -> queued w = true -> cancel_work w = Ret (w', e) ->
  code e = RESOURCE_BUSY_OR_LOCKED /\ at_place w' = Picked /\ on_work w' = Fault BadCast.
Proof.
  intros Hp Hq. unfold cancel_work. rewrite Hp, Hq. rewrite bool_decide_false by done. cbn [negb queued].
  unfold uv_cancel. cbn. intros [= <- <-]. split_and!; [|done|done].
  unfold code, Error_of_uv. rewrite (proj2 (Z.ltb_lt _ _)) by apply uv_code_negative. cbn [m_status_code].
  apply convert_from_uv_code. refine (bool_decide_unpack _ _). vm_compute. exact I.
Qed.

End Pool.

Definition example_work : work := mkWork false false true Scheduled [].

Lemma work_reports_exactly_once_witness :
  exists w e, rtc (step (uv := UvFallback)) example_work w /\ at_place w = Freed /\
    events w = [DoneCalled e] /\ code e = OPERATION_CANCELED.
Proof.
  set (w1 := mkWork true false true Scheduled []).
  assert (rtc (step (uv := UvFallback)) example_work (queue_check w1)) as Hr.
  { eapply rtc_l; [apply (step_cancel _ w1 (Error_of_status OK)); reflexivity|].
    eapply rtc_l; [apply step_progress, step_check; reflexivity|]. apply rtc_refl. }
  exists (queue_check w1).
  destruct (work_reports_exactly_once (uv := UvFallback) example_work (queue_check w1) eq_refl Hr) as (_ & H & _).
  destruct (H eq_refl) as [(e & He & _)|[(e & He & Hc & _)|(status & _ & He)]]; [discriminate He| |].
  - exists e. by split_and!.
  - exists (Error_of_status OPERATION_CANCELED). by split_and!.
Defined.

End Works.
