(* ===== verification/LoopFinish.v ===== *)
(** * Construction and end of an event loop

    [EventLoop::Impl::Impl], [init_async], [execute_on_loop_thread] as far as the handle goes, and
    [close_signal_handlers] and [finish] of [source/io/EventLoop.cpp].

    libuv's loop is its table of handles.  [uv_close] only marks a handle; its close callback, which frees it,
    runs in a later iteration of [uv_run], and may close another handle in turn, as objects with a deinitialization in
    several phases do: [further] counts those.  [uv_loop_close] refuses while there is any handle, also a closing
    one.  What the callbacks of active handles do in an iteration is a parameter. *)

From S2P Require Import Prelude.
Local Open Scope outcome_scope.
Local Open Scope record_scope.

Module LoopFinish.

Inductive stage := Active | Closing.

#[export] Instance stage_eq_dec : EqDecision stage.
Proof. solve_decision. Defined.

Record handle := mkHandle { status : stage; further : nat }.

Abbreviation handles := (gmap nat handle).

(** [uv_loop_t], and whether [uv_loop_close] has released it. *)
Record uv_loop := mkLoop { queue : handles; closed : bool }.

#[export] Instance loop_settable : Settable uv_loop := settable! mkLoop <queue; closed>.

Definition UV_EBUSY : Z := -16.

Definition uv_close (h : nat) (l : uv_loop) : uv_loop :=
  l <| queue ::= alter (fun x => mkHandle Closing (further x)) h |>.

Definition uv_loop_close (l : uv_loop) : Z * uv_loop :=
  if decide (queue l = ∅) then (0, l <| closed := true |>) else (UV_EBUSY, l).

(** The close callbacks that are due: the handle is gone, or the next one is closed in its place. *)
Definition run_close_callback (x : handle) : option handle :=
  match status x, further x with
  | Active, _ => Some x
  | Closing, O => None
  | Closing, S k => Some (mkHandle Closing k)
  end.

#[export] Instance any_active_dec (q : handles) : Decision (exists h, status <$> q !! h = Some Active).
Proof.
  destruct (decide (Exists (fun p => status p.2 = Active) (map_to_list q))) as [H|H].
  - left. apply Exists_exists in H as ([h x] & Hin & Hs). exists h. apply elem_of_map_to_list in Hin. rewrite Hin. cbn in *. by rewrite Hs.
  - right. intros [h Hh]. apply H. destruct (q !! h) as [x|] eqn:E; [|done]. apply Exists_exists. exists (h, x).
    split; [by apply elem_of_map_to_list|]. cbn in *. congruence.
Defined.

Section Finish.

(** What the callbacks of active handles do in one iteration, and the status of [uv_signal_stop] on a handle. *)
Context (poll : handles -> handles) (uv_signal_stop : nat -> Z).

(** [uv_run(loop, UV_RUN_ONCE)]. *)
Definition uv_run_once (l : uv_loop) : uv_loop :=
  let q := if decide (exists h, status <$> queue l !! h = Some Active) then poll (queue l) else queue l in
  l <| queue := omap run_close_callback q |>.

Record Impl := mkImpl {
  loop : uv_loop;
  m_async : option nat;
  m_signal_handlers : list nat;
  m_async_callbacks_queue : list nat;
  m_sync_callbacks_queue : list nat;
  m_run_called : bool }.

#[export] Instance impl_settable : Settable Impl :=
  settable! mkImpl <loop; m_async; m_signal_handlers; m_async_callbacks_queue; m_sync_callbacks_queue; m_run_called>.

(** [init_async]; the status of [uv_async_init] and a fresh handle are given. *)
Definition init_async (i : Impl) (uv_status : Z) (h : nat) : outcome (Impl * Z) :=
  check (bool_decide (m_async i = None)) else AssertFailed in
  if uv_status <? 0 then Ret (i, uv_status)
  else Ret (i <| m_async := Some h |> <| loop ::= fun l => l <| queue ::= insert h (mkHandle Active 0) |> |>, 0).

(** [Impl::Impl]: a failed [init_async] is only logged. *)
Definition construct (uv_status : Z) (h : nat) : outcome Impl :=
  let* (i, _) := init_async (mkImpl (mkLoop ∅ false) None [] [] [] false) uv_status h in
  Ret i.

(** [execute_on_loop_thread]: [uv_async_send] takes the handle without a test. *)
Definition execute_on_loop_thread (i : Impl) (callback : nat) : outcome Impl :=
  let i := i <| m_async_callbacks_queue ::= fun q => q ++ [callback] |> in
  match m_async i with Some _ => Ret i | None => Fault NullDeref end.

(** [close_signal_handlers]: a handler that can not be stopped is left as it is. *)
Definition close_signal_handlers (i : Impl) : Impl :=
  i <| loop := foldr (fun h l => if uv_signal_stop h <? 0 then l else uv_close h l) (loop i) (m_signal_handlers i) |>.

(** [m_async.reset()]: the deleter closes the handle. *)
Definition reset_async (i : Impl) : Impl :=
  match m_async i with
  | Some h => i <| loop ::= uv_close h |> <| m_async := None |>
  | None => i
  end.

Definition finish (i : Impl) : Impl :=
  let i := close_signal_handlers i in
  let i := (reset_async i) <| m_async_callbacks_queue := [] |> in
  let '(status, l) := uv_loop_close (loop i) in
  let i := i <| loop := l |> in
  if negb (m_run_called i) then i
  else
    let i := i <| m_sync_callbacks_queue := [] |> in
    if status =? UV_EBUSY then
      let l := uv_run_once (uv_run_once (loop i)) in
      i <| loop := (uv_loop_close l).2 |>
    else i.

(** ** What is left *)

(** The handles that [finish] itself closes. *)
Definition stopped (i : Impl) : list nat := List.filter (fun h => negb (uv_signal_stop h <? 0)) (m_signal_handlers i).
Definition own (i : Impl) (h : nat) : Prop := m_async i = Some h \/ h ∈ stopped i.

Definition all_closing (q : handles) : Prop := forall h x, q !! h = Some x -> status x = Closing.

Lemma close_all_lookup hs l h :
  queue (foldr uv_close l hs) !! h =
    (fun x => if decide (h ∈ hs) then mkHandle Closing (further x) else x) <$> queue l !! h.
Proof.
  induction hs as [|h' hs IH]; cbn [foldr].
  { destruct (queue l !! h) as [x|]; [|done]. cbn. by rewrite decide_False by (by apply not_elem_of_nil). }
  cbn. destruct (decide (h = h')) as [->|Hne].
  - rewrite lookup_alter_eq, IH. destruct (queue l !! h') as [x|]; [|done]. cbn.
    rewrite (decide_True (P := h' ∈ h' :: hs)) by (by left). by destruct (decide (h' ∈ hs)).
  - rewrite lookup_alter_ne, IH by done. destruct (queue l !! h) as [x|]; [|done]. cbn. f_equal.
    destruct (decide (h ∈ hs)), (decide (h ∈ h' :: hs)) as [H|H]; try done.
    + destruct H. by right.
    + by apply elem_of_cons in H as [|].
Qed.

Lemma close_signal_handlers_stopped i : close_signal_handlers i = i <| loop := foldr uv_close (loop i) (stopped i) |>.
Proof.
  unfold close_signal_handlers, stopped. cbn. f_equal.
  induction (m_signal_handlers i) as [|h hs IH]; [done|]. cbn [foldr List.filter].
  rewrite IH. by destruct (uv_signal_stop h <? 0).
Qed.

Lemma close_all_closed hs l : closed (foldr uv_close l hs) = closed l.
Proof. by induction hs as [|h hs IH]. Qed.

(** The table after [close_signal_handlers] and [reset_async]. *)
Definition shut (i : Impl) : handles := queue (loop (reset_async (close_signal_handlers i))).

Lemma shut_lookup i h x' : shut i !! h = Some x' ->
  exists x, queue (loop i) !! h = Some x /\ further x' = further x /\ (status x = Closing \/ own i h -> status x' = Closing).
Proof.
  unfold shut, reset_async. rewrite close_signal_handlers_stopped. change (m_async (i <| loop := ?l |>)) with (m_async i).
  destruct (m_async i) as [a|] eqn:Ea; cbn.
  - destruct (decide (h = a)) as [->|Hne].
    + rewrite lookup_alter_eq, close_all_lookup. destruct (queue (loop i) !! a) as [x|]; [|done]. cbn. intros [= <-].
      exists x. split_and!; [done|by destruct (decide _)|done].
    + rewrite lookup_alter_ne, close_all_lookup by done. destruct (queue (loop i) !! h) as [x|]; [|done]. cbn. intros [= <-].
      exists x. split_and!; [done|by destruct (decide _)|]. unfold own. rewrite Ea. intros [Hx|[Ha|Hh]]; [|congruence|].
      * by destruct (decide _).
      * by rewrite decide_True.
  - rewrite close_all_lookup. destruct (queue (loop i) !! h) as [x|]; [|done]. cbn. intros [= <-].
    exists x. split_and!; [done|by destruct (decide _)|]. unfold own. rewrite Ea. intros [Hx|[Ha|Hh]]; [|done|].
    + by destruct (decide _).
    + by rewrite decide_True.
Qed.

Lemma run_once_closing l : all_closing (queue l) ->
  queue (uv_run_once l) = omap run_close_callback (queue l) /\ all_closing (queue (uv_run_once l)).
Proof.
  intros Hc. unfold uv_run_once. rewrite decide_False.
  2: { intros [h Hh]. destruct (queue l !! h) as [x|] eqn:E; [|done]. specialize (Hc h x E). cbn in Hh. congruence. }
  cbn. split; [done|]. intros h x Hx. rewrite lookup_omap in Hx.
  destruct (queue l !! h) as [y|] eqn:E; [|done]. cbn in Hx. unfold run_close_callback in Hx.
  rewrite (Hc h y E) in Hx. destruct (further y); [done|]. by injection Hx as <-.
Qed.

(** Two iterations end every deinitialization of at most two phases, and no others. *)
Lemma run_twice l : all_closing (queue l) ->
  (queue (uv_run_once (uv_run_once l)) = ∅ <-> forall h x, queue l !! h = Some x -> (further x <= 1)%nat).
Proof.
  intros Hc. destruct (run_once_closing l Hc) as [H1 Hc1]. destruct (run_once_closing _ Hc1) as [H2 _].
  rewrite H2, H1. rewrite map_empty. split.
  - intros H h x Hx. specialize (H h). rewrite !lookup_omap, Hx in H. cbn in H. unfold run_close_callback in H.
    rewrite (Hc h x Hx) in H. destruct (further x) as [|[|k]]; cbn in H; [lia|lia|done].
  - intros H h. rewrite !lookup_omap. destruct (queue l !! h) as [x|] eqn:Hx; [|done]. cbn. unfold run_close_callback.
    specialize (H h x Hx). rewrite (Hc h x Hx). destruct (further x) as [|[|k]]; cbn; [done|done|lia].
Qed.

(** ** Properties *)

(** The end of a loop that has run: if every handle that is not the loop's own is being closed
    already, [finish] frees all handles and releases the uv loop exactly when none of them needs more than two
    phases; both queues of callbacks are empty afterwards. *)
Theorem finish_releases i :
  m_run_called i = true -> closed (loop i) = false ->
  (forall h x, queue (loop i) !! h = Some x -> own i h \/ status x = Closing) ->
  let i' := finish i in
  m_async_callbacks_queue i' = [] /\ m_sync_callbacks_queue i' = [] /\ m_async i' = None /\
  (closed (loop i') = true <-> queue (loop i') = ∅) /\
  (closed (loop i') = true <-> forall h x, shut i !! h = Some x -> (further x <= 1)%nat).
Proof.
  intros Hrun Hopen Hown. cbn zeta. unfold finish.
  set (i1 := reset_async (close_signal_handlers i)).
  assert (m_run_called i1 = true /\ m_async i1 = None /\ closed (loop i1) = false) as (Hr1 & Ha1 & Hc1).
  { unfold i1, reset_async. rewrite close_signal_handlers_stopped. change (m_async (i <| loop := ?l |>)) with (m_async i).
    destruct (m_async i) eqn:Ea; cbn; rewrite ?close_all_closed; done. }
  assert (all_closing (shut i)) as Hcl.
  { intros h x Hx. destruct (shut_lookup i h x Hx) as (y & Hy & _ & Hst). apply Hst. destruct (Hown h y Hy); auto. }
  pose proof (run_twice (loop i1) Hcl) as Htwice. change (queue (loop i1)) with (shut i) in Htwice.
  change (loop (i1 <| m_async_callbacks_queue := [] |>)) with (loop i1).
  destruct (uv_loop_close (loop i1)) as [st l] eqn:El. unfold uv_loop_close in El.
  cbn -[uv_run_once uv_loop_close Z.eqb]. rewrite Hr1. cbn -[uv_run_once uv_loop_close Z.eqb].
  change (queue (loop i1)) with (shut i) in El. destruct (decide (shut i = ∅)) as [He|Hne]; injection El as <- <-.
  - change (0 =? UV_EBUSY) with false. cbn. change (queue (loop i1)) with (shut i). rewrite ?Ha1, He.
    by split_and!.
  - change (UV_EBUSY =? UV_EBUSY) with true. cbn -[uv_run_once uv_loop_close]. rewrite ?Ha1.
    set (l2 := uv_run_once (uv_run_once (loop i1))) in *.
    assert (closed l2 = false) as Hc2 by exact Hc1. unfold uv_loop_close.
    destruct (decide (queue l2 = ∅)) as [He|Hne2]; cbn [snd].
    + pose proof (proj1 Htwice He). change (closed (l2 <| closed := true |>)) with true.
      change (queue (l2 <| closed := true |>)) with (queue l2). by split_and!.
    + rewrite Hc2. split_and!; try done. split; [done|]. intros H. by apply Htwice in H.
Qed.

(** A loop that is destroyed without having run is not released: its own wake-up handle is closing,
    nothing runs its close callback, and the uv loop stays open. *)
Theorem finish_without_run_leaks uv_status h i :
  construct uv_status h = Ret i -> 0 <= uv_status ->
  closed (loop (finish i)) = false /\ queue (loop (finish i)) !! h = Some (mkHandle Closing 0).
Proof.
  intros Hi Hs. unfold construct, init_async in Hi. cbn in Hi. rewrite (proj2 (Z.ltb_ge uv_status 0)) in Hi by done.
  cbn in Hi. injection Hi as <-. unfold finish, reset_async, close_signal_handlers, uv_loop_close, uv_close. cbn.
  rewrite decide_False; cbn.
  - split; [done|]. by rewrite lookup_alter_eq, lookup_insert_eq.
  - intros E. apply (f_equal (lookup h)) in E. by rewrite lookup_alter_eq, lookup_insert_eq in E.
Qed.

End Finish.

Lemma finish_releases_witness :
  let i := mkImpl (mkLoop {[0%nat := mkHandle Active 0; 1%nat := mkHandle Active 0; 2%nat := mkHandle Closing 1]} false)
             (Some 0%nat) [1%nat] [7%nat] [8%nat] true in
  closed (loop (finish id (const 0) i)) = true <-> forall h x, shut (const 0) i !! h = Some x -> (further x <= 1)%nat.
Proof.
  refine (proj2 (proj2 (proj2 (proj2 (finish_releases id (const 0) (mkImpl (mkLoop {[0%nat := mkHandle Active 0; 1%nat := mkHandle Active 0;
    2%nat := mkHandle Closing 1]} false) (Some 0%nat) [1%nat] [7%nat] [8%nat] true) eq_refl eq_refl _))))).
  intros h x Hx. cbn in Hx.
  destruct (decide (h = 0%nat)) as [->|H0]; [by left; left|]. destruct (decide (h = 1%nat)) as [->|H1]; [by left; right; left|].
  right. rewrite !lookup_insert_ne in Hx by congruence. apply lookup_singleton_Some in Hx as [_ <-]. done.
Defined.

Lemma finish_without_run_leaks_witness :
  closed (loop (finish id (const 0) (mkImpl (mkLoop {[5%nat := mkHandle Active 0]} false) (Some 5%nat) [] [] [] false))) = false /\
  queue (loop (finish id (const 0) (mkImpl (mkLoop {[5%nat := mkHandle Active 0]} false) (Some 5%nat) [] [] [] false))) !! 5%nat =
    Some (mkHandle Closing 0).
Proof.
  refine (finish_without_run_leaks id (const 0) 0 5 (mkImpl (mkLoop {[5%nat := mkHandle Active 0]} false) (Some 5%nat) [] [] [] false) _ _);
    [reflexivity|discriminate].
Defined.

(** After a failed [uv_async_init], which is only logged, posting a callback passes a null handle. *)
Example failed_async_init_faults :
  (let* i := construct (-24) 5 in execute_on_loop_thread i 1) = Fault NullDeref.
Proof. reflexivity. Qed.

End LoopFinish.
