(* ===== verification/Lifetime.v ===== *)
(** * Lifetime of loop objects

    [source/io/Removable.cpp] and [RefCounted.cpp]: an object is not deleted where its removal is
    scheduled but from the close callback of an idle handle, a loop iteration later, after the
    [on_schedule_removal] callback has been called; [RefCounted] schedules that removal when its
    last reference goes.

    The state is one object: its fields, the idle handles of its scheduled removals that are
    active or closing, and how often it has been deleted.  Every operation on a deleted object is a
    use after free; the loop's own handlers reach the object through the handle's [data]. *)

From S2P Require Import Prelude.
Local Open Scope outcome_scope.
Local Open Scope Z_scope.

Module Lifetime.

Record t := mk {
  m_on_remove_callback : option nat;
  m_removal_scheduled : bool;
  m_about_to_remove : bool;
  (** A [std::size_t]. *)
  m_ref_counter : Z;
  removal_handles : nat;
  closing_handles : nat;
  deletions : nat;
  (** The [on_schedule_removal] callbacks called. *)
  removal_calls : list nat
}.

Definition with_live (s : t) (r : outcome t) : outcome t :=
  check (deletions s =? 0)%nat else UseAfterFree in r.

(** ** [Removable] *)

Definition removable : t := mk None false false 0 0 0 0 [].

Definition schedule_removal (s : t) : outcome t :=
  with_live s (Ret (mk (m_on_remove_callback s) true (m_about_to_remove s) (m_ref_counter s)
                       (S (removal_handles s)) (closing_handles s) (deletions s) (removal_calls s))).

Definition set_removal_scheduled (s : t) : outcome t :=
  with_live s (Ret (mk (m_on_remove_callback s) true (m_about_to_remove s) (m_ref_counter s)
                       (removal_handles s) (closing_handles s) (deletions s) (removal_calls s))).

Definition set_on_schedule_removal (s : t) (callback : option nat) : outcome t :=
  with_live s
    (if m_about_to_remove s then Ret s
     else Ret (mk callback (m_removal_scheduled s) (m_about_to_remove s) (m_ref_counter s)
                  (removal_handles s) (closing_handles s) (deletions s) (removal_calls s))).

Definition is_removal_scheduled (s : t) : bool := m_removal_scheduled s.

(** [on_removal], called for one of the active handles. *)
Definition on_removal (s : t) : outcome t :=
  with_live s
    (let calls := match m_on_remove_callback s with Some c => removal_calls s ++ [c] | None => removal_calls s end in
     Ret (mk (m_on_remove_callback s) (m_removal_scheduled s) true (m_ref_counter s)
             (removal_handles s - 1) (S (closing_handles s)) (deletions s) calls)).

(** [on_delete_idle_handle_close], called for one of the closing handles. *)
Definition on_delete_idle_handle_close (s : t) : outcome t :=
  with_live s
    (Ret (mk (m_on_remove_callback s) (m_removal_scheduled s) (m_about_to_remove s) (m_ref_counter s)
             (removal_handles s) (closing_handles s - 1) (S (deletions s)) (removal_calls s))).

(** ** [RefCounted] *)

Definition set_counter (s : t) (n : Z) : t :=
  mk (m_on_remove_callback s) (m_removal_scheduled s) (m_about_to_remove s) n
     (removal_handles s) (closing_handles s) (deletions s) (removal_calls s).

Definition ref (s : t) : outcome t := with_live s (Ret (set_counter s (wrap 64 (m_ref_counter s + 1)))).

Definition unref (s : t) : outcome t :=
  with_live s
    (if m_ref_counter s =? 0 then Ret s
     else
       let s := set_counter s (m_ref_counter s - 1) in
       if m_ref_counter s =? 0 then schedule_removal s else Ret s).

Definition ref_count (s : t) : Z := m_ref_counter s.

Definition ref_counted : outcome t := ref removable.

(** ** Runs *)

(** What owners do, and the two loop handlers, each called only while it has a handle. *)
Inductive op := Ref | Unref | SetOnRemoval (c : option nat) | LoopRemoval | LoopClose.

Definition enabled (s : t) (o : op) : bool :=
  match o with
  | Ref => (0 <? m_ref_counter s) && (m_ref_counter s <? 2 ^ 64 - 1)
  | Unref | SetOnRemoval _ => (deletions s =? 0)%nat
  | LoopRemoval => (0 <? removal_handles s)%nat
  | LoopClose => (0 <? closing_handles s)%nat
  end.

Definition apply_op (s : t) (o : op) : outcome t :=
  match o with
  | Ref => ref s
  | Unref => unref s
  | SetOnRemoval c => set_on_schedule_removal s c
  | LoopRemoval => on_removal s
  | LoopClose => on_delete_idle_handle_close s
  end.

Fixpoint apply_ops (s : t) (ops : list op) : outcome t :=
  match ops with
  | [] => Ret s
  | o :: ops => if enabled s o then let* s := apply_op s o in apply_ops s ops else apply_ops s ops
  end.

(** The references outstanding after the operations. *)
Record inv (s : t) : Prop := {
  inv_range : 0 <= m_ref_counter s < 2 ^ 64;
  inv_live : 0 < m_ref_counter s ->
    (removal_handles s + closing_handles s + deletions s = 0)%nat /\ m_removal_scheduled s = false;
  inv_dead : m_ref_counter s = 0 ->
    (removal_handles s + closing_handles s + deletions s = 1)%nat /\ m_removal_scheduled s = true;
  inv_calls : (length (removal_calls s) <= closing_handles s + deletions s)%nat
}.

Lemma enabled_apply s o : inv s -> enabled s o = true -> exists s', apply_op s o = Ret s' /\ inv s'.
Proof.
  intros [Hr Hl Hd Hc] He. assert (deletions s = 0%nat) as Hdel.
  { destruct o; cbn [enabled] in He; [apply andb_true_iff in He as [He _]; apply Z.ltb_lt in He; specialize (Hl He); lia
      |by apply Nat.eqb_eq in He..| |]; apply Nat.ltb_lt in He;
      (destruct (Z.eq_dec (m_ref_counter s) 0) as [E|E]; [specialize (Hd E)|specialize (Hl ltac:(lia))]; lia). }
  assert (forall r, with_live s r = r) as Hw by (intros r; unfold with_live; by rewrite Hdel).
  destruct o as [| |c| |]; cbn [apply_op enabled] in *.
  - apply andb_true_iff in He as [H1 H2]. apply Z.ltb_lt in H1, H2. unfold ref. rewrite Hw.
    eexists. split; [reflexivity|]. unfold wrap. rewrite Z.mod_small by lia.
    split; cbn; [lia|intros _; by apply Hl|lia|done].
  - unfold unref. rewrite Hw. destruct (Z.eqb_spec (m_ref_counter s) 0) as [E|E]; [by exists s|].
    destruct (Hl ltac:(lia)) as [Hz Hs]. cbn [m_ref_counter set_counter].
    destruct (Z.eqb_spec (m_ref_counter s - 1) 0) as [E1|E1].
    + unfold schedule_removal, with_live. cbn [deletions set_counter]. rewrite Hdel. eexists. split; [reflexivity|].
      split; cbn; [lia|lia|intros _; split; [lia|done]|lia].
    + eexists. split; [reflexivity|]. split; cbn; [lia|intros _; by split|lia|done].
  - unfold set_on_schedule_removal. rewrite Hw. destruct (m_about_to_remove s); [by exists s|].
    eexists. split; [reflexivity|]. by split.
  - unfold on_removal. rewrite Hw. apply Nat.ltb_lt in He. eexists. split; [reflexivity|].
    split; cbn; [done| | |].
    + intros H. specialize (Hl H). lia.
    + intros H. specialize (Hd H) as [Hd Hs]. split; [lia|done].
    + destruct (m_on_remove_callback s); [rewrite length_app; cbn|]; lia.
  - unfold on_delete_idle_handle_close. rewrite Hw. apply Nat.ltb_lt in He. eexists. split; [reflexivity|].
    split; cbn; [done| | |].
    + intros H. specialize (Hl H). lia.
    + intros H. specialize (Hd H) as [Hd Hs]. split; [lia|done].
    + lia.
Qed.

(** Taking and dropping a reference that is not the last one. *)
Lemma ref_live s : inv s -> 0 < m_ref_counter s < 2 ^ 64 - 1 ->
  exists s', ref s = Ret s' /\ inv s' /\ m_ref_counter s' = m_ref_counter s + 1.
Proof.
  intros Hi Hc. destruct (enabled_apply s Ref Hi) as (s' & H & Hi').
  { cbn [enabled]. by rewrite (proj2 (Z.ltb_lt _ _)), (proj2 (Z.ltb_lt _ _)) by lia. }
  exists s'. split_and!; [done|done|]. cbn [apply_op] in H. unfold ref, with_live in H.
  destruct (deletions s =? 0)%nat; [|done]. injection H as <-. cbn. apply Z.mod_small. lia.
Qed.

Lemma unref_live s : inv s -> 1 < m_ref_counter s ->
  exists s', unref s = Ret s' /\ inv s' /\ m_ref_counter s' = m_ref_counter s - 1.
Proof.
  intros Hi Hc. assert (deletions s = 0%nat) as Hd by (destruct (inv_live _ Hi); lia).
  destruct (enabled_apply s Unref Hi) as (s' & H & Hi'); [cbn [enabled]; by rewrite Hd|].
  exists s'. split_and!; [done|done|]. cbn [apply_op] in H. unfold unref, with_live in H. rewrite Hd in H.
  rewrite (proj2 (Z.eqb_neq _ _)) in H by lia. cbn [m_ref_counter set_counter Nat.eqb] in H.
  rewrite (proj2 (Z.eqb_neq _ _)) in H by lia. by injection H as <-.
Qed.

Lemma apply_ops_inv ops s : inv s -> exists s', apply_ops s ops = Ret s' /\ inv s'.
Proof.
  revert s. induction ops as [|o ops IH]; intros s Hi; cbn [apply_ops]; [by exists s|].
  destruct (enabled s o) eqn:He; [|by apply IH].
  destruct (enabled_apply s o Hi He) as (s1 & -> & Hi1). by apply IH.
Qed.

Lemma ref_counted_inv : exists s, ref_counted = Ret s /\ inv s.
Proof.
  exists (mk None false false 1 0 0 0 []). split; [reflexivity|]. split; cbn; [lia|by intros _|lia|lia].
Qed.

(** C29. A reference-counted object is deleted exactly when and exactly once its references are
    gone: for every sequence of [ref] by owners, [unref], changes of the removal callback and loop
    iterations, nothing faults; while a reference is left the object exists and no removal is
    scheduled; when the last one is gone exactly one removal is under way or done, two loop
    handlers complete it, and the removal callback has been called at most once. *)
Theorem ref_counted_deleted_once ops s0 :
  ref_counted = Ret s0 ->
  exists s, apply_ops s0 ops = Ret s /\
    (0 < ref_count s -> deletions s = 0%nat /\ is_removal_scheduled s = false) /\
    (ref_count s = 0 -> is_removal_scheduled s = true /\
       exists s', apply_ops s [LoopRemoval; LoopClose] = Ret s' /\ deletions s' = 1%nat) /\
    (deletions s <= 1)%nat /\ (length (removal_calls s) <= 1)%nat.
Proof.
  intros H0. destruct ref_counted_inv as (s0' & H0' & Hi0). rewrite H0 in H0'. injection H0' as <-.
  destruct (apply_ops_inv ops s0 Hi0) as (s & H & Hi). exists s. pose proof Hi as [Hr Hl Hd Hc].
  split; [done|]. unfold ref_count, is_removal_scheduled. split_and!.
  - intros Hp. specialize (Hl Hp) as [Hl Hs]. split; [lia|done].
  - intros Hz. destruct (Hd Hz) as [Hn Hs]. split; [done|].
    destruct (apply_ops_inv [LoopRemoval; LoopClose] s Hi) as (s' & H' & Hi'). exists s'. split; [done|].
    cbn [apply_ops] in H'. cbn [enabled apply_op] in H'.
    destruct (removal_handles s) as [|n] eqn:Er; cbn in H'.
    + destruct (closing_handles s) as [|m] eqn:Ecl; cbn in H'.
      { injection H' as <-. lia. }
      unfold on_delete_idle_handle_close, with_live in H'. destruct (deletions s) eqn:Edel; [|lia].
      cbn in H'. injection H' as <-. reflexivity.
    + unfold on_removal, with_live in H'. destruct (deletions s) eqn:Edel; [|lia]. cbn in H'.
      injection H' as <-. reflexivity.
  - destruct (Z.eq_dec (m_ref_counter s) 0) as [E|E]; [specialize (Hd E)|specialize (Hl ltac:(lia))]; lia.
  - destruct (Z.eq_dec (m_ref_counter s) 0) as [E|E]; [specialize (Hd E)|specialize (Hl ltac:(lia))]; lia.
Qed.

Lemma ref_counted_deleted_once_witness :
  exists s0 s, ref_counted = Ret s0 /\
    apply_ops s0 [SetOnRemoval (Some 7%nat); Ref; Unref; Unref; Unref; LoopRemoval; LoopClose] = Ret s /\
    (deletions s <= 1)%nat /\ removal_calls s = [7%nat].
Proof.
  eexists. pose proof (ref_counted_deleted_once
    [SetOnRemoval (Some 7%nat); Ref; Unref; Unref; Unref; LoopRemoval; LoopClose] _ eq_refl) as (s & H & _ & _ & Hd & _).
  exists s. split; [reflexivity|]. split; [exact H|]. split; [exact Hd|].
  vm_compute in H. injection H as <-. reflexivity.
Defined.

(** Scheduling a removal twice, or taking a new reference after the last one is gone and dropping
    it, deletes twice. *)
Theorem second_removal_faults :
  (let* s := schedule_removal removable in let* s := schedule_removal s in
   let* s := on_removal s in let* s := on_removal s in
   let* s := on_delete_idle_handle_close s in on_delete_idle_handle_close s) = Fault UseAfterFree /\
  (let* s := ref_counted in let* s := unref s in let* s := ref s in let* s := unref s in
   let* s := on_removal s in let* s := on_removal s in
   let* s := on_delete_idle_handle_close s in on_delete_idle_handle_close s) = Fault UseAfterFree.
Proof. by vm_compute. Qed.

(** [set_on_schedule_removal] still takes effect after [schedule_removal], until the loop has begun
    the removal. *)
Theorem removal_callback_replaced_after_scheduling c :
  exists s, (let* s := schedule_removal removable in let* s := set_on_schedule_removal s (Some c) in on_removal s)
            = Ret s /\ removal_calls s = [c].
Proof. by eexists. Qed.

End Lifetime.
