(* ===== verification/Timer.v ===== *)
(** * Timer

    [source/io/Timer.cpp]: a timer armed with a sequence of timeouts and a repeat interval, whose
    callback may restart or stop it.

    A callback is a named [std::function] object: [body] gives what its code does to the timer, and
    each copy stored in the timer has an identity, so that destroying the object whose code is
    running is seen as a use after free.  Of libuv the model has the handle: the delay it is armed
    with, its repeat interval, and that a firing handle is re-armed with its repeat interval before
    the callback is called ([thirdparty/libuv-1.30.1/src/timer.c]).  The clock is an argument. *)

From S2P Require Import Prelude Lifetime.
Local Open Scope outcome_scope.
Local Open Scope Z_scope.

Module Timer.

(** A stored callback: the identity of the object and the code it runs. *)
Record Callback := mkCallback { object : nat; code : nat }.

Record t := mk {
  m_callback : option Callback;
  m_old_callback : option Callback;
  m_timeouts_ms : list Z;
  m_current_timeout_ms : Z;
  m_repeat_ms : Z;
  m_call_counter : Z;
  m_state_was_reset : bool;
  m_last_callback_time : Z;
  (** libuv: the delay the handle is armed with, and its repeat interval. *)
  uv_armed : option Z;
  uv_repeat : Z;
  (** Callbacks [start] has scheduled on the loop to clear [m_old_callback]. *)
  clears_scheduled : nat;
  next_object : nat;
  (** The callback object whose code is running. *)
  executing : option nat;
  (** Codes run so far. *)
  ran : list nat;
  removable : Lifetime.t
}.

(** [Timer(loop)] at time [now]. *)
Definition create (now : Z) : t :=
  mk None None [] 0 0 0 false now None 0 0 0 None [] Lifetime.removable.

(** Destroying a callback object. *)
Definition destroy (s : t) (c : option Callback) : outcome unit :=
  match c with
  | Some c => check negb (bool_decide (executing s = Some (object c))) else UseAfterFree in Ret tt
  | None => Ret tt
  end.

Definition uv_timer_start (s : t) (timeout repeat : Z) : t :=
  mk (m_callback s) (m_old_callback s) (m_timeouts_ms s) (m_current_timeout_ms s) (m_repeat_ms s)
     (m_call_counter s) (m_state_was_reset s) (m_last_callback_time s) (Some timeout) repeat
     (clears_scheduled s) (next_object s) (executing s) (ran s) (removable s).

Definition uv_timer_stop (s : t) : t :=
  mk (m_callback s) (m_old_callback s) (m_timeouts_ms s) (m_current_timeout_ms s) (m_repeat_ms s)
     (m_call_counter s) (m_state_was_reset s) (m_last_callback_time s) None (uv_repeat s)
     (clears_scheduled s) (next_object s) (executing s) (ran s) (removable s).

(** [uv_timer_stop] and [uv_timer_again] of a handle that fires. *)
Definition uv_rearm (s : t) : t :=
  if uv_repeat s =? 0 then uv_timer_stop s else uv_timer_start s (uv_repeat s) (uv_repeat s).

Definition set_timeouts (s : t) (ts : list Z) (current : Z) : t :=
  mk (m_callback s) (m_old_callback s) ts current (m_repeat_ms s)
     (m_call_counter s) (m_state_was_reset s) (m_last_callback_time s) (uv_armed s) (uv_repeat s)
     (clears_scheduled s) (next_object s) (executing s) (ran s) (removable s).

Definition set_counter (s : t) (counter : Z) (reset : bool) (time : Z) : t :=
  mk (m_callback s) (m_old_callback s) (m_timeouts_ms s) (m_current_timeout_ms s) (m_repeat_ms s)
     counter reset time (uv_armed s) (uv_repeat s)
     (clears_scheduled s) (next_object s) (executing s) (ran s) (removable s).

Definition set_executing (s : t) (e : option nat) (r : list nat) : t :=
  mk (m_callback s) (m_old_callback s) (m_timeouts_ms s) (m_current_timeout_ms s) (m_repeat_ms s)
     (m_call_counter s) (m_state_was_reset s) (m_last_callback_time s) (uv_armed s) (uv_repeat s)
     (clears_scheduled s) (next_object s) e r (removable s).

Definition start_impl (s : t) : outcome t :=
  match m_timeouts_ms s with
  | [] => Fault OutOfBounds
  | front :: rest =>
      let s :=
        if (length (m_timeouts_ms s) =? 1)%nat then uv_timer_start s front (m_repeat_ms s)
        else uv_timer_start s front 0 in
      Ret (set_timeouts s rest front)
  end.

(** [start] with a sequence of timeouts; the callback may be empty. *)
Definition start (s : t) (timeouts_ms : list Z) (repeat_ms : Z) (callback : option nat) (now : Z) : outcome t :=
  let s := set_counter s 0 (m_state_was_reset s) now in
  if bool_decide (timeouts_ms = []) then Ret s
  else
    let s := set_counter s (m_call_counter s) true (m_last_callback_time s) in
    (* m_old_callback = std::move(m_callback) *)
    let* _ := destroy s (m_old_callback s) in
    let fresh := next_object s in
    start_impl
      (mk ((fun c => mkCallback fresh c) <$> callback) (m_callback s) timeouts_ms (m_current_timeout_ms s) repeat_ms
          (m_call_counter s) (m_state_was_reset s) (m_last_callback_time s) (uv_armed s) (uv_repeat s)
          (S (clears_scheduled s)) (S fresh) (executing s) (ran s) (removable s)).

(** The overloads. *)
Definition start_repeating (s : t) (timeout_ms repeat_ms : Z) (callback : option nat) (now : Z) : outcome t :=
  start s [timeout_ms] repeat_ms callback now.
Definition start_once (s : t) (timeout_ms : Z) (callback : option nat) (now : Z) : outcome t :=
  start s [timeout_ms] 0 callback now.
Definition start_sequence (s : t) (timeouts_ms : list Z) (callback : option nat) (now : Z) : outcome t :=
  start s timeouts_ms 0 callback now.

Definition stop (s : t) : t := uv_timer_stop s.

Definition timeout_ms (s : t) : Z := m_current_timeout_ms s.
Definition repeat_ms (s : t) : Z := uv_repeat s.
Definition callback_call_counter (s : t) : Z := m_call_counter s.
Definition real_time_passed_since_last_callback (s : t) (now : Z) : Z :=
  wrap 64 (now - m_last_callback_time s) / 1000000.

Definition schedule_removal (s : t) : outcome t :=
  let s := stop s in
  let* r := Lifetime.schedule_removal (removable s) in
  Ret (mk (m_callback s) (m_old_callback s) (m_timeouts_ms s) (m_current_timeout_ms s) (m_repeat_ms s)
          (m_call_counter s) (m_state_was_reset s) (m_last_callback_time s) (uv_armed s) (uv_repeat s)
          (clears_scheduled s) (next_object s) (executing s) (ran s) r).

(** The callback [start] schedules on the loop. *)
Definition clear_old_callback (s : t) : outcome t :=
  let* _ := destroy s (m_old_callback s) in
  Ret (mk (m_callback s) None (m_timeouts_ms s) (m_current_timeout_ms s) (m_repeat_ms s)
          (m_call_counter s) (m_state_was_reset s) (m_last_callback_time s) (uv_armed s) (uv_repeat s)
          (clears_scheduled s - 1) (next_object s) (executing s) (ran s) (removable s)).

(** What a timer's callback can do to it. *)
Inductive Call := Start (timeouts_ms : list Z) (repeat_ms : Z) (callback : option nat) | Stop.

Section Firing.
Context (body : nat -> list Call).

Definition call (s : t) (k : Call) (now : Z) : outcome t :=
  match k with
  | Start ts r c => start s ts r c now
  | Stop => Ret (stop s)
  end.

Fixpoint calls (s : t) (ks : list Call) (now : Z) : outcome t :=
  match ks with
  | [] => Ret s
  | k :: ks => let* s := call s k now in calls s ks now
  end.

Definition on_timer (s : t) (now : Z) : outcome t :=
  let s := set_counter s (m_call_counter s) false (m_last_callback_time s) in
  let* s :=
    match m_callback s with
    | Some c =>
        let* s := calls (set_executing s (Some (object c)) (ran s ++ [code c])) (body (code c)) now in
        Ret (set_executing s None (ran s))
    | None => Ret s
    end in
  let s := set_counter s (m_call_counter s) (m_state_was_reset s) now in
  if m_state_was_reset s then Ret s
  else
    let s := set_counter s (wrap 64 (m_call_counter s + 1)) (m_state_was_reset s) (m_last_callback_time s) in
    if bool_decide (m_timeouts_ms s = []) then Ret s else start_impl s.

(** libuv fires an armed handle: it stops it, re-arms it with its repeat interval if there is one,
    and calls [on_timer].  A handle that is not armed does not fire. *)
Definition fire (s : t) (now : Z) : outcome t :=
  match uv_armed s with
  | None => Ret s
  | Some _ => on_timer (uv_rearm s) now
  end.

(** Fires at the given times. *)
Fixpoint fires (s : t) (times : list Z) : outcome t :=
  match times with
  | [] => Ret s
  | now :: times => let* s := fire s now in fires s times
  end.

End Firing.

(** ** The schedule *)

(** The delay before the firing number [k], counted from 0. *)
Definition delay_at (timeouts_ms : list Z) (repeat_ms : Z) (k : nat) : option Z :=
  match timeouts_ms !! k with
  | Some d => Some d
  | None => if repeat_ms =? 0 then None else Some repeat_ms
  end.

(** The timer has fired [k] times since it was started. *)
Record scheduled (ts : list Z) (r : Z) (c : nat) (k : nat) (s : t) : Prop := {
  sc_callback : code <$> m_callback s = Some c;
  sc_old : forall x y, m_callback s = Some x -> m_old_callback s = Some y -> object x <> object y;
  sc_fresh : forall x, m_callback s = Some x -> (object x < next_object s)%nat;
  sc_left : m_timeouts_ms s = drop (S k) ts;
  sc_current : Some (m_current_timeout_ms s) = ts !! (k `min` (length ts - 1))%nat;
  sc_armed : uv_armed s = delay_at ts r k;
  sc_repeat : uv_repeat s = if bool_decide (k < length ts - 1)%nat then 0 else r;
  sc_repeat_ms : m_repeat_ms s = r;
  sc_counter : m_call_counter s = wrap 64 (Z.of_nat k);
  sc_idle : executing s = None
}.

(** Objects stored in the timer are older than the next one, and the two are different objects. *)
Definition objects_ok (s : t) : Prop :=
  (forall x, m_callback s = Some x -> (object x < next_object s)%nat) /\
  (forall y, m_old_callback s = Some y -> (object y < next_object s)%nat).

Lemma destroy_idle s c : executing s = None -> destroy s c = Ret tt.
Proof. intros H. unfold destroy. rewrite H. by destruct c. Qed.

(** [start] puts the new schedule in force, whatever the timer was doing. *)
Lemma start_scheduled s ts r c now :
  ts <> [] -> (forall x, m_callback s = Some x -> (object x < next_object s)%nat) ->
  destroy s (m_old_callback s) = Ret tt ->
  exists s', start s ts r (Some c) now = Ret s' /\
    scheduled ts r c 0 (set_executing s' None (ran s')) /\ ran s' = ran s /\ m_state_was_reset s' = true /\
    m_old_callback s' = m_callback s /\ executing s' = executing s.
Proof.
  intros Hts Hobj Hd. unfold start. rewrite bool_decide_false by done.
  change (destroy (set_counter (set_counter s ?a ?b ?c) ?d ?e ?f) ?g) with (destroy s (m_old_callback s)).
  rewrite Hd. cbn [obind]. destruct ts as [|front rest]; [done|]. unfold start_impl. cbn [m_timeouts_ms].
  eexists. split; [reflexivity|].
  destruct (Nat.eqb_spec (length (front :: rest)) 1) as [E|E]; cbn in E.
  all: split; [|done]; split; cbn; try done.
  all: try (intros x y [= <-] Hy; specialize (Hobj _ Hy); cbn; lia).
  all: try (intros x [= <-]; cbn; lia).
  - rewrite bool_decide_false by lia. done.
  - rewrite bool_decide_true by lia. done.
Qed.

(** [on_timer] for a callback that leaves the timer alone. *)
Definition after_call (s : t) (c : nat) (now : Z) : t :=
  mk (m_callback s) (m_old_callback s) (m_timeouts_ms s) (m_current_timeout_ms s) (m_repeat_ms s)
     (wrap 64 (m_call_counter s + 1)) false now (uv_armed s) (uv_repeat s)
     (clears_scheduled s) (next_object s) None (ran s ++ [c]) (removable s).

Lemma on_timer_plain body s c now :
  code <$> m_callback s = Some c -> body c = [] ->
  on_timer body s now =
    if bool_decide (m_timeouts_ms s = []) then Ret (after_call s c now) else start_impl (after_call s c now).
Proof.
  intros Hc Hb. unfold on_timer. cbn [m_callback set_counter].
  destruct (m_callback s) as [[o c']|] eqn:E; [|done]. injection Hc as ->. cbn [code object]. rewrite Hb.
  cbn [calls obind m_state_was_reset set_counter set_executing m_timeouts_ms].
  done.
Qed.

Lemma next_counter k : wrap 64 (wrap 64 (Z.of_nat k) + 1) = wrap 64 (Z.of_nat (S k)).
Proof. unfold wrap. rewrite Z.add_mod_idemp_l by lia. f_equal. lia. Qed.

(** Past the last timeout the repeat interval rules. *)
Lemma scheduled_repeat ts r c k s now :
  scheduled ts r c k s -> (length ts <= S k)%nat -> scheduled ts r c (S k) (after_call (uv_rearm s) c now).
Proof.
  intros [H1 H2 H3 H4 H5 H6 H7 H8 H9 H10] Hk. rewrite bool_decide_false in H7 by lia.
  assert (delay_at ts r (S k) = if r =? 0 then None else Some r) as Ed
    by (unfold delay_at; by rewrite lookup_ge_None_2).
  unfold uv_rearm. rewrite H7.
  destruct (r =? 0) eqn:Er; (split; cbn -[Nat.min]; rewrite ?H4, ?H8, ?H9, ?Ed; try done).
  all: try (by rewrite !drop_ge by lia).
  all: try (rewrite H5; f_equal; lia).
  all: try exact (next_counter k).
  all: rewrite bool_decide_false by lia. all: done.
Qed.

(** Before that each timeout follows the one before it. *)
Lemma scheduled_next ts r c k s now :
  scheduled ts r c k s -> (S k < length ts)%nat ->
  exists s', start_impl (after_call (uv_rearm s) c now) = Ret s' /\ scheduled ts r c (S k) s' /\ ran s' = ran s ++ [c].
Proof.
  intros [H1 H2 H3 H4 H5 H6 H7 H8 H9 H10] Hk. rewrite bool_decide_true in H7 by lia.
  destruct (lookup_lt_is_Some_2 ts (S k) Hk) as [front Hf].
  unfold uv_rearm. rewrite H7. cbn [Z.eqb]. unfold start_impl. cbn [m_timeouts_ms after_call uv_timer_stop].
  rewrite H4, (drop_S ts front (S k) Hf). eexists. split; [reflexivity|].
  rewrite <- (drop_S ts front (S k) Hf), length_drop.
  destruct (Nat.eqb_spec (length ts - S k) 1) as [E|E]; (split; [|done]; split; cbn -[Nat.min]; rewrite ?H8, ?H9; try done).
  all: try (by replace (S k `min` (length ts - 1))%nat with (S k) by lia).
  all: try (unfold delay_at; by rewrite Hf).
  all: try exact (next_counter k).
  - by rewrite bool_decide_false by lia.
  - by rewrite bool_decide_true by lia.
Qed.

Lemma rearm_fields s : m_callback (uv_rearm s) = m_callback s /\ m_timeouts_ms (uv_rearm s) = m_timeouts_ms s /\
  ran (uv_rearm s) = ran s.
Proof. unfold uv_rearm. by destruct (uv_repeat s =? 0). Qed.

(** One firing of a timer whose callback leaves it alone. *)
Lemma fire_scheduled body ts r c k s now :
  body c = [] -> scheduled ts r c k s -> delay_at ts r k <> None ->
  exists s', fire body s now = Ret s' /\ scheduled ts r c (S k) s' /\ ran s' = ran s ++ [c].
Proof.
  intros Hb Hs Hk. destruct (rearm_fields s) as (E1 & E2 & E3). unfold fire. rewrite (sc_armed _ _ _ _ _ Hs).
  destruct (delay_at ts r k); [|done].
  rewrite (on_timer_plain body _ c) by (rewrite ?E1; done || apply Hs). rewrite E2, (sc_left _ _ _ _ _ Hs).
  destruct (decide (S k < length ts)%nat) as [Hlt|Hge].
  - rewrite bool_decide_false by (intros Hn; apply drop_nil_inv in Hn; lia). by apply scheduled_next.
  - rewrite bool_decide_true by (apply drop_ge; lia). eexists. split; [reflexivity|].
    split; [apply scheduled_repeat; [done|lia]|]. cbn. by rewrite E3.
Qed.

Lemma fires_scheduled body ts r c k s times :
  body c = [] -> scheduled ts r c k s ->
  (forall j, (j < length times)%nat -> delay_at ts r (k + j) <> None) ->
  exists s', fires body s times = Ret s' /\ scheduled ts r c (k + length times) s' /\
             ran s' = ran s ++ replicate (length times) c.
Proof.
  intros Hb. revert k s. induction times as [|now times IH]; intros k s Hs Hk; cbn [fires length replicate].
  - exists s. by rewrite Nat.add_0_r, app_nil_r.
  - destruct (fire_scheduled body ts r c k s now Hb Hs) as (s1 & -> & Hs1 & Hr1).
    { specialize (Hk 0%nat). rewrite Nat.add_0_r in Hk. apply Hk. cbn. lia. }
    destruct (IH (S k) s1 Hs1) as (s2 & H2 & Hs2 & Hr2).
    { intros j Hj. replace (S k + j)%nat with (k + S j)%nat by lia. apply Hk. cbn. lia. }
    exists s2. cbn [obind]. split; [exact H2|]. replace (k + S (length times))%nat with (S k + length times)%nat by lia.
    split; [done|]. by rewrite Hr2, Hr1, <- app_assoc.
Qed.

(** C30. A timer fires on its schedule: after [start] with timeouts [t1 ... tn] and a repeat interval
    the handle is armed with [t1], ..., [tn] in turn and then with the repeat interval for ever,
    or not at all when that is zero; each firing calls the callback once, the call counter counts
    the firings and [timeout_ms] is the timeout in force, whatever the timer was doing before. *)
Theorem timer_fires_on_schedule body s ts r c now times :
  ts <> [] -> objects_ok s -> executing s = None -> body c = [] ->
  (r <> 0 \/ (length times <= length ts)%nat) ->
  exists s1 s2, start s ts r (Some c) now = Ret s1 /\ fires body s1 times = Ret s2 /\
    uv_armed s2 = delay_at ts r (length times) /\
    ran s2 = ran s ++ replicate (length times) c /\
    callback_call_counter s2 = wrap 64 (Z.of_nat (length times)) /\
    Some (timeout_ms s2) = ts !! (length times `min` (length ts - 1))%nat.
Proof.
  intros Hts [Ho1 Ho2] He Hb Hr.
  destruct (start_scheduled s ts r c now Hts Ho1 (destroy_idle _ _ He)) as (s1 & H1 & Hs1 & Hr1 & _ & _ & He1).
  assert (set_executing s1 None (ran s1) = s1) as E.
  { rewrite He in He1. destruct s1. cbn in *. by subst. }
  rewrite E in Hs1.
  destruct (fires_scheduled body ts r c 0 s1 times Hb Hs1) as (s2 & H2 & Hs2 & Hr2).
  { intros j Hj. unfold delay_at. cbn. destruct (ts !! j) eqn:Ej; [done|]. apply lookup_ge_None in Ej.
    destruct (Z.eqb_spec r 0); [|done]. destruct Hr; [done|lia]. }
  exists s1, s2. rewrite Hr2, Hr1. split_and!; [done|done|apply Hs2|done|apply Hs2|apply Hs2].
Qed.

Lemma timer_fires_on_schedule_witness :
  exists s1 s2, start (create 0) [10; 20; 5] 7 (Some 1%nat) 0 = Ret s1 /\ fires (fun _ => []) s1 [10; 30; 35; 42] = Ret s2 /\
    uv_armed s2 = Some 7 /\ ran s2 = [1; 1; 1; 1]%nat.
Proof.
  destruct (timer_fires_on_schedule (fun _ => []) (create 0) [10; 20; 5] 7 1%nat 0 [10; 30; 35; 42])
    as (s1 & s2 & H1 & H2 & Ha & Hr & _); [done|done|done|done|by left|].
  exists s1, s2. split; [exact H1|]. split; [exact H2|]. split; [exact Ha|exact Hr].
Defined.

(** A callback can restart its own timer: when the callback of a scheduled timer calls [start]
    once, the firing ends with the new schedule in force from its first timeout with the call
    counter at zero, not a mixture of the two; the callback object that is running is kept until
    the loop clears it, which it can do safely. *)
Theorem timer_restarts_from_its_callback body ts r c k s ts' r' c' now :
  scheduled ts r c k s -> delay_at ts r k <> None -> ts' <> [] ->
  body c = [Start ts' r' (Some c')] ->
  exists s', fire body s now = Ret s' /\ scheduled ts' r' c' 0 s' /\ ran s' = ran s ++ [c] /\
    m_old_callback s' = m_callback s /\
    exists s'', clear_old_callback s' = Ret s'' /\ scheduled ts' r' c' 0 s'' /\ m_old_callback s'' = None.
Proof.
  intros Hs Hk Hts Hb. destruct (rearm_fields s) as (E1 & E2 & E3). pose proof Hs as [H1 H2 H3 H4 H5 H6 H7 H8 H9 H10].
  unfold fire. rewrite H6. destruct (delay_at ts r k); [|done]. unfold on_timer. cbn [m_callback set_counter]. rewrite E1.
  destruct (m_callback s) as [x|] eqn:Ex; [|done]. destruct x as [o cc]. injection H1 as ->. cbn [code object].
  rewrite Hb. cbn [calls call]. set (s0 := set_executing _ _ _).
  destruct (start_scheduled s0 ts' r' c' now Hts) as (s1 & -> & Hs1 & Hr1 & Hreset & Hold & He1).
  { cbn. rewrite E1. intros x [= <-]. unfold uv_rearm. destruct (uv_repeat s =? 0); by apply H3. }
  { unfold destroy. cbn [m_old_callback s0 set_executing set_counter executing].
    assert (m_old_callback (uv_rearm s) = m_old_callback s) as -> by (unfold uv_rearm; by destruct (uv_repeat s =? 0)).
    destruct (m_old_callback s) as [y|]; [|done]. specialize (H2 _ y eq_refl eq_refl). cbn in H2.
    rewrite bool_decide_false; [done|]. congruence. }
  cbn [obind m_state_was_reset set_counter set_executing]. rewrite Hreset.
  eexists. split; [reflexivity|].
  assert (forall f, scheduled ts' r' c' 0 f -> scheduled ts' r' c' 0 (set_counter f (m_call_counter f) true now)) as Hf
    by (intros f [G1 G2 G3 G4 G5 G6 G7 G8 G9 G10]; by split).
  split; [by apply (Hf (set_executing s1 None (ran s1)))|].
  split; [cbn; rewrite Hr1; cbn; by rewrite E3|]. split; [cbn; rewrite Hold; cbn; by rewrite E1|].
  unfold clear_old_callback. rewrite destroy_idle by done. eexists. split; [reflexivity|]. split; [|done].
  destruct Hs1 as [G1 G2 G3 G4 G5 G6 G7 G8 G9 G10]. by split.
Qed.

Definition restarting (c : nat) : list Call :=
  match c with 1%nat => [Start [4; 6] 0 (Some 2%nat)] | _ => [] end.

Lemma timer_restarts_from_its_callback_witness :
  exists s s', start (create 0) [10; 20] 0 (Some 1%nat) 0 = Ret s /\ fire restarting s 10 = Ret s' /\
    uv_armed s' = Some 4 /\ m_call_counter s' = 0 /\ ran s' = [1%nat].
Proof.
  eexists. destruct (timer_restarts_from_its_callback restarting [10; 20] 0 1 0
    (mk (Some (mkCallback 0 1)) None [20] 10 0 0 true 0 (Some 10) 0 1 1 None [] Lifetime.removable) [4; 6] 0 2 10)
    as (s' & H & Hs & Hr & _).
  - split; cbn; try done. intros x [= <-]. cbn. lia.
  - done.
  - done.
  - done.
  - exists s'. split; [reflexivity|]. split; [exact H|]. split; [exact (sc_armed _ _ _ _ _ Hs)|].
    split; [rewrite (sc_counter _ _ _ _ _ Hs); reflexivity|exact Hr].
Defined.

(** [stop] called from the callback of a timer with timeouts left does not stop it: the firing ends
    with the next timeout armed. *)
Theorem stop_in_callback_is_undone body ts r c k s now :
  scheduled ts r c k s -> body c = [Stop] -> (S k < length ts)%nat ->
  exists s', fire body s now = Ret s' /\ uv_armed s' = ts !! S k /\ uv_armed s' <> None.
Proof.
  intros Hs Hb Hk. destruct (rearm_fields s) as (E1 & E2 & E3). pose proof Hs as [H1 H2 H3 H4 H5 H6 H7 H8 H9 H10].
  destruct (lookup_lt_is_Some_2 ts (S k) Hk) as [front Hf].
  unfold fire. rewrite H6. unfold delay_at. destruct (lookup_lt_is_Some_2 ts k ltac:(lia)) as [d ->].
  unfold on_timer. cbn [m_callback set_counter]. rewrite E1.
  destruct (m_callback s) as [[o cc]|] eqn:Ex; [|done]. injection H1 as ->. cbn [code object]. rewrite Hb.
  cbn [calls call obind m_state_was_reset set_counter set_executing stop uv_timer_stop m_timeouts_ms].
  rewrite E2, H4, (drop_S ts front (S k) Hf), bool_decide_false by done.
  unfold start_impl. cbn [m_timeouts_ms set_counter set_executing stop uv_timer_stop].
  rewrite E2, H4, (drop_S ts front (S k) Hf). eexists. split; [reflexivity|]. rewrite Hf.
  by destruct (length (front :: drop (S (S k)) ts) =? 1)%nat.
Qed.

(** Calling [start] twice from a callback destroys the callback that is running. *)
Theorem double_restart_faults :
  (let* s := start (create 0) [10] 0 (Some 1%nat) 0 in
   fire (fun _ => [Start [5] 0 (Some 2%nat); Start [6] 0 (Some 3%nat)]) s 10) = Fault UseAfterFree.
Proof. by vm_compute. Qed.

End Timer.
