(* ===== verification/UdpServer.v ===== *)
(** * UdpServer and UdpPeer

    [source/io/net/UdpServer.cpp], [UdpPeer.cpp] and the handle state of
    [detail/UdpImplBase.h]: a socket whose packets are handed to the user by sender; with
    bookkeeping enabled the server keeps one [UdpPeer] per sender in [m_peers], reports a peer that
    has been silent for the timeout through a [BacklogWithTimeout], and ignores a closed peer for an
    inactivity period ([m_inactive_peers]).

    The server is its [world], the fields other than the backlog, and the backlog, which calls back
    into the world when a peer expires.  A peer object is a number; what the user's callbacks do is
    the parameter [closes]: whether a callback closes the peer it is given, and for how long.  Peer
    objects outlive the calls modelled here: a [shared_ptr] that goes away only drops a reference
    (module [Lifetime]), so the objects stay in [peers].  A reference or an iterator into
    [m_peers] used after its node has been erased is a use after free.  Statuses of libuv calls and
    clock values are arguments. *)

From S2P Require Import Prelude StatusCode Inet Endpoint Backlog.
Local Open Scope outcome_scope.

Module UdpServer.

Abbreviation PeerId := Endpoint.PeerId.t.

#[global] Instance peer_id_countable : Countable PeerId.
Proof.
  refine (inj_countable' (fun k => (Endpoint.PeerId.address_high k, Endpoint.PeerId.address_low k, Endpoint.PeerId.port k))
            (fun k => let '(h, l, p) := k in Endpoint.PeerId.mk h l p) _).
  by intros [].
Defined.

(** [UdpPeer]: [m_id], [m_last_packet_time_ns], and whether [m_udp_handle] is still set. *)
Record UdpPeer := mkPeer { id : PeerId; last_packet_time : Z; has_handle : bool }.

(** The user's callbacks. *)
Inductive Event :=
| NewPeer (p : nat)
| DataReceived (p : nat) (size : Z) (error : Error)
(** A receive error: the peer is a temporary object without an address. *)
| ReceiveFailed (error : Error)
| PeerTimeout (p : nat) (error : Error)
| ServerClosed.

Inductive Handle := NotInited | Opened | Closing.

Record world := mkWorld {
  m_peers : gmap PeerId nat;
  (** The peers being ignored, with the inactivity timeout of their timers. *)
  m_inactive_peers : gmap PeerId Z;
  peers : gmap nat UdpPeer;
  next_peer : nat;
  m_new_peer_callback : bool;
  m_data_receive_callback : bool;
  m_peer_timeout_callback : bool;
  m_server_close_callback : bool;
  m_connection_in_progress : bool;
  handle : Handle;
  (** Callbacks called so far. *)
  events : list Event
}.

Record t := mk { w : world; m_peers_backlog : option (Backlog.t nat) }.

Definition create : t :=
  mk (mkWorld ∅ ∅ ∅ 0 false false false false false NotInited []) None.

(** ** Field updates *)

Definition set_peers (x : world) (ps : gmap PeerId nat) (ina : gmap PeerId Z) : world :=
  mkWorld ps ina (peers x) (next_peer x) (m_new_peer_callback x) (m_data_receive_callback x)
    (m_peer_timeout_callback x) (m_server_close_callback x) (m_connection_in_progress x) (handle x) (events x).
Definition set_objects (x : world) (objs : gmap nat UdpPeer) (next : nat) : world :=
  mkWorld (m_peers x) (m_inactive_peers x) objs next (m_new_peer_callback x) (m_data_receive_callback x)
    (m_peer_timeout_callback x) (m_server_close_callback x) (m_connection_in_progress x) (handle x) (events x).
Definition set_handle (x : world) (h : Handle) (in_progress : bool) : world :=
  mkWorld (m_peers x) (m_inactive_peers x) (peers x) (next_peer x) (m_new_peer_callback x) (m_data_receive_callback x)
    (m_peer_timeout_callback x) (m_server_close_callback x) in_progress h (events x).
Definition set_callbacks (x : world) (new_peer data timeout close : bool) : world :=
  mkWorld (m_peers x) (m_inactive_peers x) (peers x) (next_peer x) new_peer data timeout close
    (m_connection_in_progress x) (handle x) (events x).
Definition emit (x : world) (e : Event) : world :=
  mkWorld (m_peers x) (m_inactive_peers x) (peers x) (next_peer x) (m_new_peer_callback x) (m_data_receive_callback x)
    (m_peer_timeout_callback x) (m_server_close_callback x) (m_connection_in_progress x) (handle x) (events x ++ [e]).

Definition on_world (s : t) (f : world -> world) : t := mk (f (w s)) (m_peers_backlog s).

Definition set_last_packet_time (x : world) (p : nat) (time : Z) : world :=
  match peers x !! p with
  | Some o => set_objects x (<[p := mkPeer (id o) time (has_handle o)]> (peers x)) (next_peer x)
  | None => x
  end.

(** [m_udp_handle = nullptr] of a peer. *)
Definition drop_handle (x : world) (p : nat) : world :=
  match peers x !! p with
  | Some o => set_objects x (<[p := mkPeer (id o) (last_packet_time o) false]> (peers x)) (next_peer x)
  | None => x
  end.

Definition time_getter_impl (x : world) (p : nat) : Z :=
  match peers x !! p with Some o => last_packet_time o | None => 0 end.

(** ** Handle *)

Definition is_open (s : t) : bool := match handle (w s) with Opened => true | _ => false end.

Section Server.
Context {uv : UvErrno}.
(** Whether a callback closes the peer it is given, with which inactivity timeout. *)
Context (closes : Event -> option Z).
Context (clock : nat -> Z).

Definition ensure_handle_inited (s : t) (init_status : Z) : t * Error :=
  match handle (w s) with
  | NotInited =>
      let init_error := Error_of_uv init_status in
      if error_bool init_error then (s, init_error)
      else (on_world s (fun x => set_handle x Opened (m_connection_in_progress x)), Error_of_uv 0)
  | _ => (s, Error_of_uv 0)
  end.

Definition bind (s : t) (type : Endpoint.Type_) (init_status bind_status : Z) : t * Error :=
  if bool_decide (type = Endpoint.UNDEFINED) then (s, Error_of_status INVALID_ARGUMENT)
  else
    let '(s, handle_init_error) := ensure_handle_inited s init_status in
    if error_bool handle_init_error then (s, handle_init_error) else (s, Error_of_uv bind_status).

Definition start_receive (s : t) (type : Endpoint.Type_) (data_callback : bool)
    (init_status bind_status recv_status : Z) : t * Error :=
  let '(s, bind_error) := bind s type init_status bind_status in
  if error_bool bind_error then (s, bind_error)
  else
    let s := on_world s (fun x => set_callbacks x (m_new_peer_callback x) data_callback
                                    (m_peer_timeout_callback x) (m_server_close_callback x)) in
    let receive_start_error := Error_of_uv recv_status in
    if error_bool receive_start_error then (s, receive_start_error)
    else (on_world s (fun x => set_handle x (handle x) true), Error_of_uv 0).

(** The overload with peer bookkeeping. *)
Definition start_receive_tracking (s : t) (type : Endpoint.Type_) (new_peer_callback data_callback : bool)
    (timeout_ms : Z) (timeout_callback : bool) (init_status bind_status recv_status : Z) : t * Error :=
  if timeout_ms =? 0 then (s, Error_of_status INVALID_ARGUMENT)
  else if m_connection_in_progress (w s) then (s, Error_of_status CONNECTION_ALREADY_IN_PROGRESS)
  else
    let x := set_callbacks (w s) new_peer_callback (m_data_receive_callback (w s)) timeout_callback
               (m_server_close_callback (w s)) in
    start_receive (mk x (Some (Backlog.create timeout_ms))) type data_callback init_status bind_status recv_status.

Definition peer_bookkeeping_enabled (s : t) : bool :=
  match m_peers_backlog s with Some _ => true | None => false end.

Definition peers_count (s : t) : nat := size (m_peers (w s)).

(** ** Closing a peer *)

(** [UdpServer::Impl::close_peer]. *)
Definition close_peer (s : t) (p : nat) (inactivity_timeout_ms : Z) : outcome t :=
  match peers (w s) !! p with
  | None => Fault UseAfterFree
  | Some o =>
      let peer_id := id o in
      match m_inactive_peers (w s) !! peer_id with
      | Some _ => Ret s
      | None =>
          let s := on_world s (fun x => set_peers x (m_peers x)
                     (<[peer_id := inactivity_timeout_ms]> (m_inactive_peers x))) in
          match m_peers (w s) !! peer_id with
          | None => Ret s
          | Some active =>
              match m_peers_backlog s with
              | None => Fault NullDeref
              | Some b =>
                  let* (b, _) := Backlog.remove_item b active in
                  Ret (mk (set_peers (w s) (delete peer_id (m_peers (w s))) (m_inactive_peers (w s))) (Some b))
              end
          end
      end
  end.

(** [UdpPeer::close]. *)
Definition peer_close (s : t) (p : nat) (inactivity_timeout_ms : Z) : outcome t :=
  let* s := close_peer s p inactivity_timeout_ms in
  Ret (on_world s (fun x => drop_handle x p)).

(** The timer that [close_peer] starts. *)
Definition on_inactivity_over (s : t) (peer_id : PeerId) : t :=
  on_world s (fun x => set_peers x (m_peers x) (delete peer_id (m_inactive_peers x))).

(** Calling a user's callback that is given peer [p]. *)
Definition call_user (s : t) (e : Event) (p : nat) : outcome t :=
  let s := on_world s (fun x => emit x e) in
  match closes e with
  | Some inactivity => peer_close s p inactivity
  | None => Ret s
  end.

(** ** Expiry *)

(** [on_expired], the callback of the backlog. *)
Definition on_expired (x : world) (b : Backlog.t nat) (item : nat) : outcome (world * Backlog.t nat) :=
  match peers x !! item with
  | None => Fault UseAfterFree
  | Some o =>
      check m_peer_timeout_callback x else NullDeref in
      let* s :=
        match m_peers x !! id o with
        | Some _ =>
            let* s := call_user (mk x (Some b)) (PeerTimeout item (Error_of_uv 0)) item in
            (* m_peers.erase(it) *)
            match m_peers (w s) !! id o with
            | None => Fault UseAfterFree
            | Some _ => Ret (on_world s (fun x => set_peers x (delete (id o) (m_peers x)) (m_inactive_peers x)))
            end
        | None => call_user (mk x (Some b)) (PeerTimeout item (Error_of_status PEER_NOT_FOUND)) item
        end in
      match m_peers_backlog s with
      | Some b => Ret (w s, b)
      | None => Fault NullDeref
      end
  end.

(** A timer of the backlog fires. *)
Definition on_backlog_timer (s : t) (timer_index : nat) : outcome t :=
  match m_peers_backlog s with
  | None => Ret s
  | Some b =>
      let fuel := length (default [] (Backlog.m_items b !! timer_index)) in
      let* (x, b) := Backlog.on_timer clock (time_getter_impl (w s)) on_expired fuel timer_index (w s) b in
      Ret (mk x (Some b))
  end.

(** ** Packets *)

(** The reference [peer_ptr] into [m_peers], dereferenced. *)
Definition deref_peer_ptr (s : t) (peer_id : PeerId) : outcome nat :=
  match m_peers (w s) !! peer_id with
  | Some p => Ret p
  | None => Fault UseAfterFree
  end.

(** [m_peers[peer_id]] and [peer_ptr.reset(new UdpPeer(...))], then the time of the packet. *)
Definition with_new_peer (x : world) (k : PeerId) (created : Z) : world :=
  set_peers (set_objects x (<[next_peer x := mkPeer k created true]> (peers x)) (S (next_peer x)))
    (<[k := next_peer x]> (m_peers x)) (m_inactive_peers x).

(** [on_data_received]; [addr] is the identifier of the sender, if libuv passes one; [created] and
    [received] are the clock values stored as the time of the last packet. *)
Definition on_data_received (s : t) (nread : Z) (addr : option PeerId) (created received : Z) : outcome t :=
  if negb (m_data_receive_callback (w s)) then Ret s
  else
    let error := Error_of_uv nread in
    if error_bool error then Ret (on_world s (fun x => emit x (ReceiveFailed error)))
    else
      match addr with
      | None => Ret s
      | Some peer_id =>
          if nread =? 0 then Ret s
          else
            match m_peers_backlog s with
            | Some b =>
                match m_inactive_peers (w s) !! peer_id with
                | Some _ => Ret s
                | None =>
                    let* s :=
                      match m_peers (w s) !! peer_id with
                      | Some _ => Ret s
                      | None =>
                          let p := next_peer (w s) in
                          let x := with_new_peer (w s) peer_id created in
                          let* (x, b, _) := Backlog.add_item clock (time_getter_impl x) on_expired x b p in
                          let s := mk x (Some b) in
                          if m_new_peer_callback x then
                            let* p := deref_peer_ptr s peer_id in
                            call_user s (NewPeer p) p
                          else Ret s
                      end in
                    let* p := deref_peer_ptr s peer_id in
                    let s := on_world s (fun x => set_last_packet_time x p received) in
                    call_user s (DataReceived p nread error) p
                end
            | None =>
                (* an untracked peer, referenced until the callback returns *)
                let p := next_peer (w s) in
                let x := set_objects (w s) (<[p := mkPeer peer_id created true]> (peers (w s))) (S p) in
                call_user (mk x None) (DataReceived p nread error) p
            end
      end.

(** ** Closing the server *)

Definition close (s : t) (close_callback : bool) : t :=
  if is_open s then
    on_world s (fun x => set_handle (set_callbacks x (m_new_peer_callback x) (m_data_receive_callback x)
                                       (m_peer_timeout_callback x) close_callback) Closing (m_connection_in_progress x))
  else s.

Definition clear_peers (s : t) : t := mk (set_peers (w s) ∅ ∅) None.

Definition on_close (s : t) : t :=
  let s := on_world s (fun x => set_handle x (handle x) false) in
  if m_server_close_callback (w s) then
    clear_peers (on_world s (fun x => emit (set_handle x NotInited false) ServerClosed))
  else s.

(** [close_with_removal]: true when the server can be removed at once. *)
Definition close_with_removal (s : t) : t * bool :=
  if is_open s then (on_world s (fun x => set_handle x Closing false), false)
  else (clear_peers s, true).

(** [on_close_with_removal] up to [schedule_removal], which calls [close_with_removal] again. *)
Definition on_close_with_removal (s : t) : t * bool :=
  close_with_removal (on_world s (fun x => set_handle x NotInited (m_connection_in_progress x))).

End Server.

(** ** Invariant of the bookkeeping *)

Definition values (m : gmap PeerId nat) : list nat := (map_to_list m).*2.

Lemma values_insert m k p : m !! k = None -> values (<[k := p]> m) ≡ₚ p :: values m.
Proof. intros H. unfold values. by rewrite map_to_list_insert. Qed.

Lemma values_delete m k p : m !! k = Some p -> values m ≡ₚ p :: values (delete k m).
Proof. intros H. unfold values. by rewrite <- (map_to_list_delete m k p H). Qed.

Lemma elem_of_values m p : p ∈ values m <-> exists k, m !! k = Some p.
Proof.
  unfold values. rewrite list_elem_of_fmap. split.
  - intros ([k q] & -> & H%elem_of_map_to_list). by exists k.
  - intros (k & H). exists (k, p). split; [done|]. by apply elem_of_map_to_list.
Qed.

Lemma NoDup_concat_lookup (l : list (list nat)) i b : NoDup (concat l) -> l !! i = Some b -> NoDup b.
Proof.
  revert i. induction l as [|c l IH]; intros i Hnd Hi; [done|]. cbn in Hnd. apply NoDup_app in Hnd as (H1 & _ & H2).
  destruct i as [|i]; cbn in Hi; [by injection Hi as <-|by eapply IH].
Qed.

Lemma elem_of_concat_lookup (l : list (list nat)) i b q : l !! i = Some b -> q ∈ b -> q ∈ concat l.
Proof.
  intros Hi Hq. apply list_elem_of_In, in_concat. exists b. split; [|by apply list_elem_of_In].
  apply list_elem_of_In. by eapply list_elem_of_lookup_2.
Qed.

(** Every tracked peer is an object that carries the identifier it is filed under. *)
Definition filed (x : world) : Prop :=
  forall k p, m_peers x !! k = Some p -> exists o, peers x !! p = Some o /\ id o = k.

Record inv (s : t) : Prop := {
  inv_filed : filed (w s);
  inv_apart : forall k, is_Some (m_peers (w s) !! k) -> m_inactive_peers (w s) !! k = None;
  inv_fresh : forall p, is_Some (peers (w s) !! p) -> (p < next_peer (w s))%nat;
  inv_timeout : m_peer_timeout_callback (w s) = true;
  inv_backlog : exists b, m_peers_backlog s = Some b /\ Backlog.active b /\
                  concat (Backlog.m_items b) ≡ₚ values (m_peers (w s))
}.

Lemma filed_inj x k1 k2 p : filed x -> m_peers x !! k1 = Some p -> m_peers x !! k2 = Some p -> k1 = k2.
Proof. intros Hf H1 H2. destruct (Hf _ _ H1) as (o & Ho & <-). destruct (Hf _ _ H2) as (o' & Ho' & <-). congruence. Qed.

Lemma values_NoDup x : filed x -> NoDup (values (m_peers x)).
Proof.
  intros Hf. unfold values. apply NoDup_fmap_2_strong; [|apply NoDup_map_to_list].
  intros [k1 p1] [k2 p2] H1%elem_of_map_to_list H2%elem_of_map_to_list [= ->]. f_equal. by eapply filed_inj.
Qed.

Section Facts.
Context {uv : UvErrno} (closes : Event -> option Z) (clock : nat -> Z).

(** Closing an existing peer stops tracking it and starts ignoring it. *)
Lemma close_peer_inv s p o d : inv s -> peers (w s) !! p = Some o ->
  exists s', close_peer s p d = Ret s' /\ inv s' /\ m_peers (w s') = delete (id o) (m_peers (w s)) /\
    is_Some (m_inactive_peers (w s') !! id o) /\ peers (w s') = peers (w s) /\ events (w s') = events (w s) /\
    next_peer (w s') = next_peer (w s).
Proof.
  intros [Hf Ha Hfr Ht (b & Hb & Hact & Hp)] Ho. unfold close_peer. rewrite Ho.
  destruct (m_inactive_peers (w s) !! id o) as [z|] eqn:Hi.
  { exists s. assert (m_peers (w s) !! id o = None) as Hn.
    { apply eq_None_not_Some. intros H. rewrite (Ha _ H) in Hi. done. }
    split; [done|]. split; [split; [done..|by exists b]|]. by rewrite delete_id. }
  cbn [w on_world set_peers m_peers m_peers_backlog].
  destruct (m_peers (w s) !! id o) as [q|] eqn:Hq.
  - rewrite Hb. destruct (Backlog.remove_item_spec b q Hact) as (b' & removed & -> & Hact' & Hr). cbn [obind].
    assert (q ∈ concat (Backlog.m_items b)) as Hin by (rewrite Hp; apply elem_of_values; by eexists).
    destruct removed; [|by destruct Hr as [_ Hr]].
    eexists. split; [reflexivity|]. cbn. split; [|by rewrite lookup_insert_eq]. split; cbn; [|..|done|].
    + intros k p'. cbn. intros [Hne Hk]%lookup_delete_Some. by apply Hf.
    + intros k [p' [Hne Hk]%lookup_delete_Some]. rewrite lookup_insert_ne by done. apply Ha. by eexists.
    + done.
    + exists b'. split; [done|]. split; [done|]. apply (Permutation_cons_inv (a := q)).
      rewrite <- Hr, Hp. by apply values_delete.
  - eexists. split; [reflexivity|]. cbn. rewrite delete_id by done. split; [|by rewrite lookup_insert_eq].
    split; cbn; [done| |done|done|by exists b].
    intros k Hk. rewrite lookup_insert_ne; [by apply Ha|]. intros <-. rewrite Hq in Hk. by destruct Hk.
Qed.

(** Changing an object without changing its identifier. *)
Lemma update_object_inv s p o o' : inv s -> peers (w s) !! p = Some o -> id o' = id o ->
  inv (on_world s (fun x => set_objects x (<[p := o']> (peers x)) (next_peer x))).
Proof.
  intros [Hf Ha Hfr Ht Hb] Ho Hid. split; cbn; [|done| |done|done].
  - intros k q. cbn. intros Hk. destruct (Hf k q Hk) as (oq & Hoq & <-). destruct (decide (q = p)) as [->|Hne].
    + exists o'. rewrite lookup_insert_eq, Hid. split; [done|]. congruence.
    + exists oq. by rewrite lookup_insert_ne.
  - intros q [oq Hq]. destruct (decide (q = p)) as [->|Hne]; [apply Hfr; by eexists|].
    rewrite lookup_insert_ne in Hq by done. apply Hfr. by eexists.
Qed.

Lemma emit_inv s e : inv s -> inv (on_world s (fun x => emit x e)).
Proof. intros [Hf Ha Hfr Ht Hb]. by split. Qed.

Lemma call_user_inv s e p o : inv s -> peers (w s) !! p = Some o ->
  exists s', call_user closes s e p = Ret s' /\ inv s' /\ events (w s') = events (w s) ++ [e] /\
    (closes e = None -> s' = on_world s (fun x => emit x e)).
Proof.
  intros Hs Ho. unfold call_user. pose proof (emit_inv s e Hs) as Hs1.
  destruct (closes e) as [d|]; [|eexists; split; [reflexivity|]; by split_and!].
  destruct (close_peer_inv _ p o d Hs1 Ho) as (s2 & H2 & Hs2 & _ & _ & Hpe & Hev & _).
  unfold peer_close. rewrite H2. cbn [obind]. eexists. split; [reflexivity|].
  assert (peers (w s2) !! p = Some o) as Ho2 by (by rewrite Hpe). unfold on_world at 1 2, drop_handle. rewrite Ho2.
  split_and!; [|done|done]. apply (update_object_inv s2 p o (mkPeer (id o) (last_packet_time o) false)); done.
Qed.

Lemma set_time_inv s p o time : inv s -> peers (w s) !! p = Some o ->
  inv (on_world s (fun x => set_last_packet_time x p time)) /\
  peers (w (on_world s (fun x => set_last_packet_time x p time))) !! p = Some (mkPeer (id o) time (has_handle o)).
Proof.
  intros Hs Ho. unfold on_world, set_last_packet_time. rewrite Ho. split; [|cbn; by rewrite lookup_insert_eq].
  by apply (update_object_inv s p o (mkPeer (id o) time (has_handle o))).
Qed.

(** ** Expiry *)

(** A reported peer: the callback, and the peer is not tracked any more. *)
Definition timed_out (x : world) (p : nat) : world :=
  match peers x !! p with
  | Some o => let x := emit x (PeerTimeout p (Error_of_uv 0)) in
              set_peers x (delete (id o) (m_peers x)) (m_inactive_peers x)
  | None => x
  end.

Lemma timed_out_peers x p : peers (timed_out x p) = peers x /\ m_inactive_peers (timed_out x p) = m_inactive_peers x /\
  next_peer (timed_out x p) = next_peer x /\ m_peer_timeout_callback (timed_out x p) = m_peer_timeout_callback x.
Proof. unfold timed_out. by destruct (peers x !! p). Qed.

Lemma timed_out_all x seen : peers (foldl timed_out x seen) = peers x /\
  m_inactive_peers (foldl timed_out x seen) = m_inactive_peers x /\
  next_peer (foldl timed_out x seen) = next_peer x /\
  m_peer_timeout_callback (foldl timed_out x seen) = m_peer_timeout_callback x.
Proof.
  revert x. induction seen as [|p seen IH]; intros x; cbn [foldl]; [done|].
  destruct (IH (timed_out x p)) as (-> & -> & -> & ->). apply timed_out_peers.
Qed.

(** The peers not reported stay tracked, the others do not. *)
Lemma timed_out_lookup x seen k p : filed x -> NoDup seen ->
  (forall q, q ∈ seen -> q ∈ values (m_peers x)) ->
  m_peers (foldl timed_out x seen) !! k = Some p <-> m_peers x !! k = Some p /\ p ∉ seen.
Proof.
  revert x. induction seen as [|q seen IH]; intros x Hf Hnd Hseen; cbn [foldl].
  { split; [intros H; split; [done|apply not_elem_of_nil]|by intros [H _]]. }
  apply NoDup_cons in Hnd as [Hq Hnd].
  destruct (proj1 (elem_of_values (m_peers x) q)) as (kq & Hkq); [apply Hseen; by left|].
  destruct (Hf _ _ Hkq) as (oq & Hoq & Hid).
  set (x1 := timed_out x q). assert (m_peers x1 = delete kq (m_peers x)) as E1 by (unfold x1, timed_out; by rewrite Hoq, Hid).
  assert (filed x1) as Hf1.
  { intros k' p'. rewrite E1. intros [_ Hk']%lookup_delete_Some. destruct (timed_out_peers x q) as [E _]. fold x1 in E.
    rewrite E. by apply Hf. }
  rewrite (IH x1 Hf1 Hnd), E1, lookup_delete_Some, not_elem_of_cons.
  - split; [intros [[H1 H2] H3]|intros (H1 & H2 & H3)]; split_and!; try done.
    + intros ->. apply H1. exact (filed_inj x kq k q Hf Hkq H2).
    + intros ->. congruence.
  - intros p' Hp'. rewrite E1. apply elem_of_values. destruct (proj1 (elem_of_values (m_peers x) p')) as (k' & Hk').
    { apply Hseen. by right. }
    exists k'. apply lookup_delete_Some. split; [|done]. intros ->. congruence.
Qed.

Lemma timed_out_values x seen : filed x -> NoDup seen -> (forall q, q ∈ seen -> q ∈ values (m_peers x)) ->
  values (m_peers x) ≡ₚ seen ++ values (m_peers (foldl timed_out x seen)).
Proof.
  intros Hf Hnd Hseen. destruct (timed_out_all x seen) as (Ep & _).
  assert (filed (foldl timed_out x seen)) as Hf'.
  { intros k p. rewrite timed_out_lookup by done. intros [Hk _]. rewrite Ep. by apply Hf. }
  apply NoDup_Permutation; [by apply values_NoDup| |].
  - apply NoDup_app. split_and!; [done| |by apply values_NoDup].
    intros p Hp (k & Hk)%elem_of_values. apply timed_out_lookup in Hk as [_ Hk]; done.
  - intros p. rewrite elem_of_app, !elem_of_values. split.
    + intros (k & Hk). destruct (decide (p ∈ seen)); [by left|right]. exists k. by apply timed_out_lookup.
    + intros [Hp|(k & Hk)]; [by apply elem_of_values, Hseen|]. exists k. apply timed_out_lookup in Hk as [Hk _]; done.
Qed.

(** One expired peer: a timeout callback that closes it erases the entry that is erased again. *)
Lemma on_expired_once x seen b p :
  Backlog.active b -> m_peer_timeout_callback x = true -> (forall k, is_Some (m_peers x !! k) -> m_inactive_peers x !! k = None) ->
  filed x -> NoDup seen -> (forall q, q ∈ seen -> q ∈ values (m_peers x)) -> p ∈ values (m_peers x) -> p ∉ seen ->
  on_expired closes (foldl timed_out x seen) b p =
    match closes (PeerTimeout p (Error_of_uv 0)) with None => Ret (foldl timed_out x (seen ++ [p]), b) | Some _ => Fault UseAfterFree end.
Proof.
  intros Hact Ht Ha Hf Hnd Hseen (k & Hk)%elem_of_values Hp. destruct (Hf k p Hk) as (o & Ho & Hid).
  destruct (timed_out_all x seen) as (Ep & Ei & _ & Et). unfold on_expired. rewrite Ep, Ho, Et, Ht, Hid.
  assert (m_peers (foldl timed_out x seen) !! k = Some p) as Hk' by (by apply timed_out_lookup).
  rewrite Hk'. unfold call_user. destruct (closes _) as [d|].
  - unfold peer_close, close_peer. cbn [w on_world emit peers m_inactive_peers m_peers set_peers m_peers_backlog]. rewrite Ep, Ho, Hid, Ei, Ha, Hk' by (by eexists).
    destruct (Backlog.remove_item_spec b p Hact) as (b' & removed & -> & _). cbn [obind w on_world]. unfold drop_handle. cbn [peers set_peers w emit]. rewrite Ep, Ho.
    cbn [w m_peers set_objects set_peers]. by rewrite lookup_delete_eq.
  - cbn [obind w on_world emit m_peers]. rewrite Hk'. cbn [obind w on_world m_peers_backlog].
    rewrite foldl_app. cbn [foldl]. clear Et Ei. revert Ep Hk'. generalize (foldl timed_out x seen). intros y Ep Hk'.
    unfold timed_out. rewrite Ep, Ho, Hid. done.
Qed.

Lemma timed_out_events x seen : (forall q, q ∈ seen -> is_Some (peers x !! q)) ->
  events (foldl timed_out x seen) = events x ++ map (fun p => PeerTimeout p (Error_of_uv 0)) seen.
Proof.
  revert x. induction seen as [|q seen IH]; intros x Hseen; cbn [foldl map]; [by rewrite app_nil_r|].
  destruct (timed_out_peers x q) as (Ep & _). rewrite IH by (intros q' Hq'; rewrite Ep; apply Hseen; by right).
  destruct (Hseen q) as [o Ho]; [by left|]. unfold timed_out. rewrite Ho. cbn. by rewrite <- app_assoc.
Qed.

(** The silent peers of a bucket: reported once each, and forgotten, unless the callback closes one of them. *)
Lemma on_backlog_timer_inv s b idx bucket : inv s ->
  m_peers_backlog s = Some b -> Backlog.m_items b !! idx = Some bucket ->
  let reported := Backlog.expired_in clock (time_getter_impl (w s)) (Backlog.m_entity_timeout b)
                    (Backlog.clock_reads b) bucket in
  (exists s', on_backlog_timer closes clock s idx = Ret s' /\ inv s' /\
    events (w s') = events (w s) ++ map (fun p => PeerTimeout p (Error_of_uv 0)) reported /\
    values (m_peers (w s)) ≡ₚ reported ++ values (m_peers (w s'))) \/
  (on_backlog_timer closes clock s idx = Fault UseAfterFree /\ exists q, q ∈ reported /\ is_Some (closes (PeerTimeout q (Error_of_uv 0)))).
Proof.
  intros [Hf Ha Hfr Ht (b0 & Hb0 & Hact & Hp)] Hb Hidx. rewrite Hb in Hb0. injection Hb0 as <-. cbn zeta.
  set (reported := Backlog.expired_in _ _ _ _ _).
  unfold on_backlog_timer. rewrite Hb, Hidx. change (default [] (Some bucket)) with bucket. unfold Backlog.on_timer.
  destruct (Backlog.on_timer_loop_conserves clock (time_getter_impl (w s)) (length bucket) idx [] bucket [] b [] Hact Hidx)
    as (b' & Hrun & Hact' & _ & _ & Hperm); [done|]. cbn [app length] in Hrun. fold reported in Hrun, Hperm.
  rewrite app_nil_r, list_insert_id in Hperm by done. rewrite Hp in Hperm.
  assert (NoDup (values (m_peers (w s)))) as Hnd by (by apply values_NoDup).
  assert (forall q, q ∈ bucket -> q ∈ values (m_peers (w s))) as Hbucket.
  { intros q Hq. rewrite <- Hp. by eapply elem_of_concat_lookup. }
  assert (NoDup bucket) as Hndb by (rewrite <- Hp in Hnd; by eapply NoDup_concat_lookup).
  set (P := fun x seen => NoDup seen /\ (forall q, q ∈ seen -> q ∈ values (m_peers (w s))) /\ x = foldl timed_out (w s) seen).
  assert (forall x seen q b1, Backlog.active b1 -> q ∈ bucket -> q ∉ seen -> P x seen ->
    (exists x', on_expired closes x b1 q = Ret (x', b1) /\ P x' (seen ++ [q])) \/
    on_expired closes x b1 q = Fault UseAfterFree /\ is_Some (closes (PeerTimeout q (Error_of_uv 0)))) as Hcb.
  { intros x seen q b1 Hb1 Hq Hns (Hnds & Hins & ->). rewrite on_expired_once by auto. destruct (closes _) as [d|]; [right; split; [done|by eexists]|]. left. eexists. split; [done|].
    split_and!; [|intros y [Hy|Hy]%elem_of_app; [by apply Hins|apply list_elem_of_singleton in Hy as ->; by apply Hbucket]|done].
    apply NoDup_app. split_and!; [done| |apply NoDup_singleton]. intros y Hy Hy'%list_elem_of_singleton. by subst. }
  destruct (Backlog.on_timer_loop_calls clock (time_getter_impl (w s)) (on_expired closes) P bucket _ UseAfterFree Hndb Hcb
    (length bucket) idx 0 (w s) b [] [] reported b' Hact Hidx) as [(x' & Hx' & Hndr & Hinr & ->)|[Hx' Hbad]]; [| |exact Hrun| |].
  { intros y Hy. by apply not_elem_of_nil in Hy. }
  { split_and!; [apply NoDup_nil_2|intros q Hq; by apply not_elem_of_nil in Hq|done]. }
  2: { right. by rewrite Hx'. }
  left. rewrite Hx'. cbn [obind]. eexists. split; [reflexivity|]. cbn [w].
  destruct (timed_out_all (w s) reported) as (Ep & Ei & En & Et).
  pose proof (timed_out_values (w s) reported Hf Hndr Hinr) as Hval. split_and!; [|..|done].
  - split; cbn [w m_peers_backlog]; rewrite ?Ep, ?Ei, ?En, ?Et; [| |done|done|].
    + intros k p. rewrite timed_out_lookup by done. intros [Hk _]. rewrite Ep. by apply Hf.
    + intros k [p Hk]. rewrite timed_out_lookup in Hk by done. apply Ha. by destruct Hk as [Hk _]; eexists.
    + exists b'. split; [done|]. split; [done|]. apply (Permutation_app_inv_l reported). by rewrite <- Hperm.
  - apply timed_out_events. intros q (k & Hk)%Hinr%elem_of_values. destruct (Hf _ _ Hk) as (o & Ho & _). by eexists.
Qed.

(** ** Packets *)

(** The server takes less than the timeout from creating a peer to filing it. *)
Definition prompt (b : Backlog.t nat) (created : Z) : Prop :=
  created <= clock (Backlog.clock_reads b) /\
  wrap 64 (clock (Backlog.clock_reads b) - created) < Backlog.m_entity_timeout b.

Lemma new_peer_inv s b k created : inv s -> m_peers_backlog s = Some b ->
  m_peers (w s) !! k = None -> m_inactive_peers (w s) !! k = None -> prompt b created ->
  let x := with_new_peer (w s) k created in
  exists b', Backlog.add_item clock (time_getter_impl x) (on_expired closes) x b (next_peer (w s)) = Ret (x, b', true) /\
    inv (mk x (Some b')).
Proof.
  intros [Hf Ha Hfr Ht (b0 & Hb0 & Hact & Hp)] Hb Hk Hi [Hle Hlt]. rewrite Hb in Hb0. injection Hb0 as <-. cbn zeta.
  assert (time_getter_impl (with_new_peer (w s) k created) (next_peer (w s)) = created) as Etime
    by (unfold time_getter_impl; cbn; by rewrite lookup_insert_eq).
  destruct (Backlog.add_item_pushes clock (time_getter_impl (with_new_peer (w s) k created)) (on_expired closes)
    (with_new_peer (w s) k created) b (next_peer (w s)) Hact) as (b' & H & Hact' & _ & _ & Hp').
  { by rewrite Etime. }
  { unfold Backlog.is_expired. rewrite Etime. by apply Z.leb_gt. }
  exists b'. split; [exact H|]. split; cbn; [| | |done|].
  - intros k' p. cbn. intros [[<- <-]|[Hne Hk']]%lookup_insert_Some.
    + exists (mkPeer k created true). by rewrite lookup_insert_eq.
    + destruct (Hf k' p Hk') as (o & Ho & <-). exists o. split; [|done]. rewrite lookup_insert_ne; [done|].
      intros E. assert (p < next_peer (w s))%nat by (apply Hfr; by eexists). lia.
  - intros k' [p [[<- _]|[Hne Hk']]%lookup_insert_Some]; [done|]. apply Ha. by eexists.
  - intros p [o [[<- _]|[Hne Ho]]%lookup_insert_Some]; [lia|].
    assert (p < next_peer (w s))%nat by (apply Hfr; by eexists). lia.
  - exists b'. split; [done|]. split; [done|]. rewrite Hp', Hp. symmetry. by apply values_insert.
Qed.

(** The last part of [on_data_received]: the packet is handed over. *)
Definition deliver (s : t) (k : PeerId) (nread received : Z) : outcome t :=
  let* p := deref_peer_ptr s k in
  let s := on_world s (fun x => set_last_packet_time x p received) in
  call_user closes s (DataReceived p nread (Error_of_uv nread)) p.

Lemma deliver_inv s k p nread received : inv s -> m_peers (w s) !! k = Some p ->
  exists s', deliver s k nread received = Ret s' /\ inv s' /\
    events (w s') = events (w s) ++ [DataReceived p nread (Error_of_uv nread)] /\
    (closes (DataReceived p nread (Error_of_uv nread)) = None ->
     m_peers (w s') = m_peers (w s) /\ time_getter_impl (w s') p = received).
Proof.
  intros Hs Hk. destruct (inv_filed _ Hs k p Hk) as (o & Ho & Hid).
  unfold deliver, deref_peer_ptr. rewrite Hk. cbn [obind].
  destruct (set_time_inv s p o received Hs Ho) as [Hs1 Ho1].
  destruct (call_user_inv _ (DataReceived p nread (Error_of_uv nread)) p _ Hs1 Ho1) as (s' & H & Hs' & He & Hn).
  assert (events (w (on_world s (fun x => set_last_packet_time x p received))) = events (w s) /\
          m_peers (w (on_world s (fun x => set_last_packet_time x p received))) = m_peers (w s)) as [Ee Em].
  { unfold on_world, set_last_packet_time. cbn [w]. by rewrite Ho. }
  exists s'. split_and!; [done|done|by rewrite He, Ee|]. intros Hc. rewrite (Hn Hc). unfold time_getter_impl.
  change (m_peers (w (on_world ?y (fun x => emit x ?e)))) with (m_peers (w y)).
  change (peers (w (on_world ?y (fun x => emit x ?e)))) with (peers (w y)). by rewrite Em, Ho1.
Qed.

(** Packets with data from a sender that is not being ignored.  A callback that closes the peer it is told of erases the entry that the packet is delivered by. *)
Lemma packet_inv s b k nread created received : inv s -> m_peers_backlog s = Some b -> prompt b created ->
  m_data_receive_callback (w s) = true -> 0 < nread -> m_inactive_peers (w s) !! k = None ->
  let p := default (next_peer (w s)) (m_peers (w s) !! k) in
  let is_new := bool_decide (m_peers (w s) !! k = None) && m_new_peer_callback (w s) in
  if is_new && bool_decide (is_Some (closes (NewPeer p))) then on_data_received closes clock s nread (Some k) created received = Fault UseAfterFree
  else exists s', on_data_received closes clock s nread (Some k) created received = Ret s' /\ inv s' /\
    events (w s') = events (w s) ++ (if is_new then [NewPeer p] else []) ++ [DataReceived p nread (Error_of_uv nread)] /\
    (closes (DataReceived p nread (Error_of_uv nread)) = None ->
     m_peers (w s') = <[k := p]> (m_peers (w s)) /\ time_getter_impl (w s') p = received).
Proof.
  intros Hs Hb Hpr Hd Hn Hi. cbn zeta. unfold on_data_received. rewrite Hd. cbn [negb].
  rewrite error_bool_of_uv, (proj2 (Z.ltb_ge _ _)), (proj2 (Z.eqb_neq _ _)), Hb, Hi by lia.
  destruct (m_peers (w s) !! k) as [p|] eqn:Hk.
  - change (default (next_peer (w s)) (Some p)) with p. rewrite bool_decide_false by done. cbn [andb app]. rewrite obind_ret.
    destruct (deliver_inv s k p nread received Hs Hk) as (s' & H & Hs' & He & Hm). exists s'.
    split_and!; [exact H|done|done|]. intros Hcl. destruct (Hm Hcl) as [-> ->]. by rewrite insert_id.
  - change (default (next_peer (w s)) None) with (next_peer (w s)). rewrite bool_decide_true by done. cbn [andb].
    destruct (new_peer_inv s b k created Hs Hb Hk Hi Hpr) as (b' & H & Hs1). cbn zeta in H. rewrite H.
    set (x := with_new_peer (w s) k created) in *. cbn [obind]. change (m_new_peer_callback x) with (m_new_peer_callback (w s)).
    assert (m_peers x !! k = Some (next_peer (w s))) as Hkx by (unfold x; cbn; by rewrite lookup_insert_eq).
    destruct (m_new_peer_callback (w s)).
    + match goal with |- context [?m = Fault UseAfterFree] =>
        assert (m = let* s1 := call_user closes (mk x (Some b')) (NewPeer (next_peer (w s))) (next_peer (w s)) in deliver s1 k nread received) as Em end.
      { unfold deref_peer_ptr at 1. cbn [w]. by rewrite Hkx. }
      rewrite Em. clear Em. unfold call_user. destruct (closes (NewPeer _)) as [d|]; cbn [andb].
      { rewrite bool_decide_true by (by eexists). assert (peers x !! next_peer (w s) = Some (mkPeer k created true)) as Ho by (unfold x; cbn; by rewrite lookup_insert_eq).
        destruct (close_peer_inv (on_world (mk x (Some b')) (fun y => emit y (NewPeer (next_peer (w s))))) (next_peer (w s)) _ d (emit_inv _ _ Hs1) Ho) as (s2 & H2 & _ & E2 & _ & Ep & _).
        unfold peer_close. rewrite H2. cbn [obind]. unfold deliver, deref_peer_ptr, on_world, drop_handle. rewrite Ep. cbn [w on_world emit peers]. rewrite Ho. cbn [w set_objects m_peers]. rewrite E2.
        by rewrite lookup_delete_eq. }
      rewrite bool_decide_false by (by intros [? ?]). cbn [obind].
      destruct (deliver_inv (on_world (mk x (Some b')) (fun y => emit y (NewPeer (next_peer (w s))))) k (next_peer (w s)) nread received)
        as (s' & H' & Hs' & He & Hm); [by apply emit_inv|exact Hkx|].
      exists s'. split_and!; [exact H'|done| |intros Hcl; by destruct (Hm Hcl) as [-> ->]].
      rewrite He. cbn. by rewrite <- app_assoc.
    + cbn [obind]. destruct (deliver_inv (mk x (Some b')) k (next_peer (w s)) nread received Hs1 Hkx) as (s' & H' & Hs' & He & Hm).
      exists s'. split_and!; [exact H'|done|done|]. intros Hcl. by destruct (Hm Hcl) as [-> ->].
Qed.

(** ** Runs *)

Inductive Action :=
| Packet (nread : Z) (addr : option PeerId) (created received : Z)
| BacklogTimer (timer_index : nat)
| InactivityOver (k : PeerId)
| ClosePeer (p : nat) (inactivity_timeout_ms : Z).

Definition act (s : t) (a : Action) : outcome t :=
  match a with
  | Packet nread addr created received => on_data_received closes clock s nread addr created received
  | BacklogTimer i => on_backlog_timer closes clock s i
  | InactivityOver k => Ret (on_inactivity_over s k)
  | ClosePeer p d => peer_close s p d
  end.

(** What can happen: a packet is filed promptly, a timer is one of the backlog's, a peer that is
    closed exists. *)
Definition allowed (s : t) (a : Action) : Prop :=
  match a with
  | Packet _ _ created _ => forall b, m_peers_backlog s = Some b -> prompt b created
  | BacklogTimer i => forall b, m_peers_backlog s = Some b -> (i < length (Backlog.m_items b))%nat
  | InactivityOver _ => True
  | ClosePeer p _ => is_Some (peers (w s) !! p)
  end.

(** A callback closes the peer that it is told of, when that is announced or has timed out. *)
Definition closes_early (s : t) (a : Action) : Prop :=
  match a with
  | Packet _ (Some k) _ _ => m_peers (w s) !! k = None /\ m_new_peer_callback (w s) = true /\ is_Some (closes (NewPeer (next_peer (w s))))
  | BacklogTimer i => exists b bucket q, m_peers_backlog s = Some b /\ Backlog.m_items b !! i = Some bucket /\
      q ∈ Backlog.expired_in clock (time_getter_impl (w s)) (Backlog.m_entity_timeout b) (Backlog.clock_reads b) bucket /\ is_Some (closes (PeerTimeout q (Error_of_uv 0)))
  | _ => False
  end.

(** A server that has been started with bookkeeping and a timeout callback. *)
Inductive reachable : t -> Prop :=
| reach_start type new_peer_callback data_callback timeout_ms s e :
    start_receive_tracking create type new_peer_callback data_callback timeout_ms true 0 0 0 = (s, e) ->
    error_bool e = false -> reachable s
| reach_step s a s' : reachable s -> allowed s a -> act s a = Ret s' -> reachable s'.

Lemma backlog_create_active timeout_ms : Backlog.active (Backlog.create (T := nat) timeout_ms).
Proof.
  split_and!; [by apply Backlog.periods_nonempty| |done]. cbn. by rewrite length_replicate.
Qed.

Lemma concat_replicate_nil n : concat (replicate n (@nil nat)) = [].
Proof. by induction n. Qed.

Lemma start_inv type n d timeout_ms s e :
  start_receive_tracking create type n d timeout_ms true 0 0 0 = (s, e) -> error_bool e = false -> inv s.
Proof.
  unfold start_receive_tracking. destruct (timeout_ms =? 0); [by intros [= <- <-]|]. cbn [m_connection_in_progress create w].
  unfold start_receive, bind. case_bool_decide; [by intros [= <- <-]|].
  unfold ensure_handle_inited. cbn [handle w create set_callbacks]. rewrite !error_bool_of_uv. cbn [Z.ltb Z.compare].
  rewrite !error_bool_of_uv. intros [= <- <-] _. split; cbn; [| | |done|].
  - intros k p. cbn. by rewrite lookup_empty.
  - intros k [p Hp]. by rewrite lookup_empty in Hp.
  - intros p [o Ho]. by rewrite lookup_empty in Ho.
  - eexists. split; [reflexivity|]. split; [apply backlog_create_active|]. cbn. rewrite concat_replicate_nil.
    unfold values. by rewrite map_to_list_empty.
Qed.

Lemma act_inv s a : inv s -> allowed s a -> (exists s', act s a = Ret s' /\ inv s') \/ act s a = Fault UseAfterFree /\ closes_early s a.
Proof.
  intros Hs Ha. pose proof (inv_backlog _ Hs) as (b & Hb & _). destruct a as [nread addr created received|i|k|p d]; cbn [act allowed] in *.
  - destruct (m_data_receive_callback (w s)) eqn:Hd; [|unfold on_data_received; rewrite Hd; left; by exists s].
    destruct (error_bool (Error_of_uv nread)) eqn:He.
    { unfold on_data_received. rewrite Hd, He. left. eexists. split; [reflexivity|]. by apply emit_inv. }
    destruct addr as [k|]; [|unfold on_data_received; rewrite Hd, He; left; by exists s].
    destruct (m_inactive_peers (w s) !! k) as [z|] eqn:Hi.
    { left. exists s. split; [|done]. unfold on_data_received. rewrite Hd, He, Hb, Hi. by destruct (nread =? 0). }
    destruct (Z.eqb_spec nread 0) as [->|Hn]; [unfold on_data_received; rewrite Hd, He; left; by exists s|].
    rewrite error_bool_of_uv in He. apply Z.ltb_ge in He.
    pose proof (packet_inv s b k nread created received Hs Hb (Ha b Hb) Hd ltac:(lia) Hi) as Hp. cbn zeta in Hp. destruct (_ && bool_decide (is_Some _)) eqn:E.
    + right. split; [exact Hp|]. apply andb_true_iff in E as [[E1%bool_decide_eq_true E2]%andb_true_iff E3%bool_decide_eq_true]. rewrite E1 in E3. cbn [closes_early]. by split_and!.
    + left. destruct Hp as (s' & H & Hs' & _). by exists s'.
  - destruct (lookup_lt_is_Some_2 _ _ (Ha b Hb)) as [bucket Hidx].
    destruct (on_backlog_timer_inv s b i bucket Hs Hb Hidx) as [(s' & H & Hs' & _)|[H (q & Hq)]]; [left; by exists s'|right]. split; [exact H|]. cbn [closes_early]. by exists b, bucket, q.
  - left. eexists. split; [reflexivity|]. destruct Hs as [Hf Hap Hfr Ht Hbl]. split; cbn; try done.
    intros k' Hk'. destruct (decide (k' = k)) as [->|Hne]; [by rewrite lookup_delete_eq|]. rewrite lookup_delete_ne by done. by apply Hap.
  - destruct Ha as [o Ho]. destruct (close_peer_inv s p o d Hs Ho) as (s2 & H2 & Hs2 & _ & _ & Hpe & _).
    unfold peer_close. rewrite H2. cbn [obind]. left. eexists. split; [reflexivity|]. unfold on_world, drop_handle.
    rewrite Hpe, Ho. rewrite <- Hpe. apply (update_object_inv s2 p o (mkPeer (id o) (last_packet_time o) false)); [done| |done].
    by rewrite Hpe.
Qed.

Lemma server_reachable_inv s : reachable s -> inv s.
Proof.
  induction 1 as [type n d timeout_ms s e H He|s a s' _ IH Ha H]; [by eapply start_inv|].
  destruct (act_inv s a IH Ha) as [(s1 & H1 & Hs1)|[H1 _]]; congruence.
Qed.


(** A packet with data is handed to the user exactly once, with the peer object of its sender:
    the same object as for earlier packets of that sender, or a new one that is announced first;
    the time of the sender's last packet is updated; a packet of a sender that is being ignored has
    no effect, and a receive error is reported without a peer. *)
Theorem packets_are_delivered_by_sender s b k nread created received :
  (forall q, closes (NewPeer q) = None) ->
  reachable s -> m_peers_backlog s = Some b -> prompt b created -> m_data_receive_callback (w s) = true ->
  (nread < 0 -> on_data_received closes clock s nread (Some k) created received =
                Ret (on_world s (fun x => emit x (ReceiveFailed (Error_of_uv nread))))) /\
  (0 < nread -> is_Some (m_inactive_peers (w s) !! k) ->
     on_data_received closes clock s nread (Some k) created received = Ret s) /\
  (0 < nread -> m_inactive_peers (w s) !! k = None ->
     let p := default (next_peer (w s)) (m_peers (w s) !! k) in
     let is_new := bool_decide (m_peers (w s) !! k = None) && m_new_peer_callback (w s) in
     exists s', on_data_received closes clock s nread (Some k) created received = Ret s' /\
       events (w s') = events (w s) ++ (if is_new then [NewPeer p] else []) ++ [DataReceived p nread (Error_of_uv nread)] /\
       (closes (DataReceived p nread (Error_of_uv nread)) = None ->
        m_peers (w s') = <[k := p]> (m_peers (w s)) /\ time_getter_impl (w s') p = received)).
Proof.
  intros Hnew Hs%server_reachable_inv Hb Hpr Hd. split_and!.
  - intros Hn. unfold on_data_received. by rewrite Hd, error_bool_of_uv, (proj2 (Z.ltb_lt _ _)).
  - intros Hn [z Hi]. unfold on_data_received.
    by rewrite Hd, error_bool_of_uv, (proj2 (Z.ltb_ge _ _)), (proj2 (Z.eqb_neq _ _)), Hb, Hi by lia.
  - intros Hn Hi. pose proof (packet_inv s b k nread created received Hs Hb Hpr Hd Hn Hi) as H. cbn zeta in H |- *. rewrite (Hnew _), (bool_decide_false (is_Some None)), andb_false_r in H by (by intros [? ?]).
    destruct H as (s' & H & _ & He & Hm). by exists s'.
Qed.

(** When a backlog timer fires, exactly the tracked peers of its bucket that have been silent for
    the timeout are reported, without an error and once each, in order; they are not tracked any
    more, and all others still are. *)
Theorem silent_peers_are_reported_once s b idx bucket :
  (forall q e, closes (PeerTimeout q e) = None) ->
  reachable s -> m_peers_backlog s = Some b -> Backlog.m_items b !! idx = Some bucket ->
  let reported := Backlog.expired_in clock (time_getter_impl (w s)) (Backlog.m_entity_timeout b)
                    (Backlog.clock_reads b) bucket in
  exists s', on_backlog_timer closes clock s idx = Ret s' /\ NoDup reported /\
    events (w s') = events (w s) ++ map (fun p => PeerTimeout p (Error_of_uv 0)) reported /\
    forall p, (exists k, m_peers (w s') !! k = Some p) <-> (exists k, m_peers (w s) !! k = Some p) /\ p ∉ reported.
Proof.
  intros Htime Hs%server_reachable_inv Hb Hidx. cbn zeta.
  destruct (on_backlog_timer_inv s b idx bucket Hs Hb Hidx) as [(s' & H & Hs' & He & Hp)|[_ (q & _ & Hq)]]; [|rewrite Htime in Hq; by destruct Hq].
  set (reported := Backlog.expired_in _ _ _ _ _) in *.
  assert (NoDup (reported ++ values (m_peers (w s')))) as Hnd by (rewrite <- Hp; apply values_NoDup, Hs).
  apply NoDup_app in Hnd as (Hnd & Hdis & _). exists s'. split_and!; [done|done|done|].
  intros p. rewrite <- !elem_of_values, Hp, elem_of_app. split.
  - intros Hin. split; [by right|]. intros Hr. by apply (Hdis p).
  - intros [[Hr|Hin] Hn]; [done|done].
Qed.

End Facts.

(** ** A run *)

Definition id_a : PeerId := Endpoint.PeerId.mk 0 1 80.
Definition quiet (e : Event) : option Z := None.
Definition example_clock (n : nat) : Z := match n with O => 5 | _ => 9000000 end.

Definition example_start : t :=
  fst (start_receive_tracking (uv := UvFallback) create Endpoint.IP_V4 true true 2 true 0 0 0).

Lemma example_start_reachable : reachable (uv := UvFallback) quiet example_clock example_start.
Proof.
  apply (reach_start (uv := UvFallback) quiet example_clock Endpoint.IP_V4 true true 2 example_start
           (snd (start_receive_tracking (uv := UvFallback) create Endpoint.IP_V4 true true 2 true 0 0 0)));
    vm_compute; reflexivity.
Defined.

Definition example_backlog : Backlog.t nat := Backlog.create 2.


Lemma packets_are_delivered_by_sender_witness :
  exists s', on_data_received (uv := UvFallback) quiet example_clock example_start 10 (Some id_a) 0 0 = Ret s' /\
    events (w s') = [NewPeer 0; DataReceived 0 10 (Error_of_uv (uv := UvFallback) 10)].
Proof.
  destruct (packets_are_delivered_by_sender (uv := UvFallback) quiet example_clock example_start example_backlog id_a 10 0 0)
    as (_ & _ & H); [done|exact example_start_reachable|reflexivity| |reflexivity|].
  { split; vm_compute; [intros ?; discriminate|reflexivity]. }
  destruct (H ltac:(lia) eq_refl) as (s' & H1 & He & _). exists s'. split; [exact H1|exact He].
Defined.

(** The state after a packet of a new sender. *)
Definition example_tracking : t :=
  match on_data_received (uv := UvFallback) quiet example_clock example_start 10 (Some id_a) 0 0 with
  | Ret s => s
  | Fault _ => create
  end.
Definition example_tracking_backlog : Backlog.t nat := default example_backlog (m_peers_backlog example_tracking).

Lemma silent_peers_are_reported_once_witness :
  exists s' idx, on_backlog_timer (uv := UvFallback) quiet example_clock example_tracking idx = Ret s' /\
    events (w s') = events (w example_tracking) ++ [PeerTimeout 0 (Error_of_uv (uv := UvFallback) 0)].
Proof.
  assert (reachable (uv := UvFallback) quiet example_clock example_tracking) as Hr.
  { apply (reach_step (uv := UvFallback) quiet example_clock example_start (Packet 10 (Some id_a) 0 0)).
    - exact example_start_reachable.
    - intros b [= <-]. split; vm_compute; [intros ?; discriminate|reflexivity].
    - vm_compute. reflexivity. }
  destruct (silent_peers_are_reported_once (uv := UvFallback) quiet example_clock example_tracking example_tracking_backlog 0 [0%nat])
    as (s' & H & _ & He & _); [done|exact Hr|vm_compute; reflexivity|vm_compute; reflexivity|].
  exists s', 0%nat. split; [exact H|]. rewrite He. vm_compute. reflexivity.
Defined.

(** ** Closing a peer at the wrong moment *)

Definition closes_new (e : Event) : option Z := match e with NewPeer _ => Some 1000 | _ => None end.
Definition closes_silent (e : Event) : option Z := match e with PeerTimeout _ _ => Some 1000 | _ => None end.

(** Closing a peer from its own new-peer callback erases the entry of [m_peers] that
    [on_data_received] still refers to. *)
Theorem closing_a_new_peer_faults :
  on_data_received (uv := UvFallback) closes_new example_clock example_start 10 (Some id_a) 0 0 = Fault UseAfterFree.
Proof. by vm_compute. Qed.

(** Closing a peer from its timeout callback erases the entry that [on_expired] erases again. *)
Theorem closing_a_silent_peer_faults :
  (let* s := on_data_received (uv := UvFallback) closes_silent example_clock example_start 10 (Some id_a) 0 0 in
   on_backlog_timer (uv := UvFallback) closes_silent (fun _ => 9000000) s 0) = Fault UseAfterFree.
Proof. by vm_compute. Qed.

(** A server closed without a callback keeps its handle marked as initialised: it cannot be started
    again, and its peers stay. *)
Theorem close_without_callback_keeps_state s :
  is_open s = true ->
  handle (w (on_close (close s false))) = Closing /\ m_peers (w (on_close (close s false))) = m_peers (w s) /\
  m_peers_backlog (on_close (close s false)) = m_peers_backlog s.
Proof. intros H. unfold close. by rewrite H. Qed.

End UdpServer.
