(* ===== verification/UdpClient.v ===== *)
(** * UdpClient and sending over UDP

    [source/io/net/UdpClient.cpp], [detail/UdpClientImplBase.h] (sending, shared with [UdpPeer]) and
    the buffer sizes of [detail/UdpImplBase.h].

    A client has a libuv handle, a destination and, while sends are under way, their requests.  A
    [UdpPeer] is the same with the server's handle and a reference counter ([m_ref_counted], module
    [Lifetime]) that every request under way holds.  Statuses returned by libuv and clock values are
    arguments; addresses are the bytes of their [sockaddr] as in [Endpoint].  The callback of a send
    is identified by the number of the send. *)

From S2P Require Import Prelude StatusCode Inet Endpoint Backlog Lifetime.
Import ByteSwap.
Local Open Scope outcome_scope.

Module UdpClient.

Inductive Handle := NotInited | Opened | Closing.

#[global] Instance handle_eq_dec : EqDecision Handle.
Proof. solve_decision. Defined.

Inductive Event :=
| Sent (send : nat) (error : Error)
| Received (size : Z) (error : Error)
| DestinationSet (error : Error)
| Closed.

Record t := mk {
  handle : Handle;
  (** libuv's [IO_UV_HANDLE_BOUND] flag of the handle. *)
  bound : bool;
  m_destination_endpoint : Endpoint.t;
  m_receive_callback : bool;
  m_close_callback : bool;
  m_last_packet_time_ns : Z;
  m_timeout_handler : option (Backlog.t unit);
  m_removal_scheduled : bool;
  m_ref_counted : option Lifetime.t;
  (** Requests given to libuv: the number of the send and whether it has a callback. *)
  requests : list (nat * bool);
  (** Callbacks that [schedule_send_error] has scheduled on the loop. *)
  scheduled_errors : list (nat * Error);
  next_send : nat;
  events : list Event
}.

Definition create (now : Z) : t :=
  mk NotInited false Endpoint.empty false false now None false None [] [] 0 [].

(** [UdpPeer]: the server's open handle, the peer's address and a reference counter. *)
Definition create_peer (endpoint : Endpoint.t) (counter : Lifetime.t) (now : Z) : t :=
  mk Opened true endpoint false false now None false (Some counter) [] [] 0 [].

Definition set_handle (s : t) (h : Handle) (b : bool) : t :=
  mk h b (m_destination_endpoint s) (m_receive_callback s) (m_close_callback s) (m_last_packet_time_ns s)
     (m_timeout_handler s) (m_removal_scheduled s) (m_ref_counted s) (requests s) (scheduled_errors s) (next_send s) (events s).
Definition set_destination_endpoint (s : t) (e : Endpoint.t) : t :=
  mk (handle s) (bound s) e (m_receive_callback s) (m_close_callback s) (m_last_packet_time_ns s)
     (m_timeout_handler s) (m_removal_scheduled s) (m_ref_counted s) (requests s) (scheduled_errors s) (next_send s) (events s).
Definition set_callbacks (s : t) (receive close : bool) : t :=
  mk (handle s) (bound s) (m_destination_endpoint s) receive close (m_last_packet_time_ns s)
     (m_timeout_handler s) (m_removal_scheduled s) (m_ref_counted s) (requests s) (scheduled_errors s) (next_send s) (events s).
Definition set_last_packet_time (s : t) (time : Z) : t :=
  mk (handle s) (bound s) (m_destination_endpoint s) (m_receive_callback s) (m_close_callback s) time
     (m_timeout_handler s) (m_removal_scheduled s) (m_ref_counted s) (requests s) (scheduled_errors s) (next_send s) (events s).
Definition set_timeout_handler (s : t) (b : option (Backlog.t unit)) : t :=
  mk (handle s) (bound s) (m_destination_endpoint s) (m_receive_callback s) (m_close_callback s) (m_last_packet_time_ns s)
     b (m_removal_scheduled s) (m_ref_counted s) (requests s) (scheduled_errors s) (next_send s) (events s).
Definition set_removal_scheduled (s : t) : t :=
  mk (handle s) (bound s) (m_destination_endpoint s) (m_receive_callback s) (m_close_callback s) (m_last_packet_time_ns s)
     (m_timeout_handler s) true (m_ref_counted s) (requests s) (scheduled_errors s) (next_send s) (events s).
Definition set_sends (s : t) (r : option Lifetime.t) (reqs : list (nat * bool)) (errs : list (nat * Error)) (next : nat) : t :=
  mk (handle s) (bound s) (m_destination_endpoint s) (m_receive_callback s) (m_close_callback s) (m_last_packet_time_ns s)
     (m_timeout_handler s) (m_removal_scheduled s) r reqs errs next (events s).
Definition emit (s : t) (e : Event) : t :=
  mk (handle s) (bound s) (m_destination_endpoint s) (m_receive_callback s) (m_close_callback s) (m_last_packet_time_ns s)
     (m_timeout_handler s) (m_removal_scheduled s) (m_ref_counted s) (requests s) (scheduled_errors s) (next_send s)
     (events s ++ [e]).

Definition is_open (s : t) : bool := match handle s with Opened => true | _ => false end.

Section Client.
Context {host : Host} {uv : UvErrno}.

Definition ensure_handle_inited (s : t) (init_status : Z) : t * Error :=
  match handle s with
  | NotInited =>
      let init_error := Error_of_uv init_status in
      if error_bool init_error then (s, init_error) else (set_handle s Opened false, Error_of_uv 0)
  | _ => (s, Error_of_uv 0)
  end.

(** ** Buffer sizes

    On Linux the kernel reports twice the value that was set. *)

Definition buffer_size (s : t) (status value : Z) : Error * Z :=
  if negb (is_open s) then (Error_of_status PROTOCOL_NOT_AVAILABLE, 0)
  else (Error_of_uv status, wrap 64 (Z.quot value 2)).

Definition check_buffer_size_value (s : t) (size : Z) : Error :=
  if size =? 0 then Error_of_status INVALID_ARGUMENT
  else if 2 ^ 31 - 1 <? size then Error_of_status INVALID_ARGUMENT
  else if negb (bound s) then Error_of_status ADDRESS_NOT_AVAILABLE
  else Error_of_uv 0.

(** [set_receive_buffer_size] and [set_send_buffer_size]: the value given to libuv, if any. *)
Definition set_buffer_size (s : t) (size init_status status : Z) : t * Error * option Z :=
  let '(s, handle_init_error) := ensure_handle_inited s init_status in
  if error_bool handle_init_error then (s, handle_init_error, None)
  else
    let parameter_error := check_buffer_size_value s size in
    if error_bool parameter_error then (s, parameter_error, None)
    else
      let error := Error_of_uv status in
      if error_bool error then (s, error, Some size) else (s, Error_of_uv 0, Some size).

(** ** Destination *)

Definition setup_udp_handle (s : t) (endpoint : Endpoint.t) (init_status bind_status : Z) : t * Error :=
  let '(s, handle_init_error) := ensure_handle_inited s init_status in
  if error_bool handle_init_error then (s, handle_init_error)
  else if bool_decide (Endpoint.m_type endpoint = Endpoint.UNDEFINED) then (s, Error_of_status INVALID_ARGUMENT)
  else
    let '(s, error) :=
      if negb (bound s) then
        let bind_error := Error_of_uv bind_status in
        if error_bool bind_error then (s, bind_error) else (set_handle s (handle s) true, Error_of_uv 0)
      else if negb (bool_decide (Endpoint.m_type (m_destination_endpoint s) = Endpoint.UNDEFINED)) &&
              negb (bool_decide (Endpoint.m_type (m_destination_endpoint s) = Endpoint.m_type endpoint))
      then (s, Error_of_status INVALID_ARGUMENT)
      else (s, Error_of_uv 0) in
    if error_bool error then (s, error) else (set_destination_endpoint s endpoint, Error_of_uv 0).

Definition start_receive (recv_status : Z) : Error :=
  let recv_start_error := Error_of_uv recv_status in
  if error_bool recv_start_error then recv_start_error else Error_of_uv 0.

Definition set_destination_impl (s : t) (endpoint : Endpoint.t) (receive_callback : bool)
    (init_status bind_status recv_status : Z) : t * Error :=
  let '(s, destination_error) := setup_udp_handle s endpoint init_status bind_status in
  if error_bool destination_error then (s, destination_error)
  else
    let start_receive_error := start_receive recv_status in
    if error_bool start_receive_error then (s, start_receive_error)
    else (set_callbacks s receive_callback (m_close_callback s), Error_of_uv 0).

(** The callback that [set_destination] schedules. *)
Definition set_destination (s : t) (endpoint : Endpoint.t) (destination_set_callback receive_callback : bool)
    (init_status bind_status recv_status : Z) : t :=
  if m_removal_scheduled s then s
  else
    let '(s, error) := set_destination_impl s endpoint receive_callback init_status bind_status recv_status in
    if destination_set_callback then emit s (DestinationSet error) else s.

(** The overload with a timeout: a backlog whose only item is the client itself; the clock values are
    those read by its [add_item]. *)
Definition set_destination_timeout (s : t) (endpoint : Endpoint.t) (destination_set_callback receive_callback : bool)
    (timeout_ms : Z) (close_callback : bool) (init_status bind_status recv_status : Z) (clock : nat -> Z)
    (expired : t -> Backlog.t unit -> unit -> outcome (t * Backlog.t unit)) : outcome t :=
  if m_removal_scheduled s then Ret s
  else
    let s := set_destination s endpoint destination_set_callback receive_callback init_status bind_status recv_status in
    let s := set_callbacks s (m_receive_callback s) close_callback in
    let* (s, b, _) :=
      Backlog.add_item clock (fun _ => m_last_packet_time_ns s) expired s (Backlog.create timeout_ms) tt in
    Ret (set_timeout_handler s (Some b)).

(** ** Closing *)

(** [close_impl]: whether the client can be removed at once. *)
Definition close_impl (s : t) : t * bool :=
  if is_open s then (set_handle s Closing (bound s), false) else (s, true).

Definition close_no_removal (s : t) : t := fst (close_impl s).

(** The expiry callback of the one-item backlog. *)
Definition on_item_expired (s : t) (b : Backlog.t unit) (_ : unit) : outcome (t * Backlog.t unit) :=
  Ret (close_no_removal s, b).

Definition on_close_no_removal (s : t) : t :=
  let s := set_handle s NotInited false in
  if m_close_callback s then emit s Closed else s.

(** [schedule_removal]: true when [Removable::schedule_removal] is called. *)
Definition schedule_removal (s : t) : t * bool := close_impl (set_removal_scheduled s).

(** ** Receiving *)

(** The comparison of the sender with the destination, both read as [sockaddr_in]. *)
Definition from_destination (s : t) (addr : list Z) : bool :=
  let expect := Endpoint.raw_endpoint (m_destination_endpoint s) in
  (load 4 off_addr4 addr =? load 4 off_addr4 expect) && (load 2 off_port addr =? load 2 off_port expect).

Definition on_data_received (s : t) (nread : Z) (addr : option (list Z)) (now : Z) : t :=
  let s := set_last_packet_time s now in
  if negb (m_receive_callback s) then s
  else
    let error := Error_of_uv nread in
    if error_bool error then emit s (Received 0 error)
    else
      match addr with
      | Some addr =>
          if negb (nread =? 0) && from_destination s addr then emit s (Received nread error) else s
      | None => s
      end.

(** ** Sending *)

Definition schedule_send_error (s : t) (callback : bool) (error : Error) : t :=
  if callback
  then set_sends s (m_ref_counted s) (requests s) (scheduled_errors s ++ [(next_send s, error)]) (S (next_send s))
  else set_sends s (m_ref_counted s) (requests s) (scheduled_errors s) (S (next_send s)).

(** [m_ref_counted->ref()] and [unref()]. *)
Definition with_counter (s : t) (f : Lifetime.t -> outcome Lifetime.t) : outcome (option Lifetime.t) :=
  match m_ref_counted s with
  | Some r => let* r := f r in Ret (Some r)
  | None => Ret None
  end.

(** [send_data_impl]; [uv_status] is what [uv_udp_send] returns.  A request that libuv refuses is not
    deleted and nothing refers to it any more. *)
Definition send_data (s : t) (size : Z) (callback : bool) (now uv_status : Z) : outcome t :=
  if size =? 0 then Ret (schedule_send_error s callback (Error_of_status INVALID_ARGUMENT))
  else if negb (is_open s) then Ret (schedule_send_error s callback (Error_of_status OPERATION_CANCELED))
  else if bool_decide (Endpoint.m_type (m_destination_endpoint s) = Endpoint.UNDEFINED)
  then Ret (schedule_send_error s callback (Error_of_status DESTINATION_ADDRESS_REQUIRED))
  else
    let s := set_last_packet_time s now in
    let send := next_send s in
    if uv_status <? 0 then
      let s := set_sends s (m_ref_counted s) (requests s) (scheduled_errors s) (S send) in
      Ret (if callback then emit s (Sent send (Error_of_uv uv_status)) else s)
    else
      let* r := with_counter s Lifetime.ref in
      Ret (set_sends s r (requests s ++ [(send, callback)]) (scheduled_errors s) (S send)).

(** [on_send] of the request at position [i] among those under way. *)
Definition on_send (s : t) (i : nat) (uv_status : Z) : outcome t :=
  match (requests s !! i : option (nat * bool)) with
  | None => Fault UseAfterFree
  | Some (send, callback) =>
      let s := if callback then emit s (Sent send (Error_of_uv uv_status)) else s in
      let* r := with_counter s Lifetime.unref in
      Ret (set_sends s r (delete i (requests s)) (scheduled_errors s) (next_send s))
  end.

(** The loop runs the first scheduled error callback. *)
Definition run_scheduled_error (s : t) : t :=
  match scheduled_errors s with
  | [] => s
  | (send, error) :: rest => emit (set_sends s (m_ref_counted s) (requests s) rest (next_send s)) (Sent send error)
  end.

(** [bound_port]; [address] is what [uv_udp_getsockname] stores. *)
Definition bound_port (s : t) (status : Z) (address : list Z) : Z :=
  if negb (is_open s) then 0
  else if error_bool (Error_of_uv status) then 0
  else network_to_host 2 (load 2 off_port address).

(** Setting a destination when libuv grants everything: refused, with the old destination kept, for
    an undefined endpoint and for another address family than that of the bound socket; otherwise
    the destination is the endpoint and packets go to the callback. *)
Theorem set_destination_impl_cases s e cb :
  let '(s', error) := set_destination_impl s e cb 0 0 0 in
  let dest_type := Endpoint.m_type (m_destination_endpoint s) in
  if bool_decide (Endpoint.m_type e = Endpoint.UNDEFINED) ||
     (bool_decide (handle s <> NotInited) && bound s && bool_decide (dest_type <> Endpoint.UNDEFINED) &&
      bool_decide (dest_type <> Endpoint.m_type e))
  then code error = INVALID_ARGUMENT /\ m_destination_endpoint s' = m_destination_endpoint s /\
       m_receive_callback s' = m_receive_callback s
  else error_bool error = false /\ m_destination_endpoint s' = e /\ m_receive_callback s' = cb /\ bound s' = true.
Proof.
  unfold set_destination_impl, setup_udp_handle, ensure_handle_inited, start_receive.
  assert (error_bool (Error_of_uv 0) = false) as E0 by apply error_bool_of_uv.
  destruct (handle s) eqn:Eh; rewrite ?E0; cbn [bound set_handle negb];
    (destruct (Endpoint.m_type e) eqn:Et; cbn [bool_decide decide]; try (by cbn));
    destruct (bound s) eqn:Eb; rewrite ?E0;
    destruct (Endpoint.m_type (m_destination_endpoint s)) eqn:Ed; cbn; rewrite ?Ed, ?Et, ?E0; cbn; rewrite ?E0; cbn; rewrite ?Eb; done.
Qed.

(** ** Runs of sends *)

Inductive Action :=
| Send (size : Z) (callback : bool) (now uv_status : Z)
| LoopCycle
| SendDone (i : nat) (uv_status : Z).

(** The state after the actions and the sends that were made with a callback; libuv completes only
    requests that are under way. *)
Fixpoint run (s : t) (actions : list Action) : outcome (t * list nat) :=
  match actions with
  | [] => Ret (s, [])
  | Send size callback now uv_status :: actions =>
      let send := next_send s in
      let* s := send_data s size callback now uv_status in
      let* (s, sends) := run s actions in
      Ret (s, if callback then send :: sends else sends)
  | LoopCycle :: actions => run (run_scheduled_error s) actions
  | SendDone i uv_status :: actions =>
      if (i <? length (requests s))%nat then let* s := on_send s i uv_status in run s actions
      else run s actions
  end.

Definition sent_of (e : Event) : option nat := match e with Sent n _ => Some n | _ => None end.
(** The sends whose callback has been called and will be called by the loop; the others are held by a
    request ([under_way]). *)
Definition called (s : t) : list nat := omap sent_of (events s).
Definition scheduled (s : t) : list nat := (scheduled_errors s).*1.

Definition accounted (s : t) : list nat := called s ++ scheduled s ++ under_way (requests s).

(** The owner of a peer still holds its reference. *)
Definition counted (s : t) : Prop :=
  match m_ref_counted s with
  | Some r => Lifetime.inv r /\ Lifetime.m_ref_counter r = 1 + Z.of_nat (length (requests s))
  | None => True
  end.

Lemma called_emit s n e : called (emit s (Sent n e)) = called s ++ [n].
Proof. unfold called. cbn. by rewrite omap_app. Qed.

(** One send accounts for exactly its own callback. *)
Lemma send_data_accounts s size cb now status : counted s -> Z.of_nat (length (requests s)) < 2 ^ 63 ->
  exists s', send_data s size cb now status = Ret s' /\ counted s' /\ next_send s' = S (next_send s) /\
    (length (requests s') <= S (length (requests s)))%nat /\
    accounted s' ≡ₚ (if cb then [next_send s] else []) ++ accounted s.
Proof.
  intros Hc Hl. unfold send_data.
  assert (forall e, exists s', Ret (schedule_send_error s cb e) = Ret s' /\ counted s' /\ next_send s' = S (next_send s) /\
    (length (requests s') <= S (length (requests s)))%nat /\
    accounted s' ≡ₚ (if cb then [next_send s] else []) ++ accounted s) as Herr.
  { intros e. eexists. split; [reflexivity|]. unfold schedule_send_error. destruct cb; split_and!; cbn; try done; try lia.
    unfold accounted, called, scheduled. cbn. rewrite fmap_app. apply account_middle. }
  destruct (size =? 0); [apply Herr|]. destruct (negb _); [apply Herr|]. case_bool_decide; [apply Herr|].
  destruct (status <? 0).
  - eexists. split; [reflexivity|]. destruct cb; (split_and!; [done|done|cbn; lia|]); [|done].
    unfold accounted. rewrite called_emit. exact (account_middle [] (called s) (scheduled s ++ under_way (requests s)) (next_send s)).
  - assert (accounted (set_sends s (m_ref_counted s) (requests s ++ [(next_send s, cb)]) (scheduled_errors s) (S (next_send s)))
      ≡ₚ (if cb then [next_send s] else []) ++ accounted s) as Hacc.
    { unfold accounted, called, scheduled, under_way. cbn. rewrite List.filter_app, fmap_app. cbn. destruct cb; cbn; [|by rewrite app_nil_r].
      apply account_end. }
    unfold with_counter. cbn [m_ref_counted set_last_packet_time]. unfold counted in Hc.
    destruct (m_ref_counted s) as [r|] eqn:Er; cbn [obind].
    + destruct Hc as [Hi Hn]. destruct (Lifetime.ref_live r Hi ltac:(lia)) as (r' & -> & Hi' & Hn'). cbn [obind].
      eexists. split; [reflexivity|]. split_and!; [|done|cbn; rewrite length_app; cbn; lia|exact Hacc].
      cbn. split; [done|]. rewrite length_app. cbn. lia.
    + eexists. split; [reflexivity|]. split_and!; [done|done|cbn; rewrite length_app; cbn; lia|exact Hacc].
Qed.

Lemma on_send_accounts s i status : counted s -> (i < length (requests s))%nat ->
  exists s', on_send s i status = Ret s' /\ counted s' /\ next_send s' = next_send s /\
    (length (requests s') <= length (requests s))%nat /\ accounted s' ≡ₚ accounted s.
Proof.
  intros Hc Hi. unfold on_send. destruct (lookup_lt_is_Some_2 _ _ Hi) as [[n cb] Hn]. rewrite Hn.
  set (s1 := if cb then _ else s).
  assert (requests s1 = requests s /\ m_ref_counted s1 = m_ref_counted s /\ next_send s1 = next_send s /\
          scheduled s1 = scheduled s /\ called s1 = called s ++ (if cb then [n] else [])) as (E1 & E2 & E3 & E4 & E5).
  { unfold s1. destruct cb; [by rewrite called_emit|]. by rewrite app_nil_r. }
  assert (S (length (delete i (requests s))) = length (requests s)) as Hlen by (rewrite length_delete by (by eexists); lia).
  assert (forall r, accounted (set_sends s1 r (delete i (requests s1)) (scheduled_errors s1) (next_send s1)) ≡ₚ accounted s) as Hacc.
  { intros r. unfold accounted. change (called (set_sends s1 _ _ _ _)) with (called s1).
    change (scheduled (set_sends s1 _ _ _ _)) with (scheduled s1). cbn [requests set_sends]. rewrite E1, E4, E5.
    rewrite (under_way_delete _ _ _ _ Hn), <- !app_assoc. f_equiv. apply Permutation_app_swap_app. }
  unfold with_counter. rewrite E2. unfold counted in Hc. destruct (m_ref_counted s) as [r|] eqn:Er; cbn [obind].
  - destruct Hc as [Hr Hcnt]. destruct (Lifetime.unref_live r Hr ltac:(lia)) as (r' & -> & Hr' & Hcnt'). cbn [obind].
    eexists. split; [reflexivity|]. split_and!; [|done|cbn; rewrite E1; lia|apply Hacc].
    cbn. split; [done|]. rewrite E1. lia.
  - eexists. split; [reflexivity|]. split_and!; [done|done|cbn; rewrite E1; lia|apply Hacc].
Qed.

Lemma run_scheduled_accounts s : counted s ->
  counted (run_scheduled_error s) /\ next_send (run_scheduled_error s) = next_send s /\
  requests (run_scheduled_error s) = requests s /\ accounted (run_scheduled_error s) = accounted s.
Proof.
  intros Hc. unfold run_scheduled_error. destruct (scheduled_errors s) as [|[n e] rest] eqn:E; [done|].
  split_and!; [done|done|done|]. unfold accounted. rewrite called_emit. unfold called, scheduled. cbn. by rewrite E, <- app_assoc.
Qed.

Lemma run_accounts actions s : counted s -> Z.of_nat (length (requests s) + length actions) < 2 ^ 63 ->
  exists s' sends, run s actions = Ret (s', sends) /\ counted s' /\
    accounted s' ≡ₚ sends ++ accounted s /\ NoDup sends /\ (forall n, n ∈ sends -> (next_send s <= n)%nat).
Proof.
  revert s. induction actions as [|a actions IH]; intros s Hc Hl; cbn [run].
  { exists s, []. split_and!; [done|done|done|apply NoDup_nil_2|]. intros n Hn. by apply not_elem_of_nil in Hn. }
  cbn [length] in Hl. destruct a as [size cb now status| |i status].
  - destruct (send_data_accounts s size cb now status Hc ltac:(lia)) as (s1 & -> & Hc1 & Hn1 & Hl1 & Ha1). cbn [obind].
    destruct (IH s1 Hc1 ltac:(lia)) as (s2 & sends & -> & Hc2 & Ha2 & Hnd & Hge). cbn [obind].
    eexists _, _. split; [reflexivity|]. split; [done|]. rewrite Hn1 in Hge. split.
    + rewrite Ha2, Ha1. destruct cb; cbn; [by rewrite <- Permutation_middle|done].
    + destruct cb; (split; [|intros n Hn]).
      * apply NoDup_cons. split; [|done]. intros Hin%Hge. lia.
      * apply elem_of_cons in Hn as [->|Hn]; [done|]. apply Hge in Hn. lia.
      * done.
      * apply Hge in Hn. lia.
  - destruct (run_scheduled_accounts s Hc) as (Hc1 & Hn1 & Hr1 & Ha1).
    destruct (IH (run_scheduled_error s) Hc1) as (s2 & sends & H & Hc2 & Ha2 & Hnd & Hge); [rewrite Hr1; lia|].
    exists s2, sends. rewrite Ha1 in Ha2. rewrite Hn1 in Hge. by split_and!.
  - destruct (Nat.ltb_spec i (length (requests s))) as [Hi|Hi]; [|apply IH; [done|lia]].
    destruct (on_send_accounts s i status Hc Hi) as (s1 & -> & Hc1 & Hn1 & Hl1 & Ha1). cbn [obind].
    destruct (IH s1 Hc1 ltac:(lia)) as (s2 & sends & H & Hc2 & Ha2 & Hnd & Hge).
    exists s2, sends. rewrite Ha1 in Ha2. rewrite Hn1 in Hge. by split_and!.
Qed.

(** C32. Every send answers exactly once: for every sequence of sends, loop cycles and completions by
    libuv, nothing faults, and each send made with a callback has had it called once, or has it
    scheduled once, or held by one request under way, and never two of these; a peer's reference
    counter is its owner's reference plus the requests under way, so the peer outlives them. *)
Theorem sends_answer_exactly_once s actions :
  counted s -> requests s = [] -> scheduled_errors s = [] -> events s = [] ->
  Z.of_nat (length actions) < 2 ^ 63 ->
  exists s' sends, run s actions = Ret (s', sends) /\ NoDup sends /\
    called s' ++ scheduled s' ++ under_way (requests s') ≡ₚ sends /\
    (forall r, m_ref_counted s' = Some r ->
       Lifetime.deletions r = 0%nat /\ Lifetime.ref_count r = 1 + Z.of_nat (length (requests s'))).
Proof.
  intros Hc Hr He Hv Hl. destruct (run_accounts actions s Hc) as (s' & sends & H & Hc' & Ha & Hnd & _); [rewrite Hr; done|].
  exists s', sends. split_and!; [done|done| |].
  - unfold accounted, called, scheduled, under_way in Ha. rewrite Hr, He, Hv in Ha. cbn in Ha. by rewrite app_nil_r in Ha.
  - intros r Er. unfold counted in Hc'. rewrite Er in Hc'. destruct Hc' as [Hi Hn]. split; [|exact Hn].
    destruct (Lifetime.inv_live _ Hi ltac:(lia)). lia.
Qed.

(** ** The receive filter *)

Lemma load_eq_slice n off m1 m2 :
  Forall byte_ok m1 -> Forall byte_ok m2 -> (off + n <= length m1)%nat -> (off + n <= length m2)%nat ->
  (load n off m1 =? load n off m2) = true <-> slice off n m1 = slice off n m2.
Proof.
  intros H1 H2 L1 L2. rewrite Z.eqb_eq. unfold load. fold (slice off n m1) (slice off n m2). split; [|by intros ->].
  apply Endpoint.PeerId.bytes_word_inj; [by apply slice_ok..|by rewrite !length_slice].
Qed.

(** The receive filter of [UdpClient]: for an IPv4 destination a packet is handed to the user
    exactly when its sender is the destination, address and port.  For an IPv6 destination the
    address is not looked at: the packet is handed over exactly when the ports and the flow
    information agree. *)
Theorem receive_filter_checks s from nread now :
  Endpoint.wf from -> Endpoint.wf (m_destination_endpoint s) -> m_receive_callback s = true -> 0 < nread ->
  let dest := m_destination_endpoint s in
  let quiet := set_last_packet_time s now in
  let handed := emit quiet (Received nread (Error_of_uv nread)) in
  exists pass : bool, on_data_received s nread (Some (Endpoint.raw_endpoint from)) now = (if pass then handed else quiet) /\
    (Endpoint.m_type from = Endpoint.IP_V4 -> Endpoint.m_type dest = Endpoint.IP_V4 ->
       (pass = true <-> slice off_addr4 4 (Endpoint.raw_endpoint from) = slice off_addr4 4 (Endpoint.raw_endpoint dest) /\
                        slice off_port 2 (Endpoint.raw_endpoint from) = slice off_port 2 (Endpoint.raw_endpoint dest)) /\
       (pass = true -> Endpoint.view from = Endpoint.view dest)) /\
    (Endpoint.m_type from = Endpoint.IP_V6 -> Endpoint.m_type dest = Endpoint.IP_V6 ->
       (pass = true <-> slice 4 4 (Endpoint.raw_endpoint from) = slice 4 4 (Endpoint.raw_endpoint dest) /\
                        slice off_port 2 (Endpoint.raw_endpoint from) = slice off_port 2 (Endpoint.raw_endpoint dest))).
Proof.
  intros (Hl1 & Hok1 & _) (Hl2 & Hok2 & _) Hcb Hn. cbn zeta. unfold Endpoint.raw_endpoint.
  exists (from_destination s (Endpoint.m_address_storage from)). split.
  { unfold on_data_received. cbn [m_receive_callback set_last_packet_time]. rewrite Hcb. cbn [negb].
    rewrite error_bool_of_uv, (proj2 (Z.ltb_ge _ _)), (proj2 (Z.eqb_neq _ _)) by lia. done. }
  assert (from_destination s (Endpoint.m_address_storage from) = true <->
    slice off_addr4 4 (Endpoint.m_address_storage from) = slice off_addr4 4 (Endpoint.m_address_storage (m_destination_endpoint s)) /\
    slice off_port 2 (Endpoint.m_address_storage from) = slice off_port 2 (Endpoint.m_address_storage (m_destination_endpoint s))) as Hpass.
  { unfold from_destination, Endpoint.raw_endpoint. rewrite andb_true_iff.
    by rewrite !load_eq_slice by (done || (rewrite ?Hl1, ?Hl2; unfold off_addr4, off_port, sizeof_sockaddr_storage; lia)). }
  split; [|done]. intros T1 T2. split; [done|]. rewrite Hpass. intros [H1 H2]. unfold Endpoint.view.
  by rewrite T1, T2, H1, H2.
Qed.

End Client.

Lemma sends_answer_exactly_once_witness :
  exists s' sends, run (uv := UvFallback) (create_peer (Endpoint.of_u32 (host := LittleEndianHost) 2130706433 80)
      (Lifetime.mk None false false 1 0 0 0 []) 0)
      [Send 4 true 1 0; Send 0 true 2 0; Send 5 true 3 0; SendDone 1 0; LoopCycle] = Ret (s', sends) /\
    NoDup sends /\ called s' ++ scheduled s' ++ under_way (requests s') ≡ₚ sends /\ called s' = [2; 1]%nat.
Proof.
  destruct (sends_answer_exactly_once (uv := UvFallback)
    (create_peer (Endpoint.of_u32 (host := LittleEndianHost) 2130706433 80) (Lifetime.mk None false false 1 0 0 0 []) 0)
    [Send 4 true 1 0; Send 0 true 2 0; Send 5 true 3 0; SendDone 1 0; LoopCycle]) as (s' & sends & H & Hnd & Hp & _).
  - split; [|reflexivity]. split; cbn; [lia|by intros _|lia|lia].
  - reflexivity.
  - reflexivity.
  - reflexivity.
  - vm_compute. reflexivity.
  - exists s', sends. split; [exact H|]. split; [exact Hnd|]. split; [exact Hp|].
    vm_compute in H. injection H as <- _. reflexivity.
Defined.

(** Two senders on the same port of different IPv6 hosts. *)
Definition host_a : Endpoint.t := Endpoint.of_bytes (host := LittleEndianHost) (replicate 15 0 ++ [1]) 80.
Definition host_b : Endpoint.t := Endpoint.of_bytes (host := LittleEndianHost) (replicate 15 0 ++ [2]) 80.
Definition client_of_a : t := set_callbacks (set_destination_endpoint (create 0) host_a) true false.

Lemma receive_filter_checks_witness :
  Endpoint.view host_b <> Endpoint.view host_a /\
  on_data_received (host := LittleEndianHost) (uv := UvFallback) client_of_a 3 (Some (Endpoint.raw_endpoint host_b)) 9 =
    emit (set_last_packet_time client_of_a 9) (Received 3 (Error_of_uv (uv := UvFallback) 3)).
Proof.
  split; [by vm_compute|].
  destruct (receive_filter_checks (host := LittleEndianHost) (uv := UvFallback) client_of_a host_b 3 9) as (pass & H & _ & H6).
  - split_and!; [reflexivity| |reflexivity]. refine (bool_decide_unpack _ _). vm_compute. exact I.
  - split_and!; [reflexivity| |reflexivity]. refine (bool_decide_unpack _ _). vm_compute. exact I.
  - reflexivity.
  - lia.
  - rewrite H, (proj2 (H6 eq_refl eq_refl)); [reflexivity|]. split; vm_compute; reflexivity.
Defined.

End UdpClient.
