(* ===== verification/TcpStream.v ===== *)
(** * TcpClientImplBase: a TCP stream

    [source/io/net/detail/TcpClientImplBase.h], the base class of [TcpClient::Impl] and
    [TcpConnectedClient::Impl], with [DataChunk.h], [detail/RawBufferGetter.h] and
    [detail/Common.cpp].

    The class is a template over the class derived from it; here that is the class [Derived]: a state
    that contains the members of the base.  libuv handles, buffers and write requests are numbered;
    the memory of the read buffers is part of the state, and [kept] records the copies of received
    chunks that user code holds (each a [shared_ptr] to its buffer), with the bytes the chunk held
    when it was delivered.  Statuses returned by libuv are arguments. *)

From S2P Require Import Prelude StatusCode Endpoint.
Local Open Scope outcome_scope.
Local Open Scope record_scope.

Module TcpStream.

(** [struct DataChunk]: a buffer, a size and an offset in the stream. *)
Record DataChunk := mkChunk { buf : option nat; size : Z; offset : Z }.

#[global] Instance chunk_eq_dec : EqDecision DataChunk.
Proof. solve_decision. Defined.

(** Calls of user callbacks; [Connected] is called by [TcpClient] only. *)
Inductive Event :=
| Connected (error : Error)
| Received (chunk : DataChunk) (data : list Z)
| Sent (send : nat) (error : Error)
| Closed (error : Error).

Record t := mk {
  m_destination_endpoint : Endpoint.t;
  (** The number of the handle, [None] for [nullptr]. *)
  m_tcp_stream : option nat;
  m_pending_write_requests : Z;
  m_read_buf : option nat;
  m_read_buf_size : Z;
  m_data_offset : Z;
  m_is_open : bool;
  m_delay_send : bool;
  m_close_callback : bool;
  (** The write requests libuv has: the number of the send and whether it has a callback. *)
  requests : list (nat * bool);
  next_send : nat;
  (** The sends that were made with a callback. *)
  asked : list nat;
  next_handle : nat;
  (** The bytes given to [uv_write], in order. *)
  written : list Z;
  heap : gmap nat (list Z);
  next_buf : nat;
  kept : list (DataChunk * list Z);
  events : list Event
}.

#[global] Instance t_settable : Settable t :=
  settable! mk < m_destination_endpoint; m_tcp_stream; m_pending_write_requests; m_read_buf; m_read_buf_size;
                 m_data_offset; m_is_open; m_delay_send; m_close_callback; requests; next_send; asked; next_handle; written;
                 heap; next_buf; kept; events >.

Definition create : t :=
  mk Endpoint.empty None 0 None 0 0 false true false [] 0 [] 0 [] ∅ 0 [] [].

Definition emit (s : t) (e : Event) : t := s <| events ::= fun l => l ++ [e] |>.

Definition is_open (s : t) : bool := m_is_open s.
Definition pending_write_requests (s : t) : Z := m_pending_write_requests s.
Definition endpoint (s : t) : Endpoint.t := m_destination_endpoint s.
Definition is_delay_send (s : t) : bool := m_delay_send s.

Section Base.
Context {uv : UvErrno}.

(** [init_stream]; the handle stays allocated when [uv_tcp_init] refuses it. *)
Definition init_stream (s : t) (init_status : Z) : outcome (t * Error) :=
  check (bool_decide (m_tcp_stream s = None)) else AssertFailed in
  let s := s <| m_tcp_stream := Some (next_handle s) |> <| next_handle ::= S |> in
  let init_error := Error_of_uv init_status in
  if error_bool init_error then Ret (s, init_error) else Ret (s, Error_of_uv 0).

Lemma init_stream_ok s init_status : m_tcp_stream s = None -> 0 <= init_status ->
  init_stream s init_status = Ret (s <| m_tcp_stream := Some (next_handle s) |> <| next_handle ::= S |>, Error_of_uv 0).
Proof.
  intros Hm Hs. unfold init_stream. rewrite bool_decide_true by done. cbn zeta. rewrite error_bool_of_uv.
  by rewrite (proj2 (Z.ltb_ge _ _)).
Qed.

Definition delay_send (s : t) (enabled : bool) : outcome t :=
  match m_tcp_stream s with
  | None => Fault NullDeref
  | Some _ => Ret (s <| m_delay_send := enabled |>)
  end.

(** [get_socket_error]; [value] is the option [SO_ERROR] already translated by libuv. *)
Definition get_socket_error (s : t) (getter_status value : Z) : outcome Error :=
  match m_tcp_stream s with
  | None => Fault NullDeref
  | Some _ =>
      let getter_error := Error_of_uv getter_status in
      if error_bool getter_error then Ret getter_error else Ret (Error_of_uv value)
  end.

(** ** Writing

    A callback of a send is called last in each branch, so what it does comes after. *)

Definition answer (s : t) (send : nat) (callback : bool) (error : Error) : t :=
  if callback then emit s (Sent send error) else s.

(** [raw_buffer_get(buffer)] is [None] for a null pointer, and otherwise the memory it points to. *)
Definition send_data_impl (s : t) (buffer : option (list Z)) (size : Z) (callback : bool) (uv_status : Z) : outcome t :=
  let send := next_send s in
  let s := s <| next_send ::= S |> <| asked ::= fun l => if callback then send :: l else l |> in
  if negb (is_open s) then Ret (answer s send callback (Error_of_status NOT_CONNECTED))
  else
    match buffer with
    | Some data =>
        if size =? 0 then Ret (answer s send callback (Error_of_status INVALID_ARGUMENT))
        else
          match m_tcp_stream s with
          | None => Fault NullDeref
          | Some _ =>
              check (size <=? Z.of_nat (length data)) else OutOfBounds in
              let write_error := Error_of_uv uv_status in
              if error_bool write_error then Ret (answer s send callback write_error)
              else Ret (s <| requests ::= fun l => l ++ [(send, callback)] |>
                          <| written ::= fun w => w ++ take (Z.to_nat size) data |>
                          <| m_pending_write_requests ::= fun n => wrap 64 (n + 1) |>)
          end
    | None => Ret (answer s send callback (Error_of_status INVALID_ARGUMENT))
    end.

(** The overloads of [send_data]: a raw, shared or unique pointer with a size, and a string whose
    length is cast to 32 bits. *)
Definition send_data (s : t) (buffer : option (list Z)) (size : Z) (callback : bool) (uv_status : Z) : outcome t :=
  send_data_impl s buffer size callback uv_status.

Definition send_data_string (s : t) (message : list Z) (callback : bool) (uv_status : Z) : outcome t :=
  send_data_impl s (Some message) (wrap 32 (Z.of_nat (length message))) callback uv_status.

Definition copy_and_send_data (s : t) (c_str : option (list Z)) (size : Z) (callback : bool) (uv_status : Z) : outcome t :=
  match c_str with
  | None => if size =? 0 then send_data s (Some []) size callback uv_status else Fault NullDeref
  | Some data =>
      check (size <=? Z.of_nat (length data)) else OutOfBounds in
      send_data s (Some (take (Z.to_nat size) data)) size callback uv_status
  end.

(** [after_write] of the request at position [i] among those libuv has. *)
Definition after_write (s : t) (i : nat) (uv_status : Z) : outcome t :=
  match (requests s !! i : option (nat * bool)) with
  | None => Fault UseAfterFree
  | Some (send, callback) =>
      check (1 <=? m_pending_write_requests s) else AssertFailed in
      let s := s <| m_pending_write_requests ::= fun n => n - 1 |> <| requests ::= delete i |> in
      Ret (answer s send callback (Error_of_uv uv_status))
  end.

(** ** Reading *)

Definition alloc_read_buffer (s : t) (suggested_size : Z) : t * (nat * Z) :=
  match m_read_buf s with
  | None =>
      let b := next_buf s in
      (s <| heap ::= insert b (replicate (Z.to_nat suggested_size) 0) |> <| next_buf ::= S |>
         <| m_read_buf := Some b |> <| m_read_buf_size := suggested_size |>, (b, suggested_size))
  | Some b => (s, (b, m_read_buf_size s))
  end.

(** [m_read_buf.use_count()]. *)
Definition use_count (s : t) : nat :=
  match m_read_buf s with
  | None => 0
  | Some b => S (length (List.filter (fun '(c, _) => bool_decide (buf c = Some b)) (kept s)))
  end.

(** The error passed to the close callback. *)
Definition close_reason (error : Error) : Error :=
  if bool_decide (code error = END_OF_FILE) then Error_of_uv 0 else error.

(** [on_read_error]; the callback is called last. *)
Definition on_read_error (s : t) (error : Error) : t :=
  if m_close_callback s then emit s (Closed (close_reason error)) else s.

(** libuv on Linux reports the end of the stream for a reset that follows some data; the error both
    [on_read] handlers go on with. *)
Definition read_error (s : t) (error : Error) (getter_status value : Z) : outcome Error :=
  if bool_decide (code error = END_OF_FILE) then
    let* socket_error := get_socket_error s getter_status value in
    Ret (if bool_decide (code socket_error = CONNECTION_RESET_BY_PEER) then socket_error else error)
  else Ret error.

End Base.

(** ** The derived classes *)

Class Derived (I : Type) := {
  base : I -> t;
  set_base : I -> t -> I;
  base_set_base : forall i b, base (set_base i b) = b
}.

#[global] Instance base_derived : Derived t := { base s := s; set_base _ b := b; base_set_base _ _ := eq_refl }.

Section Read.
Context {I : Type} {derived : Derived I}.

(** The branch of [on_read] for data, common to [TcpClient] and [TcpConnectedClient]: libuv has stored
    [nread] bytes in the buffer of [alloc_read_buffer]; [user] is the receive callback, and what it
    does to the client. *)
Definition on_read_data (i : I) (nread : Z) (receive_callback : bool)
    (user : I -> DataChunk -> list Z -> outcome I) : outcome I :=
  let* i :=
    if negb (nread =? 0) && receive_callback then
      let s := base i in
      let prev_use_count := use_count s in
      let chunk := mkChunk (m_read_buf s) nread (m_data_offset s) in
      match m_read_buf s ≫= (heap s !!.) with
      | None => Fault NullDeref
      | Some memory =>
          let data := take (Z.to_nat nread) memory in
          let* i := user (set_base i (emit s (Received chunk data))) chunk data in
          Ret (if bool_decide (prev_use_count = use_count (base i)) then i
               else set_base i ((base i) <| m_read_buf := None |>))
      end
    else Ret i in
  Ret (set_base i ((base i) <| m_data_offset ::= fun n => wrap 64 (n + nread) |>)).

(** One read by libuv: it asks for a buffer, stores the bytes there and calls [on_read]. *)
Definition uv_read (i : I) (suggested_size : Z) (data : list Z) (receive_callback : bool)
    (user : I -> DataChunk -> list Z -> outcome I) : outcome I :=
  let '(s, (b, len)) := alloc_read_buffer (base i) suggested_size in
  check (Z.of_nat (length data) <=? len) else OutOfBounds in
  let s := s <| heap ::= alter (fun memory => data ++ drop (length data) memory) b |> in
  on_read_data (set_base i s) (Z.of_nat (length data)) receive_callback user.

End Read.

(** ** Every send is answered once *)

Definition sent_of (e : Event) : option nat := match e with Sent n _ => Some n | _ => None end.
Definition called (s : t) : list nat := omap sent_of (events s).

(** The calls of the close callback. *)
Definition closed_of (e : Event) : option Error := match e with Closed error => Some error | _ => None end.
Definition closings (s : t) : list Error := omap closed_of (events s).

(** What the theorems on writing depend on. *)
Definition write_view (s : t) : Z * list (nat * bool) * list nat * nat * list nat :=
  (m_pending_write_requests s, requests s, asked s, next_send s, called s).

(** The counter counts the requests libuv has; a send made with a callback has been answered or is held
    by a request, exactly one of the two. *)
Definition writes_ok (s : t) : Prop :=
  m_pending_write_requests s = wrap 64 (Z.of_nat (length (requests s))) /\
  (length (requests s) <= next_send s)%nat /\
  called s ++ under_way (requests s) ≡ₚ asked s /\ NoDup (asked s) /\ (forall n, n ∈ asked s -> (n < next_send s)%nat).

Lemma writes_ok_frame s s' : write_view s' = write_view s -> writes_ok s -> writes_ok s'.
Proof. unfold write_view, writes_ok. by intros [= -> -> -> -> ->]. Qed.

Lemma create_writes_ok : writes_ok create.
Proof. split_and!; cbn; [done|lia|done|by apply NoDup_nil|]. intros n Hn. by apply not_elem_of_nil in Hn. Qed.

Lemma stream_called_emit s e : called (emit s e) = called s ++ omap sent_of [e].
Proof. unfold called. cbn. by rewrite omap_app. Qed.

Lemma closings_emit s e : closings (emit s e) = closings s ++ omap closed_of [e].
Proof. unfold closings. cbn. by rewrite omap_app. Qed.

Lemma wrap_succ n : wrap 64 (wrap 64 n + 1) = wrap 64 (n + 1).
Proof. unfold wrap. by rewrite Zplus_mod_idemp_l. Qed.

(** The send is numbered; what it adds to the accounts is its own number, if it has a callback. *)
Lemma send_accounts s (callback : bool) r p c :
  writes_ok s -> c ++ under_way r ≡ₚ (if callback then [next_send s] else []) ++ called s ++ under_way (requests s) ->
  (length r <= S (length (requests s)))%nat -> p = wrap 64 (Z.of_nat (length r)) ->
  forall s', write_view s' = (p, r, (if callback then next_send s :: asked s else asked s), S (next_send s), c) -> writes_ok s'.
Proof.
  intros (Hp & Hl & Hc & Hn & Hlt) Ha Hr -> s' [= E1 E2 E3 E4 E5]. unfold writes_ok. rewrite E1, E2, E3, E4, E5.
  split_and!; [done|lia| | |].
  - rewrite Ha. destruct callback; cbn; by rewrite Hc.
  - destruct callback; [|done]. apply NoDup_cons. split; [|done]. intros Hin%Hlt. lia.
  - intros n. destruct callback; [intros [->|Hin]%elem_of_cons|intros Hin]; [lia| |]; apply Hlt in Hin; lia.
Qed.

Section Proofs.
Context {uv : UvErrno}.

Lemma answer_accounts s (callback : bool) e :
  called (answer s (next_send s) callback e) ++ under_way (requests s) ≡ₚ
    (if callback then [next_send s] else []) ++ called s ++ under_way (requests s).
Proof.
  unfold answer. destruct callback; [|done]. rewrite stream_called_emit. cbn.
  rewrite <- app_assoc. cbn. by rewrite <- Permutation_middle.
Qed.

(** The stream can be written to: it is open only with a handle, and the buffer has [size] bytes. *)
Definition valid_buffer (buffer : option (list Z)) (size : Z) : Prop :=
  match buffer with Some data => size <= Z.of_nat (length data) | None => True end.
Definition can_send (s : t) (buffer : option (list Z)) (size : Z) : Prop :=
  (m_is_open s = true -> m_tcp_stream s <> None) /\ valid_buffer buffer size.

(** What a send does not touch. *)
Definition same_stream (s s' : t) : Prop :=
  m_destination_endpoint s' = m_destination_endpoint s /\ m_tcp_stream s' = m_tcp_stream s /\
  m_read_buf s' = m_read_buf s /\ m_read_buf_size s' = m_read_buf_size s /\ m_data_offset s' = m_data_offset s /\
  m_is_open s' = m_is_open s /\ m_close_callback s' = m_close_callback s /\ next_handle s' = next_handle s /\
  heap s' = heap s /\ next_buf s' = next_buf s /\ kept s' = kept s /\ closings s' = closings s.

Lemma answer_same_stream s s' n cb e : same_stream s s' -> same_stream s (answer s' n cb e).
Proof.
  unfold same_stream, answer. intros H. destruct cb; [|done]. rewrite closings_emit. cbn. by rewrite app_nil_r.
Qed.

Lemma send_data_impl_ok s buffer size callback uv_status :
  writes_ok s -> can_send s buffer size ->
  returns (send_data_impl s buffer size callback uv_status) (fun s' =>
    writes_ok s' /\ same_stream s s' /\ (length (requests s') <= S (length (requests s)))%nat /\
    next_send s' = S (next_send s)).
Proof.
  intros Hw [Ho Hb]. unfold send_data_impl. cbn zeta.
  set (s1 := s <| next_send ::= S |> <| asked ::= _ |>).
  assert (forall e, writes_ok (answer s1 (next_send s) callback e) /\ same_stream s (answer s1 (next_send s) callback e) /\
    (length (requests (answer s1 (next_send s) callback e)) <= S (length (requests s)))%nat /\
    next_send (answer s1 (next_send s) callback e) = S (next_send s)) as Herr.
  { intros e. split_and!; [|by apply answer_same_stream|destruct callback; cbn; lia|by destruct callback].
    apply (send_accounts s callback (requests s) (m_pending_write_requests s)
             (called (answer s (next_send s) callback e))); [done|apply answer_accounts|lia|apply Hw|]; by destruct callback. }
  change (is_open s1) with (m_is_open s). change (m_tcp_stream s1) with (m_tcp_stream s).
  destruct (m_is_open s) eqn:Eo; cbn [negb]; [|apply Herr]. destruct buffer as [data|]; [|apply Herr].
  destruct (Z.eqb_spec size 0); [apply Herr|]. specialize (Ho eq_refl). destruct (m_tcp_stream s) as [h|] eqn:Eh; [|done].
  rewrite (proj2 (Z.leb_le _ _)) by done. destruct (error_bool (Error_of_uv uv_status)); [apply Herr|].
  cbn [returns]. split_and!; [|by unfold same_stream; rewrite Eh, Eo|cbn; rewrite length_app; cbn; lia|done].
  apply (send_accounts s callback (requests s ++ [(next_send s, callback)])
    (wrap 64 (m_pending_write_requests s + 1)) (called s)); [done| | | |done].
  - rewrite under_way_app, app_assoc, Permutation_app_comm. by destruct callback.
  - rewrite length_app. cbn. lia.
  - destruct Hw as (-> & _). rewrite wrap_succ, length_app. cbn. f_equal. lia.
Qed.

Lemma after_write_ok s i uv_status :
  writes_ok s -> Z.of_nat (next_send s) < 2 ^ 64 -> (i < length (requests s))%nat ->
  returns (after_write s i uv_status) (fun s' =>
    writes_ok s' /\ same_stream s s' /\ requests s' = delete i (requests s) /\ next_send s' = next_send s).
Proof.
  intros (Hp & Hl & Hc & Hn & Hlt) Hb Hi. unfold after_write.
  destruct (lookup_lt_is_Some_2 _ _ Hi) as [[n cb] Hni]. rewrite Hni.
  assert (wrap 64 (Z.of_nat (length (requests s))) = Z.of_nat (length (requests s))) as Hw by (unfold wrap; rewrite Z.mod_small; lia).
  rewrite Hw in Hp. rewrite (proj2 (Z.leb_le _ _)) by lia. cbn [returns].
  assert (S (length (delete i (requests s))) = length (requests s)) as Hlen by (rewrite length_delete by (by eexists); lia).
  set (s1 := s <| m_pending_write_requests ::= _ |> <| requests ::= _ |>).
  assert (called (answer s1 n cb (Error_of_uv uv_status)) = called s ++ (if cb then [n] else [])) as Hcalled.
  { unfold answer. destruct cb; [by rewrite stream_called_emit|by rewrite app_nil_r]. }
  split_and!; [unfold writes_ok; split_and!|by apply answer_same_stream|by destruct cb|by destruct cb].
  - destruct cb; cbn; unfold wrap; rewrite Z.mod_small; lia.
  - destruct cb; cbn; lia.
  - rewrite Hcalled. replace (requests (answer s1 n cb (Error_of_uv uv_status))) with (delete i (requests s)) by by destruct cb.
    replace (asked (answer s1 n cb (Error_of_uv uv_status))) with (asked s) by by destruct cb.
    rewrite <- Hc, (under_way_delete _ _ _ _ Hni). by rewrite <- app_assoc.
  - by destruct cb.
  - by destruct cb.
Qed.

End Proofs.

(** ** What the user keeps is not overwritten *)

Definition chunk_data (s : t) (b : nat) (data : list Z) : Prop :=
  exists memory, heap s !! b = Some memory /\ take (length data) memory = data.

(** The read buffer is the stream's alone; every chunk the user has kept still holds its data. *)
Definition reads_ok (s : t) : Prop :=
  (forall b, m_read_buf s = Some b ->
     (b < next_buf s)%nat /\ (exists memory, heap s !! b = Some memory /\ Z.of_nat (length memory) = m_read_buf_size s) /\
     (forall c data, (c, data) ∈ kept s -> buf c <> Some b)) /\
  (forall c data, (c, data) ∈ kept s -> exists b, buf c = Some b /\ (b < next_buf s)%nat /\ chunk_data s b data).

Definition read_view (s : t) := (m_read_buf s, m_read_buf_size s, heap s, next_buf s, kept s).

Lemma reads_ok_frame s s' : read_view s' = read_view s -> reads_ok s -> reads_ok s'.
Proof. unfold read_view, reads_ok, chunk_data. by intros [= -> -> -> -> ->]. Qed.

Lemma create_reads_ok : reads_ok create.
Proof. split; cbn; [done|]. intros c data Hin. by apply not_elem_of_nil in Hin. Qed.

(** What a receive callback may do with the memory: keep copies of the chunk it was given, and let
    chunks go. *)
Definition retains (s s' : t) (chunk : DataChunk) (data : list Z) : Prop :=
  m_read_buf s' = m_read_buf s /\ m_read_buf_size s' = m_read_buf_size s /\ heap s' = heap s /\ next_buf s' = next_buf s /\
  (forall c d, (c, d) ∈ kept s' -> (c, d) ∈ kept s \/ (c = chunk /\ d = data)).

Lemma alloc_read_buffer_ok s suggested_size : reads_ok s -> 0 <= suggested_size ->
  let '(s', (b, len)) := alloc_read_buffer s suggested_size in
  reads_ok s' /\ m_read_buf s' = Some b /\ len = m_read_buf_size s' /\ kept s' = kept s /\ events s' = events s /\
  m_data_offset s' = m_data_offset s /\ write_view s' = write_view s.
Proof.
  intros Hr Hs. pose proof Hr as [Hb Hk]. unfold alloc_read_buffer. destruct (m_read_buf s) as [b|] eqn:Eb; [by split_and!|].
  split_and!; try done. split; cbn.
  - intros b [= <-]. split_and!; [lia|eexists; rewrite lookup_insert_eq; split; [done|rewrite length_replicate; lia]|].
    intros c data Hin. destruct (Hk c data Hin) as (b & -> & Hlt & _). intros [= ->]. lia.
  - intros c data Hin. destruct (Hk c data Hin) as (b & Hbuf & Hlt & memory & Hm & Hd). exists b. split_and!; [done|lia|].
    exists memory. split; [|done]. cbn. rewrite lookup_insert_ne; [done|lia].
Qed.

(** libuv writes into the read buffer only. *)
Lemma store_ok s b data : reads_ok s -> m_read_buf s = Some b -> Z.of_nat (length data) <= m_read_buf_size s ->
  reads_ok (s <| heap ::= alter (fun memory => data ++ drop (length data) memory) b |>).
Proof.
  intros [Hb Hk] Eb Hl. destruct (Hb b Eb) as (Hlt & (memory & Hm & Hsz) & Hexcl). split; cbn.
  - intros b' Eb'. rewrite Eb in Eb'. injection Eb' as <-. split_and!; [done| |done].
    exists (data ++ drop (length data) memory). rewrite lookup_alter_eq, Hm. split; [done|].
    rewrite length_app, length_drop. lia.
  - intros c d Hin. destruct (Hk c d Hin) as (b' & Hbuf & Hlt' & memory' & Hm' & Hd). exists b'. split_and!; [done|done|].
    exists memory'. split; [|done]. cbn. rewrite lookup_alter_ne; [done|]. intros <-. by apply (Hexcl c d Hin).
Qed.

Lemma use_count_exclusive s b : reads_ok s -> m_read_buf s = Some b -> use_count s = 1%nat.
Proof.
  intros [Hb _] Eb. unfold use_count. rewrite Eb. destruct (Hb b Eb) as (_ & _ & Hexcl). clear Hb.
  enough (List.filter (fun '(c, _) => bool_decide (buf c = Some b)) (kept s) = []) as -> by done.
  induction (kept s) as [|[c d] l IH]; [done|]. cbn. rewrite bool_decide_false by (apply (Hexcl c d); by left).
  apply IH. intros c' d' Hin. apply (Hexcl c' d'). by right.
Qed.

Lemma use_count_one s b : m_read_buf s = Some b -> use_count s = 1%nat -> forall c d, (c, d) ∈ kept s -> buf c <> Some b.
Proof.
  unfold use_count. intros -> [= Hn]. apply length_zero_iff_nil in Hn. induction (kept s) as [|[c' d'] l IH]; intros c d Hin.
  - by apply not_elem_of_nil in Hin.
  - cbn in Hn. case_bool_decide; [done|]. apply elem_of_cons in Hin as [[= -> ->]|Hin]; [done|]. by apply (IH Hn c d).
Qed.

(** A callback that keeps the chunk makes the stream give the buffer up. *)
Lemma retain_ok s s' b nread memory off :
  reads_ok s -> m_read_buf s = Some b -> heap s !! b = Some memory -> (nread <= length memory)%nat ->
  retains s s' (mkChunk (Some b) (Z.of_nat nread) off) (take nread memory) ->
  reads_ok (if bool_decide (use_count s = use_count s') then s' else s' <| m_read_buf := None |>).
Proof.
  intros Hr Eb Hm Hl (E1 & E2 & E3 & E4 & E5). rewrite (use_count_exclusive s b) by done. destruct Hr as [Hb Hk].
  assert (forall c d, (c, d) ∈ kept s' -> exists b, buf c = Some b /\ (b < next_buf s')%nat /\ chunk_data s' b d) as Hk'.
  { intros c d [Hin|[-> ->]]%E5; unfold chunk_data; rewrite E3, E4.
    - by apply Hk.
    - exists b. split_and!; [done|by apply Hb|]. exists memory. rewrite length_take, Nat.min_l by done. done. }
  case_bool_decide as Hu; (split; [|done]); cbn; [|done].
  intros b' Eb'. rewrite E1, Eb in Eb'. injection Eb' as <-. rewrite E2, E3, E4. destruct (Hb b Eb) as (Hlt & Hsz & _).
  split_and!; [done|done|]. intros c d Hin. apply (use_count_one s' b) with (d := d); [by rewrite E1|done|done].
Qed.

(** The state but for the read buffer. *)
Definition core (s : t) : t := s <| m_read_buf := None |> <| m_read_buf_size := 0 |> <| heap := ∅ |> <| next_buf := 0%nat |>.

Lemma core_alloc s suggested_size : core (fst (alloc_read_buffer s suggested_size)) = core s.
Proof. unfold alloc_read_buffer. by destruct (m_read_buf s). Qed.

Section Read.
Context {I : Type} {derived : Derived I}.

(** [m_data_offset += nread], and the buffer given up when its use count has changed. *)
Definition bump (nread : Z) (i : I) : I := set_base i ((base i) <| m_data_offset ::= fun n => wrap 64 (n + nread) |>).
Definition drop_shared (prev_use_count : nat) (i : I) : I :=
  if bool_decide (prev_use_count = use_count (base i)) then i else set_base i ((base i) <| m_read_buf := None |>).

(** One read, taken apart: libuv's bytes are in a buffer of the stream's own when the callback is called. *)
Lemma uv_read_split i suggested_size data receive_callback user :
  reads_ok (base i) -> 0 <= suggested_size ->
  Z.of_nat (length data) <= snd (snd (alloc_read_buffer (base i) suggested_size)) ->
  exists s b, reads_ok s /\ core s = core (base i) /\ m_read_buf s = Some b /\ chunk_data s b data /\
    m_read_buf_size s = snd (snd (alloc_read_buffer (base i) suggested_size)) /\
    let chunk := mkChunk (Some b) (Z.of_nat (length data)) (m_data_offset (base i)) in
    uv_read i suggested_size data receive_callback user =
      if negb (bool_decide (data = [])) && receive_callback then
        let* i' := user (set_base (set_base i s) (emit s (Received chunk data))) chunk data in
        Ret (bump (Z.of_nat (length data)) (drop_shared 1 i'))
      else Ret (bump (Z.of_nat (length data)) (set_base i s)).
Proof.
  intros Hr Hs Hl. unfold uv_read. pose proof (alloc_read_buffer_ok (base i) suggested_size Hr Hs) as Ha.
  pose proof (core_alloc (base i) suggested_size) as Hcore.
  destruct (alloc_read_buffer (base i) suggested_size) as [s [b len]]. cbn [fst snd] in *.
  destruct Ha as (Hr1 & Eb & -> & Ek & Ee & Eo & Ew). rewrite (proj2 (Z.leb_le _ _)) by done.
  pose proof (store_ok s b data Hr1 Eb Hl) as Hr2. set (s2 := s <| heap ::= _ |>) in *.
  destruct (proj1 Hr1 b Eb) as (_ & (memory & Hm & Hsz) & _).
  assert (heap s2 !! b = Some (data ++ drop (length data) memory)) as Hm2 by (cbn; by rewrite lookup_alter_eq, Hm).
  exists s2, b. split_and!; [done|by rewrite <- Hcore|done| |done|].
  { eexists. split; [exact Hm2|]. by rewrite take_app_length. }
  cbn zeta. unfold on_read_data. rewrite !base_set_base.
  replace (Z.of_nat (length data) =? 0) with (bool_decide (data = [])) by (by destruct data).
  destruct (negb (bool_decide (data = [])) && receive_callback); cbn [obind]; [|by unfold bump; rewrite base_set_base].
  change (m_read_buf s2) with (m_read_buf s). rewrite Eb. cbn [mbind option_bind].
  rewrite Hm2, Nat2Z.id, take_app_length. rewrite (use_count_exclusive s2 b Hr2 Eb).
  change (m_data_offset s2) with (m_data_offset s). rewrite Eo. rewrite obind_assoc. reflexivity.
Qed.

Lemma bump_reads_ok n i : reads_ok (base i) -> reads_ok (base (bump n i)).
Proof. unfold bump. rewrite base_set_base. by apply reads_ok_frame. Qed.

(** What remains after the callback, if it only keeps or lets go of chunks. *)
Lemma drop_shared_reads_ok i s b data off :
  reads_ok s -> m_read_buf s = Some b -> chunk_data s b data ->
  retains s (base i) (mkChunk (Some b) (Z.of_nat (length data)) off) data -> reads_ok (base (drop_shared 1 i)).
Proof.
  intros Hr Eb (memory & Hm & Hd) Hret. unfold drop_shared. pose proof (use_count_exclusive s b Hr Eb) as Hu.
  assert (length data <= length memory)%nat as Hl by (rewrite <- Hd at 1; rewrite length_take; lia).
  assert (reads_ok (if bool_decide (use_count s = use_count (base i)) then base i else (base i) <| m_read_buf := None |>)) as Hf.
  { apply (retain_ok s _ b (length data) memory off); [done|done|done|done|]. by rewrite Hd. }
  rewrite Hu in Hf. case_bool_decide; [done|by rewrite base_set_base].
Qed.

End Read.

(** ** Runs of reads *)

(** What libuv reads, how many copies of the chunk the receive callback keeps, and which of the chunks
    kept so far it lets go. *)
Record Arrival := mkArrival { data : list Z; copies : nat; lets_go : DataChunk -> bool }.

Definition receive (a : Arrival) (s : t) (chunk : DataChunk) (data : list Z) : outcome t :=
  Ret (s <| kept ::= fun l => List.filter (fun '(c, _) => negb (lets_go a c)) l ++ replicate (copies a) (chunk, data) |>).

Fixpoint reads (suggested_size : Z) (s : t) (arrivals : list Arrival) : outcome t :=
  match arrivals with
  | [] => Ret s
  | a :: arrivals =>
      let* s := uv_read s suggested_size (data a) true (receive a) in
      reads suggested_size s arrivals
  end.

(** The offset and the bytes of the chunks delivered. *)
Definition delivered (s : t) : list (Z * list Z) :=
  omap (fun e => match e with Received c d => Some (offset c, d) | _ => None end) (events s).

(** The non-empty arrivals, each at the number of bytes before it. *)
Fixpoint positions (n : nat) (arrivals : list Arrival) : list (Z * list Z) :=
  match arrivals with
  | [] => []
  | a :: arrivals =>
      (if bool_decide (data a = []) then [] else [(wrap 64 (Z.of_nat n), data a)]) ++ positions (n + length (data a)) arrivals
  end.

Lemma receive_retains a s chunk d : returns (receive a s chunk d) (fun s' => retains s s' chunk d).
Proof.
  cbn. split_and!; [done..|]. cbn. intros c d' [Hin|Hin]%elem_of_app.
  - left. apply list_elem_of_In in Hin. apply filter_In in Hin as [Hin _]. by apply list_elem_of_In.
  - apply elem_of_replicate in Hin as [[= -> ->] _]. by right.
Qed.

(** The read buffer has the size libuv suggests. *)
Definition sized (suggested_size : Z) (s : t) : Prop := m_read_buf s <> None -> m_read_buf_size s = suggested_size.

Lemma sized_alloc s suggested_size : sized suggested_size s -> snd (snd (alloc_read_buffer s suggested_size)) = suggested_size.
Proof. unfold sized, alloc_read_buffer. destruct (m_read_buf s); cbn; [|done]. intros H. by apply H. Qed.

Lemma delivered_app s l : delivered (s <| events ::= fun k => k ++ l |>) =
  delivered s ++ omap (fun e => match e with Received c d => Some (offset c, d) | _ => None end) l.
Proof. unfold delivered. cbn. by rewrite omap_app. Qed.

Lemma read_once suggested_size s a n :
  reads_ok s -> 0 <= suggested_size -> sized suggested_size s -> Z.of_nat (length (data a)) <= suggested_size ->
  m_data_offset s = wrap 64 (Z.of_nat n) ->
  returns (uv_read s suggested_size (data a) true (receive a)) (fun s' =>
    reads_ok s' /\ sized suggested_size s' /\ m_data_offset s' = wrap 64 (Z.of_nat (n + length (data a))) /\
    delivered s' = delivered s ++ (if bool_decide (data a = []) then [] else [(wrap 64 (Z.of_nat n), data a)])).
Proof.
  intros Hr Hs Hz Hl Ho. pose proof (sized_alloc s suggested_size Hz) as Ha.
  destruct (uv_read_split (derived := base_derived) s suggested_size (data a) true (receive a) Hr Hs ltac:(cbn [base base_derived]; by rewrite Ha))
    as (s1 & b & Hr1 & Hcore & Eb & Hd & Esz & ->). cbn [base base_derived] in Hcore, Esz. rewrite Ha in Esz.
  assert (m_data_offset s1 = wrap 64 (Z.of_nat n)) as Ho1 by (rewrite <- Ho; exact (f_equal m_data_offset Hcore)).
  assert (delivered s1 = delivered s) as Hd1 by exact (f_equal delivered Hcore).
  assert (wrap 64 (wrap 64 (Z.of_nat n) + Z.of_nat (length (data a))) = wrap 64 (Z.of_nat (n + length (data a)))) as Hadd.
  { unfold wrap. by rewrite Zplus_mod_idemp_l, Nat2Z.inj_add. }
  assert (sized suggested_size s1) as Hz1 by (intros _; exact Esz). cbn [set_base base base_derived].
  case_bool_decide as Ed; cbn [negb andb].
  - cbn [returns]. split_and!; [by apply (bump_reads_ok (derived := base_derived))|exact Hz1|cbn; by rewrite Ho1|]. by rewrite app_nil_r.
  - set (chunk := mkChunk _ _ _). pose proof (receive_retains a (emit s1 (Received chunk (data a))) chunk (data a)) as Hret.
    unfold receive in *. cbn [obind returns] in *. set (s2 := set_field kept _ _) in *.
    assert (reads_ok (drop_shared (derived := base_derived) 1 s2)) as Hr2.
    { apply (drop_shared_reads_ok (derived := base_derived) s2 (emit s1 (Received chunk (data a))) b (data a) (m_data_offset s)); [by apply (reads_ok_frame s1)|done|done|exact Hret]. }
    split_and!; [by apply (bump_reads_ok (derived := base_derived))| | |].
    + unfold drop_shared, bump, sized. case_bool_decide; cbn; [intros _; exact Esz|done].
    + unfold drop_shared, bump. case_bool_decide; cbn; by rewrite Ho1.
    + transitivity (delivered (emit s1 (Received chunk (data a)))); [unfold drop_shared, bump; by case_bool_decide|].
      unfold emit. rewrite delivered_app, Hd1. cbn. by rewrite Ho.
Qed.

Lemma reads_from suggested_size arrivals s n :
  reads_ok s -> 0 <= suggested_size -> sized suggested_size s ->
  Forall (fun a => Z.of_nat (length (data a)) <= suggested_size) arrivals -> m_data_offset s = wrap 64 (Z.of_nat n) ->
  returns (reads suggested_size s arrivals) (fun s' =>
    reads_ok s' /\ delivered s' = delivered s ++ positions n arrivals).
Proof.
  revert s n. induction arrivals as [|a arrivals IH]; intros s n Hr Hs Hz Hl Ho; cbn.
  - by rewrite app_nil_r.
  - apply Forall_cons in Hl as [Hl Hls]. eapply returns_bind; [by apply (read_once suggested_size s a n)|].
    intros s1 (Hr1 & Hz1 & Ho1 & Hd1). eapply returns_mono; [by apply (IH s1 (n + length (data a))%nat)|].
    intros s2 [Hr2 Hd2]. split; [done|]. by rewrite Hd2, Hd1, <- app_assoc.
Qed.

(** C23. Received data is delivered in order and stays intact: however libuv cuts the stream into reads, and
    whatever chunks the receive callback keeps and lets go, the chunks delivered are the non-empty
    reads, each at its position in the stream (modulo the width of [size_t]), and the memory of every
    chunk the user still holds has the bytes it was delivered with: a later read never overwrites
    them. *)
Theorem received_data_intact suggested_size arrivals :
  0 <= suggested_size -> Forall (fun a => Z.of_nat (length (data a)) <= suggested_size) arrivals ->
  exists s, reads suggested_size create arrivals = Ret s /\
    delivered s = positions 0 arrivals /\
    (forall c d, (c, d) ∈ kept s -> exists b memory,
       buf c = Some b /\ heap s !! b = Some memory /\ take (length d) memory = d /\ m_read_buf s <> Some b).
Proof.
  intros Hs Hl. pose proof (reads_from suggested_size arrivals create 0 create_reads_ok Hs (fun H => match H eq_refl with end) Hl eq_refl) as Hreads.
  apply returns_inv in Hreads as (s & Hrun & [Hb Hk] & Hd). exists s. split_and!; [done|by rewrite Hd|].
  intros c d Hin. destruct (Hk c d Hin) as (b & Hbuf & _ & memory & Hm & Hdata). exists b, memory. repeat (split; [done|]).
  intros Eb. by apply (proj2 (proj2 (Hb b Eb)) c d).
Qed.

(** The second chunk is kept, so the third read goes to a new buffer. *)
Lemma received_data_intact_witness :
  exists s, reads 8 create [mkArrival [1; 2; 3] 0 (fun _ => false); mkArrival [4; 5] 1 (fun _ => false);
                            mkArrival [6] 0 (fun _ => false)] = Ret s /\
    delivered s = [(0, [1; 2; 3]); (3, [4; 5]); (5, [6])] /\ map snd (kept s) = [[4; 5]].
Proof.
  destruct (received_data_intact 8 [mkArrival [1; 2; 3] 0 (fun _ => false); mkArrival [4; 5] 1 (fun _ => false);
    mkArrival [6] 0 (fun _ => false)]) as (s & H & Hd & _); [lia|repeat constructor; cbn; lia|].
  exists s. split; [exact H|]. split; [exact Hd|]. vm_compute in H. injection H as <-. reflexivity.
Defined.

End TcpStream.
