(* ===== verification/TcpServer.v ===== *)
(** * TcpServer and TcpConnectedClient

    [source/io/net/TcpServer.cpp] and [source/io/net/TcpConnectedClient.cpp].

    The state is a server and the connections it has created.  A connection is numbered; its stream
    is a [TcpStream], and the state of its libuv handle says what libuv still owes it: a shutdown
    callback, a close callback.  Callbacks scheduled on the loop are listed in the order they will
    run.  A user callback is an argument of the handler that calls it: a function from the state at
    the call to the state when it returns, so that it can call back into the server and its
    connections; [Calls] below says what such a function may do.  [events] records the calls.
    Statuses returned by libuv are arguments. *)

From S2P Require Import Prelude StatusCode Inet Endpoint TcpStream.
Import TcpStream(DataChunk, Derived, base, set_base, base_set_base).
Local Open Scope outcome_scope.
Local Open Scope record_scope.

Module TcpServer.

(** The handle of a connection: allocated, initialised, given to [uv_close], closed. *)
Inductive Handle := Fresh | Live | Closing | Gone.

#[global] Instance handle_eq_dec : EqDecision Handle.
Proof. solve_decision. Defined.

(** [TcpConnectedClient]. *)
Record Client := mkClient {
  stream : TcpStream.t;
  m_receive_callback : bool;
  handle : Handle;
  (** libuv has a shutdown request; libuv reads. *)
  shutdown_req : bool;
  reading : bool;
  (** [uv_accept] and [uv_tcp_getpeername] succeeded. *)
  accepted : bool;
  (** [uv_shutdown] or [uv_tcp_close_reset] was refused; [uv_read_start] was refused. *)
  refused : bool;
  read_failed : bool;
  (** Calls of [Removable::schedule_removal]. *)
  removals : nat
}.

#[global] Instance client_settable : Settable Client :=
  settable! mkClient < stream; m_receive_callback; handle; shutdown_req; reading; accepted; refused; read_failed; removals >.

(** The constructor; the close callback is the lambda of [on_new_connection]. *)
Definition new_client : Client :=
  mkClient (TcpStream.create <| TcpStream.m_close_callback := true |>) false Fresh false false false false false 0.

(** The server's handle: allocated but refused by [uv_tcp_init_ex], initialised, listening, given to
    [uv_close], closed with [on_close] waiting for the connections. *)
Inductive ServerHandle := Refused | Inited | Listening | ServerClosing | ServerClosed.

#[global] Instance server_handle_eq_dec : EqDecision ServerHandle.
Proof. solve_decision. Defined.

Inductive Event :=
| NewConnection (client : nat) (error : Error)
| ConnectionClosed (client : nat) (error : Error)
| DataReceived (client : nat) (data : list Z)
| End (callback : nat) (error : Error).

(** The lambdas the server and its connections give to [EventLoop::schedule_callback]. *)
Inductive Scheduled :=
| EndNotConnected
| EndCallback (callback : nat)
| OnCloseAgain
| ReadError (client : nat) (error : Error).

Record t := mk {
  m_server_handle : option ServerHandle;
  m_new_connection_callback : bool;
  m_data_receive_callback : bool;
  m_close_connection_callback : bool;
  m_end_server_callback : option nat;
  m_client_connections : gset nat;
  m_endpoint : Endpoint.t;
  m_is_open : bool;
  m_removal_scheduled : bool;
  server_removals : nat;
  clients : gmap nat Client;
  next_client : nat;
  scheduled : list Scheduled;
  events : list Event
}.

#[global] Instance t_settable : Settable t :=
  settable! mk < m_server_handle; m_new_connection_callback; m_data_receive_callback; m_close_connection_callback;
                 m_end_server_callback; m_client_connections; m_endpoint; m_is_open; m_removal_scheduled;
                 server_removals; clients; next_client; scheduled; events >.

Definition create : t := mk None false false false None ∅ Endpoint.empty false false 0 ∅ 0 [] [].

Definition emit (s : t) (e : Event) : t := s <| events ::= fun l => l ++ [e] |>.
Definition schedule_callback (s : t) (c : Scheduled) : t := s <| scheduled ::= fun l => l ++ [c] |>.

Definition client (s : t) (id : nat) : Client := default new_client (clients s !! id).
Definition set_client (s : t) (id : nat) (c : Client) : t := s <| clients ::= insert id c |>.
Definition on_client (s : t) (id : nat) (f : Client -> Client) : t := set_client s id (f (client s id)).
Definition on_stream (s : t) (id : nat) (f : TcpStream.t -> TcpStream.t) : t :=
  on_client s id (fun c => c <| stream ::= f |>).

Definition is_open (s : t) : bool := m_is_open s.
Definition connected_clients_count (s : t) : nat := size (m_client_connections s).
Definition remove_client_connection (s : t) (id : nat) : t := s <| m_client_connections ::= fun l => l ∖ {[id]} |>.

Lemma lookup_set_client s id c : clients (set_client s id c) !! id = Some c.
Proof. apply lookup_insert_eq. Qed.

(** A connection as the derived class of its [TcpClientImplBase]. *)
Lemma focus_base_set_base (i : t * nat) b :
  stream (client (on_stream i.1 i.2 (fun _ => b)) i.2) = b.
Proof. unfold on_stream, on_client, set_client, client. cbn. by rewrite lookup_insert_eq. Qed.

#[global] Instance focus_derived : Derived (t * nat) := {
  base i := stream (client i.1 i.2);
  set_base i b := (on_stream i.1 i.2 (fun _ => b), i.2);
  base_set_base := focus_base_set_base
}.

Section Server.
Context {host : Host} {uv : UvErrno}.

(** ** TcpConnectedClient *)

(** [uv_close] asserts that the handle is not closing yet. *)
Definition uv_close (c : Client) : outcome Client :=
  check (bool_decide (handle c = Live)) else AssertFailed in Ret (c <| handle := Closing |>).

Definition client_is_open (c : Client) : bool := TcpStream.is_open (stream c).

Definition not_open (c : Client) : Client := c <| stream ::= fun b => b <| TcpStream.m_is_open := false |> |>.

Definition set_endpoint (c : Client) (endpoint : Endpoint.t) : Client :=
  c <| stream ::= fun b => b <| TcpStream.m_destination_endpoint := endpoint |> <| TcpStream.m_is_open := true |> |>.

(** [TcpConnectedClient::shutdown]; the status of [uv_shutdown] is not looked at. *)
Definition client_shutdown (c : Client) (uv_status : Z) : Client :=
  if negb (client_is_open c) then c
  else
    let c := not_open c in
    if uv_status <? 0 then c <| refused := true |> else c <| shutdown_req := true |>.

Definition client_close (c : Client) : outcome Client :=
  if negb (client_is_open c) then Ret c else uv_close (not_open c).

(** The status of [uv_tcp_close_reset] is not looked at either. *)
Definition client_close_with_reset (c : Client) (uv_status : Z) : outcome Client :=
  if negb (client_is_open c) then Ret c
  else
    let c := not_open c in
    if uv_status <? 0 then Ret (c <| refused := true |>) else uv_close c.

Definition start_read (s : t) (id : nat) (data_receive_callback : bool) (read_status : Z) : t :=
  let s := on_client s id (fun c => c <| m_receive_callback := false |>) in
  let read_error := Error_of_uv read_status in
  if error_bool read_error
  then schedule_callback (on_client s id (fun c => c <| read_failed := true |>)) (ReadError id read_error)
  else on_client s id (fun c => c <| m_receive_callback := data_receive_callback |> <| reading := true |>).

(** The operations of a connection, on the server's state. *)
Definition shutdown_client (s : t) (id : nat) (uv_status : Z) : t := on_client s id (fun c => client_shutdown c uv_status).

Definition close_client (s : t) (id : nat) : outcome t :=
  let* c := client_close (client s id) in Ret (set_client s id c).

Definition close_with_reset (s : t) (id : nat) (uv_status : Z) : outcome t :=
  let* c := client_close_with_reset (client s id) uv_status in Ret (set_client s id c).

Definition send_data (s : t) (id : nat) (buffer : option (list Z)) (size : Z) (callback : bool) (uv_status : Z) : outcome t :=
  let* b := TcpStream.send_data (stream (client s id)) buffer size callback uv_status in
  Ret (on_stream s id (fun _ => b)).

Definition after_write (s : t) (id i : nat) (uv_status : Z) : outcome t :=
  let* b := TcpStream.after_write (stream (client s id)) i uv_status in
  Ret (on_stream s id (fun _ => b)).

(** [TcpConnectedClient::schedule_removal]. *)
Definition schedule_client_removal (s : t) (id : nat) : t := on_client s id (fun c => c <| removals ::= S |>).

(** The close callback of a connection: the lambda in [on_new_connection], which calls the server's
    callback if there is one; [user] is what that one does. *)
Definition on_client_close_callback (s : t) (id : nat) (error : Error) (user : t -> outcome t) : outcome t :=
  if m_close_connection_callback s then user (emit s (ConnectionClosed id error)) else Ret s.

Definition on_client_shutdown (s : t) (id : nat) : outcome t :=
  let* c := uv_close ((client s id) <| shutdown_req := false |>) in Ret (set_client s id c).

Definition on_client_close (s : t) (id : nat) (user : t -> outcome t) : outcome t :=
  let s := on_client s id (fun c => c <| handle := Gone |>) in
  let s := remove_client_connection s id in
  let* s :=
    if TcpStream.m_close_callback (stream (client s id)) then
      on_client_close_callback (on_stream s id (fun b => TcpStream.emit b (TcpStream.Closed (Error_of_uv 0)))) id (Error_of_uv 0) user
    else Ret s in
  let s := on_stream s id (fun b => b <| TcpStream.m_destination_endpoint ::= Endpoint.clear |>) in
  Ret (schedule_client_removal s id).

(** [TcpClientImplBase::on_read_error] of a connection, with its callback. *)
Definition on_client_read_error (s : t) (id : nat) (error : Error) (user : t -> outcome t) : outcome t :=
  let s' := on_stream s id (fun b => TcpStream.on_read_error b error) in
  if TcpStream.m_close_callback (stream (client s id))
  then on_client_close_callback s' id (TcpStream.close_reason error) user
  else Ret s'.

(** [on_read] when [nread] is an error; [getter_status] and [value] are what [SO_ERROR] gives. *)
Definition on_client_read_failed (s : t) (id : nat) (nread getter_status value : Z) (user : t -> outcome t) : outcome t :=
  let* error := TcpStream.read_error (stream (client s id)) (Error_of_uv nread) getter_status value in
  let* s := on_client_read_error s id error user in
  let s := on_stream s id (fun b => b <| TcpStream.m_close_callback := false |>) in
  close_client s id.

(** [on_read] for data, after [alloc_read_buffer]. *)
Definition on_client_read (s : t) (id : nat) (suggested_size : Z) (data : list Z)
    (user : t -> DataChunk -> list Z -> outcome t) : outcome t :=
  let* (s, _) := TcpStream.uv_read (s, id) suggested_size data (m_receive_callback (client s id))
    (fun '(s, _) chunk data => let* s := user (emit s (DataReceived id data)) chunk data in Ret (s, id)) in
  Ret s.

(** ** TcpServer *)

Definition listen (s : t) (endpoint : Endpoint.t) (new_connection_callback data_receive_callback close_connection_callback : bool)
    (init_status bind_status listen_status : Z) : t * Error :=
  if bool_decide (Endpoint.m_type endpoint = Endpoint.UNDEFINED) then (s, Error_of_status INVALID_ARGUMENT)
  else
    match m_server_handle s with
    | Some _ => (s, Error_of_status CONNECTION_ALREADY_IN_PROGRESS)
    | None =>
        let s := s <| m_endpoint := endpoint |> in
        let init_error := Error_of_uv init_status in
        if error_bool init_error then (s <| m_server_handle := Some Refused |>, init_error)
        else
          let s := s <| m_server_handle := Some Inited |> in
          if bind_status <? 0 then (s, Error_of_uv bind_status)
          else
            let s := s <| m_new_connection_callback := new_connection_callback |>
                       <| m_data_receive_callback := data_receive_callback |>
                       <| m_close_connection_callback := close_connection_callback |>
                       <| m_server_handle := Some (if listen_status <? 0 then Inited else Listening) |> in
            (s <| m_is_open := true |>, Error_of_uv listen_status)
    end.

Definition close_impl (s : t) : outcome t :=
  let* s :=
    match m_server_handle s with
    | Some Refused => Fault Uninitialised
    | Some Inited | Some Listening => Ret (s <| m_server_handle := Some ServerClosing |>)
    | Some ServerClosing | Some ServerClosed | None =>
        Ret (match m_end_server_callback s with Some _ => schedule_callback s EndNotConnected | None => s end)
    end in
  Ret (s <| m_is_open := false |>).

(** The loops over [m_client_connections]; [statuses] is what [uv_shutdown] returns for each. *)
Fixpoint shutdown_clients (s : t) (ids : list nat) (statuses : nat -> Z) : t :=
  match ids with
  | [] => s
  | id :: ids => shutdown_clients (shutdown_client s id (statuses id)) ids statuses
  end.

Fixpoint close_clients (s : t) (ids : list nat) : outcome t :=
  match ids with
  | [] => Ret s
  | id :: ids => let* s := close_client s id in close_clients s ids
  end.

Definition shutdown (s : t) (shutdown_callback : option nat) (statuses : nat -> Z) : outcome t :=
  let s := s <| m_end_server_callback := shutdown_callback |> in
  let s := shutdown_clients s (elements (m_client_connections s)) statuses in
  close_impl s.

Definition close (s : t) (close_callback : option nat) : outcome t :=
  let s := s <| m_end_server_callback := close_callback |> in
  let* s := close_clients s (elements (m_client_connections s)) in
  close_impl s.

(** [TcpServer::schedule_removal], with [Impl::schedule_removal]. *)
Definition schedule_removal (s : t) : outcome t :=
  if negb (m_removal_scheduled s) && bool_decide (m_server_handle s <> None)
  then close (s <| m_removal_scheduled := true |>) None
  else Ret (s <| m_removal_scheduled := true |> <| server_removals ::= S |>).

(** [on_close], called by libuv, and again by the loop while connections remain. *)
Definition on_close (s : t) : outcome t :=
  if negb (bool_decide (connected_clients_count s = 0%nat)) then Ret (schedule_callback (s <| m_server_handle := Some ServerClosed |>) OnCloseAgain)
  else
    let* s :=
      match m_end_server_callback s with
      | Some callback => Ret (schedule_callback (s <| m_end_server_callback := None |>) (EndCallback callback))
      | None => if m_removal_scheduled s then schedule_removal s else Ret s
      end in
    Ret (s <| m_server_handle := None |>).

(** The statuses libuv gives during one [on_new_connection], and the peer's address. *)
Record Incoming := mkIncoming {
  init_status : Z; status : Z; accept_status : Z; getpeername_status : Z; info : list Z; read_status : Z
}.

#[global] Instance incoming_settable : Settable Incoming :=
  settable! mkIncoming < init_status; status; accept_status; getpeername_status; info; read_status >.

Definition new_connection_callback (s : t) (id : nat) (error : Error) (user : t -> outcome t) : outcome t :=
  user (emit s (NewConnection id error)).

(** [on_new_connection]: [new_user] is the new-connection callback, [close_user] the close callback. *)
Definition on_new_connection (s : t) (i : Incoming) (new_user close_user : t -> outcome t) : outcome t :=
  let id := next_client s in
  let s := s <| next_client ::= S |> in
  let guarded_new (s : t) (error : Error) : outcome t :=
    if m_new_connection_callback s then new_connection_callback s id error new_user else Ret s in
  let* (b, init_error) := TcpStream.init_stream (stream new_client) (init_status i) in
  let s := set_client s id (new_client <| stream := b |>) in
  if error_bool init_error then
    let* s := guarded_new s init_error in Ret (schedule_client_removal s id)
  else
  let s := on_client s id (fun c => c <| handle := Live |>) in
  if error_bool (Error_of_uv (status i)) then
    let* s := guarded_new s (Error_of_uv (status i)) in Ret (schedule_client_removal s id)
  else if negb (accept_status i =? 0) then
    check (m_new_connection_callback s) else EmptyFunction in
    let* s := new_connection_callback s id (Error_of_uv (accept_status i)) new_user in
    Ret (schedule_client_removal s id)
  else
    let getpeername_error := Error_of_uv (getpeername_status i) in
    if negb (error_bool getpeername_error) then
      let* endpoint := Endpoint.of_sockaddr (info i) in
      let s := on_client s id (fun c => (set_endpoint c endpoint) <| accepted := true |>) in
      let s := s <| m_client_connections ::= fun l => {[id]} ∪ l |> in
      let* s := guarded_new s (Error_of_uv 0) in
      if client_is_open (client s id) then Ret (start_read s id (m_data_receive_callback s) (read_status i)) else Ret s
    else
      let* s :=
        if negb (m_new_connection_callback s) then Ret s
        else if bool_decide (code getpeername_error = INVALID_ARGUMENT) then
          let* s := new_connection_callback s id (Error_of_status OK) new_user in
          check (m_close_connection_callback s) else EmptyFunction in
          close_user (emit s (ConnectionClosed id (Error_of_status CONNECTION_RESET_BY_PEER)))
        else new_connection_callback s id getpeername_error new_user in
      Ret (schedule_client_removal s id).

(** The loop runs the first scheduled callback; [user] is the user callback it calls. *)
Definition run_scheduled (s : t) (user : t -> outcome t) : outcome t :=
  match scheduled s with
  | [] => Ret s
  | c :: rest =>
      let s := s <| scheduled := rest |> in
      match c with
      | EndNotConnected =>
          match m_end_server_callback s with
          | None => Fault EmptyFunction
          | Some callback => user (emit s (End callback (Error_of_status NOT_CONNECTED)))
          end
      | EndCallback callback => user (emit s (End callback (Error_of_uv 0)))
      | OnCloseAgain => on_close s
      | ReadError id error => on_client_read_error s id error user
      end
  end.

(** ** Runs *)

(** What user code may do to the server and its connections, in a callback or between two iterations of
    the loop; the operations on connections are for those the server has created. *)
Inductive api (s : t) : t -> Prop :=
| api_listen e n d c i b l : api s (listen s e n d c i b l).1
| api_shutdown cb statuses s' : shutdown s cb statuses = Ret s' -> api s s'
| api_close cb s' : close s cb = Ret s' -> api s s'
| api_schedule_removal s' : schedule_removal s = Ret s' -> api s s'
| api_shutdown_client id st : is_Some (clients s !! id) -> api s (shutdown_client s id st)
| api_close_client id s' : is_Some (clients s !! id) -> close_client s id = Ret s' -> api s s'
| api_close_with_reset id st s' : is_Some (clients s !! id) -> close_with_reset s id st = Ret s' -> api s s'
| api_send_data id data size cb st s' :
    is_Some (clients s !! id) -> TcpStream.valid_buffer data size -> send_data s id data size cb st = Ret s' -> api s s'
| api_release id f : is_Some (clients s !! id) ->
    api s (on_stream s id (fun b => b <| TcpStream.kept ::= List.filter f |>)).

(** A user callback that returns has made such calls; a receive callback may also keep its chunk. *)
Definition Calls (user : t -> outcome t) : Prop := forall s s', user s = Ret s' -> rtc api s s'.

Definition Receives (id : nat) (user : t -> DataChunk -> list Z -> outcome t) : Prop :=
  forall s chunk data s', user s chunk data = Ret s' -> exists s1 n, rtc api s s1 /\
    s' = on_stream s1 id (fun b => b <| TcpStream.kept ::= fun l => l ++ replicate n (chunk, data) |>).

(** libuv stops reading a stream of which it has reported the end or an error. *)
Definition stop_reading (s : t) (id : nat) : t := on_client s id (fun c => c <| reading := false |>).

(** One call by user code or by libuv.  libuv calls the close callback of a handle once, after it has
    answered the handle's requests, and accepts connections only while it listens. *)
Inductive step (s : t) : t -> Prop :=
| step_api s' : api s s' -> step s s'
| step_new_connection i new_user close_user s' :
    m_server_handle s = Some Listening -> Calls new_user -> Calls close_user ->
    on_new_connection s i new_user close_user = Ret s' -> step s s'
| step_read id c suggested_size data user s' :
    clients s !! id = Some c -> handle c = Live -> reading c = true -> Receives id user ->
    0 <= suggested_size ->
    Z.of_nat (length data) <= (TcpStream.alloc_read_buffer (stream c) suggested_size).2.2 ->
    on_client_read s id suggested_size data user = Ret s' -> step s s'
| step_read_failed id c nread getter_status value user s' :
    clients s !! id = Some c -> handle c = Live -> reading c = true -> Calls user ->
    on_client_read_failed s id nread getter_status value user = Ret s' -> step s (stop_reading s' id)
| step_shutdown_done id c s' :
    clients s !! id = Some c -> shutdown_req c = true -> on_client_shutdown s id = Ret s' -> step s s'
| step_closed id c user s' :
    clients s !! id = Some c -> handle c = Closing -> TcpStream.requests (stream c) = [] -> Calls user ->
    on_client_close s id user = Ret s' -> step s s'
| step_write_done id c i st s' :
    clients s !! id = Some c -> (i < length (TcpStream.requests (stream c)))%nat ->
    Z.of_nat (TcpStream.next_send (stream c)) < 2 ^ 64 -> after_write s id i st = Ret s' -> step s s'
| step_server_closed s' : m_server_handle s = Some ServerClosing -> on_close s = Ret s' -> step s s'
| step_run_scheduled user s' : Calls user -> run_scheduled s user = Ret s' -> step s s'.

(** ** The invariant *)

Record client_ok (c : Client) : Prop := {
  ok_writes : TcpStream.writes_ok (stream c);
  ok_reads : TcpStream.reads_ok (stream c);
  ok_stream : TcpStream.m_tcp_stream (stream c) <> None;
  ok_open : client_is_open c = true -> accepted c = true /\ handle c = Live /\ shutdown_req c = false /\ refused c = false;
  ok_shutdown : shutdown_req c = true -> accepted c = true /\ handle c = Live;
  ok_handle : accepted c = true -> handle c <> Fresh;
  ok_progress : accepted c = true -> handle c = Live -> client_is_open c = true \/ shutdown_req c = true \/ refused c = true;
  ok_rejected : accepted c = false -> (handle c = Fresh \/ handle c = Live) /\ reading c = false;
  ok_refused : refused c = true -> accepted c = true /\ handle c = Live /\ shutdown_req c = false;
  ok_failed : read_failed c = true -> accepted c = true /\ reading c = false /\ TcpStream.m_close_callback (stream c) = true
}.

(** The calls of the close callback, made and to come when the handle is closed; with the [n] calls that are scheduled
    there is exactly one in all, and there are two for a connection that libuv refused to read. *)
Definition notifications (c : Client) : nat :=
  length (TcpStream.closings (stream c)) +
  (if TcpStream.m_close_callback (stream c) && negb (bool_decide (handle c = Gone)) then 1 else 0).
Definition reports_due (c : Client) : nat := if read_failed c then 2 else 1.
Definition notified (n : nat) (c : Client) : Prop := (notifications c + n)%nat = reports_due c.

(** The scheduled reports of a refused [uv_read_start] of connection [id]. *)
Definition is_read_error (id : nat) (c : Scheduled) : bool := match c with ReadError i _ => Nat.eqb i id | _ => false end.
Definition pending (id : nat) (l : list Scheduled) : nat := length (List.filter (is_read_error id) l).
Arguments pending : simpl never.

(** Scheduled callbacks other than those that only call the user. *)
Definition internal (c : Scheduled) : bool := match c with OnCloseAgain | ReadError _ _ => true | _ => false end.
Definition is_again (c : Scheduled) : bool := match c with OnCloseAgain => true | _ => false end.
Definition sched_view (s : t) : bool * list Scheduled :=
  (bool_decide (m_server_handle s = Some ServerClosed), List.filter internal (scheduled s)).

(** The server's set holds the connections that were accepted and whose close callback is still to come;
    a server that closes has no open connection; one [on_close] is scheduled again as long as a closed
    server waits; every connection is notified once, except [x], whose close callback is running. *)
Record inv (x : option nat) (s : t) : Prop := {
  inv_client : forall id c, clients s !! id = Some c -> client_ok c;
  inv_member : forall id, id ∈ m_client_connections s <->
    exists c, clients s !! id = Some c /\ accepted c = true /\ handle c <> Gone;
  inv_bound : forall id, is_Some (clients s !! id) -> (id < next_client s)%nat;
  inv_closing : m_server_handle s = Some ServerClosing \/ m_server_handle s = Some ServerClosed ->
    forall id c, clients s !! id = Some c -> client_is_open c = false;
  inv_again : length (List.filter is_again (sched_view s).2) = if (sched_view s).1 then 1%nat else 0%nat;
  inv_read_errors : forall id e, ReadError id e ∈ (sched_view s).2 -> exists c, clients s !! id = Some c /\ read_failed c = true;
  inv_notified : forall id c, clients s !! id = Some c -> x <> Some id -> notified (pending id (sched_view s).2) c
}.

Arguments inv_client {x} s.
Arguments inv_member {x} s.
Arguments inv_bound {x} s.
Arguments inv_closing {x} s.
Arguments inv_again {x} s.
Arguments inv_read_errors {x} s.
Arguments inv_notified {x} s.

Lemma create_inv : inv None create.
Proof.
  split; cbn; try done; try by intros id [].
  - intros id. split; [intros Hin; by apply not_elem_of_empty in Hin|by intros (c & ? & _)].
  - intros id e Hin. by apply not_elem_of_nil in Hin.
Qed.

Lemma client_lookup s id c : clients s !! id = Some c -> client s id = c.
Proof. unfold client. by intros ->. Qed.

(** One connection changes. *)
Lemma inv_set_client {x} s id c c' :
  inv x s -> clients s !! id = Some c -> client_ok c' ->
  accepted c' = accepted c -> (handle c' = Gone <-> handle c = Gone) ->
  (client_is_open c' = true -> client_is_open c = true) ->
  (read_failed c = true -> read_failed c' = true) -> (x <> Some id -> forall n, notified n c -> notified n c') ->
  inv x (set_client s id c').
Proof.
  intros [H1 H2 H3 H4 H5 H6 H7] Hc Hok Ha Hg Ho Hrf Hn. split; cbn; [| | | |done| |].
  - intros id' c''. destruct (decide (id' = id)) as [->|Hne]; [rewrite lookup_insert_eq; by intros [= <-]|].
    rewrite lookup_insert_ne by done. apply H1.
  - intros id'. rewrite H2. destruct (decide (id' = id)) as [->|Hne].
    + rewrite lookup_insert_eq, Hc. split; intros (c0 & [= <-] & Hacc & Hne); eexists; (split_and!; [done|congruence|tauto]).
    + by rewrite lookup_insert_ne.
  - intros id'. destruct (decide (id' = id)) as [->|Hne]; [intros _; apply H3; by eexists|].
    rewrite lookup_insert_ne by done. apply H3.
  - intros Hs id' c''. destruct (decide (id' = id)) as [->|Hne].
    + rewrite lookup_insert_eq. intros [= <-]. specialize (H4 Hs id c Hc). destruct (client_is_open c'); [|done].
      by rewrite Ho in H4.
    + rewrite lookup_insert_ne by done. by apply H4.
  - intros id' e Hin. destruct (H6 id' e Hin) as (c0 & Hc0 & Hf0). destruct (decide (id' = id)) as [->|Hne].
    + rewrite lookup_insert_eq. exists c'. split; [done|]. apply Hrf. congruence.
    + rewrite lookup_insert_ne by done. by exists c0.
  - intros id' c''. destruct (decide (id' = id)) as [->|Hne].
    + rewrite lookup_insert_eq. intros [= <-] Hx. apply Hn; [done|]. by apply (H7 id).
    + rewrite lookup_insert_ne by done. by apply H7.
Qed.

(** What user code leaves as it is: which connections there are, the close notifications, the read
    buffers; chunks may be let go. *)
Record client_frame (c c' : Client) : Prop := {
  frame_closings : TcpStream.closings (stream c') = TcpStream.closings (stream c);
  frame_close_callback : TcpStream.m_close_callback (stream c') = TcpStream.m_close_callback (stream c);
  frame_gone : handle c' = Gone <-> handle c = Gone;
  frame_read_failed : read_failed c' = read_failed c;
  frame_accepted : accepted c' = accepted c;
  frame_refused : refused c = true -> refused c' = true;
  frame_read_buf : TcpStream.m_read_buf (stream c') = TcpStream.m_read_buf (stream c);
  frame_read_buf_size : TcpStream.m_read_buf_size (stream c') = TcpStream.m_read_buf_size (stream c);
  frame_heap : TcpStream.heap (stream c') = TcpStream.heap (stream c);
  frame_next_buf : TcpStream.next_buf (stream c') = TcpStream.next_buf (stream c);
  frame_kept : TcpStream.kept (stream c') ⊆ TcpStream.kept (stream c);
  frame_open : client_is_open c' = true -> client_is_open c = true;
  frame_removals : removals c' = removals c;
  frame_reading : reading c' = reading c
}.

#[local] Instance client_frame_preorder : PreOrder client_frame.
Proof.
  split; [by intros c; split|]. intros c1 c2 c3 [] []. split; try congruence; try tauto.
  by etransitivity.
Qed.

Record frame (s s' : t) : Prop := {
  frame_clients : forall id, option_Forall2 client_frame (clients s !! id) (clients s' !! id);
  frame_connections : m_client_connections s' = m_client_connections s;
  frame_next : next_client s' = next_client s;
  frame_events : events s' = events s;
  frame_sched : sched_view s' = sched_view s
}.

#[local] Instance frame_preorder : PreOrder frame.
Proof.
  split.
  - intros s. split; [|done..]. intros id. by apply option_Forall2_refl.
  - intros s1 s2 s3 [H1 ? ? ? ?] [H2 ? ? ? ?]. split; try congruence. intros id. specialize (H1 id). specialize (H2 id).
    inversion H1 as [c1 c2 H12 E1 E2|E1 E2]; rewrite <- E2 in H2; inversion H2; constructor. by etransitivity.
Qed.

Lemma frame_set_client s id c c' : clients s !! id = Some c -> client_frame c c' -> frame s (set_client s id c').
Proof.
  intros Hc Hf. split; [|done..]. intros id'. cbn. destruct (decide (id' = id)) as [->|Hne].
  - rewrite lookup_insert_eq, Hc. by constructor.
  - rewrite lookup_insert_ne by done. by apply option_Forall2_refl.
Qed.

Lemma frame_notified c c' n : client_frame c c' -> notified n c -> notified n c'.
Proof.
  intros Hf. unfold notified, notifications, reports_due. rewrite (frame_read_failed c c' Hf), (frame_closings c c' Hf), (frame_close_callback c c' Hf).
  by rewrite (bool_decide_ext _ _ (frame_gone c c' Hf)).
Qed.

(** A change of one connection that user code can make. *)
Definition client_step (c c' : Client) : Prop := client_ok c -> client_ok c' /\ client_frame c c'.

Lemma set_client_step {x} s id c c' : inv x s -> clients s !! id = Some c -> client_step c c' ->
  inv x (set_client s id c') /\ frame s (set_client s id c').
Proof.
  intros Hi Hc Hstep. destruct (Hstep (inv_client s Hi id c Hc)) as [Hok Hf]. split.
  - apply (inv_set_client s id c); [done|done|done|apply Hf..| |].
    + by rewrite (frame_read_failed c c' Hf).
    + intros _ n Hn. by apply (frame_notified c).
  - by apply (frame_set_client s id c).
Qed.

Lemma client_frame_intro c c' :
  TcpStream.closings (stream c') = TcpStream.closings (stream c) ->
  TcpStream.m_close_callback (stream c') = TcpStream.m_close_callback (stream c) ->
  TcpStream.read_view (stream c') = TcpStream.read_view (stream c) ->
  (handle c' = Gone <-> handle c = Gone) -> read_failed c' = read_failed c -> accepted c' = accepted c ->
  (refused c = true -> refused c' = true) ->
  (client_is_open c' = true -> client_is_open c = true) -> removals c' = removals c -> reading c' = reading c -> client_frame c c'.
Proof. intros H1 H2 [= E1 E2 E3 E4 E5]; intros. split; try done. by rewrite E5. Qed.

Lemma not_open_step c (b r : bool) (h : Handle) :
  client_is_open c = true -> h = Live \/ h = Closing -> (b = true -> h = Live) -> (h = Live -> b = true \/ r = true) ->
  (r = true -> h = Live /\ b = false) -> client_step c ((not_open c) <| shutdown_req := b |> <| handle := h |> <| refused := r |>).
Proof.
  intros Ho Hh Hb Hl Hrh [Hw Hr Hs H1 H2 H3 H4 H5 H6 H7]. destruct (H1 Ho) as (Ha & Hlive & Hsr & Href). split.
  - split; cbn; try done.
    + intros ->. by auto.
    + intros _. by destruct Hh as [-> | ->].
    + intros _ ->. destruct (Hl eq_refl); auto.
    + by rewrite Ha.
    + intros ->. by destruct (Hrh eq_refl).
  - apply client_frame_intro; try done; cbn; [|by rewrite Href]. rewrite Hlive. by destruct Hh as [-> | ->].
Qed.

Lemma client_shutdown_step c st : client_step c (client_shutdown c st).
Proof.
  unfold client_shutdown. destruct (client_is_open c) eqn:Ho; cbn [negb]; [|by intros H; split; [|reflexivity]].
  intros Hok. destruct (ok_open c Hok Ho) as (Ha & Hlive & Hsr & Href). destruct (st <? 0).
  - pose proof (not_open_step c false true Live Ho ltac:(by left) ltac:(done) ltac:(by right) ltac:(done) Hok) as H.
    destruct c. cbn in *. by subst.
  - pose proof (not_open_step c true false Live Ho ltac:(by left) ltac:(done) ltac:(by left) ltac:(done) Hok) as H.
    destruct c. cbn in *. by subst.
Qed.

Lemma client_close_step c : client_ok c -> returns (client_close c) (client_step c).
Proof.
  intros Hok. unfold client_close. destruct (client_is_open c) eqn:Ho; cbn [negb]; [|by intros H; split; [|reflexivity]].
  destruct (ok_open c Hok Ho) as (Ha & Hlive & Hsr & Href). unfold uv_close. cbn [handle not_open]. rewrite bool_decide_true by exact Hlive.
  pose proof (not_open_step c false false Closing Ho ltac:(by right) ltac:(done) ltac:(done) ltac:(done)) as H.
  destruct c. cbn in *. by subst.
Qed.

Lemma client_close_with_reset_step c st : client_ok c -> returns (client_close_with_reset c st) (client_step c).
Proof.
  intros Hok. unfold client_close_with_reset. destruct (client_is_open c) eqn:Ho; cbn [negb]; [|by intros H; split; [|reflexivity]].
  destruct (ok_open c Hok Ho) as (Ha & Hlive & Hsr & Href). destruct (st <? 0).
  - pose proof (not_open_step c false true Live Ho ltac:(by left) ltac:(done) ltac:(by right) ltac:(done)) as H. destruct c. cbn in *. by subst.
  - unfold uv_close. cbn [handle not_open]. rewrite bool_decide_true by exact Hlive.
    pose proof (not_open_step c false false Closing Ho ltac:(by right) ltac:(done) ltac:(done) ltac:(done)) as H. destruct c. cbn in *. by subst.
Qed.

(** Only the stream changes, and stays as open as it was. *)
Lemma client_ok_stream c b :
  client_ok c -> TcpStream.writes_ok b -> TcpStream.reads_ok b -> TcpStream.m_tcp_stream b <> None ->
  TcpStream.m_is_open b = TcpStream.m_is_open (stream c) ->
  (read_failed c = true -> TcpStream.m_close_callback b = TcpStream.m_close_callback (stream c)) -> client_ok (c <| stream := b |>).
Proof.
  intros [Hw Hr Hs H1 H2 H3 H4 H5 H6 H7] Hw' Hr' Hs' Ho Hcb. unfold client_is_open, TcpStream.is_open in *.
  split; try done; unfold client_is_open, TcpStream.is_open; cbn; try by rewrite Ho.
  intros Hf. destruct (H7 Hf) as (? & ? & ?). rewrite Hcb by done. by split_and!.
Qed.

Lemma same_stream_step c b : client_ok c -> TcpStream.writes_ok b -> TcpStream.same_stream (stream c) b ->
  client_ok (c <| stream := b |>) /\ client_frame c (c <| stream := b |>).
Proof.
  intros Hok Hw (E1 & E2 & E3 & E4 & E5 & E6 & E7 & E8 & E9 & E10 & E11 & E12). split.
  - apply client_ok_stream; [done|done| |by rewrite E2; apply Hok|done|done].
    apply (TcpStream.reads_ok_frame (stream c)); [|apply Hok]. unfold TcpStream.read_view. congruence.
  - apply client_frame_intro; try done; [unfold TcpStream.read_view; cbn; congruence|].
    unfold client_is_open, TcpStream.is_open. cbn. by rewrite E6.
Qed.

Lemma on_stream_lookup s id c f : clients s !! id = Some c -> on_stream s id f = set_client s id (c <| stream ::= f |>).
Proof. intros Hc. unfold on_stream, on_client. by rewrite (client_lookup s id c Hc). Qed.

Lemma send_data_step {x} s id c data size cb st : inv x s -> clients s !! id = Some c -> TcpStream.valid_buffer data size ->
  returns (send_data s id data size cb st) (fun s' => inv x s' /\ frame s s').
Proof.
  intros Hi Hc Hv. unfold send_data. rewrite (client_lookup s id c Hc). pose proof (inv_client s Hi id c Hc) as Hok.
  eapply returns_bind; [apply TcpStream.send_data_impl_ok; [apply Hok|split; [intros _; apply Hok|exact Hv]]|].
  intros b (Hw & Hsame & _). cbn [returns]. rewrite (on_stream_lookup s id c) by done.
  apply set_client_step with (c := c); [done|done|]. intros _. by apply same_stream_step.
Qed.

Lemma release_step {x} s id c f : inv x s -> clients s !! id = Some c ->
  let s' := on_stream s id (fun b => b <| TcpStream.kept ::= List.filter f |>) in inv x s' /\ frame s s'.
Proof.
  intros Hi Hc. cbn zeta. rewrite (on_stream_lookup s id c) by done. apply set_client_step with (c := c); [done|done|].
  intros Hok. set (k := List.filter f (TcpStream.kept (stream c))).
  assert (k ⊆ TcpStream.kept (stream c)) as Hsub.
  { intros y Hin. apply list_elem_of_In in Hin. apply filter_In in Hin as [Hin _]. by apply list_elem_of_In. }
  split; [|by split]. apply client_ok_stream; [done|apply Hok| |apply Hok|done|done].
  destruct (ok_reads c Hok) as [Hb Hk]. split; cbn.
  - intros b Eb. destruct (Hb b Eb) as (? & ? & Hx). split_and!; [done|done|]. intros c' d Hin. apply (Hx c' d). by apply Hsub.
  - intros c' d Hin. by apply Hk, Hsub.
Qed.

(** ** Closing all connections *)

Definition closing (s : t) : Prop := m_server_handle s = Some ServerClosing \/ m_server_handle s = Some ServerClosed.

(** The server's own members play a small part in the invariant. *)
Lemma inv_server {x} s s' :
  inv x s -> clients s' = clients s -> m_client_connections s' = m_client_connections s -> next_client s' = next_client s ->
  sched_view s' = sched_view s ->
  (closing s' -> closing s \/ forall id c, clients s !! id = Some c -> client_is_open c = false) -> inv x s'.
Proof.
  intros [H1 H2 H3 H4 H5 H6 H7] E1 E2 E3 E4 Hc. split; rewrite ?E1, ?E2, ?E3, ?E4; try done.
  intros Hcl. destruct (Hc Hcl) as [Hs|Ho]; [by apply H4|done].
Qed.

(** What the loops over the connections leave as it is. *)
Definition same_server (s s' : t) : Prop :=
  m_server_handle s' = m_server_handle s /\ m_end_server_callback s' = m_end_server_callback s /\
  m_removal_scheduled s' = m_removal_scheduled s /\ scheduled s' = scheduled s /\ server_removals s' = server_removals s.

Lemma frame_is_some s s' id : frame s s' -> is_Some (clients s !! id) -> is_Some (clients s' !! id).
Proof. intros [H _ _ _ _] [c Hc]. specialize (H id). rewrite Hc in H. inversion H. by eexists. Qed.

Lemma frame_client s s' id c : frame s s' -> clients s !! id = Some c ->
  exists c', clients s' !! id = Some c' /\ client_frame c c'.
Proof. intros [H _ _ _ _] Hc. specialize (H id). rewrite Hc in H. inversion H; subst. by eexists. Qed.

Lemma frame_client_back s s' id c' : frame s s' -> clients s' !! id = Some c' ->
  exists c, clients s !! id = Some c /\ client_frame c c'.
Proof. intros [H _ _ _ _] Hc. specialize (H id). rewrite Hc in H. inversion H; subst. by eexists. Qed.

Lemma client_shutdown_closes c st : client_is_open (client_shutdown c st) = false.
Proof.
  unfold client_shutdown. destruct (client_is_open c) eqn:E; cbn [negb]; [|done]. by destruct (st <? 0).
Qed.

Lemma client_close_closes c c' : client_close c = Ret c' -> client_is_open c' = false.
Proof.
  unfold client_close. destruct (client_is_open c) eqn:E; cbn [negb]; [|by intros [= <-]].
  unfold uv_close. case_bool_decide; [|done]. by intros [= <-].
Qed.

Lemma close_client_step {x} s id c : inv x s -> clients s !! id = Some c ->
  returns (close_client s id) (fun s' => inv x s' /\ frame s s' /\ same_server s s' /\ client_is_open (client s' id) = false).
Proof.
  intros Hi Hc. unfold close_client. rewrite (client_lookup s id c Hc).
  pose proof (client_close_step c (inv_client s Hi id c Hc)) as Hr. destruct (client_close c) as [c'|] eqn:E; [|done].
  cbn [obind returns] in *. destruct (set_client_step s id c c' Hi Hc Hr). split_and!; try done.
  rewrite (client_lookup _ id c') by apply lookup_insert_eq. by apply client_close_closes in E.
Qed.

(** A connection that is closed stays closed through the calls user code makes. *)
Lemma frame_stays_closed s s' id : frame s s' -> is_Some (clients s !! id) ->
  client_is_open (client s id) = false -> client_is_open (client s' id) = false.
Proof.
  intros Hf [c Hc] Ho. rewrite (client_lookup s id c Hc) in Ho. destruct (frame_client s s' id c Hf Hc) as (c' & Hc' & Hcf).
  rewrite (client_lookup s' id c' Hc'). destruct (client_is_open c') eqn:E; [|done]. by rewrite (frame_open c c' Hcf) in Ho.
Qed.

Lemma same_server_trans s1 s2 s3 : same_server s1 s2 -> same_server s2 s3 -> same_server s1 s3.
Proof. unfold same_server. intros (-> & -> & -> & -> & ->). done. Qed.

Lemma close_clients_step {x} ids s : inv x s -> Forall (fun id => is_Some (clients s !! id)) ids ->
  returns (close_clients s ids) (fun s' => inv x s' /\ frame s s' /\ same_server s s' /\
    Forall (fun id => client_is_open (client s' id) = false) ids).
Proof.
  revert s. induction ids as [|id ids IH]; intros s Hi Hids; cbn [close_clients]; [by split_and!|].
  apply Forall_cons in Hids as [[c Hc] Hids]. eapply returns_bind; [exact (close_client_step s id c Hi Hc)|].
  intros s1 (Hi1 & Hf1 & Hs1 & Ho1). eapply returns_mono.
  - apply (IH s1 Hi1). eapply Forall_impl; [exact Hids|]. intros id'. by apply frame_is_some.
  - intros s2 (Hi2 & Hf2 & Hs2 & Ho2). split_and!; [done|by etransitivity|by eapply same_server_trans|].
    constructor; [|done]. apply (frame_stays_closed s1 s2); [done|apply (frame_is_some s s1); [done|by eexists]|done].
Qed.

Lemma shutdown_clients_step {x} ids st s : inv x s -> Forall (fun id => is_Some (clients s !! id)) ids ->
  inv x (shutdown_clients s ids st) /\ frame s (shutdown_clients s ids st) /\ same_server s (shutdown_clients s ids st) /\
  Forall (fun id => client_is_open (client (shutdown_clients s ids st) id) = false) ids.
Proof.
  revert s. induction ids as [|id ids IH]; intros s Hi Hids; cbn [shutdown_clients]; [by split_and!|].
  apply Forall_cons in Hids as [[c Hc] Hids].
  assert (shutdown_client s id (st id) = set_client s id (client_shutdown c (st id))) as E
    by (unfold shutdown_client, on_client; by rewrite (client_lookup s id c Hc)).
  rewrite E. destruct (set_client_step s id c _ Hi Hc (client_shutdown_step c (st id))) as [Hi1 Hf1].
  set (s1 := set_client s id (client_shutdown c (st id))) in *.
  destruct (IH s1 Hi1) as (Hi2 & Hf2 & Hs2 & Ho2).
  { eapply Forall_impl; [exact Hids|]. intros id'. by apply frame_is_some. }
  split_and!; [done|by etransitivity|by eapply same_server_trans; [|exact Hs2]|].
  constructor; [|done]. apply (frame_stays_closed s1); [done|apply (frame_is_some s s1); [done|by eexists]|].
  unfold s1. rewrite (client_lookup _ id (client_shutdown c (st id))) by apply lookup_insert_eq. apply client_shutdown_closes.
Qed.

(** The open connections are in the set, so closing all of it leaves none open. *)
Lemma all_closed {x} s s' : inv x s -> inv x s' -> frame s s' ->
  Forall (fun id => client_is_open (client s' id) = false) (elements (m_client_connections s)) ->
  forall id c, clients s' !! id = Some c -> client_is_open c = false.
Proof.
  intros Hi Hi' Hf Hall id c Hc. destruct (client_is_open c) eqn:Ho; [|done].
  destruct (ok_open c (inv_client s' Hi' id c Hc) Ho) as (Ha & Hl & _).
  assert (id ∈ m_client_connections s) as Hin.
  { rewrite <- (frame_connections s s' Hf). apply (inv_member s' Hi'). exists c. by rewrite Hl. }
  rewrite Forall_forall in Hall. specialize (Hall id ltac:(by apply elem_of_elements)).
  by rewrite (client_lookup s' id c Hc), Ho in Hall.
Qed.

Lemma connections_exist {x} s : inv x s -> Forall (fun id => is_Some (clients s !! id)) (elements (m_client_connections s)).
Proof.
  intros Hi. apply Forall_forall. intros id Hin%elem_of_elements. apply (inv_member s Hi) in Hin as (c & Hc & _). by eexists.
Qed.

Lemma close_impl_step {x} s s0 : inv x s -> frame s0 s -> (forall id c, clients s !! id = Some c -> client_is_open c = false) ->
  forall s', close_impl s = Ret s' -> inv x s' /\ frame s0 s'.
Proof.
  intros Hi Hf Ho s' H. unfold close_impl in H. apply obind_ret_inv in H as (s1 & H & [= <-]).
  assert (clients s1 = clients s /\ m_client_connections s1 = m_client_connections s /\ next_client s1 = next_client s /\ events s1 = events s /\
          sched_view s1 = sched_view s) as (E1 & E2 & E3 & E4 & E5).
  { destruct (m_server_handle s) as [[]|] eqn:Eh; try done; injection H as <-;
      unfold sched_view; cbn; rewrite ?Eh; try done; destruct (m_end_server_callback s); cbn; rewrite ?Eh; try done;
      by rewrite List.filter_app, app_nil_r. }
  split; [apply (inv_server s); try done; by right|].
  destruct Hf as [F1 F2 F3 F4 F5]. split; cbn; [by rewrite E1|congruence..|]. by rewrite <- F5, <- E5.
Qed.

Lemma close_step {x} s cb s' : inv x s -> close s cb = Ret s' -> inv x s' /\ frame s s'.
Proof.
  intros Hi H. unfold close in H. set (s0 := s <| m_end_server_callback := cb |>) in *.
  assert (inv x s0) as Hi0 by (apply (inv_server s); try done; by left).
  pose proof (close_clients_step (elements (m_client_connections s0)) s0 Hi0 (connections_exist s0 Hi0)) as Hc.
  apply obind_ret_inv in H as (s1 & H1 & H2). rewrite H1 in Hc. destruct Hc as (Hi1 & Hf1 & _ & Ho1).
  apply (close_impl_step s1); [done| |exact (all_closed s0 s1 Hi0 Hi1 Hf1 Ho1)|done].
  etransitivity; [|exact Hf1]. by split.
Qed.

Lemma shutdown_step {x} s cb st s' : inv x s -> shutdown s cb st = Ret s' -> inv x s' /\ frame s s'.
Proof.
  intros Hi H. unfold shutdown in H. set (s0 := s <| m_end_server_callback := cb |>) in *.
  assert (inv x s0) as Hi0 by (apply (inv_server s); try done; by left).
  destruct (shutdown_clients_step (elements (m_client_connections s0)) st s0 Hi0 (connections_exist s0 Hi0)) as (Hi1 & Hf1 & _ & Ho1).
  eapply close_impl_step; [exact Hi1| |exact (all_closed s0 _ Hi0 Hi1 Hf1 Ho1)|exact H].
  etransitivity; [|exact Hf1]. by split.
Qed.

Lemma schedule_removal_step {x} s s' : inv x s -> schedule_removal s = Ret s' -> inv x s' /\ frame s s'.
Proof.
  intros Hi H. unfold schedule_removal in H.
  assert (forall s1, clients s1 = clients s -> m_client_connections s1 = m_client_connections s -> next_client s1 = next_client s ->
    events s1 = events s -> m_server_handle s1 = m_server_handle s -> scheduled s1 = scheduled s -> inv x s1 /\ frame s s1) as Hsame.
  { intros s1 E1 E2 E3 E4 E5 E6. assert (sched_view s1 = sched_view s) as E7 by (unfold sched_view; by rewrite E5, E6).
    split; [apply (inv_server s); try done; unfold closing; rewrite E5; by left|].
    split; try done. intros id. rewrite E1. by apply option_Forall2_refl. }
  destruct (_ && _); [|injection H as <-; by apply Hsame].
  destruct (Hsame (s <| m_removal_scheduled := true |>)) as [Hi0 Hf0]; [done..|].
  destruct (close_step _ _ _ Hi0 H). split; [done|by etransitivity].
Qed.

Lemma listen_step {x} s e n d c i b l : inv x s -> inv x (listen s e n d c i b l).1 /\ frame s (listen s e n d c i b l).1.
Proof.
  intros Hi. unfold listen. case_bool_decide; [by split|]. destruct (m_server_handle s) eqn:Eh; [by split|].
  assert (forall s1, clients s1 = clients s -> m_client_connections s1 = m_client_connections s -> next_client s1 = next_client s ->
    events s1 = events s -> ~ closing s1 -> scheduled s1 = scheduled s -> inv x s1 /\ frame s s1) as Hsame.
  { intros s1 E1 E2 E3 E4 E5 E6.
    assert (sched_view s1 = sched_view s) as E7.
    { unfold sched_view. rewrite E6, Eh, !bool_decide_false; [done|done|]. intros E. apply E5. by right. }
    split; [by apply (inv_server s)|].
    split; try done. intros id. rewrite E1. by apply option_Forall2_refl. }
  destruct (error_bool _); [apply Hsame; try done; by intros []|].
  destruct (b <? 0); [apply Hsame; try done; by intros []|]. apply Hsame; try done. by destruct (l <? 0); intros [].
Qed.

(** What user code does keeps the invariant, and the frame. *)
Lemma api_step {x} s s' : api s s' -> inv x s -> inv x s' /\ frame s s'.
Proof.
  intros H Hi. destruct H as [e n d c i b l|cb st s' H|cb s' H|s' H|id st [c Hc]|id s' [c Hc] H|id st s' [c Hc] H|id data sz cb st s' [c Hc] Hv H|id f [c Hc]].
  - by apply listen_step.
  - by eapply shutdown_step.
  - by eapply close_step.
  - by apply schedule_removal_step.
  - unfold shutdown_client, on_client. rewrite (client_lookup s id c Hc). apply (set_client_step s id c); [done|done|apply client_shutdown_step].
  - pose proof (close_client_step s id c Hi Hc) as Hr. rewrite H in Hr. by destruct Hr as (? & ? & _).
  - unfold close_with_reset in H. rewrite (client_lookup s id c Hc) in H. apply obind_ret_inv in H as (c' & H & [= <-]).
    pose proof (client_close_with_reset_step c st (inv_client s Hi id c Hc)) as Hr. rewrite H in Hr. by apply (set_client_step s id c).
  - pose proof (send_data_step s id c data sz cb st Hi Hc Hv) as Hr. by rewrite H in Hr.
  - by apply (release_step s id c).
Qed.

Lemma calls_step {x} s s' : rtc api s s' -> inv x s -> inv x s' /\ frame s s'.
Proof.
  induction 1 as [s|s s1 s2 H1 H2 IH]; [by split|]. intros Hi. destruct (api_step s s1 H1 Hi) as [Hi1 Hf1].
  destruct (IH Hi1) as [Hi2 Hf2]. split; [done|by etransitivity].
Qed.

(** ** The handlers keep the invariant *)

(** A change of one connection that leaves its part in the server alone. *)
Lemma inv_client_change {x} s id c c' : inv x s -> clients s !! id = Some c -> (client_ok c -> client_ok c') ->
  accepted c' = accepted c -> handle c' = handle c -> client_is_open c' = client_is_open c ->
  (read_failed c = true -> read_failed c' = true) -> (x <> Some id -> forall n, notified n c -> notified n c') -> inv x (set_client s id c').
Proof.
  intros Hi Hc Hok Ha Hh Ho Hrf Hn. apply (inv_set_client s id c); [done|done|apply Hok; by eapply inv_client|done|by rewrite Hh|by rewrite Ho|done|done].
Qed.

(** A stream that differs in nothing the invariant speaks of. *)
Lemma inv_stream_change {x} s id c f : inv x s -> clients s !! id = Some c ->
  (let b := stream c in TcpStream.write_view (f b) = TcpStream.write_view b /\ TcpStream.read_view (f b) = TcpStream.read_view b /\
   TcpStream.m_tcp_stream (f b) = TcpStream.m_tcp_stream b /\ TcpStream.m_is_open (f b) = TcpStream.m_is_open b) ->
  (read_failed c = true -> TcpStream.m_close_callback (f (stream c)) = TcpStream.m_close_callback (stream c)) ->
  (x <> Some id -> forall n, notified n c -> notified n (c <| stream ::= f |>)) -> inv x (on_stream s id f).
Proof.
  intros Hi Hc (Hw & Hr & Ht & Ho) Hcb Hn. rewrite (on_stream_lookup s id c f Hc).
  apply (inv_client_change s id c); [done|done| |done|done|exact Ho|done|done].
  intros Hok. apply client_ok_stream; [done|by apply (TcpStream.writes_ok_frame (stream c)), Hok|
    by apply (TcpStream.reads_ok_frame (stream c)), Hok|rewrite Ht; apply Hok|done|done].
Qed.

Lemma closed_write_view b e : TcpStream.write_view (TcpStream.emit b (TcpStream.Closed e)) = TcpStream.write_view b.
Proof. unfold TcpStream.write_view. rewrite TcpStream.stream_called_emit. cbn. by rewrite app_nil_r. Qed.

Lemma read_error_view b e :
  let b' := TcpStream.on_read_error b e in TcpStream.write_view b' = TcpStream.write_view b /\ TcpStream.read_view b' = TcpStream.read_view b /\
  TcpStream.m_tcp_stream b' = TcpStream.m_tcp_stream b /\ TcpStream.m_is_open b' = TcpStream.m_is_open b.
Proof. unfold TcpStream.on_read_error. destruct (TcpStream.m_close_callback b); [|done]. by rewrite closed_write_view. Qed.

Lemma server_emit_inv {x} s e : inv x s -> inv x (emit s e).
Proof. intros Hi. apply (inv_server s); try done. by left. Qed.

Lemma removal_inv {x} s id c : inv x s -> clients s !! id = Some c -> inv x (schedule_client_removal s id).
Proof.
  intros Hi Hc. unfold schedule_client_removal, on_client. rewrite (client_lookup s id c Hc).
  apply (inv_client_change s id c); try done. by intros [].
Qed.

Lemma guarded_calls_inv {x} s id error user s' : Calls user -> inv x s ->
  new_connection_callback s id error user = Ret s' -> inv x s' /\ frame (emit s (NewConnection id error)) s'.
Proof. intros Hu Hi H. by apply calls_step; [apply Hu|apply server_emit_inv]. Qed.

(** *** [on_close] and [on_read] of a connection *)

Lemma close_callback_inv {x} s id error user s' : Calls user -> inv x s ->
  on_client_close_callback s id error user = Ret s' -> inv x s' /\ frame (s <| events := events s' |>) s'.
Proof.
  intros Hu Hi H. unfold on_client_close_callback in H. destruct (m_close_connection_callback s).
  - destruct (calls_step _ _ (Hu _ _ H) (server_emit_inv s _ Hi)) as [Hi' [H1 H2 H3 H4]]. split; [done|]. by split.
  - injection H as <-. split; [done|]. by split.
Qed.

Lemma frame_lookup_of s s0 s' id c : clients s0 = clients s -> frame s0 s' -> clients s !! id = Some c ->
  exists c', clients s' !! id = Some c' /\ client_frame c c'.
Proof. intros E Hf Hc. apply (frame_client s0); [done|]. by rewrite E. Qed.

(** The state in which the close callback of a closed connection runs. *)
Lemma gone_inv s id c : inv None s -> clients s !! id = Some c -> handle c = Closing ->
  inv (Some id) (remove_client_connection (set_client s id (c <| handle := Gone |>)) id).
Proof.
  intros [H1 H2 H3 H4 H5 H6 H7] Hc Hh. pose proof (H1 id c Hc) as [Hw Hr Hs Ho Hsd Hha Hp Hrej Hrfs Hfl]. split; cbn; [| | | |done| |].
  - intros id' c'. destruct (decide (id' = id)) as [->|Hne].
    + rewrite lookup_insert_eq. intros [= <-]. split; cbn; try done.
      * intros Hop. destruct (Ho Hop) as (_ & Hl & _). by rewrite Hh in Hl.
      * intros Hsr. destruct (Hsd Hsr) as (_ & Hl). by rewrite Hh in Hl.
      * intros Ha. destruct (Hrej Ha) as [[Hx|Hx] _]; by rewrite Hh in Hx.
      * intros Hrf. destruct (Hrfs Hrf) as (_ & Hl & _). by rewrite Hh in Hl.
    + rewrite lookup_insert_ne by done. apply H1.
  - intros id'. rewrite elem_of_difference, elem_of_singleton, H2. destruct (decide (id' = id)) as [->|Hne].
    + rewrite lookup_insert_eq. split; [by intros [_ []]|]. by intros (c' & [= <-] & _ & []).
    + rewrite lookup_insert_ne by done. split; [by intros [? _]|by intros ?].
  - intros id'. destruct (decide (id' = id)) as [->|Hne]; [intros _; apply H3; by eexists|]. rewrite lookup_insert_ne by done. apply H3.
  - intros Hcl id' c'. destruct (decide (id' = id)) as [->|Hne]; [rewrite lookup_insert_eq; intros [= <-]; by apply (H4 Hcl id c Hc)|].
    rewrite lookup_insert_ne by done. by apply H4.
  - intros id' e Hin. destruct (H6 id' e Hin) as (c0 & Hc0 & Hf0). destruct (decide (id' = id)) as [->|Hne].
    + rewrite lookup_insert_eq. eexists. split; [done|]. cbn. congruence.
    + rewrite lookup_insert_ne by done. by exists c0.
  - intros id' c' Hc' Hx. rewrite lookup_insert_ne in Hc' by congruence. by apply (H7 id').
Qed.

(** The close callback of [id] is over: it is notified like the others. *)
Lemma inv_settled s id : inv (Some id) s -> (forall c, clients s !! id = Some c -> notified (pending id (sched_view s).2) c) -> inv None s.
Proof.
  intros [H1 H2 H3 H4 H5 H6 H7] Hn. split; try done. intros id' c Hc _. destruct (decide (id' = id)) as [->|Hne]; [by apply Hn|].
  apply (H7 id'); [done|congruence].
Qed.

Lemma inv_exempt s id : inv None s -> inv (Some id) s.
Proof. intros [H1 H2 H3 H4 H5 H6 H7]. split; try done. intros id' c Hc _. by apply (H7 id'). Qed.

Lemma on_client_close_inv s id c user s' : inv None s -> clients s !! id = Some c -> handle c = Closing -> Calls user ->
  on_client_close s id user = Ret s' -> inv None s'.
Proof.
  intros Hi Hc Hh Hu H. unfold on_client_close, on_client in H. rewrite (client_lookup s id c Hc) in H.
  pose proof (gone_inv s id c Hi Hc Hh) as Hi1. set (s1 := remove_client_connection _ id) in *.
  assert (clients s1 !! id = Some (c <| handle := Gone |>)) as Hc1 by apply lookup_insert_eq.
  pose proof (inv_notified s Hi id c Hc ltac:(done)) as Hn. unfold notified, notifications in Hn. rewrite Hh in Hn.
  rewrite bool_decide_false, andb_true_r in Hn by done. set (n := pending id (sched_view s).2) in *.
  apply obind_ret_inv in H as (s2 & H & [= <-]). rewrite (client_lookup s1 id _ Hc1) in H. cbn [stream set_field] in H.
  assert (inv None s2 /\ exists c2, clients s2 !! id = Some c2) as [Hi2 [c2 Hc2]].
  { destruct (TcpStream.m_close_callback (stream c)) eqn:Ecb.
    - assert (inv (Some id) (on_stream s1 id (fun b => TcpStream.emit b (TcpStream.Closed (Error_of_uv 0))))) as Hi1'
        by (eapply inv_stream_change; [exact Hi1|exact Hc1|cbv beta zeta; by rewrite closed_write_view|done|done]).
      rewrite (on_stream_lookup s1 id _ _ Hc1) in Hi1', H.
      apply inv_settled in Hi1'.
      + destruct (close_callback_inv _ _ _ _ _ Hu Hi1' H) as [Hi2 Hf2]. split; [done|].
        destruct (frame_client _ _ id _ Hf2 (lookup_insert_eq _ _ _)) as (c2 & Hc2 & _). by eexists.
      + intros c2. rewrite lookup_set_client. intros [= <-]. unfold notified.
        transitivity (length (TcpStream.closings (TcpStream.emit (stream c) (TcpStream.Closed (Error_of_uv 0)))) + 0 + n)%nat;
          [unfold notifications; cbn [handle set_field]; by rewrite bool_decide_true, andb_false_r|].
        rewrite TcpStream.closings_emit, length_app. change (reports_due _) with (reports_due c). subst n. cbn in *. lia.
    - injection H as <-. split; [|by eexists]. apply (inv_settled _ id); [done|]. intros c2. rewrite Hc1. intros [= <-].
      unfold notified, notifications. change (pending id (sched_view s1).2) with n. cbn [stream set_field]. rewrite Ecb.
      change (reports_due _) with (reports_due c). subst n. cbn in *. lia. }
  assert (inv None (on_stream s2 id (fun b => b <| TcpStream.m_destination_endpoint ::= Endpoint.clear |>))) as Hi3
    by (eapply inv_stream_change; [done|done|done|done|by intros _ k]).
  eapply removal_inv; [exact Hi3|]. rewrite (on_stream_lookup s2 id c2 _ Hc2). apply lookup_insert_eq.
Qed.

(** The close callback may run while the connection still counts as to be notified. *)
Lemma on_client_read_error_inv s id c error user s' : inv (Some id) s -> clients s !! id = Some c -> Calls user ->
  on_client_read_error s id error user = Ret s' ->
  inv (Some id) s' /\ frame ((on_stream s id (fun b => TcpStream.on_read_error b error)) <| events := events s' |>) s'.
Proof.
  intros Hi Hc Hu H. unfold on_client_read_error in H.
  assert (inv (Some id) (on_stream s id (fun b => TcpStream.on_read_error b error))) as Hi1
    by (eapply inv_stream_change; [done|done|apply read_error_view|intros _; unfold TcpStream.on_read_error; by destruct (TcpStream.m_close_callback (stream c)) eqn:E; cbn; rewrite ?E|done]).
  destruct (TcpStream.m_close_callback _); [by apply (close_callback_inv _ id (TcpStream.close_reason error) user)|].
  injection H as <-. split; [done|]. by split.
Qed.

Lemma on_client_read_failed_inv s id c nread gs value user s' : inv None s -> clients s !! id = Some c -> handle c = Live -> reading c = true -> Calls user ->
  on_client_read_failed s id nread gs value user = Ret s' -> inv None s' /\ is_Some (clients s' !! id).
Proof.
  intros Hi Hc Hl Hrd Hu H. unfold on_client_read_failed in H.
  assert (read_failed c = false) as Hrf0 by (destruct (read_failed c) eqn:E; [|done]; destruct (ok_failed c (inv_client s Hi id c Hc) E) as (_ & ? & _); congruence). apply obind_ret_inv in H as (e & _ & H).
  apply obind_ret_inv in H as (s1 & H1 & H2).
  destruct (on_client_read_error_inv s id c e user s1 (inv_exempt s id Hi) Hc Hu H1) as [Hi1 Hf1].
  rewrite (on_stream_lookup s id c _ Hc) in Hf1. destruct (frame_client _ _ id _ Hf1 (lookup_insert_eq _ _ _)) as (c1 & Hc1 & Hcf).
  assert (read_failed c1 = false) as Hrf1 by (by rewrite (frame_read_failed _ _ Hcf)).
  assert (inv (Some id) (on_stream s1 id (fun b => b <| TcpStream.m_close_callback := false |>))) as Hi2
    by (eapply inv_stream_change; [done|done|done|congruence|done]).
  rewrite (on_stream_lookup s1 id c1 _ Hc1) in Hi2, H2. apply inv_settled in Hi2.
  - pose proof (close_client_step _ id _ Hi2 (lookup_insert_eq _ _ _)) as Hr. rewrite H2 in Hr. destruct Hr as (Hi3 & Hf3 & _).
    split; [done|]. apply (frame_is_some _ _ id Hf3). rewrite lookup_set_client. by eexists.
  - intros c2. rewrite lookup_set_client. intros [= <-].
    transitivity (length (TcpStream.closings (stream c1)) + 0 + pending id (sched_view s1).2)%nat; [done|].
    change (reports_due _) with (reports_due c1). unfold reports_due. rewrite Hrf1, (frame_sched _ _ Hf1), (frame_closings _ _ Hcf).
    change (sched_view (set_field _ _ _)) with (sched_view s). cbn [stream set_field].
    pose proof (inv_notified s Hi id c Hc ltac:(done)) as Hn. unfold notified, notifications, reports_due in Hn.
    rewrite Hrf0, Hl, bool_decide_false, andb_true_r in Hn by done.
    unfold TcpStream.on_read_error. destruct (TcpStream.m_close_callback (stream c)) eqn:Ecb; [rewrite TcpStream.closings_emit, length_app|]; cbn in *; lia.
Qed.

Lemma stop_reading_inv {x} s id c : inv x s -> clients s !! id = Some c -> inv x (stop_reading s id).
Proof.
  intros Hi Hc. unfold stop_reading, on_client. rewrite (client_lookup s id c Hc).
  apply (inv_client_change s id c); try done. intros []. split; try done.
  - intros Ha. split; [by apply ok_rejected0|done].
  - intros Hf. destruct (ok_failed0 Hf) as (? & _ & ?). by split_and!.
Qed.

Lemma set_client_twice s id c c' : set_client (set_client s id c) id c' = set_client s id c'.
Proof. unfold set_client. destruct s. cbn. f_equal. by rewrite insert_insert_eq. Qed.

Lemma client_set_client s id c : client (set_client s id c) id = c.
Proof. apply client_lookup. apply lookup_insert_eq. Qed.

Lemma on_stream_set_client s id c f : on_stream (set_client s id c) id f = set_client s id (c <| stream ::= f |>).
Proof. unfold on_stream, on_client. by rewrite client_set_client, set_client_twice. Qed.

Definition notify_view (b : TcpStream.t) := (TcpStream.closings b, TcpStream.m_close_callback b).

Lemma inv_put_stream {x} s id c b : inv x s -> clients s !! id = Some c ->
  TcpStream.writes_ok b -> TcpStream.reads_ok b -> TcpStream.m_tcp_stream b <> None ->
  TcpStream.m_is_open b = TcpStream.m_is_open (stream c) -> notify_view b = notify_view (stream c) ->
  inv x (set_client s id (c <| stream := b |>)).
Proof.
  intros Hi Hc Hw Hr Ht Ho Hn. apply (inv_client_change s id c); [done|done| |done|done|exact Ho|done|].
  - intros Hok. apply client_ok_stream; try done. intros _. by injection Hn.
  - intros _ n. unfold notified, notifications, reports_due. cbn [stream set_field handle read_failed]. injection Hn as -> ->. done.
Qed.

(** A stream with libuv's bytes in its read buffer, and the same after the receive callback was noted. *)
Lemma inv_put_read {x} s id c b1 b : inv x s -> clients s !! id = Some c ->
  TcpStream.core b1 = TcpStream.core (stream c) -> TcpStream.reads_ok b1 ->
  TcpStream.write_view b = TcpStream.write_view b1 -> TcpStream.read_view b = TcpStream.read_view b1 ->
  TcpStream.m_tcp_stream b = TcpStream.m_tcp_stream b1 -> TcpStream.m_is_open b = TcpStream.m_is_open b1 ->
  notify_view b = notify_view b1 -> inv x (set_client s id (c <| stream := b |>)).
Proof.
  intros Hi Hc Hcore Hr1 Hw Hrv Ht Ho Hnv. pose proof (inv_client s Hi id c Hc) as Hok.
  assert (TcpStream.write_view b1 = TcpStream.write_view (stream c)) as Hwv by exact (f_equal TcpStream.write_view Hcore).
  assert (TcpStream.m_tcp_stream b1 = TcpStream.m_tcp_stream (stream c)) as Hts by exact (f_equal TcpStream.m_tcp_stream Hcore).
  assert (TcpStream.m_is_open b1 = TcpStream.m_is_open (stream c)) as Hop by exact (f_equal TcpStream.m_is_open Hcore).
  apply inv_put_stream; [done|done|apply (TcpStream.writes_ok_frame (stream c)); [congruence|apply Hok]|
    by apply (TcpStream.reads_ok_frame b1)|rewrite Ht, Hts; apply Hok|congruence|].
  rewrite Hnv. exact (f_equal notify_view Hcore).
Qed.

Lemma inv_put_received {x} s id c b1 chunk data : inv x s -> clients s !! id = Some c ->
  TcpStream.core b1 = TcpStream.core (stream c) -> TcpStream.reads_ok b1 ->
  inv x (set_client s id (c <| stream := TcpStream.emit b1 (TcpStream.Received chunk data) |>)).
Proof.
  intros Hi Hc Hcore Hr1. apply (inv_put_read s id c b1); try done.
  - unfold TcpStream.write_view. rewrite TcpStream.stream_called_emit. cbn. by rewrite app_nil_r.
  - unfold notify_view. rewrite TcpStream.closings_emit. cbn. by rewrite app_nil_r.
Qed.

(** The end of [on_read] for data: the buffer given up if the callback kept the chunk, the new offset. *)
Lemma settle_inv {x} s id c b1 s' bn n data k off :
  inv x s -> clients s !! id = Some c -> TcpStream.reads_ok b1 -> TcpStream.m_read_buf b1 = Some bn -> TcpStream.chunk_data b1 bn data ->
  let chunk := TcpStream.mkChunk (Some bn) (Z.of_nat (length data)) off in
  TcpStream.retains b1 (stream c) chunk data ->
  (TcpStream.bump n (TcpStream.drop_shared 1
    (on_stream s id (fun b => b <| TcpStream.kept ::= fun l => l ++ replicate k (chunk, data) |>), id))).1 = s' -> inv x s'.
Proof.
  intros Hi Hc Hr1 Eb Hd chunk Hret <-. rewrite (on_stream_lookup s id c _ Hc).
  set (c1 := c <| stream ::= _ |>). pose proof (inv_client s Hi id c Hc) as Hok.
  assert (TcpStream.retains b1 (stream c1) chunk data) as Hret1.
  { destruct Hret as (E1 & E2 & E3 & E4 & E5). split_and!; try done. cbn. intros y d [Hin|Hin]%elem_of_app; [by apply E5|].
    apply elem_of_replicate in Hin as [[= -> ->] _]. by right. }
  pose proof (TcpStream.drop_shared_reads_ok (derived := focus_derived) (set_client s id c1, id) b1 bn data off) as Hgive.
  cbn [base focus_derived fst snd] in Hgive. rewrite client_set_client in Hgive. specialize (Hgive Hr1 Eb Hd Hret1).
  unfold TcpStream.bump, TcpStream.drop_shared in *. cbn [base set_base focus_derived fst snd] in *. rewrite client_set_client in *.
  case_bool_decide; cbn [fst snd] in *; rewrite ?on_stream_set_client, ?client_set_client in *;
    (apply (inv_put_stream s id c); [done|done| | |apply Hok|done|done]); (apply (TcpStream.writes_ok_frame (stream c)); [done|apply Hok]) || exact Hgive.
Qed.

Lemma on_client_read_inv {x} s id c sz data user s' : inv x s -> clients s !! id = Some c -> Receives id user ->
  0 <= sz -> Z.of_nat (length data) <= (TcpStream.alloc_read_buffer (stream c) sz).2.2 ->
  on_client_read s id sz data user = Ret s' -> inv x s'.
Proof.
  intros Hi Hc Hu Hs Hl H. unfold on_client_read in H. pose proof (inv_client s Hi id c Hc) as Hok.
  assert (base (s, id) = stream c) as Ebase by (cbn; by rewrite (client_lookup s id c Hc)).
  match type of H with context [TcpStream.uv_read _ _ _ ?cb ?f] =>
    destruct (TcpStream.uv_read_split (s, id) sz data cb f) as (b1 & bn & Hr1 & Hcore & Eb & Hd & _ & Heq) end;
    [rewrite Ebase; apply Hok|done|by rewrite Ebase|]. cbn zeta in Heq. rewrite Heq in H. clear Heq. rewrite Ebase in *.
  assert (forall b, set_base (s, id) b = (set_client s id (c <| stream := b |>), id)) as Eset.
  { intros b. cbn [set_base focus_derived fst snd]. by rewrite (on_stream_lookup s id c _ Hc). }
  rewrite Eset in H. apply obind_ret_inv in H as ([s2 id2] & H & [= <-]).
  destruct (negb (bool_decide (data = [])) && m_receive_callback (client s id)).
  - apply obind_ret_inv in H as ([s3 id3] & H & [= <- <-]). cbn [set_base focus_derived fst snd] in H. rewrite on_stream_set_client in H.
    apply obind_ret_inv in H as (s4 & H & [= <- <-]). apply Hu in H as (s1 & k & Hcalls & ->).
    set (chunk := TcpStream.mkChunk _ _ _) in *.
    pose proof (inv_put_received s id c b1 chunk data Hi Hc Hcore Hr1) as Hi1.
    destruct (calls_step _ _ Hcalls (server_emit_inv _ _ Hi1)) as [Hi2 Hf2].
    destruct (frame_client _ _ id _ Hf2 (lookup_insert_eq _ _ _)) as (c3 & Hc3 & Hcf).
    eapply (settle_inv s1 id c3 (TcpStream.emit b1 (TcpStream.Received chunk data)) _ bn _ data k); [done|done| |done|done| |reflexivity].
    + by apply (TcpStream.reads_ok_frame b1).
    + destruct Hcf. split_and!; try done. intros y d Hin. left. by apply frame_kept0.
  - injection H as <- _. unfold TcpStream.bump. cbn [base set_base focus_derived fst snd]. rewrite on_stream_set_client, client_set_client.
    by apply (inv_put_read s id c b1).
Qed.

Lemma on_client_shutdown_step {x} s id c : inv x s -> clients s !! id = Some c -> shutdown_req c = true ->
  returns (on_client_shutdown s id) (fun s' => inv x s' /\ s' = set_client s id (c <| shutdown_req := false |> <| handle := Closing |>)).
Proof.
  intros Hi Hc Hsr. unfold on_client_shutdown. rewrite (client_lookup s id c Hc). pose proof (inv_client s Hi id c Hc) as Hok.
  destruct (ok_shutdown c Hok Hsr) as [Ha Hl]. unfold uv_close. cbn [handle set_field]. rewrite bool_decide_true by exact Hl.
  cbn [obind returns]. split; [|done].
  assert (client_is_open c = false) as Ho.
  { destruct (client_is_open c) eqn:Ho; [|done]. destruct (ok_open c Hok Ho) as (_ & _ & ? & _). congruence. }
  apply (inv_set_client s id c); try done; [|by rewrite Hl|intros _ n; unfold notified, notifications; cbn; by rewrite Hl].
  destruct Hok. split; try done; cbn.
  - intros Hx. change (client_is_open c = true) in Hx. congruence.
  - by rewrite Ha.
  - intros Hrf. destruct (ok_refused0 Hrf) as (_ & _ & ?). congruence.
Qed.

Lemma after_write_step {x} s id c i st : inv x s -> clients s !! id = Some c ->
  (i < length (TcpStream.requests (stream c)))%nat -> Z.of_nat (TcpStream.next_send (stream c)) < 2 ^ 64 ->
  returns (after_write s id i st) (fun s' => inv x s' /\ exists b, s' = set_client s id (c <| stream := b |>) /\
    TcpStream.same_stream (stream c) b /\ TcpStream.requests b = delete i (TcpStream.requests (stream c)) /\
    TcpStream.next_send b = TcpStream.next_send (stream c)).
Proof.
  intros Hi Hc Hlt Hb. unfold after_write. rewrite (client_lookup s id c Hc). pose proof (inv_client s Hi id c Hc) as Hok.
  eapply returns_bind; [by apply (TcpStream.after_write_ok (stream c) i st); [apply Hok|..]|].
  intros b (Hw & Hsame & Hreq & Hns). cbn [returns]. rewrite (on_stream_lookup s id c _ Hc). split; [|by exists b].
  apply (set_client_step s id c); [done|done|]. intros _. by apply same_stream_step.
Qed.

(** *** [on_new_connection] *)

(** The connection as [on_new_connection] creates it, before and after [uv_tcp_init]. *)
Definition fresh_client : Client :=
  new_client <| stream ::= fun b => b <| TcpStream.m_tcp_stream := Some 0%nat |> <| TcpStream.next_handle := 1%nat |> |>.
Definition inited_client : Client := fresh_client <| handle := Live |>.

Lemma fresh_client_ok (h : Handle) : h = Fresh \/ h = Live -> client_ok (fresh_client <| handle := h |>).
Proof.
  intros Hh. split; cbn; try done.
  - apply (TcpStream.writes_ok_frame TcpStream.create); [done|apply TcpStream.create_writes_ok].
  - apply (TcpStream.reads_ok_frame TcpStream.create); [done|apply TcpStream.create_reads_ok].
Qed.

Lemma pending_none id l : (forall e, ReadError id e ∉ l) -> pending id l = 0%nat.
Proof.
  induction l as [|c l IH]; intros H; [done|]. assert (pending id l = 0%nat) as E by (apply IH; intros e Hin; apply (H e); by right).
  unfold pending in *. cbn. destruct c as [| | |i e]; cbn; try done. destruct (Nat.eqb_spec i id) as [->|]; [|done].
  destruct (H e). by left.
Qed.

Lemma pending_internal id l : pending id (List.filter internal l) = pending id l.
Proof.
  induction l as [|c l IH]; [done|]. unfold pending in *. cbn. destruct c as [| | |i e]; cbn; rewrite ?IH; try done.
  destruct (Nat.eqb i id); cbn; by rewrite IH.
Qed.

Lemma pending_app id l k : pending id (l ++ k) = (pending id l + pending id k)%nat.
Proof. unfold pending. by rewrite List.filter_app, length_app. Qed.

Lemma add_client_inv {x} s c : inv x s -> client_ok c -> accepted c = false -> client_is_open c = false ->
  notified 0 c -> inv x (set_client (s <| next_client ::= S |>) (next_client s) c).
Proof.
  intros [H1 H2 H3 H4 H5 H6 H7] Hok Ha Ho Hn.
  assert (clients s !! next_client s = None) as Hnone.
  { destruct (clients s !! next_client s) eqn:E; [|done]. pose proof (H3 _ (ex_intro _ _ E)). lia. }
  split; cbn; [| | | |done| |].
  - intros id c'. destruct (decide (id = next_client s)) as [->|Hne]; [rewrite lookup_insert_eq; by intros [= <-]|].
    rewrite lookup_insert_ne by done. apply H1.
  - intros id. rewrite H2. destruct (decide (id = next_client s)) as [->|Hne].
    + rewrite lookup_insert_eq, Hnone. split; [by intros (? & ? & _)|]. intros (c' & [= <-] & Hx & _). congruence.
    + by rewrite lookup_insert_ne.
  - intros id. destruct (decide (id = next_client s)) as [->|Hne]; [lia|]. rewrite lookup_insert_ne by done. intros Hs%H3. lia.
  - intros Hcl id c'. destruct (decide (id = next_client s)) as [->|Hne]; [rewrite lookup_insert_eq; by intros [= <-]|].
    rewrite lookup_insert_ne by done. by apply H4.
  - intros id e Hin. destruct (H6 id e Hin) as (c0 & Hc0 & Hf0). exists c0. rewrite lookup_insert_ne by congruence. done.
  - intros id c'. destruct (decide (id = next_client s)) as [->|Hne]; [|rewrite lookup_insert_ne by done; apply H7].
    rewrite lookup_insert_eq. intros [= <-] _. change (sched_view (set_client _ _ _)) with (sched_view s).
    rewrite pending_none; [done|]. intros e Hin. destruct (H6 _ e Hin) as (c0 & Hc0 & _). congruence.
Qed.

Lemma accept_inv {x} s id c endpoint : inv x s -> clients s !! id = Some c -> handle c = Live -> ~ closing s ->
  shutdown_req c = false -> refused c = false ->
  inv x ((set_client s id ((set_endpoint c endpoint) <| accepted := true |>)) <| m_client_connections ::= fun l => {[id]} ∪ l |>).
Proof.
  intros [H1 H2 H3 H4 H5 H6 H7] Hc Hl Hcl Hsr Href. pose proof (H1 id c Hc) as [Hw Hr Ht _ _ _ _ _ _ Hfl]. split; cbn; [| | | |done| |].
  - intros id' c'. destruct (decide (id' = id)) as [->|Hne]; [|rewrite lookup_insert_ne by done; apply H1].
    rewrite lookup_insert_eq. intros [= <-]. split; cbn; try done; try congruence; try by left.
    intros Hf. by destruct (Hfl Hf) as (_ & ? & ?).
  - intros id'. rewrite elem_of_union, elem_of_singleton, H2. destruct (decide (id' = id)) as [->|Hne].
    + rewrite lookup_insert_eq. split; [intros _|by left]. eexists. split; [done|]. cbn. by rewrite Hl.
    + rewrite lookup_insert_ne by done. split; [by intros [?|?]|by right].
  - intros id'. destruct (decide (id' = id)) as [->|Hne]; [intros _; apply H3; by eexists|]. rewrite lookup_insert_ne by done. apply H3.
  - intros Hx. by destruct Hcl.
  - intros id' e Hin. destruct (H6 id' e Hin) as (c0 & Hc0 & Hf0). destruct (decide (id' = id)) as [->|Hne].
    + rewrite lookup_insert_eq. eexists. split; [done|]. cbn. congruence.
    + rewrite lookup_insert_ne by done. by exists c0.
  - intros id' c'. destruct (decide (id' = id)) as [->|Hne]; [|rewrite lookup_insert_ne by done; apply H7].
    rewrite lookup_insert_eq. intros [= <-] Hx. exact (H7 id c Hc Hx).
Qed.

(** A refused [uv_read_start]: one more report is due, and is scheduled. *)
Lemma schedule_read_error_inv s id c e : inv (Some id) s -> clients s !! id = Some c -> read_failed c = true ->
  notified (S (pending id (sched_view s).2)) c -> inv None (schedule_callback s (ReadError id e)).
Proof.
  intros [H1 H2 H3 H4 H5 H6 H7] Hc Hf Hn.
  assert (forall id', pending id' (sched_view (schedule_callback s (ReadError id e))).2 =
    (pending id' (sched_view s).2 + (if Nat.eqb id id' then 1 else 0))%nat) as Hp.
  { intros id'. unfold sched_view. cbn. rewrite List.filter_app, pending_app. cbn. unfold pending at 2. cbn. by destruct (Nat.eqb id id'). }
  split; try done.
  - unfold sched_view; cbn; rewrite List.filter_app; cbn. rewrite List.filter_app. cbn. by rewrite app_nil_r.
  - unfold sched_view; cbn; rewrite List.filter_app; cbn.
    intros id' e' [Hin|Hin]%elem_of_app; [by apply (H6 id' e')|]. apply list_elem_of_singleton in Hin as [= -> ->]. by exists c.
  - intros id' c' Hc' _. rewrite Hp. destruct (Nat.eqb_spec id id') as [<-|Hne].
    + change (clients s !! id = Some c') in Hc'. rewrite Hc in Hc'. injection Hc' as <-. by rewrite Nat.add_1_r.
    + rewrite Nat.add_0_r. apply (H7 id' c' Hc'). congruence.
Qed.

Lemma start_read_inv s id c rcb st : inv None s -> clients s !! id = Some c -> client_is_open c = true -> read_failed c = false -> reading c = false ->
  TcpStream.m_close_callback (stream c) = true -> inv None (start_read s id rcb st).
Proof.
  intros Hi Hc Ho Hf Hr Hcb. destruct (ok_open c (inv_client s Hi id c Hc) Ho) as (Ha & _).
  assert (forall c', client_ok c -> stream c' = stream c -> handle c' = handle c -> shutdown_req c' = shutdown_req c -> accepted c' = accepted c ->
    refused c' = refused c -> (read_failed c' = true -> reading c' = false) -> client_ok c') as Hsame.
  { intros c' [] E1 E2 E3 E4 E5 E6. split; unfold client_is_open in *; rewrite ?E1, ?E2, ?E3, ?E4, ?E5; try done; [by rewrite Ha|].
    intros E. rewrite Hcb. by split_and!; auto. }
  unfold start_read, on_client. rewrite (client_lookup s id c Hc), !client_set_client, !set_client_twice.
  destruct (error_bool _).
  - eapply schedule_read_error_inv; [|apply lookup_insert_eq|done|].
    + apply (inv_client_change s id c); [by apply inv_exempt|done| |done..]. intros Hok. by apply Hsame.
    + pose proof (inv_notified s Hi id c Hc ltac:(done)) as Hn. unfold notified, reports_due in *. rewrite Hf in Hn. cbn [read_failed set_field].
      change (notifications _) with (notifications c). change (sched_view (set_client _ _ _)) with (sched_view s). lia.
  - apply (inv_client_change s id c); try done.
    intros Hok. apply Hsame; try done. cbn. congruence.
Qed.

(** A rejected connection: the new-connection callback, if any, then removal. *)
Lemma rejected_inv {x} s id c user e s' (b : bool) : inv x s -> clients s !! id = Some c -> Calls user ->
  (let* s := if b then new_connection_callback s id e user else Ret s in Ret (schedule_client_removal s id)) = Ret s' -> inv x s'.
Proof.
  intros Hi Hc Hu H. apply obind_ret_inv in H as (s1 & H & [= <-]). destruct b; [|injection H as <-; by eapply removal_inv].
  destruct (guarded_calls_inv s id e user s1 Hu Hi H) as [Hi1 Hf1].
  destruct (frame_client _ _ id c Hf1 Hc) as (c1 & Hc1 & _). by eapply removal_inv.
Qed.

Lemma init_stream_fresh st : TcpStream.init_stream (stream new_client) st = Ret (stream fresh_client, Error_of_uv st) \/
  TcpStream.init_stream (stream new_client) st = Ret (stream fresh_client, Error_of_uv 0).
Proof. unfold TcpStream.init_stream. cbn. destruct (error_bool (Error_of_uv st)); [by left|by right]. Qed.

Lemma on_new_connection_inv s i nu cu s' : inv None s -> ~ closing s -> Calls nu -> Calls cu ->
  on_new_connection s i nu cu = Ret s' -> inv None s'.
Proof.
  intros Hi Hcl Hnu Hcu H. unfold on_new_connection in H. set (id := next_client s) in *.
  set (s0 := s <| next_client ::= S |>) in *.
  assert (exists e, TcpStream.init_stream (stream new_client) (init_status i) = Ret (stream fresh_client, e)) as [ie Hinit]
    by (destruct (init_stream_fresh (init_status i)); by eexists).
  rewrite Hinit in H. cbn [obind] in H. change (new_client <| stream := stream fresh_client |>) with fresh_client in H.
  pose proof (add_client_inv s fresh_client Hi (fresh_client_ok Fresh ltac:(by left)) eq_refl eq_refl ltac:(done)) as Hi1.
  fold id s0 in Hi1. set (s1 := set_client s0 id fresh_client) in *.
  assert (clients s1 !! id = Some fresh_client) as Hc1 by apply lookup_insert_eq.
  destruct (error_bool ie); [exact (rejected_inv s1 id fresh_client nu ie s' (m_new_connection_callback s1) Hi1 Hc1 Hnu H)|].
  assert (on_client s1 id (fun c => c <| handle := Live |>) = set_client s0 id inited_client) as E2
    by (unfold on_client, s1; by rewrite client_set_client, set_client_twice).
  rewrite E2 in H. clear E2.
  pose proof (add_client_inv s inited_client Hi (fresh_client_ok Live ltac:(by right)) eq_refl eq_refl ltac:(done)) as Hi2.
  fold id s0 in Hi2. set (s2 := set_client s0 id inited_client) in *.
  assert (clients s2 !! id = Some inited_client) as Hc2 by apply lookup_insert_eq.
  destruct (error_bool (Error_of_uv (status i)));
    [exact (rejected_inv s2 id inited_client nu _ s' (m_new_connection_callback s2) Hi2 Hc2 Hnu H)|].
  destruct (accept_status i =? 0); cbn [negb] in H.
  2:{ destruct (m_new_connection_callback s2); [|done]. exact (rejected_inv s2 id inited_client nu _ s' true Hi2 Hc2 Hnu H). }
  destruct (error_bool (Error_of_uv (getpeername_status i))); cbn [negb] in H.
  - apply obind_ret_inv in H as (s3 & H & [= <-]).
    assert (inv None s3 /\ exists c3, clients s3 !! id = Some c3) as [Hi3 [c3 Hc3]]; [|by eapply removal_inv].
    destruct (m_new_connection_callback s2); cbn [negb] in H; [|injection H as <-; split; [done|by eexists]]. case_bool_decide.
    + apply obind_ret_inv in H as (s4 & H & H4). destruct (guarded_calls_inv _ _ _ _ _ Hnu Hi2 H) as [Hi4 Hf4].
      destruct (m_close_connection_callback s4); [|done]. destruct (calls_step _ _ (Hcu _ _ H4) (server_emit_inv _ _ Hi4)) as [Hi5 Hf5].
      split; [done|]. destruct (frame_client _ _ id _ Hf4 Hc2) as (c4 & Hc4 & _). destruct (frame_client _ _ id _ Hf5 Hc4) as (c5 & Hc5 & _). by eexists.
    + destruct (guarded_calls_inv _ _ _ _ _ Hnu Hi2 H) as [Hi4 Hf4]. split; [done|].
      destruct (frame_client _ _ id _ Hf4 Hc2) as (c4 & Hc4 & _). by eexists.
  - apply obind_ret_inv in H as (e & _ & H).
    pose proof (accept_inv s2 id inited_client e Hi2 Hc2 eq_refl Hcl eq_refl eq_refl) as Hi3.
    assert (on_client s2 id (fun c => (set_endpoint c e) <| accepted := true |>) = set_client s2 id ((set_endpoint inited_client e) <| accepted := true |>)) as E3
      by (unfold on_client; by rewrite (client_lookup s2 id inited_client Hc2)).
    rewrite E3 in H. clear E3. set (s3 := (set_client s2 id _) <| m_client_connections ::= _ |>) in *.
    apply obind_ret_inv in H as (s4 & H & H5).
    set (c3 := (set_endpoint inited_client e) <| accepted := true |>) in *.
    assert (clients s3 !! id = Some c3) as Hc3 by apply lookup_insert_eq.
    assert (inv None s4 /\ exists c4, clients s4 !! id = Some c4 /\ client_frame c3 c4) as (Hi4 & c4 & Hc4 & Hcf).
    { destruct (m_new_connection_callback s3); [|injection H as <-; split; [done|by exists c3]].
      destruct (guarded_calls_inv _ _ _ _ _ Hnu Hi3 H) as [Hi4 Hf4]. split; [done|]. by apply (frame_client _ _ id c3 Hf4). }
    destruct (client_is_open (client s4 id)) eqn:Ho; [|by injection H5 as <-]. injection H5 as <-.
    rewrite (client_lookup s4 id c4 Hc4) in Ho. apply (start_read_inv s4 id c4); try done;
      [by rewrite (frame_read_failed _ _ Hcf)|by rewrite (frame_reading _ _ Hcf)|by rewrite (frame_close_callback _ _ Hcf)].
Qed.

(** *** The server's own callbacks *)

Lemma on_close_inv {x} s s' : inv x (s <| m_server_handle := Some ServerClosing |>) -> on_close s = Ret s' -> inv x s'.
Proof.
  intros [H1 H2 H3 H4 H5 H6 H7] H. unfold on_close in H. cbn in H5, H6. specialize (H4 (or_introl eq_refl)).
  case_bool_decide; cbn [negb] in H.
  - apply obind_ret_inv in H as (s1 & H & [= <-]).
    assert (clients s1 = clients s /\ m_client_connections s1 = m_client_connections s /\ next_client s1 = next_client s /\
            List.filter internal (scheduled s1) = List.filter internal (scheduled s)) as (E1 & E2 & E3 & E4).
    { destruct (m_end_server_callback s); [injection H as <-; cbn; by rewrite List.filter_app, app_nil_r|].
      destruct (m_removal_scheduled s) eqn:Er; [|by injection H as <-]. unfold schedule_removal in H. rewrite Er in H. by injection H as <-. }
    split; unfold sched_view; cbn; rewrite ?E1, ?E2, ?E3, ?E4; try done; by intros [].
  - injection H as <-. split; try done; unfold sched_view; cbn; rewrite List.filter_app; cbn.
    + rewrite List.filter_app, length_app, H5. done.
    + intros id e [Hin|Hin]%elem_of_app; [by apply (H6 id e)|]. by apply list_elem_of_singleton in Hin.
    + intros id c Hc Hx. rewrite pending_app, Nat.add_0_r. by apply (H7 id).
Qed.

Lemma read_error_scheduled_inv s id e rest : inv None s -> scheduled s = ReadError id e :: rest -> inv (Some id) (s <| scheduled := rest |>).
Proof.
  intros [H1 H2 H3 H4 H5 H6 H7] Es. unfold sched_view in H5, H6, H7. rewrite Es in H5, H6, H7. cbn in H5, H6, H7.
  split; unfold sched_view; cbn; try done; [intros id' e' Hin; apply (H6 id' e'); by right|]. intros id' c' Hc' Hne.
  specialize (H7 id' c' Hc' ltac:(done)). unfold pending in H7. cbn in H7. rewrite (proj2 (Nat.eqb_neq id id')) in H7 by congruence. done.
Qed.

Lemma run_scheduled_inv s user s' : inv None s -> Calls user -> run_scheduled s user = Ret s' -> inv None s'.
Proof.
  intros Hi Hu H. unfold run_scheduled in H. destruct (scheduled s) as [|c rest] eqn:Es; [by injection H as <-|].
  assert (internal c = false -> inv None (s <| scheduled := rest |>)) as Hext.
  { intros Hc. apply (inv_server s); try done; [|by left]. unfold sched_view. cbn. rewrite Es. cbn. by rewrite Hc. }
  destruct c as [|cb| |id e].
  - destruct (m_end_server_callback _); [|done]. by apply (calls_step _ _ (Hu _ _ H)), server_emit_inv, Hext.
  - by apply (calls_step _ _ (Hu _ _ H)), server_emit_inv, Hext.
  - revert H. apply on_close_inv. destruct Hi as [H1 H2 H3 H4 H5 H6 H7].
    unfold sched_view in H5, H6, H7. rewrite Es in H5, H6, H7. cbn in H5, H6, H7. case_bool_decide as Ecl; [|done].
    split; unfold sched_view; cbn; try done; [by intros _; apply H4; right|by injection H5 as ->|]. intros id e Hin. apply (H6 id e). by right.
  - destruct (inv_read_errors s Hi id e) as (c & Hc & Hf); [unfold sched_view; rewrite Es; by left|].
    pose proof (read_error_scheduled_inv s id e rest Hi Es) as Hi1.
    assert (clients (s <| scheduled := rest |>) !! id = Some c) as Hc1 by exact Hc. set (s1 := s <| scheduled := rest |>) in *.
    destruct (on_client_read_error_inv s1 id c e user s' Hi1 Hc1 Hu H) as [Hi2 Hf2]. apply (inv_settled _ id); [done|].
    rewrite (on_stream_lookup s1 id c _ Hc1) in Hf2. intros c2 Hc2. destruct (frame_client _ _ id _ Hf2 (lookup_insert_eq _ _ _)) as (c3 & Hc3 & Hcf).
    rewrite Hc3 in Hc2. injection Hc2 as <-. apply (frame_notified _ _ _ Hcf). rewrite (frame_sched _ _ Hf2).
    change (sched_view (set_field _ _ _)) with (sched_view s1).
    pose proof (inv_notified s Hi id c Hc ltac:(done)) as Hn. unfold sched_view in Hn. rewrite Es in Hn. cbn in Hn.
    unfold pending in Hn. cbn in Hn. rewrite Nat.eqb_refl in Hn. cbn in Hn.
    destruct (ok_failed c (inv_client s Hi id c Hc) Hf) as (_ & _ & Hcb).
    unfold notified, notifications, reports_due in *. cbn [stream set_field handle read_failed]. unfold TcpStream.on_read_error. rewrite Hcb in *.
    rewrite TcpStream.closings_emit, length_app, Hf in *. unfold pending, sched_view, s1. cbn in *. rewrite Hcb. cbn [andb]. lia.
Qed.

(** Every call by user code or by libuv keeps the invariant. *)
Lemma server_step_inv s s' : step s s' -> inv None s -> inv None s'.
Proof.
  intros H Hi. destruct H as [s' H|i nu cu s' Hl Hnu Hcu H|id c sz data user s' Hc Hl Hr Hu Hs Hlen H|id c nread gs v user s' Hc Hl Hr Hu H
    |id c s' Hc Hsr H|id c user s' Hc Hh Hrq Hu H|id c i st s' Hc Hlt Hb H|s' Hh H|user s' Hu H].
  - by apply (api_step s).
  - apply (on_new_connection_inv s i nu cu); try done. unfold closing. rewrite Hl. by intros [].
  - by apply (on_client_read_inv s id c sz data user).
  - destruct (on_client_read_failed_inv s id c nread gs v user s' Hi Hc Hl Hr Hu H) as [Hi' [c' Hc']]. by eapply stop_reading_inv.
  - pose proof (on_client_shutdown_step s id c Hi Hc Hsr) as Hr. rewrite H in Hr. by destruct Hr.
  - by apply (on_client_close_inv s id c user).
  - pose proof (after_write_step s id c i st Hi Hc Hlt Hb) as Hr. rewrite H in Hr. by destruct Hr.
  - apply (on_close_inv s); [|done]. destruct s. cbn in *. by subst.
  - by apply (run_scheduled_inv s user).
Qed.

Lemma tcp_reachable_inv s : rtc step create s -> inv None s.
Proof.
  intros H. assert (forall s0, rtc step s0 s -> inv None s0 -> inv None s) as Hgen.
  { intros s0. induction 1 as [|s0 s1 s2 H1 H2 IH]; [done|]. intros Hi. by apply IH, (server_step_inv s0). }
  apply (Hgen create H), create_inv.
Qed.

(** ** Theorems *)

(** C18. The server's set of connections is right in every run, whatever user callbacks do: it holds exactly the
    accepted connections whose handle is not closed yet, among them every open one; no connection is
    open once the server closes; a connection's counter of pending writes is the number of requests
    libuv has; and no [assert] on a connection fails: closing it, and the shutdown callback that closes
    its handle, find a handle that is not closing yet. *)
Theorem connections_tracked s :
  rtc step create s ->
  (forall id, id ∈ m_client_connections s <->
     exists c, clients s !! id = Some c /\ accepted c = true /\ handle c <> Gone) /\
  (forall id c, clients s !! id = Some c ->
     (client_is_open c = true -> id ∈ m_client_connections s /\ ~ closing s) /\
     TcpStream.pending_write_requests (stream c) = wrap 64 (Z.of_nat (length (TcpStream.requests (stream c)))) /\
     returns (close_client s id) (fun s' => client_is_open (client s' id) = false) /\
     (shutdown_req c = true -> returns (on_client_shutdown s id) (fun s' => handle (client s' id) = Closing))).
Proof.
  intros H. pose proof (tcp_reachable_inv s H) as Hi. split; [exact (inv_member s Hi)|].
  intros id c Hc. pose proof (inv_client s Hi id c Hc) as Hok. split_and!.
  - intros Ho. destruct (ok_open c Hok Ho) as (Ha & Hl & _). split.
    + apply (inv_member s Hi). exists c. by rewrite Hl.
    + intros Hcl. by rewrite (inv_closing s Hi Hcl id c Hc) in Ho.
  - apply (ok_writes c Hok).
  - eapply returns_mono; [exact (close_client_step s id c Hi Hc)|]. by intros s' (_ & _ & _ & ?).
  - intros Hsr. eapply returns_mono; [exact (on_client_shutdown_step s id c Hi Hc Hsr)|]. intros s' [_ ->]. by rewrite client_set_client.
Qed.

(** C19. The close callback of a connection is called exactly once: in every run, for every connection, the calls
    made so far, those scheduled and the one still to come when its handle closes add up to one; when
    its handle is closed there was exactly one, whether the connection was closed, shut down, reset,
    ended by the peer or failed, and whatever the callbacks did.  The exception is a connection whose reading libuv refused
    to start: it is reported with that error and again when it closes, so that it adds up to two. *)
Theorem close_callback_called_once s id c :
  rtc step create s -> clients s !! id = Some c ->
  let reports := length (TcpStream.closings (stream c)) in
  (notifications c + pending id (scheduled s))%nat = (if read_failed c then 2 else 1)%nat /\
  (reports <= if read_failed c then 2 else 1)%nat /\
  (handle c = Gone -> if read_failed c then (reports + pending id (scheduled s))%nat = 2%nat else reports = 1%nat).
Proof.
  intros H Hc. cbn zeta. pose proof (tcp_reachable_inv s H) as Hi. pose proof (inv_notified s Hi id c Hc ltac:(done)) as Hn.
  unfold sched_view in Hn. cbn [snd] in Hn. rewrite pending_internal in Hn. unfold notified, reports_due in Hn. split_and!; [done| |].
  - unfold notifications in Hn. destruct (read_failed c); lia.
  - intros Hg. unfold notifications in Hn. rewrite Hg, bool_decide_true, andb_false_r in Hn by done. destruct (read_failed c) eqn:Ef; [lia|].
    assert (pending id (scheduled s) = 0%nat) as E; [|lia]. rewrite <- pending_internal. apply pending_none. intros e Hin.
    destruct (inv_read_errors s Hi id e Hin) as (c0 & Hc0 & ?). congruence.
Qed.

(** The server ends only after its connections: when [on_close] runs, either some connection is left, and
    then it is run again later and the end callback is not called, or every accepted connection is
    closed and had its close callback, and the end callback is scheduled and given up. *)
Theorem server_waits_for_connections s callback s' :
  rtc step create s -> m_server_handle s = Some ServerClosing \/ m_server_handle s = Some ServerClosed ->
  m_end_server_callback s = Some callback -> on_close s = Ret s' ->
  (m_client_connections s <> ∅ /\ scheduled s' = scheduled s ++ [OnCloseAgain] /\ m_end_server_callback s' = Some callback /\
   m_server_handle s' = Some ServerClosed) \/
  (m_client_connections s = ∅ /\ scheduled s' = scheduled s ++ [EndCallback callback] /\ m_end_server_callback s' = None /\
   m_server_handle s' = None /\
   forall id c, clients s !! id = Some c -> accepted c = true -> handle c = Gone /\
     (read_failed c = false -> length (TcpStream.closings (stream c)) = 1%nat)).
Proof.
  intros H _ Hcb Hrun. pose proof (tcp_reachable_inv s H) as Hi. unfold on_close, connected_clients_count in Hrun. rewrite Hcb in Hrun.
  case_bool_decide as Hsz; cbn [negb obind] in Hrun; injection Hrun as <-.
  - right. apply size_empty_inv, leibniz_equiv in Hsz. split_and!; try done. intros id c Hc Ha.
    assert (handle c = Gone) as Hg.
    { destruct (decide (handle c = Gone)) as [|Hne]; [done|]. exfalso. apply (not_elem_of_empty (C := gset nat) id). rewrite <- Hsz.
      apply (inv_member s Hi). by exists c. }
    split; [done|]. intros Hf. pose proof (inv_notified s Hi id c Hc ltac:(done)) as Hn. unfold notified, notifications, reports_due in Hn.
    rewrite Hf, Hg, bool_decide_true, andb_false_r in Hn by done.
    rewrite pending_none in Hn; [lia|]. intros e Hin. destruct (inv_read_errors s Hi id e Hin) as (c0 & Hc0 & ?). congruence.
  - left. split_and!; try done. intros E. apply Hsz. rewrite E. apply size_empty.
Qed.

(** A refused [uv_shutdown] or [uv_tcp_close_reset] leaves the connection where nothing closes it: it stays in
    the server's set, so that [on_close] is only ever scheduled again. *)
Theorem refused_connection_blocks_server s id c :
  rtc step create s -> clients s !! id = Some c -> refused c = true ->
  id ∈ m_client_connections s /\
  on_close s = Ret (schedule_callback (s <| m_server_handle := Some ServerClosed |>) OnCloseAgain) /\
  (forall s', close_client s id = Ret s' -> client s' id = c).
Proof.
  intros H Hc Hr. pose proof (tcp_reachable_inv s H) as Hi. pose proof (inv_client s Hi id c Hc) as Hok.
  destruct (ok_refused c Hok Hr) as (Ha & Hl & _).
  assert (id ∈ m_client_connections s) as Hin by (apply (inv_member s Hi); exists c; by rewrite Hl). split_and!; [done| |].
  - unfold on_close, connected_clients_count. rewrite bool_decide_false; [done|]. intros Hsz.
    apply size_empty_inv, leibniz_equiv in Hsz. rewrite Hsz in Hin. by apply not_elem_of_empty in Hin.
  - intros s' Hcl. unfold close_client, client_close in Hcl. rewrite (client_lookup s id c Hc) in Hcl.
    destruct (client_is_open c) eqn:Ho; [destruct (ok_open c Hok Ho) as (_ & _ & _ & ?); congruence|].
    injection Hcl as <-. by rewrite client_set_client.
Qed.

(** ** Closing completes *)

(** Only connection [id] has changed. *)
Definition only (id : nat) (s s' : t) : Prop :=
  m_server_handle s' = m_server_handle s /\ m_end_server_callback s' = m_end_server_callback s /\ scheduled s' = scheduled s /\
  (forall id', id' <> id -> clients s' !! id' = clients s !! id').

Lemma only_set_client s id c : only id s (set_client s id c).
Proof. split_and!; try done. intros id' Hne. cbn. by rewrite lookup_insert_ne. Qed.

Lemma only_trans id s1 s2 s3 : only id s1 s2 -> only id s2 s3 -> only id s1 s3.
Proof.
  intros (A1 & A2 & A3 & A4) (B1 & B2 & B3 & B4). split_and!; try congruence. intros id' Hne. by rewrite B4, A4.
Qed.

(** A callback that does nothing. *)
Lemma calls_ret : Calls Ret.
Proof. by intros s s' [= <-]. Qed.

(** libuv answers the write requests of a closing connection. *)
Lemma drain_writes n s id c : inv None s -> clients s !! id = Some c -> length (TcpStream.requests (stream c)) = n ->
  Z.of_nat (TcpStream.next_send (stream c)) < 2 ^ 64 ->
  exists s' c', rtc step s s' /\ inv None s' /\ only id s s' /\ m_client_connections s' = m_client_connections s /\
    clients s' !! id = Some c' /\ TcpStream.requests (stream c') = [] /\ handle c' = handle c.
Proof.
  revert s c. induction n as [|n IH]; intros s c Hi Hc Hn Hb.
  - exists s, c. split_and!; try done. by apply length_zero_iff_nil.
  - pose proof (after_write_step s id c 0 0 Hi Hc ltac:(lia) Hb) as Hr. destruct (after_write s id 0 0) as [s1|] eqn:E; [|done].
    destruct Hr as (Hi1 & b & -> & _ & Hreq & Hns).
    destruct (IH (set_client s id (c <| stream := b |>)) (c <| stream := b |>) Hi1) as (s' & c' & Hrun & Hi' & Ho & Hcon & Hc' & Hr' & Hh').
    + apply lookup_insert_eq.
    + cbn. rewrite Hreq. destruct (TcpStream.requests (stream c)) as [|r l]; [done|]. change (length l = n). by injection Hn.
    + cbn. by rewrite Hns.
    + exists s', c'. split_and!; try done; [|by eapply only_trans; [apply only_set_client|]].
      eapply rtc_l; [|exact Hrun]. apply (step_write_done s id c 0 0); [exact Hc|lia|exact Hb|exact E].
Qed.

Lemma on_client_close_ret s id c : clients s !! id = Some c ->
  exists s', on_client_close s id Ret = Ret s' /\ only id s s' /\ m_client_connections s' = m_client_connections s ∖ {[id]}.
Proof.
  intros Hc. unfold on_client_close, on_client. rewrite (client_lookup s id c Hc).
  set (s1 := remove_client_connection _ id). assert (only id s s1) as Ho1.
  { split_and!; try done. intros id' Hne. cbn. by rewrite lookup_insert_ne. }
  set (m := if TcpStream.m_close_callback _ then _ else _).
  assert (exists s2, m = Ret s2 /\ only id s1 s2 /\ m_client_connections s2 = m_client_connections s1) as (s2 & -> & Ho2 & Hm2).
  { unfold m. destruct (TcpStream.m_close_callback _); [|by exists s1].
    unfold on_client_close_callback. set (s1' := on_stream s1 id _).
    assert (only id s1 s1' /\ m_client_connections s1' = m_client_connections s1) as [H1 H2] by (split; [apply only_set_client|done]).
    destruct (m_close_connection_callback s1'); eexists; (split; [reflexivity|]); [|by split]. split; [|done].
    eapply only_trans; [exact H1|]. by split_and!. }
  cbn [obind]. eexists. split; [reflexivity|]. split; [|exact Hm2].
  eapply only_trans; [exact Ho1|]. eapply only_trans; [exact Ho2|].
  eapply only_trans; [apply only_set_client|apply only_set_client].
Qed.

(** A connection of a closing server goes away. *)
Lemma finish_client s id c : inv None s -> closing s -> clients s !! id = Some c ->
  id ∈ m_client_connections s -> refused c = false -> Z.of_nat (TcpStream.next_send (stream c)) < 2 ^ 64 ->
  exists s', rtc step s s' /\ only id s s' /\ m_client_connections s' = m_client_connections s ∖ {[id]}.
Proof.
  intros Hi Hh Hc Hin Href Hb. pose proof (inv_client s Hi id c Hc) as Hok.
  assert (client_is_open c = false) as Hop by (apply (inv_closing s Hi Hh id c Hc)).
  assert (accepted c = true /\ handle c <> Gone) as [Ha Hng].
  { apply (inv_member s Hi) in Hin as (c0 & Hc0 & ? & ?). by replace c with c0 by congruence. }
  assert (exists s1 c1, rtc step s s1 /\ inv None s1 /\ only id s s1 /\ m_client_connections s1 = m_client_connections s /\
    clients s1 !! id = Some c1 /\ handle c1 = Closing /\ TcpStream.next_send (stream c1) = TcpStream.next_send (stream c))
    as (s1 & c1 & Hr1 & Hi1 & Ho1 & Hm1 & Hc1 & Hh1 & Hns1).
  { destruct (handle c) eqn:Eh; [by destruct (ok_handle c Hok Ha)| |by exists s, c|done].
    destruct (ok_progress c Hok Ha Eh) as [?|[Hsr|?]]; [congruence| |congruence].
    pose proof (on_client_shutdown_step s id c Hi Hc Hsr) as Hr. destruct (on_client_shutdown s id) as [s1|] eqn:E; [|done].
    destruct Hr as [Hi1 ->]. eexists _, _. split_and!; [|exact Hi1|apply only_set_client|done|apply lookup_insert_eq|done|done].
    apply rtc_once. by eapply step_shutdown_done. }
  destruct (drain_writes _ s1 id c1 Hi1 Hc1 eq_refl ltac:(by rewrite Hns1)) as (s2 & c2 & Hr2 & Hi2 & Ho2 & Hm2 & Hc2 & Hreq & Hh2).
  destruct (on_client_close_ret s2 id c2 Hc2) as (s3 & E3 & Ho3 & Hm3).
  exists s3. split_and!.
  - etransitivity; [exact Hr1|]. etransitivity; [exact Hr2|]. apply rtc_once.
    apply (step_closed s2 id c2 Ret); [done|congruence|done|exact calls_ret|done].
  - eapply only_trans; [exact Ho1|]. by eapply only_trans.
  - congruence.
Qed.

Lemma finish_clients n s : inv None s -> closing s -> size (m_client_connections s) = n ->
  (forall id c, id ∈ m_client_connections s -> clients s !! id = Some c ->
     refused c = false /\ Z.of_nat (TcpStream.next_send (stream c)) < 2 ^ 64) ->
  exists s', rtc step s s' /\ m_server_handle s' = m_server_handle s /\ m_client_connections s' = ∅ /\
    m_end_server_callback s' = m_end_server_callback s /\ scheduled s' = scheduled s.
Proof.
  revert s. induction n as [|n IH]; intros s Hi Hh Hn Hall.
  - exists s. split_and!; try done. by apply size_empty_inv, leibniz_equiv in Hn.
  - assert (exists id, id ∈ m_client_connections s) as [id Hin].
    { destruct (set_choose_or_empty (m_client_connections s)) as [?|E]; [done|]. apply leibniz_equiv in E. rewrite E, size_empty in Hn. lia. }
    pose proof Hin as (c & Hc & Ha & Hg)%(inv_member s Hi). destruct (Hall id c Hin Hc) as [Href Hb].
    destruct (finish_client s id c Hi Hh Hc Hin Href Hb) as (s1 & Hr1 & (Eh & Ee & Es & Ec) & Hm1).
    assert (inv None s1) as Hi1.
    { clear -Hi Hr1. induction Hr1 as [|s s1 s2 H1 _ IH]; [done|]. by apply IH, (server_step_inv s). }
    destruct (IH s1 Hi1) as (s2 & Hr2 & Hh2 & Hm2 & He2 & Hs2).
    + unfold closing. by rewrite Eh.
    + rewrite Hm1, size_difference, size_singleton; [lia|]. by apply singleton_subseteq_l.
    + intros id' c' Hin' Hc'. rewrite Hm1 in Hin'. apply elem_of_difference in Hin' as [Hin' Hne%not_elem_of_singleton].
      rewrite Ec in Hc' by done. by apply (Hall id').
    + exists s2. split_and!; [by etransitivity|congruence|done|congruence|congruence].
Qed.

(** Scheduled callbacks that only report. *)
Definition reporting (c : Scheduled) : bool := match c with EndCallback _ | ReadError _ _ => true | _ => false end.

(** What the server's own callbacks look at. *)
Definition server_view (s : t) := (m_server_handle s, m_end_server_callback s, m_client_connections s).

Lemma read_error_ret s id e :
  exists s', on_client_read_error s id e Ret = Ret s' /\ server_view s' = server_view s /\ scheduled s' = scheduled s.
Proof.
  unfold on_client_read_error, on_client_close_callback. destruct (TcpStream.m_close_callback _); [destruct (m_close_connection_callback _)|];
    eexists; (split; [reflexivity|]); by split.
Qed.

Lemma drain l s k : scheduled s = l ++ k -> forallb reporting l = true ->
  exists s', rtc step s s' /\ scheduled s' = k /\ server_view s' = server_view s.
Proof.
  revert s. induction l as [|c l IH]; intros s Es Hl; [by exists s|]. cbn in Hl. apply andb_true_iff in Hl as [Hc Hl].
  assert (exists s1, run_scheduled s Ret = Ret s1 /\ scheduled s1 = l ++ k /\ server_view s1 = server_view s) as (s1 & H1 & Es1 & Hv1).
  { unfold run_scheduled. rewrite Es. cbn [app]. destruct c as [|cb| |id e]; try done; [by eexists|].
    destruct (read_error_ret (s <| scheduled := l ++ k |>) id e) as (s1 & H1 & Hv & Hs). exists s1. by rewrite Hv, Hs. }
  destruct (IH s1 Es1 Hl) as (s2 & Hr2 & Es2 & Hv2). exists s2. split_and!; [|done|by rewrite Hv2].
  eapply rtc_l; [|exact Hr2]. eapply step_run_scheduled; [exact calls_ret|exact H1].
Qed.

(** The server's [on_close] when no connection is left, and the loop. *)
Lemma end_reported s callback l : m_server_handle s = None -> m_client_connections s = ∅ -> scheduled s = l ++ [EndCallback callback] ->
  forallb reporting l = true ->
  exists s', rtc step s s' /\ m_client_connections s' = ∅ /\ m_server_handle s' = None /\ last (events s') = Some (End callback (Error_of_uv 0)).
Proof.
  intros Hh Hm Es Hl. destruct (drain l s _ Es Hl) as (s1 & Hr1 & Es1 & Hv1). injection Hv1 as Hh1 _ Hm1.
  assert (run_scheduled s1 Ret = Ret (emit (s1 <| scheduled := [] |>) (End callback (Error_of_uv 0)))) as E1 by (unfold run_scheduled; by rewrite Es1).
  eexists. split_and!; [etransitivity; [exact Hr1|]; apply rtc_once; eapply step_run_scheduled; [exact calls_ret|exact E1]|exact (eq_trans Hm1 Hm)|exact (eq_trans Hh1 Hh)|].
  apply last_snoc.
Qed.

Lemma on_close_ends s callback : m_client_connections s = ∅ -> m_end_server_callback s = Some callback ->
  on_close s = Ret ((schedule_callback (s <| m_end_server_callback := None |>) (EndCallback callback)) <| m_server_handle := None |>).
Proof. intros Hm He. unfold on_close, connected_clients_count. by rewrite Hm, size_empty, bool_decide_true, He. Qed.

(** Without a second close the queue of a closing server has reports, and [on_close] once if the server waits. *)
Lemma closing_queue s : inv None s -> EndNotConnected ∉ scheduled s ->
  if bool_decide (m_server_handle s = Some ServerClosed) then
    exists l k, scheduled s = l ++ OnCloseAgain :: k /\ forallb reporting l = true /\ forallb reporting k = true
  else forallb reporting (scheduled s) = true.
Proof.
  intros Hi Hn. pose proof (inv_again s Hi) as Ha. unfold sched_view in Ha. cbn [fst snd] in Ha.
  assert (forall l, EndNotConnected ∉ l -> length (List.filter is_again (List.filter internal l)) = 0%nat -> forallb reporting l = true) as Hnone.
  { induction l as [|c l IH]; intros Hl H0; [done|]. apply not_elem_of_cons in Hl as [Hc Hl].
    destruct c; cbn in *; try done; by apply IH. }
  destruct (bool_decide _); [|by apply Hnone]. revert Hn Ha. generalize (scheduled s). induction l as [|c l IH]; intros Hl H1; [done|].
  apply not_elem_of_cons in Hl as [Hc Hl]. destruct c as [|cb| |id e]; cbn in H1; try done.
  - destruct (IH Hl H1) as (l1 & k & -> & H2 & H3). by exists (EndCallback cb :: l1), k.
  - injection H1 as H1. exists [], l. split_and!; [done|done|]. by apply Hnone.
  - destruct (IH Hl H1) as (l1 & k & -> & H2 & H3). by exists (ReadError id e :: l1), k.
Qed.

(** C20. Closing a server completes: from every reachable state of a server that closes with an end callback, also
    one that has found connections left and waits for them, there is a continuation of the run, in which libuv only answers
    what it was asked and the loop runs what is scheduled, that closes every connection and then calls the end callback with
    success; and [on_close] never reports the end before: while connections are left it schedules itself again and
    the server goes on waiting.  This is for a server that was not closed a second time meanwhile, and for connections
    of which libuv refused no shutdown or reset ([refused_connection_blocks_server]). *)
Theorem server_close_completes s callback :
  rtc step create s -> closing s -> m_end_server_callback s = Some callback -> EndNotConnected ∉ scheduled s ->
  (forall id c, id ∈ m_client_connections s -> clients s !! id = Some c ->
     refused c = false /\ Z.of_nat (TcpStream.next_send (stream c)) < 2 ^ 64) ->
  (exists s', rtc step s s' /\ m_client_connections s' = ∅ /\ m_server_handle s' = None /\
     last (events s') = Some (End callback (Error_of_uv 0))) /\
  (forall s', on_close s = Ret s' -> m_client_connections s <> ∅ ->
     closing s' /\ m_end_server_callback s' = Some callback /\ scheduled s' = scheduled s ++ [OnCloseAgain] /\ events s' = events s).
Proof.
  intros H Hh Hcb Hn Hall. pose proof (tcp_reachable_inv s H) as Hi. pose proof (closing_queue s Hi Hn) as Hq. split.
  - destruct (finish_clients _ s Hi Hh eq_refl Hall) as (s1 & Hr1 & Hh1 & Hm1 & He1 & Hs1). rewrite Hcb in He1.
    destruct Hh as [Hh|Hh]; rewrite Hh in *.
    + rewrite bool_decide_false in Hq by done. rewrite <- Hs1 in Hq.
      set (s2 := (schedule_callback (s1 <| m_end_server_callback := None |>) (EndCallback callback)) <| m_server_handle := None |>).
      destruct (end_reported s2 callback (scheduled s1)) as (s' & Hr & H'); [done|done|done|done|]. exists s'. split; [|done].
      etransitivity; [exact Hr1|]. eapply rtc_l; [|exact Hr]. apply step_server_closed; [done|by apply on_close_ends].
    + rewrite bool_decide_true in Hq by done. destruct Hq as (l & k & Eq & Hl & Hk). rewrite <- Hs1 in Eq.
      destruct (drain l s1 _ Eq Hl) as (s2 & Hr2 & Es2 & Hv2). injection Hv2 as Hh2 He2 Hm2.
      set (s3 := s2 <| scheduled := k |>).
      set (s4 := (schedule_callback (s3 <| m_end_server_callback := None |>) (EndCallback callback)) <| m_server_handle := None |>).
      destruct (end_reported s4 callback k) as (s' & Hr & H'); [done|by rewrite <- Hm1, <- Hm2|done|done|]. exists s'. split; [|done].
      etransitivity; [exact Hr1|]. etransitivity; [exact Hr2|]. eapply rtc_l; [|exact Hr]. eapply step_run_scheduled; [exact calls_ret|].
      unfold run_scheduled. rewrite Es2. change (s2 <| scheduled := k |>) with s3. apply on_close_ends; [by rewrite <- Hm1, <- Hm2|exact (eq_trans He2 He1)].
  - intros s' Hs' Hm. unfold on_close, connected_clients_count in Hs'. rewrite bool_decide_false in Hs'.
    + injection Hs' as <-. split_and!; [by right|done|done|done].
    + intros E. apply Hm. by apply size_empty_inv, leibniz_equiv in E.
Qed.

(** ** Behaviour on errors *)

(** A failed [uv_accept] calls the new-connection callback even if there is none. *)
Theorem accept_failure_needs_callback s i nu cu :
  0 <= init_status i -> 0 <= status i -> accept_status i <> 0 -> m_new_connection_callback s = false ->
  on_new_connection s i nu cu = Fault EmptyFunction.
Proof.
  intros Hin Hst Hac Hcb. unfold on_new_connection, TcpStream.init_stream.
  assert (forall z, 0 <= z -> error_bool (Error_of_uv z) = false) as Hok by (intros z Hz; rewrite error_bool_of_uv; by apply Z.ltb_ge).
  cbn -[Error_of_uv error_bool on_client set_client]. rewrite !Hok by lia. cbn [obind].
  rewrite !Hok by lia. rewrite (proj2 (Z.eqb_neq _ _)) by done. cbn. by rewrite Hcb.
Qed.

(** A connection that was not accepted goes to its removal, which deletes its handle, with the handle initialised and
    never given to [uv_close]. *)
Theorem rejected_handle_not_closed s i :
  0 <= init_status i -> status i < 0 ->
  exists s', on_new_connection s i Ret Ret = Ret s' /\
    let c := client s' (next_client s) in handle c = Live /\ removals c = 1%nat /\ accepted c = false.
Proof.
  intros Hin Hst. unfold on_new_connection, TcpStream.init_stream.
  assert (error_bool (Error_of_uv (init_status i)) = false) as E1 by (rewrite error_bool_of_uv; by apply Z.ltb_ge).
  assert (error_bool (Error_of_uv (status i)) = true) as E2 by (rewrite error_bool_of_uv; by apply Z.ltb_lt).
  assert (error_bool (Error_of_uv 0) = false) as E3 by apply error_bool_of_uv.
  cbn -[Error_of_uv error_bool on_client set_client schedule_client_removal]. rewrite E1. cbn [obind]. rewrite E3, E2.
  set (s1 := on_client _ _ _). assert (client s1 (next_client s) = inited_client) as Hc.
  { unfold s1, on_client. by rewrite !client_set_client. }
  assert (forall s2, client s2 (next_client s) = inited_client -> let c := client (schedule_client_removal s2 (next_client s)) (next_client s) in
    handle c = Live /\ removals c = 1%nat /\ accepted c = false) as Hrem.
  { intros s2 Hc2. unfold schedule_client_removal, on_client. cbn zeta. by rewrite client_set_client, Hc2. }
  destruct (m_new_connection_callback s1); eexists; (split; [reflexivity|]); by apply Hrem.
Qed.

(** A server that failed to start listening cannot listen again, and one whose [uv_listen] failed says it is open. *)
Theorem listen_failure_sticks s e n d c e' n' d' c' i' b' l' :
  Endpoint.m_type e <> Endpoint.UNDEFINED -> Endpoint.m_type e' <> Endpoint.UNDEFINED -> m_server_handle s = None ->
  forall init bind listen_status, init < 0 \/ bind < 0 \/ listen_status < 0 ->
  let '(s1, error) := listen s e n d c init bind listen_status in
  error_bool error = true /\ is_open s1 = (if (init <? 0) || (bind <? 0) then is_open s else true) /\
  listen s1 e' n' d' c' i' b' l' = (s1, Error_of_status CONNECTION_ALREADY_IN_PROGRESS).
Proof.
  intros He He' Hh init bind ls Hfail. unfold listen at 1. rewrite bool_decide_false, Hh by done. cbn zeta. rewrite error_bool_of_uv.
  assert (forall s1 h, m_server_handle s1 = Some h -> listen s1 e' n' d' c' i' b' l' = (s1, Error_of_status CONNECTION_ALREADY_IN_PROGRESS)) as Hagain.
  { intros s1 h E. unfold listen. by rewrite bool_decide_false, E. }
  destruct (Z.ltb_spec init 0).
  - rewrite error_bool_of_uv, (proj2 (Z.ltb_lt init 0)) by done. split_and!; [done|done|by eapply Hagain].
  - destruct (Z.ltb_spec bind 0); cbn [orb].
    + rewrite error_bool_of_uv, (proj2 (Z.ltb_lt bind 0)) by done. split_and!; [done|done|by eapply Hagain].
    + rewrite error_bool_of_uv, (proj2 (Z.ltb_lt ls 0)) by lia. split_and!; [done|done|by eapply Hagain].
Qed.

End Server.

(** ** A run *)

Section Example.
#[local] Existing Instance LittleEndianHost.
#[local] Existing Instance UvFallback.

Definition get (m : outcome t) : t := match m with Ret s => s | Fault _ => create end.

Definition peer : Endpoint.t := Endpoint.of_u32 2130706433 80.
Definition incoming : Incoming := mkIncoming 0 0 0 0 (Endpoint.raw_endpoint peer) 0.
Definition listening : t := (listen create peer true true true 0 0 0).1.
Definition connected : t := get (on_new_connection listening incoming Ret Ret).
Definition closing_server : t := get (close connected (Some 7%nat)).
Definition peer_gone : t := stop_reading (get (on_client_read_failed connected 0 (uv_code UV_EOF) 0 0 Ret)) 0.
Definition all_gone : t := get (on_client_close peer_gone 0 Ret).

Lemma connected_reachable : rtc step create connected.
Proof.
  eapply rtc_l; [apply step_api, (api_listen create peer true true true 0 0 0)|]. fold listening. apply rtc_once.
  apply (step_new_connection listening incoming Ret Ret); [reflexivity|exact calls_ret|exact calls_ret|vm_compute; reflexivity].
Qed.

Lemma closing_reachable : rtc step create closing_server.
Proof.
  eapply rtc_r; [exact connected_reachable|]. apply step_api, (api_close connected (Some 7%nat)). vm_compute. reflexivity.
Qed.

Lemma connected_client : exists c, clients connected !! 0%nat = Some c /\ handle c = Live /\ reading c = true.
Proof. eexists. split; [vm_compute; reflexivity|]. by split. Qed.

Lemma all_gone_reachable : rtc step create all_gone.
Proof.
  destruct connected_client as (c & Hc & Hl & Hr).
  eapply rtc_r; [eapply rtc_r; [exact connected_reachable|]|].
  - apply (step_read_failed connected 0 c (uv_code UV_EOF) 0 0 Ret (get (on_client_read_failed connected 0 (uv_code UV_EOF) 0 0 Ret)));
      [exact Hc|exact Hl|exact Hr|exact calls_ret|vm_compute; reflexivity].
  - eapply (step_closed peer_gone 0 _ Ret); [vm_compute; reflexivity|reflexivity|reflexivity|exact calls_ret|vm_compute; reflexivity].
Qed.

Lemma connections_tracked_witness : 0%nat ∈ m_client_connections connected /\ client_is_open (client connected 0) = true.
Proof.
  split; [|vm_compute; reflexivity]. apply (proj1 (connections_tracked connected connected_reachable)).
  destruct connected_client as (c & Hc & Hl & _). exists c. split; [exact Hc|]. vm_compute in Hc. injection Hc as <-. by split.
Defined.

Lemma close_callback_called_once_witness : handle (client all_gone 0) = Gone /\ length (TcpStream.closings (stream (client all_gone 0))) = 1%nat.
Proof.
  assert (clients all_gone !! 0%nat = Some (client all_gone 0)) as Hc by (vm_compute; reflexivity).
  assert (handle (client all_gone 0) = Gone) as Hg by (vm_compute; reflexivity).
  assert (read_failed (client all_gone 0) = false) as Hf by (vm_compute; reflexivity).
  split; [exact Hg|]. destruct (close_callback_called_once all_gone 0 _ all_gone_reachable Hc) as (_ & _ & H). specialize (H Hg).
  rewrite Hf in H. exact H.
Defined.

Lemma server_waits_for_connections_witness :
  m_client_connections closing_server <> ∅ /\ scheduled (get (on_close closing_server)) = [OnCloseAgain].
Proof.
  destruct (server_waits_for_connections closing_server 7 (get (on_close closing_server))) as [(H1 & H2 & _)|(H1 & _)].
  - exact closing_reachable.
  - left. vm_compute. reflexivity.
  - vm_compute. reflexivity.
  - vm_compute. reflexivity.
  - split; [exact H1|]. rewrite H2. vm_compute. reflexivity.
  - vm_compute in H1. discriminate H1.
Defined.

(** The server's handle is closed first, and the server waits. *)
Definition waiting_server : t := get (on_close closing_server).

Lemma waiting_reachable : rtc step create waiting_server.
Proof.
  eapply rtc_r; [exact closing_reachable|]. apply step_server_closed; [vm_compute; reflexivity|]. vm_compute. reflexivity.
Qed.

Lemma server_close_completes_witness : scheduled waiting_server = [OnCloseAgain] /\ exists s', rtc step waiting_server s' /\
  m_client_connections s' = ∅ /\ last (events s') = Some (End 7 (Error_of_uv 0)).
Proof.
  assert (scheduled waiting_server = [OnCloseAgain]) as Es by (vm_compute; reflexivity). split; [exact Es|].
  destruct (server_close_completes waiting_server 7) as ((s' & H1 & H2 & _ & H3) & _).
  - exact waiting_reachable.
  - right. vm_compute. reflexivity.
  - vm_compute. reflexivity.
  - rewrite Es. by intros ?%list_elem_of_singleton.
  - intros id c Hin Hc. assert (id = 0%nat) as ->.
    { assert (m_client_connections waiting_server = {[0%nat]}) as E by (vm_compute; reflexivity). rewrite E in Hin.
      by apply elem_of_singleton in Hin. }
    vm_compute in Hc. injection Hc as <-. split; [reflexivity|]. vm_compute. reflexivity.
  - exists s'. split; [exact H1|]. split; [exact H2|exact H3].
Defined.

(** Closing twice: the second close schedules a call of the end callback that [on_close] has given up by then. *)
Example double_close_calls_nothing :
  (let* s := close listening (Some 1%nat) in
   let* s := close s (Some 2%nat) in
   let* s := on_close s in
   run_scheduled s Ret) = Fault EmptyFunction.
Proof. vm_compute. reflexivity. Qed.

(** A refused [uv_read_start]: the close callback is called with that error, and again when the connection closes. *)
Example read_start_failure_notifies_twice :
  let s := get (on_new_connection listening (incoming <| read_status := -107 |>) Ret Ret) in
  let s := get (run_scheduled s Ret) in
  let s := get (close_client s 0) in
  let s := get (on_client_close s 0 Ret) in
  length (TcpStream.closings (stream (client s 0))) = 2%nat.
Proof. vm_compute. reflexivity. Qed.

End Example.

End TcpServer.
