(* ===== verification/TcpCallbacks.v ===== *)
(** * The order in which a TCP server calls its user

    For one connection, over every run of [TcpServer]: the connection is announced first, then its data come, and its
    end comes last and once (a connection that libuv refused to read is reported twice).  The clients of a [TcpServer] ([GenericMessageOrientedServer], [TlsServer]) rely on that
    order when they keep an object per connection: it is made on the announcement and deleted on the end.

    The server has to have all its callbacks, as those clients give them to [listen]: a callback that is not
    set is not called. *)

From S2P Require Import Prelude StatusCode Inet Endpoint TcpStream TcpServer.
Import TcpStream(Derived, base, set_base, base_set_base).
Local Open Scope outcome_scope.
Local Open Scope record_scope.

Module TcpCallbacks.
Import TcpServer.

Local Arguments inv_client {x} s.
Local Arguments inv_bound {x} s.
Local Arguments inv_notified {x} s.
Local Arguments inv_read_errors {x} s.

(** ** The callbacks of one connection *)

Definition concerns (id : nat) (e : Event) : bool :=
  match e with
  | NewConnection c _ | ConnectionClosed c _ | DataReceived c _ => bool_decide (c = id)
  | End _ _ => false
  end.

Definition callbacks_of (id : nat) (l : list Event) : list Event := List.filter (concerns id) l.

(** The bytes handed over for a connection. *)
Definition received (id : nat) (l : list Event) : list Z :=
  flat_map (fun e => match e with DataReceived _ data => data | _ => [] end) (callbacks_of id l).

Lemma callbacks_of_app id l k : callbacks_of id (l ++ k) = callbacks_of id l ++ callbacks_of id k.
Proof. apply List.filter_app. Qed.

Lemma callbacks_of_other id e l : concerns id e = false -> callbacks_of id (l ++ [e]) = callbacks_of id l.
Proof. intros H. rewrite callbacks_of_app. cbn. by rewrite H, app_nil_r. Qed.

Lemma callbacks_of_own id e l : concerns id e = true -> callbacks_of id (l ++ [e]) = callbacks_of id l ++ [e].
Proof. intros H. rewrite callbacks_of_app. cbn. by rewrite H. Qed.

Section Order.
Context {host : Host} {uv : UvErrno}.

(** A connection that was accepted is announced, then come its data, of which a connection that libuv refused to read has
    none, then the calls of its close callback that have been made.  Any other connection is announced, and closed at once
    when its peer was gone before its address could be asked for. *)
Definition in_order (id : nat) (c : Client) (l : list Event) : Prop :=
  if accepted c then
    exists ds, (read_failed c = true -> ds = []) /\
               callbacks_of id l = NewConnection id (Error_of_uv 0) :: map (DataReceived id) ds ++
                                   map (ConnectionClosed id) (TcpStream.closings (stream c))
  else
    (exists e, callbacks_of id l = [NewConnection id e]) \/
    callbacks_of id l = [NewConnection id (Error_of_status OK); ConnectionClosed id (Error_of_status CONNECTION_RESET_BY_PEER)].

(** After the close callback nothing is read any more. *)
Definition quiet (c : Client) : Prop :=
  TcpStream.closings (stream c) = [] \/ reading c = false \/ handle c = Gone.

(** Both for the connection [id]; the callback of the connection [x] may be running. *)
Definition ordered (x : option nat) (id : nat) (s : t) : Prop :=
  match clients s !! id with
  | Some c => in_order id c (events s) /\ (x <> Some id -> quiet c)
  | None => callbacks_of id (events s) = []
  end.

(** The server has its callbacks whenever one could be called. *)
Definition set_up (s : t) : Prop :=
  m_server_handle s = Some Listening \/ clients s <> ∅ ->
  m_new_connection_callback s = true /\ m_data_receive_callback s = true /\ m_close_connection_callback s = true.

(** ** What leaves the order alone *)

Definition same_order (c c' : Client) : Prop :=
  TcpStream.closings (stream c') = TcpStream.closings (stream c) /\ accepted c' = accepted c /\
  read_failed c' = read_failed c /\ reading c' = reading c /\ (handle c' = Gone <-> handle c = Gone).

Lemma in_order_same id c c' l : TcpStream.closings (stream c') = TcpStream.closings (stream c) -> accepted c' = accepted c ->
  read_failed c' = read_failed c -> in_order id c l -> in_order id c' l.
Proof. intros E1 E2 E3 H. unfold in_order. by rewrite E1, E2, E3. Qed.

Lemma quiet_same c c' : same_order c c' -> quiet c -> quiet c'.
Proof. intros (E1 & _ & _ & E4 & E5) H. unfold quiet in *. rewrite E1, E4, E5. exact H. Qed.

Lemma client_frame_same c c' : client_frame c c' -> same_order c c'.
Proof. intros []. by split_and!. Qed.

Lemma events_emit s e : events (emit s e) = events s ++ [e].
Proof. done. Qed.

Lemma clients_emit s e : clients (emit s e) = clients s.
Proof. done. Qed.

Section Frames.
Context {x : option nat}.

Lemma ordered_frame id s s' : frame s s' -> ordered x id s -> ordered x id s'.
Proof.
  intros Hf H. unfold ordered in *. rewrite (frame_events s s' Hf). pose proof (frame_clients s s' Hf id) as Hc.
  inversion Hc as [c c' Hcf E1 E2|E1 E2]; rewrite <- E1 in H; [|done]. apply client_frame_same in Hcf.
  split; [apply (in_order_same id c); [apply Hcf..|apply H]|]. intros Hx. by apply (quiet_same c), H.
Qed.

Lemma ordered_change id s c c' : clients s !! id = Some c -> ordered x id s ->
  (in_order id c (events s) -> in_order id c' (events s)) -> (x <> Some id -> quiet c -> quiet c') -> ordered x id (set_client s id c').
Proof.
  intros Hc H Ho Hq. unfold ordered in *. rewrite lookup_set_client. rewrite Hc in H. destruct H as [H1 H2].
  split; [by apply Ho|]. intros Hx. by apply Hq, H2.
Qed.

Lemma ordered_set_other id id' s c : id <> id' -> ordered x id (set_client s id' c) <-> ordered x id s.
Proof. intros H. unfold ordered. cbn. by rewrite lookup_insert_ne. Qed.

Lemma ordered_set_client id id' s c c' : clients s !! id' = Some c -> same_order c c' -> ordered x id s -> ordered x id (set_client s id' c').
Proof.
  intros Hc Hs H. destruct (decide (id = id')) as [->|Hne]; [|by apply ordered_set_other].
  apply (ordered_change id' s c); [done|done|by apply in_order_same; apply Hs|]. intros _. by apply quiet_same.
Qed.

Lemma ordered_emit_other id s e : concerns id e = false -> ordered x id s -> ordered x id (emit s e).
Proof. intros He. unfold ordered, in_order. rewrite clients_emit, events_emit, callbacks_of_other by done. done. Qed.

Lemma ordered_view id s s' : clients s' = clients s -> events s' = events s -> ordered x id s -> ordered x id s'.
Proof. unfold ordered. by intros -> ->. Qed.

Lemma ordered_on_client id id' s f : is_Some (clients s !! id') -> (forall c, same_order c (f c)) ->
  ordered x id s -> ordered x id (on_client s id' f).
Proof. intros [c Hc] Hf. unfold on_client. rewrite (client_lookup s id' c Hc). by apply (ordered_set_client id id' s c). Qed.

Lemma ordered_on_stream id id' s f : is_Some (clients s !! id') ->
  (forall b, TcpStream.closings (f b) = TcpStream.closings b) -> ordered x id s -> ordered x id (on_stream s id' f).
Proof. intros Hs Hf. apply ordered_on_client; [done|]. intros c. split_and!; [apply Hf|done..]. Qed.

(** The user's part of a callback. *)
Lemma ordered_calls id s s' : inv x s -> rtc api s s' -> ordered x id s -> ordered x id s'.
Proof. intros Hi Hc. destruct (calls_step s s' Hc Hi) as [_ Hf]. by apply ordered_frame. Qed.

End Frames.

Lemma ordered_exempt id id' s : id' <> id -> ordered (Some id) id' s <-> ordered None id' s.
Proof. intros Hne. unfold ordered. destruct (clients s !! id'); [|done]. split; intros [H1 H2]; (split; [done|]); intros _; apply H2; congruence. Qed.

Lemma ordered_running id s : ordered None id s -> ordered (Some id) id s.
Proof. unfold ordered. destruct (clients s !! id); [|done]. intros [H1 H2]. by split. Qed.

Lemma ordered_settled x id s c c' : clients s !! id = Some c -> ordered (Some id) id s ->
  TcpStream.closings (stream c') = TcpStream.closings (stream c) -> accepted c' = accepted c -> read_failed c' = read_failed c ->
  quiet c' -> ordered x id (set_client s id c').
Proof.
  intros Hc H E1 E2 E3 Hq. unfold ordered in *. rewrite lookup_set_client. rewrite Hc in H. destruct H as [H _].
  split; [by apply (in_order_same id c)|done].
Qed.

Lemma on_stream_some id id' s f : is_Some (clients s !! id) -> is_Some (clients (on_stream s id' f) !! id).
Proof.
  intros H. unfold on_stream, on_client, set_client. cbn. destruct (decide (id = id')) as [->|Hne]; [by rewrite lookup_insert_eq|by rewrite lookup_insert_ne].
Qed.

(** ** Reading *)

(** The end of [on_read] for data. *)
Lemma ordered_settle {x} id id' s n f : is_Some (clients s !! id') -> (forall b, TcpStream.closings (f b) = TcpStream.closings b) ->
  ordered x id s -> ordered x id (TcpStream.bump n (TcpStream.drop_shared 1 (on_stream s id' f, id'))).1.
Proof.
  intros Hs Hf H. unfold TcpStream.bump, TcpStream.drop_shared. cbn [base set_base focus_derived fst snd].
  set (s1 := on_stream s id' f). assert (is_Some (clients s1 !! id')) as Hs1 by (by apply on_stream_some).
  assert (ordered x id s1) as H1 by (by apply ordered_on_stream).
  assert (forall s2 b, is_Some (clients s2 !! id') -> TcpStream.closings b = TcpStream.closings (stream (client s2 id')) ->
    ordered x id s2 -> ordered x id (on_stream s2 id' (fun _ => b))) as Hput.
  { intros s2 b [c Hc] Hb. rewrite (on_stream_lookup s2 id' c _ Hc). rewrite (client_lookup s2 id' c Hc) in Hb.
    by apply (ordered_set_client id id' s2 c). }
  case_bool_decide; cbn [fst snd]; (apply Hput; [|done|]); [done|done|by apply on_stream_some|by apply Hput].
Qed.

(** The receive callback is called in its place. *)
Lemma ordered_data id s c data : clients s !! id = Some c -> client_ok c -> handle c = Live -> reading c = true ->
  ordered None id s -> ordered None id (emit s (DataReceived id data)).
Proof.
  intros Hc Hok Hl Hr. unfold ordered. rewrite clients_emit, events_emit, Hc. intros [H Hq]. split; [|done]. unfold in_order in *.
  rewrite callbacks_of_own by (by apply bool_decide_eq_true). destruct (accepted c) eqn:Ha.
  - destruct H as (ds & _ & Hds). assert (TcpStream.closings (stream c) = []) as Hcl by (destruct (Hq ltac:(done)) as [|[|]]; congruence).
    exists (ds ++ [data]). split; [intros Hf; destruct (ok_failed c Hok Hf) as (_ & ? & _); congruence|].
    rewrite Hds, Hcl, map_app. cbn. by rewrite !app_nil_r.
  - destruct (ok_rejected c Hok Ha) as [_ ?]. congruence.
Qed.

Lemma ordered_read s id c sz data user s' : inv None s -> clients s !! id = Some c -> handle c = Live -> reading c = true ->
  Receives id user -> 0 <= sz -> Z.of_nat (length data) <= (TcpStream.alloc_read_buffer (stream c) sz).2.2 ->
  on_client_read s id sz data user = Ret s' -> forall id', ordered None id' s -> ordered None id' s'.
Proof.
  intros Hi Hc Hl Hrd Hu Hs Hlen H id' Hord. unfold on_client_read in H. pose proof (inv_client s Hi id c Hc) as Hok.
  assert (base (s, id) = stream c) as Ebase by (cbn; by rewrite (client_lookup s id c Hc)).
  match type of H with context [TcpStream.uv_read _ _ _ ?cb ?f] =>
    destruct (TcpStream.uv_read_split (s, id) sz data cb f) as (b1 & bn & Hr1 & Hcore & Eb & Hd & _ & Heq) end;
    [rewrite Ebase; apply Hok|done|by rewrite Ebase|]. cbn zeta in Heq. rewrite Heq in H. clear Heq. rewrite Ebase in *.
  assert (TcpStream.closings b1 = TcpStream.closings (stream c)) as Hcl by exact (f_equal TcpStream.closings Hcore).
  apply obind_ret_inv in H as ([s2 id2] & H & [= <-]). cbn [set_base focus_derived fst snd] in H.
  rewrite !(on_stream_lookup s id c _ Hc) in H.
  destruct (negb (bool_decide (data = [])) && m_receive_callback (client s id)).
  - apply obind_ret_inv in H as ([s3 id3] & H & [= <- <-]). rewrite on_stream_set_client in H.
    apply obind_ret_inv in H as (s4 & H & [= <- <-]). apply Hu in H as (s1 & k & Hcalls & ->).
    set (chunk := TcpStream.mkChunk _ _ _) in *. set (b2 := TcpStream.emit b1 _) in *. set (c2 := c <| stream := b2 |>) in *.
    pose proof (inv_put_received s id c b1 chunk data Hi Hc Hcore Hr1) as Hi1. fold b2 c2 in Hi1.
    assert (TcpStream.closings b2 = TcpStream.closings (stream c)) as Hb2
      by (unfold b2; rewrite TcpStream.closings_emit, Hcl; apply app_nil_r).
    assert (same_order c c2) as Hsame by (by split_and!).
    destruct (calls_step _ _ Hcalls (server_emit_inv _ _ Hi1)) as [_ Hf].
    apply ordered_settle; [|done|].
    + apply (frame_is_some _ _ id Hf). rewrite clients_emit, lookup_set_client. by eexists.
    + apply (ordered_frame _ _ _ Hf). destruct (decide (id' = id)) as [->|Hne].
      * apply (ordered_data id _ c2 data); [apply lookup_set_client| |done|done|by apply (ordered_set_client id id s c)].
        apply (inv_client _ Hi1 id), lookup_set_client.
      * apply ordered_emit_other; [by apply bool_decide_eq_false|]. by apply ordered_set_other.
  - injection H as <- _. unfold TcpStream.bump. cbn [base set_base focus_derived fst snd]. rewrite on_stream_set_client, client_set_client.
    by apply (ordered_set_client id' id s c).
Qed.

(** ** The end of a connection *)

Definition closed_with (e : Error) (c : Client) : Client := c <| stream ::= fun b => TcpStream.emit b (TcpStream.Closed e) |>.

(** The close callback is called for a connection. *)
Lemma ordered_closed x id s c e : clients s !! id = Some c -> accepted c = true ->
  (x <> Some id -> handle c = Gone \/ reading c = false) -> ordered (Some id) id s ->
  ordered x id (emit (set_client s id (closed_with e c)) (ConnectionClosed id e)).
Proof.
  intros Hc Ha Hx. unfold ordered. rewrite clients_emit, events_emit, lookup_set_client, Hc.
  change (events (set_client s id _)) with (events s). intros [H _]. split; [|intros Hne; right; destruct (Hx Hne); auto].
  unfold in_order in *. rewrite Ha in H. change (accepted (closed_with e c)) with (accepted c). rewrite Ha.
  rewrite callbacks_of_own by (by apply bool_decide_eq_true). destruct H as (ds & Hf & Hds). exists ds. split; [done|].
  change (stream (closed_with e c)) with (TcpStream.emit (stream c) (TcpStream.Closed e)).
  rewrite TcpStream.closings_emit, map_app, Hds. cbn. by rewrite <- app_assoc.
Qed.

(** The close callback of a connection is called and has returned. *)
Lemma ordered_close_call x s id c e user s' : inv (Some id) (set_client s id (closed_with e c)) ->
  clients s !! id = Some c -> accepted c = true ->
  (x <> Some id -> handle c = Gone \/ reading c = false) -> m_close_connection_callback s = true -> Calls user ->
  on_client_close_callback (set_client s id (closed_with e c)) id e user = Ret s' ->
  inv (Some id) s' /\ (exists c', clients s' !! id = Some c' /\ client_frame (closed_with e c) c') /\
  forall id', (id' = id -> ordered (Some id) id s) -> (id' <> id -> ordered None id' s) -> ordered (if decide (id' = id) then x else None) id' s'.
Proof.
  intros Hi Hc Hcl Hx Hcb Hu H. unfold on_client_close_callback in H.
  change (m_close_connection_callback (set_client s id _)) with (m_close_connection_callback s) in H. rewrite Hcb in H.
  destruct (calls_step _ _ (Hu _ _ H) (server_emit_inv _ _ Hi)) as [Hi' Hf]. split; [done|].
  pose proof (frame_client _ _ id _ Hf (lookup_set_client s id (closed_with e c))) as Hc'. split; [done|].
  intros id' Hid Hother. apply (ordered_frame _ _ _ Hf). destruct (decide (id' = id)) as [->|Hne].
  - apply ordered_closed; auto.
  - apply ordered_emit_other; [by apply bool_decide_eq_false|]. apply ordered_set_other; auto.
Qed.

Lemma on_stream_closed s id c e : clients s !! id = Some c ->
  on_stream s id (fun b => TcpStream.emit b (TcpStream.Closed e)) = set_client s id (closed_with e c).
Proof. apply on_stream_lookup. Qed.

Lemma closed_with_inv {x} s id c e : inv x s -> clients s !! id = Some c -> x = Some id -> inv x (set_client s id (closed_with e c)).
Proof.
  intros Hi Hc ->. rewrite <- on_stream_closed by done. eapply inv_stream_change; [done|done|cbv beta zeta; by rewrite closed_write_view|done|done].
Qed.

(** [on_client_read_error], for whatever the callback does; [x] as for [ordered]. *)
Lemma ordered_read_error x s id c e user s' : inv (Some id) s -> clients s !! id = Some c -> m_close_connection_callback s = true ->
  accepted c = true -> (x <> Some id -> handle c = Gone \/ reading c = false) ->
  Calls user -> on_client_read_error s id e user = Ret s' ->
  inv (Some id) s' /\ (exists c', clients s' !! id = Some c' /\ read_failed c' = read_failed c) /\
  forall id', ordered None id' s -> ordered (if decide (id' = id) then x else None) id' s'.
Proof.
  intros Hi Hc Hcb Ha Hx Hu H. unfold on_client_read_error in H. rewrite (client_lookup s id c Hc) in H.
  destruct (TcpStream.m_close_callback (stream c)) eqn:Ecb.
  - assert (on_stream s id (fun b => TcpStream.on_read_error b e) = set_client s id (closed_with (TcpStream.close_reason e) c)) as E.
    { rewrite (on_stream_lookup s id c _ Hc). f_equal. unfold closed_with, TcpStream.on_read_error. destruct c. cbn in *. by rewrite Ecb. }
    rewrite E in H.
    destruct (ordered_close_call x s id c (TcpStream.close_reason e) user s') as (Hi' & (c' & Hc' & Hcf) & Hord); auto.
    { by apply closed_with_inv. }
    split; [done|]. split; [exists c'; split; [done|apply Hcf]|]. intros id' H0. apply Hord; [intros ->; by apply ordered_running|done].
  - injection H as <-. rewrite (on_stream_lookup s id c _ Hc).
    assert (c <| stream ::= fun b => TcpStream.on_read_error b e |> = c) as -> by (destruct c as [b]; cbn in *; unfold TcpStream.on_read_error; by rewrite Ecb).
    assert (set_client s id c = s) as -> by (destruct s; unfold set_client; cbn in *; by rewrite insert_id).
    split; [done|]. split; [by eexists|]. intros id' H0. destruct (decide (id' = id)) as [->|]; [|done].
    unfold ordered in *. destruct (clients s !! id); [|done]. destruct H0 as [H1 H2]. split; [done|]. auto.
Qed.

Lemma ordered_read_failed_step s id c nread gs value user s' : inv None s -> clients s !! id = Some c -> handle c = Live ->
  reading c = true -> m_close_connection_callback s = true -> Calls user -> on_client_read_failed s id nread gs value user = Ret s' ->
  forall id', ordered None id' s -> ordered None id' (stop_reading s' id).
Proof.
  intros Hi Hc Hl Hr Hcb Hu H id' Hord. unfold on_client_read_failed in H. apply obind_ret_inv in H as (e & _ & H).
  apply obind_ret_inv in H as (s1 & H1 & H2).
  destruct (ordered_read_error (Some id) s id c e user s1 (inv_exempt s id Hi) Hc Hcb) as (Hi1 & (c1 & Hc1 & Hf1) & Hord1); [|done|done|done|].
  { destruct (accepted c) eqn:Ha; [done|]. destruct (ok_rejected c (inv_client s Hi id c Hc) Ha). congruence. }
  assert (inv (Some id) (on_stream s1 id (fun b => b <| TcpStream.m_close_callback := false |>))) as Hi2.
  { eapply inv_stream_change; [done|done|done| |done]. rewrite Hf1. intros Hf. destruct (ok_failed c (inv_client s Hi id c Hc) Hf) as (_ & ? & _). congruence. }
  rewrite (on_stream_lookup s1 id c1 _ Hc1) in Hi2, H2. set (c2 := c1 <| stream ::= _ |>) in *.
  pose proof (close_client_step _ id _ Hi2 (lookup_set_client _ _ _)) as Hstep. rewrite H2 in Hstep. destruct Hstep as (_ & Hf & _).
  destruct (frame_client _ _ id _ Hf (lookup_set_client _ _ _)) as (c3 & Hc3 & _).
  specialize (Hord1 id' Hord). unfold stop_reading, on_client. rewrite (client_lookup s' id c3 Hc3).
  destruct (decide (id' = id)) as [->|Hne].
  - apply (ordered_settled None id s' c3); try done; [|right; by left].
    apply (ordered_frame _ _ _ Hf). by apply (ordered_set_client id id s1 c1).
  - apply ordered_set_other; [done|]. apply (ordered_frame _ _ _ Hf). by apply ordered_set_other.
Qed.

Lemma ordered_closed_step s id c user s' : inv None s -> clients s !! id = Some c -> handle c = Closing ->
  m_close_connection_callback s = true -> Calls user -> on_client_close s id user = Ret s' ->
  forall id', ordered None id' s -> ordered None id' s'.
Proof.
  intros Hi Hc Hh Hcb Hu H id' Hord. unfold on_client_close, on_client in H. rewrite (client_lookup s id c Hc) in H.
  pose proof (gone_inv s id c Hi Hc Hh) as Hi1. set (c1 := c <| handle := Gone |>) in *. set (s1 := remove_client_connection _ id) in *.
  assert (clients s1 !! id = Some c1) as Hc1 by apply lookup_insert_eq.
  assert (ordered None id' s1) as Hord1.
  { apply (ordered_view id' (set_client s id c1)); [done|done|]. destruct (decide (id' = id)) as [->|Hne]; [|by apply ordered_set_other].
    apply (ordered_settled None id s c); try done; [by apply ordered_running|right; by right]. }
  apply obind_ret_inv in H as (s2 & H & [= <-]). rewrite (client_lookup s1 id _ Hc1) in H. change (stream c1) with (stream c) in H.
  assert (is_Some (clients s2 !! id) /\ ordered None id' s2) as [Hs2 Hord2].
  { destruct (TcpStream.m_close_callback (stream c)) eqn:Ecb; [|injection H as <-; split; [by eexists|done]].
    rewrite (on_stream_closed s1 id c1 _ Hc1) in H.
    assert (accepted c1 = true) as Hacc.
    { change (accepted c1) with (accepted c). destruct (accepted c) eqn:Ha; [done|].
      destruct (ok_rejected c (inv_client s Hi id c Hc) Ha) as [[Hx|Hx] _]; by rewrite Hh in Hx. }
    destruct (ordered_close_call None s1 id c1 (Error_of_uv 0) user s2) as (_ & (c' & Hc' & _) & Hfin); try done.
    { by apply closed_with_inv. } { by left. }
    split; [by eexists|]. specialize (Hfin id'). destruct (decide (id' = id)) as [->|Hne]; apply Hfin; try done.
    intros _. by apply ordered_running. }
  apply ordered_on_client; [by apply on_stream_some| |by apply ordered_on_stream]. by intros c2; split_and!.
Qed.

(** ** The beginning of a connection *)

(** The new-connection callback is called for the connection [id], and has returned. *)
Lemma announce s id c e user s' : inv None s -> clients s !! id = Some c -> Calls user ->
  new_connection_callback s id e user = Ret s' ->
  inv None s' /\ (exists c', clients s' !! id = Some c' /\ client_frame c c') /\ events s' = events s ++ [NewConnection id e] /\
  forall id', id' <> id -> ordered None id' s -> ordered None id' s'.
Proof.
  intros Hi Hc Hu H. destruct (guarded_calls_inv s id e user s' Hu Hi H) as [Hi' Hf]. split_and!; [done|by apply (frame_client _ _ id c Hf)|apply Hf|].
  intros id' Hne Hord. apply (ordered_frame _ _ _ Hf). apply ordered_emit_other; [by apply bool_decide_eq_false|done].
Qed.

(** A connection that was announced, and is not accepted. *)
Lemma ordered_rejected id s c l : clients s !! id = Some c -> accepted c = false -> TcpStream.closings (stream c) = [] ->
  callbacks_of id (events s) = l ->
  (exists e, l = [NewConnection id e]) \/
  l = [NewConnection id (Error_of_status OK); ConnectionClosed id (Error_of_status CONNECTION_RESET_BY_PEER)] ->
  ordered None id (schedule_client_removal s id).
Proof.
  intros Hc Ha Hcl Hl Hshape. unfold schedule_client_removal, on_client. rewrite (client_lookup s id c Hc). unfold ordered.
  rewrite lookup_set_client. split; [|intros _; by left]. unfold in_order. cbn [accepted set_field]. rewrite Ha.
  change (events (set_client s id _)) with (events s). by rewrite Hl.
Qed.

Lemma ordered_removal_other id id' s : id' <> id -> ordered None id' s -> ordered None id' (schedule_client_removal s id).
Proof. intros H. unfold schedule_client_removal, on_client. by rewrite ordered_set_other. Qed.

Lemma rejected_step s id c e user s' : inv None s -> clients s !! id = Some c -> accepted c = false ->
  TcpStream.closings (stream c) = [] -> callbacks_of id (events s) = [] -> Calls user ->
  (let* s := new_connection_callback s id e user in Ret (schedule_client_removal s id)) = Ret s' ->
  forall id', (id' <> id -> ordered None id' s) -> ordered None id' s'.
Proof.
  intros Hi Hc Ha Hcl Hev Hu H id' Hord. apply obind_ret_inv in H as (s1 & H & [= <-]).
  destruct (announce s id c e user s1 Hi Hc Hu H) as (_ & (c1 & Hc1 & Hf) & Hev1 & Hother).
  destruct (decide (id' = id)) as [->|Hne]; [|apply ordered_removal_other; auto].
  eapply (ordered_rejected id s1 c1); [done|by rewrite (frame_accepted _ _ Hf)|by rewrite (frame_closings _ _ Hf)|reflexivity|].
  left. exists e. rewrite Hev1, callbacks_of_own by (by apply bool_decide_eq_true). by rewrite Hev.
Qed.

(** An accepted connection after its announcement, when reading starts or not. *)
Lemma ordered_accepted id s c : clients s !! id = Some c -> accepted c = true -> TcpStream.closings (stream c) = [] ->
  callbacks_of id (events s) = [NewConnection id (Error_of_uv 0)] -> ordered None id s.
Proof.
  intros Hc Ha Hcl Hl. unfold ordered. rewrite Hc. split; [|intros _; by left]. unfold in_order. rewrite Ha, Hl, Hcl. by exists [].
Qed.

Lemma ordered_start_read id s c cb st : clients s !! id = Some c -> accepted c = true -> TcpStream.closings (stream c) = [] ->
  callbacks_of id (events s) = [NewConnection id (Error_of_uv 0)] ->
  forall id', (id' <> id -> ordered None id' s) -> ordered None id' (start_read s id cb st).
Proof.
  intros Hc Ha Hcl Hl id' Hord. unfold start_read, on_client. rewrite (client_lookup s id c Hc), !client_set_client, !set_client_twice.
  destruct (error_bool _).
  - eapply (ordered_view id' (set_client s id _)); [reflexivity|reflexivity|]. destruct (decide (id' = id)) as [->|Hne]; [|by apply ordered_set_other; auto].
    eapply ordered_accepted; [apply lookup_set_client|done|done|done].
  - destruct (decide (id' = id)) as [->|Hne]; [|by apply ordered_set_other; auto]. eapply ordered_accepted; [apply lookup_set_client|done|done|done].
Qed.

(** The branches of [on_new_connection] that go on after the announcement. *)
Lemma peer_gone_step s id c nu cu s' : inv None s -> clients s !! id = Some c -> accepted c = false ->
  TcpStream.closings (stream c) = [] -> callbacks_of id (events s) = [] -> Calls nu -> Calls cu ->
  (let* s := (let* s := new_connection_callback s id (Error_of_status OK) nu in
              check (m_close_connection_callback s) else EmptyFunction in
              cu (emit s (ConnectionClosed id (Error_of_status CONNECTION_RESET_BY_PEER)))) in
   Ret (schedule_client_removal s id)) = Ret s' ->
  forall id', (id' <> id -> ordered None id' s) -> ordered None id' s'.
Proof.
  intros Hi Hc Ha Hcl Hev Hnu Hcu H id' Hother.
  apply obind_ret_inv in H as (s3 & H & [= <-]). apply obind_ret_inv in H as (s4 & H & H4).
  destruct (announce s id c _ nu s4 Hi Hc Hnu H) as (Hi4 & (c4 & Hc4 & Hf4) & Hev4 & Hother4).
  destruct (m_close_connection_callback s4); [|done]. destruct (calls_step _ _ (Hcu _ _ H4) (server_emit_inv _ _ Hi4)) as [_ Hf].
  destruct (decide (id' = id)) as [->|Hne].
  - destruct (frame_client _ _ id c4 Hf Hc4) as (c5 & Hc5 & Hf5).
    eapply (ordered_rejected id s3 c5); [done|by rewrite (frame_accepted _ _ Hf5), (frame_accepted _ _ Hf4)|
      by rewrite (frame_closings _ _ Hf5), (frame_closings _ _ Hf4)|reflexivity|right].
    rewrite (frame_events _ _ Hf), events_emit, Hev4, !callbacks_of_own by (by apply bool_decide_eq_true). by rewrite Hev.
  - apply ordered_removal_other; [done|]. apply (ordered_frame _ _ _ Hf), ordered_emit_other; [by apply bool_decide_eq_false|]. auto.
Qed.

Lemma accepted_step s id c nu st s' : inv None s -> clients s !! id = Some c -> accepted c = true ->
  TcpStream.closings (stream c) = [] -> callbacks_of id (events s) = [] -> Calls nu ->
  (let* s := new_connection_callback s id (Error_of_uv 0) nu in
   if client_is_open (client s id) then Ret (start_read s id (m_data_receive_callback s) st) else Ret s) = Ret s' ->
  forall id', (id' <> id -> ordered None id' s) -> ordered None id' s'.
Proof.
  intros Hi Hc Ha Hcl Hev Hnu H id' Hother. apply obind_ret_inv in H as (s4 & H & H5).
  destruct (announce s id c _ nu s4 Hi Hc Hnu H) as (_ & (c4 & Hc4 & Hf4) & Hev4 & Hother4).
  assert (callbacks_of id (events s4) = [NewConnection id (Error_of_uv 0)]) as Hev4'
    by (rewrite Hev4, callbacks_of_own by (by apply bool_decide_eq_true); by rewrite Hev).
  assert (accepted c4 = true /\ TcpStream.closings (stream c4) = []) as [Ha4 Hcl4]
    by (by rewrite (frame_accepted _ _ Hf4), (frame_closings _ _ Hf4)).
  destruct (client_is_open (client s4 id)); injection H5 as <-.
  - apply (ordered_start_read id s4 c4); auto.
  - destruct (decide (id' = id)) as [->|Hne]; [by apply (ordered_accepted id s4 c4)|auto].
Qed.

Lemma ordered_new_connection s i nu cu s' : inv None s -> ~ closing s -> m_new_connection_callback s = true ->
  Calls nu -> Calls cu -> on_new_connection s i nu cu = Ret s' -> (forall id, ordered None id s) -> forall id, ordered None id s'.
Proof.
  intros Hi Hncl Hnew Hnu Hcu H Hord id'. unfold on_new_connection in H. set (id := next_client s) in *.
  set (s0 := s <| next_client ::= S |>) in *.
  assert (callbacks_of id (events s) = []) as Hev.
  { specialize (Hord id). unfold ordered in Hord. destruct (clients s !! id) as [c|] eqn:Hc; [|done].
    pose proof (inv_bound s Hi id ltac:(by eexists)). unfold id in *. lia. }
  assert (exists e, TcpStream.init_stream (stream new_client) (init_status i) = Ret (stream fresh_client, e)) as [ie Hinit]
    by (destruct (init_stream_fresh (init_status i)); by eexists).
  rewrite Hinit in H. cbn [obind] in H. change (new_client <| stream := stream fresh_client |>) with fresh_client in H.
  pose proof (add_client_inv s fresh_client Hi (fresh_client_ok Fresh ltac:(by left)) eq_refl eq_refl ltac:(done)) as Hi1.
  pose proof (add_client_inv s inited_client Hi (fresh_client_ok Live ltac:(by right)) eq_refl eq_refl ltac:(done)) as Hi2.
  fold id s0 in Hi1, Hi2. assert (forall c, id' <> id -> ordered None id' (set_client s0 id c)) as Hother
    by (intros c Hne; apply ordered_set_other; [done|]; by apply (ordered_view id' s)).
  assert (on_client (set_client s0 id fresh_client) id (fun c => c <| handle := Live |>) = set_client s0 id inited_client) as E2
    by (unfold on_client; by rewrite client_set_client, set_client_twice).
  rewrite E2 in H. clear E2. set (s1 := set_client s0 id fresh_client) in *. set (s2 := set_client s0 id inited_client) in *.
  assert (clients s2 !! id = Some inited_client) as Hc2 by apply lookup_insert_eq.
  change (m_new_connection_callback s1) with (m_new_connection_callback s) in H.
  change (m_new_connection_callback s2) with (m_new_connection_callback s) in H. rewrite Hnew in H. cbn [negb] in H.
  destruct (error_bool ie); [exact (rejected_step s1 id fresh_client ie nu s' Hi1 (lookup_insert_eq _ _ _) eq_refl eq_refl Hev Hnu H id' (Hother _))|].
  pose proof (rejected_step s2 id inited_client) as Hrej.
  destruct (error_bool (Error_of_uv (status i))); [exact (Hrej _ nu s' Hi2 Hc2 eq_refl eq_refl Hev Hnu H id' (Hother _))|].
  destruct (accept_status i =? 0); cbn [negb] in H; [|exact (Hrej _ nu s' Hi2 Hc2 eq_refl eq_refl Hev Hnu H id' (Hother _))].
  destruct (error_bool (Error_of_uv (getpeername_status i))) eqn:Egp; cbn [negb] in H.
  - case_bool_decide; [|exact (Hrej _ nu s' Hi2 Hc2 eq_refl eq_refl Hev Hnu H id' (Hother _))].
    exact (peer_gone_step s2 id inited_client nu cu s' Hi2 Hc2 eq_refl eq_refl Hev Hnu Hcu H id' (Hother _)).
  - apply obind_ret_inv in H as (e & _ & H).
    pose proof (accept_inv s2 id inited_client e Hi2 Hc2 eq_refl Hncl eq_refl eq_refl) as Hi3.
    set (c3 := (set_endpoint inited_client e) <| accepted := true |>) in *.
    assert (on_client s2 id (fun c => (set_endpoint c e) <| accepted := true |>) = set_client s2 id c3) as E3
      by (unfold on_client; by rewrite (client_lookup s2 id inited_client Hc2)).
    rewrite E3 in H. clear E3. set (s3 := (set_client s2 id c3) <| m_client_connections ::= _ |>) in *.
    change (m_new_connection_callback s3) with (m_new_connection_callback s) in H. rewrite Hnew in H.
    refine (accepted_step s3 id c3 nu (read_status i) s' Hi3 (lookup_insert_eq _ _ _) eq_refl eq_refl Hev Hnu H id' _).
    intros Hne. apply (ordered_view id' (set_client s2 id c3)); [done|done|]. apply ordered_set_other; [done|exact (Hother _ Hne)].
Qed.

(** ** Runs *)

Lemma on_close_view s s' : on_close s = Ret s' -> clients s' = clients s /\ events s' = events s.
Proof.
  unfold on_close. case_bool_decide as En; cbn [negb]; intros H; [|by injection H as <-].
  apply obind_ret_inv in H as (s1 & H & [= <-]). destruct (m_end_server_callback s); [by injection H as <-|].
  destruct (m_removal_scheduled s) eqn:Er; [|by injection H as <-]. unfold schedule_removal in H. rewrite Er in H. by injection H as <-.
Qed.

Lemma set_up_client s id c : set_up s -> clients s !! id = Some c -> m_close_connection_callback s = true.
Proof. intros Hs Hc. apply Hs. right. intros E. by rewrite E, lookup_empty in Hc. Qed.

Lemma ordered_scheduled s user s' : inv None s -> set_up s -> Calls user -> run_scheduled s user = Ret s' ->
  forall id, ordered None id s -> ordered None id s'.
Proof.
  intros Hi Hs Hu H id Hord. unfold run_scheduled in H. destruct (scheduled s) as [|c rest] eqn:Es; [by injection H as <-|].
  set (s1 := s <| scheduled := rest |>) in *. assert (ordered None id s1) as Hord1 by done.
  assert (internal c = false -> forall e, concerns id e = false -> rtc api (emit s1 e) s' -> ordered None id s') as Hend.
  { intros Hc e He Hcalls. assert (inv None s1) as Hi1.
    { apply (inv_server s); try done; [|by left]. unfold sched_view. cbn. rewrite Es. cbn. by rewrite Hc. }
    apply (ordered_calls id (emit s1 e)); [by apply server_emit_inv|done|by apply ordered_emit_other]. }
  destruct c as [|cb| |id' e].
  - destruct (m_end_server_callback s1); [|done]. eapply Hend; [done| |by apply Hu]. done.
  - eapply Hend; [done| |by apply Hu]. done.
  - destruct (on_close_view _ _ H). by apply (ordered_view id s1).
  - destruct (inv_read_errors s Hi id' e) as (c & Hc & Hf); [unfold sched_view; rewrite Es; by left|].
    destruct (ok_failed c (inv_client s Hi id' c Hc) Hf) as (Ha & Hr & _).
    destruct (ordered_read_error None s1 id' c e user s') as (_ & _ & Hfin);
      [by apply (read_error_scheduled_inv s id' e)|done|by apply (set_up_client s id' c)|done|by right|done|done|].
    specialize (Hfin id Hord1). by destruct (decide (id = id')).
Qed.

Lemma ordered_step s s' : step s s' -> inv None s -> set_up s -> (forall id, ordered None id s) -> forall id, ordered None id s'.
Proof.
  intros H Hi Hs Hord id. destruct H as [s' H|i nu cu s' Hl Hnu Hcu H|id' c sz data user s' Hc Hl Hr Hu Hsz Hlen H|id' c nread gs v user s' Hc Hl Hr Hu H
    |id' c s' Hc Hsr H|id' c user s' Hc Hh Hrq Hu H|id' c i st s' Hc Hlt Hb H|s' Hh H|user s' Hu H].
  - destruct (api_step s s' H Hi) as [_ Hf]. by apply (ordered_frame _ _ _ Hf).
  - eapply (ordered_new_connection s i nu cu); try done; [unfold closing; rewrite Hl; by intros []|]. apply Hs. by left.
  - by eapply (ordered_read s id' c sz data user).
  - eapply (ordered_read_failed_step s id' c nread gs v user); try done. by apply (set_up_client s id' c).
  - pose proof (on_client_shutdown_step s id' c Hi Hc Hsr) as Hstep. rewrite H in Hstep. destruct Hstep as [_ ->].
    apply (ordered_set_client id id' s c); [done| |done]. split_and!; try done.
    destruct (ok_shutdown c (inv_client s Hi id' c Hc) Hsr) as [_ Hl]. cbn. by rewrite Hl.
  - eapply (ordered_closed_step s id' c user); try done. by apply (set_up_client s id' c).
  - pose proof (after_write_step s id' c i st Hi Hc Hlt Hb) as Hstep. rewrite H in Hstep. destruct Hstep as (_ & b & -> & Hsame & _).
    apply (ordered_set_client id id' s c); [done| |done]. split_and!; try done. apply Hsame.
  - destruct (on_close_view _ _ H). by apply (ordered_view id s).
  - by eapply (ordered_scheduled s user).
Qed.

(** Runs in which the server has all its callbacks. *)
Definition run (s s' : t) : Prop := step s s' /\ set_up s'.

Lemma run_ordered s : rtc run create s -> inv None s /\ forall id, ordered None id s.
Proof.
  assert (forall s0 s1, rtc run s0 s1 -> set_up s0 -> inv None s0 -> (forall id, ordered None id s0) ->
    inv None s1 /\ forall id, ordered None id s1) as Hgen.
  { intros s0 s1. induction 1 as [|s0 s1 s2 [H1 Hs1] H2 IH]; [done|]. intros Hs0 Hi Hord. apply IH; [done|by apply (server_step_inv s0)|].
    by apply (ordered_step s0). }
  intros H. apply (Hgen create s H); [by intros [|]|apply create_inv|done].
Qed.

Lemma run_in_order s id c : rtc run create s -> clients s !! id = Some c ->
  (length (TcpStream.closings (stream c)) <= reports_due c)%nat /\ in_order id c (events s).
Proof.
  intros H Hc. destruct (run_ordered s H) as [Hi Hord]. specialize (Hord id). unfold ordered in Hord. rewrite Hc in Hord.
  split; [|apply Hord]. pose proof (inv_notified s Hi id c Hc ltac:(done)) as Hn. unfold notified, notifications in Hn. lia.
Qed.

(** ** Property *)

(** C5. The order of the callbacks of one connection: over every run of a TCP server that was given
    all its callbacks, whatever user code does in them, the callbacks made for an accepted connection
    are its announcement without an error, then its data, then its end, at most once; nothing is called before
    the announcement or after the end.  A connection that is not accepted is announced once and has no data.  The
    exception is a connection that libuv refused to read ([read_failed]): it has no data, and its end is reported up to two
    times. *)
Theorem callbacks_in_order s id c :
  rtc run create s -> clients s !! id = Some c ->
  let ends := TcpStream.closings (stream c) in
  if accepted c then
    exists ds, callbacks_of id (events s) = NewConnection id (Error_of_uv 0) :: map (DataReceived id) ds ++ map (ConnectionClosed id) ends /\
      if read_failed c then ds = [] /\ (length ends <= 2)%nat else (length ends <= 1)%nat
  else
    (exists e, callbacks_of id (events s) = [NewConnection id e]) \/
    callbacks_of id (events s) = [NewConnection id (Error_of_status OK); ConnectionClosed id (Error_of_status CONNECTION_RESET_BY_PEER)].
Proof.
  intros H Hc. cbn zeta. destruct (run_in_order s id c H Hc) as [Hone Hord]. unfold in_order, reports_due in *. destruct (accepted c); [|done].
  destruct Hord as (ds & Hf & Hds). exists ds. split; [done|]. destruct (read_failed c); auto.
Qed.

(** Nothing is called for a connection that does not exist yet. *)
Lemma no_client_no_callbacks s id : rtc run create s -> clients s !! id = None -> callbacks_of id (events s) = [].
Proof. intros H Hc. destruct (run_ordered s H) as [_ Hord]. specialize (Hord id). unfold ordered in Hord. by rewrite Hc in Hord. Qed.

End Order.

(** ** A run *)

Section Example.
#[local] Existing Instance LittleEndianHost.
#[local] Existing Instance UvFallback.

Definition keep_nothing (s : t) (chunk : TcpStream.DataChunk) (data : list Z) : outcome t :=
  Ret (on_stream s 0 (fun b => b <| TcpStream.kept ::= fun l => l ++ replicate 0 (chunk, data) |>)).

Definition first_read : t := get (on_client_read connected 0 16 [2; 10; 20; 5] keep_nothing).
Definition second_read : t := get (on_client_read first_read 0 16 [1; 2; 3; 4; 5; 1; 9] keep_nothing).
Definition at_end : t := stop_reading (get (on_client_read_failed second_read 0 (uv_code UV_EOF) 0 0 Ret)) 0.
Definition ended : t := get (on_client_close at_end 0 Ret).

Lemma keep_nothing_receives : Receives 0 keep_nothing.
Proof. intros s chunk data s' [= <-]. by exists s, 0%nat. Qed.

Lemma ended_run : rtc run create ended.
Proof.
  assert (forall s : t, m_new_connection_callback s = true -> m_data_receive_callback s = true -> m_close_connection_callback s = true -> set_up s) as Hup
    by (intros s H1 H2 H3 _; by split_and!).
  destruct connected_client as (c & Hc & Hl & Hr).
  eapply rtc_l; [split; [apply step_api, (api_listen create peer true true true 0 0 0)|by apply Hup]|]. fold listening.
  apply (rtc_l _ _ connected); [split; [|by apply Hup]; apply (step_new_connection listening incoming Ret Ret);
    [reflexivity|exact calls_ret|exact calls_ret|vm_compute; reflexivity]|].
  apply (rtc_l _ _ first_read); [split; [|by apply Hup]; eapply (step_read connected 0 _ 16 [2; 10; 20; 5] keep_nothing);
    [vm_compute; reflexivity|reflexivity|reflexivity|exact keep_nothing_receives|lia|vm_compute; discriminate|vm_compute; reflexivity]|].
  apply (rtc_l _ _ second_read); [split; [|by apply Hup]; eapply (step_read first_read 0 _ 16 [1; 2; 3; 4; 5; 1; 9] keep_nothing);
    [vm_compute; reflexivity|reflexivity|reflexivity|exact keep_nothing_receives|lia|vm_compute; discriminate|vm_compute; reflexivity]|].
  apply (rtc_l _ _ at_end); [split; [|by apply Hup];
    apply (step_read_failed second_read 0 (client second_read 0) (uv_code UV_EOF) 0 0 Ret (get (on_client_read_failed second_read 0 (uv_code UV_EOF) 0 0 Ret)));
    [vm_compute; reflexivity|reflexivity|reflexivity|exact calls_ret|vm_compute; reflexivity]|].
  apply rtc_once. split; [|by apply Hup].
  apply (step_closed at_end 0 (client at_end 0) Ret); [vm_compute; reflexivity|reflexivity|reflexivity|exact calls_ret|vm_compute; reflexivity].
Qed.

Lemma callbacks_in_order_witness :
  exists ds, callbacks_of 0 (events ended) = NewConnection 0 (Error_of_uv 0) :: map (DataReceived 0) ds ++ [ConnectionClosed 0 (Error_of_uv 0)].
Proof.
  assert (clients ended !! 0%nat = Some (client ended 0)) as Hc by (vm_compute; reflexivity).
  assert (accepted (client ended 0) = true) as Ha by (vm_compute; reflexivity).
  assert (TcpStream.closings (stream (client ended 0)) = [Error_of_uv 0]) as Hcl by (vm_compute; reflexivity).
  pose proof (callbacks_in_order ended 0 (client ended 0) ended_run Hc) as H. cbn zeta in H. rewrite Ha, Hcl in H.
  destruct H as (ds & H & _). exists ds. exact H.
Defined.

End Example.

End TcpCallbacks.
