(* ===== verification/TcpMessages.v ===== *)
(** * A message-oriented TCP server

    [GenericMessageOrientedServer<TcpServer>]: the composition of [TcpServer] and [MessageServer].  The callbacks that the TCP
    server makes are the calls of the three lambdas that the message server gave to [listen]; the calls user code makes from within
    them are part of the TCP server's run.  What [MessageServer] asks of a transport is what [TcpCallbacks] shows of this one. *)

From S2P Require Import Prelude StatusCode VariableLengthSize MessageFraming MessageServer Inet Endpoint TcpStream TcpServer TcpCallbacks.
Local Open Scope outcome_scope.

Module TcpMessages.
Import Framing MessageServer TcpCallbacks.
Import TcpServer(Client, clients, events, accepted, read_failed, stream).

(** What the TCP server calls; [contents] is what the buffer of a new wrapper happens to hold. *)
Definition action_of (contents : nat -> list Z) (e : TcpServer.Event) : option action :=
  match e with
  | TcpServer.NewConnection id error => Some (Connect id error (contents id))
  | TcpServer.DataReceived id data => Some (Data id data)
  | TcpServer.ConnectionClosed id error => Some (Close id error)
  | TcpServer.End _ _ => None
  end.

Definition actions (contents : nat -> list Z) (l : list TcpServer.Event) : list action := omap (action_of contents) l.

(** ** Histories, one client at a time *)

Definition action_client (a : action) : nat := match a with Connect c _ _ | Data c _ | DataFailed c _ _ | Close c _ => c end.

Definition extend1 (max : Z) (p : option phase) (a : action) : option phase :=
  match a, p with
  | Connect _ e contents, None =>
      if bool_decide (Z.of_nat (length contents) = max) then Some (if error_bool e then PFailed e else POpen e []) else None
  | Data _ data, Some (POpen e bs) =>
      if bool_decide (Forall byte_ok data) && negb (bool_decide ((spec_bytes max (Header []) (bs ++ data)).1 = Dead))
      then Some (POpen e (bs ++ data)) else None
  | Close _ e, Some (POpen e0 bs) => Some (PClosed e0 bs e)
  | _, _ => None
  end.

Fixpoint history1 (max : Z) (acts : list action) (p : option phase) : option (option phase) :=
  match acts with
  | [] => Some p
  | a :: acts => match extend1 max p a with Some p => history1 max acts (Some p) | None => None end
  end.

Lemma extend_local max g a :
  extend max g a = (fun p => <[action_client a := p]> g) <$> extend1 max (g !! action_client a) a.
Proof.
  destruct a as [c e contents|c data|c data e|c e]; cbn; destruct (g !! c) as [[| |]|]; try done; [by case_bool_decide|by destruct (_ && _)].
Qed.

Definition own (c : nat) (acts : list action) : list action := List.filter (fun a => bool_decide (action_client a = c)) acts.

(** Clients do not meet: a run is legal when it is for each of them. *)
Lemma history_apart max acts g :
  (forall c, exists p, history1 max (own c acts) (g !! c) = Some p) ->
  exists g', history_of max acts g = Some g' /\ forall c, history1 max (own c acts) (g !! c) = Some (g' !! c).
Proof.
  revert g. induction acts as [|a acts IH]; intros g H; [by exists g|]. cbn [history_of]. rewrite extend_local.
  destruct (H (action_client a)) as [p Hp]. cbn [own List.filter] in Hp. rewrite bool_decide_eq_true_2 in Hp by done. cbn [history1] in Hp.
  destruct (extend1 max (g !! action_client a) a) as [q|] eqn:Eq; [|done]. cbn [fmap option_fmap option_map].
  assert (forall c, history1 max (own c (a :: acts)) (g !! c) = history1 max (own c acts) (<[action_client a := q]> g !! c)) as Hstep.
  { intros c. cbn [own List.filter]. case_bool_decide as Ec.
    - subst c. rewrite lookup_insert_eq. cbn [history1]. by rewrite Eq.
    - by rewrite lookup_insert_ne. }
  destruct (IH (<[action_client a := q]> g)) as (g' & Hg' & Hc); [intros c; rewrite <- Hstep; apply H|].
  exists g'. split; [done|]. intros c. rewrite Hstep. apply Hc.
Qed.

Lemma history1_data max id e ds bs acts :
  Forall byte_ok (concat ds) -> (spec_bytes max (Header []) (bs ++ concat ds)).1 <> Dead ->
  history1 max (map (Data id) ds ++ acts) (Some (POpen e bs)) = history1 max acts (Some (POpen e (bs ++ concat ds))).
Proof.
  revert bs. induction ds as [|d ds IH]; intros bs Hb Hd; cbn [map concat app history1]; [by rewrite app_nil_r|].
  cbn [concat] in *. apply Forall_app in Hb as [Hb Hbs]. rewrite app_assoc in *. cbn [extend1].
  rewrite bool_decide_eq_true_2 by done. rewrite bool_decide_eq_false_2 by (by eapply dead_prefix). cbn [andb negb]. by apply IH.
Qed.

(** ** The callbacks of one connection as actions *)

Lemma own_actions contents id l : own id (actions contents l) = actions contents (callbacks_of id l).
Proof.
  unfold actions. induction l as [|e l IH]; [done|]. cbn [callbacks_of List.filter].
  destruct e as [c e|c e|c d|cb e]; cbn; [..|done]; case_bool_decide; cbn; unfold own, callbacks_of in IH; by rewrite IH.
Qed.

Lemma actions_data contents id ds : omap (action_of contents) (map (TcpServer.DataReceived id) ds) = map (Data id) ds.
Proof. induction ds as [|d ds IH]; [done|]. cbn. f_equal. exact IH. Qed.

Lemma received_data id e ds es :
  flat_map (fun e => match e with TcpServer.DataReceived _ data => data | _ => [] end)
    (TcpServer.NewConnection id e :: map (TcpServer.DataReceived id) ds ++ map (TcpServer.ConnectionClosed id) es) = concat ds.
Proof.
  cbn. rewrite flat_map_app. transitivity (concat ds ++ []); [f_equal|apply app_nil_r].
  - induction ds as [|d ds IH]; [done|]. cbn. by rewrite IH.
  - by induction es.
Qed.

(** What the receiver makes of the first bytes of a sequence of messages. *)
Lemma sent_prefix max sender cb ms bytes :
  m_max_message_size sender <= VariableLengthSize.MAX_VALUE -> Forall (sendable (m_max_message_size sender)) ms ->
  bytes `prefix_of` send_all sender cb ms ->
  Forall byte_ok bytes /\ (spec_bytes max (Header []) bytes).1 <> Dead /\
  (spec_bytes max (Header []) bytes).2 `prefix_of` flat_map (report max) ms /\
  (bytes = send_all sender cb ms -> (spec_bytes max (Header []) bytes).2 = flat_map (report max) ms).
Proof.
  intros Hmax Hms [rest Hrest]. rewrite send_all_frames in * by done.
  assert (Forall (sendable VariableLengthSize.MAX_VALUE) ms) as Hms'.
  { eapply Forall_impl; [exact Hms|]. intros m [Hb Hl]. split; [done|lia]. }
  pose proof (frames_fold max ms Hms') as Hfold. pose proof (frames_bytes ms Hms') as Hbytes. rewrite Hrest in Hfold, Hbytes.
  apply Forall_app in Hbytes as [Hb _]. split; [done|]. split_and!.
  - eapply dead_prefix. rewrite Hfold. done.
  - rewrite spec_bytes_app in Hfold. injection Hfold as _ Hev. rewrite <- Hev. by eexists.
  - intros E. rewrite <- Hrest, <- E in Hfold. by rewrite Hfold.
Qed.

Section Served.
Context {host : Host} {uv : UvErrno}.

(** The history of an accepted connection. *)
Definition phase_of (bytes : list Z) (closings : list Error) : phase :=
  match closings with [] => POpen (Error_of_uv 0) bytes | e :: _ => PClosed (Error_of_uv 0) bytes e end.

Lemma history_of_connection max contents s id c :
  rtc run TcpServer.create s -> clients s !! id = Some c -> read_failed c = false ->
  Z.of_nat (length (contents id)) = max -> Forall byte_ok (received id (events s)) ->
  (spec_bytes max (Header []) (received id (events s))).1 <> Dead ->
  exists p, history1 max (own id (actions contents (events s))) None = Some (Some p) /\
    (accepted c = true -> p = phase_of (received id (events s)) (TcpStream.closings (stream c))).
Proof.
  intros Hrun Hc Hf Hlen Hb Hd. rewrite own_actions. destruct (run_in_order s id c Hrun Hc) as [Hone Hord].
  unfold in_order, TcpServer.reports_due in *. rewrite Hf in Hone. unfold received in *. destruct (accepted c).
  - destruct Hord as (ds & _ & Hds). rewrite Hds in *. rewrite received_data in *.
    exists (phase_of (concat ds) (TcpStream.closings (stream c))). split; [|done].
    unfold actions. cbn [omap list_omap action_of history1 extend1]. rewrite bool_decide_eq_true_2 by done. rewrite error_bool_of_uv. cbn [Z.ltb Z.compare].
    rewrite omap_app, actions_data. rewrite history1_data by done. cbn [app]. destruct (TcpStream.closings (stream c)) as [|e [|e' es]]; [done|done|cbn in Hone; lia].
  - destruct Hord as [[e He]|He]; rewrite He; unfold actions; cbn [omap list_omap action_of history1 extend1]; rewrite bool_decide_eq_true_2 by done;
      cbn; by eexists.
Qed.

(** ** Property *)

(** C4. A message-oriented TCP server.  Over every run of the TCP server under it, with any number of connections, any way
    the network cuts their streams, and whatever user code does in its callbacks, as long as libuv never refuses to read:
    no callback touches a wrapper that does not exist; and each accepted connection is seen as its announcement, then reports of the messages
    that its peer sent, in order, once each and unchanged (or as too long), then its end if it has ended.  The reports are all
    those of the messages whose bytes have arrived. *)
Theorem tcp_messages_served max contents sender cb (sent : nat -> list (list Z)) s :
  rtc run TcpServer.create s -> (forall id c, clients s !! id = Some c -> read_failed c = false) ->
  (forall id, Z.of_nat (length (contents id)) = max) ->
  m_max_message_size sender <= VariableLengthSize.MAX_VALUE -> (forall id, Forall (sendable (m_max_message_size sender)) (sent id)) ->
  (forall id, received id (events s) `prefix_of` send_all sender cb (sent id)) ->
  exists m, serve max true true true (actions contents (events s)) GenericMessageOrientedServer = Ret m /\
    forall id c, clients s !! id = Some c -> accepted c = true ->
      exists reports, reports `prefix_of` flat_map (report max) (sent id) /\
        (received id (events s) = send_all sender cb (sent id) -> reports = flat_map (report max) (sent id)) /\
        events_of id (log m) = NewConnection (Error_of_uv 0) :: map Message reports ++ map CloseConnection (TcpStream.closings (stream c)).
Proof.
  intros Hrun Hf Hlen Hmax Hsend Hpre.
  assert (forall id, Forall byte_ok (received id (events s)) /\ (spec_bytes max (Header []) (received id (events s))).1 <> Dead) as Hlegal
    by (intros id; destruct (sent_prefix max sender cb (sent id) _ Hmax (Hsend id) (Hpre id)) as (? & ? & _); done).
  destruct (history_apart max (actions contents (events s)) ∅) as (g & Hg & Hat).
  { intros id. rewrite lookup_empty. destruct (clients s !! id) as [c|] eqn:Hc.
    - destruct (history_of_connection max contents s id c) as (p & -> & _); [done|done|by apply (Hf id)|done|apply Hlegal..|]. by eexists.
    - rewrite own_actions, (no_client_no_callbacks s id) by done. by eexists. }
  destruct (inv_serve max true true true _ _ _ g (inv_empty _ _ _ _) Hg) as (m & Hm & Hinv). exists m. split; [done|].
  intros id c Hc Ha. exists (spec_bytes max (Header []) (received id (events s))).2.
  destruct (history_of_connection max contents s id c) as (p & Hp & Hphase); [done|done|by apply (Hf id)|done|apply Hlegal..|].
  specialize (Hat id). rewrite lookup_empty, Hp in Hat. injection Hat as Hat. specialize (Hphase Ha).
  destruct (sent_prefix max sender cb (sent id) _ Hmax (Hsend id) (Hpre id)) as (_ & _ & Hp1 & Hp2).
  split_and!; [done|done|].
  rewrite (inv_log _ _ _ _ _ _ Hinv id), <- Hat, Hphase.
  destruct (run_in_order s id c Hrun Hc) as [Hone _]. unfold TcpServer.reports_due in Hone. rewrite (Hf id c Hc) in Hone.
  unfold phase_of. destruct (TcpStream.closings (stream c)) as [|e [|e' es]]; [by rewrite app_nil_r|done|cbn in Hone; lia].
Qed.

End Served.

(** ** A run *)

Section Example.
#[local] Existing Instance LittleEndianHost.
#[local] Existing Instance UvFallback.

(** The peer of the only connection sends three messages, the second of them too long for the receiver. *)
Definition sample_messages (id : nat) : list (list Z) := match id with O => [[10; 20]; [1; 2; 3; 4; 5]; [9]] | _ => [] end.

Lemma ended_clients : clients ended = {[0%nat := TcpServer.client ended 0]}.
Proof. vm_compute. reflexivity. Qed.

Lemma ended_readable id c : clients ended !! id = Some c -> read_failed c = false.
Proof. rewrite ended_clients. intros [_ <-]%lookup_singleton_Some. vm_compute. reflexivity. Qed.

Lemma ended_no_other id : received (S id) (events ended) = [].
Proof. vm_compute. reflexivity. Qed.

Lemma tcp_messages_served_witness :
  exists m, serve 4 true true true (actions (fun _ => [0; 0; 0; 0]) (events ended)) GenericMessageOrientedServer = Ret m /\
    events_of 0 (log m) = NewConnection (Error_of_uv 0) ::
      map Message [Received (Some [10; 20]) 2 OK; Received None 5 MESSAGE_TOO_LONG; Received (Some [9]) 1 OK] ++ [CloseConnection (Error_of_uv 0)].
Proof.
  assert (clients ended !! 0%nat = Some (TcpServer.client ended 0)) as Hc by (vm_compute; reflexivity).
  assert (accepted (TcpServer.client ended 0) = true) as Ha by (vm_compute; reflexivity).
  assert (TcpStream.closings (stream (TcpServer.client ended 0)) = [Error_of_uv 0]) as Hcl by (vm_compute; reflexivity).
  assert (received 0 (events ended) = send_all (create 100 []) true (sample_messages 0)) as Hall by (vm_compute; reflexivity).
  destruct (tcp_messages_served 4 (fun _ => [0; 0; 0; 0]) (create 100 []) true sample_messages ended ended_run) as (m & Hm & Hev).
  - exact ended_readable.
  - reflexivity.
  - vm_compute. discriminate.
  - intros [|id]; repeat constructor; simpl; lia.
  - intros [|id]; [rewrite Hall; done|]. rewrite ended_no_other. apply prefix_nil.
  - exists m. split; [exact Hm|]. destruct (Hev 0%nat _ Hc Ha) as (reports & _ & Hrep & ->). rewrite (Hrep Hall), Hcl. reflexivity.
Defined.

(** The exception: when libuv refuses to read a connection, [TcpServer] reports its end twice, and the message server follows the
    null pointer that the first report left. *)
Example refused_read_faults :
  let s := TcpServer.get (TcpServer.on_new_connection TcpServer.listening
             (TcpServer.mkIncoming 0 0 0 0 (Endpoint.raw_endpoint TcpServer.peer) (-107)) Ret Ret) in
  let s := TcpServer.get (TcpServer.run_scheduled s Ret) in
  let s := TcpServer.get (TcpServer.close_client s 0) in
  let s := TcpServer.get (TcpServer.on_client_close s 0 Ret) in
  serve 4 true true true (actions (fun _ => [0; 0; 0; 0]) (events s)) GenericMessageOrientedServer = Fault NullDeref.
Proof. vm_compute. reflexivity. Qed.

End Example.

End TcpMessages.
