(* ===== verification/TcpClient.v ===== *)
(** * TcpClient

    [source/io/net/TcpClient.cpp], on top of [TcpStream].

    A client can have several libuv handles at a time: the one in [m_tcp_stream] and handles that were
    given to [uv_close] and are not closed yet; [handles] has them all, with what libuv still owes
    them.  A handle's [data] member is the client or, once the client has let go of it, null.
    [connects] are the calls of [connect_impl] scheduled on the loop.  A user callback that is not
    called last is an argument of the handler that calls it, a function from the state at the call to
    the state when it returns.  Statuses returned by libuv are arguments. *)

From S2P Require Import Prelude StatusCode Inet Endpoint TcpStream.
Import TcpStream(DataChunk, Derived, base, set_base, base_set_base).
Local Open Scope outcome_scope.
Local Open Scope record_scope.

Module TcpClient.

(** The connect request of a handle: libuv has it, or libuv has it and the client has freed it, or [uv_tcp_connect] has refused it. *)
Inductive Request := NoRequest | Pending | Freed | Refused.

#[global] Instance request_eq_dec : EqDecision Request.
Proof. solve_decision. Defined.

Record Handle := mkHandle {
  inited : bool;
  closing : bool;
  (** [data] is the client. *)
  data : bool;
  connect_req : Request;
  shutdown_req : bool;
  reading : bool;
  (** The connection was established. *)
  established : bool
}.

#[global] Instance handle_settable : Settable Handle :=
  settable! mkHandle < inited; closing; data; connect_req; shutdown_req; reading; established >.

(** A call of [connect_impl]: the endpoint and which callbacks there are. *)
Record Connect := mkConnect {
  endpoint : Endpoint.t;
  connect_callback : bool;
  receive_callback : bool;
  close_callback : bool
}.

Record t := mk {
  stream : TcpStream.t;
  m_connect_callback : bool;
  (** The handle of the request in [m_connect_req]. *)
  m_connect_req : option nat;
  m_receive_callback : bool;
  m_want_delete_object : bool;
  handles : gmap nat Handle;
  connects : list Connect;
  removals : nat;
  (** Calls of [connect] with a connect callback; connections established with a close callback. *)
  asked_connects : nat;
  opened : nat;
  (** Calls of the close callback besides the one for an established connection. *)
  extra : nat
}.

#[global] Instance t_settable : Settable t :=
  settable! mk < stream; m_connect_callback; m_connect_req; m_receive_callback; m_want_delete_object; handles; connects;
                 removals; asked_connects; opened; extra >.

Definition create : t := mk TcpStream.create false None false false ∅ [] 0 0 0 0.

#[global] Instance client_derived : Derived t := {
  base := stream; set_base s b := s <| stream := b |>; base_set_base s b := eq_refl
}.

Definition emit (s : t) (e : TcpStream.Event) : t := s <| stream ::= fun b => TcpStream.emit b e |>.
Definition m_tcp_stream (s : t) : option nat := TcpStream.m_tcp_stream (stream s).
Definition m_close_callback (s : t) : bool := TcpStream.m_close_callback (stream s).
Definition is_open (s : t) : bool := TcpStream.is_open (stream s).
Definition set_tcp_stream (s : t) (h : option nat) : t := s <| stream ::= fun b => b <| TcpStream.m_tcp_stream := h |> |>.
Definition set_is_open (s : t) (o : bool) : t := s <| stream ::= fun b => b <| TcpStream.m_is_open := o |> |>.
Definition set_close_callback (s : t) (c : bool) : t := s <| stream ::= fun b => b <| TcpStream.m_close_callback := c |> |>.

Section Client.
Context {uv : UvErrno}.

Definition on_handle (s : t) (h : nat) (f : Handle -> outcome Handle) : outcome t :=
  match handles s !! h with
  | None => Fault UseAfterFree
  | Some hs => let* hs := f hs in Ret (s <| handles ::= insert h hs |>)
  end.

(** [uv_close]: of an initialised handle that is not closing. *)
Definition uv_close (hs : Handle) : outcome Handle :=
  check (inited hs) else Uninitialised in
  check (negb (closing hs)) else AssertFailed in
  Ret (hs <| closing := true |> <| reading := false |>).

Lemma uv_close_ok hs : inited hs = true -> closing hs = false -> uv_close hs = Ret (hs <| closing := true |> <| reading := false |>).
Proof. unfold uv_close. by intros -> ->. Qed.

Definition uv_is_closing (s : t) (h : nat) : bool := match handles s !! h with Some hs => closing hs | None => true end.

(** ** Connecting *)

Definition connect (s : t) (c : Connect) : outcome t :=
  let* s :=
    match m_tcp_stream s with
    | None => Ret s
    | Some h =>
        let* s := on_handle s h (fun hs => uv_close (hs <| data := false |>)) in
        Ret (set_tcp_stream s None)
    end in
  Ret (s <| connects ::= fun l => l ++ [c] |> <| asked_connects ::= fun n => if connect_callback c then S n else n |>).

Definition connected (s : t) (callback : bool) (error : Error) : t :=
  if callback then emit s (TcpStream.Connected error) else s.

(** [m_connect_req.reset(new uv_connect_t)]: a request libuv still has is freed. *)
Definition reset_connect_req (s : t) : t :=
  match m_connect_req s with
  | None => s
  | Some h => s <| handles ::= alter (fun hs => match connect_req hs with Pending => hs <| connect_req := Freed |> | _ => hs end) h |>
  end.

(** [connect_impl], run by the loop; the connect callback is called last. *)
Definition connect_impl (s : t) (c : Connect) (init_status connect_status : Z) : outcome t :=
  if bool_decide (Endpoint.m_type (endpoint c) = Endpoint.UNDEFINED)
  then Ret (connected s (connect_callback c) (Error_of_status INVALID_ARGUMENT))
  else
    let s := s <| stream ::= fun b => b <| TcpStream.m_destination_endpoint := endpoint c |> |> in
    let* (b, init_error) := TcpStream.init_stream (stream s) init_status in
    let h := TcpStream.next_handle (stream s) in
    let s := s <| stream := b |> in
    if error_bool init_error then
      let s := s <| handles ::= insert h (mkHandle false false true NoRequest false false false) |> in
      Ret (connected s (connect_callback c) (Error_of_status INVALID_ARGUMENT))
    else
      let s := (reset_connect_req s) <| m_connect_req := Some h |> in
      let s := s <| m_connect_callback := connect_callback c |> <| m_receive_callback := receive_callback c |> in
      let s := set_close_callback s (close_callback c) in
      let connect_error := Error_of_uv connect_status in
      if error_bool connect_error then
        let s := s <| handles ::= insert h (mkHandle true false true Refused false false false) |> in
        Ret (connected s (m_connect_callback s) connect_error)
      else Ret (s <| handles ::= insert h (mkHandle true false true Pending false false false) |>).

(** The loop runs the first scheduled [connect_impl]. *)
Definition run_connect (s : t) (init_status connect_status : Z) : outcome t :=
  match connects s with
  | [] => Ret s
  | c :: rest => connect_impl (s <| connects := rest |>) c init_status connect_status
  end.

(** The connect and close callbacks, with what the user does in them. *)
Definition call_connect (s : t) (error : Error) (user : t -> outcome t) : outcome t :=
  if m_connect_callback s then user (emit s (TcpStream.Connected error)) else Ret s.
Definition call_close (s : t) (error : Error) (user : t -> outcome t) : outcome t :=
  if m_close_callback s then user (emit s (TcpStream.Closed error)) else Ret s.

(** The close callback is about to be called without an end of an established connection. *)
Definition count_extra (s : t) : t := if m_close_callback s then s <| extra ::= S |> else s.

(** [on_connect]; [read_status] is what [uv_read_start] returns. *)
Definition on_connect (s : t) (h : nat) (uv_status read_status : Z) (connect_user close_user : t -> outcome t) : outcome t :=
  let error := Error_of_uv uv_status in
  let* s := on_handle s h (fun hs =>
    check (negb (bool_decide (connect_req hs = Freed))) else UseAfterFree in
    Ret (hs <| connect_req := NoRequest |> <| established := negb (error_bool error) |>)) in
  let reset := bool_decide (code error = CONNECTION_RESET_BY_PEER) in
  let s := set_is_open s (negb (error_bool error)) in
  let s := if (negb (error_bool error) || reset) && m_close_callback s then s <| opened ::= S |> else s in
  let* s :=
    if reset then
      let* s := call_connect s (Error_of_status OK) connect_user in
      if m_close_callback s then
        let* s := close_user (emit s (TcpStream.Closed error)) in
        Ret (set_close_callback s false)
      else Ret s
    else
      let s := if error_bool error then set_close_callback (s <| m_receive_callback := false |>) false else s in
      call_connect s error connect_user in
  if is_open s then
    let read_error := Error_of_uv read_status in
    if error_bool read_error then Ret ((count_extra s) <| stream ::= fun b => TcpStream.on_read_error b read_error |>)
    else on_handle s h (fun hs => Ret (hs <| reading := true |>))
  else Ret s.

(** ** Closing *)

(** [close]: whether there was nothing to close. *)
Definition close (s : t) : outcome (t * bool) :=
  let s := set_is_open s false in
  match m_tcp_stream s with
  | None => Ret (s, true)
  | Some h =>
      if uv_is_closing s h then Ret (s, true)
      else
        let* s := on_handle s h uv_close in
        Ret (set_tcp_stream s None, false)
  end.

(** [uv_tcp_close_reset] may refuse; the client lets go of the handle all the same. *)
Definition close_with_reset (s : t) (uv_status : Z) : outcome t :=
  let s := set_is_open s false in
  match m_tcp_stream s with
  | None => Ret s
  | Some h =>
      if uv_is_closing s h then Ret s
      else
        let* s := if uv_status <? 0 then Ret s else on_handle s h uv_close in
        Ret (set_tcp_stream s None)
  end.

(** [TcpClient::schedule_removal], with [Impl::schedule_removal]. *)
Definition schedule_removal (s : t) : outcome t :=
  let s := s <| m_want_delete_object := true |> in
  let* (s, ready_to_remove) := close s in
  Ret (if ready_to_remove then s <| removals ::= S |> else s).

Definition shutdown (s : t) (uv_status : Z) : outcome t :=
  if negb (is_open s) then Ret s
  else
    match m_tcp_stream s with
    | None => Fault NullDeref
    | Some h => if uv_status <? 0 then Ret s else on_handle s h (fun hs => Ret (hs <| shutdown_req := true |>))
    end.

Definition on_shutdown (s : t) (h : nat) (uv_status : Z) (user : t -> outcome t) : outcome t :=
  let* s := on_handle s h (fun hs => Ret (hs <| shutdown_req := false |>)) in
  let error := Error_of_uv uv_status in
  let* s := if error_bool error then call_close (count_extra s) error user else Ret s in
  let s := set_is_open s false in
  match m_tcp_stream s with
  | None => Fault NullDeref
  | Some current =>
      if uv_is_closing s current then Ret s
      else
        let* s := on_handle s h uv_close in
        Ret (set_tcp_stream s None)
  end.

Definition on_close (s : t) (h : nat) (user : t -> outcome t) : outcome t :=
  match handles s !! h with
  | None => Fault UseAfterFree
  | Some hs =>
      let s := s <| handles ::= delete h |> in
      if data hs then
        let should_delete := m_want_delete_object s in
        let* s := call_close (if bool_decide (connect_req hs = Refused) then count_extra s else s) (Error_of_uv 0) user in
        let s := s <| stream ::= fun b => b <| TcpStream.m_destination_endpoint ::= Endpoint.clear |> |> in
        if should_delete then schedule_removal s else Ret s
      else Ret s
  end.

(** ** Reading and writing *)

Definition on_read (s : t) (suggested_size : Z) (bytes : list Z)
    (user : t -> DataChunk -> list Z -> outcome t) : outcome t :=
  TcpStream.uv_read (s <| m_connect_req := None |>) suggested_size bytes (m_receive_callback s) user.

(** [on_read] for an error; [getter_status] and [value] are what [SO_ERROR] gives. *)
Definition on_read_failed (s : t) (nread getter_status value : Z) (user : t -> outcome t) : outcome t :=
  let s := s <| m_connect_req := None |> in
  let* error := TcpStream.read_error (stream s) (Error_of_uv nread) getter_status value in
  if m_close_callback s then
    let s := set_is_open s false in
    match m_tcp_stream s with
    | None => Fault NullDeref
    | Some old_tcp_stream =>
        let* s := on_handle s old_tcp_stream (fun hs => Ret (hs <| data := false |>)) in
        let s := set_tcp_stream s None in
        let* s := call_close s (TcpStream.close_reason error) user in
        on_handle s old_tcp_stream uv_close
    end
  else Ret s.

Definition send_data (s : t) (buffer : option (list Z)) (size : Z) (callback : bool) (uv_status : Z) : outcome t :=
  let* b := TcpStream.send_data (stream s) buffer size callback uv_status in Ret (s <| stream := b |>).

Definition after_write (s : t) (i : nat) (uv_status : Z) : outcome t :=
  let* b := TcpStream.after_write (stream s) i uv_status in Ret (s <| stream := b |>).

(** ** Runs

    User code calls [connect] only on a client that has no connection, established or under way, and leaves a
    connection alone while its shutdown is under way; libuv does not refuse a reset.  Without that the client
    dereferences null pointers or loses track of a handle, see below. *)

Definition calm (s : t) : Prop := forall h hs, handles s !! h = Some hs -> shutdown_req hs = false.

Definition can_connect (s : t) : Prop :=
  calm s /\ connects s = [] /\ is_open s = false /\
  (forall h hs, handles s !! h = Some hs -> data hs = true -> m_tcp_stream s = Some h /\ connect_req hs <> Pending).

Inductive api (s : t) : t -> Prop :=
| api_connect c s' : can_connect s -> connect s c = Ret s' -> api s s'
| api_close s' b : calm s -> close s = Ret (s', b) -> api s s'
| api_close_with_reset st s' : calm s -> 0 <= st -> close_with_reset s st = Ret s' -> api s s'
| api_schedule_removal s' : calm s -> schedule_removal s = Ret s' -> api s s'
| api_shutdown st s' : calm s -> shutdown s st = Ret s' -> api s s'
| api_send_data buffer size cb st s' : TcpStream.valid_buffer buffer size -> send_data s buffer size cb st = Ret s' -> api s s'
| api_release f : api s (s <| stream ::= fun b => b <| TcpStream.kept ::= List.filter f |> |>).

(** A user callback returns and has made such calls; a receive callback may also keep its chunk.  [Stays]: the callback leaves the connection in place. *)
Definition Calls (user : t -> outcome t) : Prop := forall s, returns (user s) (rtc api s).
Definition Stays (user : t -> outcome t) : Prop := forall s, calm s -> returns (user s) (fun s' => rtc api s s' /\ m_tcp_stream s' = m_tcp_stream s /\ calm s').
Definition Receives (user : t -> DataChunk -> list Z -> outcome t) : Prop :=
  forall s chunk bytes, returns (user s chunk bytes) (fun s' => exists s1 n, rtc api s s1 /\
    s' = s1 <| stream ::= fun b => b <| TcpStream.kept ::= fun l => l ++ replicate n (chunk, bytes) |> |>).

(** ** The invariant *)

(** A request that was refused belongs to no connection. *)
Definition request_ok (hs : Handle) : Prop := match connect_req hs with Freed => False | Refused => established hs = false | _ => True end.

(** A handle: every one that is not closing is the client's, or [x], the one whose read failure is being handled. *)
Record handle_ok (x : option nat) (s : t) (h : nat) (hs : Handle) : Prop := {
  ok_inited : inited hs = true;
  ok_bound : (h < TcpStream.next_handle (stream s))%nat;
  ok_alive : closing hs = false -> m_tcp_stream s = Some h \/ x = Some h;
  ok_request : request_ok hs;
  ok_pending : connect_req hs = Pending -> data hs = true /\ established hs = false;
  ok_reading : reading hs = true -> established hs = true /\ closing hs = false;
  ok_shutdown : shutdown_req hs = true -> established hs = true /\ closing hs = false /\ data hs = true
}.

(** The handles and how the client refers to them. *)
Record shape (x : option nat) (s : t) : Prop := {
  sh_current : forall h, m_tcp_stream s = Some h -> exists hs, handles s !! h = Some hs /\ closing hs = false /\ data hs = true;
  sh_handle : forall h hs, handles s !! h = Some hs -> handle_ok x s h hs;
  sh_unique : forall h1 h2 hs1 hs2, handles s !! h1 = Some hs1 -> handles s !! h2 = Some hs2 ->
    data hs1 = true -> data hs2 = true -> h1 = h2;
  sh_open : is_open s = true -> exists h hs, m_tcp_stream s = Some h /\ handles s !! h = Some hs /\ established hs = true;
  sh_established : forall h hs, m_tcp_stream s = Some h -> handles s !! h = Some hs -> established hs = true -> is_open s = true;
  sh_connects : connects s <> [] -> length (connects s) = 1%nat /\ m_tcp_stream s = None /\
    forall h hs, handles s !! h = Some hs -> data hs = false;
  sh_detached : forall h, x = Some h -> exists hs, handles s !! h = Some hs /\ closing hs = false /\ data hs = false /\
    shutdown_req hs = false /\ m_tcp_stream s <> Some h
}.

(** What the shape depends on. *)
Definition shape_view (s : t) := (m_tcp_stream s, handles s, connects s, TcpStream.next_handle (stream s)).

Lemma shape_frame x s s' : shape_view s' = shape_view s -> is_open s' = is_open s -> shape x s -> shape x s'.
Proof.
  intros [= E1 E2 E3 E4] Ho [H1 H2 H3 H4 He H5 H6]. split; rewrite ?E1, ?E2, ?E3, ?Ho; try done.
  intros h hs Hh. destruct (H2 h hs Hh). by split; rewrite ?E1, ?E4.
Qed.

(** The current handle changes and stays current. *)
Lemma shape_update x s h hs hs' :
  shape x s -> m_tcp_stream s = Some h -> handles s !! h = Some hs ->
  handle_ok x s h hs' -> closing hs' = false -> data hs' = true ->
  forall s', shape_view s' = (m_tcp_stream s, <[h := hs']> (handles s), connects s, TcpStream.next_handle (stream s)) ->
  is_open s' = established hs' -> shape x s'.
Proof.
  intros [H1 H2 H3 H4 He H5 H6] Hm Hh Hok Hcl Hd s' [= E1 E2 E3 E4] Ho.
  destruct (H1 h Hm) as (hs0 & Hh0 & _ & Hd0). rewrite Hh in Hh0. injection Hh0 as <-.
  split; rewrite ?E1, ?E2, ?E3.
  - intros h' Hm'. rewrite Hm in Hm'. injection Hm' as <-. exists hs'. by rewrite lookup_insert_eq.
  - intros h' hs1. destruct (decide (h' = h)) as [->|Hne].
    + rewrite lookup_insert_eq. intros [= <-]. destruct Hok. by split; rewrite ?E1, ?E4.
    + rewrite lookup_insert_ne by done. intros Hh1. destruct (H2 h' hs1 Hh1). by split; rewrite ?E1, ?E4.
  - intros h1 h2 hs1 hs2. destruct (decide (h1 = h)) as [->|]; destruct (decide (h2 = h)) as [->|];
      rewrite ?lookup_insert_eq, ?lookup_insert_ne by done; try done.
    + intros [= <-] Hh2 _ Hd2. by apply (H3 h h2 hs hs2).
    + intros Hh1 [= <-] Hd1 _. by apply (H3 h1 h hs1 hs).
    + by apply H3.
  - intros Hop. exists h, hs'. by rewrite lookup_insert_eq, <- Ho.
  - intros h' hs1 Hm'. rewrite Hm in Hm'. injection Hm' as <-. rewrite lookup_insert_eq. intros [= <-]. by rewrite Ho.
  - intros Hc. destruct (H5 Hc) as (? & Hx & _). congruence.
  - intros h' Hx. destruct (H6 h' Hx) as (hs1 & ? & ? & ? & ? & Hne). exists hs1. rewrite lookup_insert_ne by congruence. done.
Qed.

(** The client lets go of its handle, which becomes [hs']: closing, or detached as [x]. *)
Lemma shape_release x y s h hs hs' :
  shape x s -> m_tcp_stream s = Some h -> handles s !! h = Some hs -> y = x \/ x = None ->
  inited hs' = true -> (closing hs' = false -> y = Some h /\ data hs' = false) -> (y = Some h -> closing hs' = false) ->
  connect_req hs' = connect_req hs -> established hs' = established hs -> (connect_req hs = Pending -> data hs' = true) ->
  (reading hs' = true -> established hs = true /\ closing hs' = false) -> shutdown_req hs' = false -> (y = x \/ y = Some h) ->
  forall s', shape_view s' = (None, <[h := hs']> (handles s), connects s, TcpStream.next_handle (stream s)) ->
  is_open s' = false -> shape y s'.
Proof.
  intros [H1 H2 H3 H4 He0 H5 H6] Hm Hh Hyx Hin Hcl Hyc Hcr He Hp Hr Hsd Hy s' [= E1 E2 E3 E4] Ho.
  destruct (H1 h Hm) as (hs0 & Hh0 & _ & Hd0). rewrite Hh in Hh0. injection Hh0 as <-. destruct (H2 h hs Hh) as [_ Hb _ Hfr Hpe _ _].
  split; rewrite ?E1, ?E2, ?E3; try done.
  - intros h' hs1. destruct (decide (h' = h)) as [->|Hne].
    + rewrite lookup_insert_eq. intros [= <-]. split; rewrite ?E1, ?E4; try done; try congruence.
      * intros Hc. right. by apply Hcl.
      * unfold request_ok in *. by rewrite Hcr, He.
      * rewrite Hcr. intros Hpd. split; [by apply Hp|]. rewrite He. by apply Hpe.
      * rewrite He. exact Hr.
    + rewrite lookup_insert_ne by done. intros Hh1. destruct (H2 h' hs1 Hh1) as [? ? Hal ? ? ? ?]. split; rewrite ?E1, ?E4; try done.
      intros Hc. destruct (Hal Hc) as [?|Hx]; [congruence|]. destruct Hyx as [->| ->]; [by right|done].
  - intros h1 h2 hs1 hs2. destruct (decide (h1 = h)) as [->|]; destruct (decide (h2 = h)) as [->|];
      rewrite ?lookup_insert_eq, ?lookup_insert_ne by done; try done.
    + intros [= <-] Hh2 _ Hd2. by apply (H3 h h2 hs hs2).
    + intros Hh1 [= <-] Hd1 _. by apply (H3 h1 h hs1 hs).
    + by apply H3.
  - by rewrite Ho.
  - intros Hc. destruct (H5 Hc) as (? & Hx & _). congruence.
  - intros h' Hyh. destruct (decide (h' = h)) as [->|Hne].
    + exists hs'. rewrite lookup_insert_eq. split_and!; try done; [by apply Hyc|]. by apply Hcl, Hyc.
    + destruct Hy as [->|Hy]; [|congruence]. destruct (H6 h' Hyh) as (hs1 & ? & ? & ? & ? & _). exists hs1.
      rewrite lookup_insert_ne by congruence. done.
Qed.

(** libuv is done with a closing handle. *)
Lemma shape_delete x s h hs s' :
  shape x s -> handles s !! h = Some hs -> closing hs = true ->
  shape_view s' = (m_tcp_stream s, delete h (handles s), connects s, TcpStream.next_handle (stream s)) ->
  is_open s' = is_open s -> shape x s'.
Proof.
  intros [H1 H2 H3 H4 He H5 H6] Hh Hcl [= E1 E2 E3 E4] Ho.
  assert (forall h', m_tcp_stream s = Some h' -> h' <> h) as Hcur.
  { intros h' Hm ->. destruct (H1 h Hm) as (hs0 & Hh0 & ? & _). congruence. }
  assert (forall h' hs', delete h (handles s) !! h' = Some hs' -> h' <> h /\ handles s !! h' = Some hs') as Hdel
    by (intros h' hs'; rewrite lookup_delete_Some; intros [? ?]; by split).
  split; rewrite ?E1, ?E2, ?E3, ?Ho.
  - intros h' Hm. destruct (H1 h' Hm) as (hs' & ? & ?). exists hs'. rewrite lookup_delete_ne; [done|]. by apply not_eq_sym, Hcur.
  - intros h' hs' [_ Hh']%Hdel. destruct (H2 h' hs' Hh'). by split; rewrite ?E1, ?E4.
  - intros h1 h2 hs1 hs2 [_ ?]%Hdel [_ ?]%Hdel. by apply (H3 h1 h2 hs1 hs2).
  - intros Hop. destruct (H4 Hop) as (h' & hs' & Hm & Hh' & ?). exists h', hs'. split_and!; [done| |done].
    rewrite lookup_delete_ne; [done|]. by apply not_eq_sym, Hcur.
  - intros h' hs' Hm [_ Hh']%Hdel. by apply (He h' hs').
  - intros Hc. destruct (H5 Hc) as (? & ? & Hall). split_and!; try done. intros h' hs' [_ Hh']%Hdel. by apply (Hall h').
  - intros h' Hx. destruct (H6 h' Hx) as (hs' & Hh' & ? & ?). exists hs'. rewrite lookup_delete_ne; [done|]. intros ->. congruence.
Qed.

(** [connect_impl] makes a new handle. *)
Lemma shape_add s hs s' :
  shape None s -> m_tcp_stream s = None -> (forall h hs, handles s !! h = Some hs -> data hs = false) ->
  inited hs = true -> closing hs = false -> data hs = true -> request_ok hs ->
  reading hs = false -> shutdown_req hs = false -> established hs = false ->
  let h := TcpStream.next_handle (stream s) in
  shape_view s' = (Some h, <[h := hs]> (handles s), [], S h) -> is_open s' = false -> shape None s'.
Proof.
  intros [H1 H2 H3 H4 He H5 H6] Hm Hall Hin Hcl Hd Hfr Hrd Hsd Hes h [= E1 E2 E3 E4] Ho.
  assert (forall h' hs', <[h := hs]> (handles s) !! h' = Some hs' -> (h' = h /\ hs' = hs) \/ (h' <> h /\ handles s !! h' = Some hs')) as Hins.
  { intros h' hs'. rewrite lookup_insert_Some. intros [[<- <-]|[? ?]]; [by left|by right]. }
  split; rewrite ?E1, ?E2, ?E3, ?Ho; try done.
  - intros h' [= <-]. exists hs. by rewrite lookup_insert_eq.
  - intros h' hs' [[-> ->]|[Hne Hh']]%Hins.
    + split; rewrite ?E1, ?E4; try done; try congruence; [lia|by left].
    + destruct (H2 h' hs' Hh') as [? Hb Hal ? ? ? ?]. split; rewrite ?E1, ?E4; try done; [lia|]. intros Hc. destruct (Hal Hc); congruence.
  - intros h1 h2 hs1 hs2 [[-> ->]|[Hn1 Hh1]]%Hins [[-> ->]|[Hn2 Hh2]]%Hins Hd1 Hd2; try done;
      [apply Hall in Hh2|apply Hall in Hh1|apply Hall in Hh1]; congruence.
  - intros h' hs' [= <-]. rewrite lookup_insert_eq. intros [= <-]. congruence.
Qed.

(** ** The calls of callbacks, counted *)

Definition pending (s : t) : Prop := exists h hs, handles s !! h = Some hs /\ connect_req hs = Pending.
Definition owes (s : t) : Prop := exists h hs, handles s !! h = Some hs /\ data hs = true /\ established hs = true.

Definition connected_of (e : TcpStream.Event) : option Error := match e with TcpStream.Connected error => Some error | _ => None end.
Definition n_connected (s : t) : nat := length (omap connected_of (TcpStream.events (stream s))).
Definition n_closed (s : t) : nat := length (TcpStream.closings (stream s)).

(** Every [connect] made with a callback has had it called, is scheduled, or is under way.  Every connection
    established with a close callback has had it called or still owes it, besides the calls counted in [extra]; [r] is
    the number of calls the handler that is running is about to make. *)
Record counts (r : option nat) (s : t) : Prop := {
  c_connect : forall b : bool, (b = true <-> pending s /\ m_connect_callback s = true) ->
    (n_connected s + length (List.filter connect_callback (connects s)) + Nat.b2n b = asked_connects s)%nat;
  c_close : forall b : bool, (b = true <-> owes s /\ m_close_callback s = true) ->
    (n_closed s + Nat.b2n b + default 0%nat r = opened s + extra s)%nat;
  c_quiet : r = None -> forall h hs, handles s !! h = Some hs -> data hs = true -> connect_req hs = NoRequest ->
    established hs = false -> m_close_callback s = false;
  c_owes : r <> None -> ~ owes s
}.

Record inv (x r : option nat) (s : t) : Prop := {
  inv_writes : TcpStream.writes_ok (stream s);
  inv_reads : TcpStream.reads_ok (stream s);
  inv_shape : shape x s;
  inv_counts : counts r s
}.
Arguments inv_writes {x r} s.
Arguments inv_reads {x r} s.
Arguments inv_shape {x r} s.
Arguments inv_counts {x r} s.

(** The handles as far as the counts depend on them. *)
Definition same_handles (m m' : gmap nat Handle) : Prop :=
  forall h, option_Forall2 (fun hs hs' => connect_req hs' = connect_req hs /\ data hs' = data hs /\ established hs' = established hs) (m !! h) (m' !! h).

Lemma same_handles_refl m : same_handles m m.
Proof. intros h. by apply option_Forall2_refl. Qed.

Lemma same_handles_insert m h hs hs' : m !! h = Some hs -> connect_req hs' = connect_req hs -> data hs' = data hs ->
  established hs' = established hs -> same_handles m (<[h := hs']> m).
Proof.
  intros Hh E1 E2 E3 h'. destruct (decide (h' = h)) as [->|Hne]; [rewrite lookup_insert_eq, Hh; by constructor|].
  rewrite lookup_insert_ne by done. by apply option_Forall2_refl.
Qed.

Definition count_view (s : t) :=
  (m_connect_callback s, m_close_callback s, n_connected s, n_closed s, connects s, asked_connects s, opened s, extra s).

Lemma counts_frame r s s' : same_handles (handles s) (handles s') -> count_view s' = count_view s -> counts r s -> counts r s'.
Proof.
  intros Hm [= E1 E2 E3 E4 E5 E6 E7 E8] [H1 H2 H3 H4].
  assert (forall h hs', handles s' !! h = Some hs' -> exists hs, handles s !! h = Some hs /\
    connect_req hs' = connect_req hs /\ data hs' = data hs /\ established hs' = established hs) as Hback.
  { intros h hs' Hh. specialize (Hm h). rewrite Hh in Hm. inversion Hm; subst. by eexists. }
  assert (forall h hs, handles s !! h = Some hs -> exists hs', handles s' !! h = Some hs' /\
    connect_req hs' = connect_req hs /\ data hs' = data hs /\ established hs' = established hs) as Hforth.
  { intros h hs Hh. specialize (Hm h). rewrite Hh in Hm. inversion Hm; subst. by eexists. }
  assert (pending s' <-> pending s) as Hp.
  { split; intros (h & hs & Hh & Hr); [destruct (Hback h hs Hh) as (hs' & ? & ? & _)|destruct (Hforth h hs Hh) as (hs' & ? & ? & _)];
      exists h, hs'; split; congruence. }
  assert (owes s' <-> owes s) as Ho.
  { split; intros (h & hs & Hh & Hd & He); [destruct (Hback h hs Hh) as (hs' & ? & _ & ? & ?)|destruct (Hforth h hs Hh) as (hs' & ? & _ & ? & ?)];
      exists h, hs'; split_and!; congruence. }
  split.
  - intros b. rewrite Hp, E1, E3, E5, E6. apply H1.
  - intros b. rewrite Ho, E2, E4, E7, E8. apply H2.
  - intros Hr h hs' Hh. rewrite E2. destruct (Hback h hs' Hh) as (hs & Hh' & -> & -> & ->). by apply (H3 Hr h).
  - by rewrite Ho.
Qed.

(** ** What user code does *)

Record frame (s s' : t) : Prop := {
  f_current : m_tcp_stream s' = m_tcp_stream s \/ m_tcp_stream s' = None;
  f_close_callback : m_close_callback s' = m_close_callback s;
  f_receive : forall chunk bytes, TcpStream.retains (stream s) (stream s') chunk bytes;
  f_open : is_open s' = true -> is_open s = true;
  f_owned : forall h hs', handles s' !! h = Some hs' -> data hs' = true -> exists hs, handles s !! h = Some hs /\ data hs = true
}.

#[local] Instance frame_preorder : PreOrder frame.
Proof.
  split.
  - intros s. split; [by left|done| |done|by eauto]. intros c b. split_and!; try done. by left.
  - intros s1 s2 s3 [A1 A2 A3 A4 A5] [B1 B2 B3 B4 B5]. split; [destruct B1 as [-> | ->]; [done|by right]|congruence| |by auto|].
    2:{ intros h hs Hh Hd. destruct (B5 h hs Hh Hd) as (hs2 & Hh2 & Hd2). by apply (A5 h hs2). }
    intros c b. destruct (A3 c b) as (C1 & C2 & C3 & C4 & C5), (B3 c b) as (D1 & D2 & D3 & D4 & D5). split_and!; try congruence.
    intros y d [Hin|[-> ->]]%D5; [by apply C5|by right].
Qed.

Lemma frame_intro s s' : (m_tcp_stream s' = m_tcp_stream s \/ m_tcp_stream s' = None) -> m_close_callback s' = m_close_callback s ->
  TcpStream.read_view (stream s') = TcpStream.read_view (stream s) -> (is_open s' = true -> is_open s = true) ->
  (forall h hs', handles s' !! h = Some hs' -> data hs' = true -> exists hs, handles s !! h = Some hs /\ data hs = true) -> frame s s'.
Proof.
  intros H1 H2 [= E1 E2 E3 E4 E5] H3 H4. split; [done|done| |done|done]. intros c b. split_and!; try done. rewrite E5. by left.
Qed.

Lemma owned_insert (m : gmap nat Handle) h hs hs' : m !! h = Some hs -> (data hs' = true -> data hs = true) ->
  forall k (ks : Handle), <[h := hs']> m !! k = Some ks -> data ks = true -> exists hs0 : Handle, m !! k = Some hs0 /\ data hs0 = true.
Proof.
  intros Hh Hd k ks. destruct (decide (k = h)) as [->|Hne]; [rewrite lookup_insert_eq; intros [= <-] ?; exists hs; auto|].
  rewrite lookup_insert_ne by done. by eauto.
Qed.

(** The stream changes only in the members the shape and the counts do not see. *)
Lemma inv_stream x r s s' :
  inv x r s -> TcpStream.write_view (stream s') = TcpStream.write_view (stream s) ->
  TcpStream.read_view (stream s') = TcpStream.read_view (stream s) -> shape x s' -> counts r s' -> inv x r s'.
Proof.
  intros [Hw Hr Hs Hc] Ew Er Hs' Hc'. split; [by apply (TcpStream.writes_ok_frame (stream s))|
    by apply (TcpStream.reads_ok_frame (stream s))|done|done].
Qed.

Lemma not_detached x s h : shape x s -> m_tcp_stream s = Some h -> x <> Some h.
Proof. intros Hs Hm Hx. by destruct (sh_detached x s Hs h Hx) as (? & _ & _ & _ & _ & ?). Qed.

Lemma current_handle x s h : shape x s -> m_tcp_stream s = Some h ->
  exists hs, handles s !! h = Some hs /\ closing hs = false /\ data hs = true /\ handle_ok x s h hs.
Proof.
  intros Hs Hm. destruct (sh_current x s Hs h Hm) as (hs & Hh & Hc & Hd). exists hs. split_and!; try done. by apply (sh_handle x s Hs).
Qed.

Lemma closed_without_stream x s : shape x s -> m_tcp_stream s = None -> is_open s = false.
Proof. intros Hs Hm. destruct (is_open s) eqn:E; [|done]. destruct (sh_open x s Hs E) as (? & ? & ? & _). congruence. Qed.

(** Giving the current handle to [uv_close]. *)
Definition close_current (s : t) (h : nat) (hs : Handle) : t :=
  set_tcp_stream ((set_is_open s false) <| handles ::= insert h (hs <| closing := true |> <| reading := false |>) |>) None.

Lemma close_current_inv x r s h hs :
  inv x r s -> m_tcp_stream s = Some h -> handles s !! h = Some hs -> shutdown_req hs = false ->
  inv x r (close_current s h hs) /\ frame s (close_current s h hs).
Proof.
  intros Hi Hm Hh Hsd. pose proof (inv_shape s Hi) as Hs. destruct (sh_handle x s Hs h hs Hh). split.
  - apply (inv_stream x r s); try done.
    + apply (shape_release x x s h hs (hs <| closing := true |> <| reading := false |>)); try done; [by left|intros Hx; by destruct (not_detached x s h Hs Hm)| |by left].
      by intros [? _]%ok_pending0.
    + apply (counts_frame r s); [|done|apply Hi]. cbn. by eapply same_handles_insert.
  - apply frame_intro; try done; [by right|]. by eapply owned_insert.
Qed.

Lemma set_not_open_inv x r s : inv x r s -> m_tcp_stream s = None -> inv x r (set_is_open s false) /\ frame s (set_is_open s false).
Proof.
  intros Hi Hm. pose proof (inv_shape s Hi) as Hs. split; [|apply frame_intro; try done; [by left|by eauto]].
  apply (inv_stream x r s); try done.
  - apply (shape_frame x s); [done| |done]. by rewrite (closed_without_stream x s).
  - apply (counts_frame r s); [apply same_handles_refl|done|apply Hi].
Qed.

Lemma tcp_close_step x r s : inv x r s -> calm s -> returns (close s) (fun '(s', b) => inv x r s' /\ frame s s' /\ is_open s' = false /\ m_tcp_stream s' = None).
Proof.
  intros Hi Hcalm. pose proof (inv_shape s Hi) as Hs. unfold close. change (m_tcp_stream (set_is_open s false)) with (m_tcp_stream s).
  destruct (m_tcp_stream s) as [h|] eqn:Hm.
  - destruct (current_handle x s h Hs Hm) as (hs & Hh & Hc & Hd & Hok). unfold uv_is_closing, on_handle. cbn [handles set_is_open set_field].
    rewrite Hh, Hc. rewrite (uv_close_ok hs (ok_inited _ _ _ _ Hok) Hc). cbn [obind returns].
    destruct (close_current_inv x r s h hs Hi Hm Hh (Hcalm h hs Hh)) as [Hi' Hf']. by split_and!.
  - cbn [returns]. destruct (set_not_open_inv x r s Hi Hm). by split_and!.
Qed.

Lemma close_with_reset_step x r s st : inv x r s -> calm s -> 0 <= st ->
  returns (close_with_reset s st) (fun s' => inv x r s' /\ frame s s').
Proof.
  intros Hi Hcalm Hst. pose proof (inv_shape s Hi) as Hs. unfold close_with_reset. change (m_tcp_stream (set_is_open s false)) with (m_tcp_stream s).
  destruct (m_tcp_stream s) as [h|] eqn:Hm; [|by apply set_not_open_inv].
  destruct (current_handle x s h Hs Hm) as (hs & Hh & Hc & Hd & Hok). unfold uv_is_closing, on_handle. cbn [handles set_is_open set_field].
  rewrite Hh, Hc, (proj2 (Z.ltb_ge _ _)) by done. rewrite (uv_close_ok hs (ok_inited _ _ _ _ Hok) Hc). cbn [obind returns].
  by apply close_current_inv; [| | |apply (Hcalm h)].
Qed.

(** Members no invariant speaks of. *)
Lemma inv_other x r s s' : stream s' = stream s -> shape_view s' = shape_view s -> count_view s' = count_view s -> inv x r s ->
  inv x r s' /\ frame s s'.
Proof.
  intros E1 E2 E3 Hi. split.
  - apply (inv_stream x r s); [done|by rewrite E1|by rewrite E1| |].
    + apply (shape_frame x s); [done|unfold is_open; by rewrite E1|apply Hi].
    + apply (counts_frame r s); [|exact E3|apply Hi]. injection E2 as _ -> _ _. apply same_handles_refl.
  - apply frame_intro; [left; unfold m_tcp_stream; by rewrite E1|unfold m_close_callback; by rewrite E1|by rewrite E1|unfold is_open; by rewrite E1|].
    injection E2 as _ -> _ _. by eauto.
Qed.

Lemma client_schedule_removal_step x r s : inv x r s -> calm s -> returns (schedule_removal s) (fun s' => inv x r s' /\ frame s s').
Proof.
  intros Hi Hcalm. unfold schedule_removal. destruct (inv_other x r s (s <| m_want_delete_object := true |>)) as [Hi1 Hf1]; [done..|].
  eapply returns_bind; [by apply (tcp_close_step x r)|]. intros [s1 b] (Hi2 & Hf2 & _). cbn [returns].
  destruct b; [|split; [done|by etransitivity]].
  destruct (inv_other x r s1 (s1 <| removals ::= S |>)) as [Hi3 Hf3]; [done..|]. split; [done|]. etransitivity; [exact Hf1|]. by etransitivity.
Qed.

Lemma tcp_shutdown_step x r s st : inv x r s -> calm s -> returns (shutdown s st) (fun s' => inv x r s' /\ frame s s').
Proof.
  intros Hi Hcalm. pose proof (inv_shape s Hi) as Hs. unfold shutdown. destruct (is_open s) eqn:Ho; cbn [negb]; [|by split].
  destruct (sh_open x s Hs Ho) as (h & hs & Hm & Hh & He). rewrite Hm. destruct (st <? 0); [by split|].
  unfold on_handle. rewrite Hh. cbn [obind returns]. destruct (current_handle x s h Hs Hm) as (hs0 & Hh0 & Hc & Hd & Hok).
  rewrite Hh in Hh0. injection Hh0 as <-. split; [|apply frame_intro; try done; [by left|by eapply owned_insert]].
  apply (inv_stream x r s); try done.
  - apply (shape_update x s h hs (hs <| shutdown_req := true |>)); try done; [destruct Hok; by split|]. cbn. by rewrite He.
  - apply (counts_frame r s); [|done|apply Hi]. by eapply same_handles_insert.
Qed.

Lemma same_stream_inv x r s b : inv x r s -> TcpStream.writes_ok b -> TcpStream.same_stream (stream s) b ->
  length (omap connected_of (TcpStream.events b)) = n_connected s ->
  inv x r (s <| stream := b |>) /\ frame s (s <| stream := b |>).
Proof.
  intros Hi Hw (E1 & E2 & E3 & E4 & E5 & E6 & E7 & E8 & E9 & E10 & E11 & E12) En.
  assert (TcpStream.read_view b = TcpStream.read_view (stream s)) as Er by (unfold TcpStream.read_view; congruence). split.
  - split; [done|by apply (TcpStream.reads_ok_frame (stream s)), Hi| |].
    + apply (shape_frame x s); [unfold shape_view, m_tcp_stream; cbn; congruence|exact E6|apply Hi].
    + apply (counts_frame r s); [apply same_handles_refl| |apply Hi].
      unfold count_view, m_close_callback, n_closed, n_connected. cbn. by rewrite E7, E12, En.
  - apply frame_intro; [left; exact E2|exact E7|exact Er|unfold is_open, TcpStream.is_open; cbn; by rewrite E6|by eauto].
Qed.

Lemma answer_connected b n cb e : omap connected_of (TcpStream.events (TcpStream.answer b n cb e)) = omap connected_of (TcpStream.events b).
Proof. unfold TcpStream.answer. destruct cb; [|done]. cbn. rewrite omap_app. cbn. by rewrite app_nil_r. Qed.

Lemma send_connected b buffer size cb st b' : TcpStream.send_data_impl b buffer size cb st = Ret b' ->
  omap connected_of (TcpStream.events b') = omap connected_of (TcpStream.events b).
Proof.
  unfold TcpStream.send_data_impl. destruct (negb _); [intros [= <-]; by rewrite answer_connected|].
  destruct buffer; [|intros [= <-]; by rewrite answer_connected]. destruct (size =? 0); [intros [= <-]; by rewrite answer_connected|].
  destruct (TcpStream.m_tcp_stream _); [|done]. destruct (size <=? _); [|done].
  destruct (error_bool _); [intros [= <-]; by rewrite answer_connected|by intros [= <-]].
Qed.

Lemma can_send_open x s buffer size : shape x s -> TcpStream.valid_buffer buffer size -> TcpStream.can_send (stream s) buffer size.
Proof.
  intros Hs Hv. split; [|done]. intros Ho. destruct (sh_open x s Hs Ho) as (h & _ & Hm & _). unfold m_tcp_stream in Hm. congruence.
Qed.

Lemma client_send_data_step x r s buffer size cb st : inv x r s -> TcpStream.valid_buffer buffer size ->
  returns (send_data s buffer size cb st) (fun s' => inv x r s' /\ frame s s').
Proof.
  intros Hi Hv. pose proof (TcpStream.send_data_impl_ok (stream s) buffer size cb st (inv_writes s Hi) (can_send_open x s buffer size (inv_shape s Hi) Hv)) as H.
  unfold send_data, TcpStream.send_data. destruct (TcpStream.send_data_impl (stream s) buffer size cb st) as [b|] eqn:E; [|done].
  cbn [obind returns] in *. destruct H as (Hw & Hsame & _). apply same_stream_inv; try done. unfold n_connected. by rewrite (send_connected _ _ _ _ _ _ E).
Qed.

Lemma client_release_step x r s f : inv x r s -> let s' := s <| stream ::= fun b => b <| TcpStream.kept ::= List.filter f |> |> in
  inv x r s' /\ frame s s'.
Proof.
  intros Hi. cbn zeta. set (k := List.filter f (TcpStream.kept (stream s))).
  assert (k ⊆ TcpStream.kept (stream s)) as Hsub.
  { intros y Hin. apply list_elem_of_In in Hin. apply filter_In in Hin as [Hin _]. by apply list_elem_of_In. }
  split; [|split; [by left|done| |done|by eauto]; intros c b; split_and!; try done; intros y d Hin; left; by apply Hsub].
  split; [apply Hi| |by apply (shape_frame x s), Hi|by apply (counts_frame r s); [apply same_handles_refl|done|apply Hi]].
  destruct (inv_reads s Hi) as [Hb Hk]. split; cbn.
  - intros b Eb. destruct (Hb b Eb) as (? & ? & Hx). split_and!; [done|done|]. intros c' d Hin. apply (Hx c' d). by apply Hsub.
  - intros c' d Hin. by apply Hk, Hsub.
Qed.

(** A handle without a connection is let go. *)
Lemma counts_detach r s h hs hs' s' : counts r s -> handles s !! h = Some hs ->
  connect_req hs <> Pending -> established hs = false -> connect_req hs' <> Pending -> data hs' = false ->
  handles s' = <[h := hs']> (handles s) -> count_view s' = count_view s -> counts r s'.
Proof.
  intros [H1 H2 H3 H4] Hh Hr He Hr' Hd' Em [= E1 E2 E3 E4 E5 E6 E7 E8].
  assert (forall h' hs1, handles s' !! h' = Some hs1 -> (h' = h /\ hs1 = hs') \/ (h' <> h /\ handles s !! h' = Some hs1)) as Hins.
  { intros h' hs1. rewrite Em, lookup_insert_Some. intros [[<- <-]|[? ?]]; [by left|by right]. }
  assert (forall h' hs1, h' <> h -> handles s !! h' = Some hs1 -> handles s' !! h' = Some hs1) as Hforth
    by (intros h' hs1 Hne; rewrite Em, lookup_insert_ne by done; done).
  assert (pending s' <-> pending s) as Hp.
  { split; intros (h' & hs1 & Hh1 & Hq).
    - apply Hins in Hh1 as [[-> ->]|[Hne Hh1]]; [congruence|]. by exists h', hs1.
    - exists h', hs1. split; [|done]. apply Hforth; [|done]. intros ->. congruence. }
  assert (owes s' <-> owes s) as Ho.
  { split; intros (h' & hs1 & Hh1 & Hq & Hq').
    - apply Hins in Hh1 as [[-> ->]|[Hne Hh1]]; [congruence|]. by exists h', hs1.
    - exists h', hs1. split; [|done]. apply Hforth; [|done]. intros ->. congruence. }
  split.
  - intros b. rewrite Hp, E1, E3, E5, E6. apply H1.
  - intros b. rewrite Ho, E2, E4, E7, E8. apply H2.
  - intros Hn h' hs1 Hh1 Hd. rewrite E2. apply Hins in Hh1 as [[-> ->]|[Hne Hh1]]; [congruence|]. by apply (H3 Hn h').
  - by rewrite Ho.
Qed.

(** [connect_impl] is scheduled. *)
Lemma schedule_connect_inv x r s c : inv x r s -> connects s = [] -> m_tcp_stream s = None ->
  (forall h hs, handles s !! h = Some hs -> data hs = false) ->
  inv x r (s <| connects ::= fun l => l ++ [c] |> <| asked_connects ::= fun n => if connect_callback c then S n else n |>).
Proof.
  intros Hi Hc Hm Hall. destruct Hi as [Hw Hr [H1 H2 H3 H4 He H5 H6] [C1 C2 C3 C4]]. split; [done|done| |].
  - split; try done; [|by intros _; cbn; rewrite Hc]. intros h hs Hh. by destruct (H2 h hs Hh).
  - split; [|exact C2|exact C3|exact C4]. intros b Hb. specialize (C1 b Hb). rewrite Hc in C1.
    change (n_connected s + length (List.filter connect_callback (connects s ++ [c])) + Nat.b2n b =
            (if connect_callback c then S (asked_connects s) else asked_connects s))%nat.
    rewrite Hc. cbn [app List.filter length] in *. destruct (connect_callback c); cbn [length] in *; lia.
Qed.

Lemma connect_step x r s c : inv x r s -> can_connect s -> returns (connect s c) (fun s' => inv x r s' /\ frame s s').
Proof.
  intros Hi (Hcalm & Hc & Hop & Hcan). pose proof (inv_shape s Hi) as Hs. unfold connect. destruct (m_tcp_stream s) as [h|] eqn:Hm.
  - destruct (current_handle x s h Hs Hm) as (hs & Hh & Hcl & Hd & Hok). unfold on_handle. rewrite Hh. cbv beta.
    rewrite uv_close_ok; [|exact (ok_inited _ _ _ _ Hok)|exact Hcl]. cbn [obind returns].
    destruct (Hcan h hs Hh Hd) as [_ Hreq]. assert (established hs = false) as Hest.
    { destruct (established hs) eqn:E; [|done]. by rewrite (sh_established x s Hs h hs Hm Hh E) in Hop. }
    set (hs' := hs <| data := false |> <| closing := true |> <| reading := false |>).
    set (s1 := set_tcp_stream (s <| handles ::= insert h hs' |>) None).
    assert (inv x r s1 /\ frame s s1) as [Hi1 Hf1].
    { split; [|apply frame_intro; try done; [by right|by eapply owned_insert]]. apply (inv_stream x r s); try done.
      - apply (shape_release x x s h hs hs'); try done; [by left|apply Hok|intros Hx; by destruct (not_detached x s h Hs Hm)|exact (Hcalm h hs Hh)|by left].
      - eapply (counts_detach r s h hs hs'); try done. apply Hi. }
    split; [|etransitivity; [exact Hf1|apply frame_intro; try done; [by left|by eauto]]].
    apply (schedule_connect_inv x r s1 c); try done. intros h' hs1. unfold s1. cbn. destruct (decide (h' = h)) as [->|Hne].
    + rewrite lookup_insert_eq. by intros [= <-].
    + rewrite lookup_insert_ne by done. intros Hh1. destruct (data hs1) eqn:Hd1; [|done]. destruct Hne.
      by apply (sh_unique x s Hs h' h hs1 hs).
  - cbn [obind returns]. split; [|apply frame_intro; try done; [by left|by eauto]].
    apply schedule_connect_inv; try done. intros h hs Hh. destruct (data hs) eqn:Hd; [|done]. by destruct (Hcan h hs Hh Hd) as [? _].
Qed.

Lemma client_api_step x r s s' : api s s' -> inv x r s -> inv x r s' /\ frame s s'.
Proof.
  intros H Hi. destruct H as [c s' Hcan H|s' b Hcalm H|st s' Hcalm Hst H|s' Hcalm H|st s' Hcalm H|buffer sz cb st s' Hv H|f].
  - pose proof (connect_step x r s c Hi Hcan) as Hr. by rewrite H in Hr.
  - pose proof (tcp_close_step x r s Hi Hcalm) as Hr. rewrite H in Hr. by destruct Hr as (? & ? & _).
  - pose proof (close_with_reset_step x r s st Hi Hcalm Hst) as Hr. by rewrite H in Hr.
  - pose proof (client_schedule_removal_step x r s Hi Hcalm) as Hr. by rewrite H in Hr.
  - pose proof (tcp_shutdown_step x r s st Hi Hcalm) as Hr. by rewrite H in Hr.
  - pose proof (client_send_data_step x r s buffer sz cb st Hi Hv) as Hr. by rewrite H in Hr.
  - by apply client_release_step.
Qed.

Lemma client_calls_step x r s s' : rtc api s s' -> inv x r s -> inv x r s' /\ frame s s'.
Proof.
  induction 1 as [s|s s1 s2 H1 H2 IH]; [by split|]. intros Hi. destruct (client_api_step x r s s1 H1 Hi) as [Hi1 Hf1].
  destruct (IH Hi1) as [Hi2 Hf2]. split; [done|by etransitivity].
Qed.

(** A user callback keeps the invariant. *)
Lemma user_step x r s user : Calls user -> inv x r s -> returns (user s) (fun s' => inv x r s' /\ frame s s').
Proof. intros Hu Hi. eapply returns_mono; [apply Hu|]. intros s' Hc. by apply (client_calls_step x r s). Qed.

(** ** The handlers *)

Lemma connected_emit s e : n_connected (emit s (TcpStream.Connected e)) = S (n_connected s) /\
  n_closed (emit s (TcpStream.Connected e)) = n_closed s.
Proof.
  unfold n_connected, n_closed. cbn [stream emit set_field]. rewrite TcpStream.closings_emit. cbn. rewrite omap_app, length_app, app_nil_r.
  cbn. lia.
Qed.

Lemma closed_emit s e : n_connected (emit s (TcpStream.Closed e)) = n_connected s /\
  n_closed (emit s (TcpStream.Closed e)) = S (n_closed s).
Proof.
  unfold n_connected, n_closed. cbn [stream emit set_field]. rewrite TcpStream.closings_emit. cbn. rewrite omap_app, !length_app. cbn. lia.
Qed.

Definition silent (e : TcpStream.Event) : bool := match e with TcpStream.Sent _ _ => false | _ => true end.

Lemma emit_views s e : silent e = true -> TcpStream.write_view (stream (emit s e)) = TcpStream.write_view (stream s) /\
  TcpStream.read_view (stream (emit s e)) = TcpStream.read_view (stream s).
Proof.
  intros He. split; [|done]. unfold TcpStream.write_view. cbn [stream emit set_field]. rewrite TcpStream.stream_called_emit.
  destruct e; try done; cbn; by rewrite app_nil_r.
Qed.

(** The connect or close callback is called: the invariant with the counts of the new state. *)
Lemma inv_emit x r q s e : silent e = true -> inv x r s -> counts q (emit s e) -> inv x q (emit s e).
Proof.
  intros He [Hw Hr Hs Hc] Hc'. destruct (emit_views s e He) as [E1 E2].
  split; [by apply (TcpStream.writes_ok_frame (stream s))|by apply (TcpStream.reads_ok_frame (stream s))|by apply (shape_frame x s)|done].
Qed.

Lemma connected_facts s cb e : let s' := connected s cb e in
  n_connected s' = (n_connected s + Nat.b2n cb)%nat /\ n_closed s' = n_closed s /\
  TcpStream.write_view (stream s') = TcpStream.write_view (stream s) /\ TcpStream.read_view (stream s') = TcpStream.read_view (stream s) /\
  shape_view s' = shape_view s /\ is_open s' = is_open s /\ asked_connects s' = asked_connects s /\ opened s' = opened s /\
  m_close_callback s' = m_close_callback s /\ extra s' = extra s /\ m_connect_callback s' = m_connect_callback s.
Proof.
  unfold connected. destruct cb; cbn zeta; [|by rewrite Nat.add_0_r].
  destruct (connected_emit s e) as [-> ->]. destruct (emit_views s (TcpStream.Connected e) eq_refl) as [-> ->].
  split_and!; try done. cbn. lia.
Qed.

(** *** connect_impl *)

Lemma reset_connect_req_id s : (forall h hs, handles s !! h = Some hs -> connect_req hs <> Pending) -> reset_connect_req s = s.
Proof.
  intros Hn. unfold reset_connect_req. destruct (m_connect_req s) as [h|]; [|done]. destruct s. cbn in *. f_equal.
  apply alter_id. intros hs Hh. specialize (Hn h hs Hh). by destruct (connect_req hs).
Qed.

(** The state in which the scheduled [connect_impl] runs. *)
Lemma unscheduled s c rest : inv None None s -> connects s = c :: rest ->
  rest = [] /\ m_tcp_stream s = None /\ is_open s = false /\ (forall h hs, handles s !! h = Some hs -> data hs = false) /\
  ~ pending s /\ ~ owes s.
Proof.
  intros Hi Hc. pose proof (inv_shape s Hi) as Hs. destruct (sh_connects None s Hs ltac:(by rewrite Hc)) as (Hl & Hm & Hall).
  rewrite Hc in Hl. destruct rest; [|done]. split_and!; try done.
  - by apply (closed_without_stream None).
  - intros (h & hs & Hh & Hp). destruct (ok_pending _ _ _ _ (sh_handle None s Hs h hs Hh) Hp) as [Hd _]. by rewrite (Hall h hs Hh) in Hd.
  - intros (h & hs & Hh & Hd & _). by rewrite (Hall h hs Hh) in Hd.
Qed.

(** The new handle of [connect_impl], whose request libuv has taken or refused. *)
Lemma started_inv s c q s' : inv None None s -> connects s = [c] -> q = Pending \/ q = Refused ->
  let h := TcpStream.next_handle (stream s) in
  let hs := mkHandle true false true q false false false in
  TcpStream.write_view (stream s') = TcpStream.write_view (stream s) -> TcpStream.read_view (stream s') = TcpStream.read_view (stream s) ->
  shape_view s' = (Some h, <[h := hs]> (handles s), [], S h) -> is_open s' = false ->
  m_connect_callback s' = connect_callback c -> n_closed s' = n_closed s -> asked_connects s' = asked_connects s -> opened s' = opened s -> extra s' = extra s ->
  n_connected s' = (n_connected s + if bool_decide (q = Refused) then Nat.b2n (connect_callback c) else 0)%nat -> inv None None s'.
Proof.
  intros Hi Hc Hq h hs Ew Er Ev Eo Em1 En Ea Eop Ex Ecn. destruct (unscheduled s c [] Hi Hc) as (_ & Hm & Ho & Hall & Hnp & Hno). destruct (inv_counts s Hi) as [C1 C2 C3 C4].
  specialize (C1 false ltac:(split; [done|by intros [? _]])). rewrite Hc in C1. specialize (C2 false ltac:(split; [done|by intros [? _]])).
  assert (handles s' = <[h := hs]> (handles s) /\ connects s' = []) as [Eh Ecs] by (injection Ev; auto).
  split; [by apply (TcpStream.writes_ok_frame (stream s)), Hi|by apply (TcpStream.reads_ok_frame (stream s)), Hi| |].
  - apply (shape_add s hs); try done; [apply Hi|]. by destruct Hq as [-> | ->].
  - assert (~ owes s') as Hno'.
    { intros (h' & hs' & Hh' & Hd & He). rewrite Eh in Hh'. apply lookup_insert_Some in Hh' as [[<- <-]|[_ Hh']]; [done|]. by rewrite (Hall h' hs' Hh') in Hd. }
    split; [| | |done].
    + intros b Hb. rewrite Em1 in Hb. rewrite Ecn, Ea, Ecs. assert (b = negb (bool_decide (q = Refused)) && connect_callback c) as ->.
      { apply Bool.eq_iff_eq_true. rewrite Hb, andb_true_iff, negb_true_iff, bool_decide_eq_false. split; intros [H1 H2]; (split; [|done]).
        - destruct H1 as (k & ks & Hk & Hp). rewrite Eh in Hk. apply lookup_insert_Some in Hk as [[_ <-]|[_ Hk]]; [cbn in Hp; congruence|]. exfalso. apply Hnp. by exists k, ks.
        - exists h, hs. rewrite Eh, lookup_insert_eq. split; [done|]. by destruct Hq. }
      cbn in C1. destruct (bool_decide (q = Refused)), (connect_callback c); cbn in *; lia.
    + intros b Hb. destruct b; [by destruct (proj1 Hb eq_refl)|]. rewrite En, Eop, Ex. exact C2.
    + intros _ h' hs' Hh' Hd Hr. rewrite Eh in Hh'. apply lookup_insert_Some in Hh' as [[<- <-]|[_ Hh']]; [cbn in Hr; destruct Hq; congruence|].
      by rewrite (Hall h' hs' Hh') in Hd.
Qed.

Lemma run_connect_step s c rest init_status connect_status : inv None None s -> connects s = c :: rest ->
  0 <= init_status -> returns (run_connect s init_status connect_status) (inv None None).
Proof.
  intros Hi Hc Hin. destruct (unscheduled s c rest Hi Hc) as (-> & Hm & Ho & Hall & Hnp & Hno).
  pose proof (inv_shape s Hi) as Hs. destruct (inv_counts s Hi) as [C1 C2 C3 C4].
  assert (n_connected s + (if connect_callback c then 1 else 0) = asked_connects s)%nat as N1.
  { specialize (C1 false ltac:(split; [done|by intros [? _]])). rewrite Hc in C1. cbn in C1. destruct (connect_callback c); cbn in C1; lia. }
  assert (n_closed s = opened s + extra s)%nat as N2 by (specialize (C2 false ltac:(split; [done|by intros [? _]])); cbn in C2; lia).
  unfold run_connect. rewrite Hc. unfold connect_impl. case_bool_decide.
  - cbn [returns]. set (s1 := s <| connects := [] |>).
    assert (counts None (connected s1 (connect_callback c) (Error_of_status INVALID_ARGUMENT))) as Hcnt.
    { unfold connected. destruct (connect_callback c).
      - destruct (connected_emit s1 (Error_of_status INVALID_ARGUMENT)) as [E1 E2]. split; [| |exact C3|done].
        + intros b Hb. rewrite E1. destruct b; [by destruct (proj1 Hb eq_refl)|]. change (S (n_connected s) + 0 + 0 = asked_connects s)%nat. lia.
        + intros b Hb. rewrite E2. destruct b; [by destruct (proj1 Hb eq_refl)|]. change (n_closed s + 0 + 0 = opened s + extra s)%nat. lia.
      - split; [| |exact C3|done].
        + intros b Hb. destruct b; [by destruct (proj1 Hb eq_refl)|]. change (n_connected s + 0 + 0 = asked_connects s)%nat. lia.
        + intros b Hb. destruct b; [by destruct (proj1 Hb eq_refl)|]. change (n_closed s + 0 + 0 = opened s + extra s)%nat. lia. }
    assert (shape None s1) as Hs1.
    { destruct Hs as [H1 H2 H3 H4 He H5 H6]. split; try done. intros h hs Hh. by destruct (H2 h hs Hh). }
    unfold connected in *. destruct (connect_callback c); [|split; [apply Hi|apply Hi|done|done]].
    destruct (emit_views s1 (TcpStream.Connected (Error_of_status INVALID_ARGUMENT)) eq_refl) as [E1 E2].
    split; [by apply (TcpStream.writes_ok_frame (stream s)), Hi|by apply (TcpStream.reads_ok_frame (stream s)), Hi|by apply (shape_frame None s1)|done].
  - assert (forall z, 0 <= z -> error_bool (Error_of_uv z) = false) as Hok by (intros z Hz; rewrite error_bool_of_uv; by apply Z.ltb_ge).
    rewrite TcpStream.init_stream_ok by done. cbn [obind]. rewrite (Hok 0) by done.
    match goal with |- context [reset_connect_req ?s1] => rewrite (reset_connect_req_id s1) end.
    2:{ intros h hs Hh Hp. apply Hnp. by exists h, hs. }
    set (e := Error_of_uv connect_status). destruct (error_bool e); cbn [returns].
    + match goal with |- inv None None (connected ?s2 _ _) => set (s' := s2) end.
      destruct (connected_facts s' (m_connect_callback s') e) as (F1 & F2 & F3 & F4 & F5 & F6 & F7 & F8 & F9 & F10 & F11). cbn zeta in *.
      apply (started_inv s c Refused); auto; rewrite ?F2, ?F3, ?F4, ?F5, ?F6, ?F7, ?F8, ?F10, ?F11, ?F1; done.
    + apply (started_inv s c Pending); auto.
Qed.

(** *** on_connect *)

(** The connect request of a closing handle is answered. *)
Lemma shape_answered x s h hs s' :
  shape x s -> handles s !! h = Some hs -> closing hs = true ->
  shape_view s' = (m_tcp_stream s, <[h := hs <| connect_req := NoRequest |>]> (handles s), connects s, TcpStream.next_handle (stream s)) ->
  is_open s' = is_open s -> shape x s'.
Proof.
  intros [H1 H2 H3 H4 He H5 H6] Hh Hcl [= E1 E2 E3 E4] Ho. set (hs' := hs <| connect_req := NoRequest |>) in *.
  assert (forall k ks, handles s' !! k = Some ks -> (k = h /\ ks = hs') \/ (k <> h /\ handles s !! k = Some ks)) as Hins.
  { intros k ks. rewrite E2, lookup_insert_Some. intros [[<- <-]|[? ?]]; [by left|by right]. }
  assert (forall k ks, handles s !! k = Some ks -> closing ks = false -> handles s' !! k = Some ks) as Hkeep.
  { intros k ks Hk Hc. rewrite E2, lookup_insert_ne; [done|]. intros ->. congruence. }
  split; rewrite ?E1, ?E3, ?Ho.
  - intros k Hm. destruct (H1 k Hm) as (ks & Hk & Hc & Hd). exists ks. by split_and!; [apply Hkeep|..].
  - intros k ks [[-> ->]|[Hne Hk]]%Hins; [destruct (H2 h hs Hh)|destruct (H2 k ks Hk)]; by split; rewrite ?E1, ?E4.
  - intros k1 k2 ks1 ks2 [[-> ->]|[Hn1 Hk1]]%Hins [[-> ->]|[Hn2 Hk2]]%Hins Hd1 Hd2; try done.
    + by apply (H3 h k2 hs ks2).
    + by apply (H3 k1 h ks1 hs).
    + by apply (H3 k1 k2 ks1 ks2).
  - intros Hop. destruct (H4 Hop) as (k & ks & Hm & Hk & Hes). exists k, ks. split_and!; try done. apply Hkeep; [done|].
    destruct (H1 k Hm) as (ks' & Hk' & ? & _). congruence.
  - intros k ks Hm [[-> ->]|[Hne Hk]]%Hins; [|by apply (He k ks)]. destruct (H1 h Hm) as (hs0 & Hh0 & ? & _). congruence.
  - intros Hc. destruct (H5 Hc) as (? & ? & Hall). split_and!; try done. intros k ks [[-> ->]|[Hne Hk]]%Hins; [by apply (Hall h hs)|by apply (Hall k)].
  - intros k Hx. destruct (H6 k Hx) as (ks & Hk & Hc & Hrest). exists ks. split; [by apply Hkeep|done].
Qed.

(** A client with a connect request under way: nothing else is under way. *)
Lemma connecting s h hs : inv None None s -> handles s !! h = Some hs -> connect_req hs = Pending ->
  is_open s = false /\ connects s = [] /\ data hs = true /\ established hs = false /\ ~ owes s /\
  (n_connected s + Nat.b2n (m_connect_callback s) = asked_connects s)%nat /\ n_closed s = (opened s + extra s)%nat /\
  (closing hs = false -> m_tcp_stream s = Some h).
Proof.
  intros Hi Hh Hp. pose proof (inv_shape s Hi) as Hs. pose proof (sh_handle None s Hs h hs Hh) as Hok.
  destruct (ok_pending _ _ _ _ Hok Hp) as [Hd He].
  assert (connects s = []) as Hcn.
  { destruct (connects s) as [|c l] eqn:E; [done|]. destruct (sh_connects None s Hs ltac:(by rewrite E)) as (_ & _ & Hall).
    by rewrite (Hall h hs Hh) in Hd. }
  assert (~ owes s) as Hno.
  { intros (k & ks & Hk & Hkd & Hke). pose proof (sh_unique None s Hs k h ks hs Hk Hh Hkd Hd) as ->. congruence. }
  split_and!; try done.
  - destruct (is_open s) eqn:Ho; [|done]. destruct (sh_open None s Hs Ho) as (k & ks & Hm & Hk & Hke).
    destruct (sh_current None s Hs k Hm) as (ks' & Hk' & _ & Hkd). destruct Hno. exists k, ks. split_and!; congruence.
  - pose proof (c_connect _ _ (inv_counts s Hi) (m_connect_callback s)) as H. rewrite Hcn in H. cbn in H.
    rewrite Nat.add_0_r in H. apply H. split; [intros ?; split; [by exists h, hs|done]|by intros [_ ?]].
  - pose proof (c_close _ _ (inv_counts s Hi) false) as H. cbn in H. rewrite !Nat.add_0_r in H. apply H. split; [done|by intros [? _]].
  - intros Hc. by destruct (ok_alive _ _ _ _ Hok Hc).
Qed.

(** The counts once the request is answered, with or without a connection. *)
Lemma answered_counts r s h hs (ok : bool) s' : inv None None s -> handles s !! h = Some hs -> connect_req hs = Pending ->
  handles s' = <[h := hs <| connect_req := NoRequest |> <| established := ok |>]> (handles s) ->
  connects s' = connects s -> asked_connects s' = asked_connects s ->
  n_connected s' = (n_connected s + Nat.b2n (m_connect_callback s))%nat ->
  (n_closed s' + Nat.b2n (ok && m_close_callback s') + default 0 r = opened s' + extra s')%nat ->
  (r = None -> ok = false -> m_close_callback s' = false) -> (r <> None -> ok = false) -> counts r s'.
Proof.
  intros Hi Hh Hp Em Ec Ea En Ecl Hq Hr. destruct (connecting s h hs Hi Hh Hp) as (Ho & Hcn & Hd & He & Hno & N1 & N2 & _).
  pose proof (inv_shape s Hi) as Hs. set (hs' := hs <| connect_req := NoRequest |> <| established := ok |>) in *.
  assert (forall k ks, handles s' !! k = Some ks -> (k = h /\ ks = hs') \/ (k <> h /\ handles s !! k = Some ks /\ data ks = false)) as Hins.
  { intros k ks. rewrite Em, lookup_insert_Some. intros [[<- <-]|[Hne Hk]]; [by left|right]. split_and!; try done.
    destruct (data ks) eqn:Hkd; [|done]. by destruct Hne; apply (sh_unique None s Hs h k hs ks). }
  assert (~ pending s') as Hnp.
  { intros (k & ks & [[-> ->]|(Hne & Hk & Hkd)]%Hins & Hkp); [done|].
    destruct (ok_pending _ _ _ _ (sh_handle None s Hs k ks Hk) Hkp). congruence. }
  assert (owes s' <-> ok = true) as How.
  { split; [intros (k & ks & [[-> ->]|(Hne & Hk & Hkd)]%Hins & Hkd' & Hke); [done|congruence]|].
    intros ->. exists h, hs'. by rewrite Em, lookup_insert_eq. }
  split.
  - intros b Hb. destruct b; [by destruct (proj1 Hb eq_refl)|]. rewrite En, Ec, Hcn, Ea. cbn. lia.
  - intros b Hb. assert (b = ok && m_close_callback s') as ->; [|exact Ecl].
    apply Bool.eq_iff_eq_true. rewrite Hb, How. by rewrite andb_true_iff.
  - intros Hrn k ks [[-> ->]|(Hne & Hk & Hkd)]%Hins Hkd' _ Hke; [by apply Hq|congruence].
  - intros Hrn. rewrite How. by rewrite (Hr Hrn).
Qed.

Lemma answered_inv r s h hs (ok : bool) s' : inv None None s -> handles s !! h = Some hs -> connect_req hs = Pending ->
  (closing hs = true -> ok = false) ->
  TcpStream.write_view (stream s') = TcpStream.write_view (stream s) -> TcpStream.read_view (stream s') = TcpStream.read_view (stream s) ->
  shape_view s' = (m_tcp_stream s, <[h := hs <| connect_req := NoRequest |> <| established := ok |>]> (handles s), connects s,
                   TcpStream.next_handle (stream s)) ->
  is_open s' = ok -> asked_connects s' = asked_connects s ->
  n_connected s' = (n_connected s + Nat.b2n (m_connect_callback s))%nat ->
  (n_closed s' + Nat.b2n (ok && m_close_callback s') + default 0 r = opened s' + extra s')%nat ->
  (r = None -> ok = false -> m_close_callback s' = false) -> (r <> None -> ok = false) -> inv None r s'.
Proof.
  intros Hi Hh Hp Hcl Ew Er Ev Eo Ea En Ecl Hq Hr. destruct (connecting s h hs Hi Hh Hp) as (Ho & Hcn & Hd & He & _ & _ & _ & Hcur).
  pose proof (inv_shape s Hi) as Hs. pose proof (sh_handle None s Hs h hs Hh) as Hok.
  split; [by apply (TcpStream.writes_ok_frame (stream s)), Hi|by apply (TcpStream.reads_ok_frame (stream s)), Hi| |].
  - destruct (closing hs) eqn:Ecs.
    + rewrite (Hcl eq_refl) in *. apply (shape_answered None s h hs); [done|done|done| |by rewrite Eo, Ho].
      rewrite Ev. destruct hs. cbn in *. by subst.
    + apply (shape_update None s h hs (hs <| connect_req := NoRequest |> <| established := ok |>)); try done; [by apply Hcur|].
      destruct Hok as [? ? ? ? ? Hrd Hsd]. split; cbn; try done; [intros Hx; destruct (Hrd Hx)|intros Hx; destruct (Hsd Hx)]; congruence.
  - injection Ev as E1 E2 E3 E4. by apply (answered_counts r s h hs ok).
Qed.

(** The close callback is called once more than connections end. *)
Lemma extra_inv x r s e : inv x r s -> m_close_callback s = true -> inv x r (emit (s <| extra ::= S |>) (TcpStream.Closed e)).
Proof.
  intros Hi Hcb. set (s1 := s <| extra ::= S |>). destruct (closed_emit s1 e) as [G1 G2]. destruct (emit_views s1 (TcpStream.Closed e) eq_refl) as [V1 V2].
  split; [by apply (TcpStream.writes_ok_frame (stream s)), Hi|by apply (TcpStream.reads_ok_frame (stream s)), Hi|by apply (shape_frame x s), Hi|].
  destruct (inv_counts s Hi) as [C1 C2 C3 C4]. split; [| |exact C3|exact C4].
  - intros b Hb. rewrite G1. by apply C1.
  - intros b Hb. rewrite G2. specialize (C2 b Hb). change (S (n_closed s) + Nat.b2n b + default 0 r = opened s + S (extra s))%nat. lia.
Qed.

Lemma refused_read_inv s e : inv None None s -> inv None None ((count_extra s) <| stream ::= fun b => TcpStream.on_read_error b e |>).
Proof.
  intros Hi. unfold count_extra, TcpStream.on_read_error. destruct (m_close_callback s) eqn:Hcb; unfold m_close_callback in Hcb.
  - pose proof (extra_inv None None s (TcpStream.close_reason e) Hi Hcb) as H. destruct s. cbn in *. by rewrite Hcb in H |- *.
  - destruct s. cbn in *. by rewrite Hcb.
Qed.

(** The end of [on_connect]. *)
Lemma read_start_step s h rd : inv None None s -> (is_open s = true -> m_tcp_stream s = Some h) ->
  returns (if is_open s then
             let read_error := Error_of_uv rd in
             if error_bool read_error then Ret ((count_extra s) <| stream ::= fun b => TcpStream.on_read_error b read_error |>)
             else on_handle s h (fun hs => Ret (hs <| reading := true |>))
           else Ret s) (inv None None).
Proof.
  intros Hi Hm. pose proof (inv_shape s Hi) as Hs. destruct (is_open s) eqn:Ho; [|done]. cbn zeta.
  destruct (error_bool _); [by apply refused_read_inv|]. specialize (Hm eq_refl).
  destruct (current_handle None s h Hs Hm) as (hs & Hh & Hc & Hd & Hok). unfold on_handle. rewrite Hh. cbn [obind returns].
  assert (established hs = true) as He.
  { destruct (sh_open None s Hs Ho) as (k & ks & Hm' & Hk & He). congruence. }
  apply (inv_stream None None s); try done.
  - apply (shape_update None s h hs (hs <| reading := true |>)); try done; [destruct Hok; by split|].
    change (is_open s = established hs). congruence.
  - apply (counts_frame None s); [|done|apply Hi]. by eapply same_handles_insert.
Qed.

Lemma frame_stays s s' h : frame s s' -> (is_open s = true -> m_tcp_stream s = Some h) -> inv None None s' ->
  is_open s' = true -> m_tcp_stream s' = Some h.
Proof.
  intros Hf Hm Hi Ho. destruct (f_current s s' Hf) as [E|E].
  - rewrite E. by apply Hm, (f_open s s' Hf).
  - by rewrite (closed_without_stream None s' (inv_shape s' Hi) E) in Ho.
Qed.

(** The connect callback, with the state it is called in. *)
Lemma call_connect_step r s e user : Calls user -> inv None r (connected s (m_connect_callback s) e) ->
  returns (call_connect s e user) (fun s' => inv None r s' /\ frame (connected s (m_connect_callback s) e) s').
Proof.
  intros Hu. unfold call_connect, connected. destruct (m_connect_callback s); [by apply user_step|]. intros Hi. by split.
Qed.

Lemma code_canceled : code (Error_of_uv (uv_code UV_ECANCELED)) = OPERATION_CANCELED.
Proof.
  unfold Error_of_uv. rewrite (proj2 (Z.ltb_lt _ _)) by apply uv_code_negative. cbn [code m_status_code].
  apply convert_from_uv_code. refine (bool_decide_unpack _ _). vm_compute. exact I.
Qed.

Lemma on_connect_step s h hs st rd cu clu : inv None None s -> handles s !! h = Some hs -> connect_req hs = Pending ->
  (closing hs = true -> st = uv_code UV_ECANCELED) -> Calls cu -> Calls clu ->
  returns (on_connect s h st rd cu clu) (inv None None).
Proof.
  intros Hi Hh Hp Hcl Hcu Hclu. destruct (connecting s h hs Hi Hh Hp) as (Ho & Hcn & Hd & He & Hno & N1 & N2 & Hcur).
  unfold on_connect. cbn zeta. set (error := Error_of_uv st). unfold on_handle at 1. rewrite Hh, bool_decide_false by congruence.
  cbn [negb obind]. set (ok := negb (error_bool error)).
  set (s1 := s <| handles ::= insert h (hs <| connect_req := NoRequest |> <| established := ok |>) |>).
  assert (m_close_callback (set_is_open s1 ok) = m_close_callback s) as Emc by done. rewrite Emc.
  assert (closing hs = true -> ok = false /\ bool_decide (code error = CONNECTION_RESET_BY_PEER) = false) as Hclosed.
  { intros Hc. unfold ok, error. rewrite (Hcl Hc), error_bool_of_uv, code_canceled. pose proof (uv_code_negative UV_ECANCELED).
    by rewrite (proj2 (Z.ltb_lt _ _)). }
  destruct (bool_decide (code error = CONNECTION_RESET_BY_PEER)) eqn:Ereset.
  - assert (ok = false) as Hok0.
    { apply bool_decide_eq_true in Ereset. unfold ok, error_bool. unfold code in Ereset. by rewrite Ereset. }
    rewrite Hok0 in *. cbn [orb andb].
    set (s2 := if m_close_callback s then (set_is_open s1 false) <| opened ::= S |> else set_is_open s1 false).
    destruct (connected_facts s2 (m_connect_callback s2) (Error_of_status OK)) as (F1 & F2 & F3 & F4 & F5 & F6 & F7 & F8 & F9 & F10 & _).
    set (r := if m_close_callback s then Some 1%nat else None).
    assert (inv None r (connected s2 (m_connect_callback s2) (Error_of_status OK))) as Hi2.
    { apply (answered_inv r s h hs false); try done.
      - rewrite F3. unfold s2. by destruct (m_close_callback s).
      - rewrite F4. unfold s2. by destruct (m_close_callback s).
      - rewrite F5. unfold s2, s1. rewrite Hok0. by destruct (m_close_callback s).
      - rewrite F6. unfold s2. by destruct (m_close_callback s).
      - rewrite F7. unfold s2. by destruct (m_close_callback s).
      - rewrite F1. unfold s2. by destruct (m_close_callback s).
      - rewrite F2, F8, F10. unfold s2, r. destruct (m_close_callback s); cbn [default andb Nat.b2n];
          [change (n_closed s + 0 + 1 = S (opened s) + extra s)%nat|change (n_closed s + 0 + 0 = opened s + extra s)%nat]; lia.
      - intros Hr _. rewrite F9. unfold s2. unfold r in Hr. by destruct (m_close_callback s) eqn:E. }
    assert (m_close_callback s2 = m_close_callback s) as Em2 by (unfold s2; by destruct (m_close_callback s)).
    assert (is_open s2 = false) as Eo2 by (unfold s2; by destruct (m_close_callback s)).
    rewrite obind_assoc. eapply returns_bind; [by apply (call_connect_step r)|]. intros s3 [Hi3 Hf3].
    assert (is_open s3 = true -> m_tcp_stream s3 = Some h) as Hno3.
    { intros Hop. apply (f_open _ _ Hf3) in Hop. by rewrite F6, Eo2 in Hop. }
    assert (m_close_callback s3 = m_close_callback s) as Em3 by (by rewrite (f_close_callback _ _ Hf3), F9).
    rewrite Em3. destruct (m_close_callback s) eqn:Emcb; [|by apply read_start_step].
    assert (inv None (Some 0%nat) (emit s3 (TcpStream.Closed error))) as Hi4.
    { apply (inv_emit None (Some 1%nat)); [done|done|]. destruct (inv_counts s3 Hi3) as [C1 C2 C3 C4]. destruct (closed_emit s3 error) as [G1 G2].
      split; [| |done|intros _; by apply C4].
      - intros b Hb. rewrite G1. by apply C1.
      - intros b Hb. rewrite G2. specialize (C2 b Hb). change (n_closed s3 + Nat.b2n b + 1 = opened s3 + extra s3)%nat in C2.
        change (S (n_closed s3) + Nat.b2n b + 0 = opened s3 + extra s3)%nat. lia. }
    cbn [obind]. rewrite obind_assoc. eapply returns_bind; [by apply (user_step None (Some 0%nat))|]. intros s4 [Hi4' Hf4].
    cbn [obind].
    assert (inv None None (set_close_callback s4 false)) as Hi5.
    { destruct Hi4' as [Hw Hr Hs Hc]. split; [by apply (TcpStream.writes_ok_frame (stream s4))|by apply (TcpStream.reads_ok_frame (stream s4))|
        by apply (shape_frame None s4)|]. destruct Hc as [C1 C2 C3 C4]. split; [exact C1| |done|done].
      intros b Hb. destruct b; [by destruct (proj1 Hb eq_refl)|].
      refine (C2 false _). split; [done|]. intros [Hx _]. by destruct (C4 ltac:(done) Hx). }
    apply read_start_step; [done|]. intros Hop. change (is_open s4 = true) in Hop. apply (f_open _ _ Hf4), (f_open _ _ Hf3) in Hop.
    by rewrite F6, Eo2 in Hop.
  - rewrite orb_false_r.
    set (s2 := if ok && m_close_callback s then (set_is_open s1 ok) <| opened ::= S |> else set_is_open s1 ok).
    set (s3 := if error_bool error then set_close_callback (s2 <| m_receive_callback := false |>) false else s2).
    assert (is_open s3 = ok /\ m_tcp_stream s3 = m_tcp_stream s /\ m_connect_callback s3 = m_connect_callback s) as (Eo3 & Et3 & Ec3).
    { unfold s3, s2. destruct (error_bool error), (ok && m_close_callback s); done. }
    destruct (connected_facts s3 (m_connect_callback s3) error) as (F1 & F2 & F3 & F4 & F5 & F6 & F7 & F8 & F9 & F10 & _).
    assert (inv None None (connected s3 (m_connect_callback s3) error)) as Hi3.
    { apply (answered_inv None s h hs ok); try done; [by intros Hc; apply Hclosed| | | | | | | | ].
      - rewrite F3. unfold s3, s2. by destruct (error_bool error), (ok && m_close_callback s).
      - rewrite F4. unfold s3, s2. by destruct (error_bool error), (ok && m_close_callback s).
      - rewrite F5. unfold s3, s2. by destruct (error_bool error), (ok && m_close_callback s).
      - by rewrite F6.
      - rewrite F7. unfold s3, s2. by destruct (error_bool error), (ok && m_close_callback s).
      - rewrite F1, Ec3. unfold s3, s2. by destruct (error_bool error), (ok && m_close_callback s).
      - rewrite F2, F8, F9, F10. unfold s3, s2, ok. destruct (error_bool error); cbn [negb andb default];
          [change (n_closed s + 0 + 0 = opened s + extra s)%nat; lia|].
        destruct (m_close_callback s) eqn:E; cbn [negb andb].
        + change (n_closed s + Nat.b2n (m_close_callback s) + 0 = S (opened s) + extra s)%nat. rewrite E. cbn. lia.
        + change (n_closed s + Nat.b2n (m_close_callback s) + 0 = opened s + extra s)%nat. rewrite E. cbn. lia.
      - intros _ Hok. rewrite F9. unfold s3. unfold ok in Hok. by destruct (error_bool error). }
    eapply returns_bind; [by apply (call_connect_step None)|]. intros s4 [Hi4 Hf4]. apply read_start_step; [done|].
    apply (frame_stays _ s4 h Hf4); [|done]. rewrite F6, Eo3. injection F5 as -> _ _ _. rewrite Et3. intros Hok. apply Hcur.
    destruct (closing hs); [|done]. destruct (Hclosed eq_refl). congruence.
Qed.

(** *** on_shutdown and on_close *)

(** The answered shutdown, when there is no other. *)
Lemma answered_shutdown s h hs : inv None None s -> handles s !! h = Some hs -> shutdown_req hs = true ->
  let s1 := s <| handles ::= insert h (hs <| shutdown_req := false |>) |> in m_tcp_stream s = Some h /\ inv None None s1 /\ calm s1.
Proof.
  intros Hi Hh Hsd s1. pose proof (inv_shape s Hi) as Hs. pose proof (sh_handle None s Hs h hs Hh) as Hok.
  destruct (ok_shutdown _ _ _ _ Hok Hsd) as (He & Hc & Hd). destruct (ok_alive _ _ _ _ Hok Hc) as [Hm|]; [|done]. split; [done|]. split.
  - apply (inv_stream None None s); try done.
    + apply (shape_update None s h hs (hs <| shutdown_req := false |>)); try done; [destruct Hok; by split|].
      change (is_open s = established hs). by rewrite He, (sh_established None s Hs h hs).
    + apply (counts_frame None s); [|done|apply Hi]. by eapply same_handles_insert.
  - intros k ks Hk. change (<[h := hs <| shutdown_req := false |>]> (handles s) !! k = Some ks) in Hk. apply lookup_insert_Some in Hk as [[_ <-]|[Hne Hk]]; [done|].
    destruct (shutdown_req ks) eqn:E; [|done]. destruct (ok_shutdown _ _ _ _ (sh_handle None s Hs k ks Hk) E) as (_ & _ & Hkd). by destruct Hne; apply (sh_unique None s Hs h k hs ks).
Qed.

(** The end of [on_shutdown]: the client lets go of the handle. *)
Lemma shutdown_closes s h : inv None None s -> m_tcp_stream s = Some h -> calm s ->
  returns (let s := set_is_open s false in
    match m_tcp_stream s with
    | None => Fault NullDeref
    | Some current =>
        if uv_is_closing s current then Ret s
        else let* s := on_handle s h uv_close in Ret (set_tcp_stream s None)
    end) (fun s' => inv None None s' /\ m_tcp_stream s' = None /\ is_open s' = false).
Proof.
  intros Hi Hm Hcalm. pose proof (inv_shape s Hi) as Hs. destruct (current_handle None s h Hs Hm) as (hs & Hh & Hc & Hd & Hok). cbn zeta.
  change (m_tcp_stream (set_is_open s false)) with (m_tcp_stream s). rewrite Hm. unfold uv_is_closing, on_handle. change (handles (set_is_open s false)) with (handles s). rewrite Hh, Hc.
  rewrite uv_close_ok by (done || apply Hok). cbn [obind returns]. destruct (close_current_inv None None s h hs Hi Hm Hh (Hcalm h hs Hh)) as [Hi2 _]. by split_and!.
Qed.

Lemma on_shutdown_step s h hs st user : inv None None s -> handles s !! h = Some hs -> shutdown_req hs = true -> (st < 0 -> Stays user) ->
  returns (on_shutdown s h st user) (fun s' => inv None None s' /\ m_tcp_stream s' = None /\ is_open s' = false).
Proof.
  intros Hi Hh Hsd Hu. destruct (answered_shutdown s h hs Hi Hh Hsd) as (Hm & Hi1 & Hcalm). unfold on_shutdown, on_handle at 1. rewrite Hh. cbn [obind].
  set (s1 := s <| handles ::= insert h (hs <| shutdown_req := false |>) |>) in *.
  apply (returns_bind _ _ (fun s2 => inv None None s2 /\ m_tcp_stream s2 = Some h /\ calm s2)); [|intros s2 (Hi2 & Hm2 & Hc2); by apply shutdown_closes].
  rewrite error_bool_of_uv. destruct (Z.ltb_spec st 0) as [Hst|Hst]; [|by split_and!]. unfold call_close, count_extra. change (m_close_callback s1) with (m_close_callback s).
  destruct (m_close_callback s) eqn:Hcb; change (m_close_callback (s1 <| extra ::= S |>)) with (m_close_callback s); change (m_close_callback s1) with (m_close_callback s); rewrite Hcb; [|by split_and!].
  pose proof (extra_inv None None s1 (Error_of_uv st) Hi1 Hcb) as Hi2. eapply returns_mono; [by apply Hu|]. intros s3 (Hr & Hm3 & Hc3).
  destruct (client_calls_step None None _ s3 Hr Hi2) as [Hi3 _]. split_and!; try done. rewrite Hm3. exact Hm.
Qed.

(** A handle without a request goes away; [q] is one when the call owed to it has just been made. *)
Lemma counts_delete s h hs (q : nat) s' : inv None None s -> handles s !! h = Some hs -> connect_req hs <> Pending ->
  q = (if data hs && m_close_callback s then 1 else 0)%nat ->
  handles s' = delete h (handles s) -> m_connect_callback s' = m_connect_callback s -> m_close_callback s' = m_close_callback s ->
  n_connected s' = n_connected s -> n_closed s' = (n_closed s + q)%nat -> connects s' = connects s ->
  asked_connects s' = asked_connects s -> opened s' = opened s ->
  extra s' = (extra s + if bool_decide (connect_req hs = Refused) then q else 0)%nat -> counts None s'.
Proof.
  intros Hi Hh Hr Hq Em E1 E2 E3 E4 E5 E6 E7 E8. pose proof (ok_request _ _ _ _ (sh_handle None s (inv_shape s Hi) h hs Hh)) as Hrq. unfold request_ok in Hrq. pose proof (inv_shape s Hi) as Hs. destruct (inv_counts s Hi) as [C1 C2 C3 C4].
  assert (forall k ks, handles s' !! k = Some ks <-> k <> h /\ handles s !! k = Some ks) as Hdel.
  { intros k ks. rewrite Em, lookup_delete_Some. split; intros [? ?]; by split. }
  split; [| | |done].
  - intros b Hb. rewrite E3, E5, E6. apply C1. rewrite Hb, E1. split; intros [(k & ks & Hk & Hp) Hx]; (split; [|done]); exists k, ks.
    + by apply Hdel in Hk as [_ ?].
    + split; [|done]. apply Hdel. split; [|done]. intros ->. congruence.
  - intros b Hb. rewrite E4, E7, E8. destruct (data hs) eqn:Hd; cbn [andb] in Hq.
    + assert (b = false) as ->.
      { destruct b; [|done]. destruct (proj1 Hb eq_refl) as [(k & ks & [Hne Hk]%Hdel & Hkd & _) _]. by destruct Hne; apply (sh_unique None s Hs k h ks hs). }
      destruct (established hs) eqn:He.
      * rewrite bool_decide_false by (intros E; by rewrite E in Hrq). specialize (C2 (m_close_callback s)). rewrite Hq. destruct (m_close_callback s); cbn in *;
          (assert (owes s) as Ho by (by exists h, hs)); lapply C2; try tauto; try lia; split; try done; by intros [_ ?].
      * cut (n_closed s + 0 + 0 = opened s + extra s)%nat.
        { destruct (bool_decide_reflect (connect_req hs = Refused)) as [Hre|Hre]; [cbn; lia|]. destruct (connect_req hs) eqn:Ecr; try done.
          rewrite (C3 eq_refl h hs Hh Hd Ecr He) in Hq. cbn. lia. }
        refine (C2 false _). split; [done|]. intros [(k & ks & Hk & Hkd & Hke) _]. assert (k = h) as -> by (by apply (sh_unique None s Hs k h ks hs)). congruence.
    + cut (n_closed s + Nat.b2n b + 0 = opened s + extra s)%nat; [rewrite Hq; destruct (bool_decide _); cbn; lia|]. refine (C2 b _). rewrite Hb, E2. split; intros [(k & ks & Hk & Hkd & He) Hx]; (split; [|done]); exists k, ks.
      * by apply Hdel in Hk as [_ ?].
      * split; [|done]. apply Hdel. split; [|done]. intros ->. congruence.
  - intros _ k ks [Hne Hk]%Hdel. rewrite E2. by apply (C3 eq_refl k).
Qed.

Lemma unowned_calm s : shape None s -> (forall h hs, handles s !! h = Some hs -> data hs = false) -> calm s.
Proof.
  intros Hs Hall h hs Hh. destruct (shutdown_req hs) eqn:E; [|done].
  destruct (ok_shutdown _ _ _ _ (sh_handle None s Hs h hs Hh) E) as (_ & _ & Hd). by rewrite (Hall h hs Hh) in Hd.
Qed.

(** A closed handle is forgotten, and the close callback called. *)
Lemma closed_handle_inv s h hs : inv None None s -> handles s !! h = Some hs -> closing hs = true -> connect_req hs <> Pending -> data hs = true ->
  let s1 := s <| handles ::= delete h |> in
  let s2 := if bool_decide (connect_req hs = Refused) then count_extra s1 else s1 in
  let s3 := if m_close_callback s2 then emit s2 (TcpStream.Closed (Error_of_uv 0)) else s2 in inv None None s3 /\ handles s3 = delete h (handles s).
Proof.
  intros Hi Hh Hcl Hr Hd s1 s2. assert (shape None s1) as Hs1 by (by apply (shape_delete None s h hs); [apply Hi|..]).
  assert (stream s2 = stream s /\ shape_view s2 = shape_view s1 /\ count_view s2 =
    (m_connect_callback s, m_close_callback s, n_connected s, n_closed s, connects s, asked_connects s, opened s,
     (extra s + if bool_decide (connect_req hs = Refused) then if m_close_callback s then 1 else 0 else 0)%nat)) as (E1 & E2 & E3).
  { subst s2 s1. unfold count_extra. destruct (bool_decide (connect_req hs = Refused)); [|split_and!; [done|done|]; by rewrite Nat.add_0_r].
    change (m_close_callback (s <| handles ::= delete h |>)) with (m_close_callback s). destruct (m_close_callback s) eqn:Ecb; (split_and!; [done|done|]); unfold count_view.
    - change (m_close_callback (s <| handles ::= delete h |> <| extra ::= S |>)) with (m_close_callback s). rewrite Ecb, Nat.add_1_r. done.
    - change (m_close_callback (s <| handles ::= delete h |>)) with (m_close_callback s). rewrite Ecb, Nat.add_0_r. done. }
  clearbody s2. assert (is_open s2 = is_open s1) as E4 by (unfold is_open; by rewrite E1). injection E3 as G1 G2 G3 G4 G5 G6 G7 G8. rewrite G2.
  assert (handles s2 = delete h (handles s)) as E5 by (by injection E2 as _ -> _ _). cbn zeta. destruct (m_close_callback s) eqn:Ecb.
  - destruct (closed_emit s2 (Error_of_uv 0)) as [N1 N2]. destruct (emit_views s2 (TcpStream.Closed (Error_of_uv 0)) eq_refl) as [V1 V2]. rewrite E1 in V1, V2. split; [|exact E5].
    split; [by apply (TcpStream.writes_ok_frame (stream s)), Hi|by apply (TcpStream.reads_ok_frame (stream s)), Hi|by apply (shape_frame None s1)|].
    apply (counts_delete s h hs 1%nat); try done; [by rewrite Hd, Ecb|exact (eq_trans G2 (eq_sym Ecb))|congruence|rewrite N2; lia].
  - split; [|done]. split; [rewrite E1; apply Hi|rewrite E1; apply Hi|by apply (shape_frame None s1)|].
    apply (counts_delete s h hs 0%nat); try done; [by rewrite Hd, Ecb|congruence|lia].
Qed.

Lemma on_close_step s h hs user : inv None None s -> handles s !! h = Some hs -> closing hs = true -> connect_req hs <> Pending ->
  Calls user -> returns (on_close s h user) (inv None None).
Proof.
  intros Hi Hh Hcl Hr Hu. pose proof (inv_shape s Hi) as Hs. unfold on_close. rewrite Hh.
  destruct (data hs) eqn:Hd.
  - destruct (closed_handle_inv s h hs Hi Hh Hcl Hr Hd) as [Hi2 E2]. cbn zeta in Hi2, E2. set (s1 := s <| handles ::= delete h |>) in *.
    set (s1' := if bool_decide (connect_req hs = Refused) then count_extra s1 else s1) in *. set (s2 := if m_close_callback s1' then _ else _) in *.
    eapply (returns_bind _ _ (fun s3 => inv None None s3 /\ frame s2 s3)).
    { unfold call_close. subst s2. destruct (m_close_callback s1'); [by apply user_step|]. by split. }
    intros s3 [Hi3 Hf3]. set (s4 := s3 <| stream ::= _ |>).
    assert (inv None None s4) as Hi4.
    { apply (inv_stream None None s3); [done|done|done|by apply (shape_frame None s3), Hi3|].
      by apply (counts_frame None s3); [apply same_handles_refl| |apply Hi3]. }
    destruct (m_want_delete_object s1); [|done].
    assert (calm s4) as Hcalm.
    { apply (unowned_calm s3 (inv_shape s3 Hi3)). intros k ks Hk. destruct (data ks) eqn:Hkd; [|done].
      destruct (f_owned _ _ Hf3 k ks Hk Hkd) as (ks2 & Hk2 & Hkd2).
      rewrite E2 in Hk2. apply lookup_delete_Some in Hk2 as [Hne Hk2]. by destruct Hne; apply (sh_unique None s Hs h k hs ks2). }
    eapply returns_mono; [by apply (client_schedule_removal_step None None)|]. by intros s5 [? _].
  - cbn [returns]. split; [apply Hi|apply Hi|by apply (shape_delete None s h hs)|]. set (s1 := s <| handles ::= delete h |>).
    apply (counts_delete s h hs 0%nat); try done; [by rewrite Hd|]. destruct (bool_decide _); by rewrite Nat.add_0_r.
Qed.

(** *** Reading *)

(** A stream as the client's invariant sees it, but for its read buffer. *)
Definition stream_view (b : TcpStream.t) :=
  (TcpStream.write_view b, TcpStream.m_tcp_stream b, TcpStream.next_handle b, TcpStream.m_is_open b, TcpStream.m_close_callback b,
   TcpStream.closings b, omap connected_of (TcpStream.events b)).

Lemma inv_restream x r s b : inv x r s -> TcpStream.reads_ok b -> stream_view b = stream_view (stream s) -> inv x r (s <| stream := b |>).
Proof.
  intros Hi Hr Ev. unfold stream_view in Ev. assert (TcpStream.write_view b = TcpStream.write_view (stream s)) as Ew by congruence.
  injection Ev as _ _ _ _ _ F1 F2 F3 F4 F5 F6. split; [by apply (TcpStream.writes_ok_frame (stream s)), Hi|done| |].
  - apply (shape_frame x s); [unfold shape_view, m_tcp_stream; cbn; congruence|exact F3|apply Hi].
  - apply (counts_frame r s); [apply same_handles_refl| |apply Hi].
    unfold count_view, m_close_callback, n_closed, n_connected. cbn [stream set_field connects asked_connects opened m_connect_callback].
    by rewrite F4, F5, F6.
Qed.

Lemma received_view b c d : stream_view (TcpStream.emit b (TcpStream.Received c d)) = stream_view b.
Proof.
  unfold stream_view, TcpStream.write_view. rewrite TcpStream.stream_called_emit, TcpStream.closings_emit. cbn.
  by rewrite omap_app, !app_nil_r.
Qed.

(** The end of [on_read] for data. *)
Lemma client_settle_inv s b1 bn bytes n off k :
  inv None None s -> TcpStream.reads_ok b1 -> TcpStream.m_read_buf b1 = Some bn -> TcpStream.chunk_data b1 bn bytes ->
  let chunk := TcpStream.mkChunk (Some bn) (Z.of_nat (length bytes)) off in
  TcpStream.retains b1 (stream s) chunk bytes ->
  inv None None (TcpStream.bump n (TcpStream.drop_shared 1
    (s <| stream ::= fun b => b <| TcpStream.kept ::= fun l => l ++ replicate k (chunk, bytes) |> |>))).
Proof.
  intros Hi Hr1 Eb Hd chunk (E1 & E2 & E3 & E4 & E5). set (s1 := s <| stream ::= _ |>).
  assert (TcpStream.reads_ok (stream (TcpStream.bump n (TcpStream.drop_shared 1 s1)))) as Hr.
  { apply (TcpStream.bump_reads_ok (derived := client_derived)), (TcpStream.drop_shared_reads_ok (derived := client_derived) s1 b1 bn bytes off); try done.
    split_and!; try done. cbn. intros y d [Hin|Hin]%elem_of_app; [by apply E5|].
    apply elem_of_replicate in Hin as [[= -> ->] _]. by right. }
  assert (TcpStream.bump n (TcpStream.drop_shared 1 s1) = s <| stream := stream (TcpStream.bump n (TcpStream.drop_shared 1 s1)) |>) as ->
    by (unfold TcpStream.bump, TcpStream.drop_shared; by case_bool_decide).
  apply inv_restream; [done|done|]. unfold TcpStream.bump, TcpStream.drop_shared. by case_bool_decide.
Qed.

Lemma on_read_step s sz bytes user : inv None None s -> Receives user -> 0 <= sz ->
  Z.of_nat (length bytes) <= (TcpStream.alloc_read_buffer (stream s) sz).2.2 -> returns (on_read s sz bytes user) (inv None None).
Proof.
  intros Hi Hu Hs Hl. unfold on_read. set (s0 := s <| m_connect_req := None |>).
  destruct (inv_other None None s s0) as [Hi0 _]; [done..|].
  destruct (TcpStream.uv_read_split (derived := client_derived) s0 sz bytes (m_receive_callback s) user (inv_reads s0 Hi0) Hs Hl)
    as (b1 & bn & Hr1 & Hcore & Eb & Hd & _ & ->).
  assert (stream_view b1 = stream_view (stream s0)) as Hv by exact (f_equal stream_view Hcore).
  destruct (negb (bool_decide (bytes = [])) && m_receive_callback s).
  - set (chunk := TcpStream.mkChunk _ _ _).
    assert (inv None None (s0 <| stream := TcpStream.emit b1 (TcpStream.Received chunk bytes) |>)) as Hi1.
    { apply inv_restream; [done|by apply (TcpStream.reads_ok_frame b1)|by rewrite received_view]. }
    eapply returns_bind; [apply Hu|]. intros s2 (s3 & n & Hcalls & ->). cbn [returns].
    destruct (client_calls_step None None _ s3 Hcalls Hi1) as [Hi3 Hf3].
    apply (client_settle_inv s3 (TcpStream.emit b1 (TcpStream.Received chunk bytes))); try done.
    exact (f_receive _ s3 Hf3 chunk bytes).
  - apply (inv_restream None None s0 (b1 <| TcpStream.m_data_offset ::= fun n => wrap 64 (n + Z.of_nat (length bytes)) |>)); try done.
Qed.

(** The detached handle is given to [uv_close]. *)
Lemma close_detached_inv s h hs : inv (Some h) None s -> handles s !! h = Some hs ->
  inv None None (s <| handles ::= insert h (hs <| closing := true |> <| reading := false |>) |>).
Proof.
  intros Hi Hh. set (hs' := hs <| closing := true |> <| reading := false |>). destruct Hi as [Hw Hr [H1 H2 H3 H4 He H5 H6] Hc].
  destruct (H6 h eq_refl) as (hs0 & Hh0 & Hcl & Hd & Hsd & Hm). rewrite Hh in Hh0. injection Hh0 as <-.
  assert (forall k ks, <[h := hs']> (handles s) !! k = Some ks -> (k = h /\ ks = hs') \/ (k <> h /\ handles s !! k = Some ks)) as Hins.
  { intros k ks. rewrite lookup_insert_Some. intros [[<- <-]|[? ?]]; [by left|by right]. }
  assert (forall k, m_tcp_stream s = Some k -> <[h := hs']> (handles s) !! k = handles s !! k) as Hcur.
  { intros k Hk. rewrite lookup_insert_ne; [done|]. intros ->. by destruct Hm. }
  split; [done|done| |by apply (counts_frame None s); [by eapply same_handles_insert|..]].
  split; change (m_tcp_stream (s <| handles ::= _ |>)) with (m_tcp_stream s); cbn [handles set_field connects]; try done.
  - intros k Hk. rewrite (Hcur k Hk). by apply H1.
  - intros k ks [[-> ->]|[Hne Hk]]%Hins.
    + destruct (H2 h hs Hh). split; cbn; try done. rewrite Hsd. done.
    + destruct (H2 k ks Hk) as [? ? Hal ? ? ? ?]. split; try done. intros Hx. destruct (Hal Hx) as [?|[= ?]]; [by left|by destruct Hne].
  - intros k1 k2 ks1 ks2 [[-> ->]|[? Hk1]]%Hins [[-> ->]|[? Hk2]]%Hins Hd1 Hd2; try done; [cbn in Hd1; congruence|cbn in Hd2; congruence|].
    by apply (H3 k1 k2 ks1 ks2).
  - intros Hop. destruct (H4 Hop) as (k & ks & Hk & ? & ?). exists k, ks. by rewrite (Hcur k Hk).
  - intros k ks Hk. rewrite (Hcur k Hk). by apply He.
  - intros Hx. destruct (H5 Hx) as (? & ? & Hall). split_and!; try done. intros k ks [[-> ->]|[? Hk]]%Hins; [done|by apply (Hall k)].
Qed.

Lemma on_read_failed_step s h hs nread gs value user : inv None None s -> handles s !! h = Some hs -> reading hs = true -> calm s \/ m_close_callback s = false ->
  Calls user -> returns (on_read_failed s nread gs value user) (inv None None).
Proof.
  intros Hi Hh Hrd Hcalm Hu. pose proof (inv_shape s Hi) as Hs. pose proof (sh_handle None s Hs h hs Hh) as Hok.
  destruct (ok_reading _ _ _ _ Hok Hrd) as [He Hc]. destruct (ok_alive _ _ _ _ Hok Hc) as [Hm|]; [|done].
  destruct (current_handle None s h Hs Hm) as (hs0 & Hh0 & _ & Hd & _). rewrite Hh in Hh0. injection Hh0 as <-.
  unfold on_read_failed. cbn zeta. set (s0 := s <| m_connect_req := None |>). destruct (inv_other None None s s0) as [Hi0 _]; [done..|].
  assert (exists e, TcpStream.read_error (stream s0) (Error_of_uv nread) gs value = Ret e) as [e ->].
  { unfold TcpStream.read_error. case_bool_decide; [|by eexists]. unfold TcpStream.get_socket_error.
    change (TcpStream.m_tcp_stream (stream s0)) with (m_tcp_stream s). rewrite Hm. destruct (error_bool _); by eexists. }
  cbn [obind]. destruct (m_close_callback s0) eqn:Ecb; [|done]. destruct Hcalm as [Hcalm|Hcalm]; [|change (m_close_callback s0) with (m_close_callback s) in Ecb; congruence]. change (m_tcp_stream (set_is_open s0 false)) with (m_tcp_stream s). rewrite Hm.
  unfold on_handle at 1. change (handles (set_is_open s0 false)) with (handles s). rewrite Hh. cbn [obind]. set (hs1 := hs <| data := false |>).
  set (s1 := set_tcp_stream _ None). assert (m_close_callback s1 = true) as Ecb1 by exact Ecb.
  assert (shape (Some h) s1) as Hs1.
  { apply (shape_release None (Some h) s h hs hs1); try done; try by right.
    - apply Hok.
    - intros Hp. destruct (ok_pending _ _ _ _ Hok Hp). congruence.
    - exact (Hcalm h hs Hh). }
  assert (forall k ks, handles s1 !! k = Some ks -> data ks = false) as Hall.
  { intros k ks Hk. change (handles s1) with (<[h := hs1]> (handles s)) in Hk. apply lookup_insert_Some in Hk as [[<- <-]|[Hne Hk]]; [done|].
    destruct (data ks) eqn:Hkd; [|done]. by destruct Hne; apply (sh_unique None s Hs h k hs ks). }
  assert (inv (Some h) None (emit s1 (TcpStream.Closed (TcpStream.close_reason e)))) as Hi1.
  { destruct (closed_emit s1 (TcpStream.close_reason e)) as [N1 N2]. destruct (emit_views s1 (TcpStream.Closed (TcpStream.close_reason e)) eq_refl) as [V1 V2].
    split; [by apply (TcpStream.writes_ok_frame (stream s)), Hi|by apply (TcpStream.reads_ok_frame (stream s)), Hi|by apply (shape_frame (Some h) s1)|].
    destruct (inv_counts s Hi) as [C1 C2 C3 C4]. split; [| |intros _ k ks Hk Hkd; by rewrite (Hall k ks Hk) in Hkd|done].
    - intros b Hb. rewrite N1. refine (C1 b _). rewrite Hb. split; intros [(k & ks & Hk & Hp) Hx]; (split; [|done]).
      + exists k, ks. split; [|done]. change (<[h := hs1]> (handles s) !! k = Some ks) in Hk. apply lookup_insert_Some in Hk as [[<- <-]|[_ Hk]]; [|done].
        destruct (ok_pending _ _ _ _ Hok Hp). congruence.
      + exists k, ks. split; [|done]. change (<[h := hs1]> (handles s) !! k = Some ks). rewrite lookup_insert_ne; [done|]. intros ->.
        destruct (ok_pending _ _ _ _ (sh_handle None s Hs k ks Hk) Hp). congruence.
    - intros b Hb. rewrite N2. destruct b.
      + destruct (proj1 Hb eq_refl) as [(k & ks & Hk & Hkd & _) _]. by rewrite (Hall k ks Hk) in Hkd.
      + specialize (C2 true). change (S (n_closed s) + 0 + 0 = opened s + extra s)%nat. rewrite <- C2; [cbn; lia|]. split; [intros _|done].
        split; [by exists h, hs|exact Ecb]. }
  unfold call_close. rewrite Ecb1. eapply returns_bind; [by apply (user_step (Some h) None)|]. intros s2 [Hi2 _].
  destruct (sh_detached _ _ (inv_shape s2 Hi2) h eq_refl) as (hs2 & Hh2 & Hc2 & _). unfold on_handle. rewrite Hh2.
  rewrite uv_close_ok; [|apply (ok_inited _ _ _ _ (sh_handle _ _ (inv_shape s2 Hi2) h hs2 Hh2))|done]. cbn [obind returns].
  by apply close_detached_inv.
Qed.

Lemma client_after_write_step s i st : inv None None s -> (i < length (TcpStream.requests (stream s)))%nat ->
  Z.of_nat (TcpStream.next_send (stream s)) < 2 ^ 64 -> returns (after_write s i st) (inv None None).
Proof.
  intros Hi Hlt Hb. unfold after_write. pose proof (TcpStream.after_write_ok (stream s) i st (inv_writes s Hi) Hb Hlt) as H.
  destruct (TcpStream.after_write (stream s) i st) as [b|] eqn:E; [|done]. destruct H as (Hw & Hsame & _). cbn [obind returns].
  apply same_stream_inv; try done. unfold n_connected. f_equal. revert E. unfold TcpStream.after_write.
  destruct (TcpStream.requests (stream s) !! i) as [[n cb]|]; [|done]. destruct (1 <=? _); [|done]. intros [= <-]. by rewrite answer_connected.
Qed.

(** ** Runs of a client *)

(** What libuv or the loop calls. *)
Inductive Callback :=
| RunConnect (init_status connect_status : Z)
| OnConnect (h : nat) (uv_status read_status : Z) (connect_user close_user : t -> outcome t)
| OnShutdown (h : nat) (uv_status : Z) (user : t -> outcome t)
| OnClose (h : nat) (user : t -> outcome t)
| OnRead (h : nat) (suggested_size : Z) (bytes : list Z) (user : t -> DataChunk -> list Z -> outcome t)
| OnReadFailed (h : nat) (nread getter_status value : Z) (user : t -> outcome t)
| AfterWrite (i : nat) (uv_status : Z).

Definition run (s : t) (c : Callback) : outcome t :=
  match c with
  | RunConnect init_status connect_status => run_connect s init_status connect_status
  | OnConnect h uv_status read_status connect_user close_user => on_connect s h uv_status read_status connect_user close_user
  | OnShutdown h uv_status user => on_shutdown s h uv_status user
  | OnClose h user => on_close s h user
  | OnRead _ suggested_size bytes user => on_read s suggested_size bytes user
  | OnReadFailed _ nread getter_status value user => on_read_failed s nread getter_status value user
  | AfterWrite i uv_status => after_write s i uv_status
  end.

(** When it does so: libuv answers the requests it has, cancels those of a handle that closes, closes a handle
    after that, and reads from handles that read; any status may be an error, but that of [uv_tcp_init], which only
    fails for wrong arguments.  Two things are left out, since the client dereferences null then (see below): the end
    of a connection with a close callback while its shutdown is under way, and a close callback that lets go of the
    connection when its shutdown has failed. *)
Definition enabled (s : t) (c : Callback) : Prop :=
  match c with
  | RunConnect init_status _ => 0 <= init_status
  | OnConnect h uv_status read_status connect_user close_user =>
      (exists hs, handles s !! h = Some hs /\ connect_req hs = Pending /\ (closing hs = true -> uv_status = uv_code UV_ECANCELED)) /\
      Calls connect_user /\ Calls close_user
  | OnShutdown h uv_status user => (exists hs, handles s !! h = Some hs /\ shutdown_req hs = true) /\ (uv_status < 0 -> Stays user)
  | OnClose h user =>
      (exists hs, handles s !! h = Some hs /\ closing hs = true /\ connect_req hs <> Pending /\ shutdown_req hs = false) /\ Calls user
  | OnRead h suggested_size bytes user =>
      (exists hs, handles s !! h = Some hs /\ reading hs = true) /\ Receives user /\ 0 <= suggested_size /\
      Z.of_nat (length bytes) <= (TcpStream.alloc_read_buffer (stream s) suggested_size).2.2
  | OnReadFailed h nread _ _ user => (exists hs, handles s !! h = Some hs /\ reading hs = true) /\ (calm s \/ m_close_callback s = false) /\ Calls user
  | AfterWrite i _ => (i < length (TcpStream.requests (stream s)))%nat /\ Z.of_nat (TcpStream.next_send (stream s)) < 2 ^ 64
  end.

Inductive step (s s' : t) : Prop :=
| step_api : api s s' -> step s s'
| step_callback c : enabled s c -> run s c = Ret s' -> step s s'.

Lemma run_inv s c : inv None None s -> enabled s c -> returns (run s c) (inv None None).
Proof.
  intros Hi He. destruct c as [i k|h st rd cu clu|h st user|h user|h sz bytes user|h n gs v user|i st]; cbn [run enabled] in *.
  - destruct (connects s) as [|c rest] eqn:Ec; [unfold run_connect; by rewrite Ec|].
    by apply (run_connect_step s c rest).
  - destruct He as ((hs & Hh & Hp & Hc) & Hcu & Hclu). by apply (on_connect_step s h hs).
  - destruct He as ((hs & Hh & Hsd) & Hu). eapply returns_mono; [by apply (on_shutdown_step s h hs)|]. by intros s' [? _].
  - destruct He as ((hs & Hh & Hcl & Hr & _) & Hu). by apply (on_close_step s h hs).
  - destruct He as (_ & Hu & Hs & Hl). by apply on_read_step.
  - destruct He as ((hs & Hh & Hr) & Hcalm & Hu). by apply (on_read_failed_step s h hs).
  - destruct He as [Hlt Hb]. by apply client_after_write_step.
Qed.

Lemma client_create_inv : inv None None create.
Proof.
  split; [apply TcpStream.create_writes_ok|apply TcpStream.create_reads_ok|by split|].
  split; [| |done|done]; intros b Hb; (destruct b; [by destruct (proj1 Hb eq_refl) as [(? & ? & ? & _) _]|done]).
Qed.

Lemma reachable_from_inv s0 s : rtc step s0 s -> inv None None s0 -> inv None None s.
Proof.
  induction 1 as [|s0 s1 s2 [Ha|c He Hr] H2 IH]; [done| |]; intros Hi; apply IH.
  - exact (proj1 (client_api_step None None s0 s1 Ha Hi)).
  - pose proof (run_inv s0 c Hi He) as Hret. by rewrite Hr in Hret.
Qed.

Lemma client_reachable_inv s : rtc step create s -> inv None None s.
Proof. intros H. by apply (reachable_from_inv create s H), client_create_inv. Qed.


(** C22. In every such run the connect callback is called once per connect, and the close callback once per established
    connection, and once more for each failed shutdown, each connection that libuv refused to read and each connect
    that libuv refused and whose handle is closed ([extra]): neither is called more often than that, and when no
    connect is scheduled and no handle is left, each was called exactly as often. *)
Theorem client_callbacks_once s :
  rtc step create s ->
  (n_connected s <= asked_connects s)%nat /\ (n_closed s <= opened s + extra s)%nat /\
  (connects s = [] -> handles s = ∅ -> n_connected s = asked_connects s /\ n_closed s = (opened s + extra s)%nat).
Proof.
  intros H. destruct (inv_counts s (client_reachable_inv s H)) as [C1 C2 _ _].
  assert (exists b : bool, b = true <-> pending s /\ m_connect_callback s = true) as [b1 Hb1].
  { exists (bool_decide (map_Exists (fun _ hs => connect_req hs = Pending) (handles s) /\ m_connect_callback s = true)). by rewrite bool_decide_eq_true. }
  assert (exists b : bool, b = true <-> owes s /\ m_close_callback s = true) as [b2 Hb2].
  { exists (bool_decide (map_Exists (fun _ hs => data hs = true /\ established hs = true) (handles s) /\ m_close_callback s = true)). by rewrite bool_decide_eq_true. }
  pose proof (C1 b1 Hb1) as N1. pose proof (C2 b2 Hb2) as N2. change (n_closed s + Nat.b2n b2 + 0 = opened s + extra s)%nat in N2.
  split_and!; [lia|lia|]. intros Ec Em.
  assert (b1 = false) as -> by (destruct b1; [destruct (proj1 Hb1 eq_refl) as [(h & hs & Hh & _) _]; by rewrite Em in Hh|done]).
  assert (b2 = false) as -> by (destruct b2; [destruct (proj1 Hb2 eq_refl) as [(h & hs & Hh & _) _]; by rewrite Em in Hh|done]).
  rewrite Ec in N1. cbn in *. lia.
Qed.

(** ** Outside the intended use *)

(** [on_shutdown] reads [m_tcp_stream] although the client may have let go of its handle since. *)
Theorem shutdown_after_close_faults s h hs st user :
  handles s !! h = Some hs -> m_tcp_stream s = None -> 0 <= st -> on_shutdown s h st user = Fault NullDeref.
Proof.
  intros Hh Hm Hst. unfold on_shutdown, on_handle. rewrite Hh. cbn [obind].
  rewrite error_bool_of_uv, (proj2 (Z.ltb_ge _ _)) by done. cbn [obind]. change (m_tcp_stream (set_is_open _ false)) with (m_tcp_stream s).
  by rewrite Hm.
Qed.

(** The end of the stream goes unnoticed by a client without a close callback: it stays open. *)
Theorem end_of_stream_without_callback s nread gs value user s' :
  m_close_callback s = false -> on_read_failed s nread gs value user = Ret s' -> is_open s' = is_open s /\ handles s' = handles s.
Proof.
  intros Hc H. unfold on_read_failed in H. apply obind_ret_inv in H as (e & _ & H). change (m_close_callback (s <| m_connect_req := None |>)) with (m_close_callback s) in H.
  rewrite Hc in H. injection H as <-. done.
Qed.

End Client.

Section Example.
#[local] Existing Instance LittleEndianHost.
#[local] Existing Instance UvFallback.

Definition get (m : outcome t) : t := match m with Ret s => s | Fault _ => create end.
Definition server : Connect := mkConnect (Endpoint.of_u32 2130706433 80) true true true.

Definition scheduled_client : t := get (connect create server).
Definition connecting_client : t := get (run_connect scheduled_client 0 0).
Definition open_client : t := get (on_connect connecting_client 0 0 0 Ret Ret).

Lemma client_calls_ret : Calls Ret.
Proof. intros s. constructor. Qed.

Lemma connecting_reachable : rtc step create connecting_client.
Proof.
  eapply rtc_l; [apply step_api, (api_connect create server)|].
  - split_and!; try done.
  - reflexivity.
  - apply rtc_once. apply (step_callback _ _ (RunConnect 0 0)); [done|]. vm_compute. reflexivity.
Qed.


(** A connection whose shutdown fails. *)
Definition shut_client : t := get (shutdown open_client 0).
Definition failed_client : t := get (on_shutdown shut_client 0 (uv_code UV_ENOTCONN) Ret).
Definition ended_client : t := get (on_close failed_client 0 Ret).

Lemma client_stays_ret : Stays Ret.
Proof. intros s Hs. by split_and!; [apply rtc_refl|..]. Qed.

Lemma ended_reachable : rtc step create ended_client.
Proof.
  etransitivity; [exact connecting_reachable|].
  apply (rtc_l _ _ open_client); [apply (step_callback _ _ (OnConnect 0 0 0 Ret Ret)); [|vm_compute; reflexivity]|].
  { split; [eexists; split; [vm_compute; reflexivity|by split]|]. split; exact client_calls_ret. }
  apply (rtc_l _ _ shut_client); [apply step_api, (api_shutdown open_client 0); [|vm_compute; reflexivity]|].
  { change (map_Forall (fun _ hs => shutdown_req hs = false) (handles open_client)). apply (bool_decide_unpack _). vm_compute. exact I. }
  apply (rtc_l _ _ failed_client); [apply (step_callback _ _ (OnShutdown 0 (uv_code UV_ENOTCONN) Ret)); [|vm_compute; reflexivity]|].
  { split; [eexists; split; [vm_compute; reflexivity|done]|]. intros _. exact client_stays_ret. }
  apply rtc_once, (step_callback _ _ (OnClose 0 Ret)); [|vm_compute; reflexivity].
  split; [eexists; split; [vm_compute; reflexivity|done]|]. exact client_calls_ret.
Qed.

Lemma client_callbacks_once_witness : opened ended_client = 1%nat /\ extra ended_client = 1%nat /\ n_connected ended_client = 1%nat /\ n_closed ended_client = 2%nat.
Proof.
  assert (connects ended_client = []) as E1 by (vm_compute; reflexivity). assert (handles ended_client = ∅) as E2 by (vm_compute; reflexivity).
  assert (asked_connects ended_client = 1%nat /\ opened ended_client = 1%nat /\ extra ended_client = 1%nat) as (E3 & E4 & E5) by (vm_compute; done).
  destruct (client_callbacks_once ended_client ended_reachable) as (_ & _ & H). destruct (H E1 E2) as [H1 H2]. rewrite E3 in H1. rewrite E4, E5 in H2. by split_and!.
Defined.

(** A close while a shutdown is under way: libuv cancels the shutdown, whose callback dereferences null. *)
Example close_during_shutdown_faults :
  (let* s := shutdown open_client 0 in
   let* (s, _) := close s in
   on_shutdown s 0 (uv_code UV_ECANCELED) Ret) = Fault NullDeref.
Proof. vm_compute. reflexivity. Qed.

(** The same when the peer ends the connection while the shutdown is under way. *)
Example end_during_shutdown_faults :
  (let* s := shutdown open_client 0 in
   let* s := on_read_failed s (uv_code UV_EOF) 0 0 Ret in
   on_shutdown s 0 (uv_code UV_ECANCELED) Ret) = Fault NullDeref.
Proof. vm_compute. reflexivity. Qed.

(** Two calls of [connect] before the loop runs: the second [connect_impl] finds a stream. *)
Example connect_twice_asserts :
  (let* s := connect create server in
   let* s := connect s server in
   let* s := run_connect s 0 0 in
   run_connect s 0 0) = Fault AssertFailed.
Proof. vm_compute. reflexivity. Qed.

(** [connect] on an open client leaves it open without a stream: sending dereferences null. *)
Example send_while_reconnecting_faults :
  (let* s := connect open_client server in send_data s (Some [1]) 1 false 0) = Fault NullDeref.
Proof. vm_compute. reflexivity. Qed.

(** [connect] while connecting, when the loop runs it before the old handle closes: the request libuv still has is freed. *)
Example reconnect_frees_request :
  (let* s := connect connecting_client server in
   let* s := run_connect s 0 0 in
   on_connect s 0 (uv_code UV_ECANCELED) 0 Ret Ret) = Fault UseAfterFree.
Proof. vm_compute. reflexivity. Qed.

(** A shutdown that fails: the close callback is called with the error, and again when the handle closes. *)
Example shutdown_failure_notifies_twice :
  n_closed (get (let* s := shutdown open_client 0 in
                 let* s := on_shutdown s 0 (uv_code UV_ENOTCONN) Ret in
                 on_close s 0 Ret)) = 2%nat.
Proof. vm_compute. reflexivity. Qed.

(** [uv_tcp_connect] fails at once: the connect callback gets the error, and closing the client calls the close
    callback of a connection that never was. *)
Example close_after_failed_connect_notifies :
  let s := get (run_connect scheduled_client 0 (uv_code UV_EINVAL)) in
  let s := get (let* (s, _) := close s in on_close s 0 Ret) in
  n_connected s = 1%nat /\ n_closed s = 1%nat /\ opened s = 0%nat.
Proof. vm_compute. done. Qed.

End Example.

End TcpClient.
