(* ===== verification/File.v ===== *)
(** * fs::File

    [source/io/fs/File.cpp] with [fs/detail/FsCommon.h] (the POSIX build).

    A file reads ahead into [READ_BUFS_NUM] buffers.  A buffer is handed to the read callback as a
    [shared_ptr] whose deleter marks it free and goes on reading, so user code decides with the
    copies it keeps how far reading runs ahead.  A read request has the memory of its buffer,
    whether the request itself holds the pointer ([own]), whether libuv has it ([in_flight]), and the
    data of the chunks user code holds ([held]).

    Callbacks are numbered.  [user] is what user code does in a callback, from the state at the call to
    the state when it returns.  Close callbacks may also be the library's own: [Reopen] of
    [detail::open] and [RemoveFile] of [schedule_removal].  [scheduled] are the callbacks waiting for the
    loop, [blocks] the loop's counter of [start_block_loop_from_exit] calls not yet undone. *)

From S2P Require Import Prelude StatusCode.
Local Open Scope outcome_scope.
Local Open Scope record_scope.

Module File.

Inductive State := INITIAL | OPENING | OPENED | CLOSING | CLOSED.

#[global] Instance state_eq_dec : EqDecision State.
Proof. solve_decision. Defined.

Definition READ_BUF_SIZE : Z := 1024 * 4.
Definition READ_BUFS_NUM : nat := 4.

(** [FileReadRequest]; [memory] is [raw_buf], empty for [nullptr]. *)
Record FileReadRequest := mkReq {
  is_free : bool;
  own : bool;
  in_flight : bool;
  memory : list Z;
  held : list (list Z)
}.

#[global] Instance req_settable : Settable FileReadRequest := settable! mkReq < is_free; own; in_flight; memory; held >.

Definition read_request : FileReadRequest := mkReq true false false [] [].

Inductive CloseCallback :=
| NoCallback
| UserClose (callback : nat)
| Reopen (path : list Z) (callback : option nat)
| RemoveFile.

#[global] Instance close_callback_eq_dec : EqDecision CloseCallback.
Proof. solve_decision. Defined.

Definition is_callback (c : CloseCallback) : bool := match c with NoCallback => false | _ => true end.

(** Callbacks waiting for the loop; the ones that [defer_execution_if_required] posts are here too. *)
Inductive Scheduled :=
| CallClose (callback : CloseCallback) (error : Error)
| CloseRefused (callback : CloseCallback) (error : Error)
| OpenAgain (path : list Z) (callback : option nat)
| CallRead (callback : nat) (error : Error)
| ReadRefused (error : Error)
| CallStat (callback : nat) (error : Error).

(** Calls of user callbacks.  A chunk of a read request has its index; a chunk of [read_block] has none,
    and neither has the empty chunk of an error. *)
Inductive Event :=
| OpenCalled (callback : nat) (error : Error)
| CloseCalled (callback : nat) (error : Error)
| ReadCalled (callback : nat) (buf : option nat) (offset : Z) (data : list Z) (error : Error)
| EndReadCalled (callback : nat)
| StatCalled (callback : nat) (error : Error).

Record t := mk {
  m_open_callback : option nat;
  m_read_callback : option nat;
  m_end_read_callback : option nat;
  m_read_reqs : list FileReadRequest;
  m_current_offset : Z;
  m_read_in_progress : bool;
  m_done_read : bool;
  m_need_reschedule_remove : bool;
  m_open_request : option nat;
  m_file_handle : Z;
  m_stat_req : option nat;
  m_path : list Z;
  m_state : State;
  (** The base class [Removable]: [is_removal_scheduled()], and the number of times removal was begun. *)
  m_removal_scheduled : bool;
  removals : nat;
  (** What libuv has: open requests (whether their [data] is the file), close requests, block reads with
      their offset and size, [fstat] requests. *)
  open_requests : gmap nat bool;
  close_requests : list CloseCallback;
  block_requests : list (Z * Z);
  stat_requests : gmap nat (option nat);
  next_request : nat;
  (** The loop. *)
  running : bool;
  blocks : Z;
  scheduled : list Scheduled;
  events : list Event
}.

#[global] Instance t_settable : Settable t :=
  settable! mk < m_open_callback; m_read_callback; m_end_read_callback; m_read_reqs; m_current_offset; m_read_in_progress;
                 m_done_read; m_need_reschedule_remove; m_open_request; m_file_handle; m_stat_req; m_path; m_state;
                 m_removal_scheduled; removals; open_requests; close_requests; block_requests; stat_requests; next_request;
                 running; blocks; scheduled; events >.

Definition create : t :=
  mk None None None (replicate READ_BUFS_NUM read_request) 0 false false false None (-1) None [] INITIAL false 0
     ∅ [] [] ∅ 0 false 0 [] [].

Definition emit (s : t) (e : Event) : t := s <| events ::= fun l => l ++ [e] |>.
Definition schedule_callback (s : t) (c : Scheduled) : t := s <| scheduled ::= fun l => l ++ [c] |>.
Definition on_request (s : t) (i : nat) (f : FileReadRequest -> FileReadRequest) : t := s <| m_read_reqs ::= alter f i |>.

Definition is_open (s : t) : bool := negb (m_file_handle s =? -1).

Definition has_read_buffers_in_use (s : t) : bool := existsb (fun r => negb (is_free r)) (m_read_reqs s).

(** [start_block_loop_from_exit], [stop_block_loop_from_exit]. *)
Definition start_block (s : t) : t := s <| blocks ::= Z.succ |>.
Definition stop_block (s : t) : t := s <| blocks ::= Z.pred |>.

Section Impl.
Context {uv : UvErrno}.

(** What user code does in its callbacks, and what [uv_fs_read] and [uv_fs_close] return. *)
Variable user : Event -> t -> outcome t.
Variables read_status close_status : Z.

Definition call (s : t) (e : Event) : outcome t := user e (emit s e).
Definition call_open (s : t) (callback : option nat) (error : Error) : outcome t :=
  match callback with Some n => call s (OpenCalled n error) | None => Ret s end.
Definition call_read (s : t) (callback : option nat) (buf : option nat) (offset : Z) (data : list Z) (error : Error) : outcome t :=
  match callback with Some n => call s (ReadCalled n buf offset data error) | None => Ret s end.

(** ** Closing and removal *)

(** A close callback is called; [removal] is the call of [schedule_removal]. *)
Definition call_close (removal : t -> outcome t) (s : t) (callback : CloseCallback) (error : Error) : outcome t :=
  match callback with
  | NoCallback => Ret s
  | UserClose n => call s (CloseCalled n error)
  | Reopen path open_callback =>
      if error_bool error then call_open s open_callback error
      else Ret (schedule_callback s (OpenAgain path open_callback))
  | RemoveFile => if has_read_buffers_in_use s then Ret (s <| m_need_reschedule_remove := true |>) else removal s
  end.

Definition close_impl (removal : t -> outcome t) (s : t) (close_callback : CloseCallback) : outcome t :=
  if negb (is_open s) then
    Ret (if is_callback close_callback then schedule_callback s (CallClose close_callback (Error_of_status FILE_NOT_OPEN)) else s)
  else if bool_decide (m_state s = CLOSING) then
    call_close removal s close_callback (Error_of_status OPERATION_ALREADY_IN_PROGRESS)
  else
    let s := s <| m_state := CLOSING |> in
    let close_error := Error_of_uv close_status in
    if error_bool close_error then
      let s := s <| m_file_handle := -1 |> in
      Ret (if is_callback close_callback then schedule_callback s (CloseRefused close_callback close_error) else s)
    else Ret (s <| close_requests ::= fun l => l ++ [close_callback] |>).

(** [File::schedule_removal] with [Impl::schedule_removal].  [close] may call the callback it is given at once, and
    that calls [schedule_removal] again. *)
Fixpoint schedule_removal (fuel : nat) (s : t) : outcome t :=
  match fuel with
  | O => Fault FuelExhausted
  | S fuel =>
      let s := s <| m_removal_scheduled := true |> in
      if is_open s then close_impl (schedule_removal fuel) s RemoveFile
      else if has_read_buffers_in_use s then Ret (s <| m_need_reschedule_remove := true |>)
      else Ret (s <| removals ::= S |>)
  end.

Variable fuel : nat.

Definition close (s : t) (close_callback : CloseCallback) : outcome t := close_impl (schedule_removal fuel) s close_callback.

Definition finish_close (s : t) : t :=
  let s := match m_open_request s with
           | Some n => s <| open_requests ::= alter (fun _ => false) n |> <| m_open_request := None |>
           | None => s
           end in
  s <| m_path := [] |>.

Definition on_close (s : t) (result : Z) : outcome t :=
  match close_requests s with
  | [] => Ret s
  | close_callback :: rest =>
      let s := s <| close_requests := rest |> <| m_file_handle := -1 |> <| m_state := CLOSED |> in
      let* s := call_close (schedule_removal fuel) s close_callback (Error_of_uv result) in
      Ret (if bool_decide (m_state s = CLOSED) then finish_close s else s)
  end.

(** ** Opening *)

(** [open] with [detail::open]: an open file is closed first, and while it is opening or closing the call is
    repeated in the next cycle. *)
Definition open (s : t) (path : list Z) (callback : option nat) : outcome t :=
  match m_state s with
  | OPENED => close s (Reopen path callback)
  | OPENING | CLOSING => Ret (schedule_callback s (OpenAgain path callback))
  | INITIAL | CLOSED =>
      let n := next_request s in
      let s := s <| m_state := OPENING |> <| m_path := path |> <| m_current_offset := 0 |> in
      Ret (s <| m_open_request := Some n |> <| m_open_callback := callback |>
             <| open_requests ::= insert n true |> <| next_request := S n |>)
  end.

(** The scope exit of [on_open]. *)
Definition end_open (s : t) (n : nat) : t :=
  let s := if default false (open_requests s !! n) then s <| m_open_request := None |> else s in
  s <| open_requests ::= delete n |>.

Definition on_open (s : t) (n : nat) (result : Z) : outcome t :=
  match open_requests s !! n with
  | None => Fault UseAfterFree
  | Some false => Ret (end_open s n)
  | Some true =>
      let error := Error_of_uv (if 0 <? result then 0 else result) in
      if error_bool error then
        let* s := call_open s (m_open_callback s) error in
        Ret (end_open (s <| m_path := [] |> <| m_state := CLOSED |>) n)
      else
        let s := s <| m_file_handle := result |> in
        let* s := match m_open_callback s with
                  | Some _ => call_open (s <| m_state := OPENED |>) (m_open_callback s) (Error_of_status OK)
                  | None => Ret s
                  end in
        Ret (end_open s n)
  end.

(** ** Reading *)

(** [schedule_read(FileReadRequest&)]. *)
Definition schedule_read_req (s : t) (i : nat) : outcome t :=
  let s := start_block (s <| m_read_in_progress := true |>) in
  let read_error := Error_of_uv read_status in
  let s := on_request s i (fun r =>
    r <| memory ::= fun m => match m with [] => replicate (Z.to_nat READ_BUF_SIZE) 0 | _ => m end |>
      <| own := true |> <| in_flight := negb (error_bool read_error) |>) in
  if error_bool read_error then
    if running s then
      let s := s <| m_read_in_progress := false |> in
      match m_read_callback s with
      | Some n => call s (ReadCalled n None 0 [] read_error)
      | None => Fault EmptyFunction
      end
    else Ret (schedule_callback s (ReadRefused read_error))
  else Ret s.

(** The first free request. *)
Fixpoint find_free (l : list FileReadRequest) : option nat :=
  match l with
  | [] => None
  | r :: l => if is_free r then Some 0%nat else S <$> find_free l
  end.

Definition schedule_read (s : t) : outcome t :=
  if negb (is_open s) then Ret s
  else if m_removal_scheduled s then Ret s
  else if bool_decide (m_state s = CLOSING) then Ret s
  else if m_read_in_progress s then Ret s
  else
    match find_free (m_read_reqs s) with
    | None => Ret s
    | Some i => schedule_read_req (on_request s i (fun r => r <| is_free := false |>)) i
    end.

(** The deleter of the shared pointer to the buffer of request [i]. *)
Definition deleter (s : t) (i : nat) : outcome t :=
  let s := stop_block (on_request s i (fun r => r <| is_free := true |>)) in
  if m_need_reschedule_remove s then
    if has_read_buffers_in_use s then Ret s else schedule_removal fuel s
  else if m_done_read s then Ret s
  else schedule_read s.

(** A pointer to the buffer was dropped: the last one runs the deleter. *)
Definition dropped (s : t) (i : nat) : outcome t :=
  match m_read_reqs s !! i with
  | None => Fault OutOfBounds
  | Some r => if negb (own r) && bool_decide (held r = []) then deleter s i else Ret s
  end.

(** [req.buf.reset()]. *)
Definition reset (s : t) (i : nat) : outcome t := dropped (on_request s i (fun r => r <| own := false |>)) i.

(** User code lets the [k]-th chunk it holds of request [i] go. *)
Definition release (s : t) (i k : nat) : outcome t := dropped (on_request s i (fun r => r <| held ::= delete k |>)) i.

Definition read (s : t) (read_callback end_read_callback : option nat) : outcome t :=
  if negb (is_open s) then
    match read_callback with
    | None => Ret s
    | Some n =>
        let error := Error_of_status FILE_NOT_OPEN in
        if running s then call s (ReadCalled n None 0 [] error) else Ret (schedule_callback s (CallRead n error))
    end
  else
    schedule_read (s <| m_read_callback := read_callback |> <| m_end_read_callback := end_read_callback |> <| m_done_read := false |>).

(** libuv has read [result] bytes, [data], into the buffer of request [i], or failed. *)
Definition on_read (s : t) (i : nat) (result : Z) (data : list Z) : outcome t :=
  let s := on_request s i (fun r => r <| in_flight := false |> <| memory ::= fun m => data ++ drop (length data) m |>) in
  if negb (is_open s) then
    let* s := reset s i in
    call_read s (m_read_callback s) None 0 [] (Error_of_status FILE_NOT_OPEN)
  else
    let s := s <| m_read_in_progress := false |> in
    if result <? 0 then
      let* s := reset (s <| m_done_read := true |>) i in
      call_read s (m_read_callback s) None 0 [] (Error_of_uv result)
    else if result =? 0 then
      let s := s <| m_done_read := true |> in
      let* s := match m_end_read_callback s with Some n => call s (EndReadCalled n) | None => Ret s end in
      reset s i
    else
      let* s := match m_read_callback s with
                | None => Ret s
                | Some n =>
                    let* s := call s (ReadCalled n (Some i) (m_current_offset s) data (Error_of_uv 0)) in
                    Ret (s <| m_current_offset ::= fun o => wrap 64 (o + result) |>)
                end in
      let* s := schedule_read s in
      reset s i.

(** [read_block]: a buffer of its own, and the read callback of [read]. *)
Definition read_block (s : t) (offset bytes_count : Z) (read_callback : option nat) : outcome t :=
  if negb (is_open s) then call_read s read_callback None 0 [] (Error_of_status FILE_NOT_OPEN)
  else
    let s := s <| m_read_callback := read_callback |> in
    let read_error := Error_of_uv read_status in
    if error_bool read_error then
      Ret (match read_callback with Some n => schedule_callback s (CallRead n read_error) | None => s end)
    else Ret (s <| block_requests ::= fun l => l ++ [(offset, bytes_count)] |>).

Definition on_read_block (s : t) (k : nat) (result : Z) (data : list Z) : outcome t :=
  match block_requests s !! k with
  | None => Fault UseAfterFree
  | Some (offset, _) =>
      let s := s <| block_requests ::= delete k |> in
      if negb (is_open s) then call_read s (m_read_callback s) None 0 [] (Error_of_status FILE_NOT_OPEN)
      else if result <? 0 then call_read s (m_read_callback s) None 0 [] (Error_of_uv result)
      else if 0 <? result then call_read s (m_read_callback s) None offset data (Error_of_uv result)
      else Ret s
  end.

(** ** Stat *)

Definition stat (s : t) (callback : option nat) : t :=
  let refuse c := match callback with Some n => schedule_callback s (CallStat n (Error_of_status c)) | None => s end in
  if negb (is_open s) then refuse FILE_NOT_OPEN
  else
    match m_stat_req s with
    | Some _ => refuse OPERATION_ALREADY_IN_PROGRESS
    | None =>
        let n := next_request s in
        s <| m_stat_req := Some n |> <| stat_requests ::= insert n callback |> <| next_request := S n |>
    end.

Definition on_stat (s : t) (n : nat) (result : Z) : outcome t :=
  match stat_requests s !! n with
  | None => Fault UseAfterFree
  | Some callback =>
      let s := s <| stat_requests ::= delete n |> <| m_stat_req := None |> in
      match callback with Some c => call s (StatCalled c (Error_of_uv result)) | None => Ret s end
  end.

(** The loop runs the first scheduled callback. *)
Definition run_scheduled (s : t) : outcome t :=
  match scheduled s with
  | [] => Ret s
  | c :: rest =>
      let s := s <| scheduled := rest |> in
      match c with
      | CallClose callback error => call_close (schedule_removal fuel) s callback error
      | CloseRefused callback error =>
          let* s := call_close (schedule_removal fuel) s callback error in
          Ret (if bool_decide (m_state s = CLOSED) then finish_close s else s)
      | OpenAgain path callback => open s path callback
      | CallRead n error => call s (ReadCalled n None 0 [] error)
      | ReadRefused error =>
          let s := s <| m_read_in_progress := false |> in
          match m_read_callback s with
          | Some n => call s (ReadCalled n None 0 [] error)
          | None => Fault EmptyFunction
          end
      | CallStat n error => call s (StatCalled n error)
      end
  end.

End Impl.

(** ** Runs

    libuv takes every request: with one buffer, a callback and memory left [uv_fs_read] and [uv_fs_close] can
    not fail.  User code is assumed not to schedule the removal of a file twice, nor while it is opening,
    closing or about to be reopened, and not to open a file it has scheduled for removal.  What happens otherwise
    is below.  The thread pool may complete a close before a read that was asked for earlier. *)

Definition silent (e : Event) (s : t) : outcome t := Ret s.

Definition reopens (c : CloseCallback) : bool := match c with Reopen _ _ => true | _ => false end.
Definition opens_again (c : Scheduled) : bool := match c with OpenAgain _ _ => true | _ => false end.

(** Nothing is going to open the file. *)
Definition settled (s : t) : Prop :=
  m_state s <> OPENING /\ forallb (fun c => negb (opens_again c)) (scheduled s) = true /\
  forallb (fun c => negb (reopens c)) (close_requests s) = true.

Section Runs.
Context {uv : UvErrno}.

Inductive api (s : t) : t -> Prop :=
| api_open path callback s' : m_removal_scheduled s = false -> open silent 0 1 s path callback = Ret s' -> api s s'
| api_close callback s' : close silent 0 1 s (from_option UserClose NoCallback callback) = Ret s' -> api s s'
| api_read callback end_callback s' : read silent 0 s callback end_callback = Ret s' -> api s s'
| api_read_block offset count callback s' : read_block silent 0 s offset count callback = Ret s' -> api s s'
| api_stat callback : api s (stat s callback)
| api_schedule_removal s' : m_removal_scheduled s = false -> settled s -> m_state s <> CLOSING ->
    schedule_removal silent 0 1 s = Ret s' -> api s s'
| api_release i k r s' : m_read_reqs s !! i = Some r -> (k < length (held r))%nat -> release silent 0 0 1 s i k = Ret s' -> api s s'.

(** A user callback returns and has made such calls; a read callback may also keep copies of its chunk. *)
Definition keep (i n : nat) (data : list Z) (s : t) : t := on_request s i (fun r => r <| held ::= fun l => l ++ replicate n data |>).
Definition Calls (user : Event -> t -> outcome t) : Prop :=
  forall e s, returns (user e s) (fun s' => exists s1, rtc api s s1 /\
    match e with
    | ReadCalled _ (Some i) _ data _ => exists n, s' = keep i n data s1
    | _ => s' = s1
    end).

(** ** The invariant *)

Definition busy (r : FileReadRequest) : nat := if is_free r then 0 else 1.
Definition in_use (l : list FileReadRequest) : nat := sum_list_with busy l.

(** [x] is the request whose data is being delivered. *)
Record request_ok (x : option (nat * list Z)) (i : nat) (r : FileReadRequest) : Prop := {
  ok_free : is_free r = true <-> own r = false /\ held r = [];
  ok_flight : in_flight r = true -> own r = true /\ held r = [] /\ length (memory r) = Z.to_nat READ_BUF_SIZE;
  ok_own : own r = true -> in_flight r = true \/ fst <$> x = Some i;
  ok_held : Forall (fun d => take (length d) (memory r) = d) (held r);
  ok_memory : memory r = [] \/ length (memory r) = Z.to_nat READ_BUF_SIZE;
  ok_delivered d : x = Some (i, d) -> own r = true /\ in_flight r = false /\ take (length d) (memory r) = d
}.

Definition removal_pending (s : t) : nat :=
  removals s + length (List.filter (fun c => match c with RemoveFile => true | _ => false end) (close_requests s)) +
  (if m_need_reschedule_remove s && has_read_buffers_in_use s then 1 else 0).

Definition harmless (c : Scheduled) : bool :=
  match c with CallClose (UserClose _ | NoCallback) _ | OpenAgain _ _ | CallRead _ _ | CallStat _ _ => true | _ => false end.

(** The read buffers. *)
Record buffers_ok (x : option (nat * list Z)) (s : t) : Prop := {
  inv_length : length (m_read_reqs s) = READ_BUFS_NUM;
  inv_request i r : m_read_reqs s !! i = Some r -> request_ok x i r;
  inv_flight i r : m_read_reqs s !! i = Some r -> in_flight r = true -> m_read_in_progress s = true;
  inv_one i j r r' : m_read_reqs s !! i = Some r -> m_read_reqs s !! j = Some r' ->
    in_flight r = true -> in_flight r' = true -> i = j;
  inv_blocks : blocks s = Z.of_nat (in_use (m_read_reqs s));
  inv_delivering i d : x = Some (i, d) -> is_Some (m_read_reqs s !! i)
}.

(** Opening, closing and removal; [y] is the open request whose callback is running. *)
Record lifecycle_ok (y : option nat) (s : t) : Prop := {
  inv_opened : m_state s = OPENED -> is_open s = true;
  inv_state : is_open s = true -> m_state s = OPENING \/ m_state s = OPENED \/ m_state s = CLOSING;
  inv_open n b : open_requests s !! n = Some b -> y <> Some n ->
    b = true /\ m_open_request s = Some n /\ m_state s = OPENING /\ is_open s = false;
  inv_close : close_requests s = [] \/ (exists c, close_requests s = [c]) /\ m_state s = CLOSING /\ is_open s = true;
  inv_scheduled : forallb harmless (scheduled s) = true;
  inv_removal : removal_pending s = if m_removal_scheduled s then 1%nat else 0%nat;
  inv_settled : m_removal_scheduled s = true -> settled s /\ m_state s <> OPENED;
  inv_need : m_need_reschedule_remove s = true -> m_removal_scheduled s = true /\ is_open s = false;
  inv_removed : (0 < removals s)%nat -> is_open s = false /\ in_use (m_read_reqs s) = 0%nat;
  inv_callback n : y = Some n -> (m_state s <> INITIAL /\ m_state s <> CLOSED) /\ forall m b, open_requests s !! m = Some b -> m = n
}.

Definition inv (x : option (nat * list Z)) (y : option nat) (s : t) : Prop := buffers_ok x s /\ lifecycle_ok y s.

Lemma create_file_inv : inv None None create.
Proof.
  split; split; try done.
  - intros i r Hi. apply list_elem_of_lookup_2, elem_of_replicate in Hi as [-> _]. split; cbn; try done. by left.
  - intros i r Hi Hf. by apply list_elem_of_lookup_2, elem_of_replicate in Hi as [-> _].
  - intros i j r r' Hi _ Hf. by apply list_elem_of_lookup_2, elem_of_replicate in Hi as [-> _].
  - by left.
Qed.

Lemma in_use_alter l i r f : l !! i = Some r -> (in_use (alter f i l) + busy r = in_use l + busy (f r))%nat.
Proof.
  revert i. induction l as [|r' l IH]; intros i Hi; [done|]. destruct i as [|i]; cbn in Hi.
  - injection Hi as ->. cbn. lia.
  - cbn. specialize (IH i Hi). unfold in_use in IH. lia.
Qed.

Lemma in_use_spec s : has_read_buffers_in_use s = negb (Nat.eqb (in_use (m_read_reqs s)) 0).
Proof.
  unfold has_read_buffers_in_use. induction (m_read_reqs s) as [|r l IH]; [done|]. cbn. rewrite IH. unfold busy. by destruct (is_free r).
Qed.

#[local] Arguments in_use : simpl never.

Lemma find_free_some l i : find_free l = Some i -> exists r, l !! i = Some r /\ is_free r = true.
Proof.
  revert i. induction l as [|r l IH]; intros i Hi; [done|]. cbn in Hi. destruct (is_free r) eqn:Hf.
  - injection Hi as <-. by exists r.
  - destruct (find_free l) as [j|]; [|done]. injection Hi as <-. cbn. by apply IH.
Qed.

Lemma find_free_none l : find_free l = None -> forall i r, l !! i = Some r -> is_free r = false.
Proof.
  induction l as [|r l IH]; intros Hn i r' Hi; [done|]. cbn in Hn. destruct (is_free r) eqn:Hf; [done|].
  destruct (find_free l) as [j|]; [done|]. destruct i as [|i]; cbn in Hi; [by injection Hi as <-|by apply (IH eq_refl i)].
Qed.

Lemma lookup_alter_cases (l : list FileReadRequest) i r f j r' : l !! i = Some r -> alter f i l !! j = Some r' ->
  (j = i /\ r' = f r) \/ (j <> i /\ l !! j = Some r').
Proof.
  intros Hi Hj. destruct (decide (j = i)) as [->|Hne].
  - rewrite list_lookup_alter_eq, Hi in Hj. injection Hj as <-. by left.
  - rewrite list_lookup_alter_ne in Hj by done. by right.
Qed.

(** The members the invariant is about. *)
Definition buffers_view (s : t) := (m_read_reqs s, m_read_in_progress s, blocks s).
Definition lifecycle_view (s : t) :=
  (m_state s, is_open s, open_requests s, m_open_request s, close_requests s, scheduled s, removals s, m_need_reschedule_remove s,
   m_removal_scheduled s, in_use (m_read_reqs s)).

Lemma buffers_frame x s s' : buffers_view s' = buffers_view s -> buffers_ok x s -> buffers_ok x s'.
Proof. unfold buffers_view. intros [= E1 E2 E3] [H1 H2 H3 H4 H5 H6]. split; by rewrite ?E1, ?E2, ?E3. Qed.

Lemma lifecycle_frame y s s' : lifecycle_view s' = lifecycle_view s -> lifecycle_ok y s -> lifecycle_ok y s'.
Proof.
  unfold lifecycle_view. intros [= E1 E2 E3 E4 E5 E6 E7 E8 E9 E10] [H1 H2 H3 H4 H5 H6 H7 H8 H9 H10].
  split; unfold removal_pending, settled in *; rewrite ?in_use_spec in *; rewrite ?E1, ?E2, ?E3, ?E4, ?E5, ?E6, ?E7, ?E8, ?E9, ?E10; assumption.
Qed.

Lemma inv_frame x y s s' : buffers_view s' = buffers_view s -> lifecycle_view s' = lifecycle_view s -> inv x y s -> inv x y s'.
Proof. intros E1 E2 [Hb Hl]. split; [by apply (buffers_frame x s)|by apply (lifecycle_frame y s)]. Qed.

Lemma schedule_inv x y s c : harmless c = true -> (opens_again c = true -> m_removal_scheduled s = false) ->
  inv x y s -> inv x y (schedule_callback s c).
Proof.
  intros Hh Ho [Hb [H1 H2 H3 H4 H5 H6 H7 H8 H9 H10]]. split; [by apply (buffers_frame x s)|]. split; try assumption.
  - cbn. by rewrite forallb_app, H5; cbn; rewrite Hh.
  - cbn. intros Hr. destruct (H7 Hr) as [(Ha & Hb' & Hc) Hd]. split; [split_and!; [done| |done]|done].
    cbn. rewrite forallb_app, Hb'. cbn. destruct (opens_again c); [|done]. by rewrite Ho in Hr.
Qed.

(** A request other than [i] does not notice that [i] is, or is no longer, the one being delivered. *)
Definition only_at (i : nat) (x x' : option (nat * list Z)) : Prop := x' = x \/ ((x = None \/ fst <$> x = Some i) /\ (x' = None \/ fst <$> x' = Some i)).

Lemma request_other x x' i j r : only_at i x x' -> j <> i -> request_ok x j r -> request_ok x' j r.
Proof.
  intros [->|[Hx Hx']] Hne [K1 K2 K3 K4 K5 K6]; [done|]. split; try assumption.
  - intros Hown. destruct (K3 Hown) as [?|Hj]; [by left|]. destruct Hx as [->|Hx]; [done|]. congruence.
  - intros d ->. destruct Hx' as [?|[= ?]]; congruence.
Qed.

(** A request changes without being given to libuv. *)
Lemma request_change x x' s s' i r f :
  buffers_ok x s -> m_read_reqs s !! i = Some r -> request_ok x' i (f r) -> only_at i x x' -> in_flight (f r) = false ->
  m_read_reqs s' = alter f i (m_read_reqs s) -> (in_flight r = false -> m_read_in_progress s' = m_read_in_progress s) ->
  blocks s' = blocks s - Z.of_nat (busy r) + Z.of_nat (busy (f r)) -> buffers_ok x' s'.
Proof.
  intros [H1 H2 H3 H4 H6 H7] Hi Hok Hat Hfl El Ep Eb.
  split; rewrite El.
  - by rewrite length_alter.
  - intros j r' [[-> ->]|[Hne Hj]]%(lookup_alter_cases _ i r); [done| |done]. by apply (request_other x x' i); [..|apply H2].
  - intros j r' [[-> ->]|[Hne Hj]]%(lookup_alter_cases _ i r) Hf; [congruence| |done].
    destruct (in_flight r) eqn:E; [|rewrite Ep by done; by apply (H3 j r')]. destruct Hne. by apply (H4 j i r' r).
  - intros j k r1 r2 [[-> ->]|[Hne Hj]]%(lookup_alter_cases _ i r) [[-> ->]|[Hne' Hk]]%(lookup_alter_cases _ i r) Hf1 Hf2; try done; try congruence.
    by apply (H4 j k r1 r2).
  - rewrite Eb, H6. pose proof (in_use_alter _ i r f Hi). lia.
  - intros j d ->. assert (is_Some (m_read_reqs s !! j)) as [r' Hj].
    { destruct Hat as [Hx|[_ [?|[= ->]]]]; [by apply (H7 j d)|done|by exists r]. }
    destruct (decide (j = i)) as [->|Hne]; [rewrite list_lookup_alter_eq, Hi; by eexists|rewrite list_lookup_alter_ne by done; by exists r'].
Qed.

(** A read is put under way: a free request goes to libuv. *)
Lemma file_start_read_inv x y s i r :
  inv x y s -> m_read_reqs s !! i = Some r -> is_free r = true -> is_open s = true -> m_removal_scheduled s = false ->
  m_read_in_progress s = false ->
  inv x y (on_request (start_block (s <| m_read_in_progress := true |>)) i (fun r =>
    r <| is_free := false |>
      <| memory ::= fun m => match m with [] => replicate (Z.to_nat READ_BUF_SIZE) 0 | _ => m end |>
      <| own := true |> <| in_flight := true |>)).
Proof.
  intros [[H1 H2 H3 H4 H6 H7] Hl] Hi Hf Ho Hrm Hp.
  set (f := fun r : FileReadRequest => _). pose proof (in_use_alter _ i r f Hi) as Hu.
  assert (busy r = 0%nat /\ busy (f r) = 1%nat) as [E1 E2] by (unfold busy; by rewrite Hf).
  pose proof (H2 i r Hi) as [K1 K2 K3 K4 K5 K6]. destruct (proj1 K1 Hf) as [Hown Hheld].
  assert (forall j r', m_read_reqs s !! j = Some r' -> in_flight r' = false) as Hnone.
  { intros j r' Hj. destruct (in_flight r') eqn:E; [|done]. pose proof (H3 j r' Hj E). congruence. }
  split; [split|split; try apply Hl]; cbn.
  - by rewrite length_alter.
  - intros j r' [[-> ->]|[Hne Hj]]%(lookup_alter_cases _ i r); [|by apply H2|done]. split; cbn.
    + rewrite Hheld. split; [done|]. by intros [? _].
    + intros _. split_and!; [done..|]. destruct K5 as [->|<-]; [by rewrite length_replicate|]. by destruct (memory r).
    + intros _. by left.
    + by rewrite Hheld.
    + right. destruct K5 as [->|<-]; [by rewrite length_replicate|]. by destruct (memory r).
    + intros d Hd. destruct (K6 d Hd). congruence.
  - intros j r' [[-> ->]|[Hne Hj]]%(lookup_alter_cases _ i r) Hfl; [done| |done]. rewrite (Hnone j r' Hj) in Hfl. done.
  - intros j k r1 r2 [[-> ->]|[Hne Hj]]%(lookup_alter_cases _ i r) [[-> ->]|[Hne' Hk]]%(lookup_alter_cases _ i r) Hf1 Hf2; try done.
    + by rewrite (Hnone k r2 Hk) in Hf2.
    + by rewrite (Hnone j r1 Hj) in Hf1.
    + by rewrite (Hnone j r1 Hj) in Hf1.
  - rewrite H6. lia.
  - intros j d Hx. destruct (H7 j d Hx) as [r' Hj]. destruct (decide (j = i)) as [->|Hne].
    + rewrite list_lookup_alter_eq, Hi. by eexists.
    + rewrite list_lookup_alter_ne by done. by exists r'.
  - pose proof (inv_removal y s Hl) as Hr. unfold removal_pending in *. cbn.
    destruct (m_need_reschedule_remove s) eqn:E; [|exact Hr]. destruct (inv_need y s Hl E). congruence.
  - intros Hr. destruct (inv_removed y s Hl Hr). congruence.
Qed.

Lemma schedule_read_inv x y s user : inv x y s -> returns (schedule_read user 0 s) (inv x y).
Proof.
  intros Hi. unfold schedule_read. destruct (is_open s) eqn:Ho; [|done]. destruct (m_removal_scheduled s) eqn:Hr; [done|].
  case_bool_decide; [done|]. destruct (m_read_in_progress s) eqn:Hp; [done|]. cbn [negb].
  destruct (find_free (m_read_reqs s)) as [i|] eqn:Hfree; [|done]. apply find_free_some in Hfree as (r & Hlook & Hf).
  unfold schedule_read_req. rewrite error_bool_of_uv. cbn [Z.ltb negb returns].
  pose proof (file_start_read_inv x y s i r Hi Hlook Hf Ho Hr Hp) as Hinv. eapply inv_frame; [..|exact Hinv].
  - unfold buffers_view. cbn. by rewrite list_alter_alter_eq.
  - unfold lifecycle_view. cbn. by rewrite list_alter_alter_eq.
Qed.

(** A request becomes free, and nobody waits for the last one. *)
Lemma lifecycle_freed y s i f n :
  lifecycle_ok y s -> (in_use (alter f i (m_read_reqs s)) <= in_use (m_read_reqs s))%nat ->
  m_need_reschedule_remove s = false \/ (0 < in_use (alter f i (m_read_reqs s)))%nat ->
  lifecycle_ok y ((on_request s i f) <| blocks := n |>).
Proof.
  intros [H1 H2 H3 H4 H5 H6 H7 H8 H9 H10] Hle Hn. split; try assumption.
  - unfold removal_pending in *. rewrite in_use_spec in *. cbn. rewrite <- H6.
    destruct Hn as [->|Hlt]; [done|]. do 2 rewrite (proj2 (Nat.eqb_neq _ 0)) by lia. done.
  - cbn. intros Hr. destruct (H9 Hr). split; [done|lia].
Qed.

(** The file is not open: its removal begins, or waits for the buffers in use. *)
Lemma schedule_removal_closed user fuel s : is_open s = false ->
  schedule_removal user 0 (S fuel) s =
    Ret (if has_read_buffers_in_use s then s <| m_removal_scheduled := true |> <| m_need_reschedule_remove := true |>
         else s <| m_removal_scheduled := true |> <| removals ::= S |>).
Proof.
  intros Ho. cbn [schedule_removal]. cbn zeta.
  assert (is_open (s <| m_removal_scheduled := true |>) = false) as -> by exact Ho.
  assert (has_read_buffers_in_use (s <| m_removal_scheduled := true |>) = has_read_buffers_in_use s) as -> by done.
  by destruct (has_read_buffers_in_use s).
Qed.

Lemma deleter_inv x y s i r user :
  m_read_reqs s !! i = Some r -> is_free r = false ->
  buffers_ok x (stop_block (on_request s i (fun r => r <| is_free := true |>))) -> lifecycle_ok y s ->
  returns (deleter user 0 0 1 s i) (inv x y).
Proof.
  intros Hi Hf Hb Hl. set (f := fun r : FileReadRequest => r <| is_free := true |>) in *.
  pose proof (in_use_alter _ i r f Hi) as Hu.
  assert (busy r = 1%nat /\ busy (f r) = 0%nat) as [E1 E2] by (unfold busy; by rewrite Hf).
  unfold deleter. fold f. cbn zeta. set (s1 := stop_block (on_request s i f)) in *.
  change (m_need_reschedule_remove s1) with (m_need_reschedule_remove s). change (m_done_read s1) with (m_done_read s).
  assert (m_need_reschedule_remove s = false \/ (0 < in_use (alter f i (m_read_reqs s)))%nat -> inv x y s1) as Hs1.
  { intros Hn. split; [done|]. apply (lifecycle_freed y s i f _); [done|lia|done]. }
  destruct (m_need_reschedule_remove s) eqn:En.
  - destruct (inv_need y s Hl En) as [Hrs Ho]. assert (has_read_buffers_in_use s1 = negb (Nat.eqb (in_use (alter f i (m_read_reqs s))) 0)) as Hin by apply in_use_spec.
    destruct (Nat.eqb_spec (in_use (alter f i (m_read_reqs s))) 0) as [Hz|Hz]; cbn [negb] in Hin; rewrite Hin; [|apply Hs1; right; lia].
    rewrite schedule_removal_closed by exact Ho. rewrite Hin. cbn [returns]. split; [by apply (buffers_frame x s1)|].
    pose proof (inv_removal y s Hl) as Hp. unfold removal_pending in Hp. rewrite Hrs, En, in_use_spec in Hp.
    rewrite (proj2 (Nat.eqb_neq _ 0)) in Hp by lia. cbn in Hp. destruct Hl as [H1 H2 H3 H4 H5 H6 H7 H8 H9 H10]. split; try assumption.
    + unfold removal_pending. rewrite in_use_spec. cbn. rewrite En, Hz. cbn. lia.
    + intros _. by apply H7.
    + cbn. intros _. by split.
    + cbn. intros _. by split.
  - destruct (m_done_read s); [apply Hs1; by left|]. apply schedule_read_inv, Hs1. by left.
Qed.

(** The last pointer to a buffer goes, or another one. *)
Lemma dropped_inv x x' y s i r f user :
  inv x y s -> m_read_reqs s !! i = Some r -> in_flight r = false -> is_free r = false -> only_at i x x' ->
  is_free (f r) = false -> in_flight (f r) = false ->
  request_ok x' i (if negb (own (f r)) && bool_decide (held (f r) = []) then (f r) <| is_free := true |> else f r) ->
  returns (dropped user 0 0 1 (on_request s i f) i) (inv x' y).
Proof.
  intros [Hb Hl] Hi Hnf Hfree Hat Hf Hfl Hok. unfold dropped.
  assert (m_read_reqs (on_request s i f) !! i = Some (f r)) as -> by (cbn; by rewrite list_lookup_alter_eq, Hi).
  assert (busy r = 1%nat /\ busy (f r) = 1%nat) as [E1 E2] by (unfold busy; by rewrite Hfree, Hf).
  assert (lifecycle_ok y (on_request s i f)) as Hl'.
  { apply (lifecycle_frame y s); [|done]. pose proof (in_use_alter _ i r f Hi) as Hu.
    assert (in_use (alter f i (m_read_reqs s)) = in_use (m_read_reqs s)) as E by lia. unfold lifecycle_view. cbn. by rewrite E. }
  destruct (negb (own (f r)) && bool_decide (held (f r) = [])) eqn:E; rewrite ?E in Hok.
  - apply (deleter_inv x' y _ i (f r)); [cbn; by rewrite list_lookup_alter_eq, Hi|done| |done].
    apply (request_change x x' s _ i r (fun r => (f r) <| is_free := true |>)); try done.
    + cbn. by rewrite list_alter_alter_eq.
    + cbn. rewrite E1. cbn. lia.
  - split; [|done]. apply (request_change x x' s _ i r f); try done. rewrite E1, E2. cbn. lia.
Qed.

Lemma reset_inv y s i d user : inv (Some (i, d)) y s -> returns (reset user 0 0 1 s i) (inv None y).
Proof.
  intros Hinv. destruct (inv_delivering _ s (proj1 Hinv) i d eq_refl) as [r Hi].
  pose proof (inv_request _ s (proj1 Hinv) i r Hi) as [K1 K2 K3 K4 K5 K6]. destruct (K6 d eq_refl) as (Hown & Hfl & Hd).
  assert (is_free r = false) as Hf by (destruct (is_free r); [destruct (proj1 K1 eq_refl); congruence|done]).
  apply (dropped_inv (Some (i, d)) None y s i r); try done; [by right; split; [right|left]|]. cbn.
  case_bool_decide as Hh; cbn; (split; cbn; try done); try (by rewrite Hfl).
  rewrite Hf. split; [done|]. by intros [_ ?].
Qed.

Lemma release_inv x y s i k r user : inv x y s -> m_read_reqs s !! i = Some r -> (k < length (held r))%nat ->
  returns (release user 0 0 1 s i k) (inv x y).
Proof.
  intros Hinv Hi Hk. pose proof (inv_request _ s (proj1 Hinv) i r Hi) as [K1 K2 K3 K4 K5 K6].
  assert (held r <> []) as Hne by (intros E; rewrite E in Hk; cbn in Hk; lia).
  assert (is_free r = false) as Hf by (destruct (is_free r); [by destruct (proj1 K1 eq_refl)|done]).
  assert (in_flight r = false) as Hfl by (destruct (in_flight r); [by destruct (K2 eq_refl) as (_ & ? & _)|done]).
  assert (Forall (fun d => take (length d) (memory r) = d) (delete k (held r))) as Hall by by apply Forall_delete.
  apply (dropped_inv x x y s i r); try done; [by left|]. cbn.
  destruct (own r) eqn:Hown; case_bool_decide as Hh; cbn; (split; cbn; try done); rewrite ?Hf, ?Hfl, ?Hown; try done.
  all: try (split; [done|]; by intros [? ?]).
  all: intros d Hd; by destruct (K6 d Hd) as (? & ? & ?).
Qed.

Lemma emit_file_inv x y s e : inv x y s -> inv x y (emit s e).
Proof. by apply inv_frame. Qed.

Lemma keep_inv y s i n d : inv (Some (i, d)) y s -> inv (Some (i, d)) y (keep i n d s).
Proof.
  intros [Hb Hl]. destruct (inv_delivering _ s Hb i d eq_refl) as [r Hi].
  pose proof (inv_request _ s Hb i r Hi) as [K1 K2 K3 K4 K5 K6]. destruct (K6 d eq_refl) as (Hown & Hfl & Hd).
  assert (is_free r = false) as Hf by (destruct (is_free r); [destruct (proj1 K1 eq_refl); congruence|done]).
  set (f := fun r : FileReadRequest => r <| held ::= fun l => l ++ replicate n d |>).
  assert (busy (f r) = busy r) as Hbusy by done. pose proof (in_use_alter _ i r f Hi) as Hu. split.
  - apply (request_change (Some (i, d)) _ s _ i r f); try done; [|by left|rewrite Hbusy; cbn; lia].
    split; cbn; try done; [split; [congruence|intros [? _]; congruence]|by rewrite Hfl|]. apply Forall_app. split; [done|]. by apply Forall_replicate.
  - apply (lifecycle_frame y s); [|done].
    assert (in_use (m_read_reqs (keep i n d s)) = in_use (m_read_reqs s)) as E by (change (m_read_reqs (keep i n d s)) with (alter f i (m_read_reqs s)); lia).
    unfold lifecycle_view. by rewrite E.
Qed.

Lemma open_not_removed x y s : inv x y s -> is_open s = true -> m_state s <> CLOSING -> m_removal_scheduled s = false.
Proof.
  intros [_ Hl] Ho Hs. destruct (m_removal_scheduled s) eqn:E; [|done]. destruct (inv_settled y s Hl E) as [[Hop _] Hod].
  destruct (inv_state y s Hl Ho) as [?|[?|?]]; congruence.
Qed.

(** A close request goes to libuv. *)
Lemma begin_close_inv x y s callback :
  inv x y s -> is_open s = true -> m_state s <> CLOSING -> (callback = RemoveFile -> settled s) ->
  inv x y (s <| m_removal_scheduled := bool_decide (callback = RemoveFile) |> <| m_state := CLOSING |>
             <| close_requests ::= fun l => l ++ [callback] |>).
Proof.
  intros Hinv Ho Hs Hset. pose proof (open_not_removed x y s Hinv Ho Hs) as Hrs.
  destruct Hinv as [Hb [H1 H2 H3 H4 H5 H6 H7 H8 H9 H10]]. split; [by apply (buffers_frame x s)|].
  assert (close_requests s = []) as Hcr by (destruct H4 as [?|(_ & ? & _)]; [done|congruence]).
  assert (m_need_reschedule_remove s = false) as Hn by (destruct (m_need_reschedule_remove s); [destruct (H8 eq_refl); congruence|done]).
  unfold removal_pending in H6. rewrite Hrs, Hcr, Hn in H6. cbn in H6.
  assert (removals s = 0%nat) as Hz by lia. split; try assumption.
  - done.
  - intros _. right. by right.
  - intros n b Hnb Hy. by destruct (H3 n b Hnb Hy) as (_ & _ & _ & ?); congruence.
  - right. split; [|by split]. exists callback. cbn. by rewrite Hcr.
  - unfold removal_pending. cbn. rewrite Hcr, Hn, Hz. by destruct callback.
  - cbn. intros Hc. apply bool_decide_eq_true in Hc. destruct (Hset Hc) as (Ha & Hb' & Hc'). split; [|done].
    split_and!; [done|done|]. cbn. rewrite forallb_app, Hc'. subst. done.
  - cbn. rewrite Hn. done.
  - intros n Hy. split; [done|]. by apply (H10 n Hy).
Qed.

(** A callback of user code keeps the invariant. *)
Definition preserves (user : Event -> t -> outcome t) (x : option (nat * list Z)) (y : option nat) : Prop :=
  forall e s, match e with ReadCalled _ (Some i) _ d _ => x = Some (i, d) | _ => True end -> inv x y s -> returns (user e s) (inv x y).

Lemma silent_preserves x y : preserves silent x y.
Proof. by intros e s _ Hi. Qed.

Lemma file_call_inv user x y s e : preserves user x y -> match e with ReadCalled _ (Some i) _ d _ => x = Some (i, d) | _ => True end ->
  inv x y s -> returns (call user s e) (inv x y).
Proof. intros Hu He Hi. by apply Hu, emit_file_inv. Qed.

(** [close] of user code, or of [open]. *)
Lemma close_inv user x y s callback : preserves user x y -> inv x y s -> callback <> RemoveFile -> (reopens callback = true -> m_state s = OPENED) ->
  returns (close user 0 1 s callback) (inv x y).
Proof.
  intros Hu Hi Hc Hre. unfold close, close_impl. destruct (is_open s) eqn:Ho; cbn [negb].
  - case_bool_decide as Hs.
    + destruct callback; try done; [by apply file_call_inv|]. cbn in Hre. specialize (Hre eq_refl). congruence.
    + rewrite error_bool_of_uv. cbn [Z.ltb returns].
      pose proof (begin_close_inv x y s callback Hi Ho Hs ltac:(done)) as Hb. rewrite bool_decide_false in Hb by done.
      revert Hb. apply inv_frame; [done|]. unfold lifecycle_view. cbn. by rewrite (open_not_removed x y s).
  - assert (reopens callback = false) as Hr.
    { destruct (reopens callback); [|done]. rewrite (inv_opened y s (proj2 Hi)) in Ho; [done|]. by apply Hre. }
    destruct callback; try done. by apply schedule_inv.
Qed.

Lemma open_inv user x y s path callback : preserves user x y -> inv x y s -> m_removal_scheduled s = false -> returns (open user 0 1 s path callback) (inv x y).
Proof.
  intros Hu Hi Hrs. unfold open. destruct (m_state s) eqn:Es; try (by apply schedule_inv); [|by apply close_inv|].
  all: destruct Hi as [Hb [H1 H2 H3 H4 H5 H6 H7 H8 H9 H10]]; split; [by apply (buffers_frame x s)|]; split; try assumption; cbn.
  all: assert (is_open s = false) as Ho by (destruct (is_open s); [destruct (H2 eq_refl) as [?|[?|?]]; congruence|done]).
  all: try (by intros; left).
  all: try (intros n b Hn Hy; destruct (decide (n = next_request s)) as [->|Hne];
            [rewrite lookup_insert_eq in Hn; injection Hn as <-; by split_and!
            |rewrite lookup_insert_ne in Hn by done; destruct (H3 n b Hn Hy) as (_ & _ & ? & _); congruence]).
  all: try (destruct H4 as [H4|(_ & ? & _)]; [by left|congruence]).
  all: try (intros ?; congruence).
  all: intros n Hy; destruct (H10 n Hy) as [[? ?] _]; congruence.
Qed.

Lemma schedule_removal_inv x y s : inv x y s -> m_removal_scheduled s = false -> settled s -> m_state s <> CLOSING ->
  returns (schedule_removal silent 0 1 s) (inv x y).
Proof.
  intros Hi Hrs Hset Hs. destruct (is_open s) eqn:Ho.
  - cbn [schedule_removal]. cbn zeta. assert (is_open (s <| m_removal_scheduled := true |>) = true) as -> by exact Ho.
    unfold close_impl. assert (is_open (s <| m_removal_scheduled := true |>) = true) as -> by exact Ho. cbn [negb].
    rewrite bool_decide_false by exact Hs. rewrite error_bool_of_uv. cbn [Z.ltb returns].
    exact (begin_close_inv x y s RemoveFile Hi Ho Hs (fun _ => Hset)).
  - rewrite schedule_removal_closed by done. rewrite in_use_spec. cbn [returns]. destruct Hi as [Hb [H1 H2 H3 H4 H5 H6 H7 H8 H9 H10]].
    assert (m_state s <> OPENED) as Hno by (intros E; rewrite H1 in Ho by done; done).
    assert (m_need_reschedule_remove s = false) as Hn by (destruct (m_need_reschedule_remove s); [destruct (H8 eq_refl); congruence|done]).
    unfold removal_pending in H6. rewrite Hrs, Hn in H6. cbn in H6.
    destruct (Nat.eqb_spec (in_use (m_read_reqs s)) 0) as [Hz|Hz]; cbn [negb]; (split; [by apply (buffers_frame x s)|]); split; try assumption; try done.
    + unfold removal_pending. cbn. rewrite Hn. cbn. lia.
    + unfold removal_pending. rewrite in_use_spec. cbn. rewrite (proj2 (Nat.eqb_neq _ 0)) by done. cbn. lia.
Qed.

Lemma api_inv x y s s' : api s s' -> inv x y s -> inv x y s'.
Proof.
  intros Ha Hi. destruct Ha as [path cb s' Hr H|cb s' H|cb ecb s' H|off n cb s' H|cb|s' Hr Hset Hs H|i k r s' Hl Hk H].
  - pose proof (open_inv silent x y s path cb (silent_preserves x y) Hi Hr) as Hret. by rewrite H in Hret.
  - pose proof (close_inv silent x y s (from_option UserClose NoCallback cb) (silent_preserves x y) Hi) as Hret. rewrite H in Hret. apply Hret; by destruct cb.
  - unfold read in H. destruct (is_open s) eqn:Ho; cbn [negb] in H.
    + set (s1 := set_field m_done_read _ _) in H. assert (inv x y s1) as Hi1 by by apply (inv_frame x y s).
      pose proof (schedule_read_inv x y s1 silent Hi1) as Hret. by rewrite H in Hret.
    + destruct cb; [|by injection H as <-]. destruct (running s); injection H as <-; [by apply emit_file_inv|by apply schedule_inv].
  - unfold read_block in H. destruct (is_open s) eqn:Ho; cbn [negb] in H.
    + rewrite error_bool_of_uv in H. injection H as <-. by apply (inv_frame x y s).
    + destruct cb; injection H as <-; [by apply emit_file_inv|done].
  - unfold stat. destruct (is_open s); cbn [negb]; [destruct (m_stat_req s)|].
    + destruct cb; [by apply schedule_inv|done].
    + by apply (inv_frame x y s).
    + destruct cb; [by apply schedule_inv|done].
  - pose proof (schedule_removal_inv x y s Hi Hr Hset Hs) as Hret. by rewrite H in Hret.
  - pose proof (release_inv x y s i k r silent Hi Hl Hk) as Hret. by rewrite H in Hret.
Qed.

Lemma rtc_api_inv x y s s' : rtc api s s' -> inv x y s -> inv x y s'.
Proof. induction 1; [done|]. intros Hi. by eapply IHrtc, api_inv. Qed.

Lemma calls_preserve user x y : Calls user -> preserves user x y.
Proof.
  intros Hc e s He Hi. eapply returns_mono; [apply (Hc e s)|]. intros s' (s1 & Hrtc & Hs').
  assert (inv x y s1) as Hi1 by by apply (rtc_api_inv x y s).
  destruct e as [| |n [i|] o d e'| |]; try by subst. destruct Hs' as [k ->]. rewrite He in *. by apply keep_inv.
Qed.

(** While a file is opening, and not open yet, user code can not change that. *)
Definition opening (s : t) : Prop := m_state s = OPENING /\ is_open s = false.

Lemma dropped_opening x y s s' i f : inv x y s -> opening s -> dropped silent 0 0 1 (on_request s i f) i = Ret s' -> opening s'.
Proof.
  intros [_ Hl] [Hs Ho]. unfold dropped. destruct (m_read_reqs _ !! i) as [r|]; [|done]. destruct (negb (own r) && _); [|by intros [= <-]].
  unfold deleter. cbn zeta. set (s1 := stop_block _). change (m_need_reschedule_remove s1) with (m_need_reschedule_remove s).
  destruct (m_need_reschedule_remove s) eqn:En.
  - destruct (inv_need y s Hl En) as [Hr _]. by destruct (inv_settled y s Hl Hr) as [[? _] _].
  - destruct (m_done_read s1); [by intros [= <-]|]. unfold schedule_read. assert (is_open s1 = false) as -> by exact Ho. by intros [= <-].
Qed.

Lemma api_opening x y s s' : api s s' -> inv x y s -> opening s -> opening s'.
Proof.
  intros Ha Hi Hop. pose proof Hop as [Hs Ho]. destruct Ha as [path cb s' Hr H|cb s' H|cb ecb s' H|off n cb s' H|cb|s' Hr Hset Hs' H|i k r s' Hl Hk H].
  - unfold open in H. rewrite Hs in H. by injection H as <-.
  - unfold close, close_impl in H. rewrite Ho in H. cbn [negb] in H. injection H as <-. by destruct cb.
  - unfold read in H. rewrite Ho in H. cbn [negb] in H. destruct cb; [|by injection H as <-]. destruct (running s); by injection H as <-.
  - unfold read_block in H. rewrite Ho in H. cbn [negb] in H. destruct cb; by injection H as <-.
  - unfold stat. rewrite Ho. cbn [negb]. by destruct cb.
  - by destruct Hset as [? _].
  - by apply (dropped_opening x y s s' i _ Hi Hop H).
Qed.

Lemma rtc_api_opening x y s s' : rtc api s s' -> inv x y s -> opening s -> opening s'.
Proof. induction 1 as [|s s1 s2 Ha H IH]; [done|]. intros Hi Ho. apply IH; [by apply (api_inv x y s)|by apply (api_opening x y s)]. Qed.

(** ** The callbacks of libuv *)

Lemma end_open_inv s n : inv None (Some n) s -> inv None None (end_open s n).
Proof.
  intros [Hb [H1 H2 H3 H4 H5 H6 H7 H8 H9 H10]]. destruct (H10 n eq_refl) as [_ Hn].
  unfold end_open. destruct (default false (open_requests s !! n)); (split; [by apply (buffers_frame None s)|]); split; try assumption; cbn; try done.
  all: intros m b Hm _; apply lookup_delete_Some in Hm as [Hne Hm]; by destruct Hne; rewrite (Hn m b Hm).
Qed.

(** The open callback of a failed open, and what follows it. *)
Lemma call_open_opening user s n callback error : Calls user -> inv None (Some n) s -> opening s ->
  returns (call_open user s callback error) (fun s' => inv None (Some n) s' /\ opening s').
Proof.
  intros Hu Hi Ho. destruct callback as [c|]; [|done]. pose proof (emit_file_inv _ _ s (OpenCalled c error) Hi) as Hi1.
  eapply returns_mono; [apply (Hu (OpenCalled c error))|]. intros s' (s1 & Hrtc & ->).
  split; [by apply (rtc_api_inv _ _ (emit s (OpenCalled c error)))|by apply (rtc_api_opening _ _ (emit s (OpenCalled c error)) s1 Hrtc Hi1)].
Qed.

Lemma closed_inv s : inv None None s -> is_open s = false -> m_removal_scheduled s = false -> close_requests s = [] ->
  (forall n, open_requests s !! n = None) -> inv None None (s <| m_path := [] |> <| m_state := CLOSED |>).
Proof.
  intros [Hb [H1 H2 H3 H4 H5 H6 H7 H8 H9 H10]] Ho Hr Hc Hn. split; [by apply (buffers_frame None s)|]. split; try assumption; try done.
  - intros E. change (is_open s = true) in E. congruence.
  - intros m b Hm. change (open_requests s !! m = Some b) in Hm. by rewrite (Hn m) in Hm.
  - by left.
  - intros E. change (m_removal_scheduled s = true) in E. congruence.
Qed.

Lemma end_open_members s n : inv None (Some n) s -> opening s ->
  is_open (end_open s n) = false /\ m_removal_scheduled (end_open s n) = false /\ close_requests (end_open s n) = [] /\
  forall m, open_requests (end_open s n) !! m = None.
Proof.
  intros [_ Hl] [Hs Ho]. destruct (inv_callback _ s Hl n eq_refl) as [_ Hn].
  assert (m_removal_scheduled s = false) as Hr.
  { destruct (m_removal_scheduled s) eqn:E; [|done]. by destruct (inv_settled _ s Hl E) as [[? _] _]. }
  assert (close_requests s = []) as Hc by (destruct (inv_close _ s Hl) as [?|(_ & ? & _)]; [done|congruence]).
  assert (forall m, delete n (open_requests s) !! m = None) as Hd.
  { intros m. destruct (decide (m = n)) as [->|Hne]; [by rewrite lookup_delete_eq|]. rewrite lookup_delete_ne by done.
    destruct (open_requests s !! m) as [b|] eqn:E; [|done]. by destruct (Hne (Hn m b E)). }
  unfold end_open. by destruct (default false (open_requests s !! n)).
Qed.

Lemma failed_open_inv s n : inv None (Some n) s -> opening s -> inv None None (end_open (s <| m_path := [] |> <| m_state := CLOSED |>) n).
Proof.
  intros Hi Ho. destruct (end_open_members s n Hi Ho) as (E1 & E2 & E3 & E4).
  assert (end_open (s <| m_path := [] |> <| m_state := CLOSED |>) n = (end_open s n) <| m_path := [] |> <| m_state := CLOSED |>) as ->.
  { unfold end_open. change (open_requests (s <| m_path := [] |> <| m_state := CLOSED |>)) with (open_requests s). by destruct (default false (open_requests s !! n)). }
  apply closed_inv; [by apply end_open_inv|done..].
Qed.

Lemma on_open_inv user s n result : Calls user -> inv None None s -> is_Some (open_requests s !! n) ->
  returns (on_open user s n result) (inv None None).
Proof.
  intros Hu Hi [b Hn]. unfold on_open. rewrite Hn. pose proof (calls_preserve user None (Some n) Hu) as Hp.
  destruct (inv_open None s (proj2 Hi) n b Hn ltac:(done)) as (-> & Hreq & Hs & Ho).
  assert (inv None (Some n) s) as Hi'.
  { destruct Hi as [Hb [H1 H2 H3 H4 H5 H6 H7 H8 H9 H10]]. split; [done|]. split; try assumption.
    - intros m b Hm Hne. by apply H3.
    - intros m [= <-]. split; [by rewrite Hs|]. intros k b Hk. destruct (H3 k b Hk ltac:(done)) as (_ & ? & _). congruence. }
  rewrite error_bool_of_uv. destruct (Z.ltb_spec (if 0 <? result then 0 else result) 0) as [Hneg|Hpos].
  - eapply returns_bind; [by apply (call_open_opening user s n)|]. intros s' [Hi1 Hop]. by apply failed_open_inv.
  - assert (is_open (s <| m_file_handle := result |>) = true) as Ho1.
    { unfold is_open. cbn. rewrite (proj2 (Z.eqb_neq _ _)); [done|]. destruct (Z.ltb_spec 0 result); lia. }
    assert (forall st, st = OPENING \/ st = OPENED -> inv None (Some n) (s <| m_file_handle := result |> <| m_state := st |>)) as Hi2.
    { intros st Hst. assert (m_removal_scheduled s = false) as Hr.
      { destruct (m_removal_scheduled s) eqn:E; [|done]. by destruct (inv_settled _ s (proj2 Hi) E) as [[? _] _]. }
      destruct Hi' as [Hb [H1 H2 H3 H4 H5 H6 H7 H8 H9 H10]]. split; [by apply (buffers_frame None s)|].
      - split; try assumption; cbn.
        + intros _. exact Ho1.
        + intros _. tauto.
        + intros m b Hm Hne. destruct Hne. f_equal. symmetry. by apply (proj2 (H10 n eq_refl) m b).
        + destruct H4 as [?|(_ & _ & ?)]; [by left|congruence].
        + rewrite Hr. done.
        + intros E. destruct (H8 E). congruence.
        + intros E. pose proof H6 as Hp6. unfold removal_pending in Hp6. rewrite Hr in Hp6. lia.
        + intros m Hm. split; [destruct Hst as [->| ->]; done|by apply (H10 m Hm)]. }
    destruct (m_open_callback _) as [c|] eqn:Ec.
    + eapply returns_bind; [|intros s' Hs'; by apply end_open_inv]. change (m_open_callback (s <| m_file_handle := result |>)) with (m_open_callback s) in Ec.
      rewrite ?Ec. cbn [call_open]. apply file_call_inv; [done|done|]. apply Hi2. by right.
    + cbn [obind returns]. apply end_open_inv. specialize (Hi2 OPENING (or_introl eq_refl)). revert Hi2. apply inv_frame; [done|].
      unfold lifecycle_view. cbn. by rewrite Hs.
Qed.

(** The close request was answered. *)
Definition after_close (s : t) : t := s <| close_requests := [] |> <| m_file_handle := -1 |> <| m_state := CLOSED |>.

Lemma after_close_buffers s : buffers_ok None s -> buffers_ok None (after_close s).
Proof. by apply buffers_frame. Qed.

Lemma after_close_inv s c : inv None None s -> close_requests s = [c] -> c <> RemoveFile -> inv None None (after_close s).
Proof.
  intros [Hb Hl] Hc Hne. split; [by apply after_close_buffers|]. pose proof (inv_close _ s Hl) as Hcl. rewrite Hc in Hcl.
  destruct Hcl as [?|(_ & Hs & Ho)]; [done|]. destruct Hl as [H1 H2 H3 H4 H5 H6 H7 H8 H9 H10]. split; try assumption; try done.
  - intros m b Hm _. change (open_requests s !! m = Some b) in Hm. destruct (H3 m b Hm ltac:(done)) as (_ & _ & ? & _). congruence.
  - by left.
  - unfold removal_pending in *. cbn. rewrite Hc in H6. destruct c; done.
  - intros E. change (m_removal_scheduled s = true) in E. destruct (H7 E) as [(? & ? & ?) ?]. by split.
  - intros E. change (m_need_reschedule_remove s = true) in E. destruct (H8 E). congruence.
  - intros E. change (0 < removals s)%nat in E. destruct (H9 E). congruence.
Qed.

(** The removal that waited for the file to be closed. *)
Lemma after_close_removal_inv user s : inv None None s -> close_requests s = [RemoveFile] ->
  returns (call_close user (schedule_removal user 0 1) (after_close s) RemoveFile (Error_of_uv 0)) (fun s' => inv None None s' /\ m_state s' = CLOSED).
Proof.
  intros [Hb Hl] Hc. pose proof (after_close_buffers s Hb) as Hb'. pose proof (inv_close _ s Hl) as Hcl. rewrite Hc in Hcl.
  destruct Hcl as [?|(_ & Hs & Ho)]; [done|]. destruct Hl as [H1 H2 H3 H4 H5 H6 H7 H8 H9 H10].
  assert (m_need_reschedule_remove s = false) as Hneed by (destruct (m_need_reschedule_remove s); [destruct (H8 eq_refl); congruence|done]).
  unfold removal_pending in H6. rewrite Hc, Hneed in H6. cbn in H6.
  assert (removals s = 0%nat /\ m_removal_scheduled s = true) as [Hz Hr] by (destruct (m_removal_scheduled s); lia || (split; [lia|done])).
  assert (forall m b, open_requests s !! m = Some b -> False) as Hno by (intros m b Hm; by destruct (H3 m b Hm ltac:(done)) as (_ & _ & ? & _); congruence).
  destruct (H7 Hr) as [(Ha & Hsch & Hcr) _].
  unfold call_close. rewrite in_use_spec. change (m_read_reqs (after_close s)) with (m_read_reqs s).
  destruct (Nat.eqb_spec (in_use (m_read_reqs s)) 0) as [Hzero|Hzero]; cbn [negb].
  - rewrite schedule_removal_closed by done. rewrite in_use_spec. change (m_read_reqs (after_close s)) with (m_read_reqs s).
    rewrite (proj2 (Nat.eqb_eq _ _) Hzero). cbn [negb returns]. split; [|done]. split; [by apply (buffers_frame None (after_close s))|].
    split; try assumption; try done; try (by left).
    + intros m b Hm. by destruct (Hno m b).
    + unfold removal_pending. cbn. rewrite Hneed, Hz. done.
  - split; [|done]. split; [by apply (buffers_frame None (after_close s))|]. split; try assumption; try done; try (by left).
    + intros m b Hm. by destruct (Hno m b).
    + unfold removal_pending. rewrite in_use_spec. cbn. rewrite (proj2 (Nat.eqb_neq _ _) Hzero), Hz, Hr. done.
    + cbn. rewrite Hz. lia.
Qed.

Lemma finish_close_inv s : inv None None s -> m_state s = CLOSED -> inv None None (finish_close s).
Proof.
  intros [Hb [H1 H2 H3 H4 H5 H6 H7 H8 H9 H10]] Hs. unfold finish_close.
  assert (forall m b, open_requests s !! m = Some b -> False) as Hno by (intros m b Hm; by destruct (H3 m b Hm ltac:(done)) as (_ & _ & ? & _); congruence).
  destruct (m_open_request s) as [n|]; (split; [by apply (buffers_frame None s)|]); split; try assumption; try done; intros m b Hm _.
  - change (alter (fun _ => false) n (open_requests s) !! m = Some b) in Hm.
    apply lookup_alter_Some in Hm as [(_ & b' & Hm & _)|[_ Hm]]; [by destruct (Hno m b')|by destruct (Hno m b)].
  - by destruct (Hno m b).
Qed.

Lemma file_on_close_inv user s result : Calls user -> inv None None s -> returns (on_close user 0 1 s result) (inv None None).
Proof.
  intros Hu Hi. unfold on_close. destruct (close_requests s) as [|c rest] eqn:Hc; [done|].
  assert (rest = []) as -> by (destruct (inv_close _ s (proj2 Hi)) as [?|((c' & ?) & _)]; congruence).
  fold (after_close s).
  assert (forall s', inv None None s' -> returns (Ret (if bool_decide (m_state s' = CLOSED) then finish_close s' else s')) (inv None None)) as Hfin.
  { intros s' Hs'. case_bool_decide; [by apply finish_close_inv|done]. }
  destruct (decide (c = RemoveFile)) as [->|Hne].
  - eapply returns_bind; [exact (after_close_removal_inv user s Hi Hc)|]. intros s' [Hs' _]. by apply Hfin.
  - pose proof (after_close_inv s c Hi Hc Hne) as Hi1. eapply returns_bind; [|exact Hfin].
    pose proof (calls_preserve user None None Hu) as Hp. destruct c as [|k|path cb|]; [done|by apply file_call_inv| |done].
    cbn [call_close]. destruct (error_bool (Error_of_uv result)).
    + destruct cb; [by apply file_call_inv|done].
    + apply schedule_inv; [done| |done]. intros _. change (m_removal_scheduled s = false).
      destruct (m_removal_scheduled s) eqn:E; [|done]. destruct (inv_settled _ s (proj2 Hi) E) as [(_ & _ & Hr) _]. by rewrite Hc in Hr.
Qed.

(** libuv's bytes are in the buffer of the request, which is about to be delivered; [p] is [m_read_in_progress], which stays set
    if the file was closed in between. *)
Definition arrived_at (p : bool) (s : t) (i : nat) (data : list Z) : t :=
  (on_request s i (fun r => r <| in_flight := false |> <| memory ::= fun m => data ++ drop (length data) m |>)) <| m_read_in_progress := p |>.
Definition arrived : t -> nat -> list Z -> t := arrived_at false.

Lemma arrived_at_inv p s i r data : inv None None s -> m_read_reqs s !! i = Some r -> in_flight r = true ->
  Z.of_nat (length data) <= READ_BUF_SIZE -> inv (Some (i, data)) None (arrived_at p s i data).
Proof.
  intros [Hb Hl] Hi Hf Hlen. set (f := fun r : FileReadRequest => r <| in_flight := false |> <| memory ::= fun m => data ++ drop (length data) m |>).
  pose proof (inv_request _ s Hb i r Hi) as [K1 K2 K3 K4 K5 K6]. destruct (K2 Hf) as (Hown & Hheld & Hm).
  pose proof (in_use_alter _ i r f Hi) as Hu. assert (busy (f r) = busy r) as Hbusy by done. split.
  - apply (request_change None (Some (i, data)) s _ i r f); try done.
    + split; cbn; rewrite ?Hown, ?Hheld; try done.
      * split; [intros E; destruct (proj1 K1 E); congruence|by intros [? _]].
      * intros _. by right.
      * right. rewrite length_app, length_drop. lia.
      * intros d [= <-]. split_and!; [done|done|]. by rewrite take_app_length.
    + right. split; [by left|by right].
    + by rewrite Hf.
    + rewrite Hbusy. cbn. lia.
  - apply (lifecycle_frame None s); [|done].
    assert (in_use (m_read_reqs (arrived_at p s i data)) = in_use (m_read_reqs s)) as E by (change (m_read_reqs (arrived_at p s i data)) with (alter f i (m_read_reqs s)); lia).
    unfold lifecycle_view. by rewrite E.
Qed.

Lemma arrived_inv s i r data : inv None None s -> m_read_reqs s !! i = Some r -> in_flight r = true ->
  Z.of_nat (length data) <= READ_BUF_SIZE -> inv (Some (i, data)) None (arrived s i data).
Proof. apply arrived_at_inv. Qed.

Lemma on_read_inv user s i r result data : Calls user -> inv None None s -> m_read_reqs s !! i = Some r -> in_flight r = true ->
  Z.of_nat (length data) <= READ_BUF_SIZE -> returns (on_read user 0 0 1 s i result data) (inv None None).
Proof.
  intros Hu Hi Hlook Hf Hlen. pose proof (arrived_inv s i r data Hi Hlook Hf Hlen) as Ha.
  unfold on_read. cbn zeta. set (s1 := on_request s i _).
  assert (forall n e s', inv None None s' -> returns (call_read user s' n None 0 [] e) (inv None None)) as Hcall.
  { intros n e s' Hs'. destruct n; [by apply file_call_inv; [apply calls_preserve|..]|done]. }
  destruct (is_open s1) eqn:Ho; cbn [negb].
  2: { assert (inv (Some (i, data)) None s1) as Hs1.
       { pose proof (arrived_at_inv (m_read_in_progress s) s i r data Hi Hlook Hf Hlen) as Hat. by revert Hat; apply inv_frame. }
       eapply returns_bind; [by apply (reset_inv None s1 i data)|]. intros s' Hs'. by apply Hcall. }
  change (s1 <| m_read_in_progress := false |>) with (arrived s i data).
  destruct (result <? 0); [|destruct (result =? 0)].
  - eapply returns_bind; [by apply (reset_inv None _ i data), (inv_frame _ None (arrived s i data))|]. intros s' Hs'. by apply Hcall.
  - set (s2 := (arrived s i data) <| m_done_read := true |>). assert (inv (Some (i, data)) None s2) as Hi2 by by apply (inv_frame _ None (arrived s i data)).
    eapply (returns_bind _ _ (inv (Some (i, data)) None)); [|intros s' Hs'; by apply (reset_inv None s' i data)].
    destruct (m_end_read_callback s2); [by apply file_call_inv; [apply calls_preserve|..]|done].
  - eapply (returns_bind _ _ (inv (Some (i, data)) None)).
    + destruct (m_read_callback (arrived s i data)); [|done].
      eapply returns_bind; [by apply (file_call_inv user (Some (i, data)) None); [apply calls_preserve|..]|]. intros s' Hs'. cbn [returns]. by apply (inv_frame _ None s').
    + intros s' Hs'. eapply returns_bind; [by apply schedule_read_inv|]. intros s2 Hs2. by apply (reset_inv None s2 i data).
Qed.

(** ** Runs of a file *)

Inductive Callback :=
| CompleteOpen (n : nat) (result : Z)
| CompleteClose (result : Z)
| CompleteRead (i : nat) (result : Z) (data : list Z)
| CompleteBlock (k : nat) (result : Z) (data : list Z)
| CompleteStat (n : nat) (result : Z)
| RunScheduled.

Definition run (user : Event -> t -> outcome t) (s : t) (c : Callback) : outcome t :=
  match c with
  | CompleteOpen n result => on_open user s n result
  | CompleteClose result => on_close user 0 1 s result
  | CompleteRead i result data => on_read user 0 0 1 s i result data
  | CompleteBlock k result data => on_read_block user s k result data
  | CompleteStat n result => on_stat user s n result
  | RunScheduled => run_scheduled user 0 1 s
  end.

Definition enabled (s : t) (c : Callback) : Prop :=
  match c with
  | CompleteOpen n _ => is_Some (open_requests s !! n)
  | CompleteClose _ => close_requests s <> []
  | CompleteRead i result data =>
      (exists r, m_read_reqs s !! i = Some r /\ in_flight r = true) /\ Z.of_nat (length data) <= READ_BUF_SIZE
  | CompleteBlock k _ _ => (k < length (block_requests s))%nat
  | CompleteStat n _ => is_Some (stat_requests s !! n)
  | RunScheduled => True
  end.

Inductive step (s s' : t) : Prop :=
| step_api : api s s' -> step s s'
| step_loop (b : bool) : s' = s <| running := b |> -> step s s'
| step_run user c : Calls user -> enabled s c -> run user s c = Ret s' -> step s s'.

Lemma file_run_scheduled_inv user s : Calls user -> inv None None s -> returns (run_scheduled user 0 1 s) (inv None None).
Proof.
  intros Hu Hi. pose proof (calls_preserve user None None Hu) as Hp. unfold run_scheduled. destruct (scheduled s) as [|c rest] eqn:Hs; [done|].
  pose proof (inv_scheduled _ s (proj2 Hi)) as Hh. rewrite Hs in Hh. cbn in Hh. apply andb_true_iff in Hh as [Hc Hrest].
  assert (m_removal_scheduled s = true -> opens_again c = false /\ forallb (fun c => negb (opens_again c)) rest = true) as Hset.
  { intros Hr. destruct (inv_settled _ s (proj2 Hi) Hr) as [(_ & Ha & _) _]. rewrite Hs in Ha. cbn in Ha. apply andb_true_iff in Ha as [Ha ?].
    split; [by destruct (opens_again c)|done]. }
  assert (inv None None (s <| scheduled := rest |>)) as Hi1.
  { destruct Hi as [Hb [H1 H2 H3 H4 H5 H6 H7 H8 H9 H10]]. split; [by apply (buffers_frame None s)|]. split; try assumption.
    intros Hr. change (m_removal_scheduled s = true) in Hr. destruct (H7 Hr) as [(? & _ & ?) ?]. destruct (Hset Hr). by split. }
  destruct c as [[|n|path cb|] error|[|n|path cb|] error|path cb|n error|error|n error]; try done; try by apply file_call_inv.
  apply open_inv; [done|done|]. destruct (m_removal_scheduled s) eqn:E; [|exact E]. by destruct (Hset eq_refl).
Qed.

Lemma run_file_inv user s c : Calls user -> inv None None s -> enabled s c -> returns (run user s c) (inv None None).
Proof.
  intros Hu Hi He. pose proof (calls_preserve user None None Hu) as Hp.
  assert (forall n o d e s', inv None None s' -> returns (call_read user s' n None o d e) (inv None None)) as Hcall.
  { intros n o d e s' Hs'. destruct n; [by apply file_call_inv|done]. }
  destruct c as [n result|result|i result data|k result data|n result|]; cbn [run enabled] in *.
  - by apply on_open_inv.
  - by apply file_on_close_inv.
  - destruct He as [(r & Hl & Hf) Hd]. by apply (on_read_inv user s i r).
  - unfold on_read_block. destruct (lookup_lt_is_Some_2 _ _ He) as [[o cnt] ->]. cbn zeta.
    assert (inv None None (s <| block_requests ::= delete k |>)) as Hi1 by by apply (inv_frame _ _ s).
    destruct (negb (is_open _)); [by apply Hcall|]. destruct (result <? 0); [by apply Hcall|]. destruct (0 <? result); [by apply Hcall|done].
  - unfold on_stat. destruct He as [cb ->]. assert (inv None None (s <| stat_requests ::= delete n |> <| m_stat_req := None |>)) as Hi1 by by apply (inv_frame _ _ s).
    destruct cb; [by apply file_call_inv|done].
  - by apply file_run_scheduled_inv.
Qed.

Lemma reachable_file_inv s : rtc step create s -> inv None None s.
Proof.
  assert (forall s0, rtc step s0 s -> inv None None s0 -> inv None None s) as Hgen; [|intros H; by apply (Hgen create H), create_file_inv].
  induction 1 as [|s0 s1 s2 [Ha|b ->|user c Hu He Hr] H2 IH]; [done|..]; intros Hi; apply IH.
  - by apply (api_inv _ _ s0).
  - by apply (inv_frame _ _ s0).
  - pose proof (run_file_inv user s0 c Hu Hi He) as Hret. by rewrite Hr in Hret.
Qed.

(** ** Reading a file from its beginning *)

(** User code that only lets chunks go, and keeps copies of the one it is given. *)
Definition lets_go (s s' : t) : Prop :=
  exists i k r, m_read_reqs s !! i = Some r /\ (k < length (held r))%nat /\ release silent 0 0 1 s i k = Ret s'.
Definition Keeps (user : Event -> t -> outcome t) : Prop :=
  forall e s, returns (user e s) (fun s' => exists s1, rtc lets_go s s1 /\
    match e with
    | ReadCalled _ (Some i) _ data _ => exists n, s' = keep i n data s1
    | _ => s' = s1
    end).

(** The file is open and reading goes on: a read is under way or all buffers are in use. *)
Definition session (s : t) : Prop := is_open s = true /\ m_state s = OPENED /\ m_removal_scheduled s = false.
Definition going (s : t) : Prop := m_read_in_progress s = true \/ find_free (m_read_reqs s) = None.

(** [m_read_in_progress] is true to its name.  A read that completes after the file was closed leaves it set. *)
Definition progress_ok (s : t) : Prop := m_read_in_progress s = true -> exists i r, m_read_reqs s !! i = Some r /\ in_flight r = true.
(** The end was reached: no read is under way and none will be begun. *)
Definition finished (s : t) : Prop := m_done_read s = true /\ m_read_in_progress s = false.

Lemma progress_alter s s' i f : (forall r, in_flight (f r) = in_flight r) -> m_read_reqs s' = alter f i (m_read_reqs s) ->
  m_read_in_progress s' = m_read_in_progress s -> progress_ok s -> progress_ok s'.
Proof.
  intros Hf El Ep Hs. unfold progress_ok. rewrite El, Ep. intros Hp. destruct (Hs Hp) as (j & r & Hj & Hr).
  destruct (decide (j = i)) as [->|Hne].
  - exists i, (f r). rewrite list_lookup_alter_eq, Hj, Hf. done.
  - exists j, r. by rewrite list_lookup_alter_ne.
Qed.

Definition session_view (s : t) :=
  (m_file_handle s, m_state s, m_removal_scheduled s, m_current_offset s, m_read_callback s, m_end_read_callback s, m_done_read s, events s).

Lemma session_frame s s' : session_view s' = session_view s -> session s -> session s'.
Proof. unfold session_view, session, is_open. intros [= -> -> -> _ _ _ _ _]. done. Qed.

(** A run of reads of [content]: [pos] bytes were read so far.  libuv reads at the position of the file and returns at
    least one byte; between the reads user code lets chunks go. *)
Inductive reading (content : list Z) (n e : nat) (s0 : t) : nat -> t -> Prop :=
| reading_start s : rtc step create s0 -> session s0 -> m_read_in_progress s0 = false -> m_current_offset s0 = 0 ->
    read silent 0 s0 (Some n) (Some e) = Ret s -> reading content n e s0 0 s
| reading_data pos s user i r k s' : reading content n e s0 pos s -> Keeps user ->
    m_read_reqs s !! i = Some r -> in_flight r = true -> (0 < k)%nat -> Z.of_nat k <= READ_BUF_SIZE -> (pos + k <= length content)%nat ->
    on_read user 0 0 1 s i (Z.of_nat k) (take k (drop pos content)) = Ret s' -> reading content n e s0 (pos + k) s'
| reading_release pos s s' : reading content n e s0 pos s -> lets_go s s' -> reading content n e s0 pos s'.

(** The calls of the read callback [n] for chunks that follow one another from offset [o] on, each with its buffer. *)
Fixpoint chunks (n o : nat) (ds : list (nat * list Z)) : list Event :=
  match ds with
  | [] => []
  | (i, d) :: ds => ReadCalled n (Some i) (wrap 64 (Z.of_nat o)) d (Error_of_uv 0) :: chunks n (o + length d) ds
  end.

Lemma chunks_snoc n o ds i d :
  chunks n o (ds ++ [(i, d)]) = chunks n o ds ++ [ReadCalled n (Some i) (wrap 64 (Z.of_nat (o + length (concat ds.*2)))) d (Error_of_uv 0)].
Proof.
  revert o. induction ds as [|[j d'] ds IH]; intros o; cbn; [by rewrite Nat.add_0_r|]. rewrite IH, length_app. by rewrite Nat.add_assoc.
Qed.

Lemma schedule_read_view user s s' : schedule_read user 0 s = Ret s' -> session_view s' = session_view s.
Proof.
  unfold schedule_read. destruct (is_open s); [|by intros [= <-]]. destruct (m_removal_scheduled s); [by intros [= <-]|].
  case_bool_decide; [by intros [= <-]|]. destruct (m_read_in_progress s); [by intros [= <-]|]. cbn [negb].
  destruct (find_free (m_read_reqs s)) as [i|]; [|by intros [= <-]]. unfold schedule_read_req. rewrite error_bool_of_uv. by intros [= <-].
Qed.

Lemma schedule_read_going user s s' : schedule_read user 0 s = Ret s' -> session s -> going s'.
Proof.
  unfold schedule_read. intros H (Ho & Hs & Hr). rewrite Ho, Hr, Hs in H. rewrite bool_decide_false in H by done. cbn [negb] in H.
  destruct (m_read_in_progress s) eqn:Hp; [injection H as <-; by left|]. destruct (find_free (m_read_reqs s)) as [i|] eqn:Hf.
  - unfold schedule_read_req in H. rewrite error_bool_of_uv in H. injection H as <-. by left.
  - injection H as <-. by right.
Qed.

Lemma schedule_read_progress user s s' : schedule_read user 0 s = Ret s' -> progress_ok s -> progress_ok s'.
Proof.
  unfold schedule_read. intros H Hp. destruct (negb (is_open s)); [by injection H as <-|].
  destruct (m_removal_scheduled s); [by injection H as <-|]. case_bool_decide; [by injection H as <-|].
  destruct (m_read_in_progress s); [by injection H as <-|].
  destruct (find_free (m_read_reqs s)) as [i|] eqn:Hfree; [|by injection H as <-]. apply find_free_some in Hfree as (r & Hl & _).
  unfold schedule_read_req in H. rewrite error_bool_of_uv in H. injection H as <-. intros _. eexists i, _. cbn.
  rewrite list_alter_alter_eq, list_lookup_alter_eq, Hl. by split.
Qed.

Lemma find_free_alter l i f : (forall r, is_free (f r) = is_free r) -> find_free (alter f i l) = find_free l.
Proof.
  intros Hf. revert i. induction l as [|r l IH]; intros i; [done|]. destruct i as [|i]; cbn; [by rewrite Hf|]. by rewrite IH.
Qed.

Lemma dropped_view user s s' i f : (forall r, is_free (f r) = is_free r) -> (forall r, in_flight (f r) = in_flight r) ->
  session s -> m_need_reschedule_remove s = false -> dropped user 0 0 1 (on_request s i f) i = Ret s' ->
  session_view s' = session_view s /\ (m_done_read s = false -> going s -> going s') /\ (progress_ok s -> progress_ok s') /\ (finished s -> finished s').
Proof.
  intros Hf Hfl Hs Hn. unfold dropped. destruct (m_read_reqs _ !! i) as [r|]; [|done].
  assert (progress_ok s -> progress_ok (on_request s i f)) as Hp by by apply (progress_alter s _ i f). destruct (negb (own r) && _).
  - unfold deleter. cbn zeta. set (s1 := stop_block _). change (m_need_reschedule_remove s1) with (m_need_reschedule_remove s). rewrite Hn.
    assert (progress_ok s -> progress_ok s1) as Hp1.
    { intros Hps. by apply (progress_alter (on_request s i f) _ i (fun r => r <| is_free := true |>)), Hp. }
    change (m_done_read s1) with (m_done_read s). destruct (m_done_read s) eqn:Ed; [by intros [= <-]|]. intros H. split_and!.
    + by apply schedule_read_view in H.
    + intros _ _. by apply (schedule_read_going user s1).
    + intros Hps. by apply (schedule_read_progress user s1), Hp1.
    + intros [? _]. congruence.
  - intros [= <-]. split_and!; [done| |done|done]. intros _ [Hg|Hg]; [by left|]. right. cbn. by rewrite find_free_alter.
Qed.

Lemma need_session x y s : inv x y s -> session s -> m_need_reschedule_remove s = false.
Proof.
  intros [_ Hl] (Ho & _ & _). destruct (m_need_reschedule_remove s) eqn:E; [|done]. destruct (inv_need y s Hl E). congruence.
Qed.

Lemma lets_go_api s s' : lets_go s s' -> api s s'.
Proof. intros (i & k & r & Hl & Hk & H). by apply (api_release s i k r). Qed.

Lemma lets_go_view x y s s' : inv x y s -> session s -> lets_go s s' ->
  session_view s' = session_view s /\ (m_done_read s = false -> going s -> going s') /\ (progress_ok s -> progress_ok s') /\ (finished s -> finished s').
Proof. intros Hi Hs (i & k & r & Hl & Hk & H). apply (dropped_view silent s s' i _) in H; [done|done|done|done|by apply (need_session x y)]. Qed.

Lemma rtc_lets_go x y s s' : inv x y s -> session s -> rtc lets_go s s' ->
  inv x y s' /\ session_view s' = session_view s /\ (progress_ok s -> progress_ok s') /\ (finished s -> finished s').
Proof.
  intros Hi Hs H. revert Hi Hs. induction H as [|s s1 s2 H H2 IH]; [done|]. intros Hi Hs.
  destruct (lets_go_view x y s s1 Hi Hs H) as (Hv & _ & Hp & Hd). pose proof (api_inv x y s s1 (lets_go_api s s1 H) Hi) as Hi1.
  destruct (IH Hi1 (session_frame s s1 Hv Hs)) as (Hi2 & Hv2 & Hp2 & Hd2). rewrite Hv2. split_and!; auto.
Qed.

Lemma keeps_call user x y s e : Keeps user -> inv x y s -> session s ->
  match e with ReadCalled _ (Some i) _ d _ => x = Some (i, d) | _ => True end ->
  returns (call user s e) (fun s' => inv x y s' /\ session_view s' = session_view (emit s e) /\
    (progress_ok s -> progress_ok s') /\ (finished s -> finished s')).
Proof.
  intros Hk Hi Hs He. eapply returns_mono; [apply (Hk e (emit s e))|]. intros s' (s1 & Hrtc & Hs').
  destruct (rtc_lets_go x y (emit s e) s1 (emit_file_inv x y s e Hi) Hs Hrtc) as (Hi1 & Hv & Hp & Hd).
  destruct e as [| |m [i|] o d e'| |]; try by subst. destruct Hs' as [k ->]. rewrite He in *. split_and!; [by apply keep_inv|done| |done].
  intros Hps. eapply (progress_alter s1 _ i); [|done|done|by apply Hp]. done.
Qed.

Record reads_content (content : list Z) (n e : nat) (s0 : t) (pos : nat) (s : t) : Prop := {
  rc_inv : inv None None s;
  rc_session : session s;
  rc_members : m_read_callback s = Some n /\ m_end_read_callback s = Some e /\ m_done_read s = false /\ m_current_offset s = wrap 64 (Z.of_nat pos);
  rc_going : going s;
  rc_progress : progress_ok s;
  rc_delivered : exists ds, events s = events s0 ++ chunks n 0 ds /\ concat ds.*2 = take pos content
}.

Lemma session_of_view s s' : session_view s' = session_view s ->
  m_read_callback s' = m_read_callback s /\ m_end_read_callback s' = m_end_read_callback s /\ m_done_read s' = m_done_read s /\
  m_current_offset s' = m_current_offset s /\ events s' = events s.
Proof. unfold session_view. by intros [= _ _ _ -> -> -> -> ->]. Qed.

Lemma reads_content_frame content n e s0 pos s s' : session_view s' = session_view s -> inv None None s' -> going s' -> progress_ok s' ->
  reads_content content n e s0 pos s -> reads_content content n e s0 pos s'.
Proof.
  intros Hv Hi Hg Hp [_ Hs Hm _ _ Hd]. destruct (session_of_view s s' Hv) as (E1 & E2 & E3 & E4 & E5).
  split; [done|by apply (session_frame s)|by rewrite E1, E2, E3, E4|done|done|]. by rewrite E5.
Qed.

(** One read of a session. *)
Lemma read_step content n e s0 pos s user i r k :
  reads_content content n e s0 pos s -> Keeps user -> m_read_reqs s !! i = Some r -> in_flight r = true -> (0 < k)%nat ->
  Z.of_nat k <= READ_BUF_SIZE -> (pos + k <= length content)%nat ->
  returns (on_read user 0 0 1 s i (Z.of_nat k) (take k (drop pos content))) (reads_content content n e s0 (pos + k)).
Proof.
  intros [Hi Hs (Hcb & Hecb & Hdone & Hoff) Hg _ (ds & Hd & Hc)] Hu Hl Hf Hk Hsz Hle. set (data := take k (drop pos content)).
  assert (length data = k) as Hlen by (unfold data; rewrite length_take, length_drop; lia).
  pose proof (arrived_inv s i r data Hi Hl Hf ltac:(by rewrite Hlen)) as Ha. pose proof Hs as (Ho & _ & _).
  unfold on_read. cbn zeta. set (s1 := on_request s i _). assert (is_open s1 = true) as -> by exact Ho. cbn [negb].
  change (s1 <| m_read_in_progress := false |>) with (arrived s i data).
  rewrite (proj2 (Z.ltb_ge _ _)), (proj2 (Z.eqb_neq _ _)) by lia.
  change (m_read_callback (arrived s i data)) with (m_read_callback s). rewrite Hcb. change (m_current_offset (arrived s i data)) with (m_current_offset s).
  set (ev := ReadCalled n (Some i) (m_current_offset s) data (Error_of_uv 0)). rewrite obind_assoc.
  eapply returns_bind; [by apply (keeps_call user (Some (i, data)) None (arrived s i data) ev)|]. intros s2 (Hi2 & Hv2 & Hp2 & _). cbn [obind].
  assert (progress_ok (arrived s i data)) as Hpa by done.
  set (s3 := s2 <| m_current_offset ::= _ |>). assert (inv (Some (i, data)) None s3) as Hi3 by by apply (inv_frame _ None s2).
  assert (session s3) as Hs3 by exact (session_frame (emit (arrived s i data) ev) s2 Hv2 Hs).
  destruct (session_of_view _ _ Hv2) as (E1 & E2 & E3 & E4 & E5).
  pose proof (schedule_read_inv _ _ s3 user Hi3) as Hsr. apply returns_inv in Hsr as (s4 & H4 & Hi4). rewrite H4. cbn [obind].
  pose proof (schedule_read_view user s3 s4 H4) as Hv4. pose proof (schedule_read_going user s3 s4 H4 Hs3) as Hg4.
  pose proof (session_frame s3 s4 Hv4 Hs3) as Hs4. pose proof (reset_inv None s4 i data user Hi4) as Hrs.
  apply returns_inv in Hrs as (s5 & H5 & Hi5). rewrite H5. cbn [returns].
  destruct (dropped_view user s4 s5 i (fun r => r <| own := false |>) ltac:(done) ltac:(done) Hs4 (need_session _ _ s4 Hi4 Hs4) H5) as (Hv5 & Hg5 & Hp5 & _).
  destruct (session_of_view _ _ Hv4) as (F1 & F2 & F3 & F4 & F5).
  destruct (session_of_view _ _ Hv5) as (G1 & G2 & G3 & G4 & G5).
  assert (m_done_read s4 = false) as Hd4 by (rewrite F3; change (m_done_read s2 = false); by rewrite E3).
  split; [done|by apply (session_frame s4)| |by apply Hg5|by apply Hp5, (schedule_read_progress user s3); [done|]; apply Hp2|].
  - split_and!; [by rewrite G1, F1; change (m_read_callback s2 = Some n); rewrite E1
                |by rewrite G2, F2; change (m_end_read_callback s2 = Some e); rewrite E2|by rewrite G3|].
    rewrite G4, F4. change (wrap 64 (m_current_offset s2 + Z.of_nat k) = wrap 64 (Z.of_nat (pos + k))). rewrite E4.
    change (m_current_offset (emit (arrived s i data) ev)) with (m_current_offset s). rewrite Hoff.
    unfold wrap. by rewrite Zplus_mod_idemp_l, Nat2Z.inj_add.
  - exists (ds ++ [(i, data)]). rewrite chunks_snoc, Hc, fmap_app, concat_app, Hc, app_assoc, <- Hd. cbn [concat fmap list_fmap snd]. rewrite app_nil_r.
    rewrite length_take, Nat.min_l, Nat.add_0_l, <- Hoff by lia. split.
    + rewrite G5, F5. change (events s3) with (events s2). by rewrite E5.
    + unfold data. by rewrite take_add || by rewrite <- take_take_drop.
Qed.

Lemma reading_content content n e s0 pos s : reading content n e s0 pos s -> reads_content content n e s0 pos s.
Proof.
  induction 1 as [s Hr Hs Hp Hoff H|pos s user i r k s' _ IH Hu Hl Hf Hk Hsz Hle H|pos s s' _ IH H].
  - pose proof (reachable_file_inv s0 Hr) as Hi. unfold read in H. pose proof Hs as (Ho & _ & _). rewrite Ho in H. cbn [negb] in H.
    set (s1 := set_field m_done_read _ _) in H. assert (inv None None s1) as Hi1 by by apply (inv_frame _ _ s0).
    pose proof (schedule_read_inv _ _ s1 silent Hi1) as Hret. rewrite H in Hret. pose proof (schedule_read_view _ _ _ H) as Hv.
    destruct (session_of_view _ _ Hv) as (E1 & E2 & E3 & E4 & E5). split; [done|by apply (session_frame s1)| |by apply (schedule_read_going silent s1)| |].
    + rewrite E1, E2, E3, E4. by split_and!.
    + apply (schedule_read_progress silent s1); [done|]. intros Hps. change (m_read_in_progress s0 = true) in Hps. congruence.
    + exists []. cbn. rewrite app_nil_r. by rewrite E5.
  - pose proof (read_step content n e s0 pos s user i r k IH Hu Hl Hf Hk Hsz Hle) as Hret. by rewrite H in Hret.
  - pose proof IH as [Hi Hs (_ & _ & Hd & _) Hg Hp _]. destruct (lets_go_view _ _ s s' Hi Hs H) as (Hv & Hg' & Hp' & _).
    apply (reads_content_frame content n e s0 pos s); [done|by apply (api_inv _ _ s), Hi; apply lets_go_api|by apply Hg'|by apply Hp'|done].
Qed.

(** A read is under way, or user code holds a chunk of every buffer. *)
Lemma going_reads s : inv None None s -> progress_ok s -> going s ->
  (exists i r, m_read_reqs s !! i = Some r /\ in_flight r = true) \/ (forall i r, m_read_reqs s !! i = Some r -> held r <> []).
Proof.
  intros [Hb _] Hps [Hp|Hn]; [left; by apply Hps|].
  destruct (m_read_in_progress s) eqn:Hp; [left; by apply Hps|]. right. intros i r Hi Hh.
  pose proof (inv_request _ s Hb i r Hi) as [K1 _ K3 _ _ _]. pose proof (find_free_none _ Hn i r Hi) as Hf.
  destruct (own r) eqn:Ho; [|by rewrite (proj2 K1) in Hf].
  destruct (K3 eq_refl) as [Hfl|?]; [|done]. pose proof (inv_flight _ s Hb i r Hi Hfl). congruence.
Qed.

(** The end of the file. *)
Lemma read_end content n e s0 pos s user i r : reads_content content n e s0 pos s -> Keeps user -> m_read_reqs s !! i = Some r -> in_flight r = true ->
  returns (on_read user 0 0 1 s i 0 []) (fun s' => inv None None s' /\ session s' /\ events s' = events s ++ [EndReadCalled e] /\ finished s').
Proof.
  intros [Hi Hs (Hcb & Hecb & Hdone & Hoff) Hg _ _] Hu Hl Hf. pose proof (arrived_inv s i r [] Hi Hl Hf ltac:(done)) as Ha. pose proof Hs as (Ho & _ & _).
  unfold on_read. cbn zeta. set (s1 := on_request s i _). assert (is_open s1 = true) as -> by exact Ho. cbn [negb].
  change (s1 <| m_read_in_progress := false |>) with (arrived s i []). cbn [Z.ltb Z.eqb Z.compare].
  set (s2 := (arrived s i []) <| m_done_read := true |>). assert (inv (Some (i, [])) None s2) as Hi2 by by apply (inv_frame _ None (arrived s i [])).
  change (m_end_read_callback s2) with (m_end_read_callback s). rewrite Hecb.
  eapply returns_bind; [by apply (keeps_call user (Some (i, [])) None s2 (EndReadCalled e))|]. intros s3 (Hi3 & Hv3 & _ & Hd3).
  assert (session s3) as Hs3 by exact (session_frame (emit s2 (EndReadCalled e)) s3 Hv3 Hs).
  pose proof (reset_inv None s3 i [] user Hi3) as Hrs. apply returns_inv in Hrs as (s4 & H4 & Hi4). rewrite H4. cbn [returns]. split; [done|].
  destruct (dropped_view user s3 s4 i (fun r => r <| own := false |>) ltac:(done) ltac:(done) Hs3 (need_session _ _ s3 Hi3 Hs3) H4) as (Hv4 & _ & _ & Hd4).
  destruct (session_of_view _ _ Hv3) as (_ & _ & _ & _ & E5). destruct (session_of_view _ _ Hv4) as (_ & _ & _ & _ & F5).
  split_and!; [by apply (session_frame s3)|by rewrite F5, E5|]. by apply Hd4, Hd3.
Qed.

(** After the end nothing is read any more, whatever chunks are let go. *)
Lemma after_end s s' : inv None None s -> session s -> finished s -> rtc lets_go s s' ->
  events s' = events s /\ forall i r, m_read_reqs s' !! i = Some r -> in_flight r = false.
Proof.
  intros Hi Hs Hd H. destruct (rtc_lets_go None None s s' Hi Hs H) as ([Hb _] & Hv & _ & Hd').
  destruct (session_of_view _ _ Hv) as (_ & _ & _ & _ & E5). split; [done|]. intros i r Hl.
  destruct (in_flight r) eqn:Hf; [|done]. pose proof (inv_flight _ s' Hb i r Hl Hf). destruct (Hd' Hd). congruence.
Qed.

(** ** Main theorems *)


(** A file is deleted once: removal is begun at most once, only when the file is closed and no buffer is in use; and
    once it was asked for it has begun as soon as no close is under way and the buffers are back. *)
Theorem file_removed_once s :
  rtc step create s ->
  (removals s <= 1)%nat /\
  (removals s = 1%nat -> m_removal_scheduled s = true /\ is_open s = false /\ has_read_buffers_in_use s = false) /\
  (m_removal_scheduled s = true -> close_requests s = [] -> has_read_buffers_in_use s = false -> removals s = 1%nat).
Proof.
  intros H. destruct (reachable_file_inv s H) as [_ Hl]. pose proof (inv_removal _ s Hl) as Hp. unfold removal_pending in Hp. split_and!.
  - destruct (m_removal_scheduled s); lia.
  - intros E. destruct (inv_removed _ s Hl ltac:(lia)) as [Ho Hu]. split_and!; [|done|by rewrite in_use_spec, Hu].
    destruct (m_removal_scheduled s); [done|lia].
  - intros Hr Hc Hu. rewrite Hr, Hc, Hu, andb_false_r in Hp. cbn in Hp. lia.
Qed.

(** C24. Reading delivers the file: from the start of a read on, however long the reads of libuv are and whatever chunks user
    code keeps and lets go, the only callbacks called are those of the read callback for consecutive pieces of the content,
    each with its offset; reading never stalls, unless user code holds a chunk of each of the four buffers; and when libuv
    reports the end of the file the end callback is called, once, after all the data: then no read is under way, none is
    begun again and no callback follows.  The session begins with no read under way and user code only keeps chunks and lets
    them go in it. *)
Theorem file_read_in_order content n e s0 pos s :
  reading content n e s0 pos s ->
  (exists ds, events s = events s0 ++ chunks n 0 ds /\ concat ds.*2 = take pos content) /\
  ((exists i r, m_read_reqs s !! i = Some r /\ in_flight r = true) \/ (forall i r, m_read_reqs s !! i = Some r -> held r <> [])) /\
  (forall user i r, Keeps user -> m_read_reqs s !! i = Some r -> in_flight r = true ->
     exists s', on_read user 0 0 1 s i 0 [] = Ret s' /\ events s' = events s ++ [EndReadCalled e] /\
       forall s'', rtc lets_go s' s'' -> events s'' = events s' /\ forall j r', m_read_reqs s'' !! j = Some r' -> in_flight r' = false).
Proof.
  intros H. pose proof (reading_content content n e s0 pos s H) as Hc. split_and!.
  - apply Hc.
  - apply going_reads; apply Hc.
  - intros user i r Hu Hl Hf. pose proof (read_end content n e s0 pos s user i r Hc Hu Hl Hf) as Hret.
    apply returns_inv in Hret as (s' & Hrun & Hi & Hs & He & Hd). exists s'. split_and!; [done|done|]. intros s'' Hr.
    by apply after_end.
Qed.

(** ** What goes wrong otherwise *)

(** Scheduling the removal of a file that is being closed never returns: [close] calls its callback at once, which
    schedules the removal again. *)
Theorem removal_while_closing_diverges user fuel s :
  is_open s = true -> m_state s = CLOSING -> has_read_buffers_in_use s = false ->
  schedule_removal user 0 fuel s = Fault FuelExhausted.
Proof.
  intros Ho Hs Hu. revert s Ho Hs Hu. induction fuel as [|fuel IH]; intros s Ho Hs Hu; [done|].
  cbn [schedule_removal]. cbn zeta. set (s1 := s <| m_removal_scheduled := true |>).
  assert (is_open s1 = true) as Ho1 by exact Ho. assert (has_read_buffers_in_use s1 = false) as Hu1 by exact Hu.
  rewrite Ho1. unfold close_impl. rewrite Ho1. cbn [negb]. rewrite bool_decide_true by exact Hs. cbn [call_close]. rewrite Hu1. by apply IH.
Qed.

End Runs.

Section Examples.
#[local] Existing Instance UvFallback.

Definition get (m : outcome t) : t := match m with Ret s => s | Fault _ => create end.

(** A read callback that keeps its chunk. *)
Definition keeper (e : Event) (s : t) : outcome t :=
  match e with ReadCalled _ (Some i) _ d _ => Ret (keep i 1 d s) | _ => Ret s end.

Lemma keeper_calls : Calls keeper.
Proof. intros [| |n [i|] o d e| |] s; cbn; exists s; (split; [done|]); try done. by exists 1%nat. Qed.

Lemma keeper_keeps : Keeps keeper.
Proof. intros [| |n [i|] o d e| |] s; cbn; exists s; (split; [done|]); try done. by exists 1%nat. Qed.

Definition opening_file : t := get (open silent 0 1 create [102] (Some 0%nat)).
Definition open_file : t := get (on_open silent opening_file 0 3).
Definition reading_file : t := get (read silent 0 open_file (Some 1%nat) (Some 2%nat)).
Definition kept_file : t := get (on_read keeper 0 0 1 reading_file 0 3 [7; 8; 9]).
Definition closing_file : t := get (close silent 0 1 open_file NoCallback).

Lemma opening_reachable : rtc step create opening_file.
Proof. apply rtc_once, step_api, (api_open create [102] (Some 0%nat)); [done|]. vm_compute. reflexivity. Qed.

Lemma open_reachable : rtc step create open_file.
Proof.
  eapply rtc_r; [exact opening_reachable|]. apply (step_run _ _ keeper (CompleteOpen 0 3) keeper_calls); [by eexists|]. vm_compute. reflexivity.
Qed.

Lemma reading_reachable : rtc step create reading_file.
Proof. eapply rtc_r; [exact open_reachable|]. apply step_api, (api_read open_file (Some 1%nat) (Some 2%nat)). vm_compute. reflexivity. Qed.


Lemma file_read_in_order_witness :
  exists ds, events kept_file = events open_file ++ chunks 1 0 ds /\ concat ds.*2 = take 3 [7; 8; 9; 10].
Proof.
  destruct (file_read_in_order [7; 8; 9; 10] 1 2 open_file 3 kept_file) as [(ds & Hd & Hc) _].
  - refine (reading_data _ 1 2 open_file 0 reading_file keeper 0 _ 3 kept_file _ keeper_keeps _ _ _ _ _ _).
    + apply reading_start; [exact open_reachable|by split_and!|vm_compute; reflexivity..].
    + vm_compute. reflexivity.
    + vm_compute. reflexivity.
    + lia.
    + vm_compute. done.
    + cbn. lia.
    + vm_compute. reflexivity.
  - exists ds. split; [exact Hd|exact Hc].
Defined.

(** The file is removed while a chunk is held: removal waits for it. *)
Definition finished_file : t := get (on_read keeper 0 0 1 kept_file 1 0 []).
Definition removing_file : t := get (schedule_removal silent 0 1 finished_file).
Definition removed_file : t := get (on_close keeper 0 1 removing_file 0).
Definition released_file : t := get (release silent 0 0 1 removed_file 0 0).

Lemma kept_reachable : rtc step create kept_file.
Proof.
  eapply rtc_r; [exact reading_reachable|]. apply (step_run _ _ keeper (CompleteRead 0 3 [7; 8; 9]) keeper_calls).
  - split; [eexists; split; vm_compute; reflexivity|done].
  - vm_compute. reflexivity.
Qed.

Lemma finished_reachable : rtc step create finished_file.
Proof.
  eapply rtc_r; [exact kept_reachable|]. apply (step_run _ _ keeper (CompleteRead 1 0 []) keeper_calls).
  - split; [eexists; split; vm_compute; reflexivity|done].
  - vm_compute. reflexivity.
Qed.

Lemma removing_reachable : rtc step create removing_file.
Proof.
  eapply rtc_r; [exact finished_reachable|]. apply step_api, (api_schedule_removal finished_file); [vm_compute; reflexivity|..|vm_compute; reflexivity].
  - split_and!; [|vm_compute; reflexivity..]. vm_compute. done.
  - vm_compute. done.
Qed.

Lemma removed_reachable : rtc step create removed_file.
Proof.
  eapply rtc_r; [exact removing_reachable|]. apply (step_run _ _ keeper (CompleteClose 0) keeper_calls); [|vm_compute; reflexivity].
  vm_compute. done.
Qed.

Lemma released_reachable : rtc step create released_file.
Proof.
  eapply rtc_r; [exact removed_reachable|]. apply step_api. eapply (api_release removed_file 0 0); [vm_compute; reflexivity|cbn; lia|]. vm_compute. reflexivity.
Qed.

Lemma file_removed_once_witness : removals removed_file = 0%nat /\ (removals released_file <= 1)%nat /\ removals released_file = 1%nat.
Proof.
  destruct (file_removed_once released_file released_reachable) as (H1 & _ & H3). split; [vm_compute; reflexivity|]. split; [exact H1|].
  apply H3; vm_compute; reflexivity.
Defined.

(** Closing a file and scheduling its removal at once. *)
Example close_then_removal_diverges : forall fuel, schedule_removal silent 0 fuel closing_file = Fault FuelExhausted.
Proof. intros fuel. apply removal_while_closing_diverges; vm_compute; reflexivity. Qed.

(** The close overtakes the read under way: [m_read_in_progress] stays set, and the reopened file is never read. *)
Example close_overtakes_read :
  let closed := get (on_close silent 0 1 (get (close silent 0 1 reading_file NoCallback)) 0) in
  let late := get (on_read silent 0 0 1 closed 0 3 [7; 8; 9]) in
  let reopened := get (on_open silent (get (open silent 0 1 late [102] (Some 0%nat))) 1 3) in
  let s := get (read silent 0 reopened (Some 1%nat) (Some 2%nat)) in
  is_open s = true /\ m_read_in_progress s = true /\ forallb (fun r => negb (in_flight r)) (m_read_reqs s) = true.
Proof. vm_compute. done. Qed.

(** Without an open callback the state stays [OPENING], and opening again is postponed for ever. *)
Example open_without_callback_sticks :
  let s := get (on_open silent (get (open silent 0 1 create [102] None)) 0 3) in
  is_open s = true /\ m_state s = OPENING /\
  (open silent 0 1 s [103] (Some 0%nat)) = Ret (schedule_callback s (OpenAgain [103] (Some 0%nat))).
Proof. vm_compute. done. Qed.

(** A refused close leaves the state at [CLOSING]: opening again is postponed for ever. *)
Example refused_close_sticks :
  let s := get (run_scheduled silent 0 1 (get (close silent (-12) 1 open_file (UserClose 5)))) in
  is_open s = false /\ m_state s = CLOSING /\
  open silent 0 1 s [103] (Some 0%nat) = Ret (schedule_callback s (OpenAgain [103] (Some 0%nat))).
Proof. vm_compute. done. Qed.

(** [read_block] replaces the callback of a read under way, which then gets the data of that read. *)
Example read_block_takes_over :
  let s := get (on_read silent 0 0 1 (get (read_block silent 0 reading_file 100 10 (Some 5%nat))) 0 3 [7; 8; 9]) in
  List.last (events s) (EndReadCalled 0) = ReadCalled 5 (Some 0%nat) 0 [7; 8; 9] (Error_of_uv 0).
Proof. vm_compute. done. Qed.

(** A file that is scheduled for removal while it is opening is deleted with the request under way. *)
Example removal_while_opening :
  let s := get (schedule_removal silent 0 1 opening_file) in removals s = 1%nat /\ open_requests s !! 0%nat = Some true.
Proof. vm_compute. done. Qed.

(** The buffer of a read libuv refuses is never free again, and the loop can not exit. *)
Example refused_read_keeps_buffer :
  let s := get (read silent (-12) (open_file <| running := true |>) (Some 1%nat) None) in
  blocks s = 1 /\ (is_free <$> m_read_reqs s !! 0%nat) = Some false /\ forallb (fun r => negb (in_flight r)) (m_read_reqs s) = true.
Proof. vm_compute. done. Qed.

End Examples.

End File.
