(* ===== verification/PathNames.v ===== *)
(** * Paths made of names

    The text that [operator/] of [fs::Path] builds from names, and its elements: what the functions on directories rely
    on. *)

From S2P Require Import Prelude Path.
Local Open Scope outcome_scope.

Module PathNames.

(** A name of a directory entry: not empty, without separators and NUL. *)
Definition valid_name (x : list Z) : Prop := x <> [] /\ Path.clean x /\ 0 ∉ x.

(** The names joined. *)
Definition sub (names : list (list Z)) : list Z := foldl Path.append_path [] names.

Lemma sub_snoc names x : sub (names ++ [x]) = Path.append_path (sub names) x.
Proof. unfold sub. by rewrite foldl_app. Qed.

(** A text to which a name can be appended with a separator. *)
Definition open_ended (s : list Z) : Prop := s = [] \/ (Path.sep_at s (length s - 1) = false).

Lemma valid_no_sep x : valid_name x -> Path.sep_at x 0 = false.
Proof. intros (Hne & Hc & _). destruct x as [|c x]; [done|]. by inversion Hc. Qed.

Lemma clean_last x : Path.clean x -> x <> [] -> Path.sep_at x (length x - 1) = false.
Proof.
  intros Hc Hne. apply (proj1 (Forall_lookup _ _) Hc (length x - 1)%nat). unfold Path.char_at.
  destruct (lookup_lt_is_Some_2 x (length x - 1)) as [c Hc']; [destruct x; [done|cbn; lia]|]. rewrite Hc'. f_equal. symmetry.
  by apply nth_lookup_Some.
Qed.

Lemma append_text s p : s <> [] -> open_ended s -> p <> [] -> Path.sep_at p 0 = false -> Path.append_path s p = s ++ Path.separator :: p.
Proof.
  intros Hs [->|Ho] Hp Hsep; [done|]. unfold Path.append_path, Path.append_separator_if_needed.
  destruct p as [|c p]; [done|]. destruct s as [|d s]; [done|]. rewrite Hsep, Ho. cbn. by rewrite <- app_assoc.
Qed.

Lemma append_empty p : p <> [] -> Path.append_path [] p = p.
Proof. intros Hp. unfold Path.append_path. destruct p as [|c p]; [done|]. cbn. by destruct (negb _). Qed.

Lemma names_sep s p : Path.names (s ++ Path.separator :: p) = Path.names s ++ Path.names p.
Proof. unfold Path.names. by rewrite Path.names_acc_sep. Qed.

Lemma names_valid x : valid_name x -> Path.names x = [x].
Proof. intros (Hne & Hc & _). rewrite <- (app_nil_r x) at 1. by rewrite Path.names_name. Qed.

Lemma sep_at_app_last s p : p <> [] -> Path.sep_at (s ++ p) (length (s ++ p) - 1) = Path.sep_at p (length p - 1).
Proof.
  intros Hp. unfold Path.sep_at, Path.char_at. rewrite app_nth2; rewrite length_app; destruct p; [done| |done|]; cbn [length]; [|lia]. f_equal. f_equal. lia.
Qed.

(** Appending a name to a text. *)
Lemma append_name s x : open_ended s -> valid_name x -> 0 ∉ s ->
  Path.names (Path.append_path s x) = Path.names s ++ [x] /\ open_ended (Path.append_path s x) /\ Path.append_path s x <> [] /\ (0 ∉ Path.append_path s x) /\
  (s = [] \/ Path.sep_at (Path.append_path s x) 0 = Path.sep_at s 0).
Proof.
  intros Ho Hx Hs. pose proof Hx as (Hne & Hc & H0). destruct (decide (s = [])) as [->|Hsne].
  - rewrite append_empty by done. rewrite (names_valid x) by done. split_and!; [done|right; by apply clean_last|done|done|by left].
  - rewrite append_text by (done || by apply valid_no_sep). rewrite names_sep, (names_valid x) by done. split_and!.
    + done.
    + right. change (s ++ Path.separator :: x) with (s ++ [Path.separator] ++ x). rewrite app_assoc, sep_at_app_last by done. by apply clean_last.
    + by destruct s.
    + rewrite not_elem_of_app, not_elem_of_cons. by split_and!.
    + right. by destruct s.
Qed.

Lemma sub_names names : Forall valid_name names ->
  Path.names (sub names) = names /\ open_ended (sub names) /\ (0 ∉ sub names) /\ (names <> [] -> sub names <> [] /\ Path.sep_at (sub names) 0 = false).
Proof.
  induction names as [|x names IH] using rev_ind; intros Hv.
  { split_and!; [done|by left|by apply not_elem_of_nil|done]. }
  apply Forall_app in Hv as [Hv Hx]. rewrite Forall_singleton in Hx. destruct (IH Hv) as (Hn & Ho & H0 & Hsep). rewrite sub_snoc.
  destruct (append_name (sub names) x Ho Hx H0) as (Hn' & Ho' & Hne' & H0' & Hfirst). split_and!; [by rewrite Hn', Hn|done|done|].
  intros _. split; [done|]. destruct Hfirst as [E|E]; [|destruct (decide (names = [])) as [->|Hne]].
  - rewrite E, append_empty; [by apply valid_no_sep|apply Hx].
  - cbn [sub foldl]. rewrite append_empty; [by apply valid_no_sep|apply Hx].
  - rewrite E. by apply Hsep.
Qed.

(** ** Relative and absolute paths of names *)

Definition text (absolute : bool) (ns : list (list Z)) : list Z := (if absolute then Path.root_element else []) ++ sub ns.
Definition parts (absolute : bool) (ns : list (list Z)) : list (list Z) := (if absolute then [Path.root_element] else []) ++ ns.

Lemma no_separator_first p : Path.sep_at p 0 = false -> Path.no_boundary p.
Proof. by destruct p. Qed.

Lemma open_ended_names ns : Forall valid_name ns -> ns <> [] -> Path.ends_in_separator (sub ns) = false.
Proof.
  intros Hv Hne. destruct (sub_names ns Hv) as (_ & [?|Ho] & _ & Hs); [by destruct (Hs Hne)|]. destruct (Hs Hne) as [Hsne _].
  destruct (exists_last Hsne) as (s & c & E). rewrite E in *. unfold Path.ends_in_separator. rewrite last_snoc.
  rewrite sep_at_app_last in Ho by done. done.
Qed.

Lemma text_elements absolute ns : Forall valid_name ns -> Path.spec_elements (text absolute ns) = parts absolute ns.
Proof.
  intros Hv. destruct (sub_names ns Hv) as (Hn & _ & _ & Hs). unfold text, parts. destruct (decide (ns = [])) as [->|Hne]; [by destruct absolute|].
  destruct (Hs Hne) as [_ Hsep]. pose proof (open_ended_names ns Hv Hne) as He. destruct absolute; cbn [app].
  - rewrite (Path.spec_root Path.root_element (sub ns)); [|by repeat constructor|by apply no_separator_first|done|done]. unfold Path.after_root, Path.after_name.
    rewrite Hn, decide_False, He, app_nil_r by done. done.
  - rewrite Path.spec_relative by by apply no_separator_first. unfold Path.after_name. rewrite Hn, He, app_nil_r. done.
Qed.

(** Appending the parts one after the other gives the text. *)
Lemma text_snoc absolute ns x : Forall valid_name ns -> valid_name x -> Path.append_path (text absolute ns) x = text absolute (ns ++ [x]).
Proof.
  intros Hv Hx. destruct (sub_names ns Hv) as (_ & Ho & _ & Hs). unfold text. rewrite sub_snoc. destruct absolute; [|done]. cbn [app].
  pose proof Hx as (Hxne & _ & _). destruct (decide (ns = [])) as [->|Hne].
  - cbn [sub foldl]. rewrite append_empty, app_nil_r by done. unfold Path.append_path, Path.append_separator_if_needed.
    destruct x as [|c x]; [done|]. cbn [length]. cbn. by destruct (negb _).
  - destruct (Hs Hne) as [Hsne _]. rewrite !append_text; [done|done|by destruct Ho; [left|right]|done|by apply valid_no_sep|..].
    + done.
    + right. change (Path.root_element ++ sub ns) with ([Path.separator] ++ sub ns). rewrite sep_at_app_last by done. by destruct Ho.
    + done.
    + by apply valid_no_sep.
Qed.

Lemma text_parts absolute ns : Forall valid_name ns -> foldl Path.append_path [] (parts absolute ns) = text absolute ns.
Proof.
  induction ns as [|x ns IH] using rev_ind; intros Hv; [by destruct absolute|].
  apply Forall_app in Hv as [Hv Hx]. rewrite Forall_singleton in Hx. unfold parts in *. rewrite app_assoc, foldl_app, IH by done. cbn. by apply text_snoc.
Qed.

Lemma text_longer absolute ns x : Forall valid_name ns -> valid_name x -> (length (text absolute ns) < length (text absolute (ns ++ [x])))%nat.
Proof.
  intros Hv Hx. rewrite <- text_snoc by done. pose proof Hx as (Hne & _ & _). unfold Path.append_path. destruct x as [|c x]; [done|]. cbn [length].
  cbn [Nat.eqb]. rewrite length_app. cbn [length]. unfold Path.append_separator_if_needed. destruct (negb _); [|lia].
  destruct (_ && _); cbn [fst]; [rewrite length_app; lia|lia].
Qed.

(** ** Iterating over such a path *)

(** An iterator with the elements before it. *)
Lemma elements_from_inv fuel s it e l : Path.elements_from fuel s it = Ret (e :: l) ->
  Path.iter_eqb it (Path.end_ s) = false /\ Path.m_element it = e /\ exists fuel' next, fuel = S fuel' /\ Path.increment s it = Ret next /\ Path.elements_from fuel' s next = Ret l.
Proof.
  destruct fuel as [|fuel]; cbn; destruct (Path.iter_eqb it (Path.end_ s)); try done. intros H.
  apply obind_ret_inv in H as (next & Hn & H). apply obind_ret_inv in H as (rest & Hr & [= <- <-]). split_and!; [done|done|]. by exists fuel, next.
Qed.

Lemma elements_from_nil fuel s it : Path.elements_from fuel s it = Ret [] -> Path.iter_eqb it (Path.end_ s) = true.
Proof.
  destruct fuel as [|fuel]; cbn; destruct (Path.iter_eqb it (Path.end_ s)); try done. intros H.
  apply obind_ret_inv in H as (next & Hn & H). by apply obind_ret_inv in H as (rest & Hr & ?).
Qed.

(** An element that [lexically_normal] keeps as it is. *)
Definition plain (e : list Z) : Prop := e <> Path.dot_path /\ e <> Path.dot_dot_path.

Lemma normal_step_plain s last it temp : plain (Path.m_element it) -> Path.normal_step s last it temp = Ret (Path.append_path temp (Path.m_element it)).
Proof.
  intros [H1 H2]. unfold Path.normal_step. destruct (Path.m_element it) as [|a [|b [|c e]]] eqn:E; cbn [length Nat.eqb andb].
  - cbn. rewrite !andb_false_r. done.
  - assert ((Path.char_at [a] 0 =? Path.dot) = false) as ->. { apply Z.eqb_neq. intros Ha. cbn in Ha. by subst. }
    cbn. rewrite !andb_false_r. done.
  - assert ((Path.char_at [a; b] 0 =? Path.dot) && (Path.char_at [a; b] 1 =? Path.dot) = false) as Hdots.
    { cbn. destruct (Z.eqb_spec a Path.dot), (Z.eqb_spec b Path.dot); try done. by subst. }
    rewrite <- !andb_assoc, Hdots, !andb_false_r. done.
  - cbn. rewrite !andb_false_r. done.
Qed.

Lemma normal_loop_plain fuel f s last it temp l : Path.elements_from f s it = Ret l -> (length l <= fuel)%nat -> Forall plain l ->
  Path.normal_loop fuel s last it temp = Ret (foldl Path.append_path temp l).
Proof.
  revert f fuel it temp. induction l as [|e l IH]; intros f fuel it temp Hl Hlen Hp.
  - apply elements_from_nil in Hl. destruct fuel; cbn; by rewrite Hl.
  - apply elements_from_inv in Hl as (Hend & <- & f' & next & -> & Hinc & Hl). apply Forall_cons in Hp as [Hp Hps].
    destruct fuel as [|fuel]; [cbn in Hlen; lia|]. cbn [Path.normal_loop]. rewrite Hend, normal_step_plain by done. cbn [obind]. rewrite Hinc. cbn [obind foldl].
    apply (IH f'); [done|cbn in Hlen; lia|done].
Qed.

(** A path without dots is its own normal form. *)
Lemma lexically_normal_plain absolute ns : Forall valid_name ns -> Forall plain ns -> parts absolute ns <> [] ->
  Path.lexically_normal (text absolute ns) = Ret (text absolute ns).
Proof.
  intros Hv Hp Hne. assert (text absolute ns <> []) as Htne.
  { unfold text, parts in *. destruct absolute; [done|]. cbn in *. by apply (sub_names ns Hv). }
  unfold Path.lexically_normal. rewrite (proj2 (Nat.eqb_neq (length (text absolute ns)) 0)) by by destruct (text absolute ns).
  destruct (Path.decrement_end _ Htne) as (last & ->). cbn [obind].
  pose proof (Path.elements_spec (text absolute ns)) as He. unfold Path.elements in He. rewrite text_elements in He by done.
  rewrite (normal_loop_plain _ _ _ _ _ _ _ He); [|by apply (Path.elements_from_length _ _ _ _ He)|].
  - cbn [obind]. rewrite text_parts by done. by rewrite (proj2 (Nat.eqb_neq (length (text absolute ns)) 0)) by by destruct (text absolute ns).
  - unfold parts. apply Forall_app. split; [|done]. destruct absolute; [|done]. by repeat constructor.
Qed.

End PathNames.
