(* ===== verification/DirTree.v ===== *)
(** * fs::remove_dir

    [remove_dir] of [source/io/fs/Dir.cpp]: the removal of a directory with everything below it, run as one piece
    of thread-pool work.

    The file system is behind libuv's synchronous calls and is not part of the program: it is the class
    [Fs], the calls, with the class [TreeFs], what POSIX says about them for the tree below one path.  The
    vector [work_data] is a list with its back first. *)

From Stdlib Require Import Sorting.Sorted.
From S2P Require Import Prelude StatusCode Path PathNames.
Import PathNames.
Local Open Scope outcome_scope.

Module DirTree.

Inductive uv_dirent_type :=
  UV_DIRENT_UNKNOWN | UV_DIRENT_FILE | UV_DIRENT_DIR | UV_DIRENT_LINK | UV_DIRENT_FIFO | UV_DIRENT_SOCKET | UV_DIRENT_CHAR | UV_DIRENT_BLOCK.

#[global] Instance dirent_type_eq_dec : EqDecision uv_dirent_type.
Proof. solve_decision. Defined.

(** libuv's calls without a callback: the state of the file system afterwards, and an error code or the result. *)
Class Fs (W Dir : Type) := {
  uv_fs_opendir : W -> list Z -> W * (Z + Dir);
  uv_fs_readdir : W -> Dir -> W * (Z + option (list Z * uv_dirent_type));
  uv_fs_closedir : W -> Dir -> W;
  uv_fs_unlink : W -> list Z -> W * Z;
  uv_fs_rmdir : W -> list Z -> W * Z
}.

Section Remove.
Context {uv : UvErrno} {W Dir : Type} {fs : Fs W Dir}.

(** [RemoveDirWorkEntry]: a path below the directory, and whether it was processed. *)
Record RemoveDirWorkEntry := mkEntry { path : list Z; processed : bool }.

(** [RemoveDirStatusContext]. *)
Definition Status : Type := Error * list Z.

(** The loop of [remove_dir_entry] over the entries of the directory. *)
Fixpoint read_entries (fuel : nat) (w : W) (dir : Dir) (root subpath : list Z) (work_data : list RemoveDirWorkEntry)
    : outcome (W * list RemoveDirWorkEntry * Status) :=
  match fuel with
  | O => Fault FuelExhausted
  | S fuel =>
      match uv_fs_readdir w dir with
      | (w, inl entries_count) => Ret (w, work_data, (Error_of_uv entries_count, root))
      | (w, inr None) => Ret (w, work_data, (Error_of_uv 0, []))
      | (w, inr (Some (name, type))) =>
          if decide (type = UV_DIRENT_DIR) then
            read_entries fuel w dir root subpath (mkEntry (Path.append_path subpath name) false :: work_data)
          else
            let unlink_path := Path.append_path (Path.append_path root subpath) name in
            let '(w, status) := uv_fs_unlink w (c_str unlink_path) in
            let unlink_error := Error_of_uv status in
            if error_bool unlink_error then Ret (w, work_data, (unlink_error, unlink_path))
            else read_entries fuel w dir root subpath work_data
      end
  end.

Definition remove_dir_entry (fuel : nat) (w : W) (root subpath : list Z) (work_data : list RemoveDirWorkEntry)
    : outcome (W * list RemoveDirWorkEntry * Status) :=
  match work_data with
  | [] => Fault OutOfRange
  | back :: rest =>
      let work_data := mkEntry (path back) true :: rest in
      let open_path := Path.append_path root subpath in
      match uv_fs_opendir w (c_str open_path) with
      | (w, inl open_status) => Ret (w, work_data, (Error_of_uv open_status, open_path))
      | (w, inr dir) =>
          let* (w, work_data, status) := read_entries fuel w dir root subpath work_data in
          Ret (uv_fs_closedir w dir, work_data, status)
      end
  end.

(** The work of [remove_dir_impl]; [progress] are the calls of the progress callback posted to the loop.  An iteration
    reads at most [entries] entries. *)
Fixpoint remove_work (fuel entries : nat) (w : W) (root : list Z) (work_data : list RemoveDirWorkEntry) (progress : list (list Z))
    : outcome (W * list (list Z) * Status) :=
  match work_data with
  | [] => Ret (w, progress, (Error_of_uv 0, []))
  | back :: _ =>
      match fuel with
      | O => Fault FuelExhausted
      | S fuel =>
          let* (w, work_data, status) := remove_dir_entry entries w root (path back) work_data in
          if error_bool status.1 then Ret (w, progress, status)
          else
            match work_data with
            | [] => Fault OutOfRange
            | last_entry :: rest =>
                if processed last_entry then
                  let rmdir_path := Path.append_path root (path last_entry) in
                  let '(w, rmdir_status) := uv_fs_rmdir w (c_str rmdir_path) in
                  let rmdir_error := Error_of_uv rmdir_status in
                  if error_bool rmdir_error then Ret (w, progress, (rmdir_error, rmdir_path))
                  else remove_work fuel entries w root rest (progress ++ [rmdir_path])
                else remove_work fuel entries w root work_data progress
            end
      end
  end.

Definition remove_dir_impl (fuel entries : nat) (w : W) (root : list Z) : outcome (W * list (list Z) * Status) :=
  remove_work fuel entries w root [mkEntry [] false] [].

(** What the remove callback is given: the error of the work request, or else of the removal. *)
Definition remove_result (work_error : Error) (status : Status) : Error := if error_bool work_error then work_error else status.1.

(** ** The file system below a path *)

(** The path given to libuv for a place below the directory. *)
Definition place (root : list Z) (names : list (list Z)) : list Z := Path.append_path root (sub names).

(** What is below the path [root]: [tree] has the type of every name path, the directory itself at the empty one;
    [stream] has the entries an open directory still has to give.  Removing an entry that was read leaves the
    others of the stream alone, as POSIX has it for [readdir]. *)
Class TreeFs (root : list Z) := {
  tree : W -> gmap (list (list Z)) uv_dirent_type;
  stream : W -> Dir -> list (list Z * uv_dirent_type);
  tree_parent w names x ty : tree w !! (names ++ [x]) = Some ty -> tree w !! names = Some UV_DIRENT_DIR;
  opendir_ok w names : tree w !! names = Some UV_DIRENT_DIR ->
    exists w' dir, uv_fs_opendir w (c_str (place root names)) = (w', inr dir) /\ tree w' = tree w /\
      NoDup (stream w' dir).*1 /\ forall x ty, (x, ty) ∈ stream w' dir <-> tree w !! (names ++ [x]) = Some ty;
  readdir_ok w dir : exists w', tree w' = tree w /\ stream w' dir = tail (stream w dir) /\
    uv_fs_readdir w dir = (w', inr (head (stream w dir)));
  closedir_ok w dir : tree (uv_fs_closedir w dir) = tree w;
  unlink_ok w names x ty dir : tree w !! (names ++ [x]) = Some ty -> ty <> UV_DIRENT_DIR ->
    (x ∉ (stream w dir).*1) ->
    exists w', uv_fs_unlink w (c_str (Path.append_path (place root names) x)) = (w', 0) /\ tree w' = delete (names ++ [x]) (tree w) /\
      stream w' dir = stream w dir;
  rmdir_ok w names : tree w !! names = Some UV_DIRENT_DIR -> (forall x, tree w !! (names ++ [x]) = None) ->
    exists w', uv_fs_rmdir w (c_str (place root names)) = (w', 0) /\ tree w' = delete names (tree w)
}.

Context {root : list Z} {tree_fs : TreeFs root}.

(** ** One directory *)

(** The subdirectories among the entries, in the order they are pushed, and the tree without the other entries. *)
Definition folders (l : list (list Z * uv_dirent_type)) : list (list Z) := (filter (fun e => e.2 = UV_DIRENT_DIR) l).*1.
Definition unlinked (names : list (list Z)) (l : list (list Z * uv_dirent_type)) (m : gmap (list (list Z)) uv_dirent_type) :=
  foldl (fun m e => if decide (e.2 = UV_DIRENT_DIR) then m else delete (names ++ [e.1]) m) m l.

Lemma folders_cons x ty l : folders ((x, ty) :: l) = if decide (ty = UV_DIRENT_DIR) then x :: folders l else folders l.
Proof. unfold folders. rewrite filter_cons. cbn. by destruct (decide (ty = UV_DIRENT_DIR)). Qed.

Lemma unlinked_cons names x ty l m :
  unlinked names ((x, ty) :: l) m = unlinked names l (if decide (ty = UV_DIRENT_DIR) then m else delete (names ++ [x]) m).
Proof. done. Qed.

Lemma read_entries_ok fuel w dir names :
  (length (stream w dir) < fuel)%nat -> NoDup (stream w dir).*1 ->
  (forall x ty, (x, ty) ∈ stream w dir -> tree w !! (names ++ [x]) = Some ty) ->
  exists w', (forall work, read_entries fuel w dir root (sub names) work =
      Ret (w', rev ((fun x => mkEntry (sub (names ++ [x])) false) <$> folders (stream w dir)) ++ work, (Error_of_uv 0, []))) /\
    tree w' = unlinked names (stream w dir) (tree w).
Proof.
  revert w. induction fuel as [|fuel IH]; intros w Hlen Hnd Hin; [lia|]. cbn [read_entries].
  destruct (readdir_ok w dir) as (w1 & Ht & Hs & ->). destruct (stream w dir) as [|[x ty] l] eqn:Hst; cbn [head tail] in *.
  { by exists w1. }
  apply NoDup_cons in Hnd as [Hx Hnd]. cbn in Hlen.
  assert (tree w1 !! (names ++ [x]) = Some ty) as Hxty by (rewrite Ht; apply Hin; by left).
  rewrite folders_cons, unlinked_cons. destruct (decide (ty = UV_DIRENT_DIR)) as [->|Hty].
  - rewrite <- sub_snoc. destruct (IH w1) as (w' & Hrun & Ht').
    + rewrite Hs. lia.
    + by rewrite Hs.
    + intros y ty' Hy. rewrite Ht. apply Hin. right. by rewrite <- Hs.
    + exists w'. rewrite Ht', Hs, Ht. split; [|done]. intros work. rewrite Hrun, Hs. cbn. by rewrite <- app_assoc.
  - fold (place root names). destruct (unlink_ok w1 names x ty dir Hxty Hty) as (w2 & -> & Ht2 & Hs2); [by rewrite Hs|].
    cbn zeta. rewrite error_bool_of_uv. change (0 <? 0) with false.
    destruct (IH w2) as (w' & Hrun & Ht').
    + rewrite Hs2, Hs. lia.
    + by rewrite Hs2, Hs.
    + intros y ty' Hy. rewrite Hs2, Hs in Hy. rewrite Ht2, Ht, lookup_delete_ne; [apply Hin; by right|].
      intros [_ ->]%app_inj_tail. apply Hx. exact (list_elem_of_fmap_2 fst l (y, ty') Hy).
    + exists w'. rewrite Ht', Hs2, Hs, Ht2, Ht. split; [|done]. intros work. by rewrite Hrun, Hs2, Hs.
Qed.

Lemma unlinked_lookup names l m k :
  unlinked names l m !! k = if decide (Exists (fun e => e.2 <> UV_DIRENT_DIR /\ k = names ++ [e.1]) l) then None else m !! k.
Proof.
  revert m. induction l as [|[x ty] l IH]; intros m.
  { rewrite decide_False; [done|]. by intros ?%Exists_nil. }
  rewrite unlinked_cons, IH. clear IH. destruct (decide (ty = UV_DIRENT_DIR)) as [->|Hty].
  - apply decide_ext. rewrite Exists_cons. cbn. tauto.
  - destruct (decide (k = names ++ [x])) as [->|Hk].
    + rewrite lookup_delete_eq, (decide_True (P := Exists _ (_ :: _))); [by destruct (decide _)|]. by left.
    + rewrite lookup_delete_ne by done. apply decide_ext. rewrite Exists_cons. cbn. tauto.
Qed.

Lemma tree_ancestor w names x r ty : tree w !! (names ++ x :: r) = Some ty ->
  exists ty', tree w !! (names ++ [x]) = Some ty' /\ (r <> [] -> ty' = UV_DIRENT_DIR).
Proof.
  revert ty. induction r as [|y r IH] using rev_ind; intros ty Hty; [by exists ty|].
  rewrite app_comm_cons, app_assoc in Hty. apply tree_parent in Hty. destruct (IH _ Hty) as (ty' & Hx & Hr). exists ty'. split; [done|]. intros _.
  destruct r as [|z r]; [|by apply Hr]. cbn in Hty. congruence.
Qed.

(** The directory at [names] is open and read; the entries below it. *)
Lemma remove_dir_entry_ok entries w names :
  (size (tree w) < entries)%nat -> tree w !! names = Some UV_DIRENT_DIR ->
  exists w' l, (forall p base, remove_dir_entry entries w root (sub names) (mkEntry (sub names) p :: base) =
      Ret (w', ((fun x => mkEntry (sub (names ++ [x])) false) <$> rev (folders l)) ++ mkEntry (sub names) true :: base, (Error_of_uv 0, []))) /\
    tree w' = unlinked names l (tree w) /\ NoDup l.*1 /\ forall x ty, (x, ty) ∈ l <-> tree w !! (names ++ [x]) = Some ty.
Proof.
  intros Hsz Hdir. unfold remove_dir_entry. cbn [path].
  destruct (opendir_ok w names Hdir) as (w1 & dir & Hop & Ht & Hnd & Hin). unfold place in Hop. rewrite Hop.
  assert (length (stream w1 dir) <= size (tree w))%nat as Hlen.
  { rewrite <- (size_dom (D := gset (list (list Z))) (tree w)), <- (length_fmap fst). rewrite <- (length_fmap (fun x => names ++ [x])).
    rewrite <- (size_list_to_set (C := gset (list (list Z)))); [|apply NoDup_fmap; [intros a b E; by apply app_inj_tail in E as [_ ?]|done]].
    apply subseteq_size. intros k Hk. apply elem_of_list_to_set, list_elem_of_fmap in Hk as (x & -> & Hx).
    apply list_elem_of_fmap in Hx as ([x' ty] & -> & Hx). apply elem_of_dom. exists ty. by apply Hin. }
  destruct (read_entries_ok entries w1 dir names) as (w2 & Hrun & Ht2); [lia|done| |].
  { intros x ty Hx. rewrite Ht. by apply Hin. }
  exists (uv_fs_closedir w2 dir), (stream w1 dir). rewrite closedir_ok, Ht2, Ht. split_and!; try done.
  intros p base. rewrite Hrun. cbn [obind]. by rewrite (map_rev (fun x => mkEntry (sub (names ++ [x])) false) : forall l, _ <$> rev l = _).
Qed.

Lemma no_children w names : (forall x, tree w !! (names ++ [x]) = None) -> forall l, (forall x ty, (x, ty) ∈ l <-> tree w !! (names ++ [x]) = Some ty) -> l = [].
Proof.
  intros Hno l Hin. destruct l as [|[x ty] l]; [done|]. pose proof (proj1 (Hin x ty) ltac:(by left)) as Hx. by rewrite Hno in Hx.
Qed.

(** A processed directory whose entries are gone is read once more and removed. *)
Lemma remove_processed entries w names :
  (size (tree w) < entries)%nat -> tree w !! names = Some UV_DIRENT_DIR -> (forall x, tree w !! (names ++ [x]) = None) ->
  exists w', (forall p fuel base prog, remove_work (S fuel) entries w root (mkEntry (sub names) p :: base) prog =
      remove_work fuel entries w' root base (prog ++ [place root names])) /\ tree w' = delete names (tree w).
Proof.
  intros Hsz Hdir Hno. destruct (remove_dir_entry_ok entries w names Hsz Hdir) as (w1 & l & Hrun & Ht & _ & Hin).
  apply no_children in Hin as ->; [|done]. cbn in Ht. rewrite <- Ht in Hdir.
  destruct (rmdir_ok w1 names Hdir) as (w2 & Hrm & Ht2); [intros x; rewrite Ht; apply Hno|]. exists w2. rewrite Ht2, Ht. split; [|done].
  intros p fuel base prog. cbn [remove_work path]. rewrite Hrun. cbn [obind fst]. rewrite error_bool_of_uv. change (0 <? 0) with false.
  change (folders []) with (@nil (list Z)). cbn [rev fmap list_fmap app processed path]. unfold place in Hrm. rewrite Hrm. cbn zeta. by rewrite error_bool_of_uv.
Qed.

(** ** A directory with everything below it *)

(** [ds] are the directories that satisfy [P], none after one it lies in. *)
Definition children_first (ds : list (list (list Z))) : Prop := StronglySorted (fun a b => ~ a `prefix_of` b) ds.

Definition removes (entries : nat) (P : list (list Z) -> Prop) `{forall k, Decision (P k)} (w : W) (stack : list RemoveDirWorkEntry) : Prop :=
  exists iterations w' ds,
    (forall fuel base prog, remove_work (iterations + fuel) entries w root (stack ++ base) prog =
       remove_work fuel entries w' root base (prog ++ (place root <$> ds))) /\
    (iterations <= 2 * length ds)%nat /\
    (forall k, tree w' !! k = if decide (P k) then None else tree w !! k) /\
    (forall d, d ∈ ds <-> P d /\ tree w !! d = Some UV_DIRENT_DIR) /\ children_first ds.

Lemma children_first_app l k : children_first l -> children_first k -> (forall a b, a ∈ l -> b ∈ k -> ~ a `prefix_of` b) -> children_first (l ++ k).
Proof.
  intros Hl Hk Hlk. induction Hl as [|a l Hl IH Ha]; [done|]. cbn. constructor.
  - apply IH. intros a' b Ha' Hb. apply Hlk; [by right|done].
  - apply Forall_app. split; [done|]. apply Forall_forall. intros b Hb. apply Hlk; [by left|done].
Qed.

(** [names] and everything below it; everything below one of the entries [xs] of [names]. *)
Definition below (names k : list (list Z)) : Prop := names `prefix_of` k.
Definition below_entries (names : list (list Z)) (xs : list (list Z)) (k : list (list Z)) : Prop := Exists (fun x => below (names ++ [x]) k) xs.
#[local] Instance below_dec names k : Decision (below names k) := _.
#[local] Instance below_entries_dec names xs k : Decision (below_entries names xs k) := _.

Lemma below_other names x y k : below (names ++ [x]) k -> below (names ++ [y]) k -> x = y.
Proof. intros [r ->] [r' E]. rewrite <- !app_assoc in E. by apply app_inv_head in E as [= ->]. Qed.

Definition shallow (n : nat) (names : list (list Z)) (w : W) : Prop :=
  forall k ty, tree w !! k = Some ty -> below names k -> (length k <= length names + n)%nat.

Lemma tree_subset P `{forall k, Decision (P k)} w w' :
  (forall k, tree w' !! k = if decide (P k) then None else tree w !! k) -> (size (tree w') <= size (tree w))%nat.
Proof.
  intros Ht. apply map_subseteq_size, map_subseteq_spec. intros k ty Hk. rewrite Ht in Hk. by destruct (decide (P k)).
Qed.

Section Entries.
Variables (entries n : nat) (names : list (list Z)).
Let entry (x : list Z) : RemoveDirWorkEntry := mkEntry (sub (names ++ [x])) false.
Hypothesis removes_entry : forall x w, (size (tree w) < entries)%nat -> tree w !! (names ++ [x]) = Some UV_DIRENT_DIR ->
  shallow n (names ++ [x]) w -> removes entries (below (names ++ [x])) w [entry x].

(** The entries of a directory, one after the other. *)
Lemma removes_entries xs w : NoDup xs -> (size (tree w) < entries)%nat ->
  (forall x, x ∈ xs -> tree w !! (names ++ [x]) = Some UV_DIRENT_DIR) -> shallow (S n) names w ->
  removes entries (below_entries names xs) w (entry <$> xs).
Proof.
  intros Hnd. revert w. induction Hnd as [|x xs Hx Hnd IH]; intros w Hsz Hdir Hsh.
  - exists 0%nat, w, []. split_and!; [intros; cbn; by rewrite app_nil_r|cbn; lia| | |constructor].
    + intros k. rewrite decide_False; [done|]. by intros ?%Exists_nil.
    + intros d. split; [by intros ?%not_elem_of_nil|]. by intros [?%Exists_nil _].
  - assert (forall w', (forall k ty, tree w' !! k = Some ty -> tree w !! k = Some ty) -> shallow (S n) names w') as Hshallow.
    { intros w' Hsub k ty Hk Hb. by apply (Hsh k ty), Hb; apply Hsub. }
    destruct (removes_entry x w Hsz (Hdir x ltac:(by left))) as (i1 & w1 & ds1 & Hrun1 & Hi1 & Ht1 & Hds1 & Hcf1).
    { intros k ty Hk Hb. assert (below names k) as Hb' by (eapply transitivity; [|exact Hb]; by exists [x]).
      pose proof (Hsh k ty Hk Hb'). rewrite length_app. cbn. lia. }
    pose proof (tree_subset _ w w1 Ht1) as Hsz1.
    assert (forall y d, y ∈ xs -> below (names ++ [y]) d -> ~ below (names ++ [x]) d) as Hother.
    { intros y d Hy Hb Hb'. by rewrite (below_other names x y d Hb' Hb) in Hx. }
    destruct (IH w1) as (i2 & w2 & ds2 & Hrun2 & Hi2 & Ht2 & Hds2 & Hcf2); [lia| |apply Hshallow|].
    { intros y Hy. rewrite Ht1, decide_False; [by apply Hdir; right|]. apply (Hother y); [done|unfold below; reflexivity]. }
    { intros k ty Hk. rewrite Ht1 in Hk. by destruct (decide (below (names ++ [x]) k)). }
    exists (i1 + i2)%nat, w2, (ds1 ++ ds2). split_and!.
    + intros fuel base prog. rewrite <- Nat.add_assoc. change ((entry <$> x :: xs) ++ base) with ([entry x] ++ (entry <$> xs) ++ base).
      rewrite Hrun1, Hrun2, fmap_app. by rewrite app_assoc.
    + rewrite length_app. lia.
    + intros k. rewrite Ht2, Ht1. destruct (decide (below_entries names xs k)) as [Hb|Hb].
      * by rewrite decide_True by (by right).
      * apply decide_ext. unfold below_entries in *. rewrite Exists_cons. tauto.
    + intros d. rewrite elem_of_app, Hds1, Hds2, Ht1. unfold below_entries. rewrite Exists_cons. split.
      * intros [[Hb Hd]|[Hb Hd]]; [tauto|]. destruct (decide (below (names ++ [x]) d)); [done|tauto].
      * intros [[Hb|Hb] Hd]; [by left|]. right. split; [done|]. apply Exists_exists in Hb as (y & Hy & Hb). rewrite decide_False; [done|].
        by apply (Hother y).
    + apply children_first_app; [done|done|]. intros a b Ha Hb Hab. apply Hds1 in Ha as [Ha _]. apply Hds2 in Hb as [Hb _].
      apply Exists_exists in Hb as (y & Hy & Hb). apply (Hother y b Hy Hb). by transitivity a.
Qed.

End Entries.

Lemma folders_spec w names l : NoDup l.*1 -> (forall x ty, (x, ty) ∈ l <-> tree w !! (names ++ [x]) = Some ty) ->
  NoDup (rev (folders l)) /\ forall x, x ∈ rev (folders l) <-> tree w !! (names ++ [x]) = Some UV_DIRENT_DIR.
Proof.
  intros Hnd Hin. split.
  - apply (proj2 (NoDup_ListNoDup _)), NoDup_rev, NoDup_ListNoDup. unfold folders. eapply sublist_NoDup; [exact Hnd|]. apply fmap_sublist, sublist_filter.
  - intros x. rewrite <- Hin. unfold folders. rewrite list_elem_of_In, <- in_rev, <- list_elem_of_In, list_elem_of_fmap. split.
    + intros ([x' ty] & -> & [Hty He]%list_elem_of_filter). cbn in *. by subst.
    + intros He. exists (x, UV_DIRENT_DIR). split; [done|]. by apply list_elem_of_filter.
Qed.

(** What is left of a directory once its files are unlinked and its subdirectories removed is the directory itself. *)
Lemma emptied_lookup w w1 w2 names l :
  NoDup l.*1 -> (forall x ty, (x, ty) ∈ l <-> tree w !! (names ++ [x]) = Some ty) -> tree w1 = unlinked names l (tree w) ->
  (forall k, tree w2 !! k = if decide (below_entries names (rev (folders l)) k) then None else tree w1 !! k) ->
  forall k, tree w2 !! k = if decide (below names k /\ k <> names) then None else tree w !! k.
Proof.
  intros Hnd Hin Ht1 Ht2 k. rewrite Ht2, Ht1, unlinked_lookup. clear Ht1 Ht2 w1 w2. destruct (folders_spec w names l Hnd Hin) as [_ Hf].
  destruct (decide (below names k /\ k <> names)) as [[[r ->] Hne]|Hnot].
  - destruct r as [|x r]; [by rewrite app_nil_r in Hne|]. destruct (tree w !! (names ++ x :: r)) as [ty|] eqn:Hk; [|by repeat case_decide].
    apply tree_ancestor in Hk as (ty' & Hx & Hr). destruct (decide (ty' = UV_DIRENT_DIR)) as [->|Hty].
    + rewrite decide_True; [done|]. apply Exists_exists. exists x. split; [by apply Hf|]. exists r. by rewrite <- app_assoc.
    + destruct r as [|y r]; [|by destruct Hty; apply Hr]. destruct (decide (below_entries _ _ _)); [done|].
      rewrite decide_True; [done|]. apply Exists_exists. exists (x, ty'). split; [by apply Hin|done].
  - assert (forall x, ~ below (names ++ [x]) k) as Hno.
    { intros x [r ->]. apply Hnot. rewrite <- app_assoc. split; [by exists ([x] ++ r)|]. intros E. apply (f_equal length) in E. rewrite !length_app in E. cbn in E. lia. }
    rewrite decide_False by (intros (x & _ & Hb)%Exists_exists; by apply (Hno x)).
    rewrite decide_False; [done|]. intros (e & _ & _ & ->)%Exists_exists. apply (Hno e.1). unfold below. reflexivity.
Qed.

Lemma below_self names : below names names.
Proof. unfold below. reflexivity. Qed.

(** The tree without the directory, from the tree without what was below it. *)
Lemma deleted_lookup w w2 w3 names :
  (forall k, tree w2 !! k = if decide (below names k /\ k <> names) then None else tree w !! k) -> tree w3 = delete names (tree w2) ->
  forall k, tree w3 !! k = if decide (below names k) then None else tree w !! k.
Proof.
  intros Ht2 -> k. destruct (decide (k = names)) as [->|Hne].
  - rewrite lookup_delete_eq. by rewrite decide_True by apply below_self.
  - rewrite lookup_delete_ne, Ht2 by done. apply decide_ext. tauto.
Qed.

Lemma emptied_children w w2 names : (forall k, tree w2 !! k = if decide (below names k /\ k <> names) then None else tree w !! k) ->
  forall x, tree w2 !! (names ++ [x]) = None.
Proof.
  intros Ht2 x. rewrite Ht2, decide_True; [done|]. split; [by exists [x]|]. intros E. apply (f_equal length) in E. rewrite length_app in E. cbn in E. lia.
Qed.

(** The entries of the directory are read and unlinked; if there is no subdirectory it is removed at once. *)
Lemma remove_new entries w names :
  (size (tree w) < entries)%nat -> tree w !! names = Some UV_DIRENT_DIR ->
  exists w' xs, (forall fuel base prog, remove_work (S fuel) entries w root (mkEntry (sub names) false :: base) prog =
      if decide (xs = []) then
        remove_work fuel entries w' root base (prog ++ [place root names])
      else remove_work fuel entries w' root (((fun x => mkEntry (sub (names ++ [x])) false) <$> xs) ++ mkEntry (sub names) true :: base) prog) /\
    NoDup xs /\ (forall x, x ∈ xs <-> tree w !! (names ++ [x]) = Some UV_DIRENT_DIR) /\
    (if decide (xs = []) then forall k, tree w' !! k = if decide (below names k) then None else tree w !! k
     else exists l, tree w' = unlinked names l (tree w) /\ NoDup l.*1 /\ xs = rev (folders l) /\ forall x ty, (x, ty) ∈ l <-> tree w !! (names ++ [x]) = Some ty).
Proof.
  intros Hsz Hdir. destruct (remove_dir_entry_ok entries w names Hsz Hdir) as (w1 & l & Hrun & Ht & Hnd & Hin).
  destruct (folders_spec w names l Hnd Hin) as [Hndf Hf]. set (xs := rev (folders l)) in *. destruct (decide (xs = [])) as [Hxs|Hxs].
  - assert (forall k, tree w1 !! k = if decide (below names k /\ k <> names) then None else tree w !! k) as Hemp.
    { apply (emptied_lookup w w1 w1 names l); [done|done|done|]. intros k. rewrite decide_False; [done|]. fold xs. rewrite Hxs. by intros ?%Exists_nil. }
    assert (tree w1 !! names = Some UV_DIRENT_DIR) as Hdir1 by (rewrite Hemp, decide_False; [done|tauto]).
    destruct (rmdir_ok w1 names Hdir1 (emptied_children w w1 names Hemp)) as (w2 & Hrm & Ht2). exists w2, xs.
    rewrite decide_True by done. split_and!; [|done|done|by apply (deleted_lookup w w1)].
    intros fuel base prog. cbn [remove_work path]. rewrite Hrun, Hxs. cbn [obind fst]. rewrite error_bool_of_uv. change (0 <? 0) with false.
    cbn [fmap list_fmap app processed path]. unfold place in Hrm. rewrite Hrm. cbn zeta. rewrite error_bool_of_uv. by rewrite decide_True by done.
  - exists w1, xs. rewrite decide_False by done. split_and!; [|done|done|by exists l].
    intros fuel base prog. rewrite decide_False by done. cbn [remove_work path]. rewrite Hrun. cbn [obind fst]. rewrite error_bool_of_uv. change (0 <? 0) with false.
    destruct xs as [|x xs]; [done|]. done.
Qed.

Lemma no_folders w names d : (forall x, tree w !! (names ++ [x]) <> Some UV_DIRENT_DIR) -> below names d -> tree w !! d = Some UV_DIRENT_DIR -> d = names.
Proof.
  intros Hno [r ->] Hd. destruct r as [|x r]; [by rewrite app_nil_r|]. destruct (tree_ancestor w names x r _ Hd) as (ty & Hx & Hr).
  destruct r as [|y r]; [by destruct (Hno x)|]. destruct (Hno x). by rewrite Hx, Hr.
Qed.

Lemma unlinked_folder w names l k : (forall x ty, (x, ty) ∈ l <-> tree w !! (names ++ [x]) = Some ty) ->
  unlinked names l (tree w) !! k = Some UV_DIRENT_DIR <-> tree w !! k = Some UV_DIRENT_DIR.
Proof.
  intros Hin. rewrite unlinked_lookup. destruct (decide _) as [Hex|]; [|done]. split; [done|].
  apply Exists_exists in Hex as ([x ty] & He & Hty & ->). apply Hin in He. cbn in *. congruence.
Qed.

Lemma unlinked_subset names l m k ty : unlinked names l m !! k = Some ty -> m !! k = Some ty.
Proof. rewrite unlinked_lookup. by destruct (decide _). Qed.

(** The directories below [names] are those below its entries, and itself. *)
Lemma folders_below w names xs d : tree w !! names = Some UV_DIRENT_DIR -> (forall x, x ∈ xs <-> tree w !! (names ++ [x]) = Some UV_DIRENT_DIR) ->
  (below_entries names xs d /\ tree w !! d = Some UV_DIRENT_DIR) \/ d = names <-> below names d /\ tree w !! d = Some UV_DIRENT_DIR.
Proof.
  intros Hdir Hxs. split.
  - intros [[Hb Hd]| ->]; [|split; [apply below_self|done]]. split; [|done]. apply Exists_exists in Hb as (x & _ & r & ->).
    exists ([x] ++ r). by rewrite app_assoc.
  - intros [[r ->] Hd]. destruct r as [|x r]; [right; by rewrite app_nil_r|]. left. split; [|done].
    destruct (tree_ancestor w names x r _ Hd) as (ty & Hx & Hr). apply Exists_exists. exists x. split; [|exists r; by rewrite <- app_assoc].
    apply Hxs. destruct r as [|y r]; [done|]. by rewrite Hx, Hr.
Qed.

Lemma removes_below entries n names w : (size (tree w) < entries)%nat -> tree w !! names = Some UV_DIRENT_DIR -> shallow n names w ->
  removes entries (below names) w [mkEntry (sub names) false].
Proof.
  revert names w. induction n as [n IH] using lt_wf_ind; intros names w Hsz Hdir Hsh.
  destruct (remove_new entries w names Hsz Hdir) as (w1 & xs & Hrun & Hnd & Hxs & Ht). destruct (decide (xs = [])) as [->|Hne].
  - exists 1%nat, w1, [names]. split_and!; [done|cbn; lia|done| |repeat constructor].
    intros d. rewrite list_elem_of_singleton. split; [intros ->; split; [apply below_self|done]|]. intros [Hb Hd].
    apply (no_folders w); [|done|done]. intros x Hx. by apply Hxs, not_elem_of_nil in Hx.
  - destruct Ht as (l & Ht1 & Hnd1 & -> & Hin). destruct n as [|n].
    { destruct (rev (folders l)) as [|x xs] eqn:E; [done|]. pose proof (proj1 (Hxs x) ltac:(by left)) as Hx.
      pose proof (Hsh _ _ Hx ltac:(by exists [x])) as Hlen. rewrite length_app in Hlen. cbn in Hlen. lia. }
    assert (size (tree w1) <= size (tree w))%nat as Hsz1.
    { apply map_subseteq_size, map_subseteq_spec. intros k ty. rewrite Ht1. apply unlinked_subset. }
    destruct (removes_entries entries n names ltac:(intros x w'; apply IH; lia) (rev (folders l)) w1 Hnd) as (i2 & w2 & ds & Hrun2 & Hi2 & Ht2 & Hds & Hcf); [lia| | |].
    { intros x Hx. rewrite Ht1. by apply unlinked_folder, Hxs. }
    { intros k ty Hk Hb. rewrite Ht1 in Hk. apply unlinked_subset in Hk. exact (Hsh k ty Hk Hb). }
    pose proof (emptied_lookup w w1 w2 names l Hnd1 Hin Ht1 Ht2) as Hemp. pose proof (tree_subset _ w1 w2 Ht2) as Hsz2.
    assert (tree w2 !! names = Some UV_DIRENT_DIR) as Hdir2 by (rewrite Hemp, decide_False; [done|tauto]).
    destruct (remove_processed entries w2 names ltac:(lia) Hdir2 (emptied_children w w2 names Hemp)) as (w3 & Hrun3 & Ht3).
    exists (S (i2 + 1)), w3, (ds ++ [names]). split_and!.
    + intros fuel base prog. cbn [app]. change (S (i2 + 1) + fuel)%nat with (S (i2 + 1 + fuel)). rewrite Hrun.
      rewrite <- Nat.add_assoc, Hrun2. change (1 + fuel)%nat with (S fuel). rewrite Hrun3, fmap_app, app_assoc. done.
    + rewrite length_app. cbn. lia.
    + by apply (deleted_lookup w w2).
    + intros d. rewrite elem_of_app, list_elem_of_singleton, Hds, Ht1, unlinked_folder by done. by apply folders_below.
    + apply children_first_app; [done|repeat constructor|]. intros a b Ha ->%list_elem_of_singleton [r Hr]. apply Hds in Ha as [Ha _].
      apply Exists_exists in Ha as (x & _ & r' & ->). apply (f_equal length) in Hr. rewrite !length_app in Hr. cbn in Hr. lia.
Qed.

(** ** Main theorem *)

Lemma children_first_NoDup ds : children_first ds -> NoDup ds.
Proof.
  induction 1 as [|a l Hl IH Ha]; constructor; [|done]. intros Hin. apply (proj1 (Forall_forall _ _) Ha a Hin). reflexivity.
Qed.

Lemma shallow_exists w : exists n, shallow n [] w.
Proof.
  exists (max_list (length <$> (map_to_list (tree w)).*1)). intros k ty Hk _. change (length (@nil (list Z))) with 0%nat. rewrite Nat.add_0_l. apply max_list_elem_of_le.
  apply list_elem_of_fmap. exists k. split; [done|]. apply list_elem_of_fmap. exists (k, ty). split; [done|]. by apply elem_of_map_to_list.
Qed.

(** C26. Removing a directory removes everything below it: with the file system behaving as POSIX says, and for any order in which
    the entries of a directory are read, the work of [remove_dir] ends with success after at most two rounds per
    directory, and nothing is left of the tree.  The progress callback is called once for each directory, never
    before the directories in it. *)
Theorem remove_dir_removes_all w fuel entries :
  tree w !! [] = Some UV_DIRENT_DIR -> (2 * size (tree w) < fuel)%nat -> (size (tree w) < entries)%nat ->
  exists w' ds, remove_dir_impl fuel entries w root = Ret (w', place root <$> ds, (Error_of_uv 0, [])) /\
    tree w' = ∅ /\ (forall d, d ∈ ds <-> tree w !! d = Some UV_DIRENT_DIR) /\ children_first ds.
Proof.
  intros Hdir Hfuel Hent. destruct (shallow_exists w) as [n Hn].
  destruct (removes_below entries n [] w Hent Hdir Hn) as (i & w' & ds & Hrun & Hi & Ht & Hds & Hcf).
  assert (length ds <= size (tree w))%nat as Hlen.
  { rewrite <- (size_dom (D := gset (list (list Z))) (tree w)), <- (size_list_to_set (C := gset (list (list Z)))).
    - apply subseteq_size. intros k Hk. apply elem_of_list_to_set in Hk. apply Hds in Hk as [_ Hk]. by apply elem_of_dom.
    - by apply children_first_NoDup. }
  exists w', ds. split_and!.
  - unfold remove_dir_impl. replace fuel with (i + (fuel - i))%nat by lia. rewrite (Hrun _ [] []). cbn. by destruct (fuel - i)%nat.
  - apply map_empty. intros k. rewrite Ht, decide_True; [done|]. by exists k.
  - intros d. rewrite Hds. split; [tauto|]. intros Hd. split; [by exists d|done].
  - done.
Qed.

End Remove.

(** ** A file system that is a tree

    The laws of [TreeFs] hold for a file system that keeps one tree under the path [t]. *)
Section Disk.

Definition disk_root : list Z := [116].

Definition files_ok (m : gmap (list (list Z)) uv_dirent_type) : Prop :=
  (forall names x ty, m !! (names ++ [x]) = Some ty -> m !! names = Some UV_DIRENT_DIR) /\
  (forall k ty, m !! k = Some ty -> Forall valid_name k).

Record disk := mkDisk { files : gmap (list (list Z)) uv_dirent_type; opened : list (list (list Z * uv_dirent_type)); disk_ok : files_ok files }.

(** The names of a path below the root. *)
Definition resolve (p : list Z) : list (list Z) := tail (Path.names p).

Definition entry_of (names : list (list Z)) (e : list (list Z) * uv_dirent_type) : option (list Z * uv_dirent_type) :=
  match drop (length names) e.1 with
  | [x] => if decide (take (length names) e.1 = names) then Some (x, e.2) else None
  | _ => None
  end.
Definition entries_of (m : gmap (list (list Z)) uv_dirent_type) (names : list (list Z)) := omap (entry_of names) (map_to_list m).

Lemma entry_of_spec names k ty x ty' : entry_of names (k, ty) = Some (x, ty') <-> k = names ++ [x] /\ ty = ty'.
Proof.
  unfold entry_of. cbn. split.
  - destruct (drop (length names) k) as [|y [|z r]] eqn:Hd; try done. destruct (decide (take (length names) k = names)) as [Ht|]; [|done].
    intros [= -> ->]. split; [|done]. by rewrite <- (take_drop (length names) k), Ht, Hd.
  - intros [-> ->]. rewrite drop_app_length, take_app_length. by rewrite decide_True.
Qed.

Lemma elem_of_entries m names x ty : (x, ty) ∈ entries_of m names <-> m !! (names ++ [x]) = Some ty.
Proof.
  unfold entries_of. rewrite list_elem_of_omap. split.
  - intros ([k ty'] & Hk & He). apply entry_of_spec in He as [-> ->]. by apply elem_of_map_to_list.
  - intros Hx. exists (names ++ [x], ty). split; [by apply elem_of_map_to_list|]. by apply entry_of_spec.
Qed.

Lemma entries_NoDup m names : NoDup (entries_of m names).*1.
Proof.
  unfold entries_of. pose proof (NoDup_fst_map_to_list m) as Hnd. induction (map_to_list m) as [|[k ty] l IH]; [constructor|].
  apply NoDup_cons in Hnd as [Hk Hnd]. cbn. destruct (entry_of names (k, ty)) as [[x ty']|] eqn:He; [|by apply IH].
  apply entry_of_spec in He as [-> ->]. cbn. constructor; [|by apply IH]. intros Hin. apply Hk.
  apply list_elem_of_fmap in Hin as ([x' ty2] & -> & Hin). apply list_elem_of_omap in Hin as ([k2 ty3] & Hk2 & He). apply entry_of_spec in He as [-> ->].
  cbn. apply list_elem_of_fmap. by exists (names ++ [x'], ty2).
Qed.

Lemma files_ok_delete m k : files_ok m -> (forall x, m !! (k ++ [x]) = None) -> files_ok (delete k m).
Proof.
  intros [H1 H2] Hk. split.
  - intros names x ty Hx. apply lookup_delete_Some in Hx as [Hne Hx]. rewrite lookup_delete_ne; [by apply (H1 names x ty)|].
    intros ->. by rewrite Hk in Hx.
  - intros k' ty Hk'. apply lookup_delete_Some in Hk' as [_ Hk']. by apply (H2 k' ty).
Qed.

Lemma no_entries m k : entries_of m k = [] -> forall x, m !! (k ++ [x]) = None.
Proof.
  intros E x. destruct (m !! (k ++ [x])) as [ty|] eqn:Hx; [|done]. apply elem_of_entries in Hx. rewrite E in Hx. by apply not_elem_of_nil in Hx.
Qed.

(** A leaf of the tree is removed: a file, or a directory without entries. *)
Definition remove_leaf (d : disk) (k : list (list Z)) (directory : bool) : disk * Z :=
  match decide (entries_of (files d) k = []) with
  | left E =>
      match files d !! k with
      | Some ty =>
          if decide (bool_decide (ty = UV_DIRENT_DIR) = directory)
          then (mkDisk (delete k (files d)) (opened d) (files_ok_delete _ _ (disk_ok d) (no_entries _ _ E)), 0) else (d, -1)
      | None => (d, -2)
      end
  | right _ => (d, -39)
  end.

#[global] Instance disk_fs : Fs disk nat := {
  uv_fs_opendir d p :=
    let k := resolve p in
    if decide (files d !! k = Some UV_DIRENT_DIR)
    then (mkDisk (files d) (opened d ++ [entries_of (files d) k]) (disk_ok d), inr (length (opened d))) else (d, inl (-2));
  uv_fs_readdir d n :=
    (mkDisk (files d) (alter tail n (opened d)) (disk_ok d), inr (head (default [] (opened d !! n))));
  uv_fs_closedir d n := d;
  uv_fs_unlink d p := remove_leaf d (resolve p) false;
  uv_fs_rmdir d p := remove_leaf d (resolve p) true
}.

Lemma root_no_nul : 0 ∉ disk_root.
Proof. rewrite list_elem_of_In. cbn. lia. Qed.

Lemma place_names names : Forall valid_name names ->
  Path.names (place disk_root names) = disk_root :: names /\ open_ended (place disk_root names) /\ (0 ∉ place disk_root names).
Proof.
  intros Hv. destruct (sub_names names Hv) as (Hn & Ho & H0 & Hsep). unfold place. destruct (decide (names = [])) as [->|Hne].
  - split_and!; [done|by right|exact root_no_nul].
  - destruct (Hsep Hne) as [Hsne Hs0]. rewrite append_text; [|done|by right|done|done]. rewrite names_sep, Hn. split_and!; [done| |].
    + right. change (disk_root ++ Path.separator :: sub names) with ((disk_root ++ [Path.separator]) ++ sub names). rewrite sep_at_app_last by done.
      by destruct Ho.
    + rewrite not_elem_of_app, not_elem_of_cons. by split_and!; [apply root_no_nul|..].
Qed.

Lemma resolve_place names : Forall valid_name names -> resolve (c_str (place disk_root names)) = names.
Proof. intros Hv. destruct (place_names names Hv) as (Hn & _ & H0). rewrite c_str_id by done. unfold resolve. by rewrite Hn. Qed.

Lemma resolve_entry names x : Forall valid_name names -> valid_name x -> resolve (c_str (Path.append_path (place disk_root names) x)) = names ++ [x].
Proof.
  intros Hv Hx. destruct (place_names names Hv) as (Hn & Ho & H0). destruct (append_name _ x Ho Hx H0) as (Hn' & _ & _ & H0' & _).
  rewrite c_str_id by done. unfold resolve. by rewrite Hn', Hn.
Qed.

Lemma remove_leaf_ok d k ty : files d !! k = Some ty -> (forall x, files d !! (k ++ [x]) = None) ->
  exists d', remove_leaf d k (bool_decide (ty = UV_DIRENT_DIR)) = (d', 0) /\ files d' = delete k (files d) /\ opened d' = opened d.
Proof.
  intros Hk Hno. unfold remove_leaf. destruct (decide (entries_of (files d) k = [])) as [E|E].
  - rewrite Hk, decide_True by done. eexists. split; [done|]. done.
  - destruct E. destruct (entries_of (files d) k) as [|[x ty'] l] eqn:E; [done|].
    assert ((x, ty') ∈ entries_of (files d) k) as Hx by (rewrite E; by left). apply elem_of_entries in Hx. by rewrite Hno in Hx.
Qed.

#[global] Program Instance disk_tree : TreeFs (W := disk) (Dir := nat) disk_root := {
  tree := files; stream d n := default [] (opened d !! n)
}.
Next Obligation. intros d names x ty Hx. by apply (proj1 (disk_ok d) names x ty). Qed.
Next Obligation.
  intros d names Hd. pose proof (proj2 (disk_ok d) _ _ Hd) as Hv. cbn. rewrite resolve_place, decide_True by done.
  eexists _, _. split; [done|]. cbn. split; [done|]. rewrite list_lookup_middle by done. cbn. split; [apply entries_NoDup|]. intros x ty. apply elem_of_entries.
Qed.
Next Obligation.
  intros d n. eexists. split; [|split; [|done]]; [done|]. cbn. rewrite list_lookup_alter_eq. by destruct (opened d !! n).
Qed.
Next Obligation. done. Qed.
Next Obligation.
  intros d names x ty n Hx Hty Hn. pose proof (proj2 (disk_ok d) _ _ Hx) as Hv. apply Forall_app in Hv as [Hv Hxv]. rewrite Forall_singleton in Hxv.
  cbn. rewrite resolve_entry by done. destruct (remove_leaf_ok d (names ++ [x]) ty Hx) as (d' & Hrm & Hf & Ho).
  - intros y. destruct (files d !! ((names ++ [x]) ++ [y])) as [ty'|] eqn:Hy; [|done]. apply (proj1 (disk_ok d)) in Hy. congruence.
  - rewrite bool_decide_false in Hrm by done. exists d'. by rewrite Hrm, Hf, Ho.
Qed.
Next Obligation.
  intros d names Hd Hno. pose proof (proj2 (disk_ok d) _ _ Hd) as Hv. cbn. rewrite resolve_place by done.
  destruct (remove_leaf_ok d names _ Hd Hno) as (d' & Hrm & Hf & _). exists d'. by split.
Qed.

#[local] Existing Instance UvFallback.

(** A directory with a file, an empty directory, and a directory with a link. *)
Definition some_files : gmap (list (list Z)) uv_dirent_type :=
  {[ [] := UV_DIRENT_DIR; [[97]] := UV_DIRENT_FILE; [[98]] := UV_DIRENT_DIR; [[99]] := UV_DIRENT_DIR; [[99]; [97]] := UV_DIRENT_LINK ]}.

Lemma files_ok_check m :
  map_Forall (fun k _ => (k = [] \/ m !! removelast k = Some UV_DIRENT_DIR) /\ Forall valid_name k) m -> files_ok m.
Proof.
  intros Hm. split.
  - intros names x ty Hx. destruct (Hm _ _ Hx) as [[E|E] _]; [by destruct names|]. by rewrite removelast_last in E.
  - intros k ty Hk. apply (Hm _ _ Hk).
Qed.

#[local] Instance valid_name_dec x : Decision (valid_name x).
Proof. unfold valid_name, Path.clean. apply _. Defined.

Lemma some_files_ok : files_ok some_files.
Proof. apply files_ok_check. apply (bool_decide_unpack _). vm_compute. done. Qed.

Definition some_disk : disk := mkDisk some_files [] some_files_ok.

Lemma remove_dir_removes_all_witness :
  exists d ds, remove_dir_impl 11 6 some_disk disk_root = Ret (d, place disk_root <$> ds, (Error_of_uv 0, [])) /\ files d = ∅ /\
    [[99]] ∈ ds /\ children_first ds.
Proof.
  destruct (remove_dir_removes_all (root := disk_root) some_disk 11 6) as (d & ds & Hrun & Ht & Hds & Hcf).
  - vm_compute. reflexivity.
  - change (tree some_disk) with some_files. assert (size some_files = 5%nat) as -> by (vm_compute; reflexivity). lia.
  - change (tree some_disk) with some_files. assert (size some_files = 5%nat) as -> by (vm_compute; reflexivity). lia.
  - exists d, ds. split; [exact Hrun|]. split; [exact Ht|]. split; [|exact Hcf]. apply Hds. vm_compute. reflexivity.
Defined.

(** What the directories are reported as. *)
Example removal_order :
  match remove_dir_impl 11 6 some_disk disk_root with Ret (_, progress, _) => length progress = 3%nat /\ last progress = Some disk_root | Fault _ => False end.
Proof. vm_compute. done. Qed.

End Disk.

(** ** Errors *)

Section Errors.
Context {uv : UvErrno} {W Dir : Type} {fs : Fs W Dir}.

(** A directory that can not be opened is reported, and nothing else happens. *)
Theorem remove_dir_open_error w w' root fuel entries status :
  uv_fs_opendir w (c_str root) = (w', inl status) -> status < 0 -> (0 < fuel)%nat ->
  remove_dir_impl fuel entries w root = Ret (w', [], (Error_of_uv status, root)).
Proof.
  intros Hop Hs Hf. destruct fuel as [|fuel]; [lia|]. unfold remove_dir_impl. cbn [remove_work path]. unfold remove_dir_entry.
  change (Path.append_path root []) with root. rewrite Hop. cbn [obind fst]. rewrite error_bool_of_uv. by rewrite (proj2 (Z.ltb_lt _ _)).
Qed.

End Errors.

End DirTree.
