(* ===== verification/MakeDirs.v ===== *)
(** * fs::stat, fs::make_dir, fs::make_all_dirs and fs::make_temp_dir

    [source/io/fs/Functions.cpp] and the functions of [fs/Dir.cpp] that make directories.

    These calls are asynchronous; a chain of them, each started by the callback of the one before, is a sequence here.
    [stat] and [mkdir] of the file system are the class [DirFs]: what libuv returns when the request is made and,
    when it is accepted, the state of the file system when its callback is called, and an error code, or the mode for
    [stat].  The class [DirLaws] is what POSIX says about them.  The mode bits are those of Linux. *)

From S2P Require Import Prelude StatusCode Path PathNames.
Import PathNames.
Local Open Scope outcome_scope.

Module MakeDirs.

(** ** The kinds of files *)

Definition S_IFMT : Z := 61440.
Definition S_IFREG : Z := 32768.
Definition S_IFDIR : Z := 16384.
Definition S_IFLNK : Z := 40960.
Definition S_IFBLK : Z := 24576.
Definition S_IFCHR : Z := 8192.
Definition S_IFIFO : Z := 4096.
Definition S_IFSOCK : Z := 49152.

Definition is_regular_file (mode : Z) : bool := Z.land mode S_IFMT =? S_IFREG.
Definition is_directory (mode : Z) : bool := Z.land mode S_IFMT =? S_IFDIR.
Definition is_symbolic_link (mode : Z) : bool := Z.land mode S_IFMT =? S_IFLNK.
Definition is_block_special (mode : Z) : bool := Z.land mode S_IFMT =? S_IFBLK.
Definition is_char_special (mode : Z) : bool := Z.land mode S_IFMT =? S_IFCHR.
Definition is_fifo (mode : Z) : bool := Z.land mode S_IFMT =? S_IFIFO.
Definition is_socket (mode : Z) : bool := Z.land mode S_IFMT =? S_IFSOCK.

Definition kinds : list (Z -> bool) :=
  [is_regular_file; is_directory; is_symbolic_link; is_block_special; is_char_special; is_fifo; is_socket].

(** ** Making directories *)

Class DirFs (W : Type) := {
  uv_fs_stat : W -> list Z -> Z;
  stat_done : W -> list Z -> W * (Z + Z);
  uv_fs_mkdir : W -> list Z -> Z -> Z;
  mkdir_done : W -> list Z -> Z -> W * Z;
  uninitialised : Z
}.

(** [Path::string]. *)
Definition path_string (p : list Z) : string := String.string_of_list_ascii (map (fun c => Ascii.ascii_of_N (Z.to_N c)) p).

Section Make.
Context {uv : UvErrno} {W : Type} {fs : DirFs W}.

(** [stat_impl] with [on_stat]: the callback gets the path that libuv was given, except when libuv refuses. *)
Definition stat (w : W) (path : list Z) : W * list Z * Error * Z :=
  let stat_error := Error_of_uv (uv_fs_stat w (c_str path)) in
  if error_bool stat_error then (w, path, stat_error, uninitialised)
  else
    match stat_done w (c_str path) with
    | (w, inl result) => (w, c_str path, Error_of_uv result, uninitialised)
    | (w, inr mode) => (w, c_str path, Error_of_uv 0, mode)
    end.

(** [make_dir_impl] with [on_make_dir]: the path and the error its callback is called with. *)
Definition make_dir_impl (w : W) (path : list Z) (mode : Z) : outcome (W * list Z * Error) :=
  if (length path =? 0)%nat then Ret (w, path, Error_of_status INVALID_ARGUMENT)
  else
    let* is_name := Path.path_eqb (Path.root_name path) path in
    let* is_root := if is_name then Ret true else Path.path_eqb (Path.root_directory path) path in
    if is_root then Ret (w, path, Error_of_status ILLEGAL_OPERATION_ON_A_DIRECTORY)
    else
      let error := Error_of_uv (uv_fs_mkdir w (c_str path) mode) in
      if error_bool error then Ret (w, path, error)
      else let '(w, result) := mkdir_done w (c_str path) mode in Ret (w, c_str path, Error_of_uv result).

(** [on_make_temp_dir]: the calls of the callback, if there is one, with the path that libuv made. *)
Definition on_make_temp_dir (callback : bool) (path : list Z) (result : Z) : list (list Z * Error) :=
  if callback then [(path, Error_of_uv result)] else [].

(** [make_temp_dir]: the status of [uv_fs_mkdtemp] and, when it accepts the request, what its callback gets. *)
Definition make_temp_dir (callback : bool) (uv_status : Z) (path : list Z) (result : Z) : list (list Z * Error) :=
  let error := Error_of_uv uv_status in
  if error_bool error then (if callback then [([], error)] else [])
  else on_make_temp_dir callback path result.

(** [while (it2 != p.end()) { ++it1; ++it2; }]. *)
Fixpoint advance (fuel : nat) (normalized_path : list Z) (it1 : Path.Iterator) (p : list Z) (it2 : Path.Iterator) : outcome Path.Iterator :=
  if Path.iter_eqb it2 (Path.end_ p) then Ret it1
  else match fuel with
  | O => Fault FuelExhausted
  | S fuel =>
      let* it1 := Path.increment normalized_path it1 in
      let* it2 := Path.increment p it2 in
      advance fuel normalized_path it1 p it2
  end.

Definition next_path (normalized_path p : list Z) : outcome (list Z) :=
  let* it1 := advance (length p) normalized_path (Path.begin_ normalized_path) p (Path.begin_ p) in
  Ret (Path.append_path p (Path.m_element it1)).

(** The function [on_stat] of [make_all_dirs_impl], called with the result of [stat] for [p], and the calls it starts. *)
Fixpoint on_stat (fuel : nat) (w : W) (normalized_path p : list Z) (mode : Z) : outcome (W * list Z * Error) :=
  match fuel with
  | O => Fault FuelExhausted
  | S fuel =>
      let '(w, p, error, stat_mode) := stat w p in
      let* next_path := next_path normalized_path p in
      if bool_decide (code error = NO_SUCH_FILE_OR_DIRECTORY) then
        let* (w, p, error) := make_dir_impl w p mode in
        if error_bool error then Ret (w, p, Error_with_info (code error) (path_string p))
        else if negb (length p =? length normalized_path)%nat then on_stat fuel w normalized_path next_path mode
        else Ret (w, p, Error_of_status OK)
      else if error_bool error then Ret (w, p, Error_with_info (code error) (path_string p))
      else if is_regular_file stat_mode then Ret (w, p, Error_with_info NOT_A_DIRECTORY (path_string p))
      else if negb (length p =? length normalized_path)%nat then on_stat fuel w normalized_path next_path mode
      else Ret (w, p, Error_of_status OK)
  end.

(** [make_all_dirs_impl]: what its callback is called with. *)
Definition make_all_dirs_impl (fuel : nat) (w : W) (path : list Z) (mode : Z) : outcome (W * list Z * Error) :=
  if (length path =? 0)%nat then Ret (w, path, Error_of_status INVALID_ARGUMENT)
  else
    let* normalized_path := Path.lexically_normal path in
    on_stat fuel w normalized_path (Path.m_element (Path.begin_ path)) mode.

End Make.

(** ** What POSIX says *)

Section Laws.
Context {uv : UvErrno} {W : Type} {fs : DirFs W}.

(** The mode of the file at a path, if there is one.  Directories can be searched and written, and a directory that is made with the
    owner's write and search bits is such a directory. *)
Class DirLaws := {
  node : W -> list Z -> option Z;
  stat_accepted w p : uv_fs_stat w p = 0;
  mkdir_accepted w p mode : uv_fs_mkdir w p mode = 0;
  stat_found w p mode : node w p = Some mode -> exists w', stat_done w p = (w', inr mode) /\ forall q, node w' q = node w q;
  stat_missing w absolute ns x : Forall valid_name ns -> valid_name x ->
    parts absolute ns = [] \/ is_directory <$> node w (text absolute ns) = Some true -> node w (text absolute (ns ++ [x])) = None ->
    exists w', stat_done w (text absolute (ns ++ [x])) = (w', inl (uv_code UV_ENOENT)) /\ forall q, node w' q = node w q;
  mkdir_missing w absolute ns x mode : Forall valid_name ns -> valid_name x -> Z.land mode 192 = 192 ->
    parts absolute ns = [] \/ is_directory <$> node w (text absolute ns) = Some true -> node w (text absolute (ns ++ [x])) = None ->
    exists w' m, mkdir_done w (text absolute (ns ++ [x])) mode = (w', 0) /\ is_directory m = true /\
      forall q, node w' q = if decide (q = text absolute (ns ++ [x])) then Some m else node w q
}.

End Laws.
Arguments DirLaws {uv} W {fs}.

(** ** One step *)

Section Steps.
Context {uv : UvErrno} {W : Type} {fs : DirFs W} {laws : DirLaws W}.
Implicit Types (w : W) (ns d r : list (list Z)) (x : list Z).

Lemma kind_bits mode : is_directory mode = true -> is_regular_file mode = false.
Proof. unfold is_directory, is_regular_file. rewrite Z.eqb_eq, Z.eqb_neq. by intros ->. Qed.

Lemma text_no_nul absolute ns : Forall valid_name ns -> 0 ∉ text absolute ns.
Proof.
  intros Hv. destruct (sub_names ns Hv) as (_ & _ & H0 & _). unfold text. rewrite not_elem_of_app. split; [|done].
  destruct absolute; [|by apply not_elem_of_nil]. unfold Path.root_element. rewrite list_elem_of_singleton. done.
Qed.

Lemma advance_elements fuel f1 f2 n it1 p it2 l r : Path.elements_from f2 p it2 = Ret l -> Path.elements_from f1 n it1 = Ret (l ++ r) -> (length l <= fuel)%nat ->
  exists it f, advance fuel n it1 p it2 = Ret it /\ Path.elements_from f n it = Ret r.
Proof.
  revert fuel f1 f2 it1 it2. induction l as [|e l IH]; intros fuel f1 f2 it1 it2 H2 H1 Hl.
  - apply elements_from_nil in H2. exists it1, f1. by destruct fuel; cbn; rewrite H2.
  - apply elements_from_inv in H2 as (E & _ & f2' & it2' & -> & Hi2 & H2). apply elements_from_inv in H1 as (_ & _ & f1' & it1' & -> & Hi1 & H1).
    destruct fuel as [|fuel]; [cbn in Hl; lia|]. cbn [advance]. rewrite E, Hi1. cbn [obind]. rewrite Hi2. cbn [obind].
    apply (IH fuel f1' f2'); [done|done|cbn in Hl; lia].
Qed.

Lemma next_path_ret absolute d r : Forall valid_name (d ++ r) -> exists p, next_path (text absolute (d ++ r)) (text absolute d) = Ret p /\
  forall x r', r = x :: r' -> p = text absolute (d ++ [x]).
Proof.
  intros Hv. pose proof Hv as [Hd Hr]%Forall_app. pose proof (Path.elements_spec (text absolute (d ++ r))) as H1.
  pose proof (Path.elements_spec (text absolute d)) as H2. rewrite text_elements in H1, H2 by done. unfold Path.elements in *.
  pose proof (Path.elements_from_length _ _ _ _ H2) as Hl. unfold parts in H1. rewrite app_assoc in H1.
  destruct (advance_elements (length (text absolute d)) _ _ _ _ _ _ _ _ H2 H1 Hl) as (it & f & Ha & He).
  unfold next_path. rewrite Ha. cbn [obind]. eexists. split; [done|]. intros x r' ->. apply elements_from_inv in He as (_ & -> & _).
  apply Forall_cons in Hr as [Hx _]. by apply text_snoc.
Qed.

Lemma text_first absolute ns : Forall valid_name ns -> parts absolute ns <> [] ->
  Path.m_element (Path.begin_ (text absolute ns)) = text absolute (if absolute then [] else take 1 ns).
Proof.
  intros Hv Hne. pose proof (Path.elements_spec (text absolute ns)) as H1. rewrite text_elements in H1 by done. unfold Path.elements, parts in *.
  destruct absolute; cbn [app] in *.
  - by apply elements_from_inv in H1 as (_ & -> & _).
  - destruct ns as [|x ns]; [done|]. apply elements_from_inv in H1 as (_ & -> & _). cbn. apply Forall_cons in Hv as [[Hx _] _].
    unfold text, sub. cbn. by rewrite append_empty.
Qed.

Lemma root_name_text absolute ns : Forall valid_name ns -> parts absolute ns <> [] -> Path.root_name (text absolute ns) = [].
Proof.
  intros Hv Hne. unfold Path.root_name. rewrite text_first by done. destruct absolute; [by rewrite andb_false_r|].
  destruct ns as [|x ns]; [done|]. apply Forall_cons in Hv as [Hx _]. cbn [take]. unfold text, sub. cbn [app foldl].
  rewrite append_empty by apply Hx. rewrite valid_no_sep by done. by rewrite !andb_false_r.
Qed.

Lemma root_directory_text absolute ns : Forall valid_name ns -> ns <> [] ->
  Path.root_directory (text absolute ns) = if absolute then Path.root_element else [].
Proof.
  intros Hv Hne. destruct (sub_names ns Hv) as (_ & _ & _ & Hs). destruct (Hs Hne) as [Hsne Hsep]. unfold Path.root_directory, Path.root_directory_start, text.
  destruct absolute; cbn [app].
  - assert (Path.sep_at (Path.root_element ++ sub ns) 1 = false) as -> by exact Hsep. by rewrite !andb_false_r.
  - rewrite Hsep. by rewrite !andb_false_r.
Qed.

Lemma make_dir_text w absolute ns mode : Forall valid_name ns -> ns <> [] ->
  make_dir_impl w (text absolute ns) mode = let '(w, result) := mkdir_done w (text absolute ns) mode in Ret (w, text absolute ns, Error_of_uv result).
Proof.
  intros Hv Hne. destruct (sub_names ns Hv) as (_ & _ & _ & Hs). destruct (Hs Hne) as [Hsne _].
  assert (text absolute ns <> []) as Htne by (by destruct absolute). assert (parts absolute ns <> []) as Hpne by (by destruct absolute, ns).
  unfold make_dir_impl. rewrite (proj2 (Nat.eqb_neq _ 0)) by by destruct (text absolute ns).
  rewrite root_name_text, root_directory_text, !Path.path_eqb_spec, text_elements by done. cbn [obind].
  rewrite (bool_decide_false (Path.spec_elements [] = _)) by by destruct absolute, ns.
  rewrite bool_decide_false by (by destruct absolute, ns). cbn [obind].
  by rewrite c_str_id, mkdir_accepted by by apply text_no_nul.
Qed.

Lemma text_size absolute d r : Forall valid_name (d ++ r) ->
  (length (text absolute d) =? length (text absolute (d ++ r)))%nat = bool_decide (r = []).
Proof.
  intros Hv. assert ((length (text absolute d) <= length (text absolute (d ++ r)))%nat /\ (r <> [] -> (length (text absolute d) < length (text absolute (d ++ r)))%nat)) as [_ Hlt].
  { induction r as [|x r IH] using rev_ind; [rewrite app_nil_r; by split|]. rewrite app_assoc in *. apply Forall_app in Hv as [Hv Hx].
    rewrite Forall_singleton in Hx. pose proof (text_longer absolute (d ++ r) x Hv Hx). destruct (IH Hv). split; [lia|]. intros _. lia. }
  destruct (decide (r = [])) as [->|Hne]; [by rewrite app_nil_r, Nat.eqb_refl|]. rewrite bool_decide_false by done. apply Nat.eqb_neq. specialize (Hlt Hne). lia.
Qed.

Lemma text_inj absolute ns1 ns2 : Forall valid_name ns1 -> Forall valid_name ns2 -> text absolute ns1 = text absolute ns2 -> ns1 = ns2.
Proof.
  intros H1 H2 E. assert (parts absolute ns1 = parts absolute ns2) as Hp by (by rewrite <- !text_elements, E). unfold parts in Hp. by apply app_inv_head in Hp.
Qed.

Definition is_dir w (p : list Z) : Prop := is_directory <$> node w p = Some true.

Lemma is_dir_node w p : is_dir w p -> exists mode, node w p = Some mode /\ is_directory mode = true.
Proof. unfold is_dir. destruct (node w p) as [mode|]; [|done]. intros [= E]. by exists mode. Qed.

Lemma stat_accepts w p : 0 ∉ p -> stat w p = match stat_done w p with
  | (w, inl result) => (w, p, Error_of_uv result, uninitialised) | (w, inr mode) => (w, p, Error_of_uv 0, mode) end.
Proof. intros H0. unfold stat. rewrite c_str_id, stat_accepted by done. by rewrite error_bool_of_uv. Qed.

Lemma enoent_code : code (Error_of_uv (uv_code UV_ENOENT)) = NO_SUCH_FILE_OR_DIRECTORY.
Proof.
  pose proof (uv_code_negative UV_ENOENT). unfold Error_of_uv. rewrite (proj2 (Z.ltb_lt _ _)) by done. cbn [code m_status_code].
  apply convert_from_uv_code. refine (bool_decide_unpack _ _). vm_compute. exact I.
Qed.

(** What follows when the directory [d] is there. *)
Definition continue fuel w absolute d r mode : outcome (W * list Z * Error) :=
  match r with
  | [] => Ret (w, text absolute d, Error_of_status OK)
  | x :: _ => on_stat fuel w (text absolute (d ++ r)) (text absolute (d ++ [x])) mode
  end.

Lemma continue_next fuel w absolute d r mode p : Forall valid_name (d ++ r) -> (forall x r', r = x :: r' -> p = text absolute (d ++ [x])) ->
  (if negb (length (text absolute d) =? length (text absolute (d ++ r)))%nat then on_stat fuel w (text absolute (d ++ r)) p mode
   else Ret (w, text absolute d, Error_of_status OK)) = continue fuel w absolute d r mode.
Proof.
  intros Hv Hp. rewrite text_size by done. destruct r as [|x r]; [done|]. rewrite bool_decide_false by done. cbn. by rewrite (Hp x r).
Qed.

Lemma on_stat_found fuel w absolute d r mode : Forall valid_name (d ++ r) -> is_dir w (text absolute d) -> exists w',
  on_stat (S fuel) w (text absolute (d ++ r)) (text absolute d) mode = continue fuel w' absolute d r mode /\ forall q, node w' q = node w q.
Proof.
  intros Hv Hd. pose proof Hv as [Hvd Hvr]%Forall_app. destruct (is_dir_node _ _ Hd) as (m & Hn & Hm).
  destruct (stat_found w _ m Hn) as (w' & Hst & Hsame). destruct (next_path_ret absolute d r Hv) as (p & Hnext & Hp).
  exists w'. split; [|done]. cbn [on_stat]. rewrite stat_accepts, Hst by by apply text_no_nul. rewrite Hnext. cbn [obind].
  rewrite error_bool_of_uv. cbn [code Error_of_uv]. rewrite bool_decide_false by done. change (0 <? 0) with false. rewrite kind_bits by done.
  by rewrite (continue_next fuel w' absolute d r mode p Hv Hp).
Qed.

Lemma on_stat_missing fuel w absolute d x r mode : Forall valid_name ((d ++ [x]) ++ r) -> Z.land mode 192 = 192 ->
  parts absolute d = [] \/ is_dir w (text absolute d) -> node w (text absolute (d ++ [x])) = None -> exists w',
  on_stat (S fuel) w (text absolute ((d ++ [x]) ++ r)) (text absolute (d ++ [x])) mode = continue fuel w' absolute (d ++ [x]) r mode /\
  is_dir w' (text absolute (d ++ [x])) /\ forall q, q <> text absolute (d ++ [x]) -> node w' q = node w q.
Proof.
  intros Hv Hmode Hpar Hn. pose proof Hv as [Hvdx Hvr]%Forall_app. pose proof Hvdx as [Hvd Hx]%Forall_app. rewrite Forall_singleton in Hx.
  destruct (stat_missing w absolute d x Hvd Hx Hpar Hn) as (w1 & Hst & Hsame).
  destruct (mkdir_missing w1 absolute d x mode Hvd Hx Hmode) as (w2 & m & Hmk & Hm & Hnode).
  { destruct Hpar as [Hpar|Hpar]; [by left|right]. by rewrite Hsame. }
  { by rewrite Hsame. }
  destruct (next_path_ret absolute (d ++ [x]) r Hv) as (p & Hnext & Hp). exists w2. split_and!.
  - cbn [on_stat]. rewrite stat_accepts, Hst by by apply text_no_nul. rewrite Hnext. cbn [obind]. rewrite enoent_code, bool_decide_true by done.
    rewrite make_dir_text, Hmk by (done || by destruct d). cbn [obind]. rewrite error_bool_of_uv. change (0 <? 0) with false.
    by rewrite (continue_next fuel w2 absolute (d ++ [x]) r mode p Hv Hp).
  - unfold is_dir. rewrite Hnode, decide_True by done. cbn. by rewrite Hm.
  - intros q Hq. rewrite Hnode, decide_False by done. apply Hsame.
Qed.

Lemma is_dir_same w w' p : node w' p = node w p -> is_dir w p -> is_dir w' p.
Proof. unfold is_dir. by intros ->. Qed.

(** The directories below one that is there are made one after the other, and nothing else changes. *)
Lemma continue_makes r fuel w absolute d mode : Forall valid_name (d ++ r) -> Z.land mode 192 = 192 -> (length r <= fuel)%nat ->
  parts absolute d = [] \/ is_dir w (text absolute d) ->
  (forall e, e `prefix_of` r -> e <> [] -> node w (text absolute (d ++ e)) = None \/ is_dir w (text absolute (d ++ e))) ->
  exists w', continue fuel w absolute d r mode = Ret (w', text absolute (d ++ r), Error_of_status OK) /\
    (forall e, e `prefix_of` r -> e <> [] -> is_dir w' (text absolute (d ++ e))) /\
    (forall q, (forall e, e `prefix_of` r -> e <> [] -> q = text absolute (d ++ e) -> node w q <> None) -> node w' q = node w q).
Proof.
  revert fuel w d. induction r as [|x r IH]; intros fuel w d Hv Hmode Hf Hpar Hpre.
  { exists w. rewrite app_nil_r. split_and!; [done| |done]. intros e He Hne. by apply prefix_nil_inv in He. }
  destruct fuel as [|fuel]; [cbn in Hf; lia|]. cbn [continue]. cbn [length] in Hf.
  rewrite (cons_middle x d r), app_assoc in *. pose proof Hv as [Hvdx _]%Forall_app.
  assert (exists w1, on_stat (S fuel) w (text absolute ((d ++ [x]) ++ r)) (text absolute (d ++ [x])) mode = continue fuel w1 absolute (d ++ [x]) r mode /\
    is_dir w1 (text absolute (d ++ [x])) /\ forall q, (q = text absolute (d ++ [x]) -> node w q <> None) -> node w1 q = node w q) as (w1 & -> & Hd & Hsame).
  { destruct (Hpre [x]) as [Hx|Hx]; [by apply prefix_cons, prefix_nil|done|..].
    - destruct (on_stat_missing fuel w absolute d x r mode Hv Hmode Hpar Hx) as (w1 & E & Hd & Hsame). exists w1. split_and!; [done|done|].
      intros q Hq. apply Hsame. intros ->. by apply Hq.
    - destruct (on_stat_found fuel w absolute (d ++ [x]) r mode Hv Hx) as (w1 & E & Hsame). exists w1. split_and!; [done|by apply (is_dir_same w)|]. intros q _. apply Hsame. }
  assert (forall e, e `prefix_of` r -> e <> [] -> node w1 (text absolute ((d ++ [x]) ++ e)) = node w (text absolute ((d ++ [x]) ++ e))) as Hbelow.
  { intros e [r' ->] Hne. apply Hsame. intros E. rewrite app_assoc in Hv. apply Forall_app in Hv as [Hve _]. apply text_inj in E; [|done|done].
    apply (f_equal length) in E. rewrite length_app in E. destruct e; [done|cbn in E; lia]. }
  destruct (IH fuel w1 (d ++ [x]) Hv Hmode ltac:(lia) (or_intror Hd)) as (w2 & -> & Hall & Hrest).
  { intros e He Hne. rewrite Hbelow by done. destruct (Hpre (x :: e)) as [Hn|Hn]; [by apply prefix_cons|done|..]; rewrite (cons_middle x d e), app_assoc in Hn; [by left|].
    right. apply (is_dir_same w); [by apply Hbelow|done]. }
  exists w2. split_and!; [done| |].
  - intros [|y e] He Hne; [done|]. pose proof (prefix_cons_inv_1 _ _ _ _ He) as ->. apply prefix_cons_inv_2 in He.
    destruct (decide (e = [])) as [->|Hne']; [|rewrite (cons_middle x d e), app_assoc; by apply Hall].
    apply (is_dir_same w1); [|done]. apply Hrest. intros e [r' ->] Hne' E. rewrite app_assoc in Hv. apply Forall_app in Hv as [Hve _].
    apply text_inj in E; [|done|done]. apply (f_equal length) in E. rewrite !length_app in E. destruct e; [done|cbn in E; lia].
  - intros q Hq. assert (node w1 q = node w q) as E. { apply Hsame. intros ->. apply (Hq [x]); [by apply prefix_cons, prefix_nil|done|done]. }
    rewrite <- E. apply Hrest. intros e He Hne Hqe. rewrite E. apply (Hq (x :: e)); [by apply prefix_cons|done|by rewrite (cons_middle x d e), app_assoc].
Qed.

(** A file in the way is found when the directories above it are there. *)
Lemma continue_stops r fuel w absolute d x r' mode m : Forall valid_name (d ++ r ++ x :: r') -> (length r < fuel)%nat ->
  (forall e, e `prefix_of` r -> e <> [] -> is_dir w (text absolute (d ++ e))) ->
  node w (text absolute (d ++ r ++ [x])) = Some m -> is_regular_file m = true ->
  exists w', continue fuel w absolute d (r ++ x :: r') mode =
    Ret (w', text absolute (d ++ r ++ [x]), Error_with_info NOT_A_DIRECTORY (path_string (text absolute (d ++ r ++ [x])))) /\
    forall q, node w' q = node w q.
Proof.
  revert fuel w d. induction r as [|y r IH]; intros fuel w d Hv Hf Hdirs Hm Hreg.
  - destruct fuel as [|fuel]; [lia|]. destruct (stat_found w _ m Hm) as (w' & Hst & Hsame). exists w'. split; [|done].
    cbn [app continue] in *. rewrite (cons_middle x d r'), app_assoc in *. destruct (next_path_ret absolute (d ++ [x]) r' Hv) as (p & Hnext & _).
    apply Forall_app in Hv as [Hv _]. cbn [on_stat]. rewrite stat_accepts, Hst by by apply text_no_nul. rewrite Hnext. cbn [obind].
    rewrite error_bool_of_uv. cbn [code Error_of_uv]. rewrite bool_decide_false by done. change (0 <? 0) with false. by rewrite Hreg.
  - destruct fuel as [|fuel]; [cbn in Hf; lia|]. cbn [app continue length] in *.
    assert (forall l, d ++ y :: l = (d ++ [y]) ++ l) as Hassoc by (intros l; by rewrite <- app_assoc). rewrite (Hassoc (r ++ x :: r')) in Hv |- *.
    rewrite (Hassoc (r ++ [x])) in Hm |- *.
    destruct (on_stat_found fuel w absolute (d ++ [y]) (r ++ x :: r') mode Hv) as (w1 & -> & Hsame); [by apply Hdirs; [apply prefix_cons, prefix_nil|]|].
    destruct (IH fuel w1 (d ++ [y]) Hv ltac:(lia)) as (w2 & -> & Hsame2); [|by rewrite Hsame|done|].
    + intros e He Hne. apply (is_dir_same w); [apply Hsame|]. rewrite <- app_assoc. by apply Hdirs; [apply prefix_cons|].
    + exists w2. split; [done|]. intros q. by rewrite Hsame2.
Qed.

Lemma make_all_dirs_continue w absolute ns mode fuel : Forall valid_name ns -> Forall plain ns -> parts absolute ns <> [] -> (absolute = true -> is_dir w (text true [])) ->
  exists w', make_all_dirs_impl (length (if absolute then [Path.root_element] else []) + fuel) w (text absolute ns) mode = continue fuel w' absolute [] ns mode /\
    forall q, node w' q = node w q.
Proof.
  intros Hv Hp Hne Hroot. assert (text absolute ns <> []) as Htne.
  { destruct absolute; [done|]. by apply (sub_names ns Hv). }
  unfold make_all_dirs_impl. rewrite (proj2 (Nat.eqb_neq _ 0)) by by destruct (text absolute ns). rewrite lexically_normal_plain by done. cbn [obind].
  rewrite text_first by done. destruct absolute; cbn [length Nat.add].
  - apply (on_stat_found fuel w true [] ns mode); [done|by apply Hroot].
  - exists w. split; [|done]. by destruct ns.
Qed.

(** C27. [make_all_dirs] makes a path of names that is relative, or absolute with a root that is there, when each directory on the way
    is missing or is a directory: it reports success for the path, afterwards the path and all directories above it are there, and nothing
    that was there before, and nothing outside the path, has changed.  One request per directory is enough. *)
Theorem make_all_dirs_makes_all w absolute ns mode fuel :
  Forall valid_name ns -> Forall plain ns -> parts absolute ns <> [] -> Z.land mode 192 = 192 -> (length (parts absolute ns) <= fuel)%nat ->
  (absolute = true -> is_dir w (text true [])) ->
  (forall d, d `prefix_of` ns -> d <> [] -> node w (text absolute d) = None \/ is_dir w (text absolute d)) ->
  exists w', make_all_dirs_impl fuel w (text absolute ns) mode = Ret (w', text absolute ns, Error_of_status OK) /\
    (forall d, d `prefix_of` ns -> d <> [] -> is_dir w' (text absolute d)) /\
    (forall q, (forall d, d `prefix_of` ns -> d <> [] -> q = text absolute d -> node w q <> None) -> node w' q = node w q).
Proof.
  intros Hv Hp Hne Hmode Hf Hroot Hpre. unfold parts in Hf. rewrite length_app in Hf.
  set (n := length (if absolute then [Path.root_element] else [])) in *. replace fuel with (n + (fuel - n))%nat by lia.
  destruct (make_all_dirs_continue w absolute ns mode (fuel - n) Hv Hp Hne Hroot) as (w1 & Hmk & Hsame). fold n in Hmk. rewrite Hmk.
  destruct (continue_makes ns (fuel - n) w1 absolute [] mode Hv Hmode ltac:(lia)) as (w2 & Hc & Hall & Hrest).
  - destruct absolute; [right|by left]. apply (is_dir_same w); [apply Hsame|by apply Hroot].
  - intros e He Hee. unfold is_dir. rewrite Hsame. by apply Hpre.
  - exists w2. split_and!; [exact Hc|exact Hall|]. intros q Hq. rewrite <- Hsame. apply Hrest. intros d Hd Hde. rewrite Hsame. by apply Hq.
Qed.

(** A regular file in the place of one of the directories stops [make_all_dirs]: it is reported as NOT_A_DIRECTORY with its path, and
    nothing has been made. *)
Theorem make_all_dirs_stops_at_file w absolute ns x r mode fuel m :
  Forall valid_name (ns ++ x :: r) -> Forall plain (ns ++ x :: r) -> (length (parts absolute ns) < fuel)%nat ->
  (absolute = true -> is_dir w (text true [])) ->
  (forall d, d `prefix_of` ns -> d <> [] -> is_dir w (text absolute d)) ->
  node w (text absolute (ns ++ [x])) = Some m -> is_regular_file m = true ->
  exists w', make_all_dirs_impl fuel w (text absolute (ns ++ x :: r)) mode =
    Ret (w', text absolute (ns ++ [x]), Error_with_info NOT_A_DIRECTORY (path_string (text absolute (ns ++ [x])))) /\
    forall q, node w' q = node w q.
Proof.
  intros Hv Hp Hf Hroot Hpre Hm Hreg. unfold parts in Hf. rewrite length_app in Hf.
  set (n := length (if absolute then [Path.root_element] else [])) in *. replace fuel with (n + (fuel - n))%nat by lia.
  destruct (make_all_dirs_continue w absolute (ns ++ x :: r) mode (fuel - n) Hv Hp) as (w1 & Hmk & Hsame); [by destruct absolute, ns|done|]. fold n in Hmk. rewrite Hmk.
  destruct (continue_stops ns (fuel - n) w1 absolute [] x r mode m Hv ltac:(lia)) as (w2 & Hc & Hsame2).
  - intros e He Hee. apply (is_dir_same w); [apply Hsame|by apply Hpre].
  - by rewrite Hsame.
  - done.
  - exists w2. split; [exact Hc|]. intros q. by rewrite Hsame2.
Qed.

End Steps.

(** No file is of two kinds. *)
Theorem kinds_exclusive mode i j f g : kinds !! i = Some f -> kinds !! j = Some g -> f mode = true -> g mode = true -> i = j.
Proof.
  intros Hi Hj Hf Hg.
  destruct i as [|[|[|[|[|[|[|]]]]]]]; try done; injection Hi as <-; apply Z.eqb_eq in Hf;
    destruct j as [|[|[|[|[|[|[|]]]]]]]; try done; injection Hj as <-; apply Z.eqb_eq in Hg; rewrite Hf in Hg; done.
Qed.

(** ** A concrete file system *)

Section Disk.
#[local] Existing Instance UvFallback.

Definition disk : Type := gmap (list Z) Z.

#[local] Instance disk_dirs : DirFs disk := {
  uv_fs_stat _ _ := 0;
  stat_done d p := (d, match d !! p with Some mode => inr mode | None => inl (uv_code UV_ENOENT) end);
  uv_fs_mkdir _ _ _ := 0;
  mkdir_done d p mode := match d !! p with
    | Some _ => (d, uv_code UV_EEXIST)
    | None => (<[p := Z.lor S_IFDIR (Z.land mode 511)]> d, 0)
    end;
  uninitialised := 0
}.

Lemma new_dir_mode mode : is_directory (Z.lor S_IFDIR (Z.land mode 511)) = true.
Proof. apply Z.eqb_eq. rewrite Z.land_lor_distr_l, <- Z.land_assoc. change (Z.land 511 S_IFMT) with 0. by rewrite Z.land_0_r. Qed.

#[local] Program Instance disk_laws : DirLaws disk := { node d p := d !! p }.
Next Obligation. done. Qed.
Next Obligation. done. Qed.
Next Obligation. intros d p mode Hp. exists d. cbn. by rewrite Hp. Qed.
Next Obligation. intros d absolute ns x _ _ _ Hn. exists d. cbn. by rewrite Hn. Qed.
Next Obligation.
  intros d absolute ns x mode _ _ _ _ Hn. cbn. rewrite Hn. eexists _, _. split; [done|]. split; [apply new_dir_mode|]. intros q.
  destruct (decide (q = text absolute (ns ++ [x]))) as [->|Hq].
  - apply (lookup_insert_eq (M := gmap (list Z))).
  - by apply (lookup_insert_ne (M := gmap (list Z))).
Qed.

#[local] Instance valid_decide x : Decision (valid_name x).
Proof. unfold valid_name, Path.clean. apply _. Defined.
#[local] Instance plain_decide x : Decision (plain x).
Proof. unfold plain. apply _. Defined.

Definition root_only : disk := {[ chars "/" := S_IFDIR ]}.

Lemma make_all_dirs_makes_all_witness :
  exists d : disk, make_all_dirs_impl 4 root_only (chars "/a/b/c") 511 = Ret (d, chars "/a/b/c", Error_of_status OK) /\ is_dir d (chars "/a/b").
Proof.
  destruct (make_all_dirs_makes_all root_only true [chars "a"; chars "b"; chars "c"] 511 4) as (d & Hd & Hall & _).
  - apply (bool_decide_unpack _). vm_compute. exact I.
  - apply (bool_decide_unpack _). vm_compute. exact I.
  - done.
  - reflexivity.
  - cbn. lia.
  - intros _. vm_compute. reflexivity.
  - intros e [k He] Hne. left. destruct e as [|e1 [|e2 [|e3 [|]]]]; cbn in He; simplify_eq; vm_compute; reflexivity.
  - exists d. split; [exact Hd|]. apply (Hall [chars "a"; chars "b"]); [by exists [chars "c"]|done].
Defined.

Definition with_file : disk := <[chars "a" := S_IFDIR]> {[ chars "a/b" := S_IFREG ]}.

Lemma make_all_dirs_stops_at_file_witness :
  exists d : disk, make_all_dirs_impl 2 with_file (chars "a/b/c") 511 = Ret (d, chars "a/b", Error_with_info NOT_A_DIRECTORY "a/b") /\
    node d (chars "a/b/c") = None.
Proof.
  destruct (make_all_dirs_stops_at_file with_file false [chars "a"] (chars "b") [chars "c"] 511 2 S_IFREG) as (d & Hd & Hsame).
  - apply (bool_decide_unpack _). vm_compute. exact I.
  - apply (bool_decide_unpack _). vm_compute. exact I.
  - cbn. lia.
  - done.
  - intros e [k He] Hne. destruct e as [|e1 [|]]; cbn in He; simplify_eq. vm_compute. reflexivity.
  - vm_compute. reflexivity.
  - reflexivity.
  - exists d. split; [exact Hd|]. rewrite Hsame. vm_compute. reflexivity.
Defined.

(** A path that is not in normal form: the directories are counted along the normal form, but the first is that of the path
    itself.  For ["a/../b"] the directory ["a"] is made, ["b"] is not, and success is reported. *)
Example dotted_path_makes_other_directory :
  make_all_dirs_impl 10 (∅ : disk) (chars "a/../b") 511 = Ret ({[ chars "a" := Z.lor S_IFDIR 511 ]}, chars "a", Error_of_status OK).
Proof. vm_compute. reflexivity. Qed.

End Disk.

End MakeDirs.
