(* ===== verification/Dir.v ===== *)
(** * fs::Dir

    The class [Dir] of [source/io/fs/Dir.cpp] with [fs/detail/FsCommon.h]; the functions on directories are in [DirTree] and [MakeDirs].

    Callbacks are numbered.  [user] is what user code does in a callback, from the state at the call to the state when it returns.  Close callbacks may
    also be the library's own: [Reopen] of [detail::open] and [RemoveDir] of [schedule_removal].  [scheduled] are the callbacks waiting for the loop.
    A [uv_dir_t] is a number; libuv has allocated those in [open_dirs]. *)

From S2P Require Import Prelude StatusCode.
Local Open Scope outcome_scope.
Local Open Scope record_scope.

Module Dir.

Inductive State := INITIAL | OPENING | OPENED | WANTCLOSE | CLOSING | CLOSED.

#[global] Instance state_eq_dec : EqDecision State.
Proof. solve_decision. Defined.

Inductive DirectoryEntryType := UNKNOWN | FILE | DIR | LINK | FIFO | SOCKET | CHAR | BLOCK.
Inductive uv_dirent_type_t :=
| UV_DIRENT_UNKNOWN | UV_DIRENT_FILE | UV_DIRENT_DIR | UV_DIRENT_LINK | UV_DIRENT_FIFO | UV_DIRENT_SOCKET | UV_DIRENT_CHAR | UV_DIRENT_BLOCK.

Definition convert_direntry_type (type : uv_dirent_type_t) : DirectoryEntryType :=
  match type with
  | UV_DIRENT_FILE => FILE
  | UV_DIRENT_DIR => DIR
  | UV_DIRENT_LINK => LINK
  | UV_DIRENT_FIFO => FIFO
  | UV_DIRENT_SOCKET => SOCKET
  | UV_DIRENT_CHAR => CHAR
  | UV_DIRENT_BLOCK => BLOCK
  | UV_DIRENT_UNKNOWN => UNKNOWN
  end.

(** [ReadDirRequest], for one of the two kinds of list callbacks; [ptr] is its directory. *)
Record ReadDirRequest := mkRead {
  with_continuation : bool;
  list_callback : option nat;
  end_list_callback : option nat;
  ptr : nat
}.

Inductive CloseCallback :=
| NoCallback
| UserClose (callback : nat)
| Reopen (path : list Z) (callback : option nat)
| RemoveDir.

Inductive Scheduled :=
| OpenAgain (path : list Z) (callback : option nat)
| CloseAgain (callback : CloseCallback)
| EndList (callback : nat) (error : Error).

Inductive Event :=
| OpenCalled (callback : nat) (error : Error)
| EntryCalled (callback : nat) (name : list Z) (type : DirectoryEntryType)
| EndListCalled (callback : nat) (error : Error)
| CloseCalled (callback : nat) (error : Error).

Record t := mk {
  m_open_callback : option nat;
  m_path : list Z;
  (** [m_open_dir_req.ptr]. *)
  m_open_dir_ptr : option nat;
  m_read_request : option ReadDirRequest;
  m_uv_dir : option nat;
  m_state : State;
  (** [m_proceed] of the continuation that the list callback is given. *)
  m_proceed : bool;
  removal_scheduled : bool;
  (** How often [Removable::schedule_removal] was called, and whether the object has been deleted. *)
  removals : nat;
  deleted : bool;
  (** What libuv is doing: opening, reading, closing directories. *)
  opening : bool;
  reading : bool;
  close_requests : list (CloseCallback * nat);
  open_dirs : gset nat;
  scheduled : list Scheduled;
  events : list Event
}.

#[global] Instance t_settable : Settable t :=
  settable! mk < m_open_callback; m_path; m_open_dir_ptr; m_read_request; m_uv_dir; m_state; m_proceed; removal_scheduled; removals; deleted; opening; reading;
                 close_requests; open_dirs; scheduled; events >.

Definition create : t := mk None [] None None None INITIAL true false 0 false false false [] ∅ [] [].

Definition schedule_callback (s : t) (c : Scheduled) : t := s <| scheduled ::= fun l => l ++ [c] |>.

Definition path (s : t) : list Z := m_path s.
Definition is_open (s : t) : bool := match m_uv_dir s with Some _ => true | None => false end.

(** [Continuation::stop] and [Continuation::proceed]. *)
Definition stop (s : t) : t := s <| m_proceed := false |>.
Definition proceed (s : t) : bool := m_proceed s.

Section Operations.
Context {uv : UvErrno}.
Variable user : Event -> t -> outcome t.

Definition call (s : t) (e : Event) : outcome t := user e (s <| events ::= fun l => l ++ [e] |>).
Definition call_end_list (s : t) (callback : option nat) (error : Error) : outcome t :=
  match callback with Some n => call s (EndListCalled n error) | None => Ret s end.

(** [close] and [schedule_removal], which the close callback [RemoveDir] calls; [fuel] bounds how deep they call each other. *)
Fixpoint close (fuel : nat) (s : t) (callback : CloseCallback) : outcome t :=
  if negb (is_open s) then Ret s
  else match m_read_request s with
  | Some _ => Ret (schedule_callback (s <| m_state := WANTCLOSE |>) (CloseAgain callback))
  | None =>
      if bool_decide (m_state s = CLOSING) then
        match callback with
        | NoCallback => Ret s
        | UserClose n => call s (CloseCalled n (Error_of_status OPERATION_ALREADY_IN_PROGRESS))
        | Reopen _ (Some n) => call s (OpenCalled n (Error_of_status OPERATION_ALREADY_IN_PROGRESS))
        | Reopen _ None => Ret s
        | RemoveDir =>
            let s := s <| removal_scheduled := true |> in
            match fuel with O => Fault FuelExhausted | S fuel => close fuel s RemoveDir end
        end
      else
        let dir := m_open_dir_ptr s in
        let s := s <| m_state := CLOSING |> <| m_open_dir_ptr := None |> in
        (** Without a directory [uv_fs_closedir] refuses, which is not noticed. *)
        match dir with Some d => Ret (s <| close_requests ::= fun l => l ++ [(callback, d)] |>) | None => Ret s end
  end.

(** [Dir::schedule_removal] with [Impl::schedule_removal]. *)
Definition schedule_removal (fuel : nat) (s : t) : outcome t :=
  let s := s <| removal_scheduled := true |> in
  if is_open s then close fuel s RemoveDir else Ret (s <| removals ::= S |>).

(** A close callback, when the directory has been closed. *)
Definition run_close_callback (fuel : nat) (s : t) (callback : CloseCallback) (error : Error) : outcome t :=
  match callback with
  | NoCallback => Ret s
  | UserClose n => call s (CloseCalled n error)
  | Reopen path callback =>
      if error_bool error then match callback with Some n => call s (OpenCalled n error) | None => Ret s end
      else Ret (schedule_callback s (OpenAgain path callback))
  | RemoveDir => schedule_removal fuel s
  end.

Definition open (fuel : nat) (s : t) (path : list Z) (callback : option nat) : outcome t :=
  match m_state s with
  | OPENED => close fuel s (Reopen path callback)
  | OPENING | WANTCLOSE | CLOSING => Ret (schedule_callback s (OpenAgain path callback))
  | INITIAL | CLOSED =>
      Ret (s <| m_path := path |> <| m_open_callback := callback |> <| m_state := OPENING |> <| opening := true |>)
  end.

(** [list]; [uv_status] is the result of [uv_fs_readdir]. *)
Definition list_entries (s : t) (with_continuation : bool) (list_callback end_list_callback : option nat) (uv_status : Z) : outcome t :=
  match m_uv_dir s with
  | None => Ret (match end_list_callback with Some n => schedule_callback s (EndList n (Error_of_status DIR_NOT_OPEN)) | None => s end)
  | Some d =>
      match m_read_request s with
      | Some _ => call_end_list s end_list_callback (Error_of_status OPERATION_ALREADY_IN_PROGRESS)
      | None =>
          let s := s <| m_read_request := Some (mkRead with_continuation list_callback end_list_callback d) |> in
          let read_dir_error := Error_of_uv uv_status in
          if error_bool read_dir_error then
            Ret (match end_list_callback with Some n => schedule_callback s (EndList n read_dir_error) | None => s end)
          else Ret (s <| reading := true |>)
      end
  end.

(** ** The callbacks of libuv *)

(** [on_open_dir]; [dir] is the directory that libuv has opened. *)
Definition on_open_dir (s : t) (result : Z) (dir : nat) : outcome t :=
  check negb (deleted s) else UseAfterFree in
  let s := s <| opening := false |> in
  let error := Error_of_uv result in
  let s := if error_bool error then s <| m_open_dir_ptr := None |>
           else s <| open_dirs ::= fun l => {[dir]} ∪ l |> <| m_open_dir_ptr := Some dir |> <| m_uv_dir := Some dir |> in
  let s := s <| m_state := OPENED |> in
  let* s := match m_open_callback s with Some n => call s (OpenCalled n error) | None => Ret s end in
  Ret (if error_bool error then s <| m_path := [] |> else s).

(** The end of a listing. *)
Definition end_listing (s : t) (request : ReadDirRequest) (result : Z) : outcome t :=
  call_end_list (s <| m_read_request := None |>) (end_list_callback request) (Error_of_uv result).

(** [uv_fs_readdir] for the next entry. *)
Definition read_next (s : t) (request : ReadDirRequest) : outcome t :=
  check bool_decide (ptr request ∈ open_dirs s) else UseAfterFree in Ret (s <| reading := true |>).

Definition on_read_dir_no_continuation (s : t) (request : ReadDirRequest) (result : Z) (name : list Z) (type : uv_dirent_type_t) : outcome t :=
  if result <=? 0 then end_listing s request result
  else
    let* s := match list_callback request with Some n => call s (EntryCalled n name (convert_direntry_type type)) | None => Ret s end in
    if negb (bool_decide (m_state s = WANTCLOSE)) then read_next s request else end_listing s request result.

Definition on_read_dir_with_continuation (s : t) (request : ReadDirRequest) (result : Z) (name : list Z) (type : uv_dirent_type_t) : outcome t :=
  if result <=? 0 then end_listing s request result
  else
    let s := s <| m_proceed := true |> in
    let* s := match list_callback request with Some n => call s (EntryCalled n name (convert_direntry_type type)) | None => Ret s end in
    if negb (proceed s) then end_listing s request result else read_next s request.

Definition on_read_dir (s : t) (result : Z) (name : list Z) (type : uv_dirent_type_t) : outcome t :=
  check negb (deleted s) else UseAfterFree in
  match m_read_request s with
  | None => Ret s
  | Some request =>
      let s := s <| reading := false |> in
      if with_continuation request then on_read_dir_with_continuation s request result name type else on_read_dir_no_continuation s request result name type
  end.

Definition on_close_dir (fuel : nat) (s : t) (result : Z) : outcome t :=
  check negb (deleted s) else UseAfterFree in
  match close_requests s with
  | [] => Ret s
  | (callback, d) :: l =>
      let s := s <| close_requests := l |> <| open_dirs ::= fun o => o ∖ {[d]} |> in
      let s := s <| m_uv_dir := None |> <| m_path := [] |> <| m_state := CLOSED |> in
      run_close_callback fuel s callback (Error_of_uv result)
  end.

(** The loop runs a scheduled callback. *)
Definition run_scheduled (fuel : nat) (s : t) : outcome t :=
  match scheduled s with
  | [] => Ret s
  | c :: l =>
      check negb (deleted s) else UseAfterFree in
      let s := s <| scheduled := l |> in
      match c with
      | OpenAgain path callback => open fuel s path callback
      | CloseAgain callback => close fuel s callback
      | EndList n error => call s (EndListCalled n error)
      end
  end.

(** The object is deleted; its destructor tests that no listing is left. *)
Definition on_delete (s : t) : outcome t :=
  check negb (deleted s) else UseAfterFree in
  match m_read_request s with Some _ => Fault AssertFailed | None => Ret (s <| deleted := true |>) end.

End Operations.

(** ** Listing *)

Section Listing.
Context {uv : UvErrno}.
Variable user : Event -> t -> outcome t.
(** The entries at which user code stops a listing with a continuation. *)
Variable stops : list Z -> bool.
Implicit Types s : t.

(** What callbacks leave alone during a listing. *)
Record listening s s' : Prop := {
  l_state : m_state s' = m_state s;
  l_request : m_read_request s' = m_read_request s;
  l_reading : reading s' = reading s;
  l_dirs : open_dirs s' = open_dirs s;
  l_deleted : deleted s' = deleted s;
  l_events : events s' = events s
}.

Hypothesis user_listens : forall e s, returns (user e s) (fun s' => listening s s' /\ match e with EntryCalled _ name _ => m_proceed s' = negb (stops name) | _ => True end).

(** libuv reads the entries one after the other while it is asked to, and then finds no more. *)
Fixpoint read_entries s (l : list (list Z * uv_dirent_type_t)) : outcome t :=
  match l with
  | [] => on_read_dir user s 0 [] UV_DIRENT_UNKNOWN
  | (name, type) :: l => let* s := on_read_dir user s 1 name type in if reading s then read_entries s l else Ret s
  end.

(** The entries up to the first at which the listing is stopped. *)
Fixpoint until_stopped (l : list (list Z * uv_dirent_type_t)) : list (list Z * uv_dirent_type_t) :=
  match l with [] => [] | (name, type) :: l => (name, type) :: if stops name then [] else until_stopped l end.

Definition entry_calls (a : nat) (l : list (list Z * uv_dirent_type_t)) : list Event := map (fun '(name, type) => EntryCalled a name (convert_direntry_type type)) l.

(** A listing goes on. *)
Record listing (r : ReadDirRequest) s : Prop := {
  li_request : m_read_request s = Some r;
  li_reading : reading s = true;
  li_dir : ptr r ∈ open_dirs s;
  li_alive : deleted s = false;
  li_state : m_state s <> WANTCLOSE
}.

(** What the end of a listing leaves. *)
Definition listed s (l : list Event) s' : Prop :=
  events s' = events s ++ l /\ m_read_request s' = None /\ reading s' = false /\ open_dirs s' = open_dirs s /\ m_state s' = m_state s.

Lemma end_listing_ok r s b result : end_list_callback r = Some b -> reading s = false ->
  returns (end_listing user s r result) (listed s [EndListCalled b (Error_of_uv result)]).
Proof.
  intros Hb Hr. unfold end_listing, call_end_list. rewrite Hb. unfold call. eapply returns_mono; [apply user_listens|]. intros s' [[A1 A2 A3 A4 A5 A6] _]. cbn in *. split_and!; congruence.
Qed.

(** One entry. *)
Lemma read_one r s a b name type : listing r s -> list_callback r = Some a -> end_list_callback r = Some b ->
  returns (on_read_dir user s 1 name type) (fun s' =>
    if with_continuation r && stops name then listed s (entry_calls a [(name, type)] ++ [EndListCalled b (Error_of_uv 1)]) s'
    else listing r s' /\ events s' = events s ++ entry_calls a [(name, type)] /\ open_dirs s' = open_dirs s /\ m_state s' = m_state s).
Proof.
  intros [H1 H2 H3 H4 H5] Ha Hb. unfold on_read_dir. rewrite H4, H1. cbn [negb]. destruct (with_continuation r); cbn [andb].
  - unfold on_read_dir_with_continuation. cbn [Z.leb Z.compare]. change (1 <=? 0) with false. cbn iota. rewrite Ha. unfold call.
    eapply returns_bind; [apply user_listens|]. intros s1 [[A1 A2 A3 A4 A5 A6] Hp]. unfold proceed. cbn in *. rewrite Hp, negb_involutive. destruct (stops name).
    + eapply returns_mono; [by apply end_listing_ok|]. intros s' (B1 & B2 & B3 & B4 & B5). split_and!; try congruence. rewrite B1, A6. by rewrite <- app_assoc.
    + unfold read_next. rewrite bool_decide_true by (by rewrite A4). cbn. split; [|by split_and!]. split; cbn; [congruence|done|by rewrite A4|congruence|congruence].
  - unfold on_read_dir_no_continuation. change (1 <=? 0) with false. cbn iota. rewrite Ha. unfold call. eapply returns_bind; [apply user_listens|].
    intros s1 [[A1 A2 A3 A4 A5 A6] Hp]. cbn in *. rewrite bool_decide_false by congruence. cbn [negb]. unfold read_next. rewrite bool_decide_true by (by rewrite A4).
    cbn. split; [|by split_and!]. split; cbn; [congruence|done|by rewrite A4|congruence|congruence].
Qed.

Lemma entries_listed r l s a b : listing r s -> list_callback r = Some a -> end_list_callback r = Some b ->
  returns (read_entries s l) (listed s (entry_calls a (if with_continuation r then until_stopped l else l) ++ [EndListCalled b (Error_of_uv 0)])).
Proof.
  intros Hs Ha Hb. revert s Hs. induction l as [|[name type] l IH]; intros s Hs; cbn [read_entries].
  - destruct Hs as [H1 H2 H3 H4 H5]. unfold on_read_dir. rewrite H4, H1. cbn [negb].
    assert (returns (end_listing user (s <| reading := false |>) r 0) (listed s ([EndListCalled b (Error_of_uv 0)]))) as He.
    { eapply returns_mono; [by apply end_listing_ok|]. intros s' (B1 & B2 & B3 & B4 & B5). by split_and!. }
    by destruct (with_continuation r).
  - eapply returns_bind; [by apply read_one|]. cbn beta. intros s1 H. destruct (with_continuation r) eqn:Ec; cbn [andb] in H.
    + cbn [until_stopped]. destruct (stops name).
      * destruct H as (B1 & B2 & B3 & B4 & B5). rewrite B3. apply returns_ret. by split_and!.
      * destruct H as (Hs1 & B1 & B2 & B3). rewrite (li_reading _ _ Hs1). eapply returns_mono; [by apply IH|]. intros s' (C1 & C2 & C3 & C4 & C5).
        split_and!; try congruence. rewrite C1, B1. cbn. by rewrite <- app_assoc.
    + destruct H as (Hs1 & B1 & B2 & B3). rewrite (li_reading _ _ Hs1). eapply returns_mono; [by apply IH|]. intros s' (C1 & C2 & C3 & C4 & C5).
      split_and!; try congruence. rewrite C1, B1. cbn. by rewrite <- app_assoc.
Qed.

(** C17. A listing of an open directory calls the list callback once for every entry, in the order in which the system returns them and with its type, and then the end callback once, without
    an error; a listing with a continuation ends after the first entry at which user code stops it; and afterwards the directory can be listed again. *)
Theorem dir_listed s d l with_cont a b uv_status : m_uv_dir s = Some d -> d ∈ open_dirs s -> m_read_request s = None -> m_state s = OPENED -> deleted s = false -> 0 <= uv_status ->
  returns (let* s := list_entries user s with_cont (Some a) (Some b) uv_status in read_entries s l) (fun s' =>
    events s' = events s ++ entry_calls a (if with_cont then until_stopped l else l) ++ [EndListCalled b (Error_of_uv 0)] /\
    m_read_request s' = None /\ reading s' = false /\ open_dirs s' = open_dirs s /\ m_state s' = OPENED).
Proof.
  intros Hd Hin Hr Hst Hdel Hu. unfold list_entries. rewrite Hd, Hr. assert (error_bool (Error_of_uv uv_status) = false) as ->.
  { unfold Error_of_uv. by rewrite (proj2 (Z.ltb_ge _ _)). }
  cbn [obind]. set (r := mkRead with_cont (Some a) (Some b) d).
  eapply returns_mono; [apply (entries_listed r l _ a b); [|done|done]|].
  - split; cbn; try done. by rewrite Hst.
  - intros s' (B1 & B2 & B3 & B4 & B5). split_and!; [exact B1|done|done|done|]. etransitivity; [exact B5|exact Hst].
Qed.

End Listing.

(** ** The life of a directory *)

Definition reopens (c : CloseCallback) : bool := match c with Reopen _ _ => true | _ => false end.
Definition removes (c : CloseCallback) : bool := match c with RemoveDir => true | _ => false end.
Definition opens_again (c : Scheduled) : bool := match c with OpenAgain _ _ => true | CloseAgain c => reopens c | EndList _ _ => false end.
Definition closes_again (c : Scheduled) : bool := match c with CloseAgain _ => true | _ => false end.
Definition removes_again (c : Scheduled) : bool := match c with CloseAgain c => removes c | _ => false end.

(** Nothing is going to open the directory again. *)
Definition settled (s : t) : Prop := Forall (fun c => opens_again c = false) (scheduled s) /\ Forall (fun '(c, _) => reopens c = false) (close_requests s).

Definition user_close (callback : option nat) : CloseCallback := match callback with Some n => UserClose n | None => NoCallback end.

Section Life.
Context {uv : UvErrno}.
Implicit Types s : t.

Definition silent (e : Event) s : outcome t := Ret s.

(** The calls of user code: nothing more once the removal has been scheduled, which is not done while the directory opens or is being closed, nor while it waits to be opened again, nor during a
    listing at whose end it is going to be closed; no listing of a directory that is being closed, and [uv_fs_readdir] is not refused.  What the others do is shown below: [removed_while_opening],
    [removal_while_closing_recurses], [close_then_remove], [list_while_closing], [refused_list_blocks_close]. *)
Inductive api s : t -> Prop :=
| api_open path callback s' : removal_scheduled s = false -> open silent 0 s path callback = Ret s' -> api s s'
| api_close callback s' : removal_scheduled s = false -> close silent 0 s (user_close callback) = Ret s' -> api s s'
| api_list with_cont a b uv_status s' : removal_scheduled s = false -> m_state s <> CLOSING -> 0 <= uv_status -> list_entries silent s with_cont a b uv_status = Ret s' -> api s s'
| api_stop : api s (stop s)
| api_schedule_removal s' : removal_scheduled s = false -> settled s -> (m_read_request s <> None -> Forall (fun c => closes_again c = false) (scheduled s)) ->
    m_state s <> OPENING -> m_state s <> CLOSING -> schedule_removal silent 0 s = Ret s' -> api s s'.

(** A user callback returns and has made such calls. *)
Definition Calls (user : Event -> t -> outcome t) : Prop := forall e s, returns (user e s) (rtc api s).

Definition removal_pending s : nat :=
  removals s + length (List.filter (fun '(c, _) => removes c) (close_requests s)) + length (List.filter removes_again (scheduled s)).

(** [x]: a list callback is running. *)
Record inv (x : bool) s : Prop := {
  inv_dir : match m_uv_dir s with
    | Some d => open_dirs s = {[d]} /\
        (((m_state s = OPENED \/ m_state s = WANTCLOSE) /\ m_open_dir_ptr s = Some d /\ close_requests s = []) \/
         (m_state s = CLOSING /\ m_read_request s = None /\ exists c, close_requests s = [(c, d)]))
    | None => open_dirs s = ∅ /\ close_requests s = [] /\ m_read_request s = None /\ m_state s <> WANTCLOSE /\ m_state s <> CLOSING
    end;
  inv_read : match m_read_request s with Some r => m_uv_dir s = Some (ptr r) /\ reading s = negb x | None => reading s = false /\ x = false end;
  inv_opening : opening s = bool_decide (m_state s = OPENING);
  inv_pending : removal_pending s = if removal_scheduled s then 1%nat else 0%nat;
  inv_settled : removal_scheduled s = true -> settled s /\ m_state s <> OPENING /\ (m_state s = OPENED -> m_uv_dir s = None);
  inv_again c : c ∈ scheduled s -> removes_again c = true -> m_state s = WANTCLOSE /\ Forall (fun c => closes_again c = true -> removes_again c = true) (scheduled s);
  inv_removed : (0 < removals s)%nat -> m_uv_dir s = None;
  inv_deleted : deleted s = true -> (0 < removals s)%nat /\ scheduled s = []
}.

Lemma inv_create_dir : inv false create.
Proof. split; cbn; try done. by intros c H%elem_of_nil. Qed.

Lemma inv_event x s e : inv x s -> inv x (s <| events ::= fun l => l ++ [e] |>).
Proof. intros [H1 H2 H3 H4 H5 H6 H7 H8]. by split. Qed.

Lemma inv_stop x s : inv x s -> inv x (stop s).
Proof. intros [H1 H2 H3 H4 H5 H6 H7 H8]. by split. Qed.

Lemma filter_snoc {A} (p : A -> bool) l a : length (List.filter p (l ++ [a])) = (length (List.filter p l) + if p a then 1 else 0)%nat.
Proof. rewrite List.filter_app, length_app. cbn. by destruct (p a). Qed.

(** A callback is scheduled that does not remove the directory. *)
Lemma inv_schedule x s c : inv x s -> deleted s = false -> removes_again c = false -> (removal_scheduled s = true -> opens_again c = false /\ closes_again c = false) ->
  inv x (schedule_callback s c).
Proof.
  intros [H1 H2 H3 H4 H5 H6 H7 H8] Hd Hr Hc. unfold schedule_callback. split; cbn; try done.
  - unfold removal_pending in *. cbn. rewrite filter_snoc, Hr. lia.
  - intros Hs. destruct (Hc Hs) as [Ho _]. destruct (H5 Hs) as ([A1 A2] & A3 & A4). split; [|done]. split; [|done]. cbn. apply Forall_app. by repeat constructor.
  - intros c'. rewrite elem_of_app, list_elem_of_singleton. intros [Hin| ->] Hr'; [|congruence]. destruct (H6 c' Hin Hr') as [B1 B2]. split; [done|].
    apply Forall_app. split; [done|]. constructor; [|done]. intros Hcl. destruct (removal_scheduled s) eqn:Hs; [destruct (Hc eq_refl); congruence|].
    exfalso. unfold removal_pending in H4. assert (0 < length (List.filter removes_again (scheduled s)))%nat; [|lia].
    destruct (List.filter removes_again (scheduled s)) eqn:E; [|cbn; lia]. assert (In c' (List.filter removes_again (scheduled s))) as Hin'.
    { apply filter_In. split; [by apply list_elem_of_In|done]. } by rewrite E in Hin'.
  - rewrite Hd. done.
Qed.

(** The closing of the directory is begun. *)
Definition begin_close s (c : CloseCallback) (d : nat) : t :=
  s <| m_state := CLOSING |> <| m_open_dir_ptr := None |> <| close_requests ::= fun l => l ++ [(c, d)] |>.

Lemma inv_begin_close x s c d : inv x s -> m_uv_dir s = Some d -> m_read_request s = None -> m_state s <> CLOSING ->
  removes c = false -> (removal_scheduled s = true -> reopens c = false) -> (forall c', c' ∈ scheduled s -> removes_again c' = false) -> inv x (begin_close s c d).
Proof.
  intros [H1 H2 H3 H4 H5 H6 H7 H8] Hd Hr Hst Hc Ho Hn. rewrite Hd in H1. destruct H1 as (A1 & [(A2 & A3 & A4)|(A2 & _)]); [|done]. unfold begin_close. split; cbn; try done.
  - rewrite Hd. split; [done|]. right. split; [done|]. split; [done|]. exists c. by rewrite A4.
  - rewrite H3. by destruct A2 as [-> | ->].
  - unfold removal_pending in *. cbn. rewrite A4 in *. cbn in *. rewrite Hc. cbn. lia.
  - intros Hs. destruct (H5 Hs) as ([B1 B2] & B3 & B4). split; [|done]. split; [done|]. cbn. rewrite A4. cbn. repeat constructor. by apply Ho.
  - intros c' Hin Hr'. by rewrite (Hn c' Hin) in Hr'.
Qed.

Lemma none_removes l : length (List.filter removes_again l) = 0%nat -> forall c, c ∈ l -> removes_again c = false.
Proof.
  intros H c Hin. destruct (removes_again c) eqn:E; [|done]. assert (In c (List.filter removes_again l)) as Hin'.
  { apply filter_In. split; [by apply list_elem_of_In|done]. } destruct (List.filter removes_again l); [done|]. cbn in H. lia.
Qed.

Lemma no_removal_pending x s : inv x s -> removal_scheduled s = false -> removals s = 0%nat /\ forall c, c ∈ scheduled s -> removes_again c = false.
Proof. intros Hi Hs. pose proof (inv_pending _ _ Hi) as H. rewrite Hs in H. unfold removal_pending in H. split; [lia|]. apply none_removes. lia. Qed.

Lemma alive_unless_removed x s : inv x s -> removal_scheduled s = false -> deleted s = false.
Proof.
  intros Hi Hs. destruct (deleted s) eqn:E; [|done]. apply (inv_deleted _ _ Hi) in E as [E _]. destruct (no_removal_pending x s Hi Hs) as [H _]. lia.
Qed.

Lemma inv_wantclose x s r : inv x s -> m_read_request s = Some r -> inv x (s <| m_state := WANTCLOSE |>).
Proof.
  intros [H1 H2 H3 H4 H5 H6 H7 H8] Hr. rewrite Hr in H2. destruct H2 as [Hd Hx]. rewrite Hd in H1. destruct H1 as (A1 & [(A2 & A3 & A4)|(_ & A3 & _)]); [|congruence].
  split; cbn; try done.
  - rewrite Hd. split; [done|]. left. by split; [right|].
  - by rewrite Hr.
  - rewrite H3. by destruct A2 as [-> | ->].
  - intros Hs. destruct (H5 Hs) as (B1 & B2 & B3). by split.
  - intros c Hin Hc. by destruct (H6 c Hin Hc) as [_ B].
Qed.

(** [schedule_removal]. *)
Lemma inv_remove_now x s : inv x s -> removal_scheduled s = false -> m_uv_dir s = None -> settled s -> m_state s <> OPENING ->
  inv x (s <| removal_scheduled := true |> <| removals ::= S |>).
Proof.
  intros Hi Hs Hd Hse Hst. destruct (no_removal_pending x s Hi Hs) as [_ Hn]. destruct Hi as [H1 H2 H3 H4 H5 H6 H7 H8]. split; cbn; try done.
  - unfold removal_pending in *. cbn. rewrite Hs in H4. lia.
  - intros H. apply H8 in H as [H H']. split; [lia|done].
Qed.

Lemma inv_remove_close x s d : inv x s -> removal_scheduled s = false -> m_uv_dir s = Some d -> m_read_request s = None -> m_state s <> CLOSING -> settled s ->
  inv x (begin_close (s <| removal_scheduled := true |>) RemoveDir d).
Proof.
  intros Hi Hs Hd Hr Hst Hse. destruct (no_removal_pending x s Hi Hs) as [Hz Hn]. destruct Hi as [H1 H2 H3 H4 H5 H6 H7 H8]. rewrite Hd in H1.
  destruct H1 as (A1 & [(A2 & A3 & A4)|(A2 & _)]); [|done]. unfold begin_close. split; cbn; try done.
  - rewrite Hd. split; [done|]. right. split; [done|]. split; [done|]. exists RemoveDir. by rewrite A4.
  - rewrite H3. by destruct A2 as [-> | ->].
  - unfold removal_pending in *. rewrite Hs in H4. cbn. rewrite A4 in *. cbn in *. lia.
  - intros _. split; [|done]. destruct Hse as [B1 B2]. split; [done|]. cbn. rewrite A4. by repeat constructor.
  - intros c Hin Hc. by rewrite (Hn c Hin) in Hc.
Qed.

Lemma inv_remove_wait x s r : inv x s -> removal_scheduled s = false -> m_read_request s = Some r -> settled s -> Forall (fun c => closes_again c = false) (scheduled s) ->
  inv x (schedule_callback (s <| removal_scheduled := true |> <| m_state := WANTCLOSE |>) (CloseAgain RemoveDir)).
Proof.
  intros Hi Hs Hr Hse Hc. apply (inv_wantclose x s r) in Hi as Hi'; [|done]. destruct (no_removal_pending x s Hi Hs) as [Hz Hn].
  pose proof (alive_unless_removed x s Hi Hs) as Hdel. clear Hi. destruct Hi' as [H1 H2 H3 H4 H5 H6 H7 H8]. cbn in *. split; cbn; try done.
  - unfold removal_pending in *. rewrite Hs in H4. cbn in *. rewrite filter_snoc. cbn. lia.
  - intros _. split; [|done]. destruct Hse as [B1 B2]. split; [|done]. cbn. apply Forall_app. by repeat constructor.
  - intros c _ _. split; [done|]. apply Forall_app. split; [|by repeat constructor]. eapply Forall_impl; [exact Hc|]. cbn. congruence.
  - by rewrite Hdel.
Qed.

(** The scheduled callbacks. *)
Lemma inv_pop x s c l : inv x s -> scheduled s = c :: l -> removes_again c = false -> inv x (s <| scheduled := l |>).
Proof.
  intros [H1 H2 H3 H4 H5 H6 H7 H8] Hl Hc. split; cbn; try done.
  - unfold removal_pending in *. rewrite Hl in H4. cbn in *. rewrite Hc in H4. done.
  - intros Hs. destruct (H5 Hs) as ([B1 B2] & B3). rewrite Hl in B1. apply Forall_cons in B1 as [_ B1]. done.
  - intros c' Hin Hc'. rewrite Hl in H6. destruct (H6 c') as [B1 B2]; [by right|done|]. split; [done|]. by apply Forall_cons in B2 as [_ B2].
  - intros H. apply H8 in H as [_ H]. congruence.
Qed.

Lemma inv_rotate x s c l r : inv x s -> scheduled s = CloseAgain c :: l -> m_read_request s = Some r -> 
  inv x (schedule_callback (s <| scheduled := l |> <| m_state := WANTCLOSE |>) (CloseAgain c)).
Proof.
  intros Hi Hl Hr. apply (inv_wantclose x s r) in Hi as [H1 H2 H3 H4 H5 H6 H7 H8]; [|done]. cbn in *. split; cbn; try done.
  - unfold removal_pending in *. rewrite Hl in H4. cbn in *. rewrite filter_snoc. cbn. destruct (removes c); cbn in *; lia.
  - intros Hs. destruct (H5 Hs) as ([B1 B2] & B3). unfold settled in *. cbn in *. rewrite Hl in B1. apply Forall_cons in B1 as [B0 B1]. split; [|done]. split; [|done]. apply Forall_app. by repeat constructor.
  - intros c' Hin Hc'. assert (c' ∈ CloseAgain c :: l) as Hin' by (apply elem_of_app in Hin; apply elem_of_cons; rewrite list_elem_of_singleton in Hin; tauto).
    rewrite Hl in H6. destruct (H6 c' Hin' Hc') as [_ B2]. split; [done|]. apply Forall_cons in B2 as [B2 B3]. apply Forall_app. by repeat constructor.
  - intros H. apply H8 in H as [_ H]. congruence.
Qed.

Lemma inv_remove_again x s l d : inv x s -> scheduled s = CloseAgain RemoveDir :: l -> m_uv_dir s = Some d -> m_read_request s = None ->
  inv x (begin_close (s <| scheduled := l |>) RemoveDir d).
Proof.
  intros [H1 H2 H3 H4 H5 H6 H7 H8] Hl Hd Hr. destruct (H6 (CloseAgain RemoveDir)) as [Hst _]; [rewrite Hl; by left|done|].
  assert (removal_scheduled s = true) as Hs. { destruct (removal_scheduled s); [done|]. unfold removal_pending in H4. rewrite Hl in H4. cbn in H4. lia. }
  assert (length (List.filter removes_again l) = 0)%nat as Hn. { unfold removal_pending in H4. rewrite Hl, Hs in H4. cbn in H4. lia. }
  rewrite Hd in H1. destruct H1 as (A1 & [(A2 & A3 & A4)|(A2 & _)]); [|congruence]. unfold begin_close. split; cbn; try done.
  - rewrite Hd. split; [done|]. right. split; [done|]. split; [done|]. exists RemoveDir. by rewrite A4.
  - rewrite H3, Hst. done.
  - unfold removal_pending in *. rewrite Hl, Hs, A4 in H4. cbn in *. rewrite A4. rewrite Hs. cbn. lia.
  - intros _. destruct (H5 Hs) as ([B1 B2] & B3). rewrite Hl in B1. apply Forall_cons in B1 as [_ B1]. split; [|done]. split; [done|]. cbn. rewrite A4. by repeat constructor.
  - intros c Hin Hc. by rewrite (none_removes l Hn c Hin) in Hc.
  - intros H. apply H8 in H as [_ H]. congruence.
Qed.

(** *** The operations *)

Definition ok (x : bool) s : Prop := inv x s /\ deleted s = false.

Lemma error_bool_uv z : 0 <= z -> error_bool (Error_of_uv z) = false.
Proof. intros H. unfold Error_of_uv. by rewrite (proj2 (Z.ltb_ge _ _)). Qed.

Section Operations.
Variable user : Event -> t -> outcome t.
Hypothesis user_ok : forall x e s, ok x s -> returns (user e s) (ok x).

Lemma call_ok x s e : ok x s -> returns (call user s e) (ok x).
Proof. intros [Hi Hd]. apply user_ok. split; [by apply inv_event|done]. Qed.

Lemma call_end_list_ok x s b e : ok x s -> returns (call_end_list user s b e) (ok x).
Proof. intros Hs. destruct b; [by apply call_ok|by apply returns_ret]. Qed.

Lemma close_waits fuel s c d r : m_uv_dir s = Some d -> m_read_request s = Some r ->
  close user fuel s c = Ret (schedule_callback (s <| m_state := WANTCLOSE |>) (CloseAgain c)).
Proof. intros Hd Hr. destruct fuel; cbn [close]; unfold is_open; by rewrite Hd, Hr. Qed.

Lemma close_begins fuel s c d : m_uv_dir s = Some d -> m_read_request s = None -> m_state s <> CLOSING -> m_open_dir_ptr s = Some d ->
  close user fuel s c = Ret (begin_close s c d).
Proof. intros Hd Hr Hst Hp. destruct fuel; cbn [close]; unfold is_open; by rewrite Hd, Hr, bool_decide_false, Hp. Qed.

(** The directory of an open object. *)
Lemma open_ptr x s d : inv x s -> m_uv_dir s = Some d -> m_state s <> CLOSING -> m_open_dir_ptr s = Some d.
Proof. intros Hi Hd Hst. pose proof (inv_dir _ _ Hi) as H. rewrite Hd in H. by destruct H as (_ & [(_ & Hp & _)|(? & _)]). Qed.

Lemma close_ok x fuel s c : ok x s -> removes c = false -> (removal_scheduled s = true -> m_read_request s = None /\ reopens c = false) ->
  (forall c', c' ∈ scheduled s -> removes_again c' = false) -> returns (close user fuel s c) (ok x).
Proof.
  intros [Hi Hdel] Hc Hs Hn. assert (forall e, returns (match c with NoCallback => Ret s | UserClose n => call user s (CloseCalled n e) | Reopen _ (Some n) => call user s (OpenCalled n e)
    | Reopen _ None => Ret s | RemoveDir => Ret s end) (ok x)) as Hcl.
  { intros e. destruct c as [|n|p [n|]|]; try (by apply returns_ret); by apply call_ok. }
  specialize (Hcl (Error_of_status OPERATION_ALREADY_IN_PROGRESS)).
  destruct (m_uv_dir s) as [d|] eqn:Hd; [|destruct fuel; cbn [close]; unfold is_open; by rewrite Hd]. destruct (m_read_request s) as [r|] eqn:Hr.
  - rewrite (close_waits fuel s c d r) by done. apply returns_ret. split; [|done]. apply inv_schedule; [by eapply inv_wantclose|done|by destruct c|]. cbn. intros H. by destruct (Hs H).
  - destruct (decide (m_state s = CLOSING)) as [Hst|Hst].
    + destruct fuel; cbn [close]; unfold is_open; rewrite Hd, Hr, bool_decide_true by done; by destruct c as [|n|p [n|]|].
    + rewrite (close_begins fuel s c d) by (try done; by eapply open_ptr). apply returns_ret. split; [|done]. apply inv_begin_close; try done. intros H. by destruct (Hs H).
Qed.

Lemma open_ok x fuel s path callback : ok x s -> removal_scheduled s = false -> returns (open user fuel s path callback) (ok x).
Proof.
  intros [Hi Hdel] Hs. destruct (no_removal_pending x s Hi Hs) as [_ Hn]. unfold open.
  assert (ok x (schedule_callback s (OpenAgain path callback))) as Hag by (split; [apply inv_schedule; try done; by rewrite Hs|done]).
  assert (forall st, st = INITIAL \/ st = CLOSED -> m_state s = st -> ok x (s <| m_path := path |> <| m_open_callback := callback |> <| m_state := OPENING |> <| opening := true |>)) as Hop.
  { intros st Hst Est. destruct Hi as [H1 H2 H3 H4 H5 H6 H7 H8]. assert (m_uv_dir s = None) as Hd.
    { destruct (m_uv_dir s); [|done]. destruct H1 as (_ & [([E|E] & _)|(E & _)]); destruct Hst as [-> | ->]; congruence. }
    split; [|done]. split; cbn; try done.
    - rewrite Hd in *. by destruct H1 as (? & ? & ? & _).
    - by rewrite Hs.
    - intros c Hin Hc. by rewrite (Hn c Hin) in Hc. }
  destruct (m_state s) eqn:Hst; try (by apply returns_ret); try (apply returns_ret; by eapply Hop; [|reflexivity]; auto).
  apply close_ok; [by split|done|by rewrite Hs|done].
Qed.

Lemma list_ok x s with_cont a b uv_status : ok x s -> removal_scheduled s = false -> m_state s <> CLOSING -> 0 <= uv_status -> returns (list_entries user s with_cont a b uv_status) (ok x).
Proof.
  intros [Hi Hdel] Hs Hst Hu. unfold list_entries. destruct (m_uv_dir s) as [d|] eqn:Hd.
  - destruct (m_read_request s) as [r|] eqn:Hr; [by apply call_end_list_ok|]. rewrite error_bool_uv by done. apply returns_ret. split; [|done].
    destruct Hi as [H1 H2 H3 H4 H5 H6 H7 H8]. rewrite Hr in H2. destruct H2 as [_ ->]. split; cbn; try done. rewrite Hd in *. destruct H1 as (A1 & [A2|(A2 & _)]); [|done]. by split; [|left].
  - apply returns_ret. split; [|by destruct b]. destruct b; [|done]. by apply inv_schedule.
Qed.

Lemma removal_ok x fuel s : ok x s -> removal_scheduled s = false -> settled s -> (m_read_request s <> None -> Forall (fun c => closes_again c = false) (scheduled s)) ->
  m_state s <> OPENING -> m_state s <> CLOSING -> returns (schedule_removal user fuel s) (ok x).
Proof.
  intros [Hi Hdel] Hs Hse Hc Ho Hcl. unfold schedule_removal. destruct (m_uv_dir s) as [d|] eqn:Hd.
  - assert (is_open (s <| removal_scheduled := true |>) = true) as -> by (unfold is_open; cbn; by rewrite Hd). destruct (m_read_request s) as [r|] eqn:Hr.
    + rewrite (close_waits fuel _ RemoveDir d r) by done. apply returns_ret. split; [|done]. eapply (inv_remove_wait x s r); try done. by apply Hc.
    + rewrite (close_begins fuel _ RemoveDir d) by first [done|exact (open_ptr x s d Hi Hd Hcl)]. apply returns_ret. split; [by apply (inv_remove_close x s d)|done].
  - assert (is_open (s <| removal_scheduled := true |>) = false) as -> by (unfold is_open; cbn; by rewrite Hd). apply returns_ret. split; [|done]. by apply inv_remove_now.
Qed.

End Operations.

Lemma silent_keeps x e s : ok x s -> returns (silent e s) (ok x).
Proof. done. Qed.

Lemma api_ok x s s' : api s s' -> ok x s -> ok x s'.
Proof.
  intros H Hs. destruct H as [path cb s' Hr H|cb s' Hr H|wc a b u s' Hr Hst Hu H| |s' Hr Hse Hc H1 H2 H].
  - pose proof (open_ok silent silent_keeps x 0 s path cb Hs Hr) as Ho. by rewrite H in Ho.
  - pose proof (close_ok silent silent_keeps x 0 s (user_close cb) Hs) as Ho. rewrite H in Ho. apply Ho; [by destruct cb|by rewrite Hr|]. by apply (no_removal_pending x s (proj1 Hs)).
  - pose proof (list_ok silent silent_keeps x s wc a b u Hs Hr Hst Hu) as Ho. by rewrite H in Ho.
  - destruct Hs as [Hi Hd]. split; [by apply inv_stop|done].
  - pose proof (removal_ok silent x 0 s Hs Hr Hse Hc H1 H2) as Ho. by rewrite H in Ho.
Qed.

Lemma calls_ok user : Calls user -> forall x e s, ok x s -> returns (user e s) (ok x).
Proof.
  intros Hu x e s Hs. eapply returns_mono; [apply Hu|]. intros s' Hr. induction Hr as [|s1 s2 s3 H12 H23 IH]; [done|]. apply IH. by eapply api_ok.
Qed.

(** User code does not take a listing away. *)
Lemma api_request s s' r : api s s' -> m_read_request s = Some r -> m_read_request s' = Some r.
Proof.
  assert (forall c s1, m_read_request s = Some r -> close silent 0 s c = Ret s1 -> m_read_request s1 = Some r) as Hclose.
  { intros c s1 Hr H. cbn in H. destruct (negb _); [by injection H as <-|]. rewrite Hr in H. by injection H as <-. }
  intros H Hr. destruct H as [path cb s' _ H|cb s' _ H|wc a b u s' _ _ _ H| |s' _ _ _ _ _ H]; try done.
  - unfold open in H. destruct (m_state s); try (by injection H as <-). by eapply Hclose in H.
  - by eapply Hclose in H.
  - unfold list_entries in H. destruct (m_uv_dir s).
    + rewrite Hr in H. destruct b; by injection H as <-.
    + injection H as <-. by destruct b.
  - unfold schedule_removal in H. destruct (is_open _); [|by injection H as <-]. cbn in H. destruct (negb _); [by injection H as <-|]. rewrite Hr in H. by injection H as <-.
Qed.

Section Callbacks.
Variable user : Event -> t -> outcome t.
Hypothesis user_calls : Calls user.

Lemma call_entry x s e r : ok x s -> m_read_request s = Some r -> returns (call user s e) (fun s' => ok x s' /\ m_read_request s' = Some r).
Proof.
  intros Hs Hr. unfold call. eapply returns_mono; [apply user_calls|]. intros s' H. assert (ok x (s <| events ::= fun l => l ++ [e] |>)) as Hs1.
  { destruct Hs as [Hi Hd]. split; [by apply inv_event|done]. }
  assert (m_read_request (s <| events ::= fun l => l ++ [e] |>) = Some r) as Hr1 by done. clear Hs Hr. induction H as [|s1 s2 s3 H12 H23 IH]; [done|].
  apply IH; [by eapply api_ok|by eapply api_request].
Qed.

Lemma on_open_dir_ok s result d : ok false s -> opening s = true -> returns (on_open_dir user s result d) (ok false).
Proof.
  intros [Hi Hdel] Ho. unfold on_open_dir. rewrite Hdel. cbn [negb]. pose proof (inv_opening _ _ Hi) as Hst. rewrite Ho in Hst. symmetry in Hst. apply bool_decide_eq_true in Hst.
  assert (removal_scheduled s = false) as Hs. { destruct (removal_scheduled s) eqn:E; [|done]. by destruct (inv_settled _ _ Hi E) as (_ & ? & _). }
  destruct (no_removal_pending _ _ Hi Hs) as [Hz Hn].
  set (s1 := (if error_bool (Error_of_uv result) then _ else _) <| m_state := OPENED |>).
  assert (ok false s1) as Hs1.
  { destruct Hi as [H1 H2 H3 H4 H5 H6 H7 H8]. assert (m_uv_dir s = None) as Hd. { destruct (m_uv_dir s); [|done]. destruct H1 as (_ & [([E|E] & _)|(E & _)]); congruence. }
    rewrite Hd in H1. destruct H1 as (A1 & A2 & A3 & A4). rewrite A3 in H2.
    subst s1. destruct (error_bool (Error_of_uv result)); (split; [|done]); split; cbn; rewrite ?Hd, ?A3; try done;
      try (by rewrite Hs); try (intros c Hin Hc; by rewrite (Hn c Hin) in Hc); try lia.
    split; [by rewrite A1, union_empty_r_L|]. left. by split; [left|]. }
  clearbody s1. eapply (returns_bind _ _ (ok false)).
  - destruct (m_open_callback s1); [|by apply returns_ret]. apply call_ok; [by apply calls_ok|done].
  - intros s2 [Hi2 Hd2]. apply returns_ret. destruct (error_bool _); [|by split]. split; [|done]. destruct Hi2 as [H1 H2 H3 H4 H5 H6 H7 H8]. by split.
Qed.

Lemma end_listing_keeps x s r result : ok x s -> m_read_request s = Some r -> reading s = false -> returns (end_listing user s r result) (ok false).
Proof.
  intros [Hi Hdel] Hr Hre. unfold end_listing. apply call_end_list_ok; [by apply calls_ok|]. split; [|done]. destruct Hi as [H1 H2 H3 H4 H5 H6 H7 H8]. rewrite Hr in H2. destruct H2 as [Hd Hx].
  split; cbn; try done. rewrite Hd in *. destruct H1 as (A1 & [A2|(A2 & A3 & A4)]); (split; [done|]); [by left|right]. by split.
Qed.

Lemma read_next_ok x s r : ok x s -> m_read_request s = Some r -> returns (read_next s r) (ok false).
Proof.
  intros [Hi Hdel] Hr. destruct Hi as [H1 H2 H3 H4 H5 H6 H7 H8]. rewrite Hr in H2. destruct H2 as [Hd Hx]. rewrite Hd in H1. destruct H1 as [A1 A2]. unfold read_next.
  rewrite bool_decide_true by (rewrite A1; set_solver). apply returns_ret. split; [|done]. split; cbn; try done; [rewrite Hd; exact (conj A1 A2)|by rewrite Hr].
Qed.

Lemma on_read_dir_ok s result name type : ok false s -> reading s = true -> returns (on_read_dir user s result name type) (ok false).
Proof.
  intros [Hi Hdel] Hre. unfold on_read_dir. rewrite Hdel. cbn [negb]. destruct (m_read_request s) as [r|] eqn:Hr.
  2: { pose proof (inv_read _ _ Hi) as H. rewrite Hr in H. destruct H. congruence. }
  assert (ok true (s <| reading := false |>)) as Hs1.
  { destruct Hi as [H1 H2 H3 H4 H5 H6 H7 H8]. rewrite Hr in H2. destruct H2 as [Hd Hx]. split; [|done]. split; cbn; try done. by rewrite Hr. }
  assert (forall s1, ok true s1 -> m_read_request s1 = Some r -> reading s1 = false) as Hoff.
  { intros s1 [Hi1 _] Hr1. pose proof (inv_read _ _ Hi1) as H. rewrite Hr1 in H. by destruct H. }
  assert (forall s1, ok true s1 -> m_read_request s1 = Some r ->
    returns (match list_callback r with Some n => call user s1 (EntryCalled n name (convert_direntry_type type)) | None => Ret s1 end) (fun s2 => ok true s2 /\ m_read_request s2 = Some r)) as Hcall.
  { intros s1 Hs Hr1. destruct (list_callback r); [by apply call_entry|by apply returns_ret]. }
  destruct (with_continuation r); [unfold on_read_dir_with_continuation|unfold on_read_dir_no_continuation]; (destruct (result <=? 0); [by eapply end_listing_keeps|]).
  - eapply returns_bind; [apply Hcall; [|done]|].
    + destruct Hs1 as [[H1 H2 H3 H4 H5 H6 H7 H8] H9]. split; [|done]. by split.
    + cbn beta. intros s2 [Hs2 Hr2]. destruct (negb _); [by eapply end_listing_keeps; auto|by eapply read_next_ok].
  - eapply returns_bind; [by apply Hcall|]. cbn beta. intros s2 [Hs2 Hr2]. destruct (negb _); [by eapply read_next_ok|by eapply end_listing_keeps; auto].
Qed.

(** The state in which the close callback runs. *)
Definition closed_state s (l : list (CloseCallback * nat)) (d : nat) : t :=
  s <| close_requests := l |> <| open_dirs ::= fun o => o ∖ {[d]} |> <| m_uv_dir := None |> <| m_path := [] |> <| m_state := CLOSED |>.

Lemma closing_one x s c d l : inv x s -> close_requests s = (c, d) :: l ->
  l = [] /\ m_uv_dir s = Some d /\ m_state s = CLOSING /\ m_read_request s = None /\ open_dirs s = {[d]} /\ removals s = 0%nat.
Proof.
  intros [H1 H2 H3 H4 H5 H6 H7 H8] Hc. destruct (m_uv_dir s) as [d'|]; [|destruct H1 as (_ & H & _); congruence].
  destruct H1 as (A1 & [(_ & _ & A2)|(A2 & A3 & c' & A4)]); [congruence|]. rewrite Hc in A4. injection A4 as -> -> ->. split_and!; try done. destruct (removals s); [done|]. by assert (Some d' = None) by (apply H7; lia).
Qed.

Lemma inv_closed s c d : inv false s -> close_requests s = [(c, d)] -> removes c = false -> inv false (closed_state s [] d).
Proof.
  intros Hi Hc Hr. destruct (closing_one false s c d [] Hi Hc) as (_ & Hd & Hst & Hrq & Ho & Hz). destruct Hi as [H1 H2 H3 H4 H5 H6 H7 H8]. rewrite Hrq in H2.
  unfold closed_state. split; cbn; rewrite ?Hrq; try done.
  - rewrite Ho. split; [by rewrite difference_diag_L|done].
  - rewrite H3, Hst. done.
  - unfold removal_pending in *. rewrite Hc in H4. cbn in *. by rewrite Hr in H4.
  - intros Hs. destruct (H5 Hs) as ([B1 B2] & _). split; [|done]. by split.
  - intros c' Hin Hc'. destruct (H6 c' Hin Hc'). congruence.
Qed.

Lemma inv_closed_removed s d : inv false s -> close_requests s = [(RemoveDir, d)] -> inv false ((closed_state s [] d) <| removal_scheduled := true |> <| removals ::= S |>).
Proof.
  intros Hi Hc. destruct (closing_one false s RemoveDir d [] Hi Hc) as (_ & Hd & Hst & Hrq & Ho & Hz). destruct Hi as [H1 H2 H3 H4 H5 H6 H7 H8]. rewrite Hrq in H2.
  assert (removal_scheduled s = true) as Hs. { destruct (removal_scheduled s); [done|]. unfold removal_pending in H4. rewrite Hc in H4. cbn in H4. lia. }
  unfold closed_state. split; cbn; rewrite ?Hrq; try done.
  - rewrite Ho. split; [by rewrite difference_diag_L|done].
  - rewrite H3, Hst. done.
  - unfold removal_pending in *. rewrite Hc, Hs in H4. cbn in *. lia.
  - intros _. destruct (H5 Hs) as ([B1 B2] & _). split; [|done]. by split.
  - intros c' Hin Hc'. destruct (H6 c' Hin Hc'). congruence.
  - intros H. apply H8 in H as [H _]. lia.
Qed.

Lemma on_close_dir_ok fuel s result : ok false s -> close_requests s <> [] -> returns (on_close_dir user fuel s result) (ok false).
Proof.
  intros [Hi Hdel] Hne. unfold on_close_dir. rewrite Hdel. cbn [negb]. destruct (close_requests s) as [|[c d] l] eqn:Hc; [done|].
  destruct (closing_one false s c d l Hi Hc) as (-> & Hd & _). change (returns (run_close_callback user fuel (closed_state s [] d) c (Error_of_uv result)) (ok false)).
  assert (removes c = false -> ok false (closed_state s [] d)) as Hcl by (intros Hr; split; [by eapply inv_closed|done]).
  destruct c as [|n|path cb|]; cbn [run_close_callback].
  - apply returns_ret. by apply Hcl.
  - apply call_ok; [by apply calls_ok|by apply Hcl].
  - destruct (error_bool _); [destruct cb; [apply call_ok; [by apply calls_ok|by apply Hcl]|apply returns_ret; by apply Hcl]|].
    apply returns_ret. destruct (Hcl eq_refl) as [Hi' Hd']. split; [|done]. apply inv_schedule; try done. cbn. intros Hs.
    destruct (inv_settled _ _ Hi Hs) as ([_ B] & _). rewrite Hc in B. apply Forall_cons in B as [B _]. done.
  - apply returns_ret. split; [by apply inv_closed_removed|done].
Qed.

Lemma run_scheduled_ok fuel s : ok false s -> returns (run_scheduled user fuel s) (ok false).
Proof.
  intros [Hi Hdel]. unfold run_scheduled. destruct (scheduled s) as [|c l] eqn:Hl; [by apply returns_ret|]. rewrite Hdel. cbn [negb].
  assert (removal_scheduled s = true -> opens_again c = false) as Hno. { intros Hs. destruct (inv_settled _ _ Hi Hs) as ([B _] & _). rewrite Hl in B. by apply Forall_cons in B as [B _]. }
  assert (removes_again c = false -> ok false (s <| scheduled := l |>)) as Hpop by (intros Hr; split; [by eapply inv_pop|done]).
  destruct c as [path cb|c|n e]; cbn in Hno.
  - apply open_ok; [by apply calls_ok|by apply Hpop|]. cbn. destruct (removal_scheduled s); [by discriminate Hno|done].
  - destruct (removes c) eqn:Hr.
    + destruct c; try done. destruct (inv_again _ _ Hi (CloseAgain RemoveDir)) as [Hst _]; [rewrite Hl; by left|done|].
      destruct (m_uv_dir s) as [d|] eqn:Hd. 2: { pose proof (inv_dir _ _ Hi) as H. rewrite Hd in H. by destruct H as (_ & _ & _ & ? & _). }
      destruct (m_read_request s) as [r|] eqn:Hrq.
      * rewrite (close_waits user fuel _ RemoveDir d r) by done. apply returns_ret. split; [by eapply inv_rotate|done].
      * rewrite (close_begins user fuel _ RemoveDir d); [|done|done|cbn; by rewrite Hst|apply (open_ptr false s d Hi Hd); by rewrite Hst].
        apply returns_ret. split; [by apply inv_remove_again|done].
    + destruct (m_read_request s) as [r|] eqn:Hrq.
      * pose proof (inv_read _ _ Hi) as H. rewrite Hrq in H. destruct H as [Hd _].
        rewrite (close_waits user fuel _ c (ptr r) r) by done. apply returns_ret. split; [by eapply inv_rotate|done].
      * apply close_ok; [by apply calls_ok|exact (Hpop Hr)|done|by intros Hs; split; [|apply Hno]|]. cbn. intros c' Hin.
        destruct (removes_again c') eqn:Hc'; [|done]. destruct (inv_again _ _ Hi c') as [_ B]; [rewrite Hl; by right|done|]. rewrite Hl in B. apply Forall_cons in B as [B _]. cbn in B. rewrite Hr in B. by discriminate B.
  - apply call_ok; [by apply calls_ok|by apply Hpop].
Qed.

End Callbacks.

(** *** Runs *)

(** What happens to a directory object: user code makes its calls, libuv calls back what it was asked for, the loop runs a scheduled callback, and the object is deleted when nothing that
    was scheduled before is left. *)
Inductive step s s' : Prop :=
| step_api : deleted s = false -> api s s' -> step s s'
| step_opened user result d : Calls user -> opening s = true -> on_open_dir user s result d = Ret s' -> step s s'
| step_read user result name type : Calls user -> reading s = true -> on_read_dir user s result name type = Ret s' -> step s s'
| step_closed user fuel result : Calls user -> close_requests s <> [] -> on_close_dir user fuel s result = Ret s' -> step s s'
| step_scheduled user fuel : Calls user -> scheduled s <> [] -> run_scheduled user fuel s = Ret s' -> step s s'
| step_deleted : (0 < removals s)%nat -> deleted s = false -> scheduled s = [] -> on_delete s = Ret s' -> step s s'.

(** Nothing can call back to a deleted object. *)
Lemma deleted_quiet s : inv false s -> deleted s = true -> opening s = false /\ reading s = false /\ close_requests s = [] /\ scheduled s = [] /\ open_dirs s = ∅.
Proof.
  intros Hi Hdel. destruct (inv_deleted _ _ Hi Hdel) as [Hz Hl]. pose proof (inv_removed _ _ Hi Hz) as Hd. pose proof (inv_dir _ _ Hi) as H1. rewrite Hd in H1.
  destruct H1 as (A1 & A2 & A3 & _). pose proof (inv_read _ _ Hi) as H2. rewrite A3 in H2. destruct H2 as [H2 _]. split_and!; try done. rewrite (inv_opening _ _ Hi).
  apply bool_decide_eq_false. assert (removal_scheduled s = true) as Hs. { destruct (removal_scheduled s) eqn:E; [done|]. destruct (no_removal_pending _ _ Hi E). lia. }
  by destruct (inv_settled _ _ Hi Hs) as (_ & ? & _).
Qed.

Lemma on_delete_ok s : inv false s -> (0 < removals s)%nat -> deleted s = false -> scheduled s = [] -> returns (on_delete s) (inv false).
Proof.
  intros Hi Hz Hdel Hl. unfold on_delete. rewrite Hdel. cbn [negb]. pose proof (inv_removed _ _ Hi Hz) as Hd. pose proof (inv_dir _ _ Hi) as H1. rewrite Hd in H1.
  destruct H1 as (_ & _ & A3 & _). rewrite A3. apply returns_ret. destruct Hi as [H1 H2 H3 H4 H5 H6 H7 H8]. by split.
Qed.

Lemma alive s : inv false s -> opening s = true \/ reading s = true \/ close_requests s <> [] \/ scheduled s <> [] -> ok false s.
Proof. intros Hi H. split; [done|]. destruct (deleted s) eqn:E; [|done]. destruct (deleted_quiet s Hi E) as (? & ? & ? & ? & _). destruct H as [H|[H|[H|H]]]; congruence. Qed.

Lemma dir_step_inv s s' : step s s' -> inv false s -> inv false s'.
Proof.
  intros H Hi. assert (forall m : outcome t, returns m (ok false) -> m = Ret s' -> inv false s') as Hret by (by intros m Hm ->; destruct Hm).
  destruct H as [Hd H|user result d Hu Ho H|user result name type Hu Ho H|user fuel result Hu Ho H|user fuel Hu Ho H|Hz Hd Hl H].
  - by apply (api_ok false s s').
  - eapply Hret; [|exact H]. apply on_open_dir_ok; [done|apply alive; tauto|done].
  - eapply Hret; [|exact H]. apply on_read_dir_ok; [done|apply alive; tauto|done].
  - eapply Hret; [|exact H]. apply on_close_dir_ok; [done|apply alive; tauto|done].
  - eapply Hret; [|exact H]. apply run_scheduled_ok; [done|apply alive; tauto].
  - pose proof (on_delete_ok s Hi Hz Hd Hl) as Hr. by rewrite H in Hr.
Qed.

Lemma dir_run_inv s : rtc step create s -> inv false s.
Proof. intros Hr. assert (inv false create) as H0 by apply inv_create_dir. induction Hr as [|s1 s2 s3 H12 H23 IH]; [done|]. apply IH. by eapply dir_step_inv. Qed.

(** C16. In every run of a directory object, whatever results libuv reports, with user code that schedules the removal once and makes no calls afterwards, does not do so while the directory is
    opening, closing or about to be opened again, or during a listing at whose end it has already asked to close, and does not list a directory that is closing: every callback returns, so that no
    directory is read after it was closed and no deleted object is called back; libuv has at most one directory open and it is the one the object has; a directory is not closed while
    it is being read; and the object is removed at most once, with its directory closed, and then nothing is left that could call back. *)
Theorem dir_life_safe s : rtc step create s ->
  (forall user result d, Calls user -> opening s = true -> returns (on_open_dir user s result d) (step s)) /\
  (forall user result name type, Calls user -> reading s = true -> returns (on_read_dir user s result name type) (step s)) /\
  (forall user fuel result, Calls user -> close_requests s <> [] -> returns (on_close_dir user fuel s result) (step s)) /\
  (forall user fuel, Calls user -> scheduled s <> [] -> returns (run_scheduled user fuel s) (step s)) /\
  open_dirs s = match m_uv_dir s with Some d => {[d]} | None => ∅ end /\
  (close_requests s <> [] -> reading s = false) /\
  (removals s <= 1)%nat /\ (removals s = 1%nat -> open_dirs s = ∅) /\
  (deleted s = true -> opening s = false /\ reading s = false /\ close_requests s = [] /\ scheduled s = []).
Proof.
  intros Hr. apply dir_run_inv in Hr as Hi. split_and!.
  - intros user result d Hu Ho. pose proof (on_open_dir_ok user Hu s result d (alive s Hi ltac:(tauto)) Ho) as H. apply returns_inv in H as (s' & E & _). rewrite E. by eapply step_opened.
  - intros user result name type Hu Ho. pose proof (on_read_dir_ok user Hu s result name type (alive s Hi ltac:(tauto)) Ho) as H. apply returns_inv in H as (s' & E & _). rewrite E. by eapply step_read.
  - intros user fuel result Hu Ho. pose proof (on_close_dir_ok user Hu fuel s result (alive s Hi ltac:(tauto)) Ho) as H. apply returns_inv in H as (s' & E & _). rewrite E. by eapply step_closed.
  - intros user fuel Hu Ho. pose proof (run_scheduled_ok user Hu fuel s (alive s Hi ltac:(tauto))) as H. apply returns_inv in H as (s' & E & _). rewrite E. by eapply step_scheduled.
  - pose proof (inv_dir _ _ Hi) as H. by destruct (m_uv_dir s); destruct H.
  - intros Hc. destruct (close_requests s) as [|[c d] l] eqn:E; [done|]. destruct (closing_one false s c d l Hi E) as (_ & _ & _ & Hrq & _). pose proof (inv_read _ _ Hi) as H. rewrite Hrq in H. by destruct H.
  - pose proof (inv_pending _ _ Hi) as H. unfold removal_pending in H. destruct (removal_scheduled s); lia.
  - intros Hz. pose proof (inv_removed _ _ Hi ltac:(lia)) as Hd. pose proof (inv_dir _ _ Hi) as H. rewrite Hd in H. by destruct H.
  - intros Hdel. by destruct (deleted_quiet s Hi Hdel) as (? & ? & ? & ? & _).
Qed.

End Life.

(** ** What goes wrong *)

Section Failures.
Context {uv : UvErrno}.
Variable user : Event -> t -> outcome t.

(** A directory that could not be opened counts as opened: opening it again does nothing, and its callback is not called. *)
Theorem failed_open_is_final s s' path callback result d fuel : m_open_callback s = None -> m_uv_dir s = None -> deleted s = false -> error_bool (Error_of_uv result) = true ->
  on_open_dir user s result d = Ret s' -> open user fuel s' path callback = Ret s'.
Proof.
  intros Hcb Hd Hdel He H. unfold on_open_dir in H. rewrite Hdel, He in H. cbn in H. rewrite Hcb in H. injection H as <-. unfold open. cbn [m_state].
  destruct fuel; cbn [close is_open]; unfold is_open; cbn; by rewrite Hd.
Qed.

(** The callback of a close of a directory that is not open is not called. *)
Theorem close_unopened_silent s c fuel : m_uv_dir s = None -> close user fuel s c = Ret s.
Proof. intros Hd. destruct fuel; cbn [close]; unfold is_open; by rewrite Hd. Qed.

(** Removal while the directory closes: the close callback that the removal gives is called at once and begins the removal again, without end. *)
Theorem removal_while_closing_recurses s d fuel : m_uv_dir s = Some d -> m_read_request s = None -> m_state s = CLOSING -> schedule_removal user fuel s = Fault FuelExhausted.
Proof.
  intros Hd Hr Hst. unfold schedule_removal. assert (forall s1, m_uv_dir s1 = Some d -> m_read_request s1 = None -> m_state s1 = CLOSING -> close user fuel s1 RemoveDir = Fault FuelExhausted) as Hrec.
  { induction fuel as [|fuel IH]; intros s1 Hd1 Hr1 Hst1; cbn [close]; unfold is_open; rewrite Hd1, Hr1, bool_decide_true by done; [done|]. by apply IH. }
  assert (is_open (s <| removal_scheduled := true |>) = true) as -> by (unfold is_open; cbn; by rewrite Hd). by apply Hrec.
Qed.

(** A refused [uv_fs_readdir] leaves its request behind: a close waits for it for ever. *)
Theorem refused_list_blocks_close s d r c fuel : m_uv_dir s = Some d -> m_read_request s = Some r -> deleted s = false -> m_state s = WANTCLOSE -> scheduled s = [CloseAgain c] ->
  run_scheduled user fuel s = Ret s.
Proof.
  intros Hd Hr Hdel Hst Hl. unfold run_scheduled. rewrite Hl, Hdel. cbn [negb]. rewrite (close_waits user fuel _ c d r) by done. destruct s. cbn in *. by subst.
Qed.

End Failures.

Section Examples.
#[local] Existing Instance UvFallback.

Definition name1 : list Z := [97].
Definition name2 : list Z := [98].
Definition get (m : outcome t) : t := match m with Ret s => s | Fault _ => create end.

Definition opening_dir : t := get (open silent 0 create [47] (Some 1%nat)).
Definition opened_dir : t := get (on_open_dir silent opening_dir 0 7).
Definition reading_dir : t := get (list_entries silent opened_dir false (Some 2%nat) (Some 3%nat) 0).
(** User code that closes the directory in its list callback, and removes it when the listing has ended. *)
Definition leaver (e : Event) (s : t) : outcome t :=
  match e, m_read_request s, m_state s, removal_scheduled s, close_requests s, scheduled s with
  | EntryCalled _ _ _, _, _, false, _, _ => match close silent 0 s NoCallback with Ret s' => Ret s' | Fault _ => Ret s end
  | EndListCalled _ _, None, WANTCLOSE, false, [], [CloseAgain NoCallback] => match schedule_removal silent 0 s with Ret s' => Ret s' | Fault _ => Ret s end
  | _, _, _, _, _, _ => Ret s
  end.

Lemma silent_calls : Calls silent.
Proof. intros e s. apply returns_ret. apply rtc_refl. Qed.

Lemma leaver_calls : Calls leaver.
Proof.
  intros e s. assert (returns (Ret s) (rtc api s)) as H0 by (apply returns_ret, rtc_refl). unfold leaver. destruct e; try exact H0.
  - destruct (removal_scheduled s) eqn:Hr; [exact H0|]. destruct (close silent 0 s NoCallback) as [s'|f] eqn:E; [|exact H0]. apply returns_ret, rtc_once. by apply (api_close s None).
  - destruct (m_read_request s) eqn:Hq; [exact H0|]. destruct (m_state s) eqn:Hst; try exact H0. destruct (removal_scheduled s) eqn:Hr; [exact H0|].
    destruct (close_requests s) eqn:Hc; [|exact H0]. destruct (scheduled s) as [|[|[]|] [|]] eqn:Hl; try exact H0. destruct (schedule_removal silent 0 s) as [s'|f] eqn:E; [|exact H0].
    apply returns_ret, rtc_once, api_schedule_removal; [done| |by rewrite Hq|by rewrite Hst|by rewrite Hst|done]. unfold settled. rewrite Hc, Hl. by repeat constructor.
Qed.

Definition left_dir : t := get (on_read_dir leaver reading_dir 1 name1 UV_DIRENT_FILE).
Definition quiet_dir : t := get (run_scheduled leaver 0 left_dir).
Definition closed_dir : t := get (on_close_dir leaver 0 quiet_dir 0).

Lemma closed_dir_run : rtc step create closed_dir.
Proof.
  apply (rtc_l _ _ opening_dir); [apply step_api, (api_open create [47] (Some 1%nat)); by vm_compute|].
  apply (rtc_l _ _ opened_dir); [apply (step_opened _ _ silent 0 7 silent_calls); by vm_compute|].
  apply (rtc_l _ _ reading_dir); [apply step_api, (api_list opened_dir false (Some 2%nat) (Some 3%nat) 0); by vm_compute|].
  apply (rtc_l _ _ left_dir); [apply (step_read _ _ leaver 1 name1 UV_DIRENT_FILE leaver_calls); by vm_compute|].
  apply (rtc_l _ _ quiet_dir); [apply (step_scheduled _ _ leaver 0 leaver_calls); by vm_compute|].
  apply rtc_once, (step_closed _ _ leaver 0 0 leaver_calls); by vm_compute.
Qed.

(** A directory that is closed in the list callback: the listing ends after that entry, the end callback removes the object, and the directory is closed once. *)
Lemma dir_life_safe_witness : events closed_dir = [OpenCalled 1 (Error_of_uv 0); EntryCalled 2 name1 FILE; EndListCalled 3 (Error_of_uv 1)] /\
  removals closed_dir = 1%nat /\ open_dirs closed_dir = ∅.
Proof.
  split; [reflexivity|]. split; [reflexivity|].
  destruct (dir_life_safe closed_dir closed_dir_run) as (_ & _ & _ & _ & _ & _ & _ & H & _). by apply H.
Defined.

(** User code stops at the second of three entries. *)
Definition stopper (e : Event) (s : t) : outcome t := match e with EntryCalled _ name _ => Ret (s <| m_proceed := negb (bool_decide (name = name2)) |>) | _ => Ret s end.

Lemma dir_listed_witness :
  returns (let* s := list_entries stopper opened_dir true (Some 2%nat) (Some 3%nat) 0 in read_entries stopper s [(name1, UV_DIRENT_DIR); (name2, UV_DIRENT_LINK); (name1, UV_DIRENT_FILE)])
    (fun s => events s = [OpenCalled 1 (Error_of_uv 0); EntryCalled 2 name1 DIR; EntryCalled 2 name2 LINK; EndListCalled 3 (Error_of_uv 0)]).
Proof.
  assert (forall e s, returns (stopper e s) (fun s' => listening s s' /\ match e with EntryCalled _ name _ => m_proceed s' = negb (bool_decide (name = name2)) | _ => True end)) as Hu.
  { intros e s. destruct e; apply returns_ret; split; done. }
  eapply returns_mono; [apply (dir_listed stopper (fun n => bool_decide (n = name2)) Hu opened_dir 7); try done; by vm_compute|].
  cbn beta. intros s' [H _]. etransitivity; [exact H|]. vm_compute. reflexivity.
Defined.

(** Removal while the directory opens: libuv calls back to a deleted object. *)
Example removed_while_opening : on_open_dir silent (get (on_delete (get (schedule_removal silent 0 opening_dir)))) 0 7 = Fault UseAfterFree.
Proof. reflexivity. Qed.

(** A directory that is being closed can still be listed; when it has been closed its next entry is asked for. *)
Example list_while_closing :
  let closing := get (close silent 0 opened_dir NoCallback) in
  let s := get (on_close_dir silent 0 (get (list_entries silent closing false (Some 2%nat) (Some 3%nat) 0)) 0) in
  on_read_dir silent s 1 name1 UV_DIRENT_FILE = Fault UseAfterFree.
Proof. vm_compute. reflexivity. Qed.

(** A close during a listing, followed by a removal, ends in the same recursion. *)
Example close_then_remove : 
  let s := get (schedule_removal silent 0 (get (close silent 0 reading_dir NoCallback))) in
  let s := get (on_read_dir silent s 0 [] UV_DIRENT_UNKNOWN) in
  run_scheduled silent 9 (get (run_scheduled silent 0 s)) = Fault FuelExhausted.
Proof. vm_compute. reflexivity. Qed.

End Examples.

End Dir.
