(* ===== verification/SslContext.v ===== *)
(** * Protocol versions and the OpenSSL context

    [net/TlsVersion.h], [net/DtlsVersion.h], [net/ProtocolVersion.cpp] and [net/detail/OpenSslContext.h]: which versions of TLS and DTLS
    a context allows, and how it gets its certificate.

    OpenSSL is not part of the program.  The option bits of its headers are the class [SslOptions]; a constant that an old version does
    not define is [None], which is what the [#ifdef]s test.  A context is its option word. *)

From S2P Require Import Prelude StatusCode.
Local Open Scope Z_scope.

Module SslContext.

(** ** Versions *)

Inductive TlsVersion := TlsUnknown | TlsV1_0 | TlsV1_1 | TlsV1_2 | TlsV1_3.
Inductive DtlsVersion := DtlsUnknown | DtlsV1_0 | DtlsV1_2.

#[global] Instance tls_version_eq_dec : EqDecision TlsVersion.
Proof. solve_decision. Defined.
#[global] Instance dtls_version_eq_dec : EqDecision DtlsVersion.
Proof. solve_decision. Defined.

(** What the template [set_tls_dtls_version] uses of an enumeration. *)
Class VersionType (V : Type) := {
  value : V -> nat;
  of_value : nat -> option V;
  MIN : V;
  MAX : V
}.

#[global] Instance TlsVersions : VersionType TlsVersion := {
  value v := match v with TlsUnknown => 0 | TlsV1_0 => 1 | TlsV1_1 => 2 | TlsV1_2 => 3 | TlsV1_3 => 4 end%nat;
  of_value n := match n with 0 => Some TlsUnknown | 1 => Some TlsV1_0 | 2 => Some TlsV1_1 | 3 => Some TlsV1_2 | 4 => Some TlsV1_3 | _ => None end%nat;
  MIN := TlsV1_0;
  MAX := TlsV1_3
}.

#[global] Instance DtlsVersions : VersionType DtlsVersion := {
  value v := match v with DtlsUnknown => 0 | DtlsV1_0 => 1 | DtlsV1_2 => 2 end%nat;
  of_value n := match n with 0 => Some DtlsUnknown | 1 => Some DtlsV1_0 | 2 => Some DtlsV1_2 | _ => None end%nat;
  MIN := DtlsV1_0;
  MAX := DtlsV1_2
}.

(** ** OpenSSL's options *)

(** The macros for the options that forbid a version. *)
Class SslOptions := {
  SSL_OP_NO_SSLv2 : Z;
  SSL_OP_NO_SSLv3 : Z;
  no_tls : TlsVersion -> option Z;
  no_dtls : DtlsVersion -> option Z
}.

Section Context.
Context {opts : SslOptions}.

Definition SSL_CTX_set_options (ctx op : Z) : Z := Z.lor ctx op.
Definition SSL_CTX_clear_options (ctx op : Z) : Z := Z.ldiff ctx op.

Definition enable_tls_version (ctx : Z) (version : nat) : Z :=
  match of_value version with
  | None | Some TlsUnknown => ctx
  | Some v => match no_tls v with Some op => SSL_CTX_clear_options ctx op | None => ctx end
  end.

Definition disable_tls_version (ctx : Z) (version : nat) : Z :=
  match of_value version with
  | None | Some TlsUnknown => ctx
  | Some v => match no_tls v with Some op => SSL_CTX_set_options ctx op | None => ctx end
  end.

Definition enable_dtls_version (ctx : Z) (version : nat) : Z :=
  match of_value version with
  | None | Some DtlsUnknown => ctx
  | Some v => match no_dtls v with Some op => SSL_CTX_clear_options ctx op | None => ctx end
  end.

Definition disable_dtls_version (ctx : Z) (version : nat) : Z :=
  match of_value version with
  | None | Some DtlsUnknown => ctx
  | Some v => match no_dtls v with Some op => SSL_CTX_set_options ctx op | None => ctx end
  end.

(** [for (v = first; v < last; ++v)] with a call for each [v]. *)
Definition for_each (first last : nat) (method : Z -> nat -> Z) (ctx : Z) : Z := foldl method ctx (seq first (last - first)).

(** [set_tls_dtls_version].  The first loop starts at the minimum of [TlsVersion] for either enumeration. *)
Definition set_tls_dtls_version {V : Type} {versions : VersionType V} (EnableMethod DisableMethod : Z -> nat -> Z) (ctx : Z) (version_min version_max : V) : Z * Error :=
  if (value version_max <? value version_min)%nat
  then (ctx, Error_with_info OPENSSL_ERROR "Version mismatch. Minimum version is greater than maximum")
  else
    let ctx := if negb (value version_min =? value MIN)%nat then for_each (value (MIN : TlsVersion)) (value version_min) DisableMethod ctx else ctx in
    let ctx := if negb (value version_max =? value MAX)%nat then for_each (value version_max + 1) (value MAX + 1) DisableMethod ctx else ctx in
    (for_each (value version_min) (value version_max + 1) EnableMethod ctx, Error_of_status OK).

Definition set_tls_version (ctx : Z) (version_min version_max : TlsVersion) : Z * Error :=
  let ctx := SSL_CTX_set_options ctx SSL_OP_NO_SSLv2 in
  let ctx := SSL_CTX_set_options ctx SSL_OP_NO_SSLv3 in
  set_tls_dtls_version enable_tls_version disable_tls_version ctx version_min version_max.

Definition set_dtls_version (ctx : Z) (version_min version_max : DtlsVersion) : Z * Error :=
  set_tls_dtls_version enable_dtls_version disable_dtls_version ctx version_min version_max.

(** ** Supported versions

    OpenSSL defines the option that forbids a version together with the number of the version. *)

Definition min_supported_tls_version : TlsVersion :=
  match no_tls TlsV1_0, no_tls TlsV1_1, no_tls TlsV1_2 with
  | Some _, _, _ => TlsV1_0
  | None, Some _, _ => TlsV1_1
  | None, None, Some _ => TlsV1_2
  | None, None, None => TlsV1_3
  end.

Definition max_supported_tls_version : TlsVersion :=
  match no_tls TlsV1_3, no_tls TlsV1_2, no_tls TlsV1_1 with
  | Some _, _, _ => TlsV1_3
  | None, Some _, _ => TlsV1_2
  | None, None, Some _ => TlsV1_1
  | None, None, None => TlsV1_0
  end.

Definition min_supported_dtls_version : DtlsVersion := match no_dtls DtlsV1_0 with Some _ => DtlsV1_0 | None => DtlsV1_2 end.
Definition max_supported_dtls_version : DtlsVersion := match no_dtls DtlsV1_2 with Some _ => DtlsV1_2 | None => DtlsV1_0 end.

(** ** Making a context *)

(** What OpenSSL answers: whether [SSL_CTX_new] gives a context, with its options, and the results of the other calls. *)
Record Answers := mkAnswers {
  SSL_CTX_new : option Z;
  SSL_CTX_set_cipher_list : string -> Z;
  SSL_CTX_use_certificate : Z;
  SSL_CTX_use_PrivateKey : Z;
  SSL_CTX_check_private_key : Z
}.

Definition init_ssl_context (a : Answers) (ciphers : string) : option Z * Error :=
  match SSL_CTX_new a with
  | None => (None, Error_with_info OPENSSL_ERROR "Failed to init SSL context")
  | Some ctx =>
      if SSL_CTX_set_cipher_list a ciphers =? 0 then (Some ctx, Error_with_info OPENSSL_ERROR "Failed to set ciphers list")
      else (Some ctx, Error_of_status OK)
  end.

Definition ssl_init_certificate_and_key (a : Answers) : Error :=
  if SSL_CTX_use_certificate a =? 0 then Error_with_info OPENSSL_ERROR "Failed to load certificate"
  else if SSL_CTX_use_PrivateKey a =? 0 then Error_with_info OPENSSL_ERROR "Failed to load private key"
  else if SSL_CTX_check_private_key a =? 0 then Error_with_info OPENSSL_ERROR "Failed to check private key"
  else Error_of_status OK.

End Context.

(** ** The versions a context allows *)

Definition disjoint (a b : Z) : Prop := Z.land a b = 0.

(** The options are bits of their own: two versions of one protocol share none, and forbidding the versions of SSL forbids none of TLS. *)
Class SslOptionLaws (opts : SslOptions) := {
  no_tls_bits v op : no_tls v = Some op -> op <> 0;
  no_dtls_bits v op : no_dtls v = Some op -> op <> 0;
  no_tls_disjoint v w op op' : v <> w -> no_tls v = Some op -> no_tls w = Some op' -> disjoint op op';
  no_dtls_disjoint v w op op' : v <> w -> no_dtls v = Some op -> no_dtls w = Some op' -> disjoint op op';
  no_ssl_disjoint v op : no_tls v = Some op -> disjoint SSL_OP_NO_SSLv2 op /\ disjoint SSL_OP_NO_SSLv3 op
}.

(** The whole option is set, or no bit of it. *)
Definition forbidden (ctx op : Z) : Prop := Z.land ctx op = op.
Definition allowed (ctx op : Z) : Prop := Z.land ctx op = 0.

(** *** Bits *)

Lemma land_lor_same c op : Z.land (Z.lor c op) op = op.
Proof. apply Z.bits_inj'. intros n _. rewrite Z.land_spec, Z.lor_spec. by destruct (Z.testbit c n), (Z.testbit op n). Qed.

Lemma land_ldiff_same c op : Z.land (Z.ldiff c op) op = 0.
Proof. apply Z.bits_inj'. intros n _. rewrite Z.land_spec, Z.ldiff_spec, Z.bits_0. by destruct (Z.testbit c n), (Z.testbit op n). Qed.

Lemma disjoint_bits a b n : disjoint a b -> Z.testbit a n && Z.testbit b n = false.
Proof. intros H. by rewrite <- Z.land_spec, H, Z.bits_0. Qed.

Lemma land_lor_other c op op' : disjoint op' op -> Z.land (Z.lor c op') op = Z.land c op.
Proof.
  intros H. apply Z.bits_inj'. intros n _. rewrite !Z.land_spec, Z.lor_spec. pose proof (disjoint_bits _ _ n H) as Hn.
  by destruct (Z.testbit c n), (Z.testbit op n), (Z.testbit op' n).
Qed.

Lemma land_ldiff_other c op op' : disjoint op' op -> Z.land (Z.ldiff c op') op = Z.land c op.
Proof.
  intros H. apply Z.bits_inj'. intros n _. rewrite !Z.land_spec, Z.ldiff_spec. pose proof (disjoint_bits _ _ n H) as Hn.
  by destruct (Z.testbit c n), (Z.testbit op n), (Z.testbit op' n).
Qed.

(** *** The loops, for either enumeration *)

Section Loops.
Context {opts : SslOptions} {V : Type} {versions : VersionType V}.
Variable op_of : nat -> option Z.
Variables EnableMethod DisableMethod : Z -> nat -> Z.
Hypothesis op_disjoint : forall n m op op', n <> m -> op_of n = Some op -> op_of m = Some op' -> disjoint op op'.
Hypothesis enable_spec : forall ctx n, EnableMethod ctx n = match op_of n with Some op => Z.ldiff ctx op | None => ctx end.
Hypothesis disable_spec : forall ctx n, DisableMethod ctx n = match op_of n with Some op => Z.lor ctx op | None => ctx end.

Lemma disable_all l ctx n op : op_of n = Some op -> n ∈ l \/ forbidden ctx op -> forbidden (foldl DisableMethod ctx l) op.
Proof.
  intros Hop. revert ctx. induction l as [|m l IH]; intros ctx H; cbn; [by destruct H as [?%not_elem_of_nil|]|]. apply IH. rewrite disable_spec. unfold forbidden in *.
  destruct (decide (m = n)) as [->|Hne]; [right; by rewrite Hop, land_lor_same|]. destruct H as [[?|H]%elem_of_cons|H]; [done|by left|right].
  destruct (op_of m) as [op'|] eqn:Hm; [|done]. by rewrite land_lor_other by by apply (op_disjoint m n).
Qed.

Lemma disable_others l ctx n op : op_of n = Some op -> n ∉ l -> Z.land (foldl DisableMethod ctx l) op = Z.land ctx op.
Proof.
  intros Hop. revert ctx. induction l as [|m l IH]; intros ctx H; cbn; [done|]. apply not_elem_of_cons in H as [Hne H]. rewrite IH, disable_spec by done.
  destruct (op_of m) as [op'|] eqn:Hm; [|done]. by rewrite land_lor_other by (apply (op_disjoint m n); congruence).
Qed.

Lemma enable_all l ctx n op : op_of n = Some op -> n ∈ l \/ allowed ctx op -> allowed (foldl EnableMethod ctx l) op.
Proof.
  intros Hop. revert ctx. induction l as [|m l IH]; intros ctx H; cbn; [by destruct H as [?%not_elem_of_nil|]|]. apply IH. rewrite enable_spec. unfold allowed in *.
  destruct (decide (m = n)) as [->|Hne]; [right; by rewrite Hop, land_ldiff_same|]. destruct H as [[?|H]%elem_of_cons|H]; [done|by left|right].
  destruct (op_of m) as [op'|] eqn:Hm; [|done]. by rewrite land_ldiff_other by by apply (op_disjoint m n).
Qed.

Lemma enable_others l ctx n op : op_of n = Some op -> n ∉ l -> Z.land (foldl EnableMethod ctx l) op = Z.land ctx op.
Proof.
  intros Hop. revert ctx. induction l as [|m l IH]; intros ctx H; cbn; [done|]. apply not_elem_of_cons in H as [Hne H]. rewrite IH, enable_spec by done.
  destruct (op_of m) as [op'|] eqn:Hm; [|done]. by rewrite land_ldiff_other by (apply (op_disjoint m n); congruence).
Qed.

Lemma range_elem a b n : n ∈ seq a (b - a) <-> (a <= n < b)%nat.
Proof. rewrite elem_of_seq. lia. Qed.

(** A version within the range ends up allowed and any other forbidden, whatever the options were. *)
Lemma set_version_exact ctx vmin vmax n op : (value vmin <= value vmax)%nat -> value (V := V) MIN = 1%nat -> (1 <= n <= value (V := V) MAX)%nat -> op_of n = Some op ->
  exists ctx', set_tls_dtls_version EnableMethod DisableMethod ctx vmin vmax = (ctx', Error_of_status OK) /\
    if decide (value vmin <= n <= value vmax)%nat then allowed ctx' op else forbidden ctx' op.
Proof.
  intros Hle Hmin Hn Hop. unfold set_tls_dtls_version. rewrite (proj2 (Nat.ltb_ge _ _)) by done. cbn zeta. eexists. split; [done|]. unfold for_each.
  destruct (decide _) as [Hin|Hout].
  - apply (enable_all _ _ n); [done|left]. apply range_elem. lia.
  - unfold forbidden. rewrite (enable_others _ _ n) by (done || (rewrite range_elem; lia)).
    change (@value TlsVersion TlsVersions (@MIN TlsVersion TlsVersions)) with 1%nat. rewrite Hmin.
    destruct (decide (n < value vmin)%nat) as [Hlow|Hhigh].
    + rewrite (proj2 (Nat.eqb_neq (value vmin) 1)) by lia. cbn [negb].
      assert (forall c, forbidden (foldl DisableMethod c (seq 1 (value vmin - 1))) op) as H.
      { intros c. apply (disable_all _ _ n); [done|left]. apply range_elem. lia. }
      destruct (value vmax =? value MAX)%nat; [apply H|]. cbn [negb]. apply (disable_all _ _ n); [done|right; apply H].
    + rewrite (proj2 (Nat.eqb_neq (value vmax) _)) by lia. cbn [negb]. apply (disable_all _ _ n); [done|left]. apply range_elem. lia.
Qed.

(** The loops touch nothing but the options of versions. *)
Lemma set_version_rest ctx vmin vmax ctx' error op : (forall n op', op_of n = Some op' -> disjoint op' op) ->
  set_tls_dtls_version EnableMethod DisableMethod ctx vmin vmax = (ctx', error) -> Z.land ctx' op = Z.land ctx op.
Proof.
  intros Hd. assert (forall l c, Z.land (foldl DisableMethod c l) op = Z.land c op) as Hdis.
  { induction l as [|m l IH]; intros c; [done|]. cbn. rewrite IH, disable_spec. destruct (op_of m) eqn:E; [|done]. by rewrite land_lor_other by by eapply Hd. }
  assert (forall l c, Z.land (foldl EnableMethod c l) op = Z.land c op) as Hen.
  { induction l as [|m l IH]; intros c; [done|]. cbn. rewrite IH, enable_spec. destruct (op_of m) eqn:E; [|done]. by rewrite land_ldiff_other by by eapply Hd. }
  unfold set_tls_dtls_version. destruct (_ <? _)%nat; intros [= <- <-]; [done|]. unfold for_each. rewrite Hen. destruct (negb _), (negb _); rewrite ?Hdis; done.
Qed.

End Loops.

Section Versions.
Context {opts : SslOptions} {laws : SslOptionLaws opts}.

Definition tls_op (n : nat) : option Z := match of_value n with None | Some TlsUnknown => None | Some v => no_tls v end.
Definition dtls_op (n : nat) : option Z := match of_value n with None | Some DtlsUnknown => None | Some v => no_dtls v end.

Lemma tls_op_disjoint n m op op' : n <> m -> tls_op n = Some op -> tls_op m = Some op' -> disjoint op op'.
Proof.
  intros Hne. destruct n as [|[|[|[|[|]]]]], m as [|[|[|[|[|]]]]]; try done; intros H1 H2; revert H1 H2; by apply no_tls_disjoint.
Qed.

Lemma dtls_op_disjoint n m op op' : n <> m -> dtls_op n = Some op -> dtls_op m = Some op' -> disjoint op op'.
Proof. intros Hne. destruct n as [|[|[|]]], m as [|[|[|]]]; try done; intros H1 H2; revert H1 H2; by apply no_dtls_disjoint. Qed.

Lemma enable_tls_op ctx n : enable_tls_version ctx n = match tls_op n with Some op => Z.ldiff ctx op | None => ctx end.
Proof. by destruct n as [|[|[|[|[|]]]]]. Qed.
Lemma disable_tls_op ctx n : disable_tls_version ctx n = match tls_op n with Some op => Z.lor ctx op | None => ctx end.
Proof. by destruct n as [|[|[|[|[|]]]]]. Qed.
Lemma enable_dtls_op ctx n : enable_dtls_version ctx n = match dtls_op n with Some op => Z.ldiff ctx op | None => ctx end.
Proof. by destruct n as [|[|[|]]]. Qed.
Lemma disable_dtls_op ctx n : disable_dtls_version ctx n = match dtls_op n with Some op => Z.lor ctx op | None => ctx end.
Proof. by destruct n as [|[|[|]]]. Qed.

(** [set_tls_version] with a minimum not above the maximum makes a context that allows exactly the versions of the range, whatever options OpenSSL
    starts with: every version the library knows is allowed if it is in the range and forbidden if it is not; SSL 2 and 3 are forbidden.
    [set_dtls_version] does the same for DTLS. *)
Theorem version_range_enforced ctx :
  (forall vmin vmax, (value vmin <= value vmax)%nat -> exists ctx', set_tls_version ctx vmin vmax = (ctx', Error_of_status OK) /\
     forbidden ctx' SSL_OP_NO_SSLv2 /\ forbidden ctx' SSL_OP_NO_SSLv3 /\
     forall v op, v <> TlsUnknown -> no_tls v = Some op -> if decide (value vmin <= value v <= value vmax)%nat then allowed ctx' op else forbidden ctx' op) /\
  (forall vmin vmax, (value vmin <= value vmax)%nat -> exists ctx', set_dtls_version ctx vmin vmax = (ctx', Error_of_status OK) /\
     forall v op, v <> DtlsUnknown -> no_dtls v = Some op -> if decide (value vmin <= value v <= value vmax)%nat then allowed ctx' op else forbidden ctx' op).
Proof.
  split; intros vmin vmax Hle.
  - unfold set_tls_version. set (c := SSL_CTX_set_options _ _). destruct (set_tls_dtls_version _ _ c vmin vmax) as [ctx' error] eqn:E.
    assert (forall op, (forall v op', v <> TlsUnknown -> no_tls v = Some op' -> disjoint op' op) -> Z.land ctx' op = Z.land c op) as Hrest.
    { intros op Hd. eapply set_version_rest in E; [exact E|apply enable_tls_op|apply disable_tls_op|].
      intros n op' Hn. destruct n as [|[|[|[|[|]]]]]; try done; by eapply Hd; [|exact Hn]. }
    assert (error = Error_of_status OK) as ->.
    { unfold set_tls_dtls_version in E. rewrite (proj2 (Nat.ltb_ge _ _)) in E by done. by injection E. }
    exists ctx'. split_and!; [done|..].
    + unfold forbidden. rewrite Hrest. { subst c. unfold SSL_CTX_set_options. rewrite <- Z.lor_assoc, (Z.lor_comm SSL_OP_NO_SSLv2), Z.lor_assoc. apply land_lor_same. }
      intros v op' _ Hv. unfold disjoint. rewrite Z.land_comm. by apply (no_ssl_disjoint v).
    + unfold forbidden. rewrite Hrest. { subst c. apply land_lor_same. } intros v op' _ Hv. unfold disjoint. rewrite Z.land_comm. by apply (no_ssl_disjoint v).
    + intros v op Hv Hop. destruct (set_version_exact tls_op enable_tls_version disable_tls_version tls_op_disjoint enable_tls_op disable_tls_op c vmin vmax (value v) op Hle)
        as (ctx2 & E2 & H); [done|destruct v; (done || (cbn; lia))|by destruct v|]. rewrite E in E2. by injection E2 as <-.
  - unfold set_dtls_version. destruct (set_tls_dtls_version _ _ ctx vmin vmax) as [ctx' error] eqn:E.
    assert (error = Error_of_status OK) as ->.
    { unfold set_tls_dtls_version in E. rewrite (proj2 (Nat.ltb_ge _ _)) in E by done. by injection E. }
    exists ctx'. split; [done|]. intros v op Hv Hop.
    destruct (set_version_exact dtls_op enable_dtls_version disable_dtls_version dtls_op_disjoint enable_dtls_op disable_dtls_op ctx vmin vmax (value v) op Hle)
      as (ctx2 & E2 & H); [done|destruct v; (done || (cbn; lia))|by destruct v|]. rewrite E in E2. by injection E2 as <-.
Qed.

End Versions.

(** The constants of OpenSSL 1.1.1. *)
Definition OpenSsl111 : SslOptions := {|
  SSL_OP_NO_SSLv2 := 0;
  SSL_OP_NO_SSLv3 := 0x02000000;
  no_tls v := match v with TlsUnknown => None | TlsV1_0 => Some 0x04000000 | TlsV1_1 => Some 0x10000000 | TlsV1_2 => Some 0x08000000 | TlsV1_3 => Some 0x20000000 end;
  no_dtls v := match v with DtlsUnknown => None | DtlsV1_0 => Some 0x04000000 | DtlsV1_2 => Some 0x08000000 end
|}.

#[local] Instance OpenSsl111_laws : SslOptionLaws OpenSsl111.
Proof.
  split.
  - by intros [] op [= <-].
  - by intros [] op [= <-].
  - by intros [] [] op op' Hne [= <-] [= <-].
  - by intros [] [] op op' Hne [= <-] [= <-].
  - by intros [] op [= <-].
Qed.

Lemma version_range_enforced_witness :
  exists ctx, set_tls_version (opts := OpenSsl111) 0 TlsV1_1 TlsV1_2 = (ctx, Error_of_status OK) /\ forbidden ctx 0x04000000 /\ allowed ctx 0x10000000 /\ forbidden ctx 0x20000000.
Proof.
  destruct (proj1 (version_range_enforced (opts := OpenSsl111) 0) TlsV1_1 TlsV1_2) as (ctx & E & _ & _ & H); [cbn; lia|].
  exists ctx. split; [exact E|]. split; [|split].
  - exact (H TlsV1_0 _ ltac:(done) eq_refl).
  - exact (H TlsV1_1 _ ltac:(done) eq_refl).
  - exact (H TlsV1_3 _ ltac:(done) eq_refl).
Defined.

(** A range without a known version forbids them all. *)
Example unknown_range_forbids_all :
  set_tls_version (opts := OpenSsl111) 0 TlsUnknown TlsUnknown = (0x3e000000, Error_of_status OK).
Proof. reflexivity. Qed.

End SslContext.
