(* ===== verification/Configuration.v ===== *)
(** * global::Configuration

    [source/io/global/Configuration.cpp]: the socket buffer sizes the system allows, found by searching, the global variables and
    settings, and the size of libuv's thread pool.

    A UDP handle of libuv and [uv_recv_buffer_size] or [uv_send_buffer_size] on it are the class [Socket]; the call gets and changes an
    [int].  The class [LinuxSocket] is what Linux says about them.  [size_t] has 64 bits and [int] has 32. *)

From S2P Require Import Prelude.
Local Open Scope Z_scope.
Local Open Scope outcome_scope.

Module Configuration.

Definition to_int (z : Z) : Z := let w := wrap 32 z in if w <? 2 ^ 31 then w else w - 2 ^ 32.
Definition to_size_t (z : Z) : Z := wrap 64 z.

(** The return values of the calls that make the handle, the handle when they have been made, and the accessor: the handle, the integer
    and the return value afterwards. *)
Class Socket (H : Type) := {
  uv_loop_init : Z;
  uv_udp_init : Z;
  uv_udp_bind : Z;
  new_handle : H;
  accessor_function : H -> Z -> H * Z * Z
}.

Inductive BufferSizeSearchDirection := SearchMin | SearchMax.

Section Search.
Context {H : Type} {socket : Socket H}.

(** Twice the size is reported on Linux. *)
Definition size_multiplier : Z := 2.

Definition is_buffer_size_available (handle : H) (size : Z) : H * bool :=
  if size =? 0 then (handle, false)
  else
    let '(handle, size_to_set, setter_error) := accessor_function handle (to_int size) in
    if negb (setter_error =? 0) then (handle, false)
    else
      let '(handle, size_to_get, getter_error) := accessor_function handle 0 in
      if negb (getter_error =? 0) then (handle, false)
      else (handle, negb (negb (to_size_t size_to_get =? to_size_t (to_size_t size_to_set * size_multiplier)))).

(** The handle is there once it has been initialised. *)
Definition init_handle_for_buffer_size : option H * Z :=
  if negb (uv_loop_init =? 0) then (None, 0)
  else if negb (uv_udp_init =? 0) then (None, 0)
  else if negb (uv_udp_bind =? 0) then (Some new_handle, 0)
  else (Some new_handle, 0).

Definition half (upper_bound lower_bound : Z) : Z := wrap 64 (upper_bound + lower_bound) / 2.

Fixpoint search (fuel : nat) (handle : H) (lower_bound upper_bound : Z) (direction : BufferSizeSearchDirection) : outcome (H * Z * Z) :=
  if wrap 64 (lower_bound + 1) <? upper_bound then
    match fuel with
    | O => Fault FuelExhausted
    | S fuel =>
        let value_to_test := half upper_bound lower_bound in
        let '(handle, available) := is_buffer_size_available handle value_to_test in
        match available, direction with
        | true, SearchMin | false, SearchMax => search fuel handle lower_bound value_to_test direction
        | true, SearchMax | false, SearchMin => search fuel handle value_to_test upper_bound direction
        end
    end
  else Ret (handle, lower_bound, upper_bound).

Definition bound_buffer_size (fuel : nat) (handle : H) (lower_bound upper_bound : Z) (direction : BufferSizeSearchDirection) : outcome (H * Z) :=
  let* (handle, lower_bound, upper_bound) := search fuel handle lower_bound upper_bound direction in
  match direction with
  | SearchMin => let '(handle, available) := is_buffer_size_available handle lower_bound in Ret (handle, if available then lower_bound else upper_bound)
  | SearchMax => let '(handle, available) := is_buffer_size_available handle upper_bound in Ret (handle, if available then upper_bound else lower_bound)
  end.

Definition min_buffer_size (fuel : nat) (default_value : Z) : outcome Z :=
  let '(handle, init_error) := init_handle_for_buffer_size in
  if negb (init_error =? 0) then Ret 0
  else match handle with
  | None => Fault Uninitialised
  | Some handle => let* (_, result) := bound_buffer_size fuel handle 0 default_value SearchMin in Ret result
  end.

Definition default_buffer_size : outcome Z :=
  let '(handle, init_error) := init_handle_for_buffer_size in
  if negb (init_error =? 0) then Ret 0
  else match handle with
  | None => Fault Uninitialised
  | Some handle =>
      let '(_, size_value, size_error) := accessor_function handle 0 in
      if negb (size_error =? 0) then Ret 0 else Ret (to_size_t size_value)
  end.

Definition upper_limit : Z := (2 ^ 31 - 1) / 2.

(** [while (is_buffer_size_available(...) && upper_bound < upper_limit)]. *)
Fixpoint grow (fuel : nat) (handle : H) (upper_bound : Z) : outcome (H * Z) :=
  let '(handle, available) := is_buffer_size_available handle upper_bound in
  if available && (upper_bound <? upper_limit) then
    match fuel with
    | O => Fault FuelExhausted
    | S fuel => grow fuel handle (wrap 64 (upper_bound * 2))
    end
  else Ret (handle, upper_bound).

Definition max_buffer_size (fuel : nat) (default_value : Z) : outcome Z :=
  let '(handle, init_error) := init_handle_for_buffer_size in
  if negb (init_error =? 0) then Ret 0
  else match handle with
  | None => Fault Uninitialised
  | Some handle =>
      let* (handle, upper_bound) := grow fuel handle default_value in
      let* (_, result) := bound_buffer_size fuel handle default_value upper_bound SearchMax in Ret result
  end.

End Search.

(** ** The global variables *)

Record Globals := mkGlobals {
  m_default_receive_buffer_size : Z; m_min_receive_buffer_size : Z; m_max_receive_buffer_size : Z;
  m_default_send_buffer_size : Z; m_min_send_buffer_size : Z; m_max_send_buffer_size : Z }.

(** The static initialisation, in its order, over the accessors for receiving and sending. *)
Definition initialise {H : Type} (receive send : Socket H) (fuel : nat) : outcome Globals :=
  let* default_receive := default_buffer_size (socket := receive) in
  let* min_receive := min_buffer_size (socket := receive) fuel default_receive in
  let* max_receive := max_buffer_size (socket := receive) fuel default_receive in
  let* default_send := default_buffer_size (socket := send) in
  let* min_send := min_buffer_size (socket := send) fuel default_send in
  let* max_send := max_buffer_size (socket := send) fuel default_send in
  Ret (mkGlobals default_receive min_receive max_receive default_send min_send max_send).

Definition min_receive_buffer_size (g : Globals) : Z := m_min_receive_buffer_size g.
Definition default_receive_buffer_size (g : Globals) : Z := m_default_receive_buffer_size g.
Definition max_receive_buffer_size (g : Globals) : Z := m_max_receive_buffer_size g.
Definition min_send_buffer_size (g : Globals) : Z := m_min_send_buffer_size g.
Definition default_send_buffer_size (g : Globals) : Z := m_default_send_buffer_size g.
Definition max_send_buffer_size (g : Globals) : Z := m_max_send_buffer_size g.

(** The two settings: the callback of the loggers made from now on, by its name, and the ciphers that [SslContext] is given. *)
Record Settings := mkSettings { g_logger_callback : option nat; g_ciphers_list : string }.

Definition default_settings : Settings := mkSettings None "ALL:!SHA256:!SHA384:!aPSK:!ECDSA+SHA1:!ADH:!LOW:!EXP:!MD5".

Definition logger_callback (g : Settings) : option nat := g_logger_callback g.
Definition set_logger_callback (g : Settings) (callback : option nat) : Settings := mkSettings callback (g_ciphers_list g).
Definition set_ciphers_list (g : Settings) (ciphers : string) : Settings := mkSettings (g_logger_callback g) ciphers.
Definition ciphers_list (g : Settings) : string := g_ciphers_list g.

(** ** The thread pool *)

(** By the version of the libuv that the program is compiled with: 1.30.0 is [0x11e00]. *)
Definition MAX_THREADPOOL_SIZE (UV_VERSION_HEX : Z) : Z := if UV_VERSION_HEX <=? 0x11e00 then 128 else 1024.

Definition is_space (c : Z) : bool := (c =? 32) || ((9 <=? c) && (c <=? 13)).
Definition is_digit (c : Z) : bool := (48 <=? c) && (c <=? 57).

Fixpoint skip_spaces (s : list Z) : list Z :=
  match s with c :: rest => if is_space c then skip_spaces rest else s | [] => [] end.

Fixpoint digits (s : list Z) (acc : Z) : Z :=
  match s with c :: rest => if is_digit c then digits rest (acc * 10 + (c - 48)) else acc | [] => acc end.

(** [std::stoi]: white space, a sign and digits, and whatever follows; an exception without digits and for a number that is no
    [int]. *)
Definition stoi (s : list Z) : outcome Z :=
  let s := skip_spaces s in
  let '(negative, s) := match s with 45 :: rest => (true, rest) | 43 :: rest => (false, rest) | _ => (false, s) end in
  match s with
  | c :: _ =>
      if is_digit c then
        let n := if negative then - digits s 0 else digits s 0 in
        if (- 2 ^ 31 <=? n) && (n <? 2 ^ 31) then Ret n else Fault OutOfRange
      else Fault OutOfRange
  | [] => Fault OutOfRange
  end.

(** The value of the environment variable [UV_THREADPOOL_SIZE], if it is set. *)
Definition thread_pool_size (UV_VERSION_HEX : Z) (val : option (list Z)) : outcome Z :=
  let* nthreads := match val with Some val => stoi val | None => Ret 4 end in
  let nthreads := if nthreads <=? 0 then 1 else nthreads in
  let nthreads := if MAX_THREADPOOL_SIZE UV_VERSION_HEX <? nthreads then MAX_THREADPOOL_SIZE UV_VERSION_HEX else nthreads in
  Ret nthreads.

(** ** Theorems *)

(** What Linux says: setting a size between the limits of the system keeps twice that size, anything else is cut to the limits first, and
    the size that is kept can be read. *)
Class LinuxSocket {H : Type} (socket : Socket H) (lo hi : Z) := {
  kept : H -> Z;
  limits : 0 < lo <= hi /\ hi < upper_limit;
  handle_made : uv_loop_init = 0 /\ uv_udp_init = 0 /\ uv_udp_bind = 0;
  set_size h v : 0 < v < 2 ^ 31 -> exists h', accessor_function h v = (h', v, 0) /\ kept h' = 2 * Z.min (Z.max v lo) hi;
  get_size h : exists h', accessor_function h 0 = (h', kept h, 0) /\ kept h' = kept h
}.

Section Limits.
Context {H : Type} {socket : Socket H} {lo hi : Z} {linux : LinuxSocket socket lo hi}.

Definition within (size : Z) : bool := (lo <=? size) && (size <=? hi).

Lemma available_within h size : 0 <= size < 2 ^ 31 -> exists h', is_buffer_size_available h size = (h', within size).
Proof.
  intros Hs. pose proof limits as [Hlo Hhi]. change upper_limit with 1073741823 in Hhi. unfold is_buffer_size_available, within. destruct (Z.eqb_spec size 0) as [->|Hne].
  { exists h. by rewrite (proj2 (Z.leb_gt _ _)) by lia. }
  assert (to_int size = size) as ->. { unfold to_int. rewrite wrap_small by (unfold fits; lia). by rewrite (proj2 (Z.ltb_lt _ _)) by lia. }
  destruct (set_size h size) as (h1 & -> & Hk); [lia|]. destruct (get_size h1) as (h2 & -> & _). exists h2. cbn [negb Z.eqb]. rewrite negb_involutive. f_equal.
  unfold to_size_t, size_multiplier. rewrite !(wrap_small 64); [|unfold fits; rewrite ?wrap_small; unfold fits; lia..]. rewrite Hk.
  apply eq_true_iff_eq. rewrite Z.eqb_eq, andb_true_iff, !Z.leb_le. lia.
Qed.

Lemma half_between l u : 0 <= l -> l + 1 < u -> u < 2 ^ 31 -> l < half u l < u.
Proof. intros. unfold half. rewrite wrap_small by (unfold fits; lia). pose proof (Z.div_mod (u + l) 2 ltac:(lia)). pose proof (Z.mod_pos_bound (u + l) 2 ltac:(lia)). lia. Qed.

Lemma half_halves l u fuel : 0 <= l -> l + 1 < u -> u < 2 ^ 31 -> u - l <= 2 ^ Z.of_nat (S fuel) -> half u l - l <= 2 ^ Z.of_nat fuel /\ u - half u l <= 2 ^ Z.of_nat fuel.
Proof.
  intros Hl Hlu Hu Hd. unfold half. rewrite wrap_small by (unfold fits; lia). rewrite Nat2Z.inj_succ, Z.pow_succ_r in Hd by lia.
  pose proof (Z.div_mod (u + l) 2 ltac:(lia)). pose proof (Z.mod_pos_bound (u + l) 2 ltac:(lia)).
  assert (2 ^ Z.of_nat fuel = 1 \/ 2 ^ Z.of_nat fuel mod 2 = 0) as Hpar.
  { destruct fuel; [by left|right]. by rewrite Nat2Z.inj_succ, Z.pow_succ_r, Z.mul_comm, Z_mod_mult by lia. }
  split; [lia|]. lia.
Qed.

(** The search keeps a bound on each side. *)
Lemma search_ends fuel h l u direction : 0 <= l < u -> u < 2 ^ 31 -> u - l <= 2 ^ Z.of_nat fuel ->
  (direction = SearchMin -> within l = false /\ within u = true) -> (direction = SearchMax -> within l = true /\ within u = false \/ within l = true /\ within u = true) ->
  exists h' l' u', search fuel h l u direction = Ret (h', l', u') /\ u' = l' + 1 /\ l <= l' /\ u' <= u /\
    (direction = SearchMin -> within l' = false /\ within u' = true) /\
    (direction = SearchMax -> within l' = true /\ (within u' = within u) /\ (within u = true -> u' = u)).
Proof.
  revert h l u. induction fuel as [|fuel IH]; intros h l u Hlu Hu Hd Hmin Hmax.
  - cbn [search]. rewrite wrap_small by (unfold fits; lia). rewrite (proj2 (Z.ltb_ge _ _)) by (cbn in Hd; lia). exists h, l, u.
    cbn in Hd. split_and!; [done|lia|lia|lia|done|]. intros E. destruct (Hmax E) as [[]|[]]; by split_and!.
  - cbn [search]. rewrite wrap_small by (unfold fits; lia). destruct (Z.ltb_spec (l + 1) u) as [Hlt|Hge].
    + pose proof (half_between l u ltac:(lia) Hlt Hu) as Hm. pose proof (half_halves l u fuel ltac:(lia) Hlt Hu Hd) as [Hd1 Hd2].
      destruct (available_within h (half u l) ltac:(lia)) as (h1 & ->). destruct (within (half u l)) eqn:Em, direction.
      * destruct (IH h1 l (half u l)) as (h' & l' & u' & E & Hadj & ? & ? & Hmin' & Hmax'); [lia|lia|lia| |done|].
        { intros _. split; [by apply Hmin|done]. }
        exists h', l', u'. split_and!; [done|done|lia|lia|done|done].
      * destruct (IH h1 (half u l) u) as (h' & l' & u' & E & Hadj & ? & ? & Hmin' & Hmax'); [lia|lia|lia|done| |].
        { intros _. destruct (Hmax eq_refl) as [[]|[]]; [left|right]; done. }
        exists h', l', u'. split_and!; [done|done|lia|lia|done|done].
      * destruct (IH h1 (half u l) u) as (h' & l' & u' & E & Hadj & ? & ? & Hmin' & Hmax'); [lia|lia|lia| |done|].
        { intros _. split; [done|by apply Hmin]. }
        exists h', l', u'. split_and!; [done|done|lia|lia|done|done].
      * assert (within u = false) as Eu.
        { destruct (Hmax eq_refl) as [[]|[Hl' Hu']]; [done|]. unfold within in *. apply andb_true_iff in Hl', Hu'. rewrite !Z.leb_le in Hl', Hu'.
          apply andb_false_iff in Em. rewrite !Z.leb_gt in Em. lia. }
        destruct (IH h1 l (half u l)) as (h' & l' & u' & E & Hadj & ? & ? & Hmin' & Hmax'); [lia|lia|lia|done| |].
        { intros _. left. split; [by destruct (Hmax eq_refl) as [[]|[]]|done]. }
        exists h', l', u'. split_and!; [done|done|lia|lia|done|]. intros E'. destruct (Hmax' E') as (? & Hw & _). rewrite Em in Hw. split_and!; [done|congruence|congruence].
    + exists h, l, u. split_and!; [done|lia|lia|lia|done|]. intros E. destruct (Hmax E) as [[]|[]]; by split_and!.
Qed.

Lemma grow_ends fuel h u : lo <= u <= 2 * hi -> hi < u * 2 ^ Z.of_nat fuel ->
  exists h' u', grow fuel h u = Ret (h', u') /\ u <= u' <= 2 * hi /\ hi < u'.
Proof.
  pose proof limits as [Hlo Hhi]. change upper_limit with 1073741823 in Hhi. revert h u. induction fuel as [|fuel IH]; intros h u Hu Hf; cbn [grow];
    destruct (available_within h u ltac:(lia)) as (h1 & ->); destruct (within u) eqn:Ew; cbn [andb].
  - unfold within in Ew. apply andb_true_iff in Ew. rewrite !Z.leb_le in Ew. cbn in Hf. lia.
  - exists h1, u. split_and!; [done|lia|lia|]. unfold within in Ew. apply andb_false_iff in Ew. rewrite !Z.leb_gt in Ew. lia.
  - unfold within in Ew. apply andb_true_iff in Ew. rewrite !Z.leb_le in Ew. rewrite (proj2 (Z.ltb_lt u upper_limit)) by (change upper_limit with 1073741823; lia).
    rewrite wrap_small by (unfold fits; lia). destruct (IH h1 (u * 2)) as (h' & u' & -> & Hu' & Hhi'); [lia| |].
    { rewrite Nat2Z.inj_succ, Z.pow_succ_r in Hf by lia. lia. }
    exists h', u'. split_and!; [done|lia|lia|lia].
  - exists h1, u. split_and!; [done|lia|lia|]. unfold within in Ew. apply andb_false_iff in Ew. rewrite !Z.leb_gt in Ew. lia.
Qed.

Lemma handle_ready : init_handle_for_buffer_size = (Some new_handle, 0).
Proof. destruct handle_made as (H1 & H2 & H3). unfold init_handle_for_buffer_size. by rewrite H1, H2, H3. Qed.

Lemma limits_found d : lo <= d <= hi -> min_buffer_size 31 d = Ret lo /\ max_buffer_size 31 d = Ret hi.
Proof.
  intros Hd. pose proof limits as [Hlo Hhi]. change upper_limit with 1073741823 in Hhi.
  assert (forall z, within z = true <-> lo <= z <= hi) as Hw by (intros z; unfold within; by rewrite andb_true_iff, !Z.leb_le).
  assert (forall z, within z = false <-> ~ lo <= z <= hi) as Hw' by (intros z; by rewrite <- Hw, not_true_iff_false). split.
  - unfold min_buffer_size, bound_buffer_size. rewrite handle_ready. cbn [negb Z.eqb].
    destruct (search_ends 31 new_handle 0 d SearchMin) as (h & l & u & -> & Hadj & Hl & Hu & Hmin & _); [lia|lia|cbn; lia| |done|].
    { intros _. rewrite Hw, Hw'. lia. }
    destruct (Hmin eq_refl) as [Hl' Hu']. cbn [obind]. destruct (available_within h l ltac:(lia)) as (h' & ->). rewrite Hl'. cbn. f_equal.
    apply Hw in Hu'. apply Hw' in Hl'. lia.
  - unfold max_buffer_size, bound_buffer_size. rewrite handle_ready. cbn [negb Z.eqb].
    destruct (grow_ends 31 new_handle d) as (h0 & u0 & -> & Hu0 & Hhi0); [lia|change (2 ^ Z.of_nat 31) with 2147483648; lia|]. cbn [obind].
    assert (within d = true) as Ed by (apply Hw; lia). assert (within u0 = false) as Eu by (apply Hw'; lia).
    destruct (search_ends 31 h0 d u0 SearchMax) as (h & l & u & -> & Hadj & Hl & Hu & _ & Hmax); [lia|lia|cbn; lia|done|by left|].
    destruct (Hmax eq_refl) as (Hl' & Hu' & _). rewrite Eu in Hu'. cbn [obind]. destruct (available_within h u ltac:(lia)) as (h' & ->). rewrite Hu'. cbn. f_equal.
    apply Hw in Hl'. apply Hw' in Hu'. lia.
Qed.

(** The searches find the limits of the system: started with a default size within them, [min_buffer_size] returns the smallest and
    [max_buffer_size] the largest size that can be set, and both end within 31 rounds of each loop. *)
Theorem buffer_limits_found d : lo <= d <= hi -> min_buffer_size 31 d = Ret lo /\ max_buffer_size 31 d = Ret hi.
Proof. apply limits_found. Qed.

End Limits.

Lemma default_found {H : Type} {socket : Socket H} {lo hi : Z} {linux : LinuxSocket socket lo hi} :
  lo <= kept new_handle <= hi -> default_buffer_size = Ret (kept new_handle).
Proof.
  intros Hd. destruct limits as [Hl Hh]. change upper_limit with 1073741823 in Hh. unfold default_buffer_size. rewrite handle_ready.
  cbn [negb Z.eqb]. destruct (get_size new_handle) as (h & -> & _). cbn. f_equal. apply wrap_small. unfold fits. lia.
Qed.


(** A socket of Linux: its handle is the size that is kept. *)
Definition clamp_socket (lo hi start : Z) : Socket Z := {|
  uv_loop_init := 0; uv_udp_init := 0; uv_udp_bind := 0; new_handle := start;
  accessor_function h v := if v =? 0 then (h, h, 0) else (2 * Z.min (Z.max v lo) hi, v, 0)
|}.

#[local] Instance clamp_linux : LinuxSocket (clamp_socket 1152 212992 212992) 1152 212992.
Proof.
  exists (fun h : Z => h).
  - change upper_limit with 1073741823. lia.
  - done.
  - intros h v Hv. cbn. rewrite (proj2 (Z.eqb_neq v 0)) by lia. by eexists.
  - intros h. by exists h.
Defined.

Lemma buffer_limits_found_witness :
  min_buffer_size (socket := clamp_socket 1152 212992 212992) 31 106496 = Ret 1152 /\ max_buffer_size (socket := clamp_socket 1152 212992 212992) 31 106496 = Ret 212992.
Proof. apply (buffer_limits_found (lo := 1152) (hi := 212992)). lia. Defined.


(** When the handle can not be made [init_handle_for_buffer_size] still returns 0, and the callers go on with a handle that was never initialised. *)
Theorem init_failure_unnoticed {H : Type} {socket : Socket H} fuel d : uv_loop_init <> 0 \/ uv_udp_init <> 0 ->
  default_buffer_size = Fault Uninitialised /\ min_buffer_size fuel d = Fault Uninitialised /\ max_buffer_size fuel d = Fault Uninitialised.
Proof.
  intros He. assert (init_handle_for_buffer_size (H := H) = (None, 0)) as E.
  { unfold init_handle_for_buffer_size. destruct (Z.eqb_spec uv_loop_init 0), (Z.eqb_spec uv_udp_init 0); by destruct He. }
  unfold default_buffer_size, min_buffer_size, max_buffer_size. by rewrite E.
Qed.

(** The size of the thread pool is between 1 and libuv's maximum, and is the number of the variable when that is; a variable without a number ends the
    program with an exception. *)
Theorem thread_pool_size_bounds v val :
  (match val with
   | None => thread_pool_size v val = Ret 4
   | Some s => match stoi s with
       | Ret n => thread_pool_size v val = Ret (Z.min (Z.max n 1) (MAX_THREADPOOL_SIZE v))
       | Fault f => thread_pool_size v val = Fault f
       end
   end) /\
  forall n, thread_pool_size v val = Ret n -> 1 <= n <= 1024 /\ (v <= 0x11e00 -> n <= 128).
Proof.
  unfold thread_pool_size. assert (MAX_THREADPOOL_SIZE v = 128 /\ v <= 0x11e00 \/ MAX_THREADPOOL_SIZE v = 1024 /\ 0x11e00 < v) as HM
    by (unfold MAX_THREADPOOL_SIZE; destruct (Z.leb_spec v 0x11e00); auto).
  set (M := MAX_THREADPOOL_SIZE v) in *. clearbody M.
  split; [destruct val as [s|]; [destruct (stoi s) as [n|f]; [cbn; f_equal|done]|cbn; f_equal]
         |intros k; destruct (match val with Some _ => _ | None => _ end) as [n|f]; [|done]; cbn; intros [= <-]];
    repeat match goal with |- context [?a <=? ?b] => destruct (Z.leb_spec a b) | |- context [?a <? ?b] => destruct (Z.ltb_spec a b) end; lia.
Qed.

(** The vendored libuv is 1.30.1, [0x11e01]. *)
Example thread_pool_sizes :
  thread_pool_size 0x11e01 (Some (chars " 16 threads")) = Ret 16 /\ thread_pool_size 0x11e01 (Some (chars "-3")) = Ret 1 /\
  thread_pool_size 0x11e01 (Some (chars "100000")) = Ret 1024 /\ thread_pool_size 0x11e00 (Some (chars "100000")) = Ret 128 /\
  thread_pool_size 0x11e01 (Some (chars "many")) = Fault OutOfRange.
Proof. by vm_compute. Qed.

End Configuration.
