(* ===== verification/OpenSsl.v ===== *)
(** * OpenSslClientImplBase: TLS and DTLS over a transport

    [source/io/net/detail/OpenSslClientImplBase.h], the base class of the TLS and DTLS clients and of the connections of the TLS and DTLS
    servers.

    OpenSSL is not part of the program: an SSL object with its two memory BIOs is a value of a type [S], and the functions on it are the class
    [Ssl].  The callbacks OpenSSL makes while one of them runs ([ssl_state_callback]) are made when it has returned.  The transport, a TCP
    or UDP client of this library, is a value of a type [C] with the class [Transport]: it takes bytes, or refuses them and calls the
    callback of the send at once.  A send it has taken is kept in [sends] until its callback is called.

    The class is a template over the class derived from it; here that is [Derived]: a state with the members of the base and the virtual
    functions. *)

From S2P Require Import Prelude StatusCode TcpStream SslContext.
Local Open Scope outcome_scope.
Local Open Scope record_scope.

Module OpenSsl.
Import TcpStream(DataChunk, mkChunk, buf, size, offset).
Import SslContext.

(** ** OpenSSL *)

(** What [SSL_get_error] is compared with. *)
Inductive ssl_error := SSL_ERROR_WANT_READ | SSL_ERROR_WANT_WRITE | SSL_ERROR_OTHER.

#[global] Instance ssl_error_eq_dec : EqDecision ssl_error.
Proof. solve_decision. Defined.

(** The functions that are used; a function that fills a buffer returns the bytes.  [infos] are the calls of the info callback that the last
    function made. *)
Class Ssl (S : Type) := {
  SSL_set_connect_state : S -> S;
  SSL_set_accept_state : S -> S;
  SSL_do_handshake : S -> S * Z;
  SSL_read : S -> Z -> S * Z * list Z;
  SSL_write : S -> list Z -> Z -> S * Z;
  SSL_shutdown : S -> S * Z;
  SSL_get_error : S -> Z -> ssl_error;
  SSL_version : S -> Z;
  SSL_get_shutdown : S -> Z;
  infos : S -> list (Z * Z);
  ERR_get_error : S -> S * Z;
  ERR_reason_error_string : Z -> option string;
  BIO_write : S -> list Z -> Z -> S * Z;
  BIO_read : S -> Z -> S * Z * list Z;
  read_pending : S -> Z;
  write_pending : S -> Z
}.

Definition SSL_CB_ALERT : Z := 0x4000.
Definition SSL_SENT_SHUTDOWN : Z := 1.

(** What the functions that make an SSL object answer. *)
Record NewSsl (S : Type) := mkNew {
  SSL_new : option S;
  BIO_new_read : bool;
  BIO_new_write : bool;
  SSL_set_bio : S -> S
}.
Arguments SSL_new {S} _.
Arguments BIO_new_read {S} _.
Arguments BIO_new_write {S} _.
Arguments SSL_set_bio {S} _ _.

(** ** The transport *)

Class Transport (C : Type) := {
  client_is_open : C -> bool;
  (** The error with which a send is refused, if it is. *)
  client_send : C -> list Z -> C * option Error;
  client_schedule_removal : C -> C
}.

(** ** The buffer for decrypted data *)

Record Buffers := mkBuffers {
  m_decrypt_buf : nat;
  memory : gmap nat (list Z);
  next_buf : nat;
  (** The copies of chunks that user code holds, with the bytes they were delivered with. *)
  kept : list (DataChunk * list Z)
}.

#[global] Instance buffers_settable : Settable Buffers := settable! mkBuffers < m_decrypt_buf; memory; next_buf; kept >.

Definition DECRYPT_BUF_SIZE : Z := 16 * 1024.

Definition new_buffer (b : Buffers) : Buffers :=
  b <| m_decrypt_buf := next_buf b |> <| memory ::= <[next_buf b := replicate (Z.to_nat DECRYPT_BUF_SIZE) 0]> |> <| next_buf ::= S |>.

(** [m_decrypt_buf.use_count()]. *)
Definition use_count (b : Buffers) : nat :=
  S (length (List.filter (fun '(c, _) => bool_decide (buf c = Some (m_decrypt_buf b))) (kept b))).

(** OpenSSL stores [data] in the buffer. *)
Definition store (b : Buffers) (data : list Z) : Buffers :=
  b <| memory ::= alter (fun bytes => data ++ drop (length data) bytes) (m_decrypt_buf b) |>.

(** ** The state *)

Inductive HandshakeState := NONE | IN_PROGRESS | FINISHING | FINISHED.

#[global] Instance handshake_state_eq_dec : EqDecision HandshakeState.
Proof. solve_decision. Defined.

Definition state_value (h : HandshakeState) : Z := match h with NONE => 0 | IN_PROGRESS => 1 | FINISHING => 2 | FINISHED => 3 end.

(** The callbacks of the sends: none, the two of [do_handshake], the one of [send_data], and the one that [ssl_shutdown] is given. *)
Inductive OnSend :=
| NoCallback
| HandshakeFlight
| FinishFlight (read_pending : Z)
| EndSend (send : nat) (callback : bool)
| ShutdownSent.

(** The calls of the virtual functions and of the callbacks of sends, and the bytes handed to the transport. *)
Inductive Event :=
| SslRead (chunk : DataChunk) (data : list Z) (error : Error)
| HandshakeComplete
| HandshakeFailed (openssl_error_code : Z) (error : Error)
| Alert (code : Z)
| Sent (send : nat) (error : Error)
| ToTransport (bytes : list Z).

Section Base.
Context {uv : UvErrno} {S C : Type} {ssl : Ssl S} {transport : Transport C}.

Record t := mk {
  m_client : option C;
  m_ssl : option S;
  m_ssl_inited : bool;
  m_ssl_handshake_state : HandshakeState;
  m_ready_schedule_removal : bool;
  m_data_offset : Z;
  buffers : Buffers;
  (** The callbacks of the sends the transport has taken. *)
  sends : list OnSend;
  next_send : nat;
  events : list Event
}.

#[global] Instance t_settable : Settable t :=
  settable! mk < m_client; m_ssl; m_ssl_inited; m_ssl_handshake_state; m_ready_schedule_removal; m_data_offset; buffers; sends; next_send; events >.

Definition no_buffers : Buffers := mkBuffers 0 ∅ 0 [].
Definition create (client : option C) : t := mk client None false NONE false 0 (new_buffer no_buffers) [] 0 [].

Definition emit (s : t) (e : Event) : t := s <| events ::= fun l => l ++ [e] |>.

Definition is_open (s : t) : bool :=
  match m_client s with
  | None => false
  | Some c => client_is_open c && bool_decide (m_ssl_handshake_state s = FINISHED)
  end.

Definition is_ssl_inited (s : t) : bool := m_ssl_inited s.

(** ** Versions *)

Definition negotiated_tls_version (s : t) : outcome TlsVersion :=
  if negb (is_open s) then Ret TlsUnknown
  else if state_value (m_ssl_handshake_state s) <? state_value FINISHING then Ret TlsUnknown
  else match m_ssl s with
  | None => Fault NullDeref
  | Some o =>
      let v := SSL_version o in
      Ret (if v =? 0x0301 then TlsV1_0 else if v =? 0x0302 then TlsV1_1 else if v =? 0x0303 then TlsV1_2 else if v =? 0x0304 then TlsV1_3 else TlsUnknown)
  end.

Definition negotiated_dtls_version (s : t) : outcome DtlsVersion :=
  if negb (is_open s) then Ret DtlsUnknown
  else if state_value (m_ssl_handshake_state s) <? state_value FINISHING then Ret DtlsUnknown
  else match m_ssl s with
  | None => Fault NullDeref
  | Some o => let v := SSL_version o in Ret (if v =? 0xFEFF then DtlsV1_0 else if v =? 0xFEFD then DtlsV1_2 else DtlsUnknown)
  end.

(** ** The derived classes *)

(** The state with the members of the base in it, the virtual functions, the callback of a send and the callback that the class gives to
    [ssl_shutdown]. *)
Class Derived (I : Type) := {
  base : I -> t;
  set_base : I -> t -> I;
  base_set_base i b : base (set_base i b) = b;
  ssl_set_state : S -> S;
  on_ssl_read : I -> DataChunk -> list Z -> Error -> outcome I;
  on_handshake_complete : I -> outcome I;
  on_handshake_failed : I -> Z -> Error -> outcome I;
  on_alert : I -> Z -> outcome I;
  on_end_send : I -> nat -> Error -> outcome I;
  on_shutdown_sent : I -> Error -> outcome I
}.

Context {I : Type} {derived : Derived I}.

Definition on_base (f : t -> t) (i : I) : I := set_base i (f (base i)).
Definition log (i : I) (e : Event) : I := on_base (fun s => emit s e) i.

Definition call_ssl_read (i : I) (chunk : DataChunk) (data : list Z) (error : Error) : outcome I :=
  on_ssl_read (log i (SslRead chunk data error)) chunk data error.
Definition call_handshake_failed (i : I) (openssl_error_code : Z) (error : Error) : outcome I :=
  on_handshake_failed (log i (HandshakeFailed openssl_error_code error)) openssl_error_code error.
Definition call_end_send (i : I) (send : nat) (callback : bool) (error : Error) : outcome I :=
  if callback then on_end_send (log i (Sent send error)) send error else Ret i.

(** [ssl_state_callback]. *)
Definition ssl_state_callback (i : I) (o : S) (info : Z * Z) : outcome I :=
  let '(where_, ret) := info in
  if negb (Z.land where_ SSL_CB_ALERT =? 0) && (Z.land (SSL_get_shutdown o) SSL_SENT_SHUTDOWN =? 0)
  then on_alert (log i (Alert (Z.land ret 0xFF))) (Z.land ret 0xFF) else Ret i.

Fixpoint state_callbacks (i : I) (o : S) (l : list (Z * Z)) : outcome I :=
  match l with
  | [] => Ret i
  | info :: l => let* i := ssl_state_callback i o info in state_callbacks i o l
  end.

(** The object after a call, and the callbacks made meanwhile. *)
Definition called (i : I) (o : S) : outcome I :=
  state_callbacks (on_base (fun s => s <| m_ssl := Some o |>) i) o (infos o).

Definition get_ssl (i : I) : outcome S := match m_ssl (base i) with Some o => Ret o | None => Fault NullDeref end.

(** [Error(StatusCode::OPENSSL_ERROR, str ? str : "")] with the code of [ERR_get_error]. *)
Definition last_error (i : I) : outcome (I * Z * Error) :=
  let* o := get_ssl i in
  let '(o, openssl_error_code) := ERR_get_error o in
  Ret (on_base (fun s => s <| m_ssl := Some o |>) i, openssl_error_code, Error_with_info OPENSSL_ERROR (default "" (ERR_reason_error_string openssl_error_code))).

(** ** Making the SSL object *)

Definition ssl_init (i : I) (a : NewSsl S) : I * Error :=
  let i := on_base (fun s => s <| m_ssl := SSL_new a |>) i in
  match SSL_new a with
  | None => (i, Error_with_info OPENSSL_ERROR "Failed to create SSL")
  | Some o =>
      if negb (BIO_new_read a) then (i, Error_with_info OPENSSL_ERROR "Failed to create read BIO")
      else if negb (BIO_new_write a) then (i, Error_with_info OPENSSL_ERROR "Failed to create write BIO")
      else (on_base (fun s => s <| m_ssl := Some (ssl_set_state (SSL_set_bio a o)) |> <| m_ssl_inited := true |>) i, Error_of_status OK)
  end.

(** ** Reading decrypted data *)

(** The buffer is replaced when the callback has kept a copy of the chunk. *)
Definition after_read (prev_use_count : nat) (decrypted_size : Z) (i : I) : I :=
  let i := on_base (fun s => s <| m_data_offset ::= fun n => wrap 64 (n + decrypted_size) |>) i in
  if bool_decide (prev_use_count = use_count (buffers (base i))) then i else on_base (fun s => s <| buffers ::= new_buffer |>) i.

(** The loop over [SSL_read]; its result is the last value of [decrypted_size]. *)
Fixpoint read_loop (fuel : nat) (i : I) : outcome (I * Z) :=
  let* o := get_ssl i in
  let '(o, decrypted_size, data) := SSL_read o DECRYPT_BUF_SIZE in
  check (Z.of_nat (length data) <=? DECRYPT_BUF_SIZE) else OutOfBounds in
  let* i := called (on_base (fun s => s <| buffers ::= fun b => store b data |>) i) o in
  if 0 <? decrypted_size then
    match fuel with
    | O => Fault FuelExhausted
    | Datatypes.S fuel =>
        let prev_use_count := use_count (buffers (base i)) in
        let chunk := mkChunk (Some (m_decrypt_buf (buffers (base i)))) decrypted_size (m_data_offset (base i)) in
        let* i := call_ssl_read i chunk data (Error_of_status OK) in
        read_loop fuel (after_read prev_use_count decrypted_size i)
    end
  else Ret (i, decrypted_size).

Definition read_from_ssl (fuel : nat) (i : I) : outcome I :=
  let* (i, decrypted_size) := read_loop fuel i in
  if decrypted_size <? 0 then
    let* o := get_ssl i in
    if negb (bool_decide (SSL_get_error o decrypted_size = SSL_ERROR_WANT_READ)) then
      let* (i, openssl_error_code, error) := last_error i in
      call_ssl_read i (mkChunk None 0 0) [] error
    else Ret i
  else Ret i.

(** ** Sending what OpenSSL wrote *)

Definition finish_handshake (i : I) : outcome I :=
  on_handshake_complete (log (on_base (fun s => s <| m_ssl_handshake_state := FINISHED |>) i) HandshakeComplete).

(** The callback of a send. *)
Definition run_on_send (fuel : nat) (i : I) (on_send : OnSend) (error : Error) : outcome I :=
  match on_send with
  | NoCallback => Ret i
  | HandshakeFlight => if error_bool error then call_handshake_failed i (-1) error else Ret i
  | FinishFlight read_pending =>
      if error_bool error then call_handshake_failed i (-1) error
      else
        let* i := finish_handshake i in
        if negb (read_pending =? 0) then read_from_ssl fuel i else Ret i
  | EndSend send callback => call_end_send i send callback error
  | ShutdownSent => on_shutdown_sent i error
  end.

(** [m_client->send_data]. *)
Definition client_send_data (fuel : nat) (i : I) (bytes : list Z) (on_send : OnSend) : outcome I :=
  match m_client (base i) with
  | None => Fault NullDeref
  | Some c =>
      match client_send c bytes with
      | (c, None) => Ret (log (on_base (fun s => s <| m_client := Some c |> <| sends ::= fun l => l ++ [on_send] |>) i) (ToTransport bytes))
      | (c, Some error) => run_on_send fuel (on_base (fun s => s <| m_client := Some c |>) i) on_send error
      end
  end.

Definition internal_read_from_sll_and_send (fuel : nat) (i : I) (on_send : OnSend) : outcome I :=
  let* o := get_ssl i in
  if write_pending o =? 0 then Ret i
  else
    let '(o, size, bytes) := BIO_read o (write_pending o) in
    client_send_data fuel (on_base (fun s => s <| m_ssl := Some o |>) i) bytes on_send.

(** ** The handshake *)

Definition do_handshake (fuel : nat) (i : I) : outcome I :=
  if bool_decide (m_ssl_handshake_state (base i) = FINISHING) then Ret i
  else
    let* o := get_ssl i in
    let '(o, handshake_result) := SSL_do_handshake o in
    let* i := called i o in
    let* o := get_ssl i in
    let write := write_pending o in
    let read := read_pending o in
    if handshake_result <? 0 then
      match SSL_get_error o handshake_result with
      | SSL_ERROR_WANT_READ =>
          if write =? 0 then call_handshake_failed i (-1) (Error_with_info OPENSSL_ERROR "Handshake failed, invalid data")
          else internal_read_from_sll_and_send fuel i HandshakeFlight
      | SSL_ERROR_WANT_WRITE => Ret i
      | SSL_ERROR_OTHER =>
          let* (i, openssl_error_code, error) := last_error i in
          let* i := if negb (write =? 0) then internal_read_from_sll_and_send fuel i NoCallback else Ret i in
          call_handshake_failed i openssl_error_code error
      end
    else if handshake_result =? 1 then
      if negb (write =? 0) then
        internal_read_from_sll_and_send fuel (on_base (fun s => s <| m_ssl_handshake_state := FINISHING |>) i) (FinishFlight read)
      else
        let* i := finish_handshake i in
        if negb (read =? 0) then read_from_ssl fuel i else Ret i
    else
      let* (i, openssl_error_code, error) := last_error i in
      call_handshake_failed i openssl_error_code error.

(** ** Sending *)

(** [static_cast<int>] of a 32-bit size. *)
Definition to_int (z : Z) : Z := if z <? 2 ^ 31 then z else z - 2 ^ 32.

Definition send_data_impl (fuel : nat) (i : I) (buffer : list Z) (size : Z) (callback : bool) : outcome I :=
  let send := next_send (base i) in
  let i := on_base (fun s => s <| next_send ::= Datatypes.S |>) i in
  if negb (is_open (base i)) then
    if callback then call_end_send i send callback (Error_of_status NOT_CONNECTED) else Fault EmptyFunction
  else
    let* o := get_ssl i in
    let '(o, write_result) := SSL_write o buffer (to_int size) in
    let* i := called i o in
    if write_result <=? 0 then
      let* (i, openssl_error_code, error) := last_error i in
      call_end_send i send callback error
    else
      let* o := get_ssl i in
      let pending_size := write_pending o in
      check (0 <=? pending_size) else AssertFailed in
      let '(o, actual_size, bytes) := BIO_read o pending_size in
      let i := on_base (fun s => s <| m_ssl := Some o |>) i in
      if actual_size <=? 0 then call_end_send i send callback (Error_with_info OPENSSL_ERROR "Nothing to read from SSL")
      else client_send_data fuel i bytes (EndSend send callback).

Definition copy_and_send_data (fuel : nat) (i : I) (c_str : list Z) (size : Z) (callback : bool) : outcome I :=
  check (size <=? Z.of_nat (length c_str)) else OutOfBounds in
  send_data_impl fuel i (take (Z.to_nat size) c_str) size callback.

Definition send_data_string (fuel : nat) (i : I) (message : list Z) (callback : bool) : outcome I :=
  send_data_impl fuel i message (wrap 32 (Z.of_nat (length message))) callback.

(** ** Receiving *)

Definition on_data_receive (fuel : nat) (i : I) (data : list Z) : outcome I :=
  check (Z.of_nat (length data) <? 2 ^ 31) else AssertFailed in
  let* o := get_ssl i in
  let '(o, write_size) := BIO_write o data (Z.of_nat (length data)) in
  let i' := on_base (fun s => s <| m_ssl := Some o |>) i in
  if bool_decide (m_ssl_handshake_state (base i) = FINISHED) then
    if write_size <? 0 then Ret i' else read_from_ssl fuel i'
  else
    if write_size <=? 0 then call_handshake_failed i' (-1) (Error_with_info OPENSSL_ERROR "Handshake failed, invalid data")
    else do_handshake fuel i'.

(** The transport calls the callback of a send. *)
Definition on_sent (fuel : nat) (i : I) (k : nat) (error : Error) : outcome I :=
  match sends (base i) !! k with
  | None => Ret i
  | Some on_send => run_on_send fuel (on_base (fun s => s <| sends ::= delete k |>) i) on_send error
  end.

(** ** The end *)

Definition ssl_shutdown (fuel : nat) (i : I) : outcome (I * Error) :=
  let* o := get_ssl i in
  let '(o, return_code) := SSL_shutdown o in
  let* i := called i o in
  if return_code <? 0 then
    let* (i, openssl_error_code, error) := last_error i in Ret (i, error)
  else
    let* o := get_ssl i in
    if negb (write_pending o =? 0) then
      let* i := internal_read_from_sll_and_send fuel i ShutdownSent in Ret (i, Error_of_uv 0)
    else Ret (i, Error_of_uv 0).

(** [schedule_removal]: whether the object itself can be removed now.  The transport is removed first; its removal calls back. *)
Definition schedule_removal (i : I) : I * bool :=
  match m_client (base i) with
  | Some c =>
      if negb (m_ready_schedule_removal (base i))
      then (on_base (fun s => s <| m_ready_schedule_removal := true |> <| m_client := Some (client_schedule_removal c) |>) i, false)
      else (i, true)
  | None => (i, true)
  end.

End Base.

(** ** Buffers *)

(** The bytes of a chunk are still there. *)
Definition intact (b : Buffers) (c : DataChunk) (d : list Z) : Prop :=
  match buf c with
  | None => d = []
  | Some k => (k < next_buf b)%nat /\ exists bytes, memory b !! k = Some bytes /\ take (length d) bytes = d
  end.

(** User code holds no chunk of the buffer that is written to, and the bytes of all chunks it holds are there. *)
Record buffers_ok (b : Buffers) : Prop := {
  buffer_there : (m_decrypt_buf b < next_buf b)%nat /\ exists bytes, memory b !! m_decrypt_buf b = Some bytes /\ length bytes = Z.to_nat DECRYPT_BUF_SIZE;
  buffer_own : forall c d, (c, d) ∈ kept b -> buf c <> Some (m_decrypt_buf b);
  chunks_intact : forall c d, (c, d) ∈ kept b -> intact b c d
}.

(** What user code can do to the buffers: keep copies of the chunk it is given and of those it has, and let chunks go. *)
Record keeps (x : option (DataChunk * list Z)) (b b' : Buffers) : Prop := {
  same_buffer : m_decrypt_buf b' = m_decrypt_buf b;
  same_memory : memory b' = memory b;
  same_next : next_buf b' = next_buf b;
  kept_from : forall c d, (c, d) ∈ kept b' -> (c, d) ∈ kept b \/ x = Some (c, d)
}.

#[global] Instance keeps_refl x : Reflexive (keeps x).
Proof. intros b. split; [done..|by left]. Qed.

#[global] Instance keeps_trans x : Transitive (keeps x).
Proof.
  intros b1 b2 b3 [A1 A2 A3 A4] [B1 B2 B3 B4]. split; [congruence..|]. intros c d Hin. destruct (B4 c d Hin) as [H|H]; [by apply A4|by right].
Qed.

Lemma keeps_none x b b' : keeps None b b' -> keeps x b b'.
Proof. intros [A1 A2 A3 A4]. split; [done..|]. intros c d Hin. destruct (A4 c d Hin) as [H|H]; [by left|done]. Qed.

Lemma new_buffer_intact b c d : intact b c d -> intact (new_buffer b) c d.
Proof.
  unfold intact. destruct (buf c) as [k|]; [|done]. intros (Hlt & bytes & Hm & Hd). cbn. split; [lia|]. exists bytes. by rewrite lookup_insert_ne by lia.
Qed.

Lemma new_buffer_ok b : (forall c d, (c, d) ∈ kept b -> intact b c d) -> buffers_ok (new_buffer b).
Proof.
  intros Hk. split.
  - cbn. split; [lia|]. eexists. rewrite lookup_insert_eq. split; [done|]. by rewrite length_replicate.
  - intros c d Hin. cbn in *. specialize (Hk c d Hin). unfold intact in Hk. intros E. rewrite E in Hk. destruct Hk as [Hlt _]. lia.
  - intros c d Hin. apply new_buffer_intact. by apply Hk.
Qed.

Lemma store_buffers_ok b data : buffers_ok b -> (length data <= Z.to_nat DECRYPT_BUF_SIZE)%nat -> buffers_ok (store b data).
Proof.
  intros [(Hlt & bytes & Hm & Hl) Hown Hint] Hd. split.
  - cbn. split; [done|]. eexists. rewrite lookup_alter_eq, Hm. split; [done|]. rewrite length_app, length_drop. lia.
  - exact Hown.
  - intros c d Hin. specialize (Hint c d Hin). pose proof (Hown c d Hin) as Hne. unfold intact in *. destruct (buf c) as [k|]; [|done].
    destruct Hint as (Hk & bs & Hbs & Htake). cbn. split; [done|]. exists bs. by rewrite lookup_alter_ne by congruence.
Qed.

Lemma store_intact b data o : buffers_ok b -> intact (store b data) (mkChunk (Some (m_decrypt_buf b)) (Z.of_nat (length data)) o) data.
Proof.
  intros [(Hlt & bytes & Hm & Hl) _ _]. cbn. split; [done|]. eexists. rewrite lookup_alter_eq, Hm. split; [done|]. by rewrite take_app_length.
Qed.

Lemma use_count_own b : buffers_ok b -> use_count b = 1%nat.
Proof.
  intros [_ Hown _]. unfold use_count. enough (List.filter (fun '(c, _) => bool_decide (buf c = Some (m_decrypt_buf b))) (kept b) = []) as -> by done.
  induction (kept b) as [|[c d] l IH]; [done|]. cbn. rewrite bool_decide_false by (apply (Hown c d); by left).
  apply IH. intros c' d' Hin. apply (Hown c' d'). by right.
Qed.

Lemma use_count_alone b : use_count b = 1%nat -> forall c d, (c, d) ∈ kept b -> buf c <> Some (m_decrypt_buf b).
Proof.
  unfold use_count. intros [= Hn]. apply length_zero_iff_nil in Hn. induction (kept b) as [|[c' d'] l IH]; intros c d Hin.
  - by apply not_elem_of_nil in Hin.
  - cbn in Hn. case_bool_decide; [done|]. apply elem_of_cons in Hin as [[= -> ->]|Hin]; [done|]. by apply (IH Hn c d).
Qed.

Lemma keeps_intact x b b' c d : keeps x b b' -> intact b c d -> intact b' c d.
Proof. intros [_ A2 A3 _]. unfold intact. by rewrite A2, A3. Qed.

(** A callback that keeps the chunk makes the client take another buffer. *)
Lemma keep_ok c d b b' : buffers_ok b -> intact b c d -> keeps (Some (c, d)) b b' ->
  buffers_ok (if bool_decide (1%nat = use_count b') then b' else new_buffer b').
Proof.
  intros Hb Hc Hk. assert (forall c' d', (c', d') ∈ kept b' -> intact b' c' d') as Hall.
  { intros c' d' Hin. apply (keeps_intact _ _ _ _ _ Hk). destruct (kept_from _ _ _ Hk c' d' Hin) as [H|[= -> ->]]; [by apply Hb|done]. }
  case_bool_decide as Hu; [|by apply new_buffer_ok]. split; [|by apply use_count_alone|done].
  rewrite (same_buffer _ _ _ Hk), (same_memory _ _ _ Hk), (same_next _ _ _ Hk). apply Hb.
Qed.

Lemma keeps_ok b b' : buffers_ok b -> keeps None b b' -> buffers_ok b'.
Proof.
  intros Hb Hk. split.
  - rewrite (same_buffer _ _ _ Hk), (same_memory _ _ _ Hk), (same_next _ _ _ Hk). apply Hb.
  - intros c d Hin. rewrite (same_buffer _ _ _ Hk). destruct (kept_from _ _ _ Hk c d Hin) as [H|H]; [|done]. by apply (buffer_own _ Hb c d).
  - intros c d Hin. apply (keeps_intact _ _ _ _ _ Hk). destruct (kept_from _ _ _ Hk c d Hin) as [H|H]; [|done]. by apply (chunks_intact _ Hb).
Qed.

Lemma keeps_null_ok b b' : buffers_ok b -> keeps (Some (mkChunk None 0 0, [])) b b' -> buffers_ok b'.
Proof.
  intros Hb Hk. split.
  - rewrite (same_buffer _ _ _ Hk), (same_memory _ _ _ Hk), (same_next _ _ _ Hk). apply Hb.
  - intros c d Hin. rewrite (same_buffer _ _ _ Hk). destruct (kept_from _ _ _ Hk c d Hin) as [H|[= <- <-]]; [|done]. by apply (buffer_own _ Hb c d).
  - intros c d Hin. apply (keeps_intact _ _ _ _ _ Hk). destruct (kept_from _ _ _ Hk c d Hin) as [H|[= <- <-]]; [|done]. by apply (chunks_intact _ Hb).
Qed.

(** ** What OpenSSL does *)

(** [plain] is the application data in an object: what [SSL_read] will return of the records put into the read BIO so far.  [reads_same] is a
    change that leaves the reading side alone. *)
Class SslLaws {S : Type} (ssl : Ssl S) := {
  plain : S -> list Z;
  outgoing : S -> list Z;
  reads_same : S -> S -> Prop;
  reads_same_order :: PreOrder reads_same;
  reads_same_plain o o' : reads_same o o' -> plain o' = plain o;
  read_some o n : 0 < n -> plain o <> [] -> exists o' d, SSL_read o n = (o', Z.of_nat (length d), d) /\ d <> [] /\ Z.of_nat (length d) <= n /\ plain o = d ++ plain o';
  read_none o n : plain o = [] -> exists o' code, SSL_read o n = (o', code, []) /\ code <= 0 /\ plain o' = [];
  write_reads_same o d n o' code : SSL_write o d n = (o', code) -> reads_same o o';
  shutdown_reads_same o o' code : SSL_shutdown o = (o', code) -> reads_same o o';
  error_reads_same o o' code : ERR_get_error o = (o', code) -> reads_same o o';
  bio_read_reads_same o n o' code d : BIO_read o n = (o', code, d) -> reads_same o o';
  pending_outgoing o : write_pending o = Z.of_nat (length (outgoing o));
  bio_read_all o : outgoing o <> [] -> exists o', BIO_read o (write_pending o) = (o', write_pending o, outgoing o) /\ outgoing o' = [];
  bio_write_ok o d : d <> [] -> exists o', BIO_write o d (Z.of_nat (length d)) = (o', Z.of_nat (length d));
  bio_write_nothing o : exists o' code, BIO_write o [] 0 = (o', code) /\ reads_same o o'
}.

(** ** What user code does *)

(** The callbacks of sends that user code starts, and what it logs. *)
Definition user_send (c : OnSend) : Prop := match c with HandshakeFlight | FinishFlight _ => False | _ => True end.
Definition user_event (e : Event) : Prop := match e with Sent _ _ | ToTransport _ | Alert _ => True | _ => False end.

Section Facts.
Context {uv : UvErrno} {S C : Type} {ssl : Ssl S} {transport : Transport C} {laws : SslLaws ssl}.
Implicit Types (s : t (S := S) (C := C)) (o : S).

(** What is left alone by user code, which can send, shut down, and keep the chunk it is given. *)
Record user_step (x : option (DataChunk * list Z)) s s' : Prop := {
  us_state : m_ssl_handshake_state s' = m_ssl_handshake_state s;
  us_client : is_Some (m_client s) -> is_Some (m_client s');
  us_ssl : forall o, m_ssl s = Some o -> exists o', m_ssl s' = Some o' /\ reads_same o o';
  us_offset : m_data_offset s' = m_data_offset s;
  us_buffers : keeps x (buffers s) (buffers s');
  us_sends : exists l, sends s' = sends s ++ l /\ Forall user_send l;
  us_events : exists l, events s' = events s ++ l /\ Forall user_event l
}.

#[global] Instance user_step_refl x : Reflexive (user_step x).
Proof. intros s. split; [done|done|by eexists|done|done|exists []|exists []]; by rewrite app_nil_r. Qed.

#[global] Instance user_step_trans x : Transitive (user_step x).
Proof.
  intros s1 s2 s3 [A1 A2 A3 A4 A5 (la & A6 & A6') (ea & A7 & A7')] [B1 B2 B3 B4 B5 (lb & B6 & B6') (eb & B7 & B7')]. split.
  - congruence.
  - auto.
  - intros o Ho. destruct (A3 o Ho) as (o1 & Ho1 & R1). destruct (B3 o1 Ho1) as (o2 & Ho2 & R2). exists o2. split; [done|by etransitivity].
  - congruence.
  - by etransitivity.
  - exists (la ++ lb). rewrite B6, A6, app_assoc, Forall_app. done.
  - exists (ea ++ eb). rewrite B7, A7, app_assoc, Forall_app. done.
Qed.

Lemma user_step_none x s s' : user_step None s s' -> user_step x s s'.
Proof. intros [A1 A2 A3 A4 A5 A6 A7]. split; try done. by apply keeps_none. Qed.

Context {I : Type} {derived : Derived (S := S) (C := C) I}.
Implicit Types i : I.

(** The virtual functions and callbacks of the derived class do no more than that. *)
Record hooks_ok : Prop := {
  read_hook i c d e : returns (on_ssl_read i c d e) (fun i' => user_step (Some (c, d)) (base i) (base i'));
  complete_hook i : returns (on_handshake_complete i) (fun i' => user_step None (base i) (base i'));
  failed_hook i z e : returns (on_handshake_failed i z e) (fun i' => user_step None (base i) (base i'));
  alert_hook i z : returns (on_alert i z) (fun i' => user_step None (base i) (base i'));
  end_send_hook i n e : returns (on_end_send i n e) (fun i' => user_step None (base i) (base i'));
  shutdown_hook i e : returns (on_shutdown_sent i e) (fun i' => user_step None (base i) (base i'))
}.

Lemma base_on_base f i : base (on_base f i) = f (base i).
Proof. unfold on_base. apply base_set_base. Qed.

Lemma user_step_emit x s e : user_event e -> user_step x s (emit s e).
Proof. intros He. split; [done|done|by eexists|done|done|exists []; by rewrite app_nil_r|exists [e]]. split; [done|by constructor]. Qed.

Lemma user_step_ssl x s o o' : m_ssl s = Some o -> reads_same o o' -> user_step x s (s <| m_ssl := Some o' |>).
Proof.
  intros Ho Hr. split; [done|done| |done|done|exists []; by rewrite app_nil_r|exists []; by rewrite app_nil_r]. intros o1 Ho1. exists o'. split; [done|].
  rewrite Ho in Ho1. by injection Ho1 as <-.
Qed.

Context (Hooks : hooks_ok).

Lemma state_callbacks_ok l i o : returns (state_callbacks i o l) (fun i' => user_step None (base i) (base i')).
Proof.
  revert i. induction l as [|[where_ ret] l IH]; intros i; cbn [state_callbacks]; [by apply returns_ret|].
  apply (returns_bind _ _ (fun i' => user_step None (base i) (base i'))).
  - unfold ssl_state_callback. destruct (_ && _); [|by apply returns_ret]. eapply returns_mono; [apply (alert_hook Hooks)|]. intros i' H.
    unfold log in H. rewrite base_on_base in H. etransitivity; [|exact H]. by apply user_step_emit.
  - intros i' H. eapply returns_mono; [apply IH|]. intros i'' H'. by etransitivity.
Qed.

(** A call of OpenSSL that leaves the object as [o]. *)
Lemma called_ok i o : returns (called i o) (fun i' => user_step None ((base i) <| m_ssl := Some o |>) (base i')).
Proof. unfold called. eapply returns_mono; [apply state_callbacks_ok|]. intros i' H. by rewrite base_on_base in H. Qed.

Lemma called_same i o o' : m_ssl (base i) = Some o -> reads_same o o' -> returns (called i o') (fun i' => user_step None (base i) (base i')).
Proof. intros Ho Hr. eapply returns_mono; [apply called_ok|]. intros i' H. etransitivity; [|exact H]. by apply (user_step_ssl _ _ o). Qed.

Lemma get_ssl_ret i o : m_ssl (base i) = Some o -> get_ssl i = Ret o.
Proof. unfold get_ssl. by intros ->. Qed.

Lemma last_error_ok i o : m_ssl (base i) = Some o -> returns (last_error i) (fun '(i', _, _) => user_step None (base i) (base i')).
Proof.
  intros Ho. unfold last_error. rewrite (get_ssl_ret _ _ Ho). cbn [obind]. destruct (ERR_get_error o) as [o' code] eqn:E. cbn [returns]. rewrite base_on_base.
  apply (user_step_ssl _ _ o); [done|]. by eapply error_reads_same.
Qed.

Lemma call_end_send_ok i n cb e : returns (call_end_send i n cb e) (fun i' => user_step None (base i) (base i')).
Proof.
  unfold call_end_send. destruct cb; [|by apply returns_ret]. eapply returns_mono; [apply (end_send_hook Hooks)|]. intros i' H.
  unfold log in H. rewrite base_on_base in H. etransitivity; [|exact H]. by apply user_step_emit.
Qed.

(** ** Reading delivers what was decrypted *)

Definition received_of (e : Event) : option (Z * list Z) :=
  match e with SslRead c d _ => match buf c with Some _ => Some (offset c, d) | None => None end | _ => None end.
Definition received s : list (Z * list Z) := omap received_of (events s).

Fixpoint at_offsets (n : Z) (ds : list (list Z)) : list (Z * list Z) :=
  match ds with [] => [] | d :: ds => (n, d) :: at_offsets (wrap 64 (n + Z.of_nat (length d))) ds end.

(** An object that is read from, by OpenSSL's reading or by what leaves the reading side alone. *)
Definition read_by o o' : Prop := reads_same o o' \/ exists n code d, SSL_read o n = (o', code, d).

Definition read_event (e : Event) : Prop := match e with SslRead _ _ _ => True | _ => user_event e end.

(** The data [p] is delivered in pieces, each with its offset in the stream, and user code can keep what it gets. *)
Record delivers (p : list Z) s s' : Prop := {
  dl_state : m_ssl_handshake_state s' = m_ssl_handshake_state s;
  dl_client : is_Some (m_client s) -> is_Some (m_client s');
  dl_ssl : forall o, m_ssl s = Some o -> exists o', m_ssl s' = Some o' /\ rtc read_by o o' /\ plain o = p ++ plain o';
  dl_buffers : buffers_ok (buffers s');
  dl_sends : exists l, sends s' = sends s ++ l /\ Forall user_send l;
  dl_events : exists l, events s' = events s ++ l /\ Forall read_event l;
  dl_received : exists ds, concat ds = p /\ received s' = received s ++ at_offsets (m_data_offset s) ds /\
    m_data_offset s' = foldl (fun n d => wrap 64 (n + Z.of_nat (length d))) (m_data_offset s) ds
}.

Lemma at_offsets_app n ds ds' :
  at_offsets n (ds ++ ds') = at_offsets n ds ++ at_offsets (foldl (fun n d => wrap 64 (n + Z.of_nat (length d))) n ds) ds'.
Proof. revert n. induction ds as [|d ds IH]; intros n; cbn; [done|]. by rewrite IH. Qed.

Lemma delivers_trans p p' s1 s2 s3 : delivers p s1 s2 -> delivers p' s2 s3 -> delivers (p ++ p') s1 s3.
Proof.
  intros [A1 A2 A3 A4 (la & A5 & A5') (ea & A6 & A6') (da & A7 & A7' & A7'')] [B1 B2 B3 B4 (lb & B5 & B5') (eb & B6 & B6') (db & B7 & B7' & B7'')]. split.
  - congruence.
  - auto.
  - intros o Ho. destruct (A3 o Ho) as (o1 & Ho1 & R1 & P1). destruct (B3 o1 Ho1) as (o2 & Ho2 & R2 & P2). exists o2.
    split_and!; [done|by etransitivity|]. by rewrite P1, P2, app_assoc.
  - done.
  - exists (la ++ lb). rewrite B5, A5, app_assoc, Forall_app. done.
  - exists (ea ++ eb). rewrite B6, A6, app_assoc, Forall_app. done.
  - exists (da ++ db). rewrite concat_app, A7, B7, B7', A7', at_offsets_app, <- A7'', app_assoc, foldl_app, <- A7''. done.
Qed.

Lemma received_user s s' l : events s' = events s ++ l -> Forall user_event l -> received s' = received s.
Proof.
  intros E Hl. unfold received. rewrite E, omap_app. enough (omap received_of l = []) as -> by by rewrite app_nil_r.
  clear E. induction Hl as [|e l He Hl IH]; [done|]. cbn. by destruct e.
Qed.

Lemma user_read_event e : user_event e -> read_event e.
Proof. by destruct e. Qed.

Lemma user_delivers s s' : buffers_ok (buffers s) -> user_step None s s' -> delivers [] s s'.
Proof.
  intros Hb [A1 A2 A3 A4 A5 (la & A6 & A6') (ea & A7 & A7')]. split; try done.
  - intros o Ho. destruct (A3 o Ho) as (o' & Ho' & R). exists o'. split_and!; [done|by apply rtc_once; left|by rewrite (reads_same_plain o o')].
  - by apply (keeps_ok (buffers s)).
  - by exists la.
  - exists ea. split; [done|]. eapply Forall_impl; [done|]. apply user_read_event.
  - exists []. cbn. rewrite app_nil_r. split_and!; [done|by eapply received_user|done].
Qed.

Definition after (prev : nat) (n : Z) s : t :=
  let s := s <| m_data_offset ::= fun m => wrap 64 (m + n) |> in
  if bool_decide (prev = use_count (buffers s)) then s else s <| buffers ::= new_buffer |>.

Lemma after_read_base prev n i : base (after_read prev n i) = after prev n (base i).
Proof. unfold after_read, after. rewrite base_on_base. case_bool_decide; [by rewrite base_on_base|]. by rewrite !base_on_base. Qed.

(** One round of the loop with data. *)
Lemma one_read s o o' d s2 s3 : m_ssl s = Some o -> buffers_ok (buffers s) -> SSL_read o DECRYPT_BUF_SIZE = (o', Z.of_nat (length d), d) ->
  Z.of_nat (length d) <= DECRYPT_BUF_SIZE -> plain o = d ++ plain o' ->
  user_step None (s <| buffers ::= fun b => store b d |> <| m_ssl := Some o' |>) s2 ->
  let chunk := mkChunk (Some (m_decrypt_buf (buffers s2))) (Z.of_nat (length d)) (m_data_offset s2) in
  user_step (Some (chunk, d)) (emit s2 (SslRead chunk d (Error_of_status OK))) s3 ->
  delivers d s (after (use_count (buffers s2)) (Z.of_nat (length d)) s3).
Proof.
  intros Ho Hb Hread Hd Hplain [A1 A2 A3 A4 A5 (la & A6 & A6') (ea & A7 & A7')] chunk [B1 B2 B3 B4 B5 (lb & B6 & B6') (eb & B7 & B7')]. subst chunk. cbn in *.
  assert (length d <= Z.to_nat DECRYPT_BUF_SIZE)%nat as Hd' by lia.
  pose proof (store_buffers_ok _ d Hb Hd') as Hb1. pose proof (keeps_ok _ _ Hb1 A5) as Hb2.
  pose proof (keeps_intact _ _ _ _ _ A5 (store_intact _ d (m_data_offset s2) Hb)) as Hint. pose proof (same_buffer _ _ _ A5) as Eb. cbn in Eb.
  rewrite Eb in *. assert (m_decrypt_buf (store (buffers s) d) = m_decrypt_buf (buffers s)) as Es by done.
  pose proof (keep_ok _ _ _ _ Hb2 Hint B5) as Hb3. rewrite (use_count_own _ Hb2).
  assert (forall s', s' = after 1 (Z.of_nat (length d)) s3 -> m_ssl_handshake_state s' = m_ssl_handshake_state s3 /\ m_client s' = m_client s3 /\ m_ssl s' = m_ssl s3 /\
    sends s' = sends s3 /\ events s' = events s3 /\ m_data_offset s' = wrap 64 (m_data_offset s3 + Z.of_nat (length d)) /\
    buffers s' = if bool_decide (1%nat = use_count (buffers s3)) then buffers s3 else new_buffer (buffers s3)) as Hafter.
  { intros s' ->. unfold after. cbn. by case_bool_decide. }
  destruct (Hafter _ eq_refl) as (E1 & E2 & E3 & E4 & E5 & E6 & E7). split.
  - congruence.
  - rewrite E2. auto.
  - intros o1 Ho1. rewrite Ho in Ho1. injection Ho1 as <-. destruct (A3 o' eq_refl) as (o2 & Ho2 & R2). destruct (B3 o2 Ho2) as (o3 & Ho3 & R3). exists o3. rewrite E3.
    split_and!; [done| |].
    + eapply rtc_l; [right; by exists DECRYPT_BUF_SIZE, (Z.of_nat (length d)), d|]. eapply rtc_l; [left; exact R2|]. apply rtc_once. by left.
    + by rewrite Hplain, (reads_same_plain o2 o3), (reads_same_plain o' o2).
  - by rewrite E7.
  - exists (la ++ lb). rewrite E4, B6, A6, app_assoc, Forall_app. done.
  - exists (ea ++ [SslRead (mkChunk (Some (m_decrypt_buf (buffers s))) (Z.of_nat (length d)) (m_data_offset s2)) d (Error_of_status OK)] ++ eb).
    rewrite E5, B7, A7, !app_assoc. split; [done|]. rewrite !Forall_app. split_and!; [|by repeat constructor|]; eapply Forall_impl; try done; apply user_read_event.
  - exists [d]. cbn. rewrite app_nil_r, E6, B4, A4. split_and!; [done| |done].
    unfold received. rewrite E5, B7, A7, !omap_app. cbn.
    assert (forall l, Forall user_event l -> omap received_of l = []) as Hnil.
    { intros l Hl. induction Hl as [|e l He Hl IH]; [done|]. cbn. by destruct e. }
    rewrite (Hnil ea), (Hnil eb), !app_nil_r by done. by rewrite A4.
Qed.

Lemma buffer_size_positive : 0 < DECRYPT_BUF_SIZE.
Proof. done. Qed.

(** The last round, without data. *)
Lemma last_read s o o' code s2 : m_ssl s = Some o -> buffers_ok (buffers s) -> SSL_read o DECRYPT_BUF_SIZE = (o', code, []) ->
  plain o = [] -> plain o' = [] -> user_step None (s <| buffers ::= fun b => store b [] |> <| m_ssl := Some o' |>) s2 -> delivers [] s s2.
Proof.
  intros Ho Hb Hread Hp Hp' Hus. assert (buffers_ok (store (buffers s) [])) as Hb' by (apply store_buffers_ok; [done|cbn; lia]).
  pose proof (user_delivers (s <| buffers ::= fun b => store b [] |> <| m_ssl := Some o' |>) s2 Hb' Hus) as [D1 D2 D3 D4 D5 D6 D7].
  split; [exact D1|exact D2| |exact D4|exact D5|exact D6|exact D7].
  intros o1 Ho1. rewrite Ho in Ho1. injection Ho1 as <-. destruct (D3 o' eq_refl) as (o2 & Ho2 & R2 & P2). exists o2. split_and!; [done| |].
  - eapply rtc_l; [|exact R2]. right. by exists DECRYPT_BUF_SIZE, code, [].
  - cbn in *. congruence.
Qed.

(** The loop ends, having delivered everything. *)
Lemma read_loop_ok fuel i o : m_ssl (base i) = Some o -> buffers_ok (buffers (base i)) -> (length (plain o) <= fuel)%nat ->
  returns (read_loop fuel i) (fun '(i', code) => code <= 0 /\ delivers (plain o) (base i) (base i')).
Proof.
  revert i o. induction fuel as [|fuel IH]; intros i o Ho Hb Hf; cbn [read_loop]; rewrite (get_ssl_ret _ _ Ho); cbn [obind];
    destruct (decide (plain o = [])) as [E|E].
  1, 3: destruct (read_none o DECRYPT_BUF_SIZE E) as (o' & code & Hread & Hcode & Hp); rewrite Hread; cbn [length]; change (Z.of_nat 0 <=? DECRYPT_BUF_SIZE) with true;
    cbn iota; eapply returns_bind; [apply called_ok|]; intros i' Hi'; rewrite base_on_base in Hi'; rewrite (proj2 (Z.ltb_ge 0 code)) by done; split; [done|];
    rewrite E; by eapply last_read.
  { destruct (plain o); [done|cbn in Hf; lia]. }
  destruct (read_some o DECRYPT_BUF_SIZE buffer_size_positive E) as (o' & d & Hread & Hd & Hl & Hp). rewrite Hread. rewrite (proj2 (Z.leb_le _ _)) by done.
  eapply returns_bind; [apply called_ok|]. intros i2 Hi2. rewrite base_on_base in Hi2. rewrite (proj2 (Z.ltb_lt 0 _)) by (destruct d; [done|cbn; lia]).
  unfold call_ssl_read. eapply returns_bind; [apply (read_hook Hooks)|]. intros i3 Hi3. unfold log in Hi3. rewrite base_on_base in Hi3.
  pose proof (one_read _ _ _ _ _ _ Ho Hb Hread Hl Hp Hi2 Hi3) as Hdel. rewrite <- after_read_base in Hdel.
  destruct (dl_ssl _ _ _ Hdel o Ho) as (o4 & Ho4 & _ & P4). assert (plain o4 = plain o') as E4 by (rewrite Hp in P4; by apply app_inv_head in P4).
  eapply returns_mono; [apply (IH _ o4 Ho4 (dl_buffers _ _ _ Hdel))|].
  - rewrite E4. rewrite Hp, length_app in Hf. destruct d; [done|cbn in Hf; lia].
  - intros [i' code] [Hcode Hdel']. split; [done|]. rewrite Hp, <- E4. by eapply delivers_trans.
Qed.

(** The call of [on_ssl_read] that reports an error. *)
Lemma error_read s s' error : buffers_ok (buffers s) ->
  user_step (Some (mkChunk None 0 0, [])) (emit s (SslRead (mkChunk None 0 0) [] error)) s' -> delivers [] s s'.
Proof.
  intros Hb [A1 A2 A3 A4 A5 (la & A6 & A6') (ea & A7 & A7')]. split; try done.
  - intros o Ho. destruct (A3 o Ho) as (o' & Ho' & R). exists o'. split_and!; [done|by apply rtc_once; left|by rewrite (reads_same_plain o o')].
  - by apply (keeps_null_ok (buffers s)).
  - by exists la.
  - exists ([SslRead (mkChunk None 0 0) [] error] ++ ea). rewrite A7. cbn. rewrite <- app_assoc. split; [done|]. constructor; [done|].
    eapply Forall_impl; [done|]. apply user_read_event.
  - exists []. cbn. rewrite app_nil_r. split_and!; [done| |done]. rewrite (received_user (emit s (SslRead (mkChunk None 0 0) [] error)) s' ea) by done.
    unfold received. cbn. by rewrite omap_app, app_nil_r.
Qed.

Lemma delivers_eq p p' s s' : p = p' -> delivers p s s' -> delivers p' s s'.
Proof. by intros ->. Qed.

Lemma read_from_ssl_ok fuel i o : m_ssl (base i) = Some o -> buffers_ok (buffers (base i)) -> (length (plain o) <= fuel)%nat ->
  returns (read_from_ssl fuel i) (fun i' => delivers (plain o) (base i) (base i')).
Proof.
  intros Ho Hb Hf. unfold read_from_ssl. eapply returns_bind; [by apply (read_loop_ok fuel i o)|]. intros [i1 code] [_ Hdel].
  destruct (code <? 0); [|done]. destruct (dl_ssl _ _ _ Hdel o Ho) as (o1 & Ho1 & _). rewrite (get_ssl_ret _ _ Ho1). cbn [obind]. destruct (negb _); [|done].
  eapply returns_bind; [by apply (last_error_ok i1 o1)|]. intros [[i2 z] error] H2. unfold call_ssl_read.
  eapply returns_mono; [apply (read_hook Hooks)|]. intros i3 H3. unfold log in H3. rewrite base_on_base in H3.
  pose proof (user_delivers _ _ (dl_buffers _ _ _ Hdel) H2) as Hdel2. pose proof (error_read _ _ _ (dl_buffers _ _ _ Hdel2) H3) as Hdel3.
  eapply delivers_eq; [|eapply delivers_trans; [exact Hdel|eapply delivers_trans; [exact Hdel2|exact Hdel3]]]. by rewrite !app_nil_r.
Qed.

(** ** The handshake *)

Definition is_finish (c : OnSend) : bool := match c with FinishFlight _ => true | _ => false end.
Definition finishes (l : list OnSend) : nat := length (List.filter is_finish l).

(** Before the handshake is complete nothing of it is reported and nothing is read; afterwards it is not reported again. *)
Definition quiet (e : Event) : Prop := match e with HandshakeComplete | SslRead _ _ _ => False | _ => True end.
Definition later (e : Event) : Prop := match e with HandshakeComplete => False | _ => True end.

Definition phase (h : HandshakeState) (l : list OnSend) (ev : list Event) : Prop :=
  match h with
  | NONE | IN_PROGRESS => finishes l = 0%nat /\ Forall quiet ev
  | FINISHING => (finishes l <= 1)%nat /\ Forall quiet ev
  | FINISHED => finishes l = 0%nat /\ exists before after, ev = before ++ HandshakeComplete :: after /\ Forall quiet before /\ Forall later after
  end.

Lemma finishes_app l l' : finishes (l ++ l') = (finishes l + finishes l')%nat.
Proof. unfold finishes. by rewrite List.filter_app, length_app. Qed.

Lemma finishes_user l : Forall user_send l -> finishes l = 0%nat.
Proof. induction 1 as [|c l Hc Hl IH]; [done|]. destruct c; try done; exact IH. Qed.

Lemma finishes_delete l k c : l !! k = Some c -> finishes l = ((if is_finish c then 1 else 0) + finishes (delete k l))%nat.
Proof.
  revert k. induction l as [|c' l IH]; intros k Hk; [done|]. destruct k as [|k]; cbn in Hk.
  - injection Hk as ->. unfold finishes. cbn. by destruct (is_finish c).
  - specialize (IH k Hk). change (delete (Datatypes.S k) (c' :: l)) with (c' :: delete k l). unfold finishes in *. cbn [List.filter].
    destruct (is_finish c'); cbn [length]; lia.
Qed.

Lemma phase_grows h l ev l' ev' : phase h l ev -> finishes l' = 0%nat -> Forall quiet ev' -> phase h (l ++ l') (ev ++ ev').
Proof.
  intros Hp Hl He. destruct h; cbn in *; rewrite finishes_app, Hl, Nat.add_0_r.
  1-3: destruct Hp as [? ?]; split; [done|by apply Forall_app].
  destruct Hp as (Hf & b & a & -> & Hb & Ha). split; [done|]. exists b, (a ++ ev'). rewrite <- app_assoc. split_and!; [done|done|].
  apply Forall_app. split; [done|]. eapply Forall_impl; [done|]. by intros [].
Qed.

Lemma phase_reads l ev l' ev' : phase FINISHED l ev -> finishes l' = 0%nat -> Forall later ev' -> phase FINISHED (l ++ l') (ev ++ ev').
Proof.
  intros (Hf & b & a & -> & Hb & Ha) Hl He. split; [by rewrite finishes_app, Hf, Hl|]. exists b, (a ++ ev'). rewrite <- app_assoc. split_and!; [done|done|].
  by apply Forall_app.
Qed.

Record connection_ok s : Prop := {
  ok_client : is_Some (m_client s);
  ok_ssl : is_Some (m_ssl s);
  ok_buffers : buffers_ok (buffers s);
  ok_phase : phase (m_ssl_handshake_state s) (sends s) (events s)
}.

Lemma user_event_quiet e : user_event e -> quiet e.
Proof. by destruct e. Qed.
Lemma read_event_later e : read_event e -> later e.
Proof. by destruct e. Qed.

Lemma user_connection s s' : connection_ok s -> user_step None s s' -> connection_ok s'.
Proof.
  intros [H1 [o H2] H3 H4] [A1 A2 A3 A4 A5 (la & A6 & A6') (ea & A7 & A7')]. split.
  - auto.
  - destruct (A3 o H2) as (o' & -> & _). by eexists.
  - by apply (keeps_ok (buffers s)).
  - rewrite A1, A6, A7. apply phase_grows; [done|by apply finishes_user|]. eapply Forall_impl; [done|]. apply user_event_quiet.
Qed.

(** The same with the empty chunk that comes with an error. *)
Lemma null_connection s s' : connection_ok s -> user_step (Some (mkChunk None 0 0, [])) s s' -> connection_ok s'.
Proof.
  intros [H1 [o H2] H3 H4] [A1 A2 A3 A4 A5 (la & A6 & A6') (ea & A7 & A7')]. split.
  - auto.
  - destruct (A3 o H2) as (o' & -> & _). by eexists.
  - by apply (keeps_null_ok (buffers s)).
  - rewrite A1, A6, A7. apply phase_grows; [done|by apply finishes_user|]. eapply Forall_impl; [done|]. apply user_event_quiet.
Qed.

Lemma delivers_connection p s s' : connection_ok s -> m_ssl_handshake_state s = FINISHED -> delivers p s s' -> connection_ok s'.
Proof.
  intros [H1 [o H2] H3 H4] E [A1 A2 A3 A4 (la & A6 & A6') (ea & A7 & A7') _]. split.
  - auto.
  - destruct (A3 o H2) as (o' & -> & _). by eexists.
  - done.
  - rewrite A1, A6, A7, E in *. apply phase_reads; [done|by apply finishes_user|]. eapply Forall_impl; [done|]. apply read_event_later.
Qed.

(** A call returns when it is given enough fuel. *)
Definition settles {A} (m : nat -> outcome A) (Q : A -> Prop) : Prop := exists n, forall fuel, (n <= fuel)%nat -> returns (m fuel) Q.

Lemma settles_now {A} (m : outcome A) (Q : A -> Prop) : returns m Q -> settles (fun _ => m) Q.
Proof. intros H. by exists 0%nat. Qed.

Lemma settles_bind {A B} (m : outcome A) (k : nat -> A -> outcome B) (Q : A -> Prop) (R : B -> Prop) :
  returns m Q -> (forall a, m = Ret a -> Q a -> settles (fun fuel => k fuel a) R) -> settles (fun fuel => obind m (k fuel)) R.
Proof. destruct m as [a|]; [|done]. intros Hm Hk. by apply Hk. Qed.

Lemma settles_read i o : m_ssl (base i) = Some o -> buffers_ok (buffers (base i)) ->
  settles (fun fuel => read_from_ssl fuel i) (fun i' => delivers (plain o) (base i) (base i')).
Proof. intros Ho Hb. exists (length (plain o)). intros fuel Hf. by apply read_from_ssl_ok. Qed.

Lemma failed_ok i z e : connection_ok (base i) -> returns (call_handshake_failed i z e) (fun i' => connection_ok (base i')).
Proof.
  intros Hi. unfold call_handshake_failed. eapply returns_mono; [apply (failed_hook Hooks)|]. intros i' H. unfold log in H. rewrite base_on_base in H.
  eapply user_connection; [|exact H]. destruct Hi as [H1 H2 H3 H4]. split; [done|done|done|]. cbn. rewrite <- (app_nil_r (sends (base i))). apply phase_grows; [done|done|by repeat constructor].
Qed.

(** The end of the handshake, when no flight is under way. *)
Lemma finish_ok i read : connection_ok (base i) -> m_ssl_handshake_state (base i) <> FINISHED -> finishes (sends (base i)) = 0%nat ->
  settles (fun fuel => let* i := finish_handshake i in if negb (read =? 0) then read_from_ssl fuel i else Ret i) (fun i' => connection_ok (base i')).
Proof.
  intros [H1 H2 H3 H4] Hne Hf. assert (Forall quiet (events (base i))) as Hq by (destruct (m_ssl_handshake_state (base i)); cbn in H4; by destruct H4).
  apply (settles_bind _ _ (fun i' => connection_ok (base i') /\ m_ssl_handshake_state (base i') = FINISHED)).
  - unfold finish_handshake. eapply returns_mono; [apply (complete_hook Hooks)|]. intros i' H. unfold log in H. rewrite !base_on_base in H. split.
    + eapply user_connection; [|exact H]. split; [done|done|done|]. cbn. split; [done|]. by exists (events (base i)), [].
    + by rewrite (us_state _ _ _ H).
  - intros i' _ [Hi' Hst]. destruct (negb _); [|by apply settles_now, returns_ret]. destruct (ok_ssl _ Hi') as [o Ho].
    destruct (settles_read i' o Ho (ok_buffers _ Hi')) as [n Hn]. exists n. intros fuel Hfuel. eapply returns_mono; [by apply Hn|]. intros i2 Hdel. exact (delivers_connection _ _ _ Hi' Hst Hdel).
Qed.

(** The callback of a send that is no longer under way. *)
Definition may_run (c : OnSend) s : Prop := is_finish c = true -> m_ssl_handshake_state s = FINISHING /\ finishes (sends s) = 0%nat.

Lemma run_on_send_ok i c e : connection_ok (base i) -> may_run c (base i) -> settles (fun fuel => run_on_send fuel i c e) (fun i' => connection_ok (base i')).
Proof.
  intros Hi Hc. destruct c as [| |read|send cb|]; cbn [run_on_send].
  - by apply settles_now, returns_ret.
  - apply settles_now. destruct (error_bool e); [by apply failed_ok|done].
  - destruct (Hc eq_refl) as [Hst Hf]. destruct (error_bool e); [by apply settles_now, failed_ok|]. apply finish_ok; [done|congruence|done].
  - apply settles_now. eapply returns_mono; [apply call_end_send_ok|]. intros i' H. by eapply user_connection.
  - apply settles_now. eapply returns_mono; [apply (shutdown_hook Hooks)|]. intros i' H. by eapply user_connection.
Qed.

Lemma client_send_data_ok i bytes c : connection_ok (base i) -> may_run c (base i) ->
  settles (fun fuel => client_send_data fuel i bytes c) (fun i' => connection_ok (base i')).
Proof.
  intros Hi Hc. unfold client_send_data. destruct (ok_client _ Hi) as [cl Hcl]. rewrite Hcl. destruct (client_send cl bytes) as [cl' [error|]].
  - apply run_on_send_ok; rewrite base_on_base; [|done]. destruct Hi as [H1 H2 H3 H4]. by split; [eexists|..].
  - apply settles_now, returns_ret. unfold log. rewrite !base_on_base. destruct Hi as [H1 H2 H3 H4]. split; [by eexists|done|done|]. cbn.
    destruct (is_finish c) eqn:Ec.
    + destruct (Hc Ec) as [Hst Hf]. rewrite Hst in *. cbn in *. rewrite finishes_app, Hf. unfold finishes. cbn. rewrite Ec. split; [done|].
      apply Forall_app. split; [by apply H4|by repeat constructor].
    + apply phase_grows; [done|unfold finishes; cbn; by rewrite Ec|by repeat constructor].
Qed.

Lemma internal_send_ok i c : connection_ok (base i) -> may_run c (base i) ->
  settles (fun fuel => internal_read_from_sll_and_send fuel i c) (fun i' => connection_ok (base i')).
Proof.
  intros Hi Hc. unfold internal_read_from_sll_and_send. destruct (ok_ssl _ Hi) as [o Ho]. rewrite (get_ssl_ret _ _ Ho). cbn [obind].
  destruct (write_pending o =? 0); [by apply settles_now, returns_ret|]. destruct (BIO_read o (write_pending o)) as [[o' n] bytes].
  apply client_send_data_ok; rewrite base_on_base; [|done]. destruct Hi as [H1 H2 H3 H4]. by split; [|eexists|..].
Qed.

Lemma last_error_connection i : connection_ok (base i) -> returns (last_error i) (fun '(i', _, _) => connection_ok (base i') /\ user_step None (base i) (base i')).
Proof.
  intros Hi. destruct (ok_ssl _ Hi) as [o Ho]. eapply returns_mono; [by apply (last_error_ok i o)|]. intros [[i' z] e] H. split; [by eapply user_connection|done].
Qed.

Lemma called_connection i o : connection_ok (base i) -> returns (called i o) (fun i' => connection_ok (base i') /\ user_step None ((base i) <| m_ssl := Some o |>) (base i')).
Proof.
  intros Hi. eapply returns_mono; [apply called_ok|]. intros i' H. split; [|done]. eapply user_connection; [|exact H]. destruct Hi as [H1 H2 H3 H4]. by split; [|eexists|..].
Qed.

Lemma settles_mono {A} (m : nat -> outcome A) (Q R : A -> Prop) : settles m Q -> (forall a, Q a -> R a) -> settles m R.
Proof. intros [n Hn] HQ. exists n. intros fuel Hf. eapply returns_mono; [by apply Hn|done]. Qed.

Lemma settles_seq {A B} (m : nat -> outcome A) (k : A -> outcome B) (Q : A -> Prop) (R : B -> Prop) :
  settles m Q -> (forall a, Q a -> returns (k a) R) -> settles (fun fuel => let* a := m fuel in k a) R.
Proof. intros [n Hn] Hk. exists n. intros fuel Hf. eapply returns_bind; [by apply Hn|done]. Qed.

Lemma no_finish_may_run c s : is_finish c = false -> may_run c s.
Proof. intros E ?. congruence. Qed.

(** [do_handshake] before the handshake is complete. *)
Lemma do_handshake_ok i : connection_ok (base i) -> m_ssl_handshake_state (base i) <> FINISHED ->
  settles (fun fuel => do_handshake fuel i) (fun i' => connection_ok (base i')).
Proof.
  intros Hi Hne. unfold do_handshake. case_bool_decide as Hfin; [by apply settles_now, returns_ret|].
  destruct (ok_ssl _ Hi) as [o Ho]. rewrite (get_ssl_ret _ _ Ho). cbn [obind]. destruct (SSL_do_handshake o) as [o1 result].
  eapply settles_bind; [by apply called_connection|]. intros i1 _ [Hi1 Hus]. destruct (ok_ssl _ Hi1) as [o2 Ho2]. rewrite (get_ssl_ret _ _ Ho2). cbn [obind].
  assert (m_ssl_handshake_state (base i1) = m_ssl_handshake_state (base i)) as Est by exact (us_state _ _ _ Hus).
  assert (finishes (sends (base i1)) = 0%nat) as Hf0.
  { pose proof (ok_phase _ Hi1) as Hp. rewrite Est in Hp. destruct (m_ssl_handshake_state (base i)); [by destruct Hp..|done|done]. }
  destruct (result <? 0); [destruct (SSL_get_error o2 result)|destruct (result =? 1)].
  - destruct (write_pending o2 =? 0); [by apply settles_now, failed_ok|]. by apply internal_send_ok; [|apply no_finish_may_run].
  - by apply settles_now, returns_ret.
  - eapply settles_bind; [by apply last_error_connection|]. intros [[i2 z] e] _ [Hi2 _].
    apply (settles_seq (fun fuel => if negb (write_pending o2 =? 0) then internal_read_from_sll_and_send fuel i2 NoCallback else Ret i2) _ (fun i' => connection_ok (base i'))).
    + destruct (negb _); [by apply internal_send_ok; [|apply no_finish_may_run]|by apply settles_now, returns_ret].
    + intros i3 Hi3. by apply failed_ok.
  - destruct (negb _).
    + apply internal_send_ok; rewrite base_on_base.
      * destruct Hi1 as [H1 H2 H3 H4]. split; [done|done|done|]. change (phase FINISHING (sends (base i1)) (events (base i1))). split; [rewrite Hf0; lia|].
        rewrite Est in H4. destruct (m_ssl_handshake_state (base i)); by destruct H4.
      * by intros _.
    + by apply finish_ok; [|congruence|].
  - eapply settles_bind; [by apply last_error_connection|]. intros [[i2 z] e] _ [Hi2 _]. by apply settles_now, failed_ok.
Qed.

Lemma ssl_connection i o : connection_ok (base i) -> connection_ok (base (on_base (fun s => s <| m_ssl := Some o |>) i)).
Proof. intros [H1 H2 H3 H4]. rewrite base_on_base. by split; [|eexists|..]. Qed.

Lemma on_data_receive_ok i data : connection_ok (base i) -> Z.of_nat (length data) < 2 ^ 31 ->
  settles (fun fuel => on_data_receive fuel i data) (fun i' => connection_ok (base i')).
Proof.
  intros Hi Hl. unfold on_data_receive. rewrite (proj2 (Z.ltb_lt _ _)) by done. destruct (ok_ssl _ Hi) as [o Ho]. rewrite (get_ssl_ret _ _ Ho). cbn [obind].
  destruct (BIO_write o data (Z.of_nat (length data))) as [o' n]. pose proof (ssl_connection i o' Hi) as Hi'. case_bool_decide as Hst.
  - destruct (n <? 0); [by apply settles_now, returns_ret|]. eapply settles_mono; [apply (settles_read _ o'); [by rewrite base_on_base|apply Hi']|].
    intros i2 Hdel. eapply delivers_connection; [exact Hi'| |exact Hdel]. by rewrite base_on_base.
  - destruct (n <=? 0); [by apply settles_now, failed_ok|]. apply do_handshake_ok; [done|]. by rewrite base_on_base.
Qed.

Lemma on_sent_ok i k e : connection_ok (base i) -> settles (fun fuel => on_sent fuel i k e) (fun i' => connection_ok (base i')).
Proof.
  intros Hi. unfold on_sent. destruct (sends (base i) !! k) as [c|] eqn:Hk; [|by apply settles_now, returns_ret].
  pose proof (finishes_delete _ _ _ Hk) as Hf. pose proof (ok_phase _ Hi) as Hp. apply run_on_send_ok; rewrite base_on_base.
  - destruct Hi as [H1 H2 H3 H4]. split; [done|done|done|].
    change (phase (m_ssl_handshake_state (base i)) (delete k (sends (base i))) (events (base i))).
    assert (finishes (delete k (sends (base i))) <= finishes (sends (base i)))%nat as Hle by lia.
    destruct (m_ssl_handshake_state (base i)); destruct Hp; (split; [lia|done]).
  - intros Ec. rewrite Ec in Hf. change (m_ssl_handshake_state (base i) = FINISHING /\ finishes (delete k (sends (base i))) = 0%nat).
    destruct (m_ssl_handshake_state (base i)); destruct Hp; (lia || (split; [done|lia])).
Qed.

(** ** Sending is something user code can do *)

(** One step of user code after the other. *)
Ltac chain := cbv beta in *; first [eassumption | etransitivity; [eassumption|chain]].

Lemma client_send_user fuel i bytes c : is_Some (m_client (base i)) -> user_send c -> match c with NoCallback | EndSend _ _ | ShutdownSent => True | _ => False end ->
  returns (client_send_data fuel i bytes c) (fun i' => user_step None (base i) (base i')).
Proof.
  intros [cl Hcl] Hu Hc. unfold client_send_data. rewrite Hcl. destruct (client_send cl bytes) as [cl' [error|]].
  - assert (user_step None (base i) (base (on_base (fun s => s <| m_client := Some cl' |>) i))) as H0.
    { rewrite base_on_base. split; [done|by eexists|by eexists|done|done|exists []; by rewrite app_nil_r|exists []; by rewrite app_nil_r]. }
    destruct c as [| |read|send cb|]; try done; cbn [run_on_send].
    + eapply returns_mono; [apply call_end_send_ok|]. intros i' H. by etransitivity.
    + eapply returns_mono; [apply (shutdown_hook Hooks)|]. intros i' H. by etransitivity.
  - apply returns_ret. unfold log. rewrite !base_on_base. split; [done|by eexists|by eexists|done|done|exists [c]|exists [ToTransport bytes]]; (split; [done|by repeat constructor]).
Qed.

Lemma send_data_user fuel i buffer size cb : is_Some (m_client (base i)) -> is_Some (m_ssl (base i)) -> cb = true \/ is_open (base i) = true ->
  returns (send_data_impl fuel i buffer size cb) (fun i' => user_step None (base i) (base i')).
Proof.
  intros Hc [o Ho] Hopen. unfold send_data_impl. set (i0 := on_base _ i).
  assert (user_step None (base i) (base i0)) as H0.
  { subst i0. rewrite base_on_base. split; [done|done|by eexists|done|done|exists []; by rewrite app_nil_r|exists []; by rewrite app_nil_r]. }
  assert (is_open (base i0) = is_open (base i)) as Eo by (subst i0; by rewrite base_on_base). rewrite Eo.
  destruct (is_open (base i)); cbn [negb].
  2: { destruct Hopen as [->|?]; [|done]. eapply returns_mono; [apply call_end_send_ok|]. intros i' H. by etransitivity. }
  assert (m_ssl (base i0) = Some o) as Ho0 by (subst i0; by rewrite base_on_base). rewrite (get_ssl_ret _ _ Ho0). cbn [obind].
  destruct (SSL_write o buffer (to_int size)) as [o1 n] eqn:Ew. eapply returns_bind; [apply (called_same i0 o); [done|by eapply write_reads_same]|]. intros i1 H1.
  destruct (us_ssl _ _ _ H1 o Ho0) as (o2 & Ho2 & _). destruct (n <=? 0).
  - eapply returns_bind; [by apply (last_error_ok i1 o2)|]. intros [[i2 z] e] H2. eapply returns_mono; [apply call_end_send_ok|]. intros i' H'. chain.
  - rewrite (get_ssl_ret _ _ Ho2). cbn [obind]. rewrite pending_outgoing. rewrite (proj2 (Z.leb_le _ _)) by lia.
    destruct (BIO_read o2 _) as [[o3 m] bytes] eqn:Er. set (i3 := on_base _ i1).
    assert (user_step None (base i1) (base i3)) as H3. { subst i3. rewrite base_on_base. apply (user_step_ssl _ _ o2); [done|]. by eapply bio_read_reads_same. }
    assert (is_Some (m_client (base i3))) as Hc3 by (apply H3, H1, H0; done). destruct (m <=? 0).
    + eapply returns_mono; [apply call_end_send_ok|]. intros i' H'. chain.
    + eapply returns_mono; [by apply client_send_user|]. intros i' H'. chain.
Qed.

Lemma shutdown_user fuel i : is_Some (m_client (base i)) -> is_Some (m_ssl (base i)) ->
  returns (ssl_shutdown fuel i) (fun '(i', _) => user_step None (base i) (base i')).
Proof.
  intros Hc [o Ho]. unfold ssl_shutdown. rewrite (get_ssl_ret _ _ Ho). cbn [obind]. destruct (SSL_shutdown o) as [o1 n] eqn:Es.
  eapply returns_bind; [apply (called_same i o); [done|by eapply shutdown_reads_same]|]. intros i1 H1. destruct (us_ssl _ _ _ H1 o Ho) as (o2 & Ho2 & _). destruct (n <? 0).
  - eapply returns_bind; [by apply (last_error_ok i1 o2)|]. intros [[i2 z] e] H2. cbn. chain.
  - rewrite (get_ssl_ret _ _ Ho2). cbn [obind]. destruct (negb _); [|done]. unfold internal_read_from_sll_and_send. rewrite (get_ssl_ret _ _ Ho2). cbn [obind].
    destruct (write_pending o2 =? 0); [done|]. destruct (BIO_read o2 (write_pending o2)) as [[o3 m] bytes] eqn:Er. set (i3 := on_base _ i1).
    assert (user_step None (base i1) (base i3)) as H3. { subst i3. rewrite base_on_base. apply (user_step_ssl _ _ o2); [done|]. by eapply bio_read_reads_same. }
    eapply returns_bind; [apply client_send_user; [apply H3, H1; done|done|done]|]. intros i' H'. cbn. chain.
Qed.

(** ** Runs *)

(** What happens to a connection: its class starts the handshake, the transport delivers bytes or the callback of a send, and user code does something. *)
Inductive step (i i' : I) : Prop :=
| step_handshake fuel : m_ssl_handshake_state (base i) <> FINISHED -> do_handshake fuel i = Ret i' -> step i i'
| step_data fuel data : Z.of_nat (length data) < 2 ^ 31 -> on_data_receive fuel i data = Ret i' -> step i i'
| step_sent fuel k e : on_sent fuel i k e = Ret i' -> step i i'
| step_user : user_step None (base i) (base i') -> step i i'.

(** A result does not depend on the fuel. *)
Definition steady {A} (m : nat -> outcome A) : Prop := forall f g x, (f <= g)%nat -> m f = Ret x -> m g = Ret x.

Lemma steady_const {A} (m : outcome A) : steady (fun _ => m).
Proof. by intros f g x _. Qed.

Lemma steady_bind {A B} (m : nat -> outcome A) (k : nat -> A -> outcome B) :
  steady m -> (forall a, steady (fun f => k f a)) -> steady (fun f => obind (m f) (k f)).
Proof. intros Hm Hk f g x Hfg H. apply obind_ret_inv in H as (a & Ha & H). rewrite (Hm f g a Hfg Ha). by apply (Hk a f). Qed.

Lemma settles_ret {A} (m : nat -> outcome A) (Q : A -> Prop) fuel a : steady m -> settles m Q -> m fuel = Ret a -> Q a.
Proof.
  intros Hmono [n Hn] Hm. assert (m (fuel + n)%nat = Ret a) as E by (eapply Hmono; [|exact Hm]; lia). specialize (Hn (fuel + n)%nat ltac:(lia)). by rewrite E in Hn.
Qed.

Ltac steady := repeat first
  [ assumption | apply steady_const
  | match goal with |- forall _, _ => intro end
  | match goal with |- steady (fun _ => obind _ _) => apply steady_bind end
  | match goal with |- steady (fun _ => match ?e with _ => _ end) => destruct e end
  | match goal with |- steady (fun _ => let '(_, _) := ?e in _) => destruct e end ].

Lemma read_loop_steady i : steady (fun f => read_loop f i).
Proof.
  intros f. revert i. induction f as [|f IH]; intros i g x Hfg; destruct g as [|g]; try lia; cbn [read_loop]; try done.
  - intros H. apply obind_ret_inv in H as (o & -> & H). cbn [obind]. destruct (SSL_read o DECRYPT_BUF_SIZE) as [[o' n] d]. destruct (_ <=? _); [|done].
    apply obind_ret_inv in H as (i' & -> & H). cbn [obind]. by destruct (0 <? n).
  - intros H. apply obind_ret_inv in H as (o & -> & H). cbn [obind]. destruct (SSL_read o DECRYPT_BUF_SIZE) as [[o' n] d]. destruct (_ <=? _); [|done].
    apply obind_ret_inv in H as (i' & -> & H). cbn [obind]. destruct (0 <? n); [|done]. apply obind_ret_inv in H as (i2 & -> & H). cbn [obind]. eapply IH; [|exact H]. lia.
Qed.

Lemma read_from_ssl_steady i : steady (fun f => read_from_ssl f i).
Proof. unfold read_from_ssl. apply steady_bind; [apply read_loop_steady|]. intros [i' n]. steady. Qed.

Lemma run_on_send_steady i c e : steady (fun f => run_on_send f i c e).
Proof. pose proof read_from_ssl_steady. destruct c; cbn [run_on_send]; steady. apply H. Qed.

Lemma client_send_data_steady i bytes c : steady (fun f => client_send_data f i bytes c).
Proof. unfold client_send_data. destruct (m_client (base i)); [|apply steady_const]. destruct (client_send _ _) as [? [|]]; [apply run_on_send_steady|apply steady_const]. Qed.

Lemma internal_send_steady i c : steady (fun f => internal_read_from_sll_and_send f i c).
Proof.
  unfold internal_read_from_sll_and_send. apply steady_bind; [apply steady_const|]. intros o. destruct (_ =? 0); [apply steady_const|]. destruct (BIO_read _ _) as [[? ?] ?].
  apply client_send_data_steady.
Qed.

Lemma do_handshake_steady i : steady (fun f => do_handshake f i).
Proof.
  unfold do_handshake. destruct (bool_decide _); [apply steady_const|]. apply steady_bind; [apply steady_const|]. intros o. destruct (SSL_do_handshake o) as [o' r].
  apply steady_bind; [apply steady_const|]. intros i'. apply steady_bind; [apply steady_const|]. intros o2. destruct (r <? 0); [|destruct (r =? 1)].
  - destruct (SSL_get_error o2 r).
    + destruct (_ =? 0); [apply steady_const|apply internal_send_steady].
    + apply steady_const.
    + apply steady_bind; [apply steady_const|]. intros [[i2 z] e]. apply (steady_bind (fun f => if negb (write_pending o2 =? 0) then internal_read_from_sll_and_send f i2 NoCallback else Ret i2)).
      * destruct (negb _); [apply internal_send_steady|apply steady_const].
      * intros i3. apply steady_const.
  - destruct (negb _); [apply internal_send_steady|]. apply steady_bind; [apply steady_const|]. intros i2. destruct (negb _); [apply read_from_ssl_steady|apply steady_const].
  - apply steady_const.
Qed.

Lemma on_data_receive_steady i data : steady (fun f => on_data_receive f i data).
Proof.
  unfold on_data_receive. destruct (_ <? _); [|apply steady_const]. apply steady_bind; [apply steady_const|]. intros o. destruct (BIO_write _ _ _) as [o' n].
  destruct (bool_decide _); [destruct (n <? 0); [apply steady_const|apply read_from_ssl_steady]|destruct (n <=? 0); [apply steady_const|apply do_handshake_steady]].
Qed.

Lemma on_sent_steady i k e : steady (fun f => on_sent f i k e).
Proof. unfold on_sent. destruct (_ !! k); [apply run_on_send_steady|apply steady_const]. Qed.

Lemma step_connection i i' : step i i' -> connection_ok (base i) -> connection_ok (base i').
Proof.
  intros [fuel Hst H|fuel data Hl H|fuel k e H|H] Hi.
  - eapply (settles_ret _ (fun i' => connection_ok (base i'))); [apply do_handshake_steady|by apply do_handshake_ok|exact H].
  - eapply (settles_ret _ (fun i' => connection_ok (base i'))); [apply on_data_receive_steady|by apply on_data_receive_ok|exact H].
  - eapply (settles_ret _ (fun i' => connection_ok (base i'))); [apply on_sent_steady|by apply on_sent_ok|exact H].
  - by eapply user_connection.
Qed.

(** A connection that has a transport and an SSL object and has done nothing yet. *)
Definition fresh s : Prop := is_Some (m_client s) /\ is_Some (m_ssl s) /\ m_ssl_handshake_state s = NONE /\ sends s = [] /\ events s = [] /\ buffers_ok (buffers s).

Lemma fresh_connection s : fresh s -> connection_ok s.
Proof. intros (H1 & H2 & H3 & H4 & H5 & H6). split; [done|done|done|]. rewrite H3, H4, H5. split; [done|constructor]. Qed.

Lemma reachable_connection i0 i : fresh (base i0) -> rtc step i0 i -> connection_ok (base i).
Proof. intros Hf Hr. apply fresh_connection in Hf. induction Hr as [|i1 i2 i3 H12 H23 IH]; [done|]. apply IH. by eapply step_connection. Qed.

Definition is_complete (e : Event) : bool := match e with HandshakeComplete => true | _ => false end.
Definition completions s : nat := length (List.filter is_complete (events s)).

Lemma quiet_no_completion l : Forall quiet l -> List.filter is_complete l = [].
Proof. induction 1 as [|e l He Hl IH]; [done|]. by destruct e. Qed.
Lemma later_no_completion l : Forall later l -> List.filter is_complete l = [].
Proof. induction 1 as [|e l He Hl IH]; [done|]. by destruct e. Qed.

Lemma phase_completions h l ev : phase h l ev -> length (List.filter is_complete ev) = if decide (h = FINISHED) then 1%nat else 0%nat.
Proof.
  intros Hp. destruct h; cbn in Hp; (destruct Hp as [_ Hq]).
  1-3: by rewrite quiet_no_completion.
  destruct Hq as (b & a & -> & Hb & Ha). rewrite List.filter_app. cbn. by rewrite quiet_no_completion, later_no_completion.
Qed.

Lemma phase_reads_after h l ev before c d e after : phase h l ev -> ev = before ++ SslRead c d e :: after -> HandshakeComplete ∈ before.
Proof.
  intros Hp ->. assert (forall l', Forall quiet l' -> SslRead c d e ∈ l' -> False) as Hno.
  { intros l' Hl Hin. by eapply Forall_forall in Hin; [|exact Hl]. }
  destruct h; cbn in Hp; destruct Hp as [_ Hq]; try (exfalso; apply (Hno _ Hq); rewrite elem_of_app, elem_of_cons; tauto).
  destruct Hq as (b & a & E & Hb & Ha). apply app_eq_app in E as (k & [[-> E]|[-> E]]).
  - destruct k as [|e' k]; [done|]. injection E as <- _. rewrite elem_of_app, elem_of_cons. tauto.
  - destruct k as [|e' k]; [done|]. injection E as <- _. exfalso. apply (Hno _ Hb). rewrite elem_of_app, elem_of_cons. tauto.
Qed.

(** C11. In every run of a TLS or DTLS connection, whatever OpenSSL and the transport do and whatever user code does in its callbacks: the completion of the handshake is
    reported exactly once if the handshake is finished and never before; data is handed to the user only after that; the bytes of every chunk the
    user holds are intact; and every further callback of the transport returns. *)
Theorem handshake_reported_once i0 i : fresh (base i0) -> rtc step i0 i ->
  completions (base i) = (if decide (m_ssl_handshake_state (base i) = FINISHED) then 1%nat else 0%nat) /\
  (forall before c d e after, events (base i) = before ++ SslRead c d e :: after -> HandshakeComplete ∈ before) /\
  (forall c d, (c, d) ∈ kept (buffers (base i)) -> intact (buffers (base i)) c d) /\
  (forall data, Z.of_nat (length data) < 2 ^ 31 -> settles (fun fuel => on_data_receive fuel i data) (step i)) /\
  (forall k e, settles (fun fuel => on_sent fuel i k e) (step i)).
Proof.
  intros Hf Hr. pose proof (reachable_connection _ _ Hf Hr) as Hi. split_and!.
  - unfold completions. by eapply phase_completions, ok_phase.
  - intros before c d e after E. by eapply phase_reads_after; [apply Hi|].
  - apply (chunks_intact _ (ok_buffers _ Hi)).
  - intros data Hl. destruct (on_data_receive_ok i data Hi Hl) as [n Hn]. exists n. intros fuel Hfuel. specialize (Hn fuel Hfuel).
    apply returns_inv in Hn as (i' & E & _). rewrite E. by apply (step_data _ _ fuel data).
  - intros k e. destruct (on_sent_ok i k e Hi) as [n Hn]. exists n. intros fuel Hfuel. specialize (Hn fuel Hfuel).
    apply returns_inv in Hn as (i' & E & _). rewrite E. by apply (step_sent _ _ fuel k e).
Qed.

End Facts.

(** ** Properties of the derived class *)

(** A property of the members of the derived class that its own functions keep is kept by those of the base.  [shut] says whether the
    callback of [ssl_shutdown] takes part: without it, the property may depend on no such callback being added to the sends. *)
Section Invariants.
Context {uv : UvErrno} {S C : Type} {ssl : Ssl S} {transport : Transport C} {I : Type} {derived : Derived (S := S) (C := C) I}.
Variable P : I -> Prop.
Variable shut : bool.

(** Changes of the base that report no completion. *)
Definition silent (f : t (S := S) (C := C) -> t (S := S) (C := C)) : Prop := forall s, completions (f s) = completions s.
Definition mute (f : t (S := S) (C := C) -> t (S := S) (C := C)) : Prop := forall s, ShutdownSent ∈ sends (f s) -> ShutdownSent ∈ sends s.

Record hooks_keep : Prop := {
  keep_base f i : silent f -> (shut = false -> mute f) -> P i -> P (on_base f i);
  keep_read i c d e i' : P i -> on_ssl_read i c d e = Ret i' -> P i';
  keep_complete i i' : P i -> finish_handshake i = Ret i' -> P i';
  keep_failed i z e i' : error_bool e = true -> P i -> on_handshake_failed i z e = Ret i' -> P i';
  keep_alert i z i' : P i -> on_alert i z = Ret i' -> P i';
  keep_end_send i n e i' : P i -> on_end_send i n e = Ret i' -> P i';
  keep_shutdown i e i' : shut = true -> P i -> on_shutdown_sent i e = Ret i' -> P i'
}.

Context (Keep : hooks_keep).

Definition kept_by (m : outcome I) : Prop := forall i', m = Ret i' -> P i'.

(** Changes that leave the sends alone. *)
Lemma keep_field f i : silent f -> (forall s, sends (f s) = sends s) -> P i -> P (on_base f i).
Proof. intros Hs Hf. apply (keep_base Keep); [done|]. intros _ s. by rewrite Hf. Qed.

Lemma kept_ret i : P i -> kept_by (Ret i).
Proof. by intros Hi i' [= <-]. Qed.

Lemma kept_bind {A} (m : outcome A) (k : A -> outcome I) : (forall a, m = Ret a -> kept_by (k a)) -> kept_by (obind m k).
Proof. intros Hk i' H. apply obind_ret_inv in H as (a & Ha & H). by apply (Hk a Ha). Qed.

Lemma kept_log i e : is_complete e = false -> P i -> P (log i e).
Proof. intros He. apply (keep_base Keep); [|by intros _ s]. intros s. unfold completions, emit. cbn. rewrite List.filter_app, length_app. cbn. rewrite He. cbn. lia. Qed.

Lemma kept_failed i z e : error_bool e = true -> P i -> kept_by (call_handshake_failed i z e).
Proof. intros He Hi i'. apply (keep_failed Keep); [done|]. by apply kept_log. Qed.
Lemma kept_read i c d e : P i -> kept_by (call_ssl_read i c d e).
Proof. intros Hi i'. apply (keep_read Keep). by apply kept_log. Qed.
Lemma kept_end_send i n cb e : P i -> kept_by (call_end_send i n cb e).
Proof. intros Hi. unfold call_end_send. destruct cb; [|by apply kept_ret]. intros i'. apply (keep_end_send Keep). by apply kept_log. Qed.
Lemma kept_finish i : P i -> kept_by (finish_handshake i).
Proof. intros Hi i'. by apply (keep_complete Keep). Qed.

Lemma kept_called i o : P i -> kept_by (called i o).
Proof.
  intros Hi. unfold called. apply (keep_base Keep (fun s => s <| m_ssl := Some o |>)) in Hi; [|done|by intros _ s]. revert Hi. generalize (on_base (fun s => s <| m_ssl := Some o |>) i). clear i.
  induction (infos o) as [|[w r] l IH]; intros i Hi; cbn [state_callbacks]; [by apply kept_ret|]. apply kept_bind. intros i' E. apply IH. unfold ssl_state_callback in E.
  destruct (_ && _); [|by injection E as <-]. eapply (keep_alert Keep); [|exact E]. by apply kept_log.
Qed.

Lemma kept_last_error i i' z e : P i -> last_error i = Ret (i', z, e) -> P i' /\ error_bool e = true.
Proof.
  intros Hi H. unfold last_error in H. apply obind_ret_inv in H as (o & _ & H). destruct (ERR_get_error o). injection H as <- <- <-. split; [by apply keep_field|done].
Qed.

Lemma kept_after prev n i : P i -> P (after_read prev n i).
Proof. intros Hi. unfold after_read. destruct (bool_decide _); repeat apply keep_field; done. Qed.

Lemma kept_ssl_init i a i' e : P i -> ssl_init i a = (i', e) -> P i'.
Proof.
  intros Hi. unfold ssl_init. assert (P (on_base (fun s => s <| m_ssl := SSL_new a |>) i)) as H1 by (by apply keep_field).
  destruct (SSL_new a); [|by intros [= <- _]]. destruct (negb _); [by intros [= <- _]|]. destruct (negb _); [by intros [= <- _]|]. intros [= <- _]. by apply keep_field.
Qed.

Lemma kept_read_loop fuel i i' n : P i -> read_loop fuel i = Ret (i', n) -> P i'.
Proof.
  revert i. induction fuel as [|fuel IH]; intros i Hi H; cbn [read_loop] in H; apply obind_ret_inv in H as (o & _ & H);
    destruct (SSL_read o DECRYPT_BUF_SIZE) as [[o' m] d]; destruct (_ <=? _); try done; apply obind_ret_inv in H as (i1 & E1 & H);
    apply kept_called in E1; try (by apply keep_field); destruct (0 <? m); try done; try (by injection H as <- <-).
  apply obind_ret_inv in H as (i2 & E2 & H). apply kept_read in E2; [|done]. eapply IH; [|exact H]. by apply kept_after.
Qed.

Lemma kept_read_from_ssl fuel i : P i -> kept_by (read_from_ssl fuel i).
Proof.
  intros Hi. unfold read_from_ssl. apply kept_bind. intros [i1 n] E1. apply kept_read_loop in E1; [|done]. destruct (n <? 0); [|by apply kept_ret].
  apply kept_bind. intros o _. destruct (negb _); [|by apply kept_ret]. apply kept_bind. intros [[i2 z] e] E2. apply kept_last_error in E2 as [E2 Ee]; [|done]. by apply kept_read.
Qed.

Lemma kept_run_on_send fuel i c e : P i -> (c = ShutdownSent -> shut = true) -> kept_by (run_on_send fuel i c e).
Proof.
  intros Hi Hsh. destruct c as [| |read|send cb|]; cbn [run_on_send].
  - by apply kept_ret.
  - destruct (error_bool e) eqn:He; [by apply kept_failed|by apply kept_ret].
  - destruct (error_bool e) eqn:He; [by apply kept_failed|]. apply kept_bind. intros i1 E1. apply kept_finish in E1; [|done]. destruct (negb _); [by apply kept_read_from_ssl|by apply kept_ret].
  - by apply kept_end_send.
  - intros i'. apply (keep_shutdown Keep); auto.
Qed.

Lemma kept_client_send fuel i bytes c : P i -> (c = ShutdownSent -> shut = true) -> kept_by (client_send_data fuel i bytes c).
Proof.
  intros Hi Hsh. unfold client_send_data. destruct (m_client (base i)); [|done]. destruct (client_send _ _) as [? [|]].
  - apply kept_run_on_send; [by apply keep_field|done].
  - apply kept_ret, kept_log, (keep_base Keep); [done|done| |done]. intros Hf s [H|H%list_elem_of_singleton]%elem_of_app; [done|].
    specialize (Hsh (eq_sym H)). congruence.
Qed.

Lemma kept_internal fuel i c : P i -> (c = ShutdownSent -> shut = true) -> kept_by (internal_read_from_sll_and_send fuel i c).
Proof.
  intros Hi Hsh. unfold internal_read_from_sll_and_send. apply kept_bind. intros o _. destruct (_ =? 0); [by apply kept_ret|]. destruct (BIO_read _ _) as [[? ?] ?].
  apply kept_client_send; [by apply keep_field|done].
Qed.

Lemma kept_do_handshake fuel i : P i -> kept_by (do_handshake fuel i).
Proof.
  intros Hi. unfold do_handshake. destruct (bool_decide _); [by apply kept_ret|]. apply kept_bind. intros o _. destruct (SSL_do_handshake o) as [o' r].
  apply kept_bind. intros i1 E1. apply kept_called in E1; [|done]. apply kept_bind. intros o2 _. destruct (r <? 0); [destruct (SSL_get_error o2 r)|destruct (r =? 1)].
  - destruct (_ =? 0); [by apply kept_failed|by apply kept_internal].
  - by apply kept_ret.
  - apply kept_bind. intros [[i2 z] e] E2. apply kept_last_error in E2 as [E2 Ee]; [|done]. apply kept_bind. intros i3 E3. apply kept_failed; [done|].
    destruct (negb _); [by eapply kept_internal in E3|by injection E3 as <-].
  - destruct (negb _); [apply kept_internal; [by apply keep_field|done]|]. apply kept_bind. intros i2 E2. apply kept_finish in E2; [|done].
    destruct (negb _); [by apply kept_read_from_ssl|by apply kept_ret].
  - apply kept_bind. intros [[i2 z] e] E2. apply kept_last_error in E2 as [E2 Ee]; [|done]. by apply kept_failed.
Qed.

Lemma kept_on_data_receive fuel i data : P i -> kept_by (on_data_receive fuel i data).
Proof.
  intros Hi. unfold on_data_receive. destruct (_ <? _); [|done]. apply kept_bind. intros o _. destruct (BIO_write _ _ _) as [o' n].
  assert (P (on_base (fun s => s <| m_ssl := Some o' |>) i)) as Hi' by (by apply keep_field). destruct (bool_decide _).
  - destruct (n <? 0); [by apply kept_ret|by apply kept_read_from_ssl].
  - destruct (n <=? 0); [by apply kept_failed|by apply kept_do_handshake].
Qed.

Lemma kept_on_sent fuel i k e : P i -> (sends (base i) !! k = Some ShutdownSent -> shut = true) -> kept_by (on_sent fuel i k e).
Proof.
  intros Hi Hsh. unfold on_sent. destruct (_ !! k) as [c|]; [|by apply kept_ret]. apply kept_run_on_send; [|by intros ->; apply Hsh].
  apply (keep_base Keep); [done| |done]. intros _ s H. cbn in H. by eapply elem_of_submseteq; [exact H|apply submseteq_delete].
Qed.

Lemma kept_send_data fuel i buffer size cb : P i -> kept_by (send_data_impl fuel i buffer size cb).
Proof.
  intros Hi. unfold send_data_impl. apply (keep_field (fun s => s <| next_send ::= Datatypes.S |>)) in Hi; [|done|done]. revert Hi. generalize (on_base (fun s => s <| next_send ::= Datatypes.S |>) i).
  intros i0 Hi. destruct (negb _); [destruct cb; [by apply kept_end_send|done]|]. apply kept_bind. intros o _. destruct (SSL_write _ _ _) as [o' n].
  apply kept_bind. intros i1 E1. apply kept_called in E1; [|done]. destruct (n <=? 0).
  - apply kept_bind. intros [[i2 z] e] E2. apply kept_last_error in E2 as [E2 Ee]; [|done]. by apply kept_end_send.
  - apply kept_bind. intros o2 _. destruct (0 <=? _); [|done]. destruct (BIO_read _ _) as [[o3 m] bytes].
    destruct (m <=? 0); [by apply kept_end_send, keep_field|apply kept_client_send; [by apply keep_field|done]].
Qed.

Lemma kept_shutdown fuel i i' e : shut = true -> P i -> ssl_shutdown fuel i = Ret (i', e) -> P i'.
Proof.
  intros Hsh Hi H. unfold ssl_shutdown in H. apply obind_ret_inv in H as (o & _ & H). destruct (SSL_shutdown o) as [o' n]. apply obind_ret_inv in H as (i1 & E1 & H).
  apply kept_called in E1; [|done]. destruct (n <? 0).
  - apply obind_ret_inv in H as ([[i2 z] e2] & E2 & [= <- <-]). by apply kept_last_error in E2 as [E2 _].
  - apply obind_ret_inv in H as (o2 & _ & H). destruct (negb _); [|by injection H as <- <-]. apply obind_ret_inv in H as (i2 & E2 & [= <- <-]). eapply kept_internal in E2; [done|done|by intros _].
Qed.

End Invariants.

(** ** Two connections

    [carries a b bytes p]: the bytes that the object [a] has written and that [b] has not been given yet decrypt to [p], after what [b] has been given already.
    That is what TLS is for. *)

Class SecureChannel {S : Type} {ssl : Ssl S} (laws : SslLaws ssl) := {
  carries : S -> S -> list Z -> list Z -> Prop;
  carries_write a b bytes p m : carries a b bytes p -> m <> [] -> exists a' x, SSL_write a m (Z.of_nat (length m)) = (a', Z.of_nat (length m)) /\
    infos a' = [] /\ outgoing a' = outgoing a ++ x /\ x <> [] /\ carries a' b (bytes ++ x) (p ++ m);
  carries_sent a b bytes p n a' code d : carries a b bytes p -> BIO_read a n = (a', code, d) -> carries a' b bytes p;
  carries_feed a b c bytes p b' code : carries a b (c ++ bytes) p -> BIO_write b c (Z.of_nat (length c)) = (b', code) ->
    exists p1 p2, p = p1 ++ p2 /\ plain b' = plain b ++ p1 /\ carries a b' bytes p2;
  carries_same a b b' bytes p : carries a b bytes p -> reads_same b b' -> carries a b' bytes p;
  carries_read a b b' bytes p n code d : carries a b bytes p -> SSL_read b n = (b', code, d) -> carries a b' bytes p;
  carries_nothing a b p : carries a b [] p -> p = []
}.

(** A transport that takes what it is given. *)
Class Accepting {C : Type} (transport : Transport C) := {
  accepts c bytes : client_is_open c = true -> exists c', client_send c bytes = (c', None) /\ client_is_open c' = true
}.

Section Pair.
Context {uv : UvErrno} {S C D : Type} {ssl : Ssl S} {laws : SslLaws ssl} {channel : SecureChannel laws}.
Context {transport : Transport C} {accepting : Accepting transport} {transport' : Transport D}.
Context {I : Type} {sender : Derived (S := S) (C := C) I} {J : Type} {receiver : Derived (S := S) (C := D) J}.

(** Messages sent one after the other, with a callback each, and chunks received one after the other. *)
Fixpoint send_all (fuel : nat) (i : I) (messages : list (list Z)) : outcome I :=
  match messages with
  | [] => Ret i
  | m :: messages => let* i := send_data_string fuel i m true in send_all fuel i messages
  end.

Fixpoint receive_all (fuel : nat) (j : J) (chunks : list (list Z)) : outcome J :=
  match chunks with
  | [] => Ret j
  | c :: chunks => let* j := on_data_receive fuel j c in receive_all fuel j chunks
  end.

(** The bytes given to the transport. *)
Definition wire_of (e : Event) : option (list Z) := match e with ToTransport bytes => Some bytes | _ => None end.
Definition wire (s : t (S := S) (C := C)) : list Z := concat (omap wire_of (events s)).

(** An open connection with an empty write BIO. *)
Definition can_send (s : t (S := S) (C := C)) (a : S) : Prop := is_open s = true /\ m_ssl s = Some a /\ outgoing a = [].

Lemma is_open_inv (s : t (S := S) (C := C)) : is_open s = true -> exists c, m_client s = Some c /\ client_is_open c = true /\ m_ssl_handshake_state s = FINISHED.
Proof. unfold is_open. destruct (m_client s) as [c|]; [|done]. rewrite andb_true_iff, bool_decide_eq_true. intros [? ?]. by exists c. Qed.

Lemma send_one fuel (i : I) m a b bytes p : can_send (base i) a -> carries a b bytes p -> m <> [] -> Z.of_nat (length m) < 2 ^ 31 ->
  exists i' a' x, send_data_string fuel i m true = Ret i' /\ can_send (base i') a' /\ carries a' b (bytes ++ x) (p ++ m) /\ wire (base i') = wire (base i) ++ x.
Proof.
  intros (Hopen & Ha & Hout) Hcar Hm Hl. unfold send_data_string, send_data_impl. set (i0 := on_base _ i).
  assert (base i0 = (base i) <| next_send ::= Datatypes.S |>) as E0 by (subst i0; apply base_set_base).
  assert (is_open (base i0) = true) as Hopen0 by (rewrite E0; exact Hopen). rewrite Hopen0. cbn [negb].
  rewrite (get_ssl_ret i0 a) by (by rewrite E0). cbn [obind]. rewrite wrap_small by (unfold fits; lia).
  assert (to_int (Z.of_nat (length m)) = Z.of_nat (length m)) as -> by (unfold to_int; by rewrite (proj2 (Z.ltb_lt _ _)) by lia).
  destruct (carries_write a b bytes p m Hcar Hm) as (a1 & x & Hw & Hinf & Hout1 & Hx & Hcar1). rewrite Hw. unfold called. rewrite Hinf. cbn [state_callbacks obind].
  rewrite (proj2 (Z.leb_gt _ _)) by (destruct m; [done|cbn; lia]). set (i1 := on_base _ i0).
  assert (base i1 = (base i0) <| m_ssl := Some a1 |>) as E1 by (subst i1; apply base_set_base).
  rewrite (get_ssl_ret i1 a1) by (by rewrite E1). cbn [obind]. rewrite Hout in Hout1. cbn in Hout1.
  destruct (bio_read_all a1) as (a2 & Hr & Hout2); [congruence|]. rewrite Hr, pending_outgoing. rewrite (proj2 (Z.leb_le 0 _)) by lia. cbn iota.
  rewrite (proj2 (Z.leb_gt _ _)) by (rewrite Hout1; destruct x; [done|cbn; lia]). unfold client_send_data. rewrite base_on_base, E1, E0.
  destruct (is_open_inv _ Hopen) as (c & Hc & Hco & Hst). cbn [m_client]. change (m_client (base i) <| next_send ::= Datatypes.S |> <| m_ssl := Some a1 |> <| m_ssl := Some a2 |>) with (m_client (base i)).
  rewrite Hc. destruct (accepts c (outgoing a1) Hco) as (c' & -> & Hco'). eexists _, a2, x. split; [reflexivity|]. unfold log. rewrite !base_on_base, E1, E0. split_and!.
  - split_and!; [|done|done]. unfold is_open. cbn. by rewrite Hco', Hst.
  - by eapply carries_sent.
  - unfold wire. cbn. rewrite omap_app, concat_app. cbn. by rewrite app_nil_r, Hout1.
Qed.

Lemma send_all_ok fuel messages (i : I) a b bytes p : can_send (base i) a -> carries a b bytes p -> Forall (fun m => m <> [] /\ Z.of_nat (length m) < 2 ^ 31) messages ->
  exists i' a' x, send_all fuel i messages = Ret i' /\ can_send (base i') a' /\ carries a' b (bytes ++ x) (p ++ concat messages) /\ wire (base i') = wire (base i) ++ x.
Proof.
  revert i a bytes p. induction messages as [|m messages IH]; intros i a bytes p Hs Hc Hm.
  - exists i, a, []. cbn. by rewrite !app_nil_r.
  - apply Forall_cons in Hm as [[Hm Hl] Hms]. destruct (send_one fuel i m a b bytes p Hs Hc Hm Hl) as (i1 & a1 & x & E & Hs1 & Hc1 & Hw1). cbn [send_all]. rewrite E. cbn [obind].
    destruct (IH i1 a1 _ _ Hs1 Hc1 Hms) as (i2 & a2 & y & E2 & Hs2 & Hc2 & Hw2). exists i2, a2, (x ++ y). cbn. rewrite Hw2, Hw1, !app_assoc in *. done.
Qed.

Context (Hooks : hooks_ok (derived := receiver)).

Lemma read_by_carries a b b' bytes p : rtc read_by b b' -> carries a b bytes p -> carries a b' bytes p.
Proof. induction 1 as [|b1 b2 b3 [Hs|(n & code & d & Hr)] _ IH]; [done|..]; intros Hc; apply IH; [by eapply carries_same|by eapply carries_read]. Qed.

Definition can_receive (s : t (S := S) (C := D)) (b : S) : Prop := connection_ok s /\ m_ssl_handshake_state s = FINISHED /\ m_ssl s = Some b /\ plain b = [].

(** The data [p] has been handed over. *)
Definition handed (p : list Z) (s s' : t (S := S) (C := D)) : Prop :=
  exists ds, concat ds = p /\ received s' = received s ++ at_offsets (m_data_offset s) ds /\
    m_data_offset s' = foldl (fun n d => wrap 64 (n + Z.of_nat (length d))) (m_data_offset s) ds.

Lemma handed_trans p q s1 s2 s3 : handed p s1 s2 -> handed q s2 s3 -> handed (p ++ q) s1 s3.
Proof.
  intros (da & A1 & A2 & A3) (db & B1 & B2 & B3). exists (da ++ db). by rewrite concat_app, A1, B1, B2, A2, at_offsets_app, <- A3, app_assoc, foldl_app, <- A3.
Qed.

Lemma receive_one (j : J) c a b bytes p : can_receive (base j) b -> carries a b (c ++ bytes) p -> Z.of_nat (length c) < 2 ^ 31 ->
  settles (fun fuel => on_data_receive fuel j c) (fun j' => exists b' p1 p2, p = p1 ++ p2 /\ can_receive (base j') b' /\ carries a b' bytes p2 /\ handed p1 (base j) (base j')).
Proof.
  intros (Hok & Hst & Hb & Hp) Hc Hl. unfold on_data_receive. rewrite (proj2 (Z.ltb_lt _ _)) by done. rewrite (get_ssl_ret j b Hb). cbn [obind].
  destruct (BIO_write b c (Z.of_nat (length c))) as [b1 n] eqn:Ew. destruct (carries_feed a b c bytes p b1 n Hc Ew) as (p1 & p2 & -> & Hp1 & Hc1).
  rewrite Hp in Hp1. cbn in Hp1. rewrite bool_decide_true by done. set (j1 := on_base _ j). assert (base j1 = (base j) <| m_ssl := Some b1 |>) as E1 by (subst j1; apply base_set_base).
  assert (connection_ok (base j1)) as Hok1 by by apply ssl_connection. assert (m_ssl (base j1) = Some b1) as Hb1 by by rewrite E1.
  destruct (n <? 0) eqn:En.
  - apply settles_now, returns_ret. assert (p1 = []) as ->.
    { destruct (decide (c = [])) as [->|Hne]; [|destruct (bio_write_ok b c Hne) as (o' & E); rewrite E in Ew; injection Ew as <- <-; apply Z.ltb_lt in En; lia].
      destruct (bio_write_nothing b) as (o' & code & E & Hs). change (Z.of_nat (length (@nil Z))) with 0 in Ew. rewrite E in Ew. injection Ew as <- <-. by rewrite <- Hp1, (reads_same_plain b o'). }
    exists b1, [], p2. split_and!; [done|by rewrite E1 in *; split_and!|done|]. exists []. rewrite E1. cbn. by rewrite app_nil_r.
  - eapply settles_mono; [apply (settles_read Hooks j1 b1 Hb1 (ok_buffers _ Hok1))|]. rewrite Hp1. intros j' Hdel. destruct (dl_ssl _ _ _ Hdel b1 Hb1) as (b' & Hb' & Hrb & Hpl).
    assert (plain b' = []) as Hpl' by (rewrite Hp1 in Hpl; apply (app_inv_head p1); by rewrite app_nil_r).
    exists b', p1, p2. split_and!; [done| |by eapply read_by_carries|].
    + split_and!; [|by rewrite (dl_state _ _ _ Hdel), E1|done|done]. apply (delivers_connection p1 (base j1)); [done|by rewrite E1|done].
    + destruct (dl_received _ _ _ Hdel) as (ds & D1 & D2 & D3). exists ds. by rewrite E1 in *.
Qed.

Lemma settles_then {A B} (m : nat -> outcome A) (k : nat -> A -> outcome B) (Q : A -> Prop) (R : B -> Prop) :
  steady m -> settles m Q -> (forall a, Q a -> settles (fun f => k f a) R) -> settles (fun f => obind (m f) (k f)) R.
Proof.
  intros Hs [n Hn] Hk. pose proof (Hn n ltac:(lia)) as Hr. apply returns_inv in Hr as (a & Ea & Ha). destruct (Hk a Ha) as [n' Hn']. exists (n + n')%nat. intros fuel Hf.
  rewrite (Hs n fuel a ltac:(lia) Ea). cbn. apply Hn'. lia.
Qed.

Lemma receive_all_ok chunks (j : J) a b p : can_receive (base j) b -> carries a b (concat chunks) p -> Forall (fun c => Z.of_nat (length c) < 2 ^ 31) chunks ->
  settles (fun fuel => receive_all fuel j chunks) (fun j' => handed p (base j) (base j')).
Proof.
  revert j b p. induction chunks as [|c chunks IH]; intros j b p Hr Hc Hl.
  - cbn [receive_all]. apply settles_now, returns_ret. apply carries_nothing in Hc as ->. exists []. cbn. by rewrite app_nil_r.
  - apply Forall_cons in Hl as [Hl Hls]. cbn [concat] in Hc. cbn [receive_all]. eapply settles_then; [apply on_data_receive_steady|by eapply receive_one|].
    intros j1 (b1 & p1 & p2 & -> & Hr1 & Hc1 & Hh). eapply settles_mono; [by eapply IH|]. intros j' Hh'. by eapply handed_trans.
Qed.

(** C12. What one side sends the other side receives: messages given to [send_data] of an open connection whose transport takes them are put on the wire, and however the
    transport cuts these bytes into chunks, the other side hands over exactly their concatenation, in order, each piece with its offset in the stream. *)
Theorem tls_stream_roundtrip fuel (i : I) (j : J) a b messages :
  can_send (base i) a -> can_receive (base j) b -> carries a b [] [] -> Forall (fun m => m <> [] /\ Z.of_nat (length m) < 2 ^ 31) messages ->
  exists i' bytes, send_all fuel i messages = Ret i' /\ wire (base i') = wire (base i) ++ bytes /\
    forall chunks, concat chunks = bytes -> Forall (fun c => Z.of_nat (length c) < 2 ^ 31) chunks ->
      settles (fun fuel => receive_all fuel j chunks) (fun j' => exists ds, concat ds = concat messages /\ received (base j') = received (base j) ++ at_offsets (m_data_offset (base j)) ds).
Proof.
  intros Hs Hr Hc Hm. destruct (send_all_ok fuel messages i a b [] [] Hs Hc Hm) as (i' & a' & x & E & _ & Hc' & Hw). exists i', x. split_and!; [done|done|].
  intros chunks <- Hl. eapply settles_mono; [by eapply receive_all_ok|]. intros j' (ds & H1 & H2 & _). by exists ds.
Qed.

End Pair.

(** ** A concrete library

    A handshake of one byte each way and records of one byte, encrypted by exclusive or: enough for the laws. *)

Record Toy := mkToy { established : bool; started : bool; incoming : list Z; output : list Z }.

Definition cipher (x : Z) : Z := Z.lxor x 85.

Lemma cipher_cipher l : map cipher (map cipher l) = l.
Proof. rewrite map_map. rewrite <- (map_id l) at 2. apply map_ext. intros x. unfold cipher. by rewrite Z.lxor_assoc, Z.lxor_nilpotent, Z.lxor_0_r. Qed.

#[global] Instance toy_ssl : Ssl Toy := {
  SSL_set_connect_state o := o;
  SSL_set_accept_state o := o;
  SSL_do_handshake o :=
    if established o then (o, 1)
    else match incoming o with
    | 1 :: rest => (mkToy true true rest (output o ++ if started o then [] else [1]), 1)
    | _ :: _ => (o, -2)
    | [] => if started o then (o, -1) else (mkToy false true [] (output o ++ [1]), -1)
    end;
  SSL_read o n :=
    let d := if established o then take (Z.to_nat n) (incoming o) else [] in
    if decide (d = []) then (o, -1, []) else (mkToy (established o) (started o) (drop (Z.to_nat n) (incoming o)) (output o), Z.of_nat (length d), map cipher d);
  SSL_write o d n := if established o then (mkToy (established o) (started o) (incoming o) (output o ++ map cipher d), Z.of_nat (length d)) else (o, -1);
  SSL_shutdown o := (mkToy (established o) (started o) (incoming o) (output o ++ [0]), 0);
  SSL_get_error o code := if code =? -1 then SSL_ERROR_WANT_READ else SSL_ERROR_OTHER;
  SSL_version o := 0x0303;
  SSL_get_shutdown o := 0;
  infos o := [];
  ERR_get_error o := (o, 1);
  ERR_reason_error_string code := Some "wrong byte";
  BIO_write o d n := (mkToy (established o) (started o) (incoming o ++ d) (output o), n);
  BIO_read o n := (mkToy (established o) (started o) (incoming o) (drop (Z.to_nat n) (output o)), Z.of_nat (length (take (Z.to_nat n) (output o))), take (Z.to_nat n) (output o));
  read_pending o := Z.of_nat (length (incoming o));
  write_pending o := Z.of_nat (length (output o))
}.

Definition toy_same (o o' : Toy) : Prop := established o' = established o /\ incoming o' = incoming o.

#[global] Instance toy_same_order : PreOrder toy_same.
Proof. split; [by intros o|]. intros o1 o2 o3 [A1 A2] [B1 B2]. split; congruence. Qed.

#[global] Program Instance toy_laws : SslLaws toy_ssl := {
  plain o := if established o then map cipher (incoming o) else [];
  outgoing := output;
  reads_same := toy_same
}.
Next Obligation. intros o o' [E1 E2]. by rewrite E1, E2. Qed.
Next Obligation.
  intros [est st inc out] n Hn Hp. cbn in *. destruct est; [|done]. assert (take (Z.to_nat n) inc <> []) as Ht.
  { destruct inc as [|x inc]; [done|]. destruct (Z.to_nat n) eqn:E; [lia|done]. }
  rewrite decide_False by done. eexists _, (map cipher (take (Z.to_nat n) inc)). rewrite length_map. split_and!; [done|by intros ?%map_eq_nil| |].
  - rewrite length_take. lia.
  - cbn. by rewrite <- map_app, take_drop.
Qed.
Next Obligation.
  intros [est st inc out] n Hp. cbn in *. assert ((if est then take (Z.to_nat n) inc else []) = []) as ->. { destruct est; [|done]. apply map_eq_nil in Hp as ->. by rewrite take_nil. }
  rewrite decide_True by done. by eexists _, _.
Qed.
Next Obligation. intros [est st inc out] d n o' code. cbn. destruct est; by intros [= <- <-]. Qed.
Next Obligation. by intros o o' code [= <- <-]. Qed.
Next Obligation. by intros o o' code [= <- <-]. Qed.
Next Obligation. by intros o n o' code d [= <- <- <-]. Qed.
Next Obligation. done. Qed.
Next Obligation. intros [est st inc out] _. cbn. rewrite Nat2Z.id, firstn_all. eexists. split; [done|]. cbn. by rewrite drop_all. Qed.
Next Obligation. intros o d _. by eexists. Qed.
Next Obligation. intros o. eexists _, _. split; [done|]. split; [done|]. cbn. by rewrite app_nil_r. Qed.

#[global] Program Instance toy_channel : SecureChannel toy_laws := {
  carries a b bytes p := established a = true /\ established b = true /\ p = map cipher bytes
}.
Next Obligation.
  intros [est st inc out] b bytes p m (Ha & Hb & ->) Hm. cbn in Ha. subst est. eexists _, (map cipher m). cbn. split_and!; [done|done|done|by intros ?%map_eq_nil|done|done|].
  by rewrite map_app, cipher_cipher.
Qed.
Next Obligation. by intros a b bytes p n a' code d (Ha & Hb & ->) [= <- <- <-]. Qed.
Next Obligation.
  intros a b c bytes p b' code (Ha & Hb & ->) [= <- <-]. exists (map cipher c), (map cipher bytes). cbn. by rewrite Hb, !map_app.
Qed.
Next Obligation. intros a b b' bytes p (Ha & Hb & ->) [E _]. split_and!; [done|congruence|done]. Qed.
Next Obligation.
  intros a b b' bytes p n code d (Ha & Hb & ->). cbn. rewrite Hb. destruct (decide _); intros [= <- <- <-]; by split_and!.
Qed.
Next Obligation. by intros a b p (_ & _ & ->). Qed.

(** A transport that is open and takes everything, and classes without callbacks of their own. *)
#[global] Instance open_transport : Transport unit := { client_is_open _ := true; client_send c _ := (c, None); client_schedule_removal c := c }.
#[global] Instance open_accepting : Accepting open_transport.
Proof. split. by intros [] bytes _; exists tt. Qed.

#[global] Instance plain_class : Derived (S := Toy) (C := unit) (t (S := Toy) (C := unit)) := {
  base s := s; set_base _ s := s; base_set_base _ _ := eq_refl;
  ssl_set_state o := o;
  on_ssl_read s _ _ _ := Ret s;
  on_handshake_complete s := Ret s;
  on_handshake_failed s _ _ := Ret s;
  on_alert s _ := Ret s;
  on_end_send s _ _ := Ret s;
  on_shutdown_sent s _ := Ret s
}.

Lemma plain_hooks : hooks_ok (derived := plain_class).
Proof. split; intros; apply returns_ret; reflexivity. Qed.

#[local] Existing Instance UvFallback.

Definition toy_start : t := (create (Some tt)) <| m_ssl := Some (mkToy false false [] []) |>.
Definition get (m : outcome (t (S := Toy) (C := unit))) : t := match m with Ret s => s | Fault _ => toy_start end.

Lemma created_buffers : buffers_ok (new_buffer no_buffers).
Proof. apply new_buffer_ok. intros c d Hin. by apply not_elem_of_nil in Hin. Qed.

Lemma toy_fresh : fresh toy_start.
Proof. split_and!; [by eexists|by eexists|done|done|done|exact created_buffers]. Qed.

(** The client's handshake, and the server's with the client's byte. *)
Definition client_waiting : t := get (do_handshake 0 toy_start).
Definition client_done : t := get (on_data_receive 0 client_waiting [1]).
Definition server_finishing : t := get (on_data_receive 0 toy_start [1]).
Definition server_done : t := get (on_sent 0 server_finishing 0 (Error_of_status OK)).

Lemma client_run : rtc step toy_start client_done.
Proof.
  apply (rtc_l _ _ client_waiting); [by apply (step_handshake _ _ 0)|]. apply rtc_once. apply (step_data _ _ 0 [1]); [cbn; lia|]. vm_compute. reflexivity.
Qed.

Lemma server_run : rtc step toy_start server_done.
Proof.
  apply (rtc_l _ _ server_finishing); [apply (step_data _ _ 0 [1]); [cbn; lia|vm_compute; reflexivity]|]. apply rtc_once. apply (step_sent _ _ 0 0 (Error_of_status OK)). vm_compute. reflexivity.
Qed.

Lemma handshake_reported_once_witness : completions server_done = 1%nat /\ settles (fun fuel => on_data_receive fuel server_done [cipher 7]) (step server_done).
Proof.
  destruct (handshake_reported_once plain_hooks toy_start server_done toy_fresh server_run) as (H1 & _ & _ & H4 & _). split; [etransitivity; [exact H1|vm_compute; reflexivity]|].
  apply H4. cbn. lia.
Defined.

Lemma server_receives : can_receive (base server_done) (mkToy true true [] []).
Proof.
  split; [exact (reachable_connection plain_hooks _ _ toy_fresh server_run)|]. split; [vm_compute; reflexivity|]. split; [vm_compute; reflexivity|reflexivity].
Qed.

Lemma client_sends : can_send (base client_done) (mkToy true true [] []).
Proof. split; [vm_compute; reflexivity|]. split; [vm_compute; reflexivity|reflexivity]. Qed.

Lemma tls_stream_roundtrip_witness :
  exists s bytes, send_all 0 client_done [[1; 2; 3]; [4]] = Ret s /\ wire (base s) = wire (base client_done) ++ bytes /\
    forall chunks, concat chunks = bytes -> Forall (fun c => Z.of_nat (length c) < 2 ^ 31) chunks ->
      settles (fun fuel => receive_all fuel server_done chunks)
        (fun s' => exists ds, concat ds = concat [[1; 2; 3]; [4]] /\ received (base s') = received (base server_done) ++ at_offsets (m_data_offset (base server_done)) ds).
Proof.
  assert (carries (mkToy true true [] []) (mkToy true true [] []) [] []) as Hc by (split; [reflexivity|split; reflexivity]).
  assert (Forall (fun m => m <> [] /\ Z.of_nat (length m) < 2 ^ 31) [[1; 2; 3]; [4]]) as Hm by (repeat constructor; (done || (cbn; lia))).
  exact (tls_stream_roundtrip plain_hooks 0 client_done server_done _ _ [[1; 2; 3]; [4]] client_sends server_receives Hc Hm).
Defined.

(** ** Behaviours that are surely not meant *)

(** Data that arrives while the last flight of the handshake is on its way is put into the read BIO, but nothing reads it when the flight has been sent: the
    number of bytes to read was taken before.  It is delivered when the next data arrives. *)
Example data_stalls_while_finishing :
  let s := get (on_sent 9 (get (on_data_receive 9 server_finishing [cipher 7])) 0 (Error_of_status OK)) in
  m_ssl_handshake_state s = FINISHED /\ received s = [] /\ (plain <$> m_ssl s) = Some [7] /\
  received (get (on_data_receive 9 s [cipher 8])) = [(0, [7; 8])].
Proof. vm_compute. done. Qed.

(** After a failed handshake every further chunk of data reports the failure again. *)
Definition failures (s : t (S := Toy) (C := unit)) : nat := length (List.filter (fun e => match e with HandshakeFailed _ _ => true | _ => false end) (events s)).

Example failure_reported_again :
  failures (get (on_data_receive 9 toy_start [2])) = 1%nat /\ failures (get (on_data_receive 9 (get (on_data_receive 9 toy_start [2])) [3])) = 2%nat.
Proof. vm_compute. done. Qed.

(** Sending without a callback on a connection that is not open calls the empty callback. *)
Theorem send_needs_callback {uv : UvErrno} {S C : Type} {ssl : Ssl S} {transport : Transport C} {I : Type} {derived : Derived (S := S) (C := C) I} fuel (i : I) buffer size :
  is_open (base i) = false -> send_data_impl fuel i buffer size false = Fault EmptyFunction.
Proof.
  intros Hopen. unfold send_data_impl. assert (is_open (base (on_base (fun s => s <| next_send ::= Datatypes.S |>) i)) = false) as -> by (by rewrite base_on_base). done.
Qed.

End OpenSsl.
