(* ===== verification/TlsClient.v ===== *)
(** * TlsClient

    [source/io/net/TlsClient.cpp]: a TLS client over a TCP client.

    The class derives from [OpenSslClientImplBase], which is [OpenSsl]; its members and the members of the base are one state.  User callbacks are
    the parameter [user], which gets each call and the state, and returns the state when the callback returns.  The TCP client is the type [C];
    its callbacks are the functions [on_connect], [on_tcp_data] and [on_tcp_close] below. *)

From S2P Require Import Prelude StatusCode TcpStream SslContext OpenSsl.
Local Open Scope outcome_scope.
Local Open Scope record_scope.

Module TlsClient.
Import TcpStream(DataChunk, mkChunk, buf, size, offset).
Import SslContext.

(** The TCP client beyond sending: a new one, and what [connect] and [close] make of it. *)
Class Connecting (C : Type) := {
  new_client : C;
  client_connect : C -> C;
  client_close : C -> C
}.

(** The calls of user callbacks. *)
Inductive Call :=
| ConnectCalled (error : Error)
| ReceiveCalled (chunk : DataChunk) (data : list Z) (error : Error)
| CloseCalled (error : Error)
| SendCalled (send : nat) (error : Error).

Section Client.
Context {uv : UvErrno} {S C : Type} {ssl : OpenSsl.Ssl S} {transport : OpenSsl.Transport C} {connecting : Connecting C} {opts : SslOptions}.

Record t := mk {
  impl : OpenSsl.t (S := S) (C := C);
  m_connect_callback : bool;
  m_receive_callback : bool;
  m_close_callback : bool;
  m_version_range : TlsVersion * TlsVersion;
  m_ssl_ctx : option Z;
  (** The scheduled calls of connect callbacks: whether there is one, and its error. *)
  scheduled : list (bool * Error);
  calls : list Call
}.

#[global] Instance t_settable : Settable t :=
  settable! mk < impl; m_connect_callback; m_receive_callback; m_close_callback; m_version_range; m_ssl_ctx; scheduled; calls >.

Definition create (version_range : TlsVersion * TlsVersion) : t := mk (OpenSsl.create None) false false false version_range None [] [].

(** ** User callbacks *)

Variable user : Call -> t -> outcome t.

Definition call (i : t) (c : Call) : outcome t := user c (i <| calls ::= fun l => l ++ [c] |>).
Definition call_connect (i : t) (error : Error) : outcome t := if m_connect_callback i then call i (ConnectCalled error) else Ret i.
Definition call_receive (i : t) (chunk : DataChunk) (data : list Z) (error : Error) : outcome t :=
  if m_receive_callback i then call i (ReceiveCalled chunk data error) else Ret i.

(** [m_close_callback(...); m_close_callback = nullptr;]. *)
Definition call_close (i : t) (error : Error) : outcome t :=
  if m_close_callback i then let* i := call i (CloseCalled error) in Ret (i <| m_close_callback := false |>) else Ret i.

(** ** The virtual functions *)

#[global] Instance derived : OpenSsl.Derived (S := S) (C := C) t := {
  base := impl;
  set_base i s := i <| impl := s |>;
  base_set_base _ _ := eq_refl;
  ssl_set_state := OpenSsl.SSL_set_connect_state;
  on_ssl_read i chunk data error := call_receive i chunk data error;
  on_handshake_complete i := call_connect i (Error_of_uv 0);
  on_handshake_failed i _ error := call_connect i error;
  on_alert i _ := Ret i;
  on_end_send i send error := call i (SendCalled send error);
  on_shutdown_sent i _ := call_close i (Error_of_uv 0)
}.

(** ** Operations *)

Definition set_client (i : t) (c : C) : t := OpenSsl.on_base (fun s => s <| OpenSsl.m_client := Some c |>) i.

Definition schedule (i : t) (callback : bool) (error : Error) : t := i <| scheduled ::= fun l => l ++ [(callback, error)] |>.

(** The rest of [connect], when the SSL object is there. *)
Definition connect_tcp (i : t) (connect_callback receive_callback close_callback : bool) : t :=
  set_client (i <| m_connect_callback := connect_callback |> <| m_receive_callback := receive_callback |> <| m_close_callback := close_callback |>) (client_connect new_client).

Definition connect (i : t) (a : Answers) (ciphers : string) (n : OpenSsl.NewSsl S) (connect_callback receive_callback close_callback : bool) : t :=
  let i := set_client i new_client in
  if negb (OpenSsl.is_ssl_inited (impl i)) then
    let '(ctx, context_error) := init_ssl_context a ciphers in
    let i := i <| m_ssl_ctx := ctx |> in
    if error_bool context_error then schedule i connect_callback context_error
    else
      let '(ctx, version_error) := set_tls_version (default 0 ctx) (fst (m_version_range i)) (snd (m_version_range i)) in
      let i := i <| m_ssl_ctx := Some ctx |> in
      if error_bool version_error then schedule i connect_callback version_error
      else
        let '(i, ssl_init_error) := OpenSsl.ssl_init i n in
        if error_bool ssl_init_error then schedule i connect_callback ssl_init_error
        else connect_tcp i connect_callback receive_callback close_callback
  else connect_tcp i connect_callback receive_callback close_callback.

(** A scheduled callback of [connect] runs. *)
Definition run_scheduled (i : t) : outcome t :=
  match scheduled i with
  | [] => Ret i
  | (callback, error) :: l =>
      let i := i <| scheduled := l |> in
      if callback then call i (ConnectCalled error) else Fault EmptyFunction
  end.

Definition on_connect (fuel : nat) (i : t) (error : Error) : outcome t :=
  if error_bool error then
    if m_connect_callback i then call i (ConnectCalled error) else Fault EmptyFunction
  else OpenSsl.do_handshake fuel i.

Definition on_tcp_data (fuel : nat) (i : t) (data : list Z) (error : Error) : outcome t :=
  if error_bool error then call_receive i (mkChunk None 0 0) [] error
  else OpenSsl.on_data_receive fuel i data.

Definition on_tcp_close (i : t) (error : Error) : outcome t :=
  if negb (bool_decide (OpenSsl.m_ssl_handshake_state (impl i) = OpenSsl.FINISHED)) then Ret i
  else call_close i error.

Definition close (fuel : nat) (i : t) : outcome t :=
  let* (i, error) := OpenSsl.ssl_shutdown fuel i in
  if error_bool error then
    if m_close_callback i then call i (CloseCalled error) else Ret i
  else Ret i.

End Client.

(** ** The close callback is called once *)

Section Facts.
Context {uv : UvErrno} {S C : Type} {ssl : OpenSsl.Ssl S} {transport : OpenSsl.Transport C} {connecting : Connecting C} {opts : SslOptions}.
Abbreviation t := (t (S := S) (C := C)).
Variable user : Call -> t -> outcome t.

Definition is_close (c : Call) : bool := match c with CloseCalled _ => true | _ => false end.
Definition closings (i : t) : nat := length (List.filter is_close (calls i)).

(** The calls of the close callback, made and still to be made. *)
Definition due (i : t) : nat := (closings i + if m_close_callback i then 1 else 0)%nat.
Definition one_close (i : t) : Prop := due i = 1%nat.

(** User code does not connect again.  In its close callback it does not close the client; in the others it may, if [SSL_shutdown] succeeds. *)
Definition user_keeps : Prop := forall c i i', user c i = Ret i' -> due i' = due i /\ (is_close c = true -> m_close_callback i' = m_close_callback i).

Hypothesis keeps : user_keeps.

Lemma closings_call i c : closings (i <| calls ::= fun l => l ++ [c] |>) = (closings i + if is_close c then 1 else 0)%nat.
Proof. unfold closings. cbn. rewrite List.filter_app, length_app. cbn. by destruct (is_close c). Qed.

Lemma due_call i c : due (i <| calls ::= fun l => l ++ [c] |>) = (due i + if is_close c then 1 else 0)%nat.
Proof. unfold due. rewrite closings_call. cbn. lia. Qed.

Lemma call_due i c i' : is_close c = false -> call user i c = Ret i' -> due i' = due i.
Proof. intros Hc H. unfold call in H. apply keeps in H as [H _]. rewrite H, due_call, Hc. lia. Qed.

(** The close callback, called and left in place. *)
Lemma call_again_due i e i' : call user i (CloseCalled e) = Ret i' -> due i' = Datatypes.S (due i) /\ m_close_callback i' = m_close_callback i.
Proof. intros H. unfold call in H. apply keeps in H as [H1 H2]. rewrite H1, due_call. split; [cbn; lia|]. exact (H2 eq_refl). Qed.

Lemma call_close_due i e i' : call_close user i e = Ret i' -> due i' = due i /\ m_close_callback i' = false.
Proof.
  unfold call_close. intros H. destruct (m_close_callback i) eqn:E; [|by injection H as <-]. apply obind_ret_inv in H as (i1 & H1 & [= <-]). split; [|done].
  apply call_again_due in H1 as [H1 H2]. unfold due in *. rewrite H2, E in H1. change ((closings i1 + 0)%nat = (closings i + (if m_close_callback i then 1 else 0))%nat). rewrite E. lia.
Qed.

Lemma hooks_keep_due m : OpenSsl.hooks_keep (derived := derived user) (fun i => due i = m) true.
Proof.
  split; unfold OpenSsl.finish_handshake; cbn.
  - intros f i _ _ Hi. exact Hi.
  - intros i c d e i' <-. unfold call_receive. destruct (m_receive_callback i); [by apply call_due|by intros [= <-]].
  - intros i i' <-. unfold call_connect. cbn. destruct (m_connect_callback i); [intros H; apply call_due in H; [exact H|done]|by intros [= <-]].
  - intros i z e i' _ <-. unfold call_connect. destruct (m_connect_callback i); [by apply call_due|by intros [= <-]].
  - by intros i z i' Hi [= <-].
  - intros i n e i' <-. by apply call_due.
  - intros i e i' _ <- H. by apply (call_close_due i (Error_of_uv 0)).
Qed.

Lemma shutdown_due fuel i i1 e : OpenSsl.ssl_shutdown (derived := derived user) fuel i = Ret (i1, e) -> due i1 = due i.
Proof. exact (OpenSsl.kept_shutdown _ _ (hooks_keep_due (due i)) fuel i i1 e eq_refl eq_refl). Qed.

(** What happens to a client that has connected: the callbacks of its TCP client, and calls of [send_data] and [close] by user code.  The number counts the calls of [close] in
    which [SSL_shutdown] fails. *)
Inductive step (i : t) : nat -> t -> Prop :=
| step_connect fuel e i' : on_connect user fuel i e = Ret i' -> step i 0 i'
| step_data fuel data e i' : on_tcp_data user fuel i data e = Ret i' -> step i 0 i'
| step_sent fuel k e i' : OpenSsl.on_sent (derived := derived user) fuel i k e = Ret i' -> step i 0 i'
| step_closed e i' : on_tcp_close user i e = Ret i' -> step i 0 i'
| step_send fuel buffer size cb i' : OpenSsl.send_data_impl (derived := derived user) fuel i buffer size cb = Ret i' -> step i 0 i'
| step_close fuel i1 e i' : OpenSsl.ssl_shutdown (derived := derived user) fuel i = Ret (i1, e) -> close user fuel i = Ret i' ->
    step i (if error_bool e then 1 else 0) i'.

Inductive run (i0 : t) : nat -> t -> Prop :=
| run_start : run i0 0 i0
| run_step m k i i' : run i0 m i -> step i k i' -> run i0 (m + k) i'.

Lemma step_due i k i' : step i k i' -> (due i <= due i' <= due i + k)%nat.
Proof.
  pose proof (hooks_keep_due (due i)) as Keep. intros [fuel e i1 H|fuel data e i1 H|fuel n e i1 H|e i1 H|fuel buffer size cb i1 H|fuel i1 e i2 Hs H].
  6: { unfold close in H. rewrite Hs in H. cbn [obind] in H. apply shutdown_due in Hs. destruct (error_bool e); [|injection H as <-; lia].
       destruct (m_close_callback i1); [|injection H as <-; lia]. apply call_again_due in H as [H _]. lia. }
  all: assert (due i1 = due i); [|lia].
  - unfold on_connect in H. destruct (error_bool e).
    + destruct (m_connect_callback i); [|done]. by eapply call_due in H.
    + exact (OpenSsl.kept_do_handshake _ _ Keep fuel i eq_refl i1 H).
  - unfold on_tcp_data in H. destruct (error_bool e).
    + unfold call_receive in H. destruct (m_receive_callback i); [by eapply call_due in H|by injection H as <-].
    + exact (OpenSsl.kept_on_data_receive _ _ Keep fuel i data eq_refl i1 H).
  - exact (OpenSsl.kept_on_sent _ _ Keep fuel i n e eq_refl (fun _ => eq_refl) i1 H).
  - unfold on_tcp_close in H. destruct (negb _); [by injection H as <-|]. by apply (call_close_due i e).
  - exact (OpenSsl.kept_send_data _ _ Keep fuel i buffer size cb eq_refl i1 H).
Qed.

Lemma run_due i0 k i : run i0 k i -> (due i0 <= due i <= due i0 + k)%nat.
Proof. induction 1 as [|m k i i' H12 IH H]; [lia|]. apply step_due in H. lia. Qed.


(** ** The base class in the client *)

(** User code as the base class expects it. *)
Definition well_behaved {laws : OpenSsl.SslLaws ssl} : Prop :=
  (forall c i, returns (user c i) (fun i' => OpenSsl.user_step (match c with ReceiveCalled chunk data _ => Some (chunk, data) | _ => None end) (impl i) (impl i'))).

Lemma client_hooks {laws : OpenSsl.SslLaws ssl} : well_behaved -> OpenSsl.hooks_ok (derived := derived user).
Proof.
  intros Hu. split; cbn.
  - intros i c d e. unfold call_receive. destruct (m_receive_callback i); [|by apply returns_ret]. exact (Hu (ReceiveCalled c d e) _).
  - intros i. unfold call_connect. destruct (m_connect_callback i); [|by apply returns_ret]. exact (Hu (ConnectCalled _) _).
  - intros i z e. unfold call_connect. destruct (m_connect_callback i); [|by apply returns_ret]. exact (Hu (ConnectCalled _) _).
  - intros i z. by apply returns_ret.
  - intros i n e. exact (Hu (SendCalled n e) _).
  - intros i e. unfold call_close. destruct (m_close_callback i); [|by apply returns_ret]. eapply returns_bind; [exact (Hu (CloseCalled _) _)|]. intros i' H. by apply returns_ret.
Qed.

(** The answers with which OpenSSL makes a context and an object. *)
Definition ssl_ready (a : Answers) (ciphers : string) (n : OpenSsl.NewSsl S) : Prop :=
  is_Some (SSL_CTX_new a) /\ SSL_CTX_set_cipher_list a ciphers <> 0 /\ is_Some (OpenSsl.SSL_new n) /\ OpenSsl.BIO_new_read n = true /\ OpenSsl.BIO_new_write n = true.

(** A new client that is told to connect, with a legal range of versions, is ready for its handshake and for its one call of the close callback. *)
Lemma connect_ready range a ciphers n rc : (value (fst range) <= value (snd range))%nat -> ssl_ready a ciphers n ->
  OpenSsl.fresh (impl (connect user (create range) a ciphers n true rc true)) /\ one_close (connect user (create range) a ciphers n true rc true).
Proof.
  intros Hv ([ctx Hctx] & Hci & [o Ho] & Hr & Hw). destruct range as [vmin vmax]. cbn [fst snd] in Hv. unfold connect, init_ssl_context. rewrite Hctx.
  rewrite (proj2 (Z.eqb_neq _ _)) by done. cbn [OpenSsl.is_ssl_inited negb error_bool Error_of_status m_status_code].
  assert (forall c, exists c', set_tls_version c vmin vmax = (c', Error_of_status OK)) as Hset.
  { intros c. unfold set_tls_version, set_tls_dtls_version. rewrite (proj2 (Nat.ltb_ge _ _)) by done. by eexists. }
  destruct (Hset ctx) as (c' & Ec). cbn. rewrite Ec. unfold OpenSsl.ssl_init. rewrite Ho, Hr, Hw. cbn. split; [|done].
  split_and!; [by eexists|by eexists|done|done|done|exact OpenSsl.created_buffers].
Qed.

(** Closing a client that was never connected uses an SSL object that is not there. *)
Theorem close_before_connect_faults fuel i : OpenSsl.m_ssl (impl i) = None -> close user fuel i = Fault NullDeref.
Proof. intros E. unfold close, OpenSsl.ssl_shutdown, OpenSsl.get_ssl. cbn [OpenSsl.base derived]. by rewrite E. Qed.

(** When [SSL_shutdown] fails, [close] calls the close callback and leaves it in place: the end of the TCP connection calls it again. *)
Theorem failed_close_calls_twice fuel i i1 i2 i3 e e' : one_close i ->
  OpenSsl.ssl_shutdown (derived := derived user) fuel i = Ret (i1, e) -> error_bool e = true -> m_close_callback i1 = true ->
  close user fuel i = Ret i2 -> OpenSsl.m_ssl_handshake_state (impl i2) = OpenSsl.FINISHED -> on_tcp_close user i2 e' = Ret i3 -> closings i3 = 2%nat.
Proof.
  intros Hi Hs He Hcb Hc Hst Ht. apply shutdown_due in Hs as Hd. unfold close in Hc. rewrite Hs in Hc. cbn [obind] in Hc. rewrite He, Hcb in Hc.
  apply call_again_due in Hc as [Hd2 _]. unfold on_tcp_close in Ht. rewrite bool_decide_true in Ht by done. apply call_close_due in Ht as [Hd3 Hf].
  unfold one_close in Hi. unfold due in Hd3 at 1. rewrite Hf in Hd3. lia.
Qed.

End Facts.

(** ** Examples *)

Section Examples.
#[local] Existing Instance UvFallback.
#[local] Existing Instance OpenSsl111.
#[local] Instance unit_connecting : Connecting unit := { new_client := tt; client_connect c := c; client_close c := c }.

Abbreviation client := (t (S := OpenSsl.Toy) (C := unit)).

Definition silent (c : Call) (i : client) : outcome client := Ret i.
Definition answers : Answers := mkAnswers (Some 0) (fun _ => 1) 1 1 1.
Definition new_ssl : OpenSsl.NewSsl OpenSsl.Toy := OpenSsl.mkNew _ (Some (OpenSsl.mkToy false false [] [])) true true (fun o => o).

Definition connected : client := connect silent (create (TlsV1_0, TlsV1_3)) answers "ALL" new_ssl true true true.
Definition get (m : outcome client) : client := match m with Ret i => i | Fault _ => connected end.
Definition waiting : client := get (on_connect silent 0 connected (Error_of_status OK)).
Definition established : client := get (on_tcp_data silent 0 waiting [1] (Error_of_status OK)).

(** User code that closes the client when it is given data, with a socket that takes what it is given. *)
Definition closing (c : Call) (i : client) : outcome client := match c with ReceiveCalled _ _ _ => close silent 0 i | _ => Ret i end.

Lemma silent_user_keeps : user_keeps silent.
Proof. intros c i i' [= <-]. done. Qed.

Lemma closing_keeps : user_keeps closing.
Proof.
  intros c i i' H. destruct c as [e|chunk data e|e|n e]; cbn in H; [by injection H as <-| |by injection H as <-..]. split; [|done].
  unfold close in H. apply obind_ret_inv in H as ([i1 e1] & H1 & H). pose proof (shutdown_due silent silent_user_keeps 0 i i1 e1 H1) as Hd.
  assert (error_bool e1 = false) as He.
  { clear -H1. unfold OpenSsl.ssl_shutdown in H1. apply obind_ret_inv in H1 as (o & _ & H1). cbn in H1.
    destruct (negb _); [|by injection H1 as _ <-]. by apply obind_ret_inv in H1 as (i2 & _ & [= _ <-]). }
  rewrite He in H. injection H as <-. exact Hd.
Qed.

(** The handshake, a message that makes the user close, and the end of the send of the closing message. *)
Definition told : client := get (on_tcp_data closing 1 established [1; 7] (Error_of_status OK)).

Lemma told_run : run closing connected 0 told.
Proof.
  apply (run_step closing connected 0 0 established); [|apply (step_data closing _ 1 [1; 7] (Error_of_status OK)); vm_compute; reflexivity].
  apply (run_step closing connected 0 0 waiting); [|apply (step_data closing _ 0 [1] (Error_of_status OK)); vm_compute; reflexivity].
  apply (run_step closing connected 0 0 connected); [apply run_start|]. apply (step_connect closing _ 0 (Error_of_status OK)). vm_compute. reflexivity.
Qed.

Lemma connected_one_close : one_close connected.
Proof. vm_compute. reflexivity. Qed.


(** A client that connects again keeps its SSL object and the state of its handshake: the connection is reported as established although nothing has been
    exchanged over it. *)
Example reconnect_without_handshake :
  let i := connect silent established answers "ALL" new_ssl true true true in
  OpenSsl.is_open (impl i) = true /\
  calls (get (on_connect silent 0 i (Error_of_status OK))) = calls i ++ [ConnectCalled (Error_of_uv 0)] /\
  OpenSsl.wire (impl (get (on_connect silent 0 i (Error_of_status OK)))) = OpenSsl.wire (impl established).
Proof. vm_compute. done. Qed.

End Examples.

(** The close callback is reset after it has been called: a client that closes itself in it, when its TCP connection has ended, is called again. *)
Section Reentrant.
#[local] Existing Instance UvFallback.
#[local] Existing Instance OpenSsl111.
#[local] Instance closed_transport : OpenSsl.Transport bool := {
  client_is_open c := c; client_send c _ := if c then (c, None) else (c, Some (Error_of_status NOT_CONNECTED)); client_schedule_removal c := c }.
#[local] Instance bool_connecting : Connecting bool := { new_client := true; client_connect c := c; client_close c := false }.

Abbreviation reclient := (t (S := OpenSsl.Toy) (C := bool)).

Definition quiet (c : Call) (i : reclient) : outcome reclient := Ret i.
(** The user's close callback closes the client. *)
Definition closer (c : Call) (i : reclient) : outcome reclient := match c with CloseCalled _ => close quiet 0 i | _ => Ret i end.

Definition reconnected : reclient := connect closer (create (TlsV1_0, TlsV1_3)) answers "ALL" new_ssl true true true.
Definition reget (m : outcome reclient) : reclient := match m with Ret i => i | Fault _ => reconnected end.
Definition reestablished : reclient := reget (on_tcp_data closer 0 (reget (on_connect closer 0 reconnected (Error_of_status OK))) [1] (Error_of_status OK)).

Example close_in_close_callback :
  let i := set_client closer reestablished false in
  closings i = 0%nat /\ closings (reget (on_tcp_close closer i (Error_of_status OK))) = 2%nat.
Proof. vm_compute. done. Qed.

End Reentrant.

End TlsClient.
