(* ===== verification/TlsServer.v ===== *)
(** * TlsServer and TlsConnectedClient

    [source/io/net/TlsServer.cpp] and [source/io/net/TlsConnectedClient.cpp]: a TLS server over a TCP server.

    The objects are numbered: a connection is a [TcpConnectedClient] of the TCP server, with its user data, and a client is a [TlsConnectedClient].  A client derives
    from [OpenSslClientImplBase], which is [OpenSsl]; the state that the functions of the base work on is the whole server, seen from one client ([focus]),
    so that user callbacks can do something with any client.  The callbacks of the TCP server are the functions [on_new_connection],
    [on_data_receive] and [on_connection_close]. *)

From S2P Require Import Prelude StatusCode TcpStream SslContext OpenSsl TlsClient.
Local Open Scope outcome_scope.
Local Open Scope record_scope.

Module TlsServer.
Import TcpStream(DataChunk, mkChunk, buf, size, offset).
Import SslContext.

(** The calls of user callbacks; clients by their numbers. *)
Inductive Call :=
| NewConnection (client : nat) (error : Error)
| DataReceived (client : nat) (chunk : DataChunk) (data : list Z) (error : Error)
| ConnectionClosed (client : nat) (error : Error)
| SendCalled (client send : nat) (error : Error)
| ServerClosed (error : Error).

(** Calls of the TCP server, with what their callbacks do: nothing, call the user's callback, or go on with the removal. *)
Inductive TcpCallback := TcpNothing | TcpTellUser | TcpRemove.
Inductive TcpCall := TcpShutdown (callback : TcpCallback) | TcpClose (callback : TcpCallback) | TcpScheduleRemoval.

(** Macros of OpenSSL: the reason in an error code, and one of the reasons. *)
Class SslReasons := {
  ERR_GET_REASON : Z -> Z;
  SSL_R_UNKNOWN_PROTOCOL : Z
}.

Section Server.
Context {uv : UvErrno} {S C : Type} {ssl : OpenSsl.Ssl S} {transport : OpenSsl.Transport C} {connecting : TlsClient.Connecting C} {opts : SslOptions} {reasons : SslReasons}.

(** [TlsConnectedClient::Impl]; the number of its connection stands for [m_client]. *)
Record Client := mkClient {
  impl : OpenSsl.t (S := S) (C := C);
  connection : nat;
  client_data_receive_callback : bool;
  client_new_connection_callback : bool
}.

#[global] Instance client_settable : Settable Client := settable! mkClient < impl; connection; client_data_receive_callback; client_new_connection_callback >.

Record t := mk {
  m_new_connection_callback : bool;
  m_data_receive_callback : bool;
  m_close_connection_callback : bool;
  m_version_range : TlsVersion * TlsVersion;
  m_ssl_ctx : option Z;
  removal_scheduled : bool;
  tcp_is_open : bool;
  tcp_calls : list TcpCall;
  (** How often [Removable::schedule_removal] was called. *)
  removals : nat;
  clients : gmap nat Client;
  next_client : nat;
  (** The connections of the TCP server with their user data. *)
  connections : gmap nat (option nat);
  (** Those that have been closed and whose close callback is still to come. *)
  closing : gset nat;
  calls : list Call
}.

#[global] Instance t_settable : Settable t :=
  settable! mk < m_new_connection_callback; m_data_receive_callback; m_close_connection_callback; m_version_range; m_ssl_ctx; removal_scheduled; tcp_is_open; tcp_calls;
                 removals; clients; next_client; connections; closing; calls >.

Definition create (version_range : TlsVersion * TlsVersion) : t := mk false false false version_range None false false [] 0 ∅ 0 ∅ ∅ [].

Definition version_range (s : t) : TlsVersion * TlsVersion := m_version_range s.
Definition connected_clients_count (s : t) : nat := base.size (connections s).

(** ** User callbacks *)

Variable user : Call -> t -> outcome t.

Definition call (s : t) (c : Call) : outcome t := user c (s <| calls ::= fun l => l ++ [c] |>).

(** ** TlsConnectedClient *)

Definition fresh_client : Client := mkClient (OpenSsl.create None) 0 false false.
Definition get_client (n : nat) (s : t) : Client := default fresh_client (clients s !! n).
Definition on_client (n : nat) (f : Client -> Client) (s : t) : t := s <| clients ::= <[n := f (get_client n s)]> |>.

(** [m_client->close()]. *)
Definition close_connection (n : nat) (s : t) : t :=
  let s := on_client n (fun c => c <| impl ::= fun b => b <| OpenSsl.m_client ::= fmap TlsClient.client_close |> |>) s in
  s <| closing ::= fun l => {[connection (get_client n s)]} ∪ l |>.

(** The alert of [on_handshake_failed]. *)
Definition version_alert (version_max : TlsVersion) : list Z :=
  let version := if bool_decide (version_max = TlsUnknown) then 1 else Z.of_nat (value version_max) in [0x15; 0x03; version; 0x00; 0x02; 0x02; 0x46].

(** [m_client->send_data(buf_ptr, BUF_SIZE)] without a callback. *)
Definition send_alert (n : nat) (bytes : list Z) (s : t) : t :=
  match OpenSsl.m_client (impl (get_client n s)) with
  | None => s
  | Some c =>
      match OpenSsl.client_send c bytes with
      | (c, None) => on_client n (fun cl => cl <| impl ::= fun b =>
          OpenSsl.emit (b <| OpenSsl.m_client := Some c |> <| OpenSsl.sends ::= fun l => l ++ [OpenSsl.NoCallback] |>) (OpenSsl.ToTransport bytes) |>) s
      | (c, Some _) => on_client n (fun cl => cl <| impl ::= fun b => b <| OpenSsl.m_client := Some c |> |>) s
      end
  end.

Definition handshake_failed (n : nat) (s : t) (openssl_error_code : Z) (error : Error) : outcome t :=
  let s := if ERR_GET_REASON openssl_error_code =? SSL_R_UNKNOWN_PROTOCOL then send_alert n (version_alert (snd (version_range s))) s else s in
  let* s := if client_new_connection_callback (get_client n s) then call s (NewConnection n error) else Ret s in
  Ret (close_connection n s).

(** The server seen from one client. *)
#[local] Program Instance focus (n : nat) : OpenSsl.Derived (S := S) (C := C) t := {
  base s := impl (get_client n s);
  set_base s b := on_client n (fun c => c <| impl := b |>) s;
  ssl_set_state := OpenSsl.SSL_set_accept_state;
  on_ssl_read s chunk data error := if client_data_receive_callback (get_client n s) then call s (DataReceived n chunk data error) else Ret s;
  on_handshake_complete s := if client_new_connection_callback (get_client n s) then call s (NewConnection n (Error_of_uv 0)) else Ret s;
  on_handshake_failed s code error := handshake_failed n s code error;
  on_alert s _ := Ret s;
  on_end_send s send error := call s (SendCalled n send error);
  on_shutdown_sent s _ := Ret s
}.
Next Obligation. intros n s b. unfold get_client, on_client. cbn. by rewrite lookup_insert_eq. Qed.

(** [TlsConnectedClient::Impl::on_data_receive]. *)
Definition client_on_data_receive (fuel : nat) (n : nat) (s : t) (data : list Z) (error : Error) : outcome t :=
  if error_bool error then
    if client_data_receive_callback (get_client n s) then call s (DataReceived n (mkChunk None 0 0) [] error) else Ret s
  else OpenSsl.on_data_receive (derived := focus n) fuel s data.

(** [close] and [shutdown] of a client: the connection is closed or shut down, without a message to the peer. *)
Definition client_close (n : nat) (s : t) : t := close_connection n s.

(** ** TlsServer: the callbacks of the TCP server *)

Definition delete_client (n : nat) (s : t) : t := s <| clients ::= delete n |>.
Definition set_user_data (c : nat) (u : option nat) (s : t) : t := s <| connections ::= <[c := u]> |>.

(** [new TlsConnectedClient(...)], whose constructor sets the user data of the connection. *)
Definition new_client (c : nat) (tcp : C) (s : t) : nat * t :=
  let n := next_client s in
  let s := s <| next_client ::= Datatypes.S |> <| clients ::= <[n := mkClient (OpenSsl.create (Some tcp)) c false (m_new_connection_callback s)]> |> in
  (n, set_user_data c (Some n) s).

(** After an error the TCP server drops the connection. *)
Definition on_new_connection (s : t) (c : nat) (tcp : C) (tcp_error : Error) (a : OpenSsl.NewSsl S) : outcome t :=
  let '(n, s) := new_client c tcp s in
  if error_bool tcp_error then
    let* s := if m_new_connection_callback s then call s (NewConnection n tcp_error) else Ret s in
    Ret ((delete_client n s) <| connections ::= delete c |>)
  else
    let '(s, tls_init_error) := OpenSsl.ssl_init (derived := focus n) s a in
    if error_bool tls_init_error then
      let* s := if m_new_connection_callback s then call s (NewConnection n tls_init_error) else Ret s in
      let s := set_user_data c None s in
      let s := close_connection n s in
      Ret (delete_client n s)
    else Ret (on_client n (fun cl => cl <| client_data_receive_callback := m_data_receive_callback s |>) s).

(** The client that the user data of a connection points to. *)
Definition client_of (s : t) (c : nat) : outcome nat :=
  match connections s !! c with
  | None => Fault UseAfterFree
  | Some None => Fault NullDeref
  | Some (Some n) => match clients s !! n with Some _ => Ret n | None => Fault UseAfterFree end
  end.

Definition on_data_receive (fuel : nat) (s : t) (c : nat) (data : list Z) (tcp_error : Error) : outcome t :=
  let* n := client_of s c in client_on_data_receive fuel n s data tcp_error.

(** The connection is not known any longer afterwards, and its user data points to a deleted client. *)
Definition on_connection_close (s : t) (c : nat) (tcp_error : Error) : outcome t :=
  let* s := match connections s !! c with
    | Some None => Ret s
    | _ =>
        let* n := client_of s c in
        let* s := if m_close_connection_callback s then call s (ConnectionClosed n tcp_error) else Ret s in
        Ret (delete_client n s)
    end in
  Ret (s <| connections ::= delete c |> <| closing ::= fun l => l ∖ {[c]} |>).

(** ** Listening and closing *)

(** The files: no file, a file that can not be parsed, or its contents; and what OpenSSL and the TCP server answer. *)
Record Material := mkMaterial {
  certificate_file : option bool;
  private_key_file : option bool;
  X509_verify : Z;
  context : Answers;
  (** The result of [TcpServer::listen], and [is_open] afterwards: a server whose [uv_listen] fails counts as open. *)
  tcp_listen : Error;
  tcp_opened : bool
}.

Definition certificate_and_key_match (m : Material) : bool := negb (X509_verify m =? 0).

Definition listen (s : t) (m : Material) (ciphers : string) (new_connection_callback data_receive_callback close_connection_callback : bool) : t * Error :=
  let s := s <| m_new_connection_callback := new_connection_callback |> <| m_data_receive_callback := data_receive_callback |>
             <| m_close_connection_callback := close_connection_callback |> in
  match certificate_file m with
  | None => (s, Error_of_status TLS_CERTIFICATE_FILE_NOT_EXIST)
  | Some false => (s, Error_of_status TLS_CERTIFICATE_INVALID)
  | Some true =>
      match private_key_file m with
      | None => (s, Error_of_status TLS_PRIVATE_KEY_FILE_NOT_EXIST)
      | Some false => (s, Error_of_status TLS_PRIVATE_KEY_INVALID)
      | Some true =>
          if negb (certificate_and_key_match m) then (s, Error_of_status TLS_PRIVATE_KEY_AND_CERTIFICATE_NOT_MATCH)
          else
            let '(ctx, context_init_error) := init_ssl_context (context m) ciphers in
            let s := s <| m_ssl_ctx := ctx |> in
            if error_bool context_init_error then (s, context_init_error)
            else
              let '(ctx, version_error) := set_tls_version (default 0 ctx) (fst (m_version_range s)) (snd (m_version_range s)) in
              let s := s <| m_ssl_ctx := Some ctx |> in
              if error_bool version_error then (s, version_error)
              else
                let certificate_error := ssl_init_certificate_and_key (context m) in
                if error_bool certificate_error then (s, certificate_error)
                else (s <| tcp_is_open := tcp_opened m |>, tcp_listen m)
      end
  end.

(** A call of the TCP server; [shutdown] and [close] make it not open at once. *)
Definition tcp (s : t) (c : TcpCall) : t :=
  let s := s <| tcp_calls ::= fun l => l ++ [c] |> in
  match c with TcpShutdown _ | TcpClose _ => s <| tcp_is_open := false |> | TcpScheduleRemoval => s end.

Definition shutdown (s : t) (callback : bool) : t := tcp s (TcpShutdown (if callback then TcpTellUser else TcpNothing)).
(** With a callback [close] shuts the TCP server down. *)
Definition close (s : t) (callback : bool) : t := tcp s (if callback then TcpShutdown TcpTellUser else TcpClose TcpNothing).

(** [TlsServer::schedule_removal] with [Impl::schedule_removal]. *)
Definition schedule_removal (s : t) : t :=
  if removal_scheduled s then s <| removals ::= Datatypes.S |>
  else if tcp_is_open s then (tcp s (TcpClose TcpRemove)) <| removal_scheduled := true |>
  else (tcp s TcpScheduleRemoval) <| removals ::= Datatypes.S |> <| removal_scheduled := true |>.

(** The callbacks given to the TCP server. *)
Definition on_tcp_callback (s : t) (callback : TcpCallback) (error : Error) : outcome t :=
  match callback with
  | TcpNothing => Ret s
  | TcpTellUser => call s (ServerClosed error)
  | TcpRemove => Ret (tcp (schedule_removal s) TcpScheduleRemoval)
  end.

End Server.

(** ** Clients and connections *)

Section Facts.
Context {uv : UvErrno} {S C : Type} {ssl : OpenSsl.Ssl S} {transport : OpenSsl.Transport C} {connecting : TlsClient.Connecting C} {opts : SslOptions} {reasons : SslReasons}.
Abbreviation t := (t (S := S) (C := C)).
Variable user : Call -> t -> outcome t.
Implicit Types (s : t) (n c : nat).

Definition is_closed (n : nat) (e : Call) : bool := match e with ConnectionClosed m _ => bool_decide (m = n) | _ => false end.
Definition closed (n : nat) s : nat := length (List.filter (is_closed n) (calls s)).

(** What user code and the functions of the clients leave alone: which objects there are. *)
Record frame s s' : Prop := {
  fr_connections : connections s' = connections s;
  fr_clients n : is_Some (clients s' !! n) <-> is_Some (clients s !! n);
  fr_connection n cl : clients s !! n = Some cl -> exists cl', clients s' !! n = Some cl' /\ connection cl' = connection cl;
  fr_next : next_client s' = next_client s;
  fr_closing : closing s ⊆ closing s';
  fr_closed n : closed n s' = closed n s
}.

#[global] Instance frame_refl : Reflexive frame.
Proof. intros s. split; [done|done| |done|done|done]. intros n cl Hn. by exists cl. Qed.

#[global] Instance frame_trans : Transitive frame.
Proof.
  intros s1 s2 s3 [A1 A2 A3 A4 A5 A6] [B1 B2 B3 B4 B5 B6]. split; [congruence| | |congruence|by etransitivity|].
  - intros n. by rewrite B2.
  - intros n cl Hn. destruct (A3 n cl Hn) as (cl1 & H1 & E1). destruct (B3 n cl1 H1) as (cl2 & H2 & E2). exists cl2. split; [done|congruence].
  - intros n. by rewrite B6.
Qed.

Hypothesis user_frame : forall e s s', user e s = Ret s' -> frame s s'.

Lemma closed_call n s e : closed n (s <| calls ::= fun l => l ++ [e] |>) = (closed n s + if is_closed n e then 1 else 0)%nat.
Proof. unfold closed. cbn. rewrite List.filter_app, length_app. cbn. by destruct (is_closed n e). Qed.

Lemma frame_log s e : (forall n, is_closed n e = false) -> frame s (s <| calls ::= fun l => l ++ [e] |>).
Proof. intros He. split; [done|done| |done|done|]; [intros n cl Hn; by exists cl|]. intros n. rewrite closed_call, He. lia. Qed.

Lemma frame_call s e s' : (forall n, is_closed n e = false) -> call user s e = Ret s' -> frame s s'.
Proof. intros He H. etransitivity; [by apply frame_log|]. by apply (user_frame e). Qed.

Lemma frame_on_client n f s : (forall cl, connection (f cl) = connection cl) -> is_Some (clients s !! n) -> frame s (on_client n f s).
Proof.
  intros Hf [cl Hn]. unfold on_client, get_client. rewrite Hn. cbn. split; [done| | |done|done|done].
  - intros m. cbn. destruct (decide (m = n)) as [->|Hne]; [rewrite lookup_insert_eq, Hn; by split; eexists|by rewrite lookup_insert_ne].
  - intros m cl' Hm. cbn. destruct (decide (m = n)) as [->|Hne]; [rewrite lookup_insert_eq|rewrite lookup_insert_ne by done; by exists cl'].
    eexists. split; [done|]. rewrite Hf. congruence.
Qed.

Lemma frame_close n s : is_Some (clients s !! n) -> frame s (close_connection n s).
Proof.
  intros Hn. etransitivity; [apply (frame_on_client n (fun cl : Client => cl <| impl ::= fun b => b <| OpenSsl.m_client ::= fmap TlsClient.client_close |> |>)); [done|exact Hn]|].
  split; [done|done| |done|unfold close_connection; cbn; set_solver|done]. intros m cl Hm. by exists cl.
Qed.

Lemma frame_alive s s' n : frame s s' -> is_Some (clients s !! n) -> is_Some (clients s' !! n).
Proof. intros F. apply (fr_clients _ _ F). Qed.

Lemma frame_send_alert n bytes s : is_Some (clients s !! n) -> frame s (send_alert n bytes s).
Proof.
  intros Hn. unfold send_alert. destruct (OpenSsl.m_client _); [|done]. destruct (OpenSsl.client_send _ _) as [? [|]]; by apply frame_on_client.
Qed.

(** The state after the functions of a client, compared with a state before. *)
Definition within (s0 : t) n s : Prop := frame s0 s /\ is_Some (clients s !! n).

Lemma within_frame s0 n s s' : within s0 n s -> frame s s' -> within s0 n s'.
Proof. intros [H1 H2] F. split; [by etransitivity|by eapply frame_alive]. Qed.

Lemma within_call s0 n s e s' : (forall m, is_closed m e = false) -> within s0 n s -> call user s e = Ret s' -> within s0 n s'.
Proof. intros He Hs H. eapply within_frame; [done|]. by eapply frame_call. Qed.

Lemma within_base s0 n f s : within s0 n s -> within s0 n (OpenSsl.on_base (derived := focus user n) f s).
Proof.
  intros Hs. eapply within_frame; [exact Hs|]. exact (frame_on_client n (fun cl : Client => cl <| impl := f (impl (get_client n s)) |>) s (fun _ => eq_refl) (proj2 Hs)).
Qed.

Lemma complete_within s0 n s s' : within s0 n s -> OpenSsl.on_handshake_complete (Derived := focus user n) s = Ret s' -> within s0 n s'.
Proof. intros Hs. cbn. destruct (client_new_connection_callback _); [by apply within_call|by intros [= <-]]. Qed.

Lemma client_hooks_keep s0 n : OpenSsl.hooks_keep (derived := focus user n) (within s0 n) true.
Proof.
  split; cbn.
  - intros f s _ _ Hs. by apply within_base.
  - intros s c d e s' Hs. destruct (client_data_receive_callback _); [by apply within_call|by intros [= <-]].
  - intros s s' Hs H. change (OpenSsl.on_handshake_complete (Derived := focus user n) (OpenSsl.log (derived := focus user n)
      (OpenSsl.on_base (derived := focus user n) (fun b => b <| OpenSsl.m_ssl_handshake_state := OpenSsl.FINISHED |>) s) OpenSsl.HandshakeComplete) = Ret s') in H.
    eapply complete_within; [|exact H]. by apply within_base, within_base.
  - intros s z e s' _ Hs H. unfold handshake_failed in H. set (s1 := if _ =? _ then _ else _) in H.
    assert (within s0 n s1) as Hs1. { subst s1. destruct (_ =? _); [|done]. eapply within_frame; [exact Hs|]. apply frame_send_alert, Hs. }
    apply obind_ret_inv in H as (s2 & H2 & [= <-]).
    assert (within s0 n s2) as Hs2. { destruct (client_new_connection_callback _); [by eapply within_call in H2|by injection H2 as <-]. }
    eapply within_frame; [exact Hs2|]. apply frame_close, Hs2.
  - by intros s z s' Hs [= <-].
  - intros s m e s' Hs. by apply within_call.
  - by intros s e s' _ Hs [= <-].
Qed.

Record inv s : Prop := {
  inv_alive c n : connections s !! c = Some (Some n) -> exists cl, clients s !! n = Some cl /\ connection cl = c;
  inv_owner n cl : clients s !! n = Some cl -> connections s !! connection cl = Some (Some n);
  inv_closing c : connections s !! c = Some None -> c ∈ closing s;
  inv_next n : is_Some (clients s !! n) -> (n < next_client s)%nat;
  inv_open n : is_Some (clients s !! n) \/ (next_client s <= n)%nat -> closed n s = 0%nat;
  inv_once n : (closed n s <= 1)%nat
}.

Lemma inv_create range : inv (create range).
Proof. split; unfold create; cbn; try done; try lia. intros n H. by destruct H. Qed.

Lemma frame_inv s s' : inv s -> frame s s' -> inv s'.
Proof.
  intros [H1 H2 H3 H4 H5 H6] F. pose proof F as [A1 A2 A3 A4 A5 A6]. split.
  - intros c n. rewrite A1. intros Hc. destruct (H1 c n Hc) as (cl & Hn & E). destruct (A3 n cl Hn) as (cl' & Hn' & E'). exists cl'. split; [done|congruence].
  - intros n cl' Hn'. rewrite A1. destruct (proj1 (A2 n) (ex_intro _ cl' Hn')) as [cl Hn]. destruct (A3 n cl Hn) as (cl2 & Hn2 & E2). rewrite Hn' in Hn2. injection Hn2 as <-.
    rewrite E2. by apply H2.
  - intros c. rewrite A1. intros Hc. by apply A5, H3.
  - intros n. rewrite A2, A4. apply H4.
  - intros n. rewrite A2, A4, A6. apply H5.
  - intros n. rewrite A6. apply H6.
Qed.

Lemma inv_new_client c tcp s : inv s -> connections s !! c = None -> inv (snd (new_client c tcp s)).
Proof.
  intros [H1 H2 H3 H4 H5 H6] Hc. assert (clients s !! next_client s = None) as Hn. { apply eq_None_not_Some. intros Hs. apply H4 in Hs. lia. }
  unfold new_client, set_user_data. cbn. split; cbn.
  - intros c' n. destruct (decide (c' = c)) as [->|Hne].
    + rewrite lookup_insert_eq. intros [= <-]. rewrite lookup_insert_eq. by eexists.
    + rewrite lookup_insert_ne by done. intros Hc'. destruct (H1 c' n Hc') as (cl & Hcl & E). exists cl. rewrite lookup_insert_ne; [done|]. intros Eq. congruence.
  - intros n cl. destruct (decide (n = next_client s)) as [->|Hne].
    + rewrite lookup_insert_eq. intros [= <-]. cbn. by rewrite lookup_insert_eq.
    + rewrite lookup_insert_ne by done. intros Hcl. apply H2 in Hcl. rewrite lookup_insert_ne; [done|]. intros Eq. congruence.
  - intros c'. destruct (decide (c' = c)) as [->|Hne]; [by rewrite lookup_insert_eq|rewrite lookup_insert_ne by done; apply H3].
  - intros n. destruct (decide (n = next_client s)) as [->|Hne]; [lia|]. rewrite lookup_insert_ne by done. intros Hs. apply H4 in Hs. lia.
  - intros n. destruct (decide (n = next_client s)) as [->|Hne]; [intros _; apply H5; by right|]. rewrite lookup_insert_ne by done. intros Hs. apply H5. destruct Hs; [by left|right; lia].
  - exact H6.
Qed.

(** A client and its connection go together. *)
Lemma inv_delete s c n : inv s -> connections s !! c = Some (Some n) -> inv ((delete_client n s) <| connections ::= delete c |>).
Proof.
  intros [H1 H2 H3 H4 H5 H6] Hc. destruct (H1 c n Hc) as (cl & Hn & E). split; cbn.
  - intros c' m. rewrite lookup_delete_Some. intros [Hne Hc']. destruct (H1 c' m Hc') as (cl' & Hm & E'). exists cl'. rewrite lookup_delete_ne; [done|]. intros Eq. congruence.
  - intros m cl'. rewrite lookup_delete_Some. intros [Hne Hm]. apply H2 in Hm. rewrite lookup_delete_ne; [done|]. intros Eq. congruence.
  - intros c'. rewrite lookup_delete_Some. intros [_ Hc']. by apply H3.
  - intros m [cl' Hm]. apply lookup_delete_Some in Hm as [_ Hm]. apply H4. by eexists.
  - intros m [[cl' Hm]|Hm]; apply H5; [left|by right]. apply lookup_delete_Some in Hm as [_ Hm]. by eexists.
  - exact H6.
Qed.

(** A connection whose client is gone is being closed. *)
Lemma inv_orphan s c n : inv s -> connections s !! c = Some (Some n) -> inv (delete_client n (close_connection n (set_user_data c None s))).
Proof.
  intros [H1 H2 H3 H4 H5 H6] Hc. destruct (H1 c n Hc) as (cl & Hn & E). unfold close_connection, on_client, get_client, set_user_data, delete_client.
  cbn. rewrite lookup_insert_eq, Hn. cbn. split; cbn.
  - intros c' m. destruct (decide (c' = c)) as [->|Hne]; [by rewrite lookup_insert_eq|]. rewrite lookup_insert_ne by done. intros Hc'. destruct (H1 c' m Hc') as (cl' & Hm & E').
    exists cl'. assert (n <> m) by (intros Eq; congruence). by rewrite lookup_delete_ne, lookup_insert_ne.
  - intros m cl'. rewrite lookup_delete_Some. intros [Hne Hm]. rewrite lookup_insert_ne in Hm by done. apply H2 in Hm. rewrite lookup_insert_ne; [done|]. intros Eq. congruence.
  - intros c'. destruct (decide (c' = c)) as [->|Hne]; [set_solver|]. rewrite lookup_insert_ne by done. intros Hc'. apply H3 in Hc'. set_solver.
  - intros m [cl' Hm]. apply lookup_delete_Some in Hm as [Hne Hm]. rewrite lookup_insert_ne in Hm by done. apply H4. by eexists.
  - intros m [[cl' Hm]|Hm]; apply H5; [left|by right]. apply lookup_delete_Some in Hm as [Hne Hm]. rewrite lookup_insert_ne in Hm by done. by eexists.
  - exact H6.
Qed.

Lemma frame_connection s s' n cl : frame s s' -> clients s !! n = Some cl -> exists cl', clients s' !! n = Some cl' /\ connection cl' = connection cl.
Proof. intros F. apply (fr_connection _ _ F). Qed.

Lemma frame_maybe_call (b : bool) s e s' : (forall n, is_closed n e = false) -> (if b then call user s e else Ret s) = Ret s' -> frame s s'.
Proof. intros He. destruct b; [by apply frame_call|by intros [= <-]]. Qed.

Lemma inv_on_new_connection s c tcp e a s' : inv s -> connections s !! c = None -> on_new_connection user s c tcp e a = Ret s' -> inv s'.
Proof.
  intros Hi Hc H. pose proof (inv_new_client c tcp s Hi Hc) as Hn. unfold on_new_connection in H. destruct (new_client c tcp s) as [n s1] eqn:E. cbn in Hn.
  assert (connections s1 !! c = Some (Some n)) as Hs1. { injection E as <- <-. cbn. apply lookup_insert_eq. }
  destruct (error_bool e).
  - apply obind_ret_inv in H as (s2 & H2 & [= <-]). apply frame_maybe_call in H2; [|done]. apply inv_delete; [by eapply frame_inv|]. by rewrite (fr_connections _ _ H2).
  - destruct (OpenSsl.ssl_init s1 a) as [s2 e2] eqn:E2.
    assert (within s1 n s2) as Hw. { eapply (OpenSsl.kept_ssl_init (derived := focus user n)); [apply client_hooks_keep| |exact E2]. split; [done|]. destruct (inv_alive _ Hn c n Hs1) as (cl & Hcl & _). by eexists. }
    destruct Hw as [F2 A2]. pose proof (frame_inv _ _ Hn F2) as Hi2. destruct (error_bool e2).
    + apply obind_ret_inv in H as (s3 & H3 & [= <-]). apply frame_maybe_call in H3; [|done]. apply inv_orphan; [by eapply frame_inv|].
      by rewrite (fr_connections _ _ H3), (fr_connections _ _ F2).
    + injection H as <-. eapply frame_inv; [exact Hi2|]. by apply frame_on_client.
Qed.

Lemma client_of_ret s c n : client_of s c = Ret n -> connections s !! c = Some (Some n) /\ is_Some (clients s !! n).
Proof. unfold client_of. destruct (connections s !! c) as [[m|]|]; try done. destruct (clients s !! m) eqn:E; [|done]. intros [= <-]. split; [done|by eexists]. Qed.

Lemma client_of_live s c : inv s -> is_Some (connections s !! c) -> c ∉ closing s -> exists n, client_of s c = Ret n.
Proof.
  intros Hi [[n|] Hc] Hn; [|by apply (inv_closing _ Hi) in Hc]. exists n. unfold client_of. rewrite Hc. destruct (inv_alive _ Hi c n Hc) as (cl & Hcl & _). by rewrite Hcl.
Qed.

Lemma frame_on_data_receive fuel s c data e s' : on_data_receive user fuel s c data e = Ret s' -> frame s s'.
Proof.
  unfold on_data_receive. intros H. apply obind_ret_inv in H as (n & Hn & H). apply client_of_ret in Hn as [_ Hn]. unfold client_on_data_receive in H. destruct (error_bool e).
  - by apply frame_maybe_call in H.
  - by apply (OpenSsl.kept_on_data_receive (derived := focus user n) _ _ (client_hooks_keep s n) fuel s data (conj (frame_refl s) Hn) s' H).
Qed.

(** A closed connection, with the closing of its client. *)
Lemma on_connection_close_ret s c e s' : on_connection_close user s c e = Ret s' ->
  (connections s !! c = Some None /\ s' = s <| connections ::= delete c |> <| closing ::= fun l => l ∖ {[c]} |>) \/
  exists n s1, client_of s c = Ret n /\ (if m_close_connection_callback s then call user s (ConnectionClosed n e) else Ret s) = Ret s1 /\
    s' = (delete_client n s1) <| connections ::= delete c |> <| closing ::= fun l => l ∖ {[c]} |>.
Proof.
  unfold on_connection_close. destruct (connections s !! c) as [[n|]|] eqn:Hc.
  - intros H. apply obind_ret_inv in H as (s2 & H & [= <-]). apply obind_ret_inv in H as (m & Hm & H). apply obind_ret_inv in H as (s1 & H1 & [= <-]). right. by exists m, s1.
  - intros [= <-]. by left.
  - intros H. apply obind_ret_inv in H as (s2 & H & [= <-]). apply obind_ret_inv in H as (m & Hm & H). unfold client_of in Hm. by rewrite Hc in Hm.
Qed.

Definition forget c n s : t := (delete_client n s) <| connections ::= delete c |>.

Lemma frame_forget c n s s' : frame s s' -> frame (forget c n s) (forget c n s').
Proof.
  intros [A1 A2 A3 A4 A5 A6]. split; cbn; [by rewrite A1| | |done|done|done].
  - intros m. destruct (decide (n = m)) as [->|Hne]; [by rewrite !lookup_delete_eq|by rewrite !lookup_delete_ne].
  - intros m cl. rewrite lookup_delete_Some. intros [Hne Hm]. destruct (A3 m cl Hm) as (cl' & Hm' & E). exists cl'. by rewrite lookup_delete_ne.
Qed.

(** One call of the close callback for a client that has been deleted. *)
Lemma inv_log_closed s n e : inv s -> clients s !! n = None -> (n < next_client s)%nat -> closed n s = 0%nat -> inv (s <| calls ::= fun l => l ++ [ConnectionClosed n e] |>).
Proof.
  intros [H1 H2 H3 H4 H5 H6] Hn Hlt H0. split; [exact H1|exact H2|exact H3|exact H4| |].
  - intros m Hm. rewrite closed_call. cbn [is_closed]. rewrite (H5 m Hm). rewrite bool_decide_false; [done|]. intros ->. destruct Hm as [[cl Hm]|Hm]; [|cbn in Hm; lia].
    cbn in Hm. congruence.
  - intros m. rewrite closed_call. cbn [is_closed]. case_bool_decide as E; [subst m; lia|]. specialize (H6 m). lia.
Qed.

Lemma inv_drop_closing s c : inv s -> connections s !! c = None -> inv (s <| closing ::= fun l => l ∖ {[c]} |>).
Proof.
  intros [H1 H2 H3 H4 H5 H6] Hc. split; [exact H1|exact H2| |exact H4|exact H5|exact H6]. cbn. intros c' Hc'. apply elem_of_difference. split; [by apply H3|].
  rewrite elem_of_singleton. intros ->. congruence.
Qed.

Lemma inv_drop_connection s c : inv s -> connections s !! c = Some None -> inv (s <| connections ::= delete c |>).
Proof.
  intros [H1 H2 H3 H4 H5 H6] Hc. split; cbn; [| | |exact H4|exact H5|exact H6].
  - intros c' n. rewrite lookup_delete_Some. intros [_ H]. by apply H1.
  - intros n cl Hn. apply H2 in Hn. rewrite lookup_delete_ne; [done|]. intros Eq. congruence.
  - intros c'. rewrite lookup_delete_Some. intros [_ H]. by apply H3.
Qed.

Lemma inv_on_connection_close s c e s' : inv s -> on_connection_close user s c e = Ret s' -> inv s'.
Proof.
  intros Hi H. apply on_connection_close_ret in H as [[Hc ->]|(n & s1 & Hn & H1 & ->)].
  - apply inv_drop_closing; [by apply inv_drop_connection|]. apply lookup_delete_eq.
  - apply client_of_ret in Hn as [Hc Hn]. pose proof (inv_delete s c n Hi Hc) as Hd. apply (inv_drop_closing (forget c n s1)); [|apply lookup_delete_eq].
    destruct (m_close_connection_callback s); [|by injection H1 as <-]. apply user_frame, (frame_forget c n) in H1. eapply frame_inv; [|exact H1].
    apply (inv_log_closed (forget c n s) n e Hd); [apply lookup_delete_eq|by apply (inv_next _ Hi)|]. apply (inv_open _ Hi). by left.
Qed.

(** ** Runs of a server *)

(** What happens to a server: the callbacks of its TCP server and of the sends over it, and what user code does with the server and its clients.  A new
    connection is not yet known; data comes from connections that have not been closed; each known connection can end. *)
Inductive step s s' : Prop :=
| step_new c tcp e a : connections s !! c = None -> on_new_connection user s c tcp e a = Ret s' -> step s s'
| step_data fuel c data e : is_Some (connections s !! c) -> c ∉ closing s -> on_data_receive user fuel s c data e = Ret s' -> step s s'
| step_closed c e : is_Some (connections s !! c) -> on_connection_close user s c e = Ret s' -> step s s'
| step_sent fuel n k e : is_Some (clients s !! n) -> OpenSsl.on_sent (derived := focus user n) fuel s k e = Ret s' -> step s s'
| step_send fuel n buffer size cb : is_Some (clients s !! n) -> OpenSsl.send_data_impl (derived := focus user n) fuel s buffer size cb = Ret s' -> step s s'
| step_client_close n : is_Some (clients s !! n) -> client_close n s = s' -> step s s'
| step_listen m ciphers nc dr cc e : listen s m ciphers nc dr cc = (s', e) -> step s s'
| step_shutdown cb : shutdown s cb = s' -> step s s'
| step_close cb : close s cb = s' -> step s s'
| step_schedule_removal : schedule_removal s = s' -> step s s'
| step_tcp_callback cb e : on_tcp_callback user s cb e = Ret s' -> step s s'.

(** Functions that change neither clients nor connections. *)
Lemma frame_untouched s s' : clients s' = clients s -> connections s' = connections s -> next_client s' = next_client s -> closing s' = closing s -> calls s' = calls s -> frame s s'.
Proof. intros E1 E2 E3 E4 E5. split; rewrite ?E1, ?E2, ?E3, ?E4; try done. - intros n cl Hn. by exists cl. - intros n. unfold closed. by rewrite E5. Qed.

Lemma frame_listen s m ciphers nc dr cc s' e : listen s m ciphers nc dr cc = (s', e) -> frame s s'.
Proof.
  unfold listen. destruct (certificate_file m) as [[|]|]; [|by intros [= <- _]; apply frame_untouched..]. destruct (private_key_file m) as [[|]|]; [|by intros [= <- _]; apply frame_untouched..].
  destruct (negb _); [by intros [= <- _]; apply frame_untouched|]. destruct (init_ssl_context _ _) as [ctx e1]. destruct (error_bool e1); [by intros [= <- _]; apply frame_untouched|].
  destruct (set_tls_version _ _ _) as [ctx2 e2]. destruct (error_bool e2); [by intros [= <- _]; apply frame_untouched|].
  destruct (error_bool (ssl_init_certificate_and_key _)); by intros [= <- _]; apply frame_untouched.
Qed.

Lemma frame_schedule_removal s : frame s (schedule_removal s).
Proof. unfold schedule_removal. destruct (removal_scheduled s); [by apply frame_untouched|]. destruct (tcp_is_open s); by apply frame_untouched. Qed.

Lemma tls_step_inv s s' : step s s' -> inv s -> inv s'.
Proof.
  intros H Hi. destruct H as [c tcp e a Hc H|fuel c data e Hc Hn H|c e Hc H|fuel n k e Hn H|fuel n buffer size cb Hn H|n Hn <-|m ciphers nc dr cc e H|cb <-|cb <-|<-|cb e H].
  - by eapply inv_on_new_connection.
  - eapply frame_inv; [exact Hi|]. by eapply frame_on_data_receive.
  - by eapply inv_on_connection_close.
  - eapply frame_inv; [exact Hi|]. by apply (OpenSsl.kept_on_sent (derived := focus user n) _ _ (client_hooks_keep s n) fuel s k e (conj (frame_refl s) Hn) (fun _ => eq_refl) s' H).
  - eapply frame_inv; [exact Hi|]. by apply (OpenSsl.kept_send_data (derived := focus user n) _ _ (client_hooks_keep s n) fuel s buffer size cb (conj (frame_refl s) Hn) s' H).
  - eapply frame_inv; [exact Hi|]. by apply frame_close.
  - eapply frame_inv; [exact Hi|]. by eapply frame_listen.
  - eapply frame_inv; [exact Hi|]. by destruct cb; apply frame_untouched.
  - eapply frame_inv; [exact Hi|]. by destruct cb; apply frame_untouched.
  - eapply frame_inv; [exact Hi|]. apply frame_schedule_removal.
  - eapply frame_inv; [exact Hi|]. destruct cb; [by injection H as <-|by apply frame_call in H|]. injection H as <-. etransitivity; [apply frame_schedule_removal|by apply frame_untouched].
Qed.

Lemma tls_run_inv range s : rtc step (create range) s -> inv s.
Proof. intros Hr. assert (inv (create range)) as H0 by apply inv_create. induction Hr as [|s1 s2 s3 H12 H23 IH]; [done|]. apply IH. by eapply tls_step_inv. Qed.


(** ** Listening *)

(** What [listen] needs of the files and of OpenSSL. *)
Definition material_ok s (m : Material) (ciphers : string) : Prop :=
  certificate_file m = Some true /\ private_key_file m = Some true /\ X509_verify m <> 0 /\
  error_bool (init_ssl_context (context m) ciphers).2 = false /\ (value (fst (m_version_range s)) <= value (snd (m_version_range s)))%nat /\
  error_bool (ssl_init_certificate_and_key (context m)) = false.

Lemma version_error ctx vmin vmax ctx' e : set_tls_version ctx vmin vmax = (ctx', e) -> error_bool e = (value vmax <? value vmin)%nat.
Proof. unfold set_tls_version, set_tls_dtls_version. destruct (_ <? _)%nat; by intros [= _ <-]. Qed.

(** The TCP server is asked to listen exactly when the certificate, the key, the context and the range of versions are in order; else [listen] reports an error,
    and the server is as open as it was. *)
Theorem listen_checks s m ciphers nc dr cc s' e : listen s m ciphers nc dr cc = (s', e) ->
  (material_ok s m ciphers -> e = tcp_listen m /\ tcp_is_open s' = tcp_opened m) /\
  (~ material_ok s m ciphers -> error_bool e = true /\ tcp_is_open s' = tcp_is_open s).
Proof.
  unfold listen, material_ok, certificate_and_key_match. cbn [m_version_range].
  destruct (certificate_file m) as [[|]|]; [|intros [= <- <-]; split; [by intros (? & _)|done]..].
  destruct (private_key_file m) as [[|]|]; [|intros [= <- <-]; split; [by intros (_ & ? & _)|done]..].
  rewrite negb_involutive. destruct (Z.eqb_spec (X509_verify m) 0) as [Hx|Hx]; [intros [= <- <-]; split; [tauto|done]|].
  destruct (init_ssl_context _ _) as [ctx e1]. destruct (error_bool e1) eqn:E1; [intros [= <- <-]; split; [intros (_ & _ & _ & H & _); cbn in H; congruence|done]|].
  destruct (set_tls_version _ _ _) as [ctx2 e2] eqn:E2. apply version_error in E2.
  change (error_bool e2 = (value (snd (m_version_range s)) <? value (fst (m_version_range s)))%nat) in E2. rewrite E2. destruct (Nat.ltb_spec (value (snd (m_version_range s))) (value (fst (m_version_range s)))).
  - intros [= <- <-]. split; [intros (_ & _ & _ & _ & ? & _); lia|done].
  - destruct (error_bool (ssl_init_certificate_and_key _)) eqn:E3; intros [= <- <-]; (split; [|]); try done.
    + by intros (_ & _ & _ & _ & _ & ?).
    + intros Hn. by destruct Hn.
Qed.

End Facts.

(** ** Examples *)

Section Examples.
#[local] Existing Instance UvFallback.
#[local] Existing Instance OpenSsl111.
#[local] Instance unit_connecting : TlsClient.Connecting unit := { new_client := tt; client_connect c := c; client_close c := c }.
(** The macros as in version 1.1.1. *)
#[local] Instance reasons111 : SslReasons := { ERR_GET_REASON code := Z.land code 0xFFF; SSL_R_UNKNOWN_PROTOCOL := 252 }.

Abbreviation server := (TlsServer.t (S := OpenSsl.Toy) (C := unit)).

Definition silent (e : Call) (s : server) : outcome server := Ret s.
Definition material : Material := mkMaterial (Some true) (Some true) 1 TlsClient.answers (Error_of_status OK) true.

Definition idle : server := create (TlsV1_0, TlsV1_3).
Definition listening : server := (listen idle material "ALL" true true true).1.
Definition get (m : outcome server) : server := match m with Ret s => s | Fault _ => idle end.
Definition accepted : server := get (on_new_connection silent listening 5 tt (Error_of_status OK) TlsClient.new_ssl).
Definition answered : server := get (on_data_receive silent 3 accepted 5 [1] (Error_of_status OK)).
Definition established : server := get (OpenSsl.on_sent (derived := focus silent 0) 3 answered 0 (Error_of_status OK)).

Lemma silent_frame e s s' : silent e s = Ret s' -> frame s s'.
Proof. intros [= <-]. apply frame_refl. Qed.

Lemma established_runs : rtc (step silent) idle established.
Proof.
  apply (rtc_l _ _ listening); [apply (step_listen _ _ _ material "ALL" true true true (Error_of_status OK)); vm_compute; reflexivity|].
  apply (rtc_l _ _ accepted); [apply (step_new _ _ _ 5 tt (Error_of_status OK) TlsClient.new_ssl); vm_compute; reflexivity|].
  apply (rtc_l _ _ answered); [apply (step_data _ _ _ 3 5 [1] (Error_of_status OK)); [apply (bool_decide_unpack _); vm_compute; exact I|by vm_compute|vm_compute; reflexivity]|]. apply rtc_once.
  apply (step_sent _ _ _ 3 0 0 (Error_of_status OK)); [apply (bool_decide_unpack _); vm_compute; exact I|vm_compute; reflexivity].
Qed.

(** The new connection is reported when the last message of its handshake has been sent. *)
Example established_reported : calls answered = [] /\ calls established = [NewConnection 0 (Error_of_uv 0)].
Proof. vm_compute. done. Qed.


Lemma listen_checks_witness : material_ok idle material "ALL" /\ (listen idle material "ALL" true true true).2 = Error_of_status OK.
Proof.
  assert (material_ok idle material "ALL") as Hm by (split_and!; vm_compute; try done; lia). split; [exact Hm|].
  destruct (listen_checks idle material "ALL" true true true _ _ (surjective_pairing _)) as [H _]. apply (H Hm).
Defined.

(** An error of [X509_verify], which is a negative result, counts as a match. *)
Example failed_verification_matches :
  (listen idle (mkMaterial (Some true) (Some true) (-1) TlsClient.answers (Error_of_status OK) true) "ALL" true true true).2 = Error_of_status OK.
Proof. reflexivity. Qed.

(** A server that is told twice to remove itself, before its TCP server has closed, removes itself once more when it has. *)
Example removed_twice : removals (get (on_tcp_callback silent (schedule_removal (schedule_removal listening)) TcpRemove (Error_of_status OK))) = 2%nat.
Proof. reflexivity. Qed.

(** A close with a callback lets the TCP server shut the connections down; one without closes them. *)
Example close_shuts_down : tcp_calls (close listening true) = tcp_calls (shutdown listening true) /\ tcp_calls (close listening false) = [TcpClose TcpNothing].
Proof. done. Qed.

End Examples.

End TlsServer.
