(* ===== verification/DtlsClient.v ===== *)
(** * DtlsClient

    [source/io/net/DtlsClient.cpp]: a DTLS client over a UDP client.

    As in [TlsClient], the members of the class and of its base [OpenSslClientImplBase] are one state, and user callbacks are the parameter [user].
    The UDP client is the type [C]; the functions that it calls back are [on_destination_set], [on_udp_data] and [on_udp_close]. *)

From S2P Require Import Prelude StatusCode Inet Endpoint TcpStream SslContext OpenSsl TlsClient.
Local Open Scope outcome_scope.
Local Open Scope record_scope.

Module DtlsClient.
Import TcpStream(DataChunk, mkChunk, buf, size, offset).
Import SslContext.
Import TlsClient(Call, ConnectCalled, ReceiveCalled, CloseCalled, SendCalled).

(** The UDP client beyond sending. *)
Class Datagrams (C : Type) := {
  new_client : C;
  client_set_destination : C -> Endpoint.t -> Z -> C;
  client_close : C -> C;
  client_bound_port : C -> Z
}.

Definition SSL3_AD_CLOSE_NOTIFY : Z := 0.

Section Client.
Context {uv : UvErrno} {S C : Type} {ssl : OpenSsl.Ssl S} {transport : OpenSsl.Transport C} {datagrams : Datagrams C} {opts : SslOptions}.

Record t := mk {
  impl : OpenSsl.t (S := S) (C := C);
  m_connect_callback : bool;
  m_receive_callback : bool;
  m_close_callback : bool;
  m_version_range : DtlsVersion * DtlsVersion;
  m_ssl_ctx : option Z;
  (** The callbacks that [set_destination] has been given: whether the connect callback in each is not empty. *)
  destinations : list bool;
  (** The scheduled calls of connect callbacks: whether there is one, and its error. *)
  scheduled : list (bool * Error);
  calls : list Call
}.

#[global] Instance t_settable : Settable t :=
  settable! mk < impl; m_connect_callback; m_receive_callback; m_close_callback; m_version_range; m_ssl_ctx; destinations; scheduled; calls >.

Definition create (version_range : DtlsVersion * DtlsVersion) : t := mk (OpenSsl.create None) false false false version_range None [] [] [].

(** ** User callbacks *)

Variable user : Call -> t -> outcome t.

Definition call (i : t) (c : Call) : outcome t := user c (i <| calls ::= fun l => l ++ [c] |>).
Definition call_connect (i : t) (error : Error) : outcome t := if m_connect_callback i then call i (ConnectCalled error) else Ret i.
Definition call_receive (i : t) (chunk : DataChunk) (data : list Z) (error : Error) : outcome t :=
  if m_receive_callback i then call i (ReceiveCalled chunk data error) else Ret i.
Definition call_close (i : t) (error : Error) : outcome t := if m_close_callback i then call i (CloseCalled error) else Ret i.

(** ** The virtual functions *)

Definition set_client (i : t) (f : option C -> option C) : t := i <| impl ::= fun b => b <| OpenSsl.m_client ::= f |> |>.

#[global] Instance derived : OpenSsl.Derived (S := S) (C := C) t := {
  base := impl;
  set_base i s := i <| impl := s |>;
  base_set_base _ _ := eq_refl;
  ssl_set_state := OpenSsl.SSL_set_connect_state;
  on_ssl_read i chunk data error := call_receive i chunk data error;
  on_handshake_complete i := call_connect i (Error_of_uv 0);
  on_handshake_failed i _ error := call_connect i error;
  on_alert i code := if code =? SSL3_AD_CLOSE_NOTIFY then call_close i (Error_of_uv 0) else Ret i;
  on_end_send i send error := call i (SendCalled send error);
  on_shutdown_sent i _ := Ret (set_client i (fmap client_close))
}.

(** ** Operations *)

Definition schedule (i : t) (callback : bool) (error : Error) : t := i <| scheduled ::= fun l => l ++ [(callback, error)] |>.

Definition connect (i : t) (endpoint : Endpoint.t) (connect_callback receive_callback close_callback : bool) (timeout_ms : Z) : t :=
  if bool_decide (Endpoint.m_type endpoint = Endpoint.UNDEFINED) then
    if connect_callback then schedule i true (Error_of_status INVALID_ARGUMENT) else i
  else
    let i := set_client i (fun _ => Some (client_set_destination new_client endpoint timeout_ms)) in
    i <| destinations ::= fun l => l ++ [connect_callback] |>
      <| m_connect_callback := connect_callback |> <| m_receive_callback := receive_callback |> <| m_close_callback := close_callback |>.

(** A scheduled callback runs. *)
Definition run_scheduled (i : t) : outcome t :=
  match scheduled i with
  | [] => Ret i
  | (callback, error) :: l =>
      let i := i <| scheduled := l |> in
      if callback then call i (ConnectCalled error) else Fault EmptyFunction
  end.

(** The callback of [set_destination], with the connect callback of its own. *)
Definition destination_set (fuel : nat) (i : t) (connect_callback : bool) (error : Error) (a : Answers) (ciphers : string) (n : OpenSsl.NewSsl S) : outcome t :=
  if error_bool error then
    if connect_callback then call i (ConnectCalled error) else Ret i
  else if negb (OpenSsl.is_ssl_inited (impl i)) then
    let '(ctx, context_error) := init_ssl_context a ciphers in
    let i := i <| m_ssl_ctx := ctx |> in
    if error_bool context_error then Ret (schedule i connect_callback context_error)
    else
      let '(ctx, version_error) := set_dtls_version (default 0 ctx) (fst (m_version_range i)) (snd (m_version_range i)) in
      let i := i <| m_ssl_ctx := Some ctx |> in
      if error_bool version_error then Ret (schedule i connect_callback version_error)
      else
        let '(i, ssl_init_error) := OpenSsl.ssl_init i n in
        if error_bool ssl_init_error then Ret (schedule i connect_callback ssl_init_error)
        else OpenSsl.do_handshake fuel i
  else OpenSsl.do_handshake fuel i.

Definition on_destination_set (fuel : nat) (i : t) (error : Error) (a : Answers) (ciphers : string) (n : OpenSsl.NewSsl S) : outcome t :=
  match destinations i with
  | [] => Ret i
  | connect_callback :: l => destination_set fuel (i <| destinations := l |>) connect_callback error a ciphers n
  end.

Definition on_udp_data (fuel : nat) (i : t) (data : list Z) (error : Error) : outcome t :=
  if error_bool error then call_receive i (mkChunk None 0 0) [] error
  else OpenSsl.on_data_receive fuel i data.

(** The UDP client has closed: nothing came for [timeout_ms], or [close] was called. *)
Definition on_udp_close (i : t) (error : Error) : outcome t :=
  if negb (bool_decide (OpenSsl.m_ssl_handshake_state (impl i) = OpenSsl.FINISHED)) && m_connect_callback i
  then call i (ConnectCalled (Error_of_status CONNECTION_REFUSED))
  else call_close i error.

Definition close (fuel : nat) (i : t) : outcome t :=
  let* (i, error) := OpenSsl.ssl_shutdown fuel i in
  if error_bool error then call_close i error else Ret i.

Definition bound_port (i : t) : Z := match OpenSsl.m_client (impl i) with Some c => client_bound_port c | None => 0 end.

End Client.

(** ** Every connect is answered *)

Section Facts.
Context {uv : UvErrno} {S C : Type} {ssl : OpenSsl.Ssl S} {transport : OpenSsl.Transport C} {laws : OpenSsl.SslLaws ssl} {datagrams : Datagrams C} {opts : SslOptions}.
Abbreviation t := (t (S := S) (C := C)).
Variable user : Call -> t -> outcome t.
Implicit Types (i : t) (c : Call).

Definition is_answer c : bool := match c with ConnectCalled _ => true | _ => false end.
Definition is_success c : bool := match c with ConnectCalled e => negb (error_bool e) | _ => false end.
Definition is_close c : bool := match c with CloseCalled _ => true | _ => false end.
Definition count (p : Call -> bool) i : nat := length (List.filter p (calls i)).

Lemma count_call p i c : count p (i <| calls ::= fun l => l ++ [c] |>) = (count p i + if p c then 1 else 0)%nat.
Proof. unfold count. cbn. rewrite List.filter_app, length_app. cbn. by destruct (p c). Qed.

Lemma success_is_answer i : (count is_success i <= count is_answer i)%nat.
Proof. unfold count. induction (calls i) as [|c l IH]; [done|]. cbn. destruct c; cbn; try done. destruct (negb _); cbn; lia. Qed.

(** User code in callbacks can send, close, and keep what it is given; it does not connect again. *)
Record user_ok : Prop := {
  user_returns c i : returns (user c i) (fun i' => OpenSsl.user_step (match c with ReceiveCalled chunk data _ => Some (chunk, data) | _ => None end) (impl i) (impl i'));
  user_calls c i i' : user c i = Ret i' -> count is_answer i' = count is_answer i /\ count is_success i' = count is_success i /\ m_connect_callback i' = m_connect_callback i
}.

Hypothesis User : user_ok.

Lemma dtls_hooks : OpenSsl.hooks_ok (derived := derived user).
Proof.
  split; cbn.
  - intros i c d e. unfold call_receive. destruct (m_receive_callback i); [|by apply returns_ret]. exact (user_returns User (ReceiveCalled c d e) _).
  - intros i. unfold call_connect. destruct (m_connect_callback i); [|by apply returns_ret]. exact (user_returns User (ConnectCalled _) _).
  - intros i z e. unfold call_connect. destruct (m_connect_callback i); [|by apply returns_ret]. exact (user_returns User (ConnectCalled _) _).
  - intros i z. destruct (z =? _); [|by apply returns_ret]. unfold call_close. destruct (m_close_callback i); [|by apply returns_ret]. exact (user_returns User (CloseCalled _) _).
  - intros i n e. exact (user_returns User (SendCalled n e) _).
  - intros i e. apply returns_ret. split; [done|intros [c Hc]; cbn; rewrite Hc; by eexists|intros o Ho; exists o; split; [exact Ho|apply OpenSsl.reads_same_order]|done|cbn; reflexivity|exists []; by rewrite app_nil_r|exists []; by rewrite app_nil_r].
Qed.

Lemma user_completions x s s' : OpenSsl.user_step x s s' -> OpenSsl.completions s' = OpenSsl.completions (S := S) (C := C) s.
Proof.
  intros H. destruct (OpenSsl.us_events _ _ _ H) as (l & E & Hl). unfold OpenSsl.completions. rewrite E, List.filter_app, length_app.
  rewrite (OpenSsl.quiet_no_completion l); [by rewrite Nat.add_0_r|]. eapply Forall_impl; [exact Hl|]. intros e. apply OpenSsl.user_event_quiet.
Qed.

(** The connect callback has been called with success as often as the handshake was completed. *)
Definition reported i : Prop := m_connect_callback i = true /\ count is_success i = OpenSsl.completions (impl i).

Lemma reported_call i c i' n : m_connect_callback i = true -> (count is_success i + (if is_success c then 1 else 0) = OpenSsl.completions (impl i) + n)%nat ->
  call user i c = Ret i' -> m_connect_callback i' = true /\ (count is_success i' = OpenSsl.completions (impl i') + n)%nat.
Proof.
  intros Hcb Hn H. unfold call in H. pose proof (user_calls User _ _ _ H) as (_ & H1 & H2). pose proof (user_returns User c (i <| calls ::= fun l => l ++ [c] |>)) as Hr.
  rewrite H in Hr. cbn [returns] in Hr. apply user_completions in Hr. cbn in Hr, H2. rewrite H1, count_call, Hr. split; [congruence|done].
Qed.

Lemma reported_quiet i c i' : is_success c = false -> reported i -> call user i c = Ret i' -> reported i'.
Proof.
  intros Hc [H1 H2] H. destruct (reported_call i c i' 0 H1) as [H1' H2']; [rewrite Hc, H2; lia|done|]. split; [done|lia].
Qed.

Lemma hooks_keep_reported : OpenSsl.hooks_keep (derived := derived user) reported true.
Proof.
  split; unfold OpenSsl.finish_handshake; cbn.
  - intros f i Hf _ [H1 H2]. split; [done|]. cbn. rewrite Hf. exact H2.
  - intros i c d e i' Hi. unfold call_receive. destruct (m_receive_callback i); [by apply reported_quiet|by intros [= <-]].
  - intros i i' [H1 H2]. unfold call_connect. cbn. rewrite H1. intros H.
    eapply (reported_call _ _ _ 0) in H as [H3 H4]; [split; [exact H3|lia]|done|].
    unfold OpenSsl.completions, OpenSsl.emit. cbn. rewrite List.filter_app, length_app. cbn. unfold OpenSsl.completions in H2. unfold count in *. cbn in *.
    change (error_bool _) with false. cbn [negb]. lia.
  - intros i z e i' He Hi. unfold call_connect. destruct (m_connect_callback i); [|by intros [= <-]]. apply reported_quiet; [cbn; by rewrite He|done].
  - intros i z i' Hi. destruct (z =? _); [|by intros [= <-]]. unfold call_close. destruct (m_close_callback i); [by apply reported_quiet|by intros [= <-]].
  - intros i n e i' Hi. by apply reported_quiet.
  - intros i e i' _ [H1 H2] [= <-]. by split.
Qed.

(** What happens to a client whose SSL object has been made: its handshake is started, the UDP client delivers packets, callbacks of sends and its end, and user code
    sends and closes. *)
Inductive step i i' : Prop :=
| step_handshake fuel : OpenSsl.m_ssl_handshake_state (impl i) <> OpenSsl.FINISHED -> OpenSsl.do_handshake (derived := derived user) fuel i = Ret i' -> step i i'
| step_data fuel data e : Z.of_nat (length data) < 2 ^ 31 -> on_udp_data user fuel i data e = Ret i' -> step i i'
| step_sent fuel k e : OpenSsl.on_sent (derived := derived user) fuel i k e = Ret i' -> step i i'
| step_closed e : on_udp_close user i e = Ret i' -> step i i'
| step_send fuel buffer size : OpenSsl.send_data_impl (derived := derived user) fuel i buffer size true = Ret i' -> step i i'
| step_close fuel : close user fuel i = Ret i' -> step i i'.

Definition inv i : Prop := OpenSsl.connection_ok (impl i) /\ reported i.

Definition no_data c : Prop := match c with ReceiveCalled chunk data _ => chunk = mkChunk None 0 0 /\ data = [] | _ => True end.

Lemma dtls_call_inv i c i' : no_data c -> is_success c = false -> inv i -> call user i c = Ret i' -> inv i'.
Proof.
  intros Hc Hs [Hi Hr] H. split; [|by eapply reported_quiet]. unfold call in H. pose proof (user_returns User c (i <| calls ::= fun l => l ++ [c] |>)) as Hu.
  rewrite H in Hu. cbn [returns] in Hu. destruct c; try by eapply OpenSsl.user_connection. destruct Hc as [-> ->]. by eapply OpenSsl.null_connection.
Qed.

Lemma step_reported i i' : step i i' -> inv i -> inv i'.
Proof.
  pose proof hooks_keep_reported as Keep. pose proof dtls_hooks as Hooks. intros [fuel Hst H|fuel data e Hl H|fuel k e H|e H|fuel buffer size H|fuel H] [Hi Hr].
  - split; [|exact (OpenSsl.kept_do_handshake _ _ Keep fuel i Hr i' H)]. apply (OpenSsl.step_connection Hooks i i'); [|done]. by apply (OpenSsl.step_handshake _ _ fuel).
  - unfold on_udp_data in H. destruct (error_bool e).
    + unfold call_receive in H. destruct (m_receive_callback i); [by eapply dtls_call_inv in H|by injection H as <-].
    + split; [|exact (OpenSsl.kept_on_data_receive _ _ Keep fuel i data Hr i' H)]. apply (OpenSsl.step_connection Hooks i i'); [|done]. by apply (OpenSsl.step_data _ _ fuel data).
  - split; [|exact (OpenSsl.kept_on_sent _ _ Keep fuel i k e Hr (fun _ => eq_refl) i' H)]. apply (OpenSsl.step_connection Hooks i i'); [|done]. by apply (OpenSsl.step_sent _ _ fuel k e).
  - unfold on_udp_close in H. destruct (_ && _); [by eapply dtls_call_inv in H|]. unfold call_close in H. destruct (m_close_callback i); [by eapply dtls_call_inv in H|by injection H as <-].
  - split; [|exact (OpenSsl.kept_send_data _ _ Keep fuel i buffer size true Hr i' H)].
    pose proof (OpenSsl.send_data_user Hooks fuel i buffer size true (OpenSsl.ok_client _ Hi) (OpenSsl.ok_ssl _ Hi) (or_introl eq_refl)) as Hu. rewrite H in Hu. by eapply OpenSsl.user_connection.
  - unfold close in H. apply obind_ret_inv in H as ([i1 e] & H1 & H). pose proof (OpenSsl.kept_shutdown _ _ Keep fuel i i1 e eq_refl Hr H1) as Hr1.
    pose proof (OpenSsl.shutdown_user Hooks fuel i (OpenSsl.ok_client _ Hi) (OpenSsl.ok_ssl _ Hi)) as Hu. rewrite H1 in Hu. cbn [returns] in Hu.
    assert (inv i1) as Hi1 by (split; [by eapply OpenSsl.user_connection|done]). destruct (error_bool e); [|by injection H as <-].
    unfold call_close in H. destruct (m_close_callback i1); [by eapply dtls_call_inv in H|by injection H as <-].
Qed.

(** In every run of a DTLS client that was connected with a connect callback, whatever packets come and whatever user code does, the callback is called with
    success exactly once if the handshake is finished and not otherwise; and when the UDP client has closed, which it does at the latest after
    the timeout, the callback has been called: no connect stays unanswered. *)
Theorem dtls_connect_answered i0 i : OpenSsl.fresh (impl i0) -> m_connect_callback i0 = true -> count is_success i0 = 0%nat -> rtc step i0 i ->
  count is_success i = (if decide (OpenSsl.m_ssl_handshake_state (impl i) = OpenSsl.FINISHED) then 1%nat else 0%nat) /\
  forall e, returns (on_udp_close user i e) (fun i' => (1 <= count is_answer i')%nat).
Proof.
  intros Hf Hcb H0 Hr. assert (inv i0) as Hi0.
  { split; [by apply OpenSsl.fresh_connection|]. split; [done|]. rewrite H0. destruct Hf as (_ & _ & _ & _ & E & _). unfold OpenSsl.completions. by rewrite E. }
  assert (inv i) as [Hi [Hcb' Hc]]. { clear Hf Hcb H0. induction Hr as [|i1 i2 i3 H12 H23 IH]; [done|]. apply IH. by eapply step_reported. }
  assert (count is_success i = if decide (OpenSsl.m_ssl_handshake_state (impl i) = OpenSsl.FINISHED) then 1%nat else 0%nat) as Hs.
  { rewrite Hc. unfold OpenSsl.completions. by eapply OpenSsl.phase_completions, OpenSsl.ok_phase. }
  split; [exact Hs|]. intros e. unfold on_udp_close. rewrite Hcb'.
  assert (forall c, count is_answer i + (if is_answer c then 1 else 0) >= 1 -> returns (call user i c) (fun i' => (1 <= count is_answer i')%nat))%nat as Hcall.
  { intros c Hn. unfold call. pose proof (user_returns User c (i <| calls ::= fun l => l ++ [c] |>)) as Hu. destruct (user c _) as [i'|] eqn:E; [|done]. cbn [returns].
    apply (user_calls User) in E as (E & _ & _). rewrite E, count_call. lia. }
  destruct (decide (OpenSsl.m_ssl_handshake_state (impl i) = OpenSsl.FINISHED)) as [Hst|Hst].
  - rewrite bool_decide_true by done. cbn [negb andb]. assert (1 <= count is_answer i)%nat as Ha by (rewrite <- Hs; apply success_is_answer).
    unfold call_close. destruct (m_close_callback i); [|exact Ha]. apply Hcall. lia.
  - rewrite bool_decide_false by done. cbn [negb andb]. apply Hcall. cbn [is_answer]. lia.
Qed.

(** A new client that is told to connect, with a legal range of versions, starts its handshake when its UDP client has the destination. *)
Lemma destination_ready fuel range endpoint a ciphers n rc cc timeout : Endpoint.m_type endpoint <> Endpoint.UNDEFINED -> (value (fst range) <= value (snd range))%nat ->
  TlsClient.ssl_ready a ciphers n ->
  exists i, on_destination_set user fuel (connect (create range) endpoint true rc cc timeout) (Error_of_status OK) a ciphers n = OpenSsl.do_handshake (derived := derived user) fuel i /\
    OpenSsl.fresh (impl i) /\ m_connect_callback i = true /\ count is_success i = 0%nat.
Proof.
  intros He Hv ([ctx Hctx] & Hci & [o Ho] & Hr & Hw). destruct range as [vmin vmax]. cbn [fst snd] in Hv. unfold connect. rewrite bool_decide_false by done.
  unfold on_destination_set. cbn [destinations create]. cbn. unfold destination_set, init_ssl_context. rewrite Hctx, (proj2 (Z.eqb_neq _ _)) by done.
  cbn [OpenSsl.is_ssl_inited negb error_bool Error_of_status m_status_code].
  assert (forall x : Z, exists x', set_dtls_version x vmin vmax = (x', Error_of_status OK)) as Hset.
  { intros c. unfold set_dtls_version, set_tls_dtls_version. rewrite (proj2 (Nat.ltb_ge _ _)) by done. by eexists. }
  destruct (Hset ctx) as (x' & Ec). cbn. rewrite Ec. unfold OpenSsl.ssl_init. rewrite Ho, Hr, Hw. cbn. eexists. split; [reflexivity|]. split; [|done].
  split_and!; [by eexists|by eexists|done|done|done|exact OpenSsl.created_buffers].
Qed.

End Facts.

(** The close callback is not reset: a session that the other side has closed calls it for the alert, and again when its UDP client closes. *)
Theorem close_after_notify {uv : UvErrno} {S C : Type} {ssl : OpenSsl.Ssl S} {transport : OpenSsl.Transport C} {datagrams : Datagrams C} (i i1 i2 : t (S := S) (C := C)) e :
  m_close_callback i = true -> OpenSsl.m_ssl_handshake_state (impl i) = OpenSsl.FINISHED ->
  OpenSsl.on_alert (Derived := derived (fun _ i => Ret i)) i SSL3_AD_CLOSE_NOTIFY = Ret i1 -> on_udp_close (fun _ i => Ret i) i1 e = Ret i2 ->
  count is_close i2 = (count is_close i + 2)%nat.
Proof.
  intros Hcb Hst H1 H2. cbn in H1. unfold call_close, call in H1. rewrite Hcb in H1. injection H1 as <-. unfold on_udp_close in H2. cbn in H2.
  rewrite bool_decide_true in H2 by done. cbn in H2. unfold call_close, call in H2. cbn in H2. rewrite Hcb in H2. injection H2 as <-.
  unfold count. cbn. rewrite !List.filter_app, !length_app. cbn. lia.
Qed.

(** ** Examples *)

Section Examples.
#[local] Existing Instance UvFallback.
#[local] Existing Instance OpenSsl111.
#[local] Existing Instance LittleEndianHost.
#[local] Instance unit_datagrams : Datagrams unit := { new_client := tt; client_set_destination c _ _ := c; client_close c := c; client_bound_port c := 5000 }.

Abbreviation client := (t (S := OpenSsl.Toy) (C := unit)).

Definition silent (c : Call) (i : client) : outcome client := Ret i.

Lemma silent_ok : user_ok silent.
Proof. split; [|by intros c i i' [= <-]]. intros c i. apply returns_ret. reflexivity. Qed.

Definition ready : client :=
  let i := connect (create (DtlsV1_0, DtlsV1_2)) (Endpoint.of_u32 2130706433 80) true true true 1000 in
  (OpenSsl.ssl_init (derived := derived silent) i TlsClient.new_ssl).1.
Definition get (m : outcome client) : client := match m with Ret i => i | Fault _ => ready end.
Definition waiting : client := get (OpenSsl.do_handshake (derived := derived silent) 0 ready).
Definition established : client := get (on_udp_data silent 0 waiting [1] (Error_of_status OK)).

Lemma ready_fresh : OpenSsl.fresh (impl ready).
Proof. split_and!; [by eexists|by eexists|done|done|done|exact OpenSsl.created_buffers]. Qed.

Lemma dtls_established_run : rtc (step silent) ready established.
Proof.
  apply (rtc_l _ _ waiting); [apply (step_handshake _ _ _ 0); [done|vm_compute; reflexivity]|]. apply rtc_once.
  apply (step_data _ _ _ 0 [1] (Error_of_status OK)); [cbn; lia|vm_compute; reflexivity].
Qed.

Lemma dtls_connect_answered_witness :
  count is_success established = 1%nat /\ returns (on_udp_close silent waiting (Error_of_uv 0)) (fun i => (1 <= count is_answer i)%nat).
Proof.
  destruct (dtls_connect_answered silent silent_ok ready established ready_fresh eq_refl eq_refl dtls_established_run) as [H _]. split; [etransitivity; [exact H|vm_compute; reflexivity]|].
  apply (dtls_connect_answered silent silent_ok ready waiting ready_fresh eq_refl eq_refl).
  apply rtc_once, (step_handshake _ _ _ 0); [done|vm_compute; reflexivity].
Defined.

(** A packet that gets lost: the connect is refused after the timeout. *)
Example timeout_refuses : calls (get (on_udp_close silent waiting (Error_of_uv 0))) = [ConnectCalled (Error_of_status CONNECTION_REFUSED)].
Proof. vm_compute. reflexivity. Qed.

End Examples.

End DtlsClient.
