(* ===== verification/DtlsServer.v ===== *)
(** * DtlsServer and DtlsConnectedClient

    [source/io/net/DtlsServer.cpp] and [source/io/net/DtlsConnectedClient.cpp]: a DTLS server over a UDP server that keeps track of its peers.

    The objects are numbered: a peer is a [UdpPeer] with its user data, and a client is a [DtlsConnectedClient].  A client derives from [OpenSslClientImplBase], which is
    [OpenSsl]; the state that the functions of the base work on is the whole server, seen from one client ([focus]).  The callbacks of the UDP server
    are [on_new_peer], [on_data_receive] and [on_timeout]; [on_peer_removed] is the callback that [on_new_peer] registers with the peer. *)

From S2P Require Import Prelude StatusCode Inet Endpoint TcpStream SslContext OpenSsl TlsClient TlsServer DtlsClient.
Local Open Scope outcome_scope.
Local Open Scope record_scope.

Module DtlsServer.
Import TcpStream(DataChunk, mkChunk, buf, size, offset).
Import SslContext.
Import TlsServer(Call, NewConnection, DataReceived, ConnectionClosed, SendCalled, ServerClosed, Material, certificate_file, private_key_file, X509_verify, context).
Import DtlsClient(SSL3_AD_CLOSE_NOTIFY).

(** The callback of [close]: the user's, or the one of [schedule_removal]. *)
Inductive CloseCallback := TellUser | RemoveAgain.

Section Server.
Context {uv : UvErrno} {S C : Type} {ssl : OpenSsl.Ssl S} {transport : OpenSsl.Transport C} {datagrams : DtlsClient.Datagrams C} {opts : SslOptions}.

(** [DtlsConnectedClient::Impl]; the number of its peer stands for [m_client]. *)
Record Client := mkClient {
  impl : OpenSsl.t (S := S) (C := C);
  peer : nat;
  client_data_receive_callback : bool;
  client_new_connection_callback : bool;
  client_close_callback : bool
}.

#[global] Instance client_settable : Settable Client := settable! mkClient < impl; peer; client_data_receive_callback; client_new_connection_callback; client_close_callback >.

Record t := mk {
  m_new_connection_callback : bool;
  m_data_receive_callback : bool;
  m_connection_close_callback : bool;
  m_close_server_callback : option CloseCallback;
  m_version_range : DtlsVersion * DtlsVersion;
  m_ssl_ctx : option Z;
  m_clients : gset nat;
  (** How often the UDP server was told to close, and [Removable::schedule_removal] was called. *)
  udp_closes : nat;
  removals : nat;
  (** The [DtlsConnectedClient] objects. *)
  clients : gmap nat Client;
  next_client : nat;
  (** The [UdpPeer] objects with their user data, and those that have been closed. *)
  peers : gmap nat (option nat);
  closed_peers : gset nat;
  calls : list Call
}.

#[global] Instance t_settable : Settable t :=
  settable! mk < m_new_connection_callback; m_data_receive_callback; m_connection_close_callback; m_close_server_callback; m_version_range; m_ssl_ctx; m_clients; udp_closes;
                 removals; clients; next_client; peers; closed_peers; calls >.

Definition create (version_range : DtlsVersion * DtlsVersion) : t := mk false false false None version_range None ∅ 0 0 ∅ 0 ∅ ∅ [].

Definition connected_clients_count (s : t) : nat := base.size (m_clients s).
Definition remove_client (n : nat) (s : t) : t := s <| m_clients ::= fun l => l ∖ {[n]} |>.

(** ** User callbacks *)

Variable user : Call -> t -> outcome t.

Definition call (s : t) (c : Call) : outcome t := user c (s <| calls ::= fun l => l ++ [c] |>).

(** ** DtlsConnectedClient *)

Definition fresh_client : Client := mkClient (OpenSsl.create None) 0 false false false.
Definition get_client (n : nat) (s : t) : Client := default fresh_client (clients s !! n).
Definition on_client (n : nat) (f : Client -> Client) (s : t) : t := s <| clients ::= <[n := f (get_client n s)]> |>.

Definition call_close (n : nat) (s : t) (error : Error) : outcome t :=
  if client_close_callback (get_client n s) then call s (ConnectionClosed n error) else Ret s.

(** [m_client->close()]: [UdpPeer::close]. *)
Definition close_peer (n : nat) (s : t) : t :=
  let s := on_client n (fun c => c <| impl ::= fun b => b <| OpenSsl.m_client ::= fmap DtlsClient.client_close |> |>) s in
  s <| closed_peers ::= fun l => {[peer (get_client n s)]} ∪ l |>.

(** The server seen from one client. *)
#[local] Program Instance focus (n : nat) : OpenSsl.Derived (S := S) (C := C) t := {
  base s := impl (get_client n s);
  set_base s b := on_client n (fun c => c <| impl := b |>) s;
  ssl_set_state := OpenSsl.SSL_set_accept_state;
  on_ssl_read s chunk data error := if client_data_receive_callback (get_client n s) then call s (DataReceived n chunk data error) else Ret s;
  on_handshake_complete s := if client_new_connection_callback (get_client n s) then call s (NewConnection n (Error_of_uv 0)) else Ret s;
  on_handshake_failed s _ error := if client_new_connection_callback (get_client n s) then call s (NewConnection n error) else Ret s;
  on_alert s code := if code =? SSL3_AD_CLOSE_NOTIFY then call_close n (remove_client n s) (Error_of_uv 0) else Ret s;
  on_end_send s send error := call s (SendCalled n send error);
  on_shutdown_sent s _ := let* s := call_close n s (Error_of_uv 0) in Ret (close_peer n s)
}.
Next Obligation. intros n s b. unfold get_client, on_client. cbn. by rewrite lookup_insert_eq. Qed.

Definition client_on_data_receive (fuel : nat) (n : nat) (s : t) (data : list Z) (error : Error) : outcome t :=
  if error_bool error then
    if client_data_receive_callback (get_client n s) then call s (DataReceived n (mkChunk None 0 0) [] error) else Ret s
  else OpenSsl.on_data_receive (derived := focus n) fuel s data.

Definition client_close (fuel : nat) (n : nat) (s : t) : outcome t :=
  if negb (OpenSsl.is_open (impl (get_client n s))) then Ret s
  else
    let* (s, error) := OpenSsl.ssl_shutdown (derived := focus n) fuel s in
    let s := remove_client n s in
    if error_bool error then call_close n s error else Ret s.

(** ** DtlsServer: the callbacks of the UDP server *)

Definition delete_client (n : nat) (s : t) : t := s <| clients ::= delete n |>.

(** [new DtlsConnectedClient(...)], whose constructor sets the user data of the peer. *)
Definition new_client (p : nat) (udp : C) (s : t) : nat * t :=
  let n := next_client s in
  (n, s <| next_client ::= Datatypes.S |>
        <| clients ::= <[n := mkClient (OpenSsl.create (Some udp)) p false (m_new_connection_callback s) (m_connection_close_callback s)]> |>
        <| peers ::= <[p := Some n]> |>).

(** The constructor for objects that only report an error: no callbacks, and the user data is left alone. *)
Definition temporary_client (p : nat) (udp : C) (s : t) : nat * t :=
  let n := next_client s in
  (n, s <| next_client ::= Datatypes.S |> <| clients ::= <[n := mkClient (OpenSsl.create (Some udp)) p false false false]> |>).

Definition on_new_peer (s : t) (p : nat) (udp : C) (error : Error) (a : OpenSsl.NewSsl S) : outcome t :=
  if error_bool error then
    if m_new_connection_callback s then
      let '(n, s) := temporary_client p udp s in
      let* s := call s (NewConnection n error) in
      Ret (delete_client n s)
    else Ret s
  else
    let '(n, s) := new_client p udp s in
    let s := s <| m_clients ::= fun l => {[n]} ∪ l |> in
    let '(s, init_error) := OpenSsl.ssl_init (derived := focus n) s a in
    if negb (error_bool init_error) then Ret (on_client n (fun cl => cl <| client_data_receive_callback := m_data_receive_callback s |>) s)
    else if m_new_connection_callback s then call s (NewConnection n init_error) else Ret s.

(** The peer is removed: the callback of [set_on_schedule_removal] deletes its client. *)
Definition on_peer_removed (s : t) (p : nat) : t :=
  let s := match peers s !! p with Some (Some n) => delete_client n s | _ => s end in
  s <| peers ::= delete p |>.

(** The client that the user data of a peer points to. *)
Definition client_of (s : t) (p : nat) : outcome nat :=
  match peers s !! p with
  | None => Fault UseAfterFree
  | Some None => Fault NullDeref
  | Some (Some n) => match clients s !! n with Some _ => Ret n | None => Fault UseAfterFree end
  end.

Definition on_data_receive (fuel : nat) (s : t) (p : nat) (data : list Z) (error : Error) : outcome t :=
  let* n := client_of s p in client_on_data_receive fuel n s data error.

(** A packet that could not be received comes with a peer of its own, without user data. *)
Definition on_receive_error (fuel : nat) (s : t) (p : nat) (error : Error) : outcome t :=
  on_data_receive fuel (s <| peers ::= <[p := None]> |>) p [] error.

Definition on_timeout (fuel : nat) (s : t) (p : nat) : outcome t :=
  let* n := client_of s p in client_close fuel n s.

(** ** Listening and closing *)

Definition certificate_and_key_match (m : Material) : bool := negb (X509_verify m =? 0).

Definition listen (s : t) (endpoint : Endpoint.t) (m : Material) (start_receive : Error) (ciphers : string)
    (new_connection_callback data_receive_callback close_callback : bool) : t * Error :=
  if bool_decide (Endpoint.m_type endpoint = Endpoint.UNDEFINED) then (s, Error_of_status INVALID_ARGUMENT)
  else
    let s := s <| m_new_connection_callback := new_connection_callback |> <| m_data_receive_callback := data_receive_callback |>
               <| m_connection_close_callback := close_callback |> in
    match certificate_file m with
    | None => (s, Error_of_status TLS_CERTIFICATE_FILE_NOT_EXIST)
    | Some false => (s, Error_of_status TLS_CERTIFICATE_INVALID)
    | Some true =>
        match private_key_file m with
        | None => (s, Error_of_status TLS_PRIVATE_KEY_FILE_NOT_EXIST)
        | Some false => (s, Error_of_status TLS_PRIVATE_KEY_INVALID)
        | Some true =>
            if negb (certificate_and_key_match m) then (s, Error_of_status TLS_PRIVATE_KEY_AND_CERTIFICATE_NOT_MATCH)
            else
              let '(ctx, context_init_error) := init_ssl_context (context m) ciphers in
              let s := s <| m_ssl_ctx := ctx |> in
              if error_bool context_init_error then (s, context_init_error)
              else
                let '(ctx, version_error) := set_dtls_version (default 0 ctx) (fst (m_version_range s)) (snd (m_version_range s)) in
                let s := s <| m_ssl_ctx := Some ctx |> in
                if error_bool version_error then (s, version_error)
                else
                  let certificate_error := ssl_init_certificate_and_key (context m) in
                  if error_bool certificate_error then (s, certificate_error) else (s, start_receive)
        end
    end.

(** The loop of [close] over the clients it has taken out of [m_clients]. *)
Fixpoint close_clients (fuel : nat) (s : t) (l : list nat) : outcome t :=
  match l with
  | [] => Ret s
  | n :: l =>
      match clients s !! n with
      | None => Fault UseAfterFree
      | Some _ => let* s := client_close fuel n s in close_clients fuel s l
      end
  end.

Definition close (fuel : nat) (s : t) (callback : option CloseCallback) : outcome t :=
  let l := elements (m_clients s) in
  let* s := close_clients fuel (s <| m_clients := ∅ |>) l in
  Ret (s <| m_close_server_callback := callback |> <| udp_closes ::= Datatypes.S |>).

(** [DtlsServer::schedule_removal] with [Impl::schedule_removal]. *)
Definition schedule_removal (fuel : nat) (s : t) : outcome t :=
  if bool_decide (m_clients s = ∅) then Ret (s <| removals ::= Datatypes.S |>)
  else close fuel s (Some RemoveAgain).

(** The UDP server has closed. *)
Definition on_udp_closed (fuel : nat) (s : t) (error : Error) : outcome t :=
  match m_close_server_callback s with
  | None => Ret s
  | Some TellUser => call s (ServerClosed error)
  | Some RemoveAgain => schedule_removal fuel s
  end.

End Server.

(** ** Clients and peers *)

Section Facts.
Context {uv : UvErrno} {S C : Type} {ssl : OpenSsl.Ssl S} {transport : OpenSsl.Transport C} {datagrams : DtlsClient.Datagrams C} {opts : SslOptions}.
Abbreviation t := (t (S := S) (C := C)).
Variable user : Call -> t -> outcome t.
Implicit Types (s : t) (n p : nat).

(** The end of a client: its closing has been reported, its closing message is under way, or its peer has been closed. *)
Definition reported n s : Prop := exists e, ConnectionClosed n e ∈ calls s.
Definition going n s : Prop := exists cl, clients s !! n = Some cl /\ (peer cl ∈ closed_peers s \/ OpenSsl.ShutdownSent ∈ OpenSsl.sends (impl cl)).
Definition ended n s : Prop := reported n s \/ going n s.

(** No two clients share a peer; and the clients that have ended are not counted, but for those in [X]. *)
Record tidy (X : gset nat) s : Prop := {
  tidy_peers n m cl cl' : clients s !! n = Some cl -> clients s !! m = Some cl' -> peer cl = peer cl' -> n = m;
  tidy_ended n : n ∉ X -> ended n s -> n ∉ m_clients s
}.

(** What user code and the functions of the clients leave alone: which objects there are; that no client comes into [m_clients]; that the clients that have ended are not counted,
    but for those in [Y]; and that none is counted when the UDP server has been told to close. *)
Record frame (Y : gset nat) s s' : Prop := {
  fr_peers : peers s' = peers s;
  fr_clients n : is_Some (clients s' !! n) <-> is_Some (clients s !! n);
  fr_peer n cl : clients s !! n = Some cl -> exists cl', clients s' !! n = Some cl' /\ peer cl' = peer cl;
  fr_next : (next_client s <= next_client s')%nat;
  fr_members : m_clients s' ⊆ m_clients s;
  fr_closes : (udp_closes s <= udp_closes s')%nat;
  fr_closing : udp_closes s' <> udp_closes s -> m_clients s' = ∅;
  fr_reported n : reported n s' -> reported n s \/ is_Some (clients s !! n) \/ (next_client s <= n < next_client s')%nat;
  fr_tidy X : Y ⊆ X -> tidy X s -> tidy X s'
}.

#[global] Instance frame_reflexive Y : Reflexive (frame Y).
Proof. intros s. split; try done; [intros n cl Hn; by exists cl|by left]. Qed.

#[global] Instance frame_transitive Y : Transitive (frame Y).
Proof.
  intros s1 s2 s3 [A1 A2 A3 A4 A5 A6 A7 A8 A9] [B1 B2 B3 B4 B5 B6 B7 B8 B9]. split; [congruence| | |lia|by etransitivity|lia| | |auto].
  - intros n. by rewrite B2.
  - intros n cl Hn. destruct (A3 n cl Hn) as (cl1 & H1 & E1). destruct (B3 n cl1 H1) as (cl2 & H2 & E2). exists cl2. split; [done|congruence].
  - intros Hne. destruct (decide (udp_closes s3 = udp_closes s2)) as [E|E]; [|by apply B7]. assert (m_clients s2 = ∅) by (apply A7; congruence). set_solver.
  - intros n Hn. destruct (B8 n Hn) as [H|[H|H]]; [|right; left; by apply A2|right; right; lia]. destruct (A8 n H) as [H'|[H'|H']]; [by left|right; by left|right; right; lia].
Qed.

Lemma frame_weaken Y Y' s s' : Y ⊆ Y' -> frame Y s s' -> frame Y' s s'.
Proof. intros HY [A1 A2 A3 A4 A5 A6 A7 A8 A9]. split; try done. intros X HX. apply A9. by etransitivity. Qed.

(** A client that is not counted needs no exception. *)
Lemma frame_settled n s s' : frame {[n]} s s' -> n ∉ m_clients s' -> frame ∅ s s'.
Proof.
  intros [A1 A2 A3 A4 A5 A6 A7 A8 A9] Hn. split; try done. intros X _ Ht. destruct (A9 ({[n]} ∪ X)) as [B1 B2]; [set_solver| |].
  - destruct Ht as [H1 H2]. split; [done|]. intros m Hm. apply H2. set_solver.
  - split; [done|]. intros m Hm He. destruct (decide (m = n)) as [->|Hne]; [done|]. apply B2; [set_solver|done].
Qed.

(** Changes of other members. *)
Lemma frame_fields s s' : clients s' = clients s -> peers s' = peers s -> next_client s' = next_client s -> closed_peers s' = closed_peers s -> calls s' = calls s ->
  udp_closes s' = udp_closes s -> m_clients s' ⊆ m_clients s -> frame ∅ s s'.
Proof.
  intros E1 E2 E3 E4 E5 E6 E7. split; unfold reported; rewrite ?E1, ?E2, ?E3, ?E5, ?E6; try done; [intros n cl Hn; by exists cl|by left|].
  intros X _ [H1 H2]. split; [by rewrite E1|]. intros n Hn He Hm. apply E7 in Hm. apply (H2 n Hn); [|done]. unfold ended, reported, going in *. by rewrite E1, E4, E5 in He.
Qed.

(** A call of a user callback is logged: a client whose end is reported is not counted, or excepted. *)
Definition reports (Y : gset nat) s (c : Call) : Prop := match c with ConnectionClosed n _ => is_Some (clients s !! n) /\ (n ∈ Y \/ n ∉ m_clients s) | _ => True end.

Lemma frame_log_call Y s c : reports Y s c -> frame Y s (s <| calls ::= fun l => l ++ [c] |>).
Proof.
  intros Hc. split; try done; [intros n cl Hn; by exists cl| |].
  - intros n [e He]. apply elem_of_app in He as [He|He%list_elem_of_singleton]; [left; by exists e|]. subst c. right. left. apply Hc.
  - intros X HX [H1 H2]. split; [done|]. intros n Hn [[e He]|Hg]; [|by apply H2; [done|right]]. apply elem_of_app in He as [He|He%list_elem_of_singleton]; [apply H2; [done|left; by exists e]|].
    subst c. destruct Hc as [_ [Hc|Hc]]; [set_solver|done].
Qed.

Hypothesis user_frame : forall e s s', user e s = Ret s' -> frame ∅ s s'.

Lemma frame_user_call Y s e s' : call user s e = Ret s' -> reports Y s e -> frame Y s s'.
Proof. intros H He. etransitivity; [by apply frame_log_call|]. apply (frame_weaken ∅); [apply empty_subseteq|]. by apply (user_frame e). Qed.

Lemma frame_user_maybe Y (b : bool) s e s' : (if b then call user s e else Ret s) = Ret s' -> reports Y s e -> frame Y s s'.
Proof. destruct b; [apply frame_user_call|by intros [= <-] _]. Qed.

Lemma frame_remove Y n s : frame Y s (remove_client n s).
Proof. apply (frame_weaken ∅); [apply empty_subseteq|]. apply frame_fields; [done..|]. apply subseteq_difference_l. done. Qed.

Lemma remove_client_gone n s : n ∉ m_clients (remove_client n s).
Proof. unfold remove_client. cbn. set_solver. Qed.

(** The object of one client changes; a new closing message needs an exception. *)
Lemma frame_update Y n f s : (forall cl, peer (f cl) = peer cl) -> (n ∈ Y \/ forall cl, OpenSsl.ShutdownSent ∈ OpenSsl.sends (impl (f cl)) -> OpenSsl.ShutdownSent ∈ OpenSsl.sends (impl cl)) ->
  is_Some (clients s !! n) -> frame Y s (on_client n f s).
Proof.
  intros Hf Hs [cl Hn]. unfold on_client, get_client. rewrite Hn. cbn. split; try done; cbn; [| |by left|].
  - intros m. destruct (decide (m = n)) as [->|Hne]; [rewrite lookup_insert_eq, Hn; by split; eexists|by rewrite lookup_insert_ne].
  - intros m cl' Hm. destruct (decide (m = n)) as [->|Hne]; [rewrite lookup_insert_eq|rewrite lookup_insert_ne by done; by exists cl'].
    eexists. split; [done|]. rewrite Hf. congruence.
  - assert (forall m cl', <[n := f cl]> (clients s) !! m = Some cl' -> exists cl0, clients s !! m = Some cl0 /\ peer cl' = peer cl0 /\ (cl' = cl0 \/ m = n /\ cl' = f cl0)) as Hback.
    { intros m cl'. rewrite lookup_insert_Some. intros [[<- <-]|[Hne Hm]]; [exists cl; rewrite Hf; auto|exists cl'; auto]. }
    intros X HX [H1 H2]. split; cbn.
    + intros m m' c c' Hm Hm' E. apply Hback in Hm as (c1 & Hm & E1 & _). apply Hback in Hm' as (c2 & Hm' & E2 & _). eapply H1; [exact Hm|exact Hm'|congruence].
    + intros m Hm [Hr|(c & Hc & Hg)]; [apply H2; [done|by left]|]. apply Hback in Hc as (c0 & Hc0 & Ep & E). apply H2; [done|]. right. exists c0. split; [done|]. rewrite <- Ep.
      destruct Hg as [Hg|Hg]; [by left|right]. destruct E as [->|[-> ->]]; [done|]. destruct Hs as [Hs|Hs]; [set_solver|by apply Hs].
Qed.

Lemma frame_close_peer n s : is_Some (clients s !! n) -> frame {[n]} s (close_peer n s).
Proof.
  intros Hn. unfold close_peer. set (s1 := on_client n _ s). assert (frame {[n]} s s1) as F1 by (apply frame_update; [done|set_solver|done]).
  etransitivity; [exact F1|]. assert (is_Some (clients s1 !! n)) as [cl Hcl] by (by apply (fr_clients _ _ _ F1)). clearbody s1. clear F1 Hn s.
  unfold get_client. rewrite Hcl. cbn [default]. split; try done; [intros m c Hm; by exists c|by left|].
  intros X HX [H1 H2]. split; [done|]. intros m Hm [Hr|(c & Hc & [Hg|Hg])]; [apply H2; [done|by left]| |apply H2; [done|right; exists c; auto]].
  change (peer c ∈ {[peer cl]} ∪ closed_peers s1) in Hg. apply elem_of_union in Hg as [Hg%elem_of_singleton|Hg].
  - assert (m = n) as -> by (by eapply H1). set_solver.
  - apply H2; [done|]. right. exists c. auto.
Qed.

(** The state during the functions of a client, compared with a state before; [shut]: the client is being closed. *)
Definition exempt (shut : bool) n : gset nat := if shut then {[n]} else ∅.
Definition within (shut : bool) (s0 : t) n s : Prop := frame (exempt shut n) s0 s /\ is_Some (clients s !! n).

Lemma within_start shut s n : is_Some (clients s !! n) -> within shut s n s.
Proof. by split. Qed.

Lemma within_step shut s0 n s s' : within shut s0 n s -> frame (exempt shut n) s s' -> within shut s0 n s'.
Proof. intros [H1 H2] F. split; [by etransitivity|by apply (fr_clients _ _ _ F)]. Qed.

Lemma within_on_base shut s0 n f s : (shut = false -> OpenSsl.mute f) -> within shut s0 n s -> within shut s0 n (OpenSsl.on_base (derived := focus user n) f s).
Proof.
  intros Hf Hs. eapply within_step; [exact Hs|].
  assert (OpenSsl.on_base (derived := focus user n) f s = on_client n (fun cl : Client => cl <| impl ::= f |>) s) as ->.
  { cbn. unfold on_client. reflexivity. }
  apply frame_update; [done| |apply Hs]. destruct shut; [left; cbn; set_solver|right]. intros cl. cbn. by apply Hf.
Qed.

Lemma complete_hook_within shut s0 n s s' : within shut s0 n s -> OpenSsl.on_handshake_complete (Derived := focus user n) s = Ret s' -> within shut s0 n s'.
Proof. intros Hs H. cbn in H. eapply within_step; [exact Hs|]. by eapply frame_user_maybe. Qed.

Lemma dtls_hooks_keep shut s0 n : OpenSsl.hooks_keep (derived := focus user n) (within shut s0 n) shut.
Proof.
  split; cbn.
  - intros f s _ Hf Hs. by apply within_on_base.
  - intros s c d e s' Hs H. eapply within_step; [exact Hs|]. by eapply frame_user_maybe.
  - intros s s' Hs H. change (OpenSsl.on_handshake_complete (Derived := focus user n) (OpenSsl.log (derived := focus user n)
      (OpenSsl.on_base (derived := focus user n) (fun b => b <| OpenSsl.m_ssl_handshake_state := OpenSsl.FINISHED |>) s) OpenSsl.HandshakeComplete) = Ret s') in H.
    eapply complete_hook_within; [|exact H]. do 2 (apply within_on_base; [by intros _ b|]). exact Hs.
  - intros s z e s' _ Hs H. eapply within_step; [exact Hs|]. by eapply frame_user_maybe.
  - intros s z s' Hs H. eapply within_step; [exact Hs|]. destruct (z =? _); [|by injection H as <-]. etransitivity; [apply (frame_remove _ n)|].
    eapply frame_user_maybe; [exact H|]. split; [apply Hs|right; apply remove_client_gone].
  - intros s m e s' Hs H. eapply within_step; [exact Hs|]. by eapply frame_user_call.
  - intros s e s' -> Hs H. apply obind_ret_inv in H as (s1 & H1 & [= <-]). assert (frame {[n]} s s1) as F1.
    { eapply frame_user_maybe; [exact H1|]. split; [apply Hs|left; set_solver]. }
    eapply within_step; [exact Hs|]. etransitivity; [exact F1|]. apply frame_close_peer. apply (fr_clients _ _ _ F1), Hs.
Qed.

(** Closing an open client takes it out of [m_clients]. *)
Lemma client_close_leaves fuel n s s' : is_Some (clients s !! n) -> client_close user fuel n s = Ret s' ->
  frame ∅ s s' /\ (OpenSsl.is_open (impl (get_client n s)) = true -> n ∉ m_clients s').
Proof.
  intros Hn H. unfold client_close in H. destruct (OpenSsl.is_open _); cbn [negb] in H; [|by injection H as <-]. apply obind_ret_inv in H as ([s1 e] & H1 & H).
  pose proof (OpenSsl.kept_shutdown _ _ (dtls_hooks_keep true s n) fuel s s1 e eq_refl (within_start true s n Hn) H1) as [F A]. cbn [exempt] in F.
  assert (frame ∅ s (remove_client n s1)) as F1. { apply (frame_settled n); [|apply remove_client_gone]. etransitivity; [exact F|apply frame_remove]. }
  assert (frame ∅ (remove_client n s1) s') as F2.
  { destruct (error_bool e); [|by injection H as <-]. eapply frame_user_maybe; [exact H|]. split; [exact A|right; apply remove_client_gone]. }
  split; [by etransitivity|]. intros _ Hin. apply (fr_members _ _ _ F2) in Hin. by apply remove_client_gone in Hin.
Qed.

Lemma frame_close_clients fuel l s s' : close_clients user fuel s l = Ret s' -> frame ∅ s s'.
Proof.
  revert s. induction l as [|n l IH]; intros s H; cbn in H; [by injection H as <-|]. destruct (clients s !! n) eqn:E; [|done]. apply obind_ret_inv in H as (s1 & H1 & H).
  etransitivity; [eapply client_close_leaves; [by eexists|exact H1]|by apply IH].
Qed.

Lemma close_counts_none fuel s cb s' : close user fuel s cb = Ret s' -> m_clients s' = ∅.
Proof. intros H. unfold close in H. apply obind_ret_inv in H as (s1 & H1 & [= <-]). apply frame_close_clients, fr_members in H1. cbn in *. set_solver. Qed.

Lemma frame_dtls_close fuel s cb s' : close user fuel s cb = Ret s' -> frame ∅ s s'.
Proof.
  intros H. apply close_counts_none in H as Hm. unfold close in H. apply obind_ret_inv in H as (s1 & H1 & [= <-]). apply frame_close_clients in H1. etransitivity; [|etransitivity; [exact H1|]].
  - apply frame_fields; [done..|]. apply empty_subseteq.
  - cbn in Hm. split; try done; cbn; [intros n cl Hn; by exists cl|lia|by left|]. intros X _ [T1 T2]. by split.
Qed.

Lemma frame_dtls_removal fuel s s' : schedule_removal user fuel s = Ret s' -> frame ∅ s s'.
Proof. unfold schedule_removal. destruct (bool_decide _); [intros [= <-]; by apply frame_fields|apply frame_dtls_close]. Qed.

Lemma frame_dtls_listen s endpoint m sr ciphers nc dr cc s' e : listen s endpoint m sr ciphers nc dr cc = (s', e) -> frame ∅ s s'.
Proof.
  unfold listen. destruct (bool_decide _); [by intros [= <- _]|].
  destruct (certificate_file m) as [[|]|]; [|by intros [= <- _]; apply frame_fields..]. destruct (private_key_file m) as [[|]|]; [|by intros [= <- _]; apply frame_fields..].
  destruct (negb _); [by intros [= <- _]; apply frame_fields|]. destruct (init_ssl_context _ _) as [ctx e1]. destruct (error_bool e1); [by intros [= <- _]; apply frame_fields|].
  destruct (set_dtls_version _ _ _) as [ctx2 e2]. destruct (error_bool e2); [by intros [= <- _]; apply frame_fields|].
  destruct (error_bool (ssl_init_certificate_and_key _)); by intros [= <- _]; apply frame_fields.
Qed.

(** Each peer has its client and each client its peer; the clients that have ended are not counted. *)
Record inv s : Prop := {
  inv_alive p n : peers s !! p = Some (Some n) -> exists cl, clients s !! n = Some cl /\ peer cl = p;
  inv_user_data p : peers s !! p <> Some None;
  inv_owner n cl : clients s !! n = Some cl -> peers s !! peer cl = Some (Some n);
  inv_next n : is_Some (clients s !! n) -> (n < next_client s)%nat;
  inv_reported n : reported n s -> (n < next_client s)%nat;
  inv_tidy : tidy ∅ s
}.

Lemma inv_created range : inv (create range).
Proof.
  split; [done|done|done|by intros n [cl Hcl]|by intros n [e He%elem_of_nil]|]. split; [done|]. intros n _ _. apply not_elem_of_empty.
Qed.

Lemma dtls_inv_frame s s' : inv s -> frame ∅ s s' -> inv s'.
Proof.
  intros [H1 H2 H3 H4 H5 H6] [A1 A2 A3 A4 A5 A6 A7 A8 A9]. split.
  - intros p n. rewrite A1. intros Hp. destruct (H1 p n Hp) as (cl & Hn & E). destruct (A3 n cl Hn) as (cl' & Hn' & E'). exists cl'. split; [done|congruence].
  - by rewrite A1.
  - intros n cl' Hn'. rewrite A1. destruct (proj1 (A2 n) (ex_intro _ cl' Hn')) as [cl Hn]. destruct (A3 n cl Hn) as (cl2 & Hn2 & E2). rewrite Hn' in Hn2. injection Hn2 as <-.
    rewrite E2. by apply H3.
  - intros n. rewrite A2. intros Hn. apply H4 in Hn. lia.
  - intros n Hn. destruct (A8 n Hn) as [H|[H|H]]; [apply H5 in H; lia|apply H4 in H; lia|lia].
  - by apply A9.
Qed.

Lemma no_next_client s : inv s -> clients s !! next_client s = None.
Proof. intros Hi. apply eq_None_not_Some. intros Hs. apply (inv_next _ Hi) in Hs. lia. Qed.

(** A client with a new number and a new peer has not ended. *)
Lemma tidy_add X M s s' p cl : inv s -> peers s !! p = None -> p ∉ closed_peers s -> peer cl = p -> OpenSsl.sends (impl cl) = [] ->
  clients s' = <[next_client s := cl]> (clients s) -> closed_peers s' = closed_peers s -> calls s' = calls s -> m_clients s' = M -> M ⊆ {[next_client s]} ∪ m_clients s ->
  tidy X s -> tidy X s'.
Proof.
  intros Hi Hp Hc Ep Es E1 E2 E3 E4 HM [T1 T2]. assert (forall m c, clients s !! m = Some c -> peer c <> p) as Hne. { intros m c Hm E. apply (inv_owner _ Hi) in Hm. congruence. }
  split.
  - intros n m c c'. rewrite E1, !lookup_insert_Some. intros [[<- <-]|[_ Hn]] [[<- <-]|[_ Hm]] E; [done| | |by eapply T1]; exfalso.
    + apply (Hne m c' Hm). congruence.
    + apply (Hne n c Hn). congruence.
  - intros n HX He Hin. rewrite E4 in Hin. apply HM, elem_of_union in Hin as [->%elem_of_singleton|Hin].
    + destruct He as [Hr|(c & Hn & Hg)]; [unfold reported in Hr; rewrite E3 in Hr; apply (inv_reported _ Hi) in Hr; lia|]. rewrite E1, lookup_insert_eq in Hn. injection Hn as <-.
      rewrite E2, Ep, Es in Hg. destruct Hg as [?|Hg%elem_of_nil]; done.
    + destruct (decide (n = next_client s)) as [->|Hne'].
      * destruct He as [Hr|(c & Hn & Hg)]; [unfold reported in Hr; rewrite E3 in Hr; apply (inv_reported _ Hi) in Hr; lia|]. rewrite E1, lookup_insert_eq in Hn. injection Hn as <-.
        rewrite E2, Ep, Es in Hg. destruct Hg as [?|Hg%elem_of_nil]; done.
      * apply (T2 n HX); [|done]. destruct He as [Hr|(c & Hn & Hg)]; [left; unfold reported in *; by rewrite E3 in Hr|]. right. rewrite E1, lookup_insert_ne in Hn by done.
        rewrite E2 in Hg. by exists c.
Qed.

Lemma tidy_delete X n s s' : clients s' = delete n (clients s) -> closed_peers s' = closed_peers s -> calls s' = calls s -> m_clients s' = m_clients s -> tidy X s -> tidy X s'.
Proof.
  intros E1 E2 E3 E4 [T1 T2]. split.
  - intros m m' c1 c2. rewrite E1, !lookup_delete_Some. intros [_ Hm] [_ Hm']. by apply T1.
  - intros m Hm He. rewrite E4. apply T2; [done|]. destruct He as [Hr|(c1 & Hc & Hg)]; [left; unfold reported in *; by rewrite E3 in Hr|]. right.
    rewrite E1 in Hc. apply lookup_delete_Some in Hc as [_ Hc]. rewrite E2 in Hg. by exists c1.
Qed.

Lemma inv_new p udp s : inv s -> peers s !! p = None -> p ∉ closed_peers s ->
  let '(n, s') := new_client p udp s in inv (s' <| m_clients ::= fun l => {[n]} ∪ l |>) /\ is_Some (clients s' !! n).
Proof.
  intros Hi Hp Hc. pose proof (no_next_client s Hi) as Hn. pose proof Hi as [H1 H2 H3 H4 H5 H6]. unfold new_client. split; [split|]; cbn.
  - intros p' n. destruct (decide (p' = p)) as [->|Hne].
    + rewrite lookup_insert_eq. intros [= <-]. rewrite lookup_insert_eq. by eexists.
    + rewrite lookup_insert_ne by done. intros Hp'. destruct (H1 p' n Hp') as (cl & Hcl & E). exists cl. rewrite lookup_insert_ne; [done|]. intros Eq. congruence.
  - intros p'. destruct (decide (p' = p)) as [->|Hne]; [by rewrite lookup_insert_eq|by rewrite lookup_insert_ne].
  - intros n cl. destruct (decide (n = next_client s)) as [->|Hne].
    + rewrite lookup_insert_eq. intros [= <-]. cbn. by rewrite lookup_insert_eq.
    + rewrite lookup_insert_ne by done. intros Hcl. apply H3 in Hcl. rewrite lookup_insert_ne; [done|]. intros Eq. congruence.
  - intros n. destruct (decide (n = next_client s)) as [->|Hne]; [lia|]. rewrite lookup_insert_ne by done. intros Hs. apply H4 in Hs. lia.
  - intros n Hr. assert (n < next_client s)%nat by (by apply H5). lia.
  - by eapply (tidy_add ∅ _ s _ p (mkClient (OpenSsl.create (Some udp)) p false (m_new_connection_callback s) (m_connection_close_callback s))).
  - rewrite lookup_insert_eq. by eexists.
Qed.

(** A client that only reports an error leaves no trace. *)
Lemma frame_temporary p udp s c s1 s2 n : inv s -> peers s !! p = None -> p ∉ closed_peers s -> reports ∅ s1 c ->
  temporary_client p udp s = (n, s1) -> call user s1 c = Ret s2 -> frame ∅ s (delete_client n s2).
Proof.
  intros Hi Hp Hcp Hrep [= <- <-] H. set (cl := mkClient (OpenSsl.create (Some udp)) p false false false) in *. apply (frame_user_call ∅) in H as F; [|done].
  destruct F as [A1 A2 A3 A4 A5 A6 A7 A8 A9]. cbn in A1, A2, A3, A4, A5, A6, A7, A8. pose proof (no_next_client s Hi) as Hn. split; cbn; [done| | |lia|done|done|done| |].
  - intros m. destruct (decide (m = next_client s)) as [->|Hne]; [by rewrite lookup_delete_eq, Hn|]. by rewrite lookup_delete_ne, A2, lookup_insert_ne.
  - intros m cl0 Hm. assert (m <> next_client s) by (intros ->; congruence). destruct (A3 m cl0) as (cl' & Hm' & E); [by rewrite lookup_insert_ne|].
    exists cl'. by rewrite lookup_delete_ne.
  - intros m Hr. destruct (A8 m Hr) as [H'|[H'|H']]; [by left| |right; right; lia]. destruct (decide (m = next_client s)) as [->|Hne]; [right; right; lia|].
    rewrite lookup_insert_ne in H' by done. right. by left.
  - intros X HX Ht. assert (tidy X (s <| next_client ::= Datatypes.S |> <| clients ::= <[next_client s := cl]> |>)) as Ht1.
    { apply (tidy_add X (m_clients s) s _ p cl); try done. set_solver. }
    apply A9 in Ht1; [|done]. by apply (tidy_delete X (next_client s) s2).
Qed.

Lemma inv_on_peer_removed s p n : inv s -> peers s !! p = Some (Some n) -> inv (on_peer_removed s p).
Proof.
  intros [H1 H2 H3 H4 H5 H6] Hp. unfold on_peer_removed. rewrite Hp. destruct (H1 p n Hp) as (cl & Hn & E). split; cbn.
  - intros p' m. rewrite lookup_delete_Some. intros [Hne Hp']. destruct (H1 p' m Hp') as (cl' & Hm' & E'). exists cl'. rewrite lookup_delete_ne; [done|]. intros Eq. congruence.
  - intros p'. rewrite lookup_delete_Some. intros [_ H]. by apply H2 in H.
  - intros m cl'. rewrite lookup_delete_Some. intros [Hne Hm']. apply H3 in Hm'. rewrite lookup_delete_ne; [done|]. intros Eq. congruence.
  - intros m [cl' Hm']. apply lookup_delete_Some in Hm' as [_ Hm']. apply H4. by eexists.
  - done.
  - by apply (tidy_delete ∅ n s).
Qed.

Lemma client_of_inv s p n : client_of s p = Ret n -> peers s !! p = Some (Some n) /\ is_Some (clients s !! n).
Proof. unfold client_of. destruct (peers s !! p) as [[m|]|]; try done. destruct (clients s !! m) eqn:E; [|done]. intros [= <-]. split; [done|by eexists]. Qed.

Lemma frame_client_data fuel n s data e s' : is_Some (clients s !! n) -> client_on_data_receive user fuel n s data e = Ret s' -> frame ∅ s s'.
Proof.
  intros Hn H. unfold client_on_data_receive in H. destruct (error_bool e); [by eapply frame_user_maybe|].
  apply (OpenSsl.kept_on_data_receive (derived := focus user n) _ _ (dtls_hooks_keep false s n) fuel s data (within_start false s n Hn) s' H).
Qed.

Lemma frame_client_send fuel n s buffer size cb s' : is_Some (clients s !! n) -> OpenSsl.send_data_impl (derived := focus user n) fuel s buffer size cb = Ret s' -> frame ∅ s s'.
Proof. intros Hn H. apply (OpenSsl.kept_send_data (derived := focus user n) _ _ (dtls_hooks_keep false s n) fuel s buffer size cb (within_start false s n Hn) s' H). Qed.

(** The end of a send: the client of a closing message is not counted any longer. *)
Lemma frame_client_sent fuel n s k e s' : tidy ∅ s -> is_Some (clients s !! n) -> OpenSsl.on_sent (derived := focus user n) fuel s k e = Ret s' -> frame ∅ s s'.
Proof.
  intros Ht Hn H.
  assert (OpenSsl.sends (impl (get_client n s)) !! k = Some OpenSsl.ShutdownSent \/ OpenSsl.sends (impl (get_client n s)) !! k <> Some OpenSsl.ShutdownSent) as [Hk|Hk].
  { destruct (OpenSsl.sends _ !! k) as [[]|]; (by left) || by right. }
  - pose proof (OpenSsl.kept_on_sent (derived := focus user n) _ _ (dtls_hooks_keep true s n) fuel s k e (within_start true s n Hn) (fun _ => eq_refl) s' H) as [F _].
    apply (frame_settled n); [done|]. intros Hin. apply (fr_members _ _ _ F) in Hin. revert Hin. apply (tidy_ended _ _ Ht); [set_solver|]. right.
    destruct Hn as [cl Hn]. unfold get_client in Hk. rewrite Hn in Hk. exists cl. split; [done|right]. by apply list_elem_of_lookup_2 in Hk.
  - apply (OpenSsl.kept_on_sent (derived := focus user n) _ _ (dtls_hooks_keep false s n) fuel s k e (within_start false s n Hn) (fun E => False_ind _ (Hk E)) s' H).
Qed.

(** ** Runs

    What the UDP server keeps: whether it receives packets, and the peers that it has dropped, which are removed when nothing refers to them any longer: after their timeout, and when it has closed.
    The clients whose peer timed out before their handshake was finished are [abandoned]: [close] does nothing for them. *)
Record world := mkWorld { server : t; receiving : bool; dropped : gset nat; abandoned : gset nat }.

Definition after (w : world) s : world := mkWorld s (receiving w && bool_decide (udp_closes s = udp_closes (server w))) (dropped w) (abandoned w).
Definition expire p n (w w' : world) : world :=
  mkWorld (server w') (receiving w') ({[p]} ∪ dropped w') (if OpenSsl.is_open (impl (get_client n (server w))) then abandoned w' else {[n]} ∪ abandoned w').
Definition drop_all (w : world) : world := mkWorld (server w) (receiving w) (dom (peers (server w)) ∪ dropped w) (abandoned w).
Definition start : t -> world := fun s => mkWorld s false ∅ ∅.

(** What happens to a server: new peers while the UDP server receives, packets of known peers, their timeouts and their removal, callbacks of sends and of the end of the UDP server, and
    what user code does. *)
Inductive step (w : world) : world -> Prop :=
| step_new p udp e a s' : receiving w = true -> peers (server w) !! p = None -> p ∉ dropped w -> p ∉ closed_peers (server w) -> on_new_peer user (server w) p udp e a = Ret s' -> step w (after w s')
| step_data fuel p data e s' : is_Some (peers (server w) !! p) -> on_data_receive user fuel (server w) p data e = Ret s' -> step w (after w s')
| step_timeout fuel p n s' : peers (server w) !! p = Some (Some n) -> on_timeout user fuel (server w) p = Ret s' -> step w (expire p n w (after w s'))
| step_removed p : is_Some (peers (server w) !! p) -> p ∈ dropped w ∪ closed_peers (server w) -> step w (after w (on_peer_removed (server w) p))
| step_sent fuel n k e s' : is_Some (clients (server w) !! n) -> OpenSsl.on_sent (derived := focus user n) fuel (server w) k e = Ret s' -> step w (after w s')
| step_send fuel n buffer size cb s' : is_Some (clients (server w) !! n) -> OpenSsl.send_data_impl (derived := focus user n) fuel (server w) buffer size cb = Ret s' -> step w (after w s')
| step_client_close fuel n s' : is_Some (clients (server w) !! n) -> client_close user fuel n (server w) = Ret s' -> step w (after w s')
| step_listen endpoint m sr ciphers nc dr cc s' e : listen (server w) endpoint m sr ciphers nc dr cc = (s', e) ->
    step w (mkWorld s' (receiving w || negb (error_bool e)) (dropped w) (abandoned w))
| step_close fuel cb s' : close user fuel (server w) cb = Ret s' -> step w (after w s')
| step_schedule_removal fuel s' : schedule_removal user fuel (server w) = Ret s' -> step w (after w s')
| step_udp_closed fuel e s' : receiving w = false -> on_udp_closed user fuel (server w) e = Ret s' -> step w (drop_all (after w s')).

Record good (w : world) : Prop := {
  good_inv : inv (server w);
  good_members n : n ∈ m_clients (server w) -> is_Some (clients (server w) !! n) \/ n ∈ abandoned w;
  good_dropped p n : p ∈ dropped w -> peers (server w) !! p = Some (Some n) -> n ∈ m_clients (server w) -> n ∈ abandoned w;
  good_quiet : receiving w = false -> m_clients (server w) = ∅
}.

Lemma good_frame w s' : good w -> frame ∅ (server w) s' -> good (after w s').
Proof.
  intros [H1 H2 H3 H4] F. split; cbn.
  - by eapply dtls_inv_frame.
  - intros n Hn. rewrite (fr_clients _ _ _ F). by apply H2, (fr_members _ _ _ F).
  - intros p n Hp. rewrite (fr_peers _ _ _ F). intros Hn Hin. eapply H3; [done|done|]. by apply (fr_members _ _ _ F).
  - intros [Hr|Hr%bool_decide_eq_false]%andb_false_iff; [|by apply (fr_closing _ _ _ F)]. apply H4 in Hr. pose proof (fr_members _ _ _ F). set_solver.
Qed.

Lemma good_new_peer w p udp e a s' : good w -> receiving w = true -> peers (server w) !! p = None -> p ∉ dropped w -> p ∉ closed_peers (server w) ->
  on_new_peer user (server w) p udp e a = Ret s' -> good (after w s').
Proof.
  intros Hg Hr Hp Hd Hc H. pose proof (good_inv _ Hg) as Hi. unfold on_new_peer in H. destruct (error_bool e).
  - apply good_frame; [done|]. destruct (m_new_connection_callback _); [|by injection H as <-]. destruct (temporary_client _ _ _) as [n s1] eqn:E.
    apply obind_ret_inv in H as (s2 & H2 & [= <-]). eapply (frame_temporary _ _ _ (NewConnection n e)); [done..|exact E|exact H2].
  - pose proof (inv_new p udp (server w) Hi Hp Hc) as Hn. destruct (new_client p udp (server w)) as [n s1] eqn:E. destruct Hn as [Hi1 Hn]. set (s2 := s1 <| m_clients ::= _ |>) in *.
    assert (good (mkWorld s2 (receiving w) (dropped w) (abandoned w))) as Hg2.
    { injection E as <- <-. subst s2. split; cbn; [done| | |congruence].
      - intros m [->%elem_of_singleton|Hm]%elem_of_union; [left; rewrite lookup_insert_eq; by eexists|]. apply (good_members _ Hg) in Hm as [Hm|Hm]; [left|by right].
        destruct (decide (m = next_client (server w))) as [->|Hne]; [rewrite lookup_insert_eq; by eexists|by rewrite lookup_insert_ne].
      - intros p' m Hp' Hm. rewrite lookup_insert_ne in Hm by (intros ->; done). intros [->%elem_of_singleton|Hin]%elem_of_union; [|by eapply (good_dropped _ Hg)].
        destruct (inv_alive _ Hi _ _ Hm) as (cl & Hcl & _). rewrite (no_next_client _ Hi) in Hcl. done. }
    assert (udp_closes s2 = udp_closes (server w)) as Eu by (by injection E as <- <-). change (is_Some (clients s2 !! n)) in Hn. clearbody s2.
    destruct (OpenSsl.ssl_init s2 a) as [s3 e3] eqn:E3.
    assert (within false s2 n s3) as [F3 A3]. { eapply (OpenSsl.kept_ssl_init (derived := focus user n)); [apply dtls_hooks_keep| |exact E3]. by split. }
    assert (good (after (mkWorld s2 (receiving w) (dropped w) (abandoned w)) s')) as Hg3.
    { apply good_frame; [done|]. etransitivity; [exact F3|]. destruct (negb _); [injection H as <-; apply frame_update; [done|by right|done]|by eapply frame_user_maybe]. }
    unfold after in *. cbn in Hg3. by rewrite Eu in Hg3.
Qed.

Lemma good_timeout w fuel p n s' : good w -> peers (server w) !! p = Some (Some n) -> on_timeout user fuel (server w) p = Ret s' -> good (expire p n w (after w s')).
Proof.
  intros Hg Hp H. apply obind_ret_inv in H as (n' & Hn' & H). apply client_of_inv in Hn' as [Hp' Hn']. assert (n' = n) as -> by congruence. clear Hp'.
  apply client_close_leaves in H as [F Hl]; [|done]. pose proof (good_frame w s' Hg F) as [H1 H2 H3 H4]. split; [exact H1| | |exact H4]; unfold expire in *; cbn in *.
  - intros m Hm. destruct (H2 m Hm) as [H|H]; [by left|right]. destruct (OpenSsl.is_open _); set_solver.
  - intros p' m [->%elem_of_singleton|Hd]%elem_of_union Hm Hin.
    + rewrite (fr_peers _ _ _ F), Hp in Hm. injection Hm as ->. destruct (OpenSsl.is_open _); [by destruct (Hl eq_refl)|set_solver].
    + specialize (H3 p' m Hd Hm Hin). destruct (OpenSsl.is_open _); set_solver.
Qed.

Lemma good_removed w p : good w -> is_Some (peers (server w) !! p) -> p ∈ dropped w ∪ closed_peers (server w) -> good (after w (on_peer_removed (server w) p)).
Proof.
  intros Hg [o Hp] Hd. pose proof (good_inv _ Hg) as Hi. destruct o as [n|]; [|by apply (inv_user_data _ Hi) in Hp].
  assert (n ∈ m_clients (server w) -> n ∈ abandoned w) as Hn.
  { intros Hn. apply elem_of_union in Hd as [Hd|Hd]; [by eapply (good_dropped _ Hg)|]. destruct (inv_alive _ Hi p n Hp) as (cl & Hcl & <-). exfalso. revert Hn.
    apply (tidy_ended _ _ (inv_tidy _ Hi)); [set_solver|]. right. exists cl. auto. }
  pose proof (inv_on_peer_removed (server w) p n Hi Hp) as Hi'. destruct Hg as [H1 H2 H3 H4]. unfold on_peer_removed in *. rewrite Hp in *. split; [exact Hi'| | |]; cbn.
  - intros m Hm. destruct (decide (m = n)) as [->|Hne]; [right; auto|]. rewrite lookup_delete_ne by done. auto.
  - intros p' m Hp'. rewrite lookup_delete_Some. intros [_ Hm]. by eapply H3.
  - rewrite bool_decide_true, andb_true_r by done. exact H4.
Qed.

Lemma good_step w w' : step w w' -> good w -> good w'.
Proof.
  intros H Hg. pose proof (good_inv _ Hg) as Hi.
  destruct H as [p udp e a s' Hr Hp Hd Hc H|fuel p data e s' Hp H|fuel p n s' Hp H|p Hp Hd|fuel n k e s' Hn H|fuel n buffer size cb s' Hn H|fuel n s' Hn H|ep m sr ci nc dr cc s' e H|fuel cb s' H|fuel s' H|fuel e s' Hr H].
  - by eapply good_new_peer.
  - apply good_frame; [done|]. apply obind_ret_inv in H as (n & Hn & H). apply client_of_inv in Hn as [_ Hn]. by eapply frame_client_data.
  - by eapply good_timeout.
  - by apply good_removed.
  - apply good_frame; [done|]. eapply frame_client_sent; [apply Hi|done..].
  - apply good_frame; [done|]. by eapply frame_client_send.
  - apply good_frame; [done|]. by eapply client_close_leaves.
  - apply frame_dtls_listen in H as F. pose proof (good_frame w s' Hg F) as [H1 H2 H3 H4]. split; [done..|]. cbn in *. intros [Hr _]%orb_false_iff. apply H4. by rewrite Hr.
  - apply good_frame; [done|]. by eapply frame_dtls_close.
  - apply good_frame; [done|]. by eapply frame_dtls_removal.
  - assert (frame ∅ (server w) s') as F.
    { unfold on_udp_closed in H. destruct (m_close_server_callback _) as [[|]|]; [by eapply frame_user_call|by eapply frame_dtls_removal|by injection H as <-]. }
    pose proof (good_frame w s' Hg F) as [H1 H2 H3 H4]. split; [done|done| |done]. intros p n _ _ Hin. change (n ∈ m_clients (server (after w s'))) in Hin. rewrite H4 in Hin; [set_solver|]. cbn. by rewrite Hr.
Qed.

Lemma good_run range w : rtc step (start (create range)) w -> good w.
Proof.
  intros Hr. assert (good (start (create range))) as H0. { split; [apply inv_created|intros n Hn|intros p n Hp|done]; set_solver. }
  induction Hr as [|w1 w2 w3 H12 H23 IH]; [done|]. apply IH. by eapply good_step.
Qed.

(** ** Closing uses no deleted client *)

Hypothesis user_returns : forall e s, exists s', user e s = Ret s'.

Definition spared {A} (m : outcome A) : Prop := match m with Fault UseAfterFree => False | _ => True end.

Lemma spared_ne {A} (m : outcome A) : spared m -> m <> Fault UseAfterFree.
Proof. by intros H ->. Qed.

Lemma spared_bind {A B} (m : outcome A) (k : A -> outcome B) : spared m -> (forall a, m = Ret a -> spared (k a)) -> spared (obind m k).
Proof. destruct m as [a|f]; cbn; [|by destruct f]. intros _ H. by apply H. Qed.

Lemma call_spared (b : bool) s e : spared (if b then call user s e else Ret s).
Proof. destruct b; [|done]. unfold call. by destruct (user_returns e (s <| calls ::= fun l => l ++ [e] |>)) as [s' ->]. Qed.

Lemma called_spared n s o : spared (OpenSsl.called (derived := focus user n) s o).
Proof.
  unfold OpenSsl.called. generalize (OpenSsl.on_base (derived := focus user n) (fun b => b <| OpenSsl.m_ssl := Some o |>) s). clear s.
  induction (OpenSsl.infos o) as [|[w r] l IH]; intros s; cbn [OpenSsl.state_callbacks]; [done|]. apply spared_bind; [|intros s' _; apply IH].
  unfold OpenSsl.ssl_state_callback. destruct (_ && _); [|done]. cbn. destruct (_ =? SSL3_AD_CLOSE_NOTIFY); [apply call_spared|done].
Qed.

Lemma get_ssl_spared n s : spared (OpenSsl.get_ssl (derived := focus user n) s).
Proof. unfold OpenSsl.get_ssl. by destruct (OpenSsl.m_ssl _). Qed.

Lemma internal_spared fuel n s : spared (OpenSsl.internal_read_from_sll_and_send (derived := focus user n) fuel s OpenSsl.ShutdownSent).
Proof.
  unfold OpenSsl.internal_read_from_sll_and_send. apply spared_bind; [apply get_ssl_spared|]. intros o _. destruct (_ =? 0); [done|]. destruct (OpenSsl.BIO_read _ _) as [[? ?] ?].
  unfold OpenSsl.client_send_data. destruct (OpenSsl.m_client _); [|done]. destruct (OpenSsl.client_send _ _) as [? [|]]; [|done]. apply spared_bind; [apply call_spared|done].
Qed.

Lemma shutdown_spared fuel n s : spared (OpenSsl.ssl_shutdown (derived := focus user n) fuel s).
Proof.
  unfold OpenSsl.ssl_shutdown. apply spared_bind; [apply get_ssl_spared|]. intros o _. destruct (OpenSsl.SSL_shutdown o) as [o' r]. apply spared_bind; [apply called_spared|].
  intros s1 _. destruct (r <? 0).
  - apply spared_bind; [|by intros [[s2 z] e]]. apply spared_bind; [apply get_ssl_spared|]. intros o2 _. by destruct (OpenSsl.ERR_get_error o2).
  - apply spared_bind; [apply get_ssl_spared|]. intros o2 _. destruct (negb _); [|done]. by apply spared_bind; [apply internal_spared|].
Qed.

Lemma close_clients_spared fuel l s : (forall n, n ∈ l -> is_Some (clients s !! n)) -> spared (close_clients user fuel s l).
Proof.
  revert s. induction l as [|n l IH]; intros s Hl; cbn [close_clients]; [done|]. destruct (Hl n) as [cl Hn]; [by left|]. rewrite Hn. apply spared_bind.
  - unfold client_close. destruct (negb _); [done|]. apply spared_bind; [apply shutdown_spared|]. intros [s1 e] _. destruct (error_bool e); [apply call_spared|done].
  - intros s1 H1. apply IH. intros m Hm. apply client_close_leaves in H1 as [H1 _]; [|by eexists]. apply (fr_clients _ _ _ H1), Hl. by right.
Qed.

Lemma close_spared w : good w -> (forall n, n ∈ m_clients (server w) -> n ∉ abandoned w) -> forall fuel cb, close user fuel (server w) cb <> Fault UseAfterFree.
Proof.
  intros Hg Ha fuel cb. apply spared_ne, spared_bind; [|done]. apply close_clients_spared. intros n Hn. apply elem_of_elements in Hn.
  destruct (good_members _ Hg n Hn) as [H|H]; [done|]. by destruct (Ha n Hn).
Qed.

(** A packet that could not be received: the callback dereferences user data that is not there. *)
Theorem receive_error_faults fuel s p e : on_receive_error user fuel s p e = Fault NullDeref.
Proof. unfold on_receive_error, on_data_receive, client_of. cbn. by rewrite lookup_insert_eq. Qed.

Lemma client_of_known w p : good w -> is_Some (peers (server w) !! p) -> exists n, client_of (server w) p = Ret n.
Proof.
  intros Hg [[n|] Hp]; [|by apply (inv_user_data _ (good_inv _ Hg)) in Hp]. exists n. unfold client_of. rewrite Hp.
  destruct (inv_alive _ (good_inv _ Hg) p n Hp) as (cl & Hcl & _). by rewrite Hcl.
Qed.

Lemma client_of_injective w p p' n : good w -> client_of (server w) p = Ret n -> client_of (server w) p' = Ret n -> p = p'.
Proof.
  intros Hg H H'. apply client_of_inv in H as [H _]. apply client_of_inv in H' as [H' _]. destruct (inv_alive _ (good_inv _ Hg) p n H) as (cl & E & <-).
  destruct (inv_alive _ (good_inv _ Hg) p' n H') as (cl' & E' & <-). congruence.
Qed.

End Facts.

(** ** User code *)

Section Scripts.
Context {uv : UvErrno} {S C : Type} {ssl : OpenSsl.Ssl S} {transport : OpenSsl.Transport C} {datagrams : DtlsClient.Datagrams C} {opts : SslOptions}.
Abbreviation t := (t (S := S) (C := C)).

(** A call of a public function, with the callbacks [user]. *)
Inductive api (user : Call -> t -> outcome t) (s s' : t) : Prop :=
| api_send fuel n buffer size cb : is_Some (clients s !! n) -> OpenSsl.send_data_impl (derived := focus user n) fuel s buffer size cb = Ret s' -> api user s s'
| api_client_close fuel n : is_Some (clients s !! n) -> client_close user fuel n s = Ret s' -> api user s s'
| api_listen endpoint m sr ciphers nc dr cc e : listen s endpoint m sr ciphers nc dr cc = (s', e) -> api user s s'
| api_close fuel cb : close user fuel s cb = Ret s' -> api user s s'
| api_schedule_removal fuel : schedule_removal user fuel s = Ret s' -> api user s s'.

(** User code whose callbacks call any of them, in which callbacks are called, and so on: [depth] levels deep. *)
Fixpoint scripted (depth : nat) (user : Call -> t -> outcome t) : Prop :=
  match depth with
  | O => forall e s, user e s = Ret s
  | Datatypes.S depth => exists inner, scripted depth inner /\ forall e s s', user e s = Ret s' -> rtc (api inner) s s'
  end.

Lemma api_frame user s s' : (forall e s s', user e s = Ret s' -> frame ∅ s s') -> api user s s' -> frame ∅ s s'.
Proof.
  intros Hu [fuel n buffer size cb Hn H|fuel n Hn H|ep m sr ci nc dr cc e H|fuel cb H|fuel H].
  - exact (frame_client_send user Hu fuel n s buffer size cb s' Hn H).
  - exact (proj1 (client_close_leaves user Hu fuel n s s' Hn H)).
  - by eapply frame_dtls_listen.
  - exact (frame_dtls_close user Hu fuel s cb s' H).
  - exact (frame_dtls_removal user Hu fuel s s' H).
Qed.

Lemma scripted_frame depth user : scripted depth user -> forall e s s', user e s = Ret s' -> frame ∅ s s'.
Proof.
  revert user. induction depth as [|depth IH]; intros user Hu e s s' H; cbn in Hu; [rewrite Hu in H; by injection H as <-|].
  destruct Hu as (inner & Hin & Hu). apply Hu in H. induction H as [s|s1 s2 s3 H12 _ IHr]; [done|]. etransitivity; [|exact IHr]. eapply api_frame; [|exact H12]. by apply IH.
Qed.

Variable user : Call -> t -> outcome t.
Variable depth : nat.
Hypothesis user_scripted : scripted depth user.
Hypothesis user_returns : forall e s, exists s', user e s = Ret s'.

(** C15. In every run of a DTLS server with user code that calls its functions, in its callbacks too, in which peers come while the UDP server receives, time out, and are removed once they
    have been closed, have timed out or the UDP server has closed: each peer that is known has a DTLS client of its own, which the callbacks find through the user data, and
    no client is left without a peer.  The clients in [m_clients] exist, but for those whose peer timed out before their handshake was finished; none of them has been
    reported as closed, has its closing message under way or a closed peer; and the timeout of an open client takes it out.  So, but for the former, closing the server uses no deleted
    object; and afterwards it counts no clients.  A packet that can not be received makes the server dereference user data that is not there. *)
Theorem dtls_clients_tracked range w : rtc (step user) (start (create range)) w ->
  let s := server w in
  (forall p, is_Some (peers s !! p) -> exists n, client_of s p = Ret n) /\
  (forall p p' n, client_of s p = Ret n -> client_of s p' = Ret n -> p = p') /\
  (forall n, is_Some (clients s !! n) -> exists p, client_of s p = Ret n) /\
  (forall n, n ∈ m_clients s -> ~ ended n s /\ (is_Some (clients s !! n) \/ n ∈ abandoned w)) /\
  (forall fuel p n s', client_of s p = Ret n -> OpenSsl.is_open (impl (get_client n s)) = true -> on_timeout user fuel s p = Ret s' -> n ∉ m_clients s') /\
  (forall fuel cb, ((forall n, n ∈ m_clients s -> n ∉ abandoned w) -> close user fuel s cb <> Fault UseAfterFree) /\
     forall s', close user fuel s cb = Ret s' -> connected_clients_count s' = 0%nat) /\
  (forall fuel p e, on_receive_error user fuel s p e = Fault NullDeref).
Proof.
  pose proof (scripted_frame depth user user_scripted) as Hu. intros Hr s. pose proof (good_run user Hu range w Hr) as Hg. pose proof (good_inv _ Hg) as Hi. fold s in Hi. split_and!.
  - intros p. by apply client_of_known.
  - intros p p' n. by apply client_of_injective.
  - intros n [cl Hn]. exists (peer cl). unfold client_of. by rewrite (inv_owner _ Hi n cl Hn), Hn.
  - intros n Hn. split; [|by apply (good_members _ Hg)]. intros He. revert Hn. apply (tidy_ended _ _ (inv_tidy _ Hi)); [apply not_elem_of_empty|done].
  - intros fuel p n s' Hp Ho H. unfold on_timeout in H. rewrite Hp in H. apply client_of_inv in Hp as [_ Hn]. by apply (client_close_leaves user Hu fuel n s s' Hn H).
  - intros fuel cb. split; [intros Ha; by apply (close_spared user Hu user_returns w Hg Ha)|].
    intros s' H. unfold connected_clients_count. rewrite (close_counts_none user Hu fuel s cb s' H). apply size_empty.
  - intros fuel p e. apply receive_error_faults.
Qed.

End Scripts.

(** ** Examples *)

Section Examples.
#[local] Existing Instance UvFallback.
#[local] Existing Instance OpenSsl111.
#[local] Existing Instance LittleEndianHost.
#[local] Instance unit_datagrams : DtlsClient.Datagrams unit := { new_client := tt; client_set_destination c _ _ := c; client_close c := c; client_bound_port c := 5000 }.

Abbreviation toy_server := (DtlsServer.t (S := OpenSsl.Toy) (C := unit)).

Definition silent (e : Call) (s : toy_server) : outcome toy_server := Ret s.

Definition idle : toy_server := create (DtlsV1_0, DtlsV1_2).
Definition local : Endpoint.t := Endpoint.of_u32 2130706433 80.
Definition listening : toy_server := (listen idle local TlsServer.material (Error_of_status OK) "ALL" true true true).1.
Definition get (m : outcome toy_server) : toy_server := match m with Ret s => s | Fault _ => idle end.
Definition accepted : toy_server := get (on_new_peer silent listening 5 tt (Error_of_uv 0) TlsClient.new_ssl).
Definition answered : toy_server := get (on_data_receive silent 3 accepted 5 [1] (Error_of_uv 0)).
Definition established : toy_server := get (OpenSsl.on_sent (derived := focus silent 0) 3 answered 0 (Error_of_status OK)).

(** User code that closes a client when it is given data. *)
Definition closer (e : Call) (s : toy_server) : outcome toy_server :=
  match e with
  | DataReceived n _ _ _ => match clients s !! n, client_close silent 0 n s with Some _, Ret s' => Ret s' | _, _ => Ret s end
  | _ => Ret s
  end.

Lemma closer_scripted : scripted 1 closer.
Proof.
  exists silent. split; [done|]. intros e s s' H. destruct e as [n e|n c d e|n e|n k e|e]; cbn in H; try (by injection H as <-).
  destruct (clients s !! n) as [cl|] eqn:Hn; [|by injection H as <-]. destruct (client_close silent 0 n s) as [s1|f] eqn:E; [|by injection H as <-].
  injection H as <-. apply rtc_once, (api_client_close _ _ _ 0 n); [by eexists|done].
Qed.

Lemma closer_returns e s : exists s', closer e s = Ret s'.
Proof. destruct e; cbn; try (by eexists). destruct (clients s !! _); [|by eexists]. destruct (client_close _ _ _ _); by eexists. Qed.

(** A client finishes its handshake and sends data; the user closes it; its closing message is sent, and its peer removed. *)
Definition told : toy_server := get (on_data_receive closer 3 established 5 [1; 7] (Error_of_uv 0)).
Definition closed : toy_server := get (OpenSsl.on_sent (derived := focus closer 0) 3 told 0 (Error_of_status OK)).
Definition gone : toy_server := on_peer_removed closed 5.

(** Steps in which the UDP server is not told to close. *)
Lemma step_stays s s' D A : step closer (mkWorld s true D A) (after (mkWorld s true D A) s') -> udp_closes s' = udp_closes s -> step closer (mkWorld s true D A) (mkWorld s' true D A).
Proof. intros H E. unfold after in H. cbn [server receiving dropped abandoned andb] in H. by rewrite bool_decide_true in H. Qed.

Lemma gone_run : rtc (step closer) (start idle) (mkWorld gone true ∅ ∅).
Proof.
  apply (rtc_l _ _ (mkWorld listening true ∅ ∅)); [apply (step_listen _ (start idle) local TlsServer.material (Error_of_status OK) "ALL" true true true listening (Error_of_status OK)); vm_compute; reflexivity|].
  apply (rtc_l _ _ (mkWorld accepted true ∅ ∅)).
  { apply step_stays; [|vm_compute; reflexivity]. apply (step_new closer (mkWorld listening true ∅ ∅) 5 tt (Error_of_uv 0) TlsClient.new_ssl);
      [reflexivity|vm_compute; reflexivity|apply not_elem_of_empty|apply not_elem_of_empty|vm_compute; reflexivity]. }
  apply (rtc_l _ _ (mkWorld answered true ∅ ∅)).
  { apply step_stays; [|vm_compute; reflexivity]. apply (step_data closer (mkWorld accepted true ∅ ∅) 3 5 [1] (Error_of_uv 0)); [apply (bool_decide_unpack _); vm_compute; exact I|vm_compute; reflexivity]. }
  apply (rtc_l _ _ (mkWorld established true ∅ ∅)).
  { apply step_stays; [|vm_compute; reflexivity]. apply (step_sent closer (mkWorld answered true ∅ ∅) 3 0 0 (Error_of_status OK)); [apply (bool_decide_unpack _); vm_compute; exact I|vm_compute; reflexivity]. }
  apply (rtc_l _ _ (mkWorld told true ∅ ∅)).
  { apply step_stays; [|vm_compute; reflexivity]. apply (step_data closer (mkWorld established true ∅ ∅) 3 5 [1; 7] (Error_of_uv 0)); [apply (bool_decide_unpack _); vm_compute; exact I|vm_compute; reflexivity]. }
  apply (rtc_l _ _ (mkWorld closed true ∅ ∅)).
  { apply step_stays; [|vm_compute; reflexivity]. apply (step_sent closer (mkWorld told true ∅ ∅) 3 0 0 (Error_of_status OK)); [apply (bool_decide_unpack _); vm_compute; exact I|vm_compute; reflexivity]. }
  apply rtc_once, step_stays; [|vm_compute; reflexivity]. apply (step_removed closer (mkWorld closed true ∅ ∅) 5); apply (bool_decide_unpack _); vm_compute; exact I.
Qed.

Lemma dtls_clients_tracked_witness : calls gone = [NewConnection 0 (Error_of_uv 0); DataReceived 0 (mkChunk (Some 0%nat) 2 0) [84; 82] (Error_of_uv 0); ConnectionClosed 0 (Error_of_uv 0)] /\
  connected_clients_count established = 1%nat /\ 0%nat ∉ m_clients gone /\ close closer 0 gone None <> Fault UseAfterFree.
Proof.
  assert (calls gone = [NewConnection 0 (Error_of_uv 0); DataReceived 0 (mkChunk (Some 0%nat) 2 0) [84; 82] (Error_of_uv 0); ConnectionClosed 0 (Error_of_uv 0)]) as E by (vm_compute; reflexivity).
  destruct (dtls_clients_tracked closer 1 closer_scripted closer_returns (DtlsV1_0, DtlsV1_2) (mkWorld gone true ∅ ∅) gone_run) as (_ & _ & _ & H4 & _ & H6 & _).
  split; [exact E|]. split; [vm_compute; reflexivity|]. split.
  - intros Hin. destruct (H4 0%nat Hin) as [Hn _]. apply Hn. left. exists (Error_of_uv 0). cbn [server]. rewrite E. right. right. left.
  - apply (H6 0%nat None). intros n _. apply not_elem_of_empty.
Defined.

(** An established session is closed by the timeout of its peer: the peer is told, and the client is not counted any longer. *)
Example timeout_closes :
  let s := get (on_timeout silent 0 established 5) in
  connected_clients_count established = 1%nat /\ connected_clients_count s = 0%nat /\
  calls (get (OpenSsl.on_sent (derived := focus silent 0) 0 s 0 (Error_of_status OK))) = calls established ++ [ConnectionClosed 0 (Error_of_uv 0)].
Proof. vm_compute. done. Qed.

(** A session whose handshake has not finished: [close] does nothing for it, its peer is removed after the timeout and the client deleted, but it is still counted, and closing the server
    uses the deleted object. *)
Example half_open_dangles :
  let s := on_peer_removed (get (on_timeout silent 0 accepted 5)) 5 in
  connected_clients_count s = 1%nat /\ clients s !! 0%nat = None /\ close silent 0 s None = Fault UseAfterFree.
Proof. vm_compute. done. Qed.

End Examples.

End DtlsServer.
