(* ===== verification/Dns.v ===== *)
(** * Dns

    [source/io/net/Dns.cpp]: resolving host names with [uv_getaddrinfo].

    A resolution is numbered by its callback.  A request that libuv has is in [requests]; [posted] are the resolutions that
    [defer_execution_if_required] leaves to the loop thread because the loop is not running.  The result list of libuv is the
    list of the memories at its [ai_addr] pointers. *)

From S2P Require Import Prelude StatusCode Inet Endpoint.
Local Open Scope outcome_scope.
Local Open Scope record_scope.

Module Dns.

(** [addrinfo] as far as the hints go, with the flags by their names. *)
Inductive Flag := AI_V4MAPPED | AI_ADDRCONFIG.
Record Hints := mkHints { ai_family : Z; ai_socktype_stream : bool; ai_flags : list Flag; ai_protocol : Z }.

(** A resolution: its number, whether it has a callback, the name and the protocol. *)
Record Query := mkQuery { number : nat; callback : bool; host_name : string; protocol : Endpoint.Type_ }.

Inductive Call := Resolved (number : nat) (endpoints : list Endpoint.t) (error : Error).

Record t := mk {
  running : bool;
  posted : list Query;
  requests : gmap nat (Query * Hints);
  calls : list Call
}.

#[global] Instance t_settable : Settable t := settable! mk < running; posted; requests; calls >.

Definition create : t := mk false [] ∅ [].

Section Operations.
Context {host : Host} {uv : UvErrno}.

Definition call (s : t) (c : Call) : t := s <| calls ::= fun l => l ++ [c] |>.

Definition hints (q : Query) : Hints := mkHints (Endpoint.raw_type (protocol q)) true [AI_V4MAPPED; AI_ADDRCONFIG] 0.

(** [uv_status] is the result of [uv_getaddrinfo]. *)
Definition resolve_host_impl (s : t) (q : Query) (uv_status : Z) : t :=
  let error := Error_of_uv uv_status in
  if error_bool error then if callback q then call s (Resolved (number q) [] error) else s
  else s <| requests ::= insert (number q) (q, hints q) |>.

Definition resolve_host (s : t) (q : Query) (uv_status : Z) : t :=
  if running s then resolve_host_impl s q uv_status else s <| posted ::= fun l => l ++ [q] |>.

(** The loop thread runs a posted resolution. *)
Definition run_posted (s : t) (uv_status : Z) : t :=
  match posted s with [] => s | q :: l => resolve_host_impl (s <| posted := l |>) q uv_status end.

(** The loop over the result list. *)
Fixpoint endpoints_of (res : list (list Z)) : outcome (list Endpoint.t) :=
  match res with
  | [] => Ret []
  | address :: res => let* e := Endpoint.of_sockaddr address in let* l := endpoints_of res in Ret (e :: l)
  end.

(** The translation of the status. *)
Definition resolve_error (status : Z) : Error :=
  let error := Error_of_uv status in
  if error_eqb error (Error_of_status TEMPORARY_FAILURE) then Error_of_status UNKNOWN_NODE_OR_SERVICE else error.

Definition on_getaddrinfo (s : t) (n : nat) (status : Z) (res : list (list Z)) : outcome t :=
  match requests s !! n with
  | None => Fault UseAfterFree
  | Some (q, _) =>
      let* endpoints := endpoints_of res in
      if callback q then Ret ((call s (Resolved n endpoints (resolve_error status))) <| requests ::= delete n |>)
      else Fault EmptyFunction
  end.

End Operations.

(** ** Facts *)

Section Facts.
Context {host : Host} {uv : UvErrno}.

Definition is_resolved (n : nat) (c : Call) : bool := match c with Resolved m _ _ => bool_decide (m = n) end.
Definition resolved (n : nat) (s : t) : nat := length (List.filter (is_resolved n) (calls s)).
Definition waiting (n : nat) (s : t) : nat := length (List.filter (fun q => bool_decide (number q = n)) (posted s)).

(** How often the resolution [n] has been answered or is still to be answered. *)
Definition outstanding (n : nat) (s : t) : nat := resolved n s + waiting n s + if decide (is_Some (requests s !! n)) then 1 else 0.

Lemma resolved_call n s m l e : resolved n (call s (Resolved m l e)) = (resolved n s + if bool_decide (m = n) then 1 else 0)%nat.
Proof. unfold resolved. cbn. rewrite List.filter_app, length_app. cbn. by destruct (bool_decide _). Qed.

Lemma answered n s m l e : resolved n ((call s (Resolved m l e)) <| requests ::= delete m |>) = (resolved n s + if bool_decide (m = n) then 1 else 0)%nat.
Proof. exact (resolved_call n s m l e). Qed.

(** A new resolution with a callback is answered or waits for its answer. *)
Lemma outstanding_impl n s q uv_status : callback q = true -> requests s !! number q = None ->
  outstanding n (resolve_host_impl s q uv_status) = (outstanding n s + if bool_decide (number q = n) then 1 else 0)%nat.
Proof.
  intros Hc Hn. unfold resolve_host_impl. rewrite Hc. destruct (error_bool _).
  - unfold outstanding. rewrite resolved_call. change (waiting n (call s _)) with (waiting n s). change (requests (call s _)) with (requests s). lia.
  - unfold outstanding. cbn [requests]. destruct (decide (number q = n)) as [<-|Hne].
    + rewrite bool_decide_true by done. cbn. rewrite lookup_insert_eq, Hn. rewrite decide_True by (by eexists). rewrite decide_False by (by intros [? ?]). unfold resolved, waiting. cbn. lia.
    + rewrite bool_decide_false by done. cbn. rewrite lookup_insert_ne by done. unfold resolved, waiting. cbn. lia.
Qed.

(** The steps of a program that numbers its resolutions and gives each a callback. *)
Inductive step (s : t) : t -> Prop :=
| step_resolve q uv_status : callback q = true -> outstanding (number q) s = 0%nat -> step s (resolve_host s q uv_status)
| step_run : step s (s <| running := true |>)
| step_posted uv_status : step s (run_posted s uv_status)
| step_answer n status res s' : is_Some (requests s !! n) -> on_getaddrinfo s n status res = Ret s' -> step s s'.

Record inv (s : t) : Prop := {
  inv_number n q h : requests s !! n = Some (q, h) -> number q = n /\ callback q = true;
  inv_callbacks : Forall (fun q => callback q = true) (posted s);
  inv_once n : (outstanding n s <= 1)%nat
}.

Lemma inv_impl s q uv_status : inv s -> callback q = true -> outstanding (number q) s = 0%nat -> inv (resolve_host_impl s q uv_status).
Proof.
  intros [H1 H2 H3] Hc Hn. assert (requests s !! number q = None) as Hr.
  { unfold outstanding in Hn. destruct (decide (is_Some (requests s !! number q))) as [|Hno]; [lia|]. by apply eq_None_not_Some. }
  split.
  - intros n q' h. unfold resolve_host_impl. rewrite Hc. destruct (error_bool _); cbn; [apply H1|]. rewrite lookup_insert_Some. intros [[<- [= <- <-]]|[_ H]]; [done|by apply (H1 n q' h)].
  - unfold resolve_host_impl. rewrite Hc. by destruct (error_bool _).
  - intros n. rewrite outstanding_impl by done. case_bool_decide as E; [subst n; lia|]. specialize (H3 n). lia.
Qed.

Lemma step_preserves s s' : step s s' -> inv s -> inv s'.
Proof.
  intros H Hi. destruct H as [q u Hc Ho| |u|n status res s' Hn H].
  - unfold resolve_host. destruct (running s); [by apply inv_impl|]. destruct Hi as [H1 H2 H3]. split; cbn; [done|apply Forall_app; by repeat constructor|].
    intros n. unfold outstanding, waiting in *. cbn. rewrite List.filter_app, length_app. cbn. case_bool_decide as E; [subst n; unfold resolved in *; cbn; lia|]. specialize (H3 n). unfold resolved in *. cbn. lia.
  - destruct Hi as [H1 H2 H3]. by split.
  - unfold run_posted. destruct (posted s) as [|q l] eqn:E; [done|]. destruct Hi as [H1 H2 H3]. rewrite E in H2. apply Forall_cons in H2 as [Hc Hl].
    assert (forall n, outstanding n s = (outstanding n (s <| posted := l |>) + if bool_decide (number q = n) then 1 else 0)%nat) as Hout.
    { intros n. unfold outstanding, waiting. rewrite E. unfold resolved. cbn. destruct (bool_decide (number q = n)); cbn; lia. }
    apply inv_impl; [|done|].
    + split; [done|done|]. intros n. specialize (H3 n). rewrite Hout in H3. lia.
    + specialize (H3 (number q)). rewrite Hout, bool_decide_true in H3 by done. lia.
  - unfold on_getaddrinfo in H. destruct (requests s !! n) as [[q h]|] eqn:E; [|done]. apply obind_ret_inv in H as (l & _ & H). destruct (callback q); [|done]. injection H as <-.
    destruct Hi as [H1 H2 H3]. split; [|done|].
    + intros m q' h'. cbn. rewrite lookup_delete_Some. intros [_ H]. by apply (H1 m q' h').
    + intros m. specialize (H3 m). unfold outstanding in *.
      change ((resolved m ((call s (Resolved n l (resolve_error status))) <| requests ::= delete n |>) + waiting m s + if decide (is_Some (delete n (requests s) !! m)) then 1 else 0) <= 1)%nat.
      rewrite answered. case_bool_decide as En.
      * subst m. rewrite lookup_delete_eq, decide_False by (by intros [? ?]). rewrite E, decide_True in H3 by (by eexists). lia.
      * rewrite lookup_delete_ne by done. lia.
Qed.

(** In every run each resolution that was begun is answered once at most; as long as it has not been answered it is posted or libuv has its request; and the answer of libuv, when
    the addresses in it are complete, leads to the call. *)
Theorem resolved_once s n : rtc step create s ->
  (outstanding n s <= 1)%nat /\
  forall status res l, is_Some (requests s !! n) -> endpoints_of res = Ret l ->
    exists s', on_getaddrinfo s n status res = Ret s' /\ calls s' = calls s ++ [Resolved n l (resolve_error status)] /\ outstanding n s' = 1%nat.
Proof.
  intros Hr. assert (inv s) as Hi. { assert (inv create) as H0 by (split; [done|done|]; intros m; unfold outstanding; rewrite decide_False; [cbn; lia|cbn; rewrite lookup_empty; by intros [? ?]]). induction Hr as [|s1 s2 s3 H12 H23 IH]; [done|]. apply IH. by eapply step_preserves. }
  split; [apply (inv_once _ Hi)|]. intros status res l [[q h] Hq] Hl. destruct (inv_number _ Hi n q h Hq) as [Hn Hc]. unfold on_getaddrinfo. rewrite Hq, Hl. cbn [obind]. rewrite Hc.
  eexists. split; [reflexivity|]. split; [done|]. pose proof (inv_once _ Hi n) as H1. unfold outstanding in *. rewrite Hq, decide_True in H1 by (by eexists).
  rewrite answered, bool_decide_true by done. change (waiting n _) with (waiting n s). cbn. rewrite lookup_delete_eq, decide_False by (by intros [? ?]). lia.
Qed.

(** [TEMPORARY_FAILURE] is never reported; every other status is reported as it is. *)
Theorem resolve_error_translates status : code (resolve_error status) <> TEMPORARY_FAILURE /\
  (code (Error_of_uv status) <> TEMPORARY_FAILURE -> resolve_error status = Error_of_uv status) /\ (error_bool (resolve_error status) = error_bool (Error_of_uv status)).
Proof.
  unfold resolve_error, error_eqb. cbn. case_bool_decide as E.
  - split_and!; [done|done|]. unfold error_bool, code in *. by rewrite E.
  - done.
Qed.

(** A resolution without a callback that succeeds calls an empty function; one that is refused does not. *)
Theorem resolve_needs_callback s n q h status : requests s !! n = Some (q, h) -> callback q = false -> on_getaddrinfo s n status [] = Fault EmptyFunction.
Proof. intros H Hc. unfold on_getaddrinfo. rewrite H. cbn. by rewrite Hc. Qed.

End Facts.

End Dns.
